(* ===== verification/_CoqProject ===== *)
-Q . S2P
Prelude.v
Types.v
KeyedBuf.v
AddrMap.v
ReqQueue.v
CmdQueue.v
CmdGen.v
DRAM.v
DDR3.v
Device.v
DDR4.v
DSARP.v
DeviceChoice.v
Refresh.v
CmdSched.v
CmdAlg.v
CmdAlgos.v
Pool.v
FifoAlgos.v
BundleAlgos.v
PipeAlgo.v
RocAlgo.v
RoundAlgo.v
MagAlgo.v
Progress.v
ReqSched.v
Prompt.v
BatchAlgos.v
SlotAlgos.v
ClockDomain.v
Config.v
Controller.v
Ledger.v
Flow.v
Leaves.v
System.v
DDR3System.v
Phases.v
Liveness.v
Channels.v
Requestor.v
Simulation.v
Register.v
Configured.v
Shipped.v
MacDram.v
MacDramLaws.v
MacDramRun.v
MacDramBus.v
MacDramLive.v
MacDramProgress.v
MacMCsim.v
MacWitness.v
MacRouter.v
MacRouterLaws.v
MacRouterMoves.v
MacRouterRun.v
MacRouterNet.v
MacNetwork.v
MacMemory.v
