(* ===== verification/Prelude.v ===== *)
(** * MCsim: a memory controller simulator

    MCsim (src/src, src/dram, src/generalScheduler, src/system) simulates DRAM memory
    controllers cycle by cycle. A client adds memory requests; the controller turns
    them into DRAM commands, sends at most one command a cycle to a device that
    accepts it, and answers a request when its last data went over the bus. The
    policies (which request next, which commands for it, which command next) are
    chosen by name from a register of algorithms. This library models the simulator
    and proves what makes it correct: the timing of the DRAM standard is kept,
    every request is answered once, and each algorithm does what it is for - or,
    where the code has an error, what it does instead.

    ** The program's parts, and where they are

<<
    main: Requestor per trace             Requestor.v, Simulation.v
                | addRequest, callback
                v
              MultiChannelMemorySystem    Channels.v    (ClockDomain.v)
                | a system per channel
                v
              MemorySystem                System.v, DDR3System.v, DeviceChoice.v,
                |                         Phases.v, Liveness.v, Configured.v,
                |                         Shipped.v
                v
              MemoryController            Controller.v, Ledger.v, Flow.v, Config.v,
                |                         Register.v
                | addressMapping          AddrMap.v
                v
              RequestQueue                ReqQueue.v
                | RequestScheduler        ReqSched.v, Prompt.v, BatchAlgos.v,
                |                         SlotAlgos.v
                v
              CommandGenerator            CmdGen.v
                |
                v
              CommandQueue                CmdQueue.v
                | CommandScheduler        CmdSched.v, CmdAlg.v, CmdAlgos.v, Pool.v,
                |                         FifoAlgos.v, BundleAlgos.v, PipeAlgo.v,
                |                         RocAlgo.v, RoundAlgo.v, MagAlgo.v,
                |                         Progress.v, Refresh.v (RefreshMachine)
                v
              MemoryDevice, Ramulator_T   Device.v, Leaves.v
                |
                v
              ramulator::DRAM<T>          DRAM.v
                with T = DDR3, DDR4, DSARP  DDR3.v, DDR4.v, DSARP.v
>>

    MacSim (src/IntegrationWithMacSim/src), a simulator of whole processors, has a
    DRAM controller that is either one of its own or, in the other build, a client
    of MCsim:

<<
              router_wrapper_c, router_c  MacRouter.v, MacRouterLaws.v, MacRouterMoves.v,
                |                         MacRouterRun.v, MacRouterNet.v, MacNetwork.v
                | receive_packet, send_packet (class Network); where a request
                | goes: memory_c          MacMemory.v
                v
              dram_controller_c           MacDram.v, MacDramLaws.v, MacDramRun.v,
                |                         MacDramLive.v, MacDramProgress.v
                | own banks and buses     MacDramBus.v
                | or MCsim                MacMCsim.v
                v
              MultiChannelMemorySystem    (class Requestor.Memory)
>>

    MacDram.v has the definitions, MacDramLaws.v and MacDramRun.v the conservation of
    requests and the absence of faults, MacDramLive.v and MacDramProgress.v progress,
    MacWitness.v a network without latency and the runs of the examples. MacRouter.v has
    the routers and their network, MacRouterLaws.v its invariant (what is in a virtual
    channel, what is behind a grant, where the credits are), MacRouterMoves.v the moves of a
    flit that keep it, MacRouterRun.v the stages and cycles made of the moves,
    MacRouterNet.v the rings and meshes that are built, MacNetwork.v their runs. MacMemory.v
    has the part of memory_c that chooses the units and routers of a request.

    Types.v has the data they exchange (requests, command packets, the store of
    live requests), KeyedBuf.v the buffers by requestor both kinds of queues use, and
    this file what all of them share.

    A class of the source is a [Record] with its members, a member function a
    definition of the same name from the state before to the result and the state
    after; a subclass is a [Module] named after it. The names of the source are kept.
    A member of two classes gets a prefix ([cq_], [mc_], [gen_], [mch_]).

    ** How the code is modelled

    - Failure: the monad [res] below. A result is [Ok] or one of the five ways the
      source can leave a call: [abort()], [exit()], the [out_of_range] of a checked access,
      the [bad_function_call] of an empty callback, undefined behaviour. An access
      out of the range of a vector or an array, a null or dangling pointer and a
      read of a member that was never set are undefined; memory whose initial
      value matters and is not set is a parameter. One access out of range has a
      defined result under a condition: [addressMapping] writes the words of Row and
      Column behind [addressMap], the last member of a [Request], in every system
      whose address format names them. [Controller.addRequest] lets these writes pass while they
      stay in the block the allocator gave for the request ([request_room] words behind its
      last member; malloc of glibc gives the 80 bytes two words more) and is undefined
      beyond ([Controller.addRequest_overflow]). The theorems that say that a system does not
      fail ([Liveness.system_never_fails], [Liveness.every_request_is_answered],
      [Configured.configured_systems_answer]) ask for two words; by the letter of the C++ standard
      the writes are undefined whatever lies there. The theorems that speak of the runs there are
      need no such condition.
    - Integers: [Z] with the wrap-around of their width written out ([u32], [u64],
      [Device.i32]); [float] values that stay integral are rounded by [float_u32].
    - Requests are shared by pointer and mutated, so they live in the store
      [rheap]; packets are never changed after they entered a queue, so they are
      values. [std::map] is [gmap], with the default of [operator[]] at a lookup;
      vectors that are pushed to and erased from together are one list of pairs.
    - Loops over indices are folds ([forM], [foldM]) with [break] as [Stop]; loops
      that the source ends by a condition have fuel, and a theorem says that it is
      enough: [Controller.drain_done] (the length of the buffer that is emptied),
      [BatchAlgos.PARBS_batch] (the size of the queue times the cap),
      [ClockDomain.crosser_ratio] (the clock ratio), [DRAM.update_total] (the levels of
      the tree; the recursion is on the depth).
    - The callback is a client's function: an operation returns what it would be
      called with, and with [None] for the callback it fails.
    - The device, the generators and the schedulers are used through classes that
      state what one promises to the other: [Device.MemoryDevice] for
      the command schedulers, [CmdGen.CommandGenerator] for the request schedulers,
      [ReqSched.RequestScheduling] and [ReqSched.RequestAlgorithm],
      [CmdAlg.CommandScheduling] and [CmdAlg.CommandAlgorithm] for the controller, [Prompt.PromptAlgorithm],
      [Progress.WorkConserving] and [Phases.OffersHeads] for liveness, [DRAM.Standard], [DRAM.Spec] and [DRAM.SpecLaws] for the device tree,
      [Device.Ramulator] for the device on such a tree, [Requestor.Memory] and
      [Requestor.MemoryLaws] for the memory the requestors see. The
      theorems on the controller, the system and the simulation are proved against
      the interfaces, and the algorithms, standards and systems are the instances.
      The request schedulers RR, RTMem, PMC, MCMC, MEDUSA and PipeCAS and the command
      scheduler MAG are instances of the operations only, without the laws: theorems
      of their own say what the most of them do.

    ** What the theorems show

    - Timing, end to end: [DRAM.check] accepts a command exactly when every
      constraint of the tables with the commands before is kept
      ([DRAM.check_exact], [DRAM.timing_safe], [DRAM.get_next_check]); the timers of a
      command queue are an exact record of absolute times ([CmdSched.isReady_exact]);
      every algorithm of the interface keeps both ([CmdAlg.algorithm_keeps_timing]);
      a run of the system refines a run of the cycle relation
      ([System.system_refines_cycles]); so the packets of a whole system keep the
      timing of their standard ([DDR3System.system_keeps_timing]), if no posted command was sent:
      the device takes a posted access unchecked, tRCD later, and the generator MCMC
      makes such. What the tables
      give for single pairs of commands: [DDR3.four_activate_window],
      [DDR3.access_after_activate], [DDR4.column_access_distance],
      [DSARP.activate_after_refresh].
    - Construction: the device of the names of generation, speed and size
      ([DeviceChoice.make_device_spec], [DSARP.ctor_capacity]); a system made from the
      names of a configuration keeps the timing of its device
      ([Register.registered_keeps_timing]) when its queues have the shape its command scheduler is
      written for; the configuration files of src/system, all but MAG.ini, are read, built
      and do, with every DDR3 device ([Shipped.shipped_systems_keep_timing]).
    - The whole simulation: requestors, callback and memory agree on what is in flight
      ([Simulation.simulation_accounts], [Simulation.answers_find_requests]), and the
      lines of a trace are read back as printed ([Requestor.parseTraceFileLine_roundtrip]).
    - Conservation: queues keep what they are given and give it back once
      ([ReqQueue.insertRequest_spec]); request schedulers lose nothing
      ([ReqSched.no_request_lost]); every request is pending until it is answered,
      once ([System.requests_answered_once], [System.pending_typed],
      [Ledger.answered_with_last_data]); read data come back in order after the read
      latency ([Device.read_latency]), write data leave after the write latency
      ([System.write_data_on_time]).
    - Progress: a command at the front of its queue is followed by a sent command
      within [longest_wait] cycles ([Progress.offered_command_is_sent]). A whole system
      with one request queue and command queues by banks in front of one rank of a
      DDR3 device, with any prompt request scheduler and any work-conserving command
      scheduler, runs every sequence of operations without a failure
      ([Liveness.system_never_fails]) and answers every request
      ([Liveness.every_request_is_answered]); the systems that are configured so, with any
      DDR3 device, do ([Configured.configured_systems_answer]). The parts: Prompt.v (a request
      scheduler does not wait), Progress.v (neither does a command scheduler), Flow.v
      (the data on the way are what the pending requests miss), Leaves.v (the device
      knows every packet), Phases.v (the parts of a cycle put together).
    - Command streams: the generators emit streams that open a bank before they
      access it and access the row of the request, in one call
      ([CmdGen.Open_commandGenerate_legal] and the others) and over any number of
      calls with the row table of the request scheduler
      ([ReqSched.open_page_stream_legal]).
    - Address mapping, configuration and channels: the mapping is invertible
      ([AddrMap.addressMapping_roundtrip]), a configuration line reads back as printed
      ([Config.parse_line_roundtrip]), queue indices are in range
      ([Config.decodeQueue_in_range]), channels are independent systems
      ([Channels.channels_are_systems]), the clock crosser makes the exact number of
      calls ([ClockDomain.crosser_ratio]).
    - What single algorithms are for: batches, slots, rounds, orders and bounds
      (BatchAlgos.v, SlotAlgos.v, CmdAlgos.v, FifoAlgos.v, BundleAlgos.v, PipeAlgo.v,
      RocAlgo.v, RoundAlgo.v, MagAlgo.v).
    - MacSim's DRAM controller: every request is, exactly once, somewhere between its
      arrival and its end ([MacDramRun.mac_requests_accounted]); no memory is misused
      and no assertion but the one of the progress check can fail
      ([MacDramRun.mac_cycle_never_fails]), and that one does not with the knobs
      that come with MacSim, if the counters the constructor leaves unset happen to
      be 0 ([MacDramProgress.mac_always_progresses]); the first-ready
      scheduler takes the best entry ([MacDramBus.frfcfs_takes_the_best]), a bus carries
      no more than its width ([MacDramBus.bus_bandwidth]); with MCsim as the memory
      no request waits for an answer that MCsim does not owe
      ([MacMCsim.mcsim_has_what_is_pending]). These hold while the cycle counter is below
      2^31 (progress) or 2^64; [MacDramProgress.knobs_live] says what progress needs
      of the knobs, [MacWitness.shipped_knobs_live] that the shipped files have it. The
      wait of a bank is bounded by a weight of its entry's state
      ([MacDramLive.weight]), which falls in every cycle.
    - MacSim's network, as a ring or a mesh of any size: each packet is, once, at an
      interface, under way or with the router it was sent to
      ([MacNetwork.network_delivers]); no cycle fails ([MacNetwork.network_never_fails]);
      the credits are exact, so no buffer has more than its ten flits
      ([MacNetwork.network_buffers_fit]); every hop of a route is one nearer
      ([MacNetwork.every_hop_is_nearer]). What they ask of the knobs is
      [MacRouterLaws.noc_ok]: the pipeline of stages, not the ideal network and not the one
      without latency, which are defined only. The loop over the packets of an interface has their number as
      fuel, which is enough ([MacRouterRun.inject_loop_fuel]). That a packet arrives in
      the end is not proved: it depends on the freedom from deadlock of the escape
      channels, which the code does not have for packets to their own router.
    - MacSim's memory map: the units [set_cache_id] chooses for a request exist and the map of
      destinations names the routers they created ([MacMemory.requests_find_their_home],
      with the conditions [MacMemory.homes_ok]); an address is put together again from the
      controller, bank, row and column it is taken to ([MacMemory.new_interleaving_roundtrip]) when
      the bank is mixed with bits of the row number alone - with six controllers it is not, and
      addresses share a cell ([MacMemory.six_controllers_alias]) - and never
      with the default interleaving and more controllers than one ([MacMemory.default_interleaving_aliases]).
    - Where the code does not do what it means to, a theorem says what it does:
      the scope tables of DDR3 and DDR4 ([DDR3.ACT_changes_no_state],
      [DDR4.ACT_nRRDL_unchecked]), a stale command
      ([CmdAlgos.FCFS_returns_stale]), lost requests
      ([SlotAlgos.PipeCAS_loses_request]), reads outside a queue
      ([SlotAlgos.MEDUSA_write_drain]), starving requestors and commands that are
      never sent ([RocAlgo.ROC_waits_for_requestor_0], [RoundAlgo.Round_PRE_stuck]),
      commands that are dropped ([MagAlgo.MAG_removes_noncritical]), a register
      that limits every system ([Register.register_capacity]).

    ** Not modelled, and why

    - src/dram/StatType.cpp, StatType.h and Statistics.h: counters that nothing of
      the simulation reads.
    - Output: trace and log files, printing; the command line of main.cpp.
    - The string constructor of DSARP, which nothing calls; the clock crosser of a
      ratio given as a double, [setCPUClockSpeed] and [getClk] (floating point).
    - src/IntegrationWithMacSim but for the DRAM controller, the network, the memory map and
      what they use of memreq_info.h, utils.cc and the knobs: the cores, caches, branch
      predictors, the queues and miss buffers of the memory hierarchy and the trace reader of the third-party simulator
      MacSim, and an older copy of MCsim (src/IntegrationWithMacSim/src/MCsim). In the
      controller: statistics, printing, the bug detector, and the builds with
      DRAMSim2 and IRIS. In the network: statistics, printing, and the topology simple_noc,
      whose routers size their arrays with a number of ports that is never set. *)
From Stdlib Require Export ZArith Lia.
From stdpp Require Export base numbers list gmap fin_maps strings sorting.

Declare Scope mcsim_scope.
Delimit Scope mcsim_scope with mcsim.
#[global] Open Scope Z_scope.

(** ** Faults and results

    A C++ call either returns or ends in a way the source can reach: [abort()],
    [exit()], an exception (of a checked container access, [std::map::at], or of a call
    through an empty [std::function]), or undefined behaviour (an index past the
    end of a vector or an array, a dereferenced null or freed pointer, a value
    that was never set). *)
Inductive fault :=
| Abort
| OutOfRange
| BadFunctionCall
| Undefined
| Exit.

#[global] Instance fault_eq_dec : EqDecision fault.
Proof. solve_decision. Defined.

Inductive res (A : Type) :=
| Ok (a : A)
| Err (e : fault).
Arguments Ok {A} a.
Arguments Err {A} e.

#[global] Instance res_ret : MRet res := λ A a, Ok a.
#[global] Instance res_bind : MBind res := λ A B f x,
  match x with Ok a => f a | Err e => Err e end.
#[global] Instance res_fmap : FMap res := λ A B f x,
  match x with Ok a => Ok (f a) | Err e => Err e end.

Definition of_option {A} (e : fault) (o : option A) : res A :=
  match o with Some a => Ok a | None => Err e end.

(** [assert_ b] is the C [assert]: a failed one aborts. *)
Definition assert_ (b : bool) : res unit := if b then Ok tt else Err Abort.

Definition is_Ok {A} (r : res A) : bool := match r with Ok _ => true | Err _ => false end.

Lemma bind_Ok {A B} (r : res A) (f : A → res B) b :
  r ≫= f = Ok b ↔ ∃ a, r = Ok a ∧ f a = Ok b.
Proof.
  destruct r as [a|e]; simpl; split; [by eauto| |by intros H|].
  - by intros (a' & [= <-] & ?).
  - by intros (a' & ? & ?).
Qed.

Lemma fmap_Ok {A B} (r : res A) (f : A → B) b :
  f <$> r = Ok b ↔ ∃ a, r = Ok a ∧ f a = b.
Proof.
  destruct r as [a|e]; simpl; split.
  - intros [= <-]; eauto.
  - by intros (a' & [= <-] & <-).
  - done.
  - by intros (? & ? & ?).
Qed.

Lemma of_option_Ok {A} e (o : option A) a : of_option e o = Ok a ↔ o = Some a.
Proof. destruct o; simpl; split; congruence. Qed.

Lemma assert_Ok b u : assert_ b = Ok u ↔ b = true.
Proof. destruct b, u; simpl; split; done. Qed.

Create HintDb mcsim.
Create Rewrite HintDb mcsim_rw.

(** [simplify_res] opens the monadic binds of every hypothesis and solves the
    equations between results it meets. *)
Ltac simplify_res :=
  repeat match goal with
  | H : _ ≫= _ = Ok _ |- _ => apply bind_Ok in H; destruct H as (? & ? & H)
  | H : _ <$> _ = Ok _ |- _ => apply fmap_Ok in H; destruct H as (? & ? & H)
  | H : of_option _ _ = Ok _ |- _ => apply of_option_Ok in H
  | H : assert_ _ = Ok _ |- _ => apply assert_Ok in H
  | H : mret _ = Ok _ |- _ => unfold mret, res_ret in H
  | H : Err _ = Ok _ |- _ => discriminate H
  | H : Ok _ = Err _ |- _ => discriminate H
  | x : (_ * _)%type |- _ => destruct x
  | _ => progress (simplify_eq; cbn beta iota in * )
  end.

(** ** Machine integers

    An [unsigned] of the source is a [Z] in [0 .. 2^32), a [uint64_t],
    [unsigned long] or [size_t] one in [0 .. 2^64). *)
Definition u32 (z : Z) : Z := z `mod` 2 ^ 32.
Definition u64 (z : Z) : Z := z `mod` 2 ^ 64.

Lemma u32_range z : 0 ≤ u32 z < 2 ^ 32.
Proof. apply Z.mod_pos_bound; lia. Qed.
Lemma u32_small z : 0 ≤ z < 2 ^ 32 → u32 z = z.
Proof. apply Z.mod_small. Qed.
Lemma u64_small z : 0 ≤ z < 2 ^ 64 → u64 z = z.
Proof. apply Z.mod_small. Qed.
Lemma u32_idemp z : u32 (u32 z) = u32 z.
Proof. apply u32_small, u32_range. Qed.

(** ** Vectors

    [operator[]], [front] and [erase] of [std::vector] have no bound check:
    outside the range the behaviour is undefined. *)
Definition vec_at {A} (l : list A) (i : nat) : res A := of_option Undefined (l !! i).
Definition vec_front {A} (l : list A) : res A := vec_at l 0.
Definition vec_set {A} (l : list A) (i : nat) (x : A) : res (list A) :=
  if decide (i < length l)%nat then Ok (<[i := x]> l) else Err Undefined.
Definition vec_erase {A} (l : list A) (i : nat) : res (list A) :=
  if decide (i < length l)%nat then Ok (delete i l) else Err Undefined.

Lemma vec_at_Ok {A} (l : list A) i a : vec_at l i = Ok a ↔ l !! i = Some a.
Proof. apply of_option_Ok. Qed.
Lemma vec_erase_Ok {A} (l l' : list A) i :
  vec_erase l i = Ok l' ↔ (i < length l)%nat ∧ l' = delete i l.
Proof. unfold vec_erase; case_decide; (split; [intros [= <-]|intros [? ->]]); done. Qed.
Lemma vec_set_Ok {A} (l l' : list A) i x :
  vec_set l i x = Ok l' ↔ (i < length l)%nat ∧ l' = <[i := x]> l.
Proof. unfold vec_set; case_decide; (split; [intros [= <-]|intros [? ->]]); done. Qed.
Lemma vec_at_lt {A} (l : list A) i : (i < length l)%nat → ∃ a, vec_at l i = Ok a.
Proof. intros [a Ha]%lookup_lt_is_Some_2. exists a. by apply vec_at_Ok. Qed.

Lemma vec_set_lt {A} (l : list A) i x : (i < length l)%nat → vec_set l i x = Ok (<[i := x]> l).
Proof. intros Hi. by apply vec_set_Ok. Qed.

(** ** Loops

    [foldM] is a loop that runs to its end, [forM] one whose body may leave the
    loop ([break] or [return]) with a value. *)
Inductive flow (S R : Type) :=
| Next (s : S)
| Stop (s : S) (r : R).
Arguments Next {S R} s.
Arguments Stop {S R} s r.

Section loops.
Context {A S R : Type}.

Fixpoint foldM (l : list A) (s : S) (f : A → S → res S) : res S :=
  match l with
  | [] => Ok s
  | a :: l => s' ← f a s; foldM l s' f
  end.

Fixpoint forM (l : list A) (s : S) (f : A → S → res (flow S R)) : res (flow S R) :=
  match l with
  | [] => Ok (Next s)
  | a :: l =>
      o ← f a s;
      match o with
      | Next s' => forM l s' f
      | Stop s' r => Ok (Stop s' r)
      end
  end.

(** Rule of invariants of a loop without exits. *)
Lemma foldM_inv (I : S → Prop) l s f s' :
  I s →
  (∀ a s1 s2, a ∈ l → I s1 → f a s1 = Ok s2 → I s2) →
  foldM l s f = Ok s' → I s'.
Proof.
  revert s. induction l as [|a l IH]; intros s Hs Hf H; simpl in H; simplify_res; [done|].
  eapply IH; [| |done]; [eapply Hf; [left|done|done]|].
  intros; eapply Hf; [by right|done|done].
Qed.

(** Rule of invariants of a loop with exits: [I] holds when the loop runs to
    its end, [Q] when the body leaves it. *)
Lemma forM_inv (I : S → Prop) (Q : S → R → Prop) l s f o :
  I s →
  (∀ a s1 o1, a ∈ l → I s1 → f a s1 = Ok o1 →
     match o1 with Next s2 => I s2 | Stop s2 r => Q s2 r end) →
  forM l s f = Ok o →
  match o with Next s' => I s' | Stop s' r => Q s' r end.
Proof.
  revert s. induction l as [|a l IH]; intros s Hs Hf H; simpl in H; simplify_res; [done|].
  match goal with H1 : f a s = Ok ?x |- _ =>
    pose proof (Hf a s x ltac:(left) Hs H1) as Hx; destruct x end; simplify_res.
  - eapply IH; [done| |done]. intros; eapply Hf; [by right|done|done].
  - done.
Qed.

(** A loop whose body never fails does not fail. *)
Lemma foldM_total (I : S → Prop) l s f :
  I s →
  (∀ a s1, a ∈ l → I s1 → ∃ s2, f a s1 = Ok s2 ∧ I s2) →
  ∃ s', foldM l s f = Ok s' ∧ I s'.
Proof.
  revert s. induction l as [|a l IH]; intros s Hs Hf; simpl; [by eauto|].
  destruct (Hf a s ltac:(left) Hs) as (s2 & -> & Hs2). simpl.
  apply IH; [done|]. intros; apply Hf; [by right|done].
Qed.

Lemma forM_total (I : S → Prop) l s f :
  I s →
  (∀ a s1, a ∈ l → I s1 → ∃ o, f a s1 = Ok o ∧ ∀ s2, o = Next s2 → I s2) →
  ∃ o, forM l s f = Ok o.
Proof.
  revert s. induction l as [|a l IH]; intros s Hs Hf; simpl; [by eauto|].
  destruct (Hf a s ltac:(left) Hs) as (o & -> & Ho). simpl. destruct o as [s2|s2 r]; [|eauto].
  apply IH; [by apply Ho|]. intros; apply Hf; [by right|done].
Qed.
End loops.

(** The loop that looks for the first element that passes a test and leaves. *)
Fixpoint first_such {A} (test : A → res bool) (l : list A) : res (option nat) :=
  match l with
  | [] => Ok None
  | x :: l =>
      b ← test x;
      if b : bool then Ok (Some 0%nat)
      else k ← first_such test l; Ok (option_map S k)
  end.

Lemma first_such_Some {A} (test : A → res bool) l k :
  first_such test l = Ok (Some k) →
  ∃ x, l !! k = Some x ∧ test x = Ok true ∧ ∀ j y, (j < k)%nat → l !! j = Some y → test y = Ok false.
Proof.
  revert k. induction l as [|x l IH]; intros k Hf; [done|]. cbn [first_such] in Hf.
  apply bind_Ok in Hf as (b & Hb & Hf). destruct b.
  - injection Hf as <-. exists x. split_and!; [done|done|]. intros; lia.
  - apply bind_Ok in Hf as ([k'|] & Hk & Hf); [|done]. injection Hf as <-.
    destruct (IH _ Hk) as (y & Hy & Hty & Hlt). exists y. split_and!; [done|done|].
    intros [|j] z Hj Hz; [by injection Hz as <-|]. apply (Hlt j z); [lia|done].
Qed.

Lemma first_such_None {A} (test : A → res bool) l x :
  first_such test l = Ok None → x ∈ l → test x = Ok false.
Proof.
  induction l as [|y l IH]; intros Hf Hx; [by apply not_elem_of_nil in Hx|]. cbn [first_such] in Hf.
  apply bind_Ok in Hf as ([] & Hb & Hf); [done|]. apply bind_Ok in Hf as ([k|] & Hk & Hf); [done|].
  apply elem_of_cons in Hx as [->|Hx]; [done|by apply IH].
Qed.

(** ** Lists *)
Lemma delete_Permutation {A} (l : list A) i x :
  l !! i = Some x → l ≡ₚ x :: delete i l.
Proof. apply list.delete_Permutation. Qed.

Lemma delete_0 {A} (x : A) l : delete 0%nat (x :: l) = l.
Proof. done. Qed.

Lemma filter_none {A} (P : A → Prop) `{∀ x, Decision (P x)} (l : list A) :
  (∀ x, x ∈ l → ¬ P x) → filter P l = [].
Proof.
  induction l as [|x l IH]; intros Hl; [done|].
  rewrite filter_cons_False by (apply Hl; left). apply IH. intros; apply Hl; by right.
Qed.

Lemma filter_all {A} (P : A → Prop) `{∀ x, Decision (P x)} (l : list A) : Forall P l → filter P l = l.
Proof. induction 1 as [|x l Hx _ IH]; [done|]. rewrite filter_cons_True by done. by rewrite IH. Qed.

(** An element more in one of several buffers. *)
Lemma concat_insert_cons {A} (l : list (list A)) r f f' x :
  l !! r = Some f → f' ≡ₚ x :: f → concat (<[r := f']> l) ≡ₚ x :: concat l.
Proof.
  revert r. induction l as [|g l IH]; intros [|r] Hr E; simplify_eq/=.
  - by rewrite E.
  - rewrite (IH r Hr E). by rewrite Permutation_middle.
Qed.

Lemma concat_insert_delete {A} (l : list (list A)) r f k x :
  l !! r = Some f → f !! k = Some x → concat l ≡ₚ x :: concat (<[r := delete k f]> l).
Proof.
  intros Hr Hk. assert (l = <[r := f]> (<[r := delete k f]> l)) as E
    by (rewrite list_insert_insert_eq; symmetry; by apply list_insert_id).
  rewrite E at 1.
  apply (concat_insert_cons _ r (delete k f)); [|by apply list.delete_Permutation].
  apply list_lookup_insert_eq. by eapply lookup_lt_Some.
Qed.

(** An element of a list of options that changes. *)
Lemma omap_insert_perm {A B} (f : A → option B) (l : list A) i x y :
  l !! i = Some x → option_list (f x) ++ omap f (<[i:=y]> l) ≡ₚ option_list (f y) ++ omap f l.
Proof.
  revert i. induction l as [|z l IH]; intros [|i] Hi; simplify_eq/=.
  - destruct (f x), (f y); simpl; solve_Permutation.
  - specialize (IH i Hi). destruct (f z); [|done]. rewrite <- !Permutation_middle. by rewrite IH.
Qed.

(** The entries of a [std::map] in the order of their keys. *)
Definition key_le {V} (x y : Z * V) : Prop := x.1 ≤ y.1.
#[export] Instance key_le_dec {V} (x y : Z * V) : Decision (key_le x y).
Proof. unfold key_le. apply _. Defined.
Definition keys_in_order {V} (t : gmap Z V) : list (Z * V) := merge_sort key_le (map_to_list t).

(** A loop over a range, from its last turn. *)
Lemma foldM_seq_snoc {B} k n (s : B) f :
  foldM (seq k (S n)) s f = s' ← foldM (seq k n) s f; f (k + n)%nat s'.
Proof.
  revert k s. induction n as [|n IH]; intros k s.
  - simpl. rewrite Nat.add_0_r. by destruct (f k s).
  - change (foldM (seq k (S (S n))) s f) with (s' ← f k s; foldM (seq (S k) (S n)) s' f).
    change (foldM (seq k (S n)) s f) with (s' ← f k s; foldM (seq (S k) n) s' f).
    destruct (f k s) as [s'|]; [|done]. cbn [mbind res_bind]. rewrite IH. by rewrite Nat.add_succ_comm.
Qed.

#[export] Hint Rewrite @vec_at_Ok @vec_erase_Ok @vec_set_Ok @of_option_Ok @fmap_Ok : mcsim_rw.
#[export] Hint Resolve u32_range : mcsim.
