(* ===== verification/Types.v ===== *)
(** * Requests and command packets

    The data the components exchange: [Request] (src/src/Request.h),
    [BusPacket] (src/src/BusPacket.h), the levels [memOrg] of the memory
    organisation (src/src/global.h), and the store of live requests.

    Requests are allocated once, reached through pointers from a request queue
    and from the controller's pending lists at the same time, changed through
    one of them ([requestSize]) and deleted through one of them: they live in a
    store [rheap] and the queues hold pointers. A packet is never changed after
    it entered a command queue, so queues and schedulers hold packet values. *)
From S2P Require Import Prelude.

(** ** Levels of the memory organisation *)
Inductive memOrg := Rank | BankGroup | Bank | SubArray | Row | Column.

#[global] Instance memOrg_eq_dec : EqDecision memOrg.
Proof. solve_decision. Defined.

Definition memOrg_int (m : memOrg) : nat :=
  match m with
  | Rank => 0 | BankGroup => 1 | Bank => 2 | SubArray => 3 | Row => 4 | Column => 5
  end.

Definition memOrg_of (n : nat) : option memOrg :=
  [Rank; BankGroup; Bank; SubArray; Row; Column] !! n.

(** ** Command packets *)
Inductive BusPacketType :=
| RD | RDA | WR | WRA
| ACT_R | ACT_W | ACT
| PRE | PREA
| REF | REFPB
| PDE | PDX | SRE | SRX
| DATA.

#[global] Instance BusPacketType_eq_dec : EqDecision BusPacketType.
Proof. solve_decision. Defined.

(** The value of an enumerator: the schedulers compare types with [<] and
    [sendCommand] counts from [RD] up to [PDE]. *)
Definition bpt_int (t : BusPacketType) : nat :=
  match t with
  | RD => 0 | RDA => 1 | WR => 2 | WRA => 3
  | ACT_R => 4 | ACT_W => 5 | ACT => 6
  | PRE => 7 | PREA => 8
  | REF => 9 | REFPB => 10
  | PDE => 11 | PDX => 12 | SRE => 13 | SRX => 14
  | DATA => 15
  end.

Definition all_types : list BusPacketType :=
  [RD; RDA; WR; WRA; ACT_R; ACT_W; ACT; PRE; PREA; REF; REFPB; PDE; PDX; SRE; SRX; DATA].

(** [static_cast<BusPacketType>(n)]. *)
Definition bpt_of (n : nat) : option BusPacketType := all_types !! n.

Definition bpt_lt (a b : BusPacketType) : bool := (bpt_int a <? bpt_int b)%nat.

(** The constructor leaves [bankGroup] and [addressMap] unset; [addressMap] is
    written by [MemoryController::enqueueCommand] before it is read. *)
Record BusPacket := mkBusPacket {
  busPacketType : BusPacketType;
  bp_requestorID : Z;
  bp_address : Z;
  bp_column : Z;
  bp_row : Z;
  bp_subArray : Z;
  bp_bank : Z;
  bp_rank : Z;
  bp_data : Z;
  bp_arriveTime : Z;
  postCommand : bool;
  bp_addressMap : list Z;
}.

#[global] Instance BusPacket_eq_dec : EqDecision BusPacket.
Proof. solve_decision. Defined.

(** [new BusPacket(type, id, addr, col, rw, bank, rank, sa, data, time)]. *)
Definition new_BusPacket (t : BusPacketType) (id addr col rw bank rank sa data time : Z) : BusPacket :=
  {| busPacketType := t; bp_requestorID := id; bp_address := addr; bp_column := col;
     bp_row := rw; bp_subArray := sa; bp_bank := bank; bp_rank := rank; bp_data := data;
     bp_arriveTime := time; postCommand := false; bp_addressMap := [] |}.

(** [packet->postCommand = true]. *)
Definition set_post (p : BusPacket) : BusPacket :=
  {| busPacketType := busPacketType p; bp_requestorID := bp_requestorID p;
     bp_address := bp_address p; bp_column := bp_column p; bp_row := bp_row p;
     bp_subArray := bp_subArray p; bp_bank := bp_bank p; bp_rank := bp_rank p;
     bp_data := bp_data p; bp_arriveTime := bp_arriveTime p; postCommand := true;
     bp_addressMap := bp_addressMap p |}.

Definition is_read (t : BusPacketType) : bool := bool_decide (t = RD ∨ t = RDA).
Definition is_write (t : BusPacketType) : bool := bool_decide (t = WR ∨ t = WRA).
Definition is_CAS (t : BusPacketType) : bool := is_read t || is_write t.
Definition is_ACT (t : BusPacketType) : bool := bool_decide (t = ACT ∨ t = ACT_R ∨ t = ACT_W).

(** The schedulers' test [type < ACT_R] is the test for a column access. *)
Lemma CAS_lt_ACT_R t : bpt_lt t ACT_R = is_CAS t.
Proof. by destruct t. Qed.

Lemma bpt_of_int t : bpt_of (bpt_int t) = Some t.
Proof. by destruct t. Qed.

Lemma bpt_int_inj t1 t2 : bpt_int t1 = bpt_int t2 → t1 = t2.
Proof. by destruct t1, t2. Qed.

(** ** Requests *)
Inductive RequestType := DATA_READ | DATA_WRITE.

#[global] Instance RequestType_eq_dec : EqDecision RequestType.
Proof. solve_decision. Defined.

Record Request := mkRequest {
  requestType : RequestType;
  requestorID : Z;
  requestSize : Z;
  address : Z;
  data : Z;
  arriveTime : Z;
  returnTime : Z;
  rank : Z;
  bankGroup : Z;
  bank : Z;
  subArray : Z;
  row : Z;
  col : Z;
  addressMap : list Z;
}.

#[global] Instance Request_eq_dec : EqDecision Request.
Proof. solve_decision. Defined.

(** [new Request(id, type, size, addr, data)]. The constructor leaves the arrival
    time, the decoded fields and [addressMap] unset: [g] is what the fresh
    memory held. *)
Definition new_Request (g : Z) (id : Z) (t : RequestType) (size addr d : Z) : Request :=
  {| requestType := t; requestorID := id; requestSize := size; address := addr; data := d;
     arriveTime := g; returnTime := 0; rank := g; bankGroup := g; bank := g; subArray := g;
     row := g; col := g; addressMap := [g; g; g; g] |}.

Definition set_requestSize (n : Z) (r : Request) : Request :=
  {| requestType := requestType r; requestorID := requestorID r; requestSize := n;
     address := address r; data := data r; arriveTime := arriveTime r;
     returnTime := returnTime r; rank := rank r; bankGroup := bankGroup r; bank := bank r;
     subArray := subArray r; row := row r; col := col r; addressMap := addressMap r |}.

Definition set_arriveTime (t : Z) (r : Request) : Request :=
  {| requestType := requestType r; requestorID := requestorID r;
     requestSize := requestSize r; address := address r; data := data r; arriveTime := t;
     returnTime := returnTime r; rank := rank r; bankGroup := bankGroup r; bank := bank r;
     subArray := subArray r; row := row r; col := col r; addressMap := addressMap r |}.

(** ** The store of live requests *)
Abbreviation ptr := positive.
Abbreviation rheap := (gmap ptr Request).

(** Dereferencing a pointer to a request that was deleted is undefined. *)
Definition deref (h : rheap) (p : ptr) : res Request := of_option Undefined (h !! p).

Definition alloc (h : rheap) (r : Request) : rheap * ptr :=
  let p := fresh (dom h) in (<[p := r]> h, p).

Lemma deref_Ok h p r : deref h p = Ok r ↔ h !! p = Some r.
Proof. apply of_option_Ok. Qed.

Lemma alloc_fresh h r h' p : alloc h r = (h', p) → h !! p = None ∧ h' = <[p := r]> h.
Proof.
  unfold alloc. intros [= <- <-]. split; [|done].
  apply not_elem_of_dom, is_fresh.
Qed.

(** Entry [m] of a packet's or a request's [addressMap]. *)
Definition amap (l : list Z) (m : memOrg) : res Z := vec_at l (memOrg_int m).

#[export] Hint Rewrite deref_Ok bpt_of_int : mcsim_rw.
