(* ===== verification/KeyedBuf.v ===== *)
(** * Buffers keyed by requestor

    [RequestQueue] and [CommandQueue] both keep a map from requestor to buffer
    and a vector with the requestors in the order of their first use
    ([requestorOrder], [requestorMap]). This file has the invariant of such a
    pair and the list of everything it holds. *)
From S2P Require Import Prelude.

Section keyed.
Context {A : Type}.
Implicit Types (m : gmap Z (list A)) (o : list Z) (l : list A).

(** Everything the buffers hold, in the order of the requestors. *)
Definition items_of m o : list A := concat ((λ id, default [] (m !! id)) <$> o).

(** The order list has no duplicates and lists exactly the keys of the map. *)
Definition order_ok m o : Prop := NoDup o ∧ ∀ id, id ∈ o ↔ is_Some (m !! id).

Lemma order_ok_empty : order_ok ∅ [].
Proof.
  split; [constructor|]. intros id. rewrite lookup_empty.
  split; [by intros ?%not_elem_of_nil|by intros [? ?]].
Qed.

(** Replacing the buffer of a known requestor. *)
Lemma order_ok_insert m o id l : order_ok m o → id ∈ o → order_ok (<[id := l]> m) o.
Proof.
  intros [Hnd Hdom] Hid. split; [done|]. intros id'.
  destruct (decide (id' = id)) as [->|].
  - rewrite lookup_insert_eq. split; [by eauto|done].
  - rewrite lookup_insert_ne by done. apply Hdom.
Qed.

(** A new requestor goes to the end of the order list. *)
Lemma order_ok_snoc m o id l :
  order_ok m o → m !! id = None → order_ok (<[id := l]> m) (o ++ [id]).
Proof.
  intros [Hnd Hdom] Hid. split.
  - apply NoDup_app. split; [done|]. split; [|apply NoDup_singleton].
    intros x Hx ->%list_elem_of_singleton. apply Hdom in Hx as [? ?]. congruence.
  - intros id'. rewrite elem_of_app, list_elem_of_singleton, Hdom.
    destruct (decide (id' = id)) as [->|].
    + rewrite lookup_insert_eq. split; [by eauto|by right].
    + rewrite lookup_insert_ne by done. split; [by intros [|]|by left].
Qed.

(** The items of one requestor sit between two lists that its buffer does not
    influence. *)
Lemma items_split m o id :
  NoDup o → id ∈ o →
  ∃ B C, ∀ m', (∀ id', id' ≠ id → m' !! id' = m !! id') →
    items_of m' o = B ++ default [] (m' !! id) ++ C.
Proof.
  intros Hnd (l1 & l2 & ->)%list_elem_of_split.
  apply NoDup_app in Hnd as (_ & H1 & [H2 _]%NoDup_cons).
  exists (items_of m l1), (items_of m l2). intros m' Hm'.
  assert (∀ o', id ∉ o' → items_of m' o' = items_of m o') as Hl.
  { intros o' Hid. unfold items_of. f_equal. apply list_fmap_ext. intros i x Hx.
    rewrite Hm'; [done|]. intros ->. by apply Hid, list_elem_of_lookup_2 with i. }
  rewrite <- (Hl l1), <- (Hl l2); [|done|]; [|intros Hin; apply (H1 _ Hin); left].
  unfold items_of. by rewrite fmap_app, fmap_cons, concat_app.
Qed.

Lemma items_of_snoc m o id :
  m !! id = None → items_of (<[id := []]> m) (o ++ [id]) = items_of m o.
Proof.
  intros Hm. unfold items_of. rewrite fmap_app, concat_app. simpl.
  rewrite lookup_insert_eq. simpl. rewrite !app_nil_r. f_equal.
  apply list_fmap_ext. intros i x _. destruct (decide (x = id)) as [->|].
  - by rewrite lookup_insert_eq, Hm.
  - by rewrite lookup_insert_ne.
Qed.
End keyed.

#[export] Hint Resolve order_ok_empty order_ok_insert order_ok_snoc : mcsim.
