(* ===== verification/AddrMap.v ===== *)
(** * Address mapping

    [AddressMapping] (src/src/AddressMapping.cpp, AddressMapping.h): the
    constructor turns the digits of the configured format and the memory table
    into a list of (level, width) pairs; [addressMapping] cuts the low bits of
    the 32-bit truncation of the address level by level, last level first.

    Main results: the width of a level is the ceiling of the base-2 logarithm of
    its size; the decoded fields are the digits of the address in the mixed
    radix the format describes, so distinct addresses decode to distinct
    coordinates and every coordinate is in range; the writes to
    [addressMap[Row]] and [addressMap[Column]] fall outside the array. *)
From S2P Require Import Prelude Types.

(** ** Widths *)

(** The loop [while (value > 0) { value >>= 1; logbase2++; }]. An [unsigned]
    has 32 bits, so 32 iterations exhaust it ([log2_loop_spec]). *)
Fixpoint log2_loop (fuel : nat) (value logbase2 : Z) : Z :=
  match fuel with
  | O => logbase2
  | S fuel =>
      if bool_decide (0 < value) then log2_loop fuel (Z.shiftr value 1) (logbase2 + 1)
      else logbase2
  end.

Definition log2 (num_value : Z) : Z :=
  let orig := num_value in
  let logbase2 := log2_loop 32 (Z.shiftr num_value 1) 0 in
  if bool_decide (u32 (Z.shiftl 1 logbase2) < orig) then logbase2 + 1 else logbase2.

(** ** The constructor

    [format[index] - '0'] is an [int] converted to [unsigned]: a character below
    ['0'] becomes a value above [Column], as one above ['5'] is. *)
Definition AddressMapping_ctor (format : list Ascii.ascii) (memTable : list Z)
    : res (list (memOrg * Z)) :=
  foldM format [] (λ c decodeIndex,
    match memOrg_of (Ascii.nat_of_ascii c - 48) with
    | Some m =>
        if bool_decide (48 ≤ Ascii.nat_of_ascii c)%nat then
          n ← vec_at memTable (memOrg_int m);
          mret (decodeIndex ++ [(m, log2 n)])
        else Err Abort
    | None => Err Abort
    end).

(** ** Decoding *)

(** A write to [request->addressMap[m]]; the array has four entries, so the
    writes for [Row] and [Column] fall behind it: they change no entry and are
    recorded in the second component. *)
Definition write_addressMap (m : memOrg) (v : Z) (am : list Z) (oob : list nat)
    : list Z * list nat :=
  (<[memOrg_int m := v]> am,
   if decide (memOrg_int m < length am)%nat then oob else oob ++ [memOrg_int m]).

(** One case of the [switch]: the field of the level and its [addressMap] entry. *)
Definition assign (m : memOrg) (v : Z) (r : Request) (oob : list nat) : Request * list nat :=
  let '(am, oob) := write_addressMap m v (addressMap r) oob in
  (match m with
   | Rank => mkRequest (requestType r) (requestorID r) (requestSize r) (address r) (data r)
               (arriveTime r) (returnTime r) v (bankGroup r) (bank r) (subArray r) (row r) (col r) am
   | BankGroup => mkRequest (requestType r) (requestorID r) (requestSize r) (address r) (data r)
               (arriveTime r) (returnTime r) (rank r) v (bank r) (subArray r) (row r) (col r) am
   | Bank => mkRequest (requestType r) (requestorID r) (requestSize r) (address r) (data r)
               (arriveTime r) (returnTime r) (rank r) (bankGroup r) v (subArray r) (row r) (col r) am
   | SubArray => mkRequest (requestType r) (requestorID r) (requestSize r) (address r) (data r)
               (arriveTime r) (returnTime r) (rank r) (bankGroup r) (bank r) v (row r) (col r) am
   | Row => mkRequest (requestType r) (requestorID r) (requestSize r) (address r) (data r)
               (arriveTime r) (returnTime r) (rank r) (bankGroup r) (bank r) (subArray r) v (col r) am
   | Column => mkRequest (requestType r) (requestorID r) (requestSize r) (address r) (data r)
               (arriveTime r) (returnTime r) (rank r) (bankGroup r) (bank r) (subArray r) (row r) v am
   end, oob).

(** A shift of an [unsigned] by its width or more is undefined. *)
Definition shr32 (x k : Z) : res Z :=
  if bool_decide (0 ≤ k < 32) then Ok (Z.shiftr x k) else Err Undefined.
Definition shl32 (x k : Z) : res Z :=
  if bool_decide (0 ≤ k < 32) then Ok (u32 (Z.shiftl x k)) else Err Undefined.

(** The body of the loop over [decodeIndex], on (tempA, tempB, request, oob). *)
Definition decode_step (mk : memOrg * Z) (s : Z * Z * Request * list nat)
    : res (Z * Z * Request * list nat) :=
  let '(tempA, tempB, r, oob) := s in
  tempA ← shr32 tempA mk.2;
  tempA ← shl32 tempA mk.2;
  let tempAddr := Z.lxor tempA tempB in
  tempB ← shr32 tempA mk.2;
  let '(r, oob) := assign mk.1 tempAddr r oob in
  mret (tempB, tempB, r, oob).

(** The compile-time switch of the Makefile. *)
Inductive privatization :=
| Interleaved
| SINGLE_RANK_BANK_PRIVATIZATION
| MULTI_RANK_BANK_PRIVATIZATION.

Definition with_rank_bank (rk bk : Z) (r : Request) : Request :=
  mkRequest (requestType r) (requestorID r) (requestSize r) (address r) (data r)
    (arriveTime r) (returnTime r) rk (bankGroup r) bk (subArray r) (row r) (col r)
    (addressMap r).

Definition privatize (mode : privatization) (r : Request) : Request :=
  match mode with
  | Interleaved => r
  | SINGLE_RANK_BANK_PRIVATIZATION => with_rank_bank 0 (requestorID r) r
  | MULTI_RANK_BANK_PRIVATIZATION =>
      with_rank_bank (if bool_decide (requestorID r < 8) then requestorID r `mod` 3 else 3)
        (requestorID r) r
  end.

Definition set_addressMap (am : list Z) (r : Request) : Request :=
  mkRequest (requestType r) (requestorID r) (requestSize r) (address r) (data r)
    (arriveTime r) (returnTime r) (rank r) (bankGroup r) (bank r) (subArray r) (row r) (col r) am.

(** [AddressMapping::addressMapping]: the request with its coordinates, and the
    indices behind [addressMap] that were written. *)
Definition addressMapping (mode : privatization) (decodeIndex : list (memOrg * Z)) (r : Request)
    : res (Request * list nat) :=
  let x := u32 (address r) in
  s ← foldM (reverse decodeIndex) (x, x, r, []) decode_step;
  let '(_, _, r, oob) := s in
  let r := privatize mode r in
  mret (set_addressMap [0; bankGroup r; bank r; subArray r] r, oob).

(** The writes behind the array are those of [Row] and [Column]: the two words behind it. *)
Lemma addressMapping_writes mode dec r r' oob :
  addressMapping mode dec r = Ok (r', oob) → Forall (λ i, i < 6)%nat oob.
Proof.
  unfold addressMapping. intros E. apply bind_Ok in E as ([[[a b] r1] o] & Hl & E). injection E as <- <-. revert Hl.
  apply (foldM_inv (λ s : Z * Z * Request * list nat, Forall (λ i, i < 6)%nat s.2)); [by constructor|].
  intros [m k] [[[a1 b1] r2] o1] s' _ Ho Hs. unfold decode_step in Hs. apply bind_Ok in Hs as (t1 & _ & Hs).
  apply bind_Ok in Hs as (t2 & _ & Hs). apply bind_Ok in Hs as (t3 & _ & Hs). unfold assign, write_addressMap in Hs.
  injection Hs as <-. simpl in Ho |- *. case_decide; [done|]. apply Forall_app. split; [done|]. apply Forall_singleton. destruct m; simpl; lia.
Qed.

(** ** Widths are ceilings of logarithms *)
Lemma log2_loop_spec fuel v a :
  0 ≤ v < 2 ^ Z.of_nat fuel →
  log2_loop fuel v a = a + (if bool_decide (v = 0) then 0 else Z.log2 v + 1).
Proof.
  revert v a. induction fuel as [|fuel IH]; intros v a Hv; simpl.
  - assert (v = 0) as -> by (simpl in Hv; lia). simpl. lia.
  - repeat case_bool_decide; subst; try lia.
    rewrite IH.
    + rewrite Z.shiftr_div_pow2 by lia. change (2 ^ 1) with 2.
      case_bool_decide as H1.
      * assert (v = 1) as -> by (Z.to_euclidean_division_equations; lia).
        simpl. lia.
      * assert (2 ≤ v) by (Z.to_euclidean_division_equations; lia).
        assert (1 ≤ Z.log2 v) by (apply Z.log2_le_pow2; lia).
        replace (Z.log2 (v / 2)) with (Z.log2 v - 1); [lia|].
        change (v / 2) with (v / 2 ^ 1). rewrite <- Z.shiftr_div_pow2, Z.log2_shiftr by lia. lia.
    + rewrite Z.shiftr_div_pow2 by lia. change (2 ^ 1) with 2. split; [apply Z.div_pos; lia|].
      apply Z.div_lt_upper_bound; [lia|]. rewrite Nat2Z.inj_succ, Z.pow_succ_r in Hv; lia.
Qed.

(** Facts on one decoding step. *)
Lemma clear_low_bits x k : 0 ≤ k → Z.lxor (Z.shiftl (Z.shiftr x k) k) x = x `mod` 2 ^ k.
Proof.
  intros Hk. apply Z.bits_inj'. intros i Hi. rewrite Z.lxor_spec.
  destruct (decide (i < k)).
  - rewrite Z.shiftl_spec_low, Z.mod_pow2_bits_low by lia. apply xorb_false_l.
  - rewrite Z.shiftl_spec, Z.shiftr_spec, Z.mod_pow2_bits_high by lia.
    replace (i - k + k) with i by lia. apply xorb_nilpotent.
Qed.

Lemma decode_step_spec m k x r oob :
  0 ≤ x < 2 ^ 32 → 0 ≤ k < 32 →
  decode_step (m, k) (x, x, r, oob) =
    let '(r', oob') := assign m (x `mod` 2 ^ k) r oob in Ok (x / 2 ^ k, x / 2 ^ k, r', oob').
Proof.
  intros Hx Hk. unfold decode_step, shr32, shl32. simpl.
  rewrite !bool_decide_true by lia. simpl.
  assert (0 < 2 ^ k) by (apply Z.pow_pos_nonneg; lia).
  assert (u32 (Z.shiftl (Z.shiftr x k) k) = Z.shiftl (Z.shiftr x k) k) as ->.
  { apply u32_small. rewrite Z.shiftl_mul_pow2, Z.shiftr_div_pow2 by lia.
    pose proof (Z.mul_div_le x (2 ^ k)). pose proof (Z.div_pos x (2 ^ k)). nia. }
  rewrite clear_low_bits by lia.
  rewrite Z.shiftr_shiftl_l, Z.sub_diag, Z.shiftl_0_r, Z.shiftr_div_pow2 by lia.
  by destruct (assign m (x `mod` 2 ^ k) r oob).
Qed.

Definition coord (m : memOrg) (r : Request) : Z :=
  match m with
  | Rank => rank r | BankGroup => bankGroup r | Bank => bank r
  | SubArray => subArray r | Row => row r | Column => col r
  end.

(** The number whose digits are the coordinates, least significant level first. *)
Fixpoint digits_value (l : list (memOrg * Z)) (r : Request) : Z :=
  match l with
  | [] => 0
  | (m, k) :: l => coord m r + 2 ^ k * digits_value l r
  end.

Definition total_width (l : list (memOrg * Z)) : Z := foldr (λ mk acc, mk.2 + acc) 0 l.

(** The address the coordinates of [r] stand for; the format lists the most
    significant level first. *)
Definition recompose (decodeIndex : list (memOrg * Z)) (r : Request) : Z :=
  digits_value (reverse decodeIndex) r.

Lemma coord_assign m m' v r oob :
  coord m (assign m' v r oob).1 = if decide (m = m') then v else coord m r.
Proof. unfold assign. by destruct m, m'. Qed.

Lemma digits_value_ext l r r' :
  (∀ m k, (m, k) ∈ l → coord m r = coord m r') → digits_value l r = digits_value l r'.
Proof.
  induction l as [|[m k] l IH]; intros H; simpl; [done|].
  rewrite (H m k) by left. rewrite IH; [done|]. intros; eapply H; by right.
Qed.

Lemma total_width_nonneg l : Forall (λ mk, 0 ≤ mk.2 < 32) l → 0 ≤ total_width l.
Proof. induction 1; simpl in *; lia. Qed.

Lemma decode_loop_spec l x r oob :
  NoDup l.*1 → Forall (λ mk, 0 ≤ mk.2 < 32) l → 0 ≤ x < 2 ^ 32 →
  ∃ r' oob', foldM l (x, x, r, oob) decode_step
      = Ok (x / 2 ^ total_width l, x / 2 ^ total_width l, r', oob') ∧
    digits_value l r' = x `mod` 2 ^ total_width l ∧
    (∀ m k, (m, k) ∈ l → 0 ≤ coord m r' < 2 ^ k) ∧
    (∀ m, m ∉ l.*1 → coord m r' = coord m r).
Proof.
  revert x r oob. induction l as [|[m k] l IH]; intros x r oob Hnd Hk Hx.
  - exists r, oob. simpl. rewrite Z.div_1_r, Z.mod_1_r. split; [done|]. split; [done|]. split; [|done]. by intros ?? ?%not_elem_of_nil.
  - apply NoDup_cons in Hnd as [Hm Hnd]. apply Forall_cons in Hk as [Hk Hks]. simpl in Hk.
    assert (0 < 2 ^ k) by (apply Z.pow_pos_nonneg; lia).
    pose proof (total_width_nonneg l Hks).
    assert (0 < 2 ^ total_width l) by (apply Z.pow_pos_nonneg; lia).
    assert (0 ≤ x / 2 ^ k < 2 ^ 32).
    { split; [apply Z.div_pos; lia|]. pose proof (Z.div_le_upper_bound x (2 ^ k) x). nia. }
    cbn [foldM]. rewrite decode_step_spec by done.
    destruct (assign m (x `mod` 2 ^ k) r oob) as [r1 oob1] eqn:E.
    destruct (IH (x / 2 ^ k) r1 oob1) as (r' & oob' & Hrun & Hval & Hrange & Hframe); [done..|].
    assert (∀ m', coord m' r1 = if decide (m' = m) then x `mod` 2 ^ k else coord m' r) as Hr1.
    { intros m'. rewrite <- (coord_assign m' m _ r oob). by rewrite E. }
    assert (coord m r' = x `mod` 2 ^ k) as Hm'.
    { rewrite Hframe, Hr1 by done. by rewrite decide_True. }
    exists r', oob'. simpl. rewrite Hrun. rewrite Z.pow_add_r, Z.div_div by lia.
    split; [done|]. split; [|split].
    + rewrite Hval, Hm', Z.rem_mul_r by lia. lia.
    + intros m' k' [[= -> ->]|Hin]%elem_of_cons; [|by eapply Hrange].
      rewrite Hm'. by apply Z.mod_pos_bound.
    + intros m'. rewrite not_elem_of_cons. intros [Hne Hnin].
      rewrite Hframe, Hr1 by done. by rewrite decide_False.
Qed.

(** ** Properties *)

Definition format_ok (decodeIndex : list (memOrg * Z)) : Prop :=
  NoDup decodeIndex.*1 ∧ Forall (λ mk, 0 ≤ mk.2 < 32) decodeIndex.

#[export] Instance format_ok_dec l : Decision (format_ok l).
Proof. apply _. Defined.

Lemma format_ok_reverse l :
  format_ok l → NoDup (reverse l).*1 ∧ Forall (λ mk, 0 ≤ mk.2 < 32) (reverse l).
Proof.
  intros [Hnd Hf]. rewrite fmap_reverse. split; [by rewrite reverse_Permutation|].
  apply Forall_forall. intros mk Hin. rewrite elem_of_reverse in Hin. exact (proj1 (Forall_forall _ _) Hf mk Hin).
Qed.

Lemma coord_set_addressMap m am r : coord m (set_addressMap am r) = coord m r.
Proof. by destruct m. Qed.

(** The whole of [addressMapping] without privatization. *)
Lemma addressMapping_spec dec r :
  format_ok dec →
  ∃ r' oob, addressMapping Interleaved dec r = Ok (r', oob) ∧
    recompose dec r' = u32 (address r) `mod` 2 ^ total_width (reverse dec) ∧
    (∀ m k, (m, k) ∈ dec → 0 ≤ coord m r' < 2 ^ k) ∧
    (∀ m, m ∉ dec.*1 → coord m r' = coord m r) ∧
    addressMap r' = [0; bankGroup r'; bank r'; subArray r'].
Proof.
  intros [Hnd Hk]%format_ok_reverse.
  destruct (decode_loop_spec _ (u32 (address r)) r [] Hnd Hk (u32_range _))
    as (r' & oob' & Hrun & Hval & Hrange & Hframe).
  unfold addressMapping. rewrite Hrun. simpl. eexists _, _. split; [done|].
  split; [|split; [|split; [|done]]].
  - unfold recompose. rewrite <- Hval. apply digits_value_ext. intros. apply coord_set_addressMap.
  - intros m k Hin. rewrite coord_set_addressMap. apply Hrange. by apply elem_of_reverse.
  - intros m Hin. rewrite coord_set_addressMap. apply Hframe.
    by rewrite fmap_reverse, elem_of_reverse.
Qed.

(** Digits in their range are determined by the number. *)
Lemma digits_determined l r r' :
  Forall (λ mk, 0 ≤ mk.2) l → (∀ m k, (m, k) ∈ l → 0 ≤ coord m r < 2 ^ k) →
  (∀ m k, (m, k) ∈ l → 0 ≤ coord m r' < 2 ^ k) →
  digits_value l r = digits_value l r' → ∀ m, m ∈ l.*1 → coord m r = coord m r'.
Proof.
  induction l as [|[m0 k0] l IH]; intros Hk H1 H2 E m Hm; [by apply not_elem_of_nil in Hm|].
  apply Forall_cons in Hk as [Hk0 Hk]. simpl in Hk0, E.
  pose proof (H1 m0 k0 ltac:(left)). pose proof (H2 m0 k0 ltac:(left)).
  assert (0 < 2 ^ k0) by (apply Z.pow_pos_nonneg; lia).
  assert (digits_value l r = digits_value l r' ∧ coord m0 r = coord m0 r') as [Ed Ec]
    by (apply (Z.div_mod_unique (2 ^ k0)); lia).
  apply elem_of_cons in Hm as [->|Hm]; [exact Ec|]. eapply IH; try done; intros; [apply H1|apply H2]; by right.
Qed.

(** The coordinates depend on the address alone. *)
Lemma addressMapping_determined dec r1 r2 r1' r2' o1 o2 :
  format_ok dec → address r1 = address r2 →
  addressMapping Interleaved dec r1 = Ok (r1', o1) → addressMapping Interleaved dec r2 = Ok (r2', o2) →
  ∀ m, m ∈ dec.*1 → coord m r1' = coord m r2'.
Proof.
  intros Hok Ea E1 E2 m Hm.
  destruct (addressMapping_spec dec r1 Hok) as (? & ? & E1' & V1 & R1 & _).
  destruct (addressMapping_spec dec r2 Hok) as (? & ? & E2' & V2 & R2 & _).
  rewrite E1 in E1'; rewrite E2 in E2'; simplify_eq. rewrite Ea, <- V2 in V1. unfold recompose in V1.
  apply (digits_determined (reverse dec)).
  - eapply Forall_impl; [apply format_ok_reverse, Hok|]. simpl. lia.
  - intros m' k Hin. apply R1. by apply elem_of_reverse.
  - intros m' k Hin. apply R2. by apply elem_of_reverse.
  - exact V1.
  - by rewrite fmap_reverse, elem_of_reverse.
Qed.

(** [log2] of the header is the ceiling of the base-2 logarithm for every
    nonzero [unsigned], and never runs out of its 32 iterations. *)
Theorem log2_is_ceiling n : 0 < n < 2 ^ 32 → log2 n = Z.log2_up n.
Proof.
  intros Hn. unfold log2.
  assert (log2_loop 32 (Z.shiftr n 1) 0 = Z.log2 n) as ->.
  { rewrite Z.shiftr_div_pow2 by lia. change (2 ^ 1) with 2. rewrite log2_loop_spec.
    - case_bool_decide.
      + assert (n = 1) as -> by (Z.to_euclidean_division_equations; lia). done.
      + assert (2 ≤ n) by (Z.to_euclidean_division_equations; lia).
        assert (1 ≤ Z.log2 n) by (apply Z.log2_le_pow2; lia).
        replace (Z.log2 (n / 2)) with (Z.log2 n - 1); [lia|].
        change (n / 2) with (n / 2 ^ 1). rewrite <- Z.shiftr_div_pow2, Z.log2_shiftr by lia. lia.
    - split; [apply Z.div_pos; lia|]. apply Z.div_lt_upper_bound; [lia|]. simpl; lia. }
  pose proof (Z.log2_spec n ltac:(lia)) as [Hlo Hhi].
  pose proof (Z.log2_nonneg n).
  rewrite Z.shiftl_1_l, u32_small by (split; [apply Z.pow_nonneg|]; lia).
  case_bool_decide as Hlt.
  - symmetry. apply Z.log2_up_unique; [lia|]. rewrite Z.add_1_r, Z.pred_succ. lia.
  - assert (n = 2 ^ Z.log2 n) as Hpow by lia.
    rewrite Hpow at 2. by rewrite Z.log2_up_pow2.
Qed.

Lemma log2_range n : 0 ≤ n ≤ 2 ^ 31 → 0 ≤ log2 n < 32.
Proof.
  intros Hn. destruct (decide (n = 0)) as [->|]; [vm_compute; split; congruence|].
  rewrite log2_is_ceiling by lia. split; [apply Z.log2_up_nonneg|].
  assert (Z.log2_up n ≤ Z.log2_up (2 ^ 31)) by (apply Z.log2_up_le_mono; lia). rewrite Z.log2_up_pow2 in * by lia. lia.
Qed.

(** The constructor on a format of digits. *)
Definition level_digit (m : memOrg) : Ascii.ascii := Ascii.ascii_of_nat (48 + memOrg_int m).

Lemma AddressMapping_ctor_levels ms table (size : memOrg → Z) :
  (∀ m, table !! memOrg_int m = Some (size m)) →
  AddressMapping_ctor (level_digit <$> ms) table = Ok ((λ m, (m, log2 (size m))) <$> ms).
Proof.
  intros Hsize. unfold AddressMapping_ctor.
  assert (∀ acc, foldM (level_digit <$> ms) acc (λ c decodeIndex,
    match memOrg_of (Ascii.nat_of_ascii c - 48) with
    | Some m =>
        if bool_decide (48 ≤ Ascii.nat_of_ascii c)%nat then
          n ← vec_at table (memOrg_int m); mret (decodeIndex ++ [(m, log2 n)])
        else Err Abort
    | None => Err Abort
    end) = Ok (acc ++ ((λ m, (m, log2 (size m))) <$> ms))) as H; [|exact (H [])].
  induction ms as [|m ms IH]; intros acc; [by rewrite app_nil_r|].
  cbn [fmap list_fmap foldM]. assert (memOrg_of (Ascii.nat_of_ascii (level_digit m) - 48) = Some m ∧ (48 ≤ Ascii.nat_of_ascii (level_digit m))%nat)
    as [-> Hle] by (destruct m; vm_compute; (split; [done|lia])).
  rewrite bool_decide_true by done. unfold vec_at. rewrite Hsize. cbn [mbind res_bind of_option mret res_ret].
  rewrite IH. by rewrite <- app_assoc.
Qed.

Lemma log2_is_ceiling_witness : 0 < 1000 < 2 ^ 32 ∧ log2 1000 = Z.log2_up 1000.
Proof. split; [lia|]. apply (log2_is_ceiling 1000). lia. Defined.


(** The DDR3 2Gb x8 device with one rank under the format "012345". *)
Definition ddr3_format : list (memOrg * Z) :=
  [(Rank, 0); (BankGroup, 0); (Bank, 3); (SubArray, 0); (Row, 15); (Column, 10)].


(** Two addresses below both 2^32 and the capacity of the format that decode
    to the same coordinates are the same address. *)
Theorem addressMapping_injective dec r1 r2 r1' r2' o1 o2 :
  format_ok dec →
  0 ≤ address r1 < 2 ^ Z.min 32 (total_width (reverse dec)) →
  0 ≤ address r2 < 2 ^ Z.min 32 (total_width (reverse dec)) →
  addressMapping Interleaved dec r1 = Ok (r1', o1) →
  addressMapping Interleaved dec r2 = Ok (r2', o2) →
  (∀ m, m ∈ dec.*1 → coord m r1' = coord m r2') →
  address r1 = address r2.
Proof.
  intros Hok H1 H2 E1 E2 Heq.
  destruct (addressMapping_spec dec r1 Hok) as (? & ? & E1' & V1 & _).
  destruct (addressMapping_spec dec r2 Hok) as (? & ? & E2' & V2 & _).
  rewrite E1 in E1'; rewrite E2 in E2'; simplify_eq.
  pose proof (total_width_nonneg _ (proj2 (format_ok_reverse _ Hok))).
  assert (∀ a, 0 ≤ a < 2 ^ Z.min 32 (total_width (reverse dec)) →
    u32 a `mod` 2 ^ total_width (reverse dec) = a) as Hsmall.
  { intros a Ha.
    assert (2 ^ Z.min 32 (total_width (reverse dec)) ≤ 2 ^ 32) by (apply Z.pow_le_mono_r; lia).
    assert (2 ^ Z.min 32 (total_width (reverse dec)) ≤ 2 ^ total_width (reverse dec))
      by (apply Z.pow_le_mono_r; lia).
    rewrite u32_small by lia. apply Z.mod_small. lia. }
  rewrite Hsmall in V1, V2 by done. rewrite <- V1, <- V2.
  apply digits_value_ext. intros m k Hin. rewrite elem_of_reverse in Hin. apply Heq.
  apply list_elem_of_fmap. by exists (m, k).
Qed.

(** Two requests for one address, decoded. *)
Definition wit_r1 : Request := new_Request 7 0 DATA_READ 64 0x4000 0.
Definition wit_r2 : Request := new_Request 9 1 DATA_WRITE 64 0x4000 0.
Definition decoded (r : Request) : Request :=
  match addressMapping Interleaved ddr3_format r with Ok (r', _) => r' | Err _ => r end.

Lemma addressMapping_injective_witness :
  (∀ m, m ∈ ddr3_format.*1 → coord m (decoded wit_r1) = coord m (decoded wit_r2)) ∧
  address wit_r1 = address wit_r2.
Proof.
  assert (∀ m, m ∈ ddr3_format.*1 → coord m (decoded wit_r1) = coord m (decoded wit_r2)) as Hc
    by (intros [] _; vm_compute; reflexivity).
  split; [exact Hc|].
  apply (addressMapping_injective ddr3_format wit_r1 wit_r2 (decoded wit_r1) (decoded wit_r2)
    [5%nat; 4%nat] [5%nat; 4%nat]).
  - apply (bool_decide_unpack _). vm_compute. exact I.
  - vm_compute. split; congruence.
  - vm_compute. split; congruence.
  - vm_compute. reflexivity.
  - vm_compute. reflexivity.
  - exact Hc.
Defined.

Lemma decode_step_oob mk s s' :
  decode_step mk s = Ok s' → length (addressMap s.1.2) = 4%nat →
  length (addressMap s'.1.2) = 4%nat ∧
  s'.2 = s.2 ++ filter (λ i, (4 ≤ i)%nat) [memOrg_int mk.1].
Proof.
  destruct s as [[[a b] r] oob], mk as [m k]. unfold decode_step, assign, write_addressMap.
  intros H Hlen. simpl in *. simplify_res. rewrite Hlen.
  split; [destruct m; simpl; rewrite ?length_insert; done|].
  destruct m; simpl; by rewrite ?app_nil_r.
Qed.

Lemma assign_oob l s s' :
  foldM l s decode_step = Ok s' → length (addressMap s.1.2) = 4%nat →
  s'.2 = s.2 ++ filter (λ i, (4 ≤ i)%nat) (memOrg_int <$> l.*1).
Proof.
  revert s. induction l as [|mk l IH]; intros s H Hlen; simpl in H.
  - simplify_eq. by rewrite app_nil_r.
  - apply bind_Ok in H as (s1 & [H1 H2]%decode_step_oob & H); [|done].
    rewrite (IH s1 H H1), H2, <- app_assoc. f_equal.
    by rewrite <- filter_app.
Qed.

(** The loop writes behind the four entries of [addressMap] exactly when the
    format names the level [Row] or [Column], as every shipped format does. *)
Theorem addressMapping_overflow mode dec r r' oob :
  length (addressMap r) = 4%nat →
  addressMapping mode dec r = Ok (r', oob) →
  (oob = [] ↔ Row ∉ dec.*1 ∧ Column ∉ dec.*1).
Proof.
  intros Hlen H. unfold addressMapping in H. apply bind_Ok in H as (s & Hs & H).
  pose proof (assign_oob _ _ _ Hs Hlen) as E. destruct s as [[[? ?] ?] o].
  simpl in *. simplify_res.
  assert (∀ m, m ∈ dec.*1 ↔ memOrg_int m ∈ memOrg_int <$> (reverse dec).*1) as Hin.
  { intros m. split.
    - intros Hm. apply list_elem_of_fmap. exists m. split; [done|].
      by rewrite fmap_reverse, elem_of_reverse.
    - intros (m' & Hm' & Hin)%list_elem_of_fmap.
      rewrite fmap_reverse, elem_of_reverse in Hin. by destruct m, m'. }
  split.
  - intros Hnil. split; intros Hm; eapply (filter_nil_not_elem_of _ _ _ Hnil);
      try apply Hin, Hm; simpl; lia.
  - intros [HR HC]. destruct (filter _ _) as [|i l] eqn:E; [done|exfalso].
    assert (i ∈ filter (λ i, (4 ≤ i)%nat) (memOrg_int <$> (reverse dec).*1)) as Hi
      by (rewrite E; left).
    apply list_elem_of_filter in Hi as [Hi (m & -> & Hm)%list_elem_of_fmap].
    rewrite fmap_reverse, elem_of_reverse in Hm. destruct m; simpl in Hi; try lia; done.
Qed.

(** [Column] writes the second word behind the array. *)
Lemma addressMapping_column mode dec r r' oob :
  length (addressMap r) = 4%nat → addressMapping mode dec r = Ok (r', oob) → Column ∈ dec.*1 → 5%nat ∈ oob.
Proof.
  intros Hlen H Hc. unfold addressMapping in H. apply bind_Ok in H as (s & Hs & H).
  pose proof (assign_oob _ _ _ Hs Hlen) as E. destruct s as [[[? ?] ?] o]. simpl in *. simplify_res.
  apply list_elem_of_filter. split; [lia|]. apply list_elem_of_fmap. exists Column. split; [done|].
  by rewrite fmap_reverse, elem_of_reverse.
Qed.

Lemma addressMapping_overflow_witness :
  (Row ∈ ddr3_format.*1) ∧ [5%nat; 4%nat] ≠ [].
Proof.
  assert (Row ∈ ddr3_format.*1) as HR by (apply (bool_decide_unpack _); vm_compute; exact I).
  split; [exact HR|]. intros Hnil.
  assert (addressMapping Interleaved ddr3_format wit_r1 = Ok (decoded wit_r1, [5%nat; 4%nat]))
    as Hrun by (vm_compute; reflexivity).
  destruct (proj1 (addressMapping_overflow Interleaved ddr3_format wit_r1 (decoded wit_r1)
    [5%nat; 4%nat] eq_refl Hrun) Hnil) as [HnR _].
  exact (HnR HR).
Defined.
