(* ===== verification/ReqQueue.v ===== *)
(** * Request queues

    [RequestQueue] and its [WriteQueue] (src/src/RequestQueue.cpp,
    RequestQueue.h). A queue holds pointers to requests in one general buffer,
    or in one buffer per requestor ([requestorBuffer], scanned through
    [requestorOrder]), and the writes in a write queue when it is enabled.

    Main results: the order list and the per-requestor map stay consistent;
    inserting adds one pointer and fetching then removing takes out exactly the
    fetched one; [earliestperBankperReq] never follows a null pointer and
    returns the earliest request of its bank and requestor. *)
From S2P Require Import Prelude Types KeyedBuf.

(** ** The write queue *)
Record WriteQueue := mkWriteQueue {
  lowwatermark : Z;
  highwatermark : Z;
  wq_items : list ptr;
}.

Definition insertWrite (p : ptr) (w : WriteQueue) : WriteQueue :=
  mkWriteQueue (lowwatermark w) (highwatermark w) (wq_items w ++ [p]).
Definition wq_bufferSize (w : WriteQueue) : nat := length (wq_items w).
Definition highWatermark (w : WriteQueue) : bool :=
  bool_decide (highwatermark w < Z.of_nat (length (wq_items w))).
Definition lowWatermark (w : WriteQueue) : bool :=
  bool_decide (Z.of_nat (length (wq_items w)) < lowwatermark w).
Definition getWrite (i : nat) (w : WriteQueue) : res ptr := vec_at (wq_items w) i.
Definition removeWrite (i : nat) (w : WriteQueue) : res WriteQueue :=
  l ← vec_erase (wq_items w) i;
  mret (mkWriteQueue (lowwatermark w) (highwatermark w) l).
Definition popWrite (i : nat) (w : WriteQueue) : res (ptr * WriteQueue) :=
  p ← vec_at (wq_items w) i;
  w' ← removeWrite i w;
  mret (p, w').

(** ** The request queue *)
Record RequestQueue := mkRequestQueue {
  writeQueueEnable : bool;
  perRequestorEnable : bool;
  rq_flag : bool;
  writeMode : bool;
  writeQueue : option WriteQueue;
  generalBuffer : list ptr;
  requestorBuffer : gmap Z (list ptr);
  requestorOrder : list Z;
  scheduledRequest : bool * (Z * nat);
}.

Definition RequestQueue_ctor (perRequestor writeQueueEnable : bool) : RequestQueue :=
  {| writeQueueEnable := writeQueueEnable; perRequestorEnable := perRequestor;
     rq_flag := false; writeMode := false;
     writeQueue := if writeQueueEnable then Some (mkWriteQueue 4 10 []) else None;
     generalBuffer := []; requestorBuffer := ∅; requestorOrder := [];
     scheduledRequest := (false, (0, 0%nat)) |}.

Definition set_writeQueue (w : option WriteQueue) (q : RequestQueue) : RequestQueue :=
  mkRequestQueue (writeQueueEnable q) (perRequestorEnable q) (rq_flag q) (writeMode q) w
    (generalBuffer q) (requestorBuffer q) (requestorOrder q) (scheduledRequest q).
Definition set_generalBuffer (l : list ptr) (q : RequestQueue) : RequestQueue :=
  mkRequestQueue (writeQueueEnable q) (perRequestorEnable q) (rq_flag q) (writeMode q)
    (writeQueue q) l (requestorBuffer q) (requestorOrder q) (scheduledRequest q).
Definition set_requestorBuffer (m : gmap Z (list ptr)) (o : list Z) (q : RequestQueue) : RequestQueue :=
  mkRequestQueue (writeQueueEnable q) (perRequestorEnable q) (rq_flag q) (writeMode q)
    (writeQueue q) (generalBuffer q) m o (scheduledRequest q).
Definition set_scheduledRequest (s : bool * (Z * nat)) (q : RequestQueue) : RequestQueue :=
  mkRequestQueue (writeQueueEnable q) (perRequestorEnable q) (rq_flag q) (writeMode q)
    (writeQueue q) (generalBuffer q) (requestorBuffer q) (requestorOrder q) s.
Definition set_rq_flag (b : bool) (q : RequestQueue) : RequestQueue :=
  mkRequestQueue (writeQueueEnable q) (perRequestorEnable q) b (writeMode q)
    (writeQueue q) (generalBuffer q) (requestorBuffer q) (requestorOrder q) (scheduledRequest q).

(** [requestorBuffer[id]] for an [id] of [requestorOrder]. ([operator[]] adds an
    empty buffer for an unknown key; the source only looks up keys of
    [requestorOrder], which are present, [rq_wf].) *)
Definition buffer_of (q : RequestQueue) (id : Z) : list ptr :=
  default [] (requestorBuffer q !! id).

Definition isWriteEnable (q : RequestQueue) : bool := writeQueueEnable q.
Definition isPerRequestor (q : RequestQueue) : bool := perRequestorEnable q.
Definition setWriteMode (b : bool) (q : RequestQueue) : RequestQueue :=
  mkRequestQueue (writeQueueEnable q) (perRequestorEnable q) (rq_flag q) b
    (writeQueue q) (generalBuffer q) (requestorBuffer q) (requestorOrder q) (scheduledRequest q).
Definition isWriteMode (q : RequestQueue) : bool := writeMode q.
Definition generalReadBufferSize (q : RequestQueue) : nat := length (generalBuffer q).
Definition isEmpty (q : RequestQueue) : bool := bool_decide (generalBuffer q = []).
Definition getQueueSize (q : RequestQueue) : nat := length (requestorOrder q).

(** [insertRequest] returns [true] on every path. *)
Definition insertRequest (h : rheap) (p : ptr) (q : RequestQueue) : res (bool * RequestQueue) :=
  r ← deref h p;
  if writeQueueEnable q && bool_decide (requestType r = DATA_WRITE) then
    w ← of_option Undefined (writeQueue q);
    mret (true, set_writeQueue (Some (insertWrite p w)) q)
  else if perRequestorEnable q then
    let id := requestorID r in
    let q := match requestorBuffer q !! id with
             | None => set_requestorBuffer (<[id := []]> (requestorBuffer q)) (requestorOrder q ++ [id]) q
             | Some _ => q
             end in
    mret (true, set_requestorBuffer (<[id := buffer_of q id ++ [p]]> (requestorBuffer q))
                  (requestorOrder q) q)
  else
    mret (true, set_generalBuffer (generalBuffer q ++ [p]) q).

Definition getSize (requestor : bool) (index : nat) (q : RequestQueue) : res nat :=
  if requestor then
    if bool_decide (length (requestorOrder q) = 0)%nat then mret 0%nat
    else
      id ← vec_at (requestorOrder q) index;
      mret match requestorBuffer q !! id with None => 0%nat | Some l => length l end
  else mret (length (generalBuffer q)).

(** [getRequest(reqIndex, index)]: the request, or [NULL] when the requestor's
    buffer is empty; remembers what it returned for [removeRequest]. *)
Definition getRequest2 (reqIndex index : nat) (q : RequestQueue) : res (option ptr * RequestQueue) :=
  id ← vec_at (requestorOrder q) reqIndex;
  if bool_decide (buffer_of q id = []) then mret (None, q)
  else
    p ← vec_at (buffer_of q id) index;
    mret (Some p, set_scheduledRequest (true, (id, index)) q).

Definition checkRequestIndex (reqIndex index : nat) (q : RequestQueue) : res (option ptr) :=
  id ← vec_at (requestorOrder q) reqIndex;
  if bool_decide (buffer_of q id = []) then mret None
  else p ← vec_at (buffer_of q id) index; mret (Some p).

(** [getRequest(index)] on the general buffer. *)
Definition getRequest (index : nat) (q : RequestQueue) : res (option ptr * RequestQueue) :=
  if bool_decide (generalBuffer q = []) then mret (None, q)
  else
    p ← vec_at (generalBuffer q) index;
    mret (Some p, set_scheduledRequest (false, (0, index)) q).

Definition getRequestCheck (index : nat) (q : RequestQueue) : res (option ptr) :=
  if bool_decide (generalBuffer q = []) then mret None
  else p ← vec_at (generalBuffer q) index; mret (Some p).

Definition switchMode (q : RequestQueue) : res (bool * RequestQueue) :=
  w ← of_option Undefined (writeQueue q);
  mret (if rq_flag q then
          if bool_decide (wq_bufferSize w = 0)%nat then (true, set_rq_flag false q) else (false, q)
        else if highWatermark w then (false, set_rq_flag true q) else (true, q)).

Definition writeSize (q : RequestQueue) : res nat :=
  w ← of_option Undefined (writeQueue q); mret (wq_bufferSize w).
Definition scheduleWritecheck (q : RequestQueue) : res ptr :=
  w ← of_option Undefined (writeQueue q); getWrite 0 w.
Definition removeWriteRequest (q : RequestQueue) : res RequestQueue :=
  w ← of_option Undefined (writeQueue q);
  w' ← removeWrite 0 w;
  mret (set_writeQueue (Some w') q).

(** The test both loops of [earliestperBankperReq] make. *)
Definition on_bank_of (p b : Z) (r : Request) : bool :=
  bool_decide (bank r = b ∧ requestorID r = p).

(** The bodies of its two loops: take the first match and leave the loop;
    replace the candidate by a match that arrived before it. *)
Definition first_match (h : rheap) (p b : Z) (x : ptr) (temp : option ptr)
    : res (flow (option ptr) unit) :=
  r ← deref h x;
  mret (if on_bank_of p b r then Stop (Some x) () else Next temp).

Definition earlier_match (h : rheap) (p b : Z) (x : ptr) (temp : option ptr) : res (option ptr) :=
  r ← deref h x;
  if on_bank_of p b r then
    t ← of_option Undefined temp;
    rt ← deref h t;
    mret (if bool_decide (arriveTime r < arriveTime rt) then Some x else temp)
  else mret temp.

(** [earliestperBankperReq(p, b)]: a first loop finds the first match, a second
    one replaces it by every earlier one; the second dereferences [temp], which
    is null when the first found nothing. *)
Definition earliestperBankperReq (h : rheap) (p b : Z) (q : RequestQueue) : res (option ptr) :=
  if bool_decide (generalBuffer q = []) then mret None
  else
    o ← forM (generalBuffer q) None (first_match h p b);
    let temp := match o with Next t => t | Stop t _ => t end in
    foldM (generalBuffer q) temp (earlier_match h p b).

Definition removeRequest (q : RequestQueue) : res RequestQueue :=
  let '(per, (id, index)) := scheduledRequest q in
  if per then
    l ← vec_erase (buffer_of q id) index;
    mret (set_requestorBuffer (<[id := l]> (requestorBuffer q)) (requestorOrder q) q)
  else
    l ← vec_erase (generalBuffer q) index;
    mret (set_generalBuffer l q).

(** ** Contents and invariant *)
(** Every pointer the queue holds. *)
Definition contents (q : RequestQueue) : list ptr :=
  generalBuffer q ++ items_of (requestorBuffer q) (requestorOrder q)
    ++ from_option wq_items [] (writeQueue q).

(** The order list has no duplicates and lists exactly the requestors that have
    a buffer; an enabled write queue exists. *)
Record rq_wf (q : RequestQueue) : Prop := {
  rq_order : order_ok (requestorBuffer q) (requestorOrder q);
  rq_write : writeQueueEnable q = true → is_Some (writeQueue q);
}.

Lemma RequestQueue_ctor_wf b w : rq_wf (RequestQueue_ctor b w).
Proof. split; simpl; [apply order_ok_empty|by intros ->]. Qed.

Lemma set_buffer_wf q id l :
  rq_wf q → id ∈ requestorOrder q →
  rq_wf (set_requestorBuffer (<[id := l]> (requestorBuffer q)) (requestorOrder q) q).
Proof. intros [Ho Hw] Hid. split; simpl; [by apply order_ok_insert|done]. Qed.

Lemma new_buffer_wf q id :
  rq_wf q → requestorBuffer q !! id = None →
  rq_wf (set_requestorBuffer (<[id := []]> (requestorBuffer q)) (requestorOrder q ++ [id]) q).
Proof. intros [Ho Hw] Hid. split; simpl; [by apply order_ok_snoc|done]. Qed.

Lemma set_buffer_contents q id l :
  rq_wf q → id ∈ requestorOrder q →
  ∃ A B,
    contents q = A ++ buffer_of q id ++ B ∧
    contents (set_requestorBuffer (<[id := l]> (requestorBuffer q)) (requestorOrder q) q)
      = A ++ l ++ B.
Proof.
  intros [[Hnd _] _] Hid.
  destruct (items_split (requestorBuffer q) (requestorOrder q) id Hnd Hid) as (A & B & HAB).
  exists (generalBuffer q ++ A), (B ++ from_option wq_items [] (writeQueue q)).
  unfold contents, buffer_of. simpl. split.
  - rewrite (HAB (requestorBuffer q)) by done. by rewrite <- !app_assoc.
  - rewrite HAB; [|intros; by rewrite lookup_insert_ne].
    rewrite lookup_insert_eq. simpl. by rewrite <- !app_assoc.
Qed.

Lemma insertRequest_buffer_spec p q id :
  rq_wf q → id ∈ requestorOrder q →
  let q' := set_requestorBuffer (<[id := buffer_of q id ++ [p]]> (requestorBuffer q))
              (requestorOrder q) q in
  rq_wf q' ∧ contents q' ≡ₚ p :: contents q.
Proof.
  intros Hwf Hid q'. split; [by apply set_buffer_wf|].
  destruct (set_buffer_contents q id (buffer_of q id ++ [p]) Hwf Hid) as (A & B & E1 & E2).
  rewrite E1. unfold q'. rewrite E2. solve_Permutation.
Qed.

Lemma insertRequest_ok h p r q :
  rq_wf q → h !! p = Some r →
  ∃ q', insertRequest h p q = Ok (true, q') ∧ rq_wf q' ∧ contents q' ≡ₚ p :: contents q.
Proof.
  intros Hwf Hp. unfold insertRequest, deref. rewrite Hp. simpl.
  destruct (writeQueueEnable q && _) eqn:Hw; [|destruct (perRequestorEnable q)].
  - apply andb_true_iff in Hw as [Hw _]. destruct (rq_write q Hwf Hw) as [w Hq].
    rewrite Hq. simpl. eexists. split; [done|]. split; [by destruct Hwf; split; simpl; eauto|].
    unfold contents. rewrite Hq. simpl. solve_Permutation.
  - destruct (requestorBuffer q !! requestorID r) as [l|] eqn:Hbuf.
    + eexists. split; [done|]. apply insertRequest_buffer_spec; [done|].
      apply (rq_order q Hwf); eauto.
    + eexists. split; [done|].
      pose proof (new_buffer_wf q (requestorID r) Hwf Hbuf) as Hwf1.
      set (q1 := set_requestorBuffer (<[requestorID r := []]> (requestorBuffer q)) _ q) in *.
      destruct (insertRequest_buffer_spec p q1 (requestorID r) Hwf1) as [H1 H2].
      { simpl. apply elem_of_app. right. apply list_elem_of_singleton. done. }
      split; [done|]. rewrite H2. f_equiv. unfold contents. simpl. by rewrite items_of_snoc.
  - eexists. split; [done|]. split; [by destruct Hwf; split|].
    unfold contents. simpl. solve_Permutation.
Qed.

(** [insertRequest] of a live request succeeds on a well-formed queue,
    returns [true], keeps the queue well formed and adds exactly that pointer. *)
Theorem insertRequest_spec h p r q :
  rq_wf q → h !! p = Some r →
  ∃ q', insertRequest h p q = Ok (true, q') ∧ rq_wf q' ∧ contents q' ≡ₚ p :: contents q.
Proof. apply insertRequest_ok. Qed.

Lemma fetch_requestor i j q p q1 :
  rq_wf q → getRequest2 i j q = Ok (Some p, q1) →
  ∃ id q2, requestorOrder q !! i = Some id ∧ buffer_of q id !! j = Some p ∧
    removeRequest q1 = Ok q2 ∧ rq_wf q2 ∧ contents q ≡ₚ p :: contents q2 ∧
    buffer_of q2 id = delete j (buffer_of q id).
Proof.
  intros Hwf H. unfold getRequest2 in H. simplify_res.
  match goal with H : vec_at _ i = Ok ?x |- _ => rename x into id; apply vec_at_Ok in H as Hi end.
  case_bool_decide as Hne; simplify_res.
  match goal with H : vec_at _ j = Ok _ |- _ => apply vec_at_Ok in H as Hj end.
  assert (id ∈ requestorOrder q) as Hid by by eapply list_elem_of_lookup_2.
  unfold removeRequest. simpl. change (buffer_of (set_scheduledRequest _ q) id) with (buffer_of q id).
  assert (vec_erase (buffer_of q id) j = Ok (delete j (buffer_of q id))) as ->
    by (apply vec_erase_Ok; split; [by eapply lookup_lt_Some|done]).
  simpl. eexists _, _. split; [done|]. split; [done|]. split; [done|].
  pose proof (set_buffer_wf q id (delete j (buffer_of q id)) Hwf Hid) as [].
  split; [by split|].
  destruct (set_buffer_contents q id (delete j (buffer_of q id)) Hwf Hid) as (A & B & E1 & E2).
  split; [|unfold buffer_of; simpl; by rewrite lookup_insert_eq].
  rewrite E1. change (contents (set_requestorBuffer ?a ?b (set_scheduledRequest _ q)))
    with (contents (set_requestorBuffer a b q)). rewrite E2.
  rewrite (delete_Permutation (buffer_of q id) j p Hj) at 1. solve_Permutation.
Qed.

(** A request fetched from a requestor's buffer is taken out, and nothing
    else, by the following [removeRequest]; the other pointers of the buffer
    keep their order. *)
Theorem getRequest2_removeRequest i j q p q1 :
  rq_wf q → getRequest2 i j q = Ok (Some p, q1) →
  ∃ id q2, requestorOrder q !! i = Some id ∧ buffer_of q id !! j = Some p ∧
    removeRequest q1 = Ok q2 ∧ rq_wf q2 ∧ contents q ≡ₚ p :: contents q2 ∧
    buffer_of q2 id = delete j (buffer_of q id).
Proof. apply fetch_requestor. Qed.

(** The same for the general buffer. *)
Lemma fetch_general j q p q1 :
  rq_wf q → getRequest j q = Ok (Some p, q1) →
  ∃ q2, generalBuffer q !! j = Some p ∧ removeRequest q1 = Ok q2 ∧ rq_wf q2 ∧
    contents q ≡ₚ p :: contents q2 ∧ generalBuffer q2 = delete j (generalBuffer q).
Proof.
  intros [Ho Hw] H. unfold getRequest in H. case_bool_decide as Hne; simplify_res.
  match goal with H : vec_at _ j = Ok _ |- _ => apply vec_at_Ok in H as Hj end.
  unfold removeRequest. simpl.
  assert (vec_erase (generalBuffer q) j = Ok (delete j (generalBuffer q))) as ->
    by (apply vec_erase_Ok; split; [by eapply lookup_lt_Some|done]).
  simpl. eexists. split; [done|]. split; [done|]. split; [by split|]. split; [|done].
  unfold contents. simpl. rewrite (delete_Permutation (generalBuffer q) j p Hj) at 1. done.
Qed.

(** ** The earliest request of a bank and a requestor *)
Section earliest.
Context (h : rheap) (p b : Z).

(** [x] is live and on bank [b] of requestor [p]. *)
Definition matches (x : ptr) (r : Request) : Prop := h !! x = Some r ∧ on_bank_of p b r = true.

Lemma first_match_live x r t :
  h !! x = Some r →
  first_match h p b x t = Ok (if on_bank_of p b r then Stop (Some x) () else Next t).
Proof. intros Hr. unfold first_match. by rewrite (proj2 (deref_Ok h x r) Hr). Qed.

Lemma earlier_match_live x r t :
  h !! x = Some r →
  earlier_match h p b x t =
    if on_bank_of p b r then
      t' ← of_option Undefined t;
      rt ← deref h t';
      mret (if bool_decide (arriveTime r < arriveTime rt) then Some x else t)
    else Ok t.
Proof. intros Hr. unfold earlier_match. by rewrite (proj2 (deref_Ok h x r) Hr). Qed.

Lemma first_match_spec (l : list ptr) :
  (∀ x, x ∈ l → is_Some (h !! x)) →
  ∃ o, forM l None (first_match h p b) = Ok o ∧
    match o with
    | Next t => t = None ∧ ∀ x r, x ∈ l → ¬ matches x r
    | Stop t _ => ∃ x r, t = Some x ∧ matches x r ∧ x ∈ l
    end.
Proof.
  induction l as [|x l IH]; intros Hl; simpl.
  - eexists. split; [done|]. split; [done|]. by intros ?? ?%not_elem_of_nil.
  - destruct (Hl x) as [r Hr]; [left|]. rewrite (first_match_live x r) by done. simpl.
    destruct (on_bank_of p b r) eqn:E.
    + eexists. split; [done|]. exists x, r. repeat split; [done..|left].
    + destruct IH as (o & -> & Ho); [intros; apply Hl; by right|]. exists o. split; [done|].
      destruct o as [t|t u].
      * destruct Ho as [-> Hno]. split; [done|].
        intros y r' [->|Hy]%elem_of_cons [H1 H2]; [congruence|by eapply Hno; [|split]].
      * destruct Ho as (y & r' & ? & ? & ?). exists y, r'. split_and!; [done..|by right].
Qed.

Lemma matches_fun x r r' : matches x r → h !! x = Some r' → r' = r.
Proof. intros [H _] H'. congruence. Qed.

(** [o] is the earliest match among the candidate [x0] and the list. *)
Definition earliest_of (x0 : ptr) (l : list ptr) (o : option ptr) : Prop :=
  ∃ x r, o = Some x ∧ matches x r ∧ x ∈ x0 :: l ∧
    ∀ y r', y ∈ x0 :: l → matches y r' → arriveTime r ≤ arriveTime r'.

Lemma earliest_of_cons x0 r0 x r l o :
  matches x0 r0 → h !! x = Some r →
  (on_bank_of p b r = true → arriveTime r0 ≤ arriveTime r) →
  earliest_of x0 l o → earliest_of x0 (x :: l) o.
Proof.
  intros Hm0 Hx Hle (x1 & r1 & -> & Hm & Hin & Hmin). exists x1, r1.
  split_and!; [done..|set_solver|]. intros y r' Hy Hm'.
  assert (arriveTime r1 ≤ arriveTime r0) by (eapply Hmin; [left|done]).
  apply elem_of_cons in Hy as [->|[->|Hy]%elem_of_cons];
    [by eapply Hmin; [left|]| |by eapply Hmin; [right|]].
  rewrite (matches_fun _ _ _ Hm' Hx) in *. destruct Hm' as [? Hb]. specialize (Hle Hb). lia.
Qed.

Lemma improve_spec (l : list ptr) x0 r0 :
  (∀ x, x ∈ l → is_Some (h !! x)) → matches x0 r0 →
  ∃ o, foldM l (Some x0) (earlier_match h p b) = Ok o ∧ earliest_of x0 l o.
Proof.
  revert x0 r0. induction l as [|x l IH]; intros x0 r0 Hl Hm; simpl.
  - exists (Some x0). split; [done|]. exists x0, r0. split_and!; [done..|left|].
    intros y r' ->%list_elem_of_singleton [Hy _]. by rewrite (matches_fun _ _ _ Hm Hy).
  - destruct (Hl x) as [r Hr]; [left|].
    assert (∀ y, y ∈ l → is_Some (h !! y)) as Hl' by (intros; apply Hl; by right).
    rewrite (earlier_match_live x r) by done. destruct (on_bank_of p b r) eqn:E; simpl.
    + rewrite (proj2 (deref_Ok h x0 r0) (proj1 Hm)). simpl. case_bool_decide as Hlt.
      * destruct (IH x r) as (o & -> & x1 & r1 & -> & Hm1 & Hin & Hmin); [done..|].
        eexists. split; [done|]. exists x1, r1. split_and!; [done..|set_solver|].
        intros y r' [->|Hy]%elem_of_cons Hm'; [|by eapply Hmin].
        assert (arriveTime r1 ≤ arriveTime r) by (eapply Hmin; [left|done]).
        destruct Hm' as [Hy _]. rewrite (matches_fun _ _ _ Hm Hy). lia.
      * destruct (IH x0 r0) as (o & -> & Ho); [done..|]. exists o. split; [done|].
        apply (earliest_of_cons x0 r0 x r); [done..|lia|done].
    + destruct (IH x0 r0) as (o & -> & Ho); [done..|]. exists o. split; [done|].
      apply (earliest_of_cons x0 r0 x r); [done|done|congruence|done].
Qed.

Lemma improve_none (l : list ptr) :
  (∀ x, x ∈ l → is_Some (h !! x)) → (∀ x r, x ∈ l → ¬ matches x r) →
  foldM l None (earlier_match h p b) = Ok None.
Proof.
  induction l as [|x l IH]; intros Hl Hno; simpl; [done|].
  destruct (Hl x) as [r Hr]; [left|]. rewrite (earlier_match_live x r) by done.
  destruct (on_bank_of p b r) eqn:E; [exfalso; eapply Hno; [left|by split]|]. simpl.
  apply IH; [intros; apply Hl; by right|]. intros. eapply Hno. by right.
Qed.
End earliest.

Lemma earliest_ok h p b q :
  (∀ x, x ∈ generalBuffer q → is_Some (h !! x)) →
  ∃ o, earliestperBankperReq h p b q = Ok o ∧
    match o with
    | None => ∀ x r, x ∈ generalBuffer q → ¬ matches h p b x r
    | Some x => ∃ r, x ∈ generalBuffer q ∧ matches h p b x r ∧
        ∀ y r', y ∈ generalBuffer q → matches h p b y r' → arriveTime r ≤ arriveTime r'
    end.
Proof.
  intros Hl. unfold earliestperBankperReq. case_bool_decide as Hnil.
  { eexists. split; [done|]. rewrite Hnil. by intros ?? ?%not_elem_of_nil. }
  destruct (first_match_spec h p b _ Hl) as (o & -> & Ho). simpl. destruct o as [t|t u].
  - destruct Ho as [-> Hno]. exists None. by rewrite improve_none.
  - destruct Ho as (x0 & r0 & -> & Hm & Hin).
    destruct (improve_spec h p b (generalBuffer q) x0 r0 Hl Hm) as (o & -> & x & r & -> & ? & Hx & Hmin).
    exists (Some x). split; [done|]. exists r. split_and!; [set_solver|done|].
    intros y r' Hy. apply Hmin. by right.
Qed.

(** On a buffer of live requests [earliestperBankperReq] never follows a
    null pointer; it returns a request of its bank and requestor that no other
    one of the buffer precedes, and [NULL] only when there is none. *)
Theorem earliestperBankperReq_spec h p b q :
  (∀ x, x ∈ generalBuffer q → is_Some (h !! x)) →
  ∃ o, earliestperBankperReq h p b q = Ok o ∧
    match o with
    | None => ∀ x r, x ∈ generalBuffer q → ¬ matches h p b x r
    | Some x => ∃ r, x ∈ generalBuffer q ∧ matches h p b x r ∧
        ∀ y r', y ∈ generalBuffer q → matches h p b y r' → arriveTime r ≤ arriveTime r'
    end.
Proof. apply earliest_ok. Qed.

(** ** Witnesses *)
Definition wit_req (id arr : Z) : Request :=
  set_arriveTime arr (new_Request 0 id DATA_READ 64 (64 * id) 0).
Definition wit_heap : rheap :=
  <[1%positive := wit_req 3 20]> (<[2%positive := wit_req 4 11]> (<[3%positive := wit_req 3 12]> ∅)).
Definition wit_queue (per : bool) : RequestQueue :=
  match insertRequest wit_heap 1%positive (RequestQueue_ctor per true) with
  | Ok (_, q) => match insertRequest wit_heap 3%positive q with Ok (_, q) => q | _ => q end
  | _ => RequestQueue_ctor per true
  end.

Lemma wit_queue_wf per : rq_wf (wit_queue per).
Proof.
  unfold wit_queue.
  destruct (insertRequest_ok wit_heap 1%positive (wit_req 3 20) (RequestQueue_ctor per true))
    as (q1 & -> & H1 & _); [apply RequestQueue_ctor_wf|done|].
  by destruct (insertRequest_ok wit_heap 3%positive (wit_req 3 12) q1) as (q2 & -> & H2 & _).
Qed.

Lemma insertRequest_spec_witness :
  rq_wf (RequestQueue_ctor true true) ∧
  ∃ q', insertRequest wit_heap 1%positive (RequestQueue_ctor true true) = Ok (true, q') ∧
    rq_wf q' ∧ contents q' ≡ₚ [1%positive].
Proof.
  split; [apply RequestQueue_ctor_wf|].
  exact (insertRequest_spec wit_heap 1%positive (wit_req 3 20) (RequestQueue_ctor true true)
    (RequestQueue_ctor_wf true true) eq_refl).
Defined.

Lemma getRequest2_removeRequest_witness :
  rq_wf (wit_queue true) ∧
  ∃ id q2, requestorOrder (wit_queue true) !! 0%nat = Some id ∧
    buffer_of (wit_queue true) id !! 1%nat = Some 3%positive ∧
    removeRequest (set_scheduledRequest (true, (3, 1%nat)) (wit_queue true)) = Ok q2 ∧ rq_wf q2 ∧
    contents (wit_queue true) ≡ₚ 3%positive :: contents q2 ∧
    buffer_of q2 id = delete 1%nat (buffer_of (wit_queue true) id).
Proof.
  split; [apply wit_queue_wf|].
  apply (getRequest2_removeRequest 0 1 (wit_queue true) 3%positive); [apply wit_queue_wf|].
  vm_compute. reflexivity.
Defined.

Lemma earliestperBankperReq_spec_witness :
  (∀ x, x ∈ generalBuffer (wit_queue false) → is_Some (wit_heap !! x)) ∧
  ∃ o, earliestperBankperReq wit_heap 3 0 (wit_queue false) = Ok o ∧
    match o with
    | None => ∀ x r, x ∈ generalBuffer (wit_queue false) → ¬ matches wit_heap 3 0 x r
    | Some x => ∃ r, x ∈ generalBuffer (wit_queue false) ∧ matches wit_heap 3 0 x r ∧
        ∀ y r', y ∈ generalBuffer (wit_queue false) → matches wit_heap 3 0 y r' →
          arriveTime r ≤ arriveTime r'
    end.
Proof.
  assert (∀ x, x ∈ generalBuffer (wit_queue false) → is_Some (wit_heap !! x)) as Hl.
  { intros x Hx. change (x ∈ [1%positive; 3%positive]) in Hx. set_unfold.
    destruct Hx as [->|[->|[]]]; eexists; vm_compute; reflexivity. }
  split; [exact Hl|]. exact (earliestperBankperReq_spec wit_heap 3 0 (wit_queue false) Hl).
Defined.

(** The earliest of the two is the one that arrived at 12, not the first. *)
Example earliest_wit : earliestperBankperReq wit_heap 3 0 (wit_queue false) = Ok (Some 3%positive).
Proof. vm_compute. reflexivity. Qed.
