(* ===== verification/CmdQueue.v ===== *)
(** * Command queues

    [CommandQueue] (src/src/CommandQueue.cpp, CommandQueue.h): command packets in
    one buffer per requestor, or in one buffer for critical ([hrtBuffer]) and
    one for noncritical ([srtBuffer]) commands; [getCommand] remembers in
    [scheduledQueue] which of the two [removeCommand] pops.

    Main results: inserting adds one packet at the end of one buffer; the packet
    a scheduler fetched is the one the next removal takes out, from the front of
    its buffer; fetching from an empty buffer aborts. *)
From S2P Require Import Prelude Types KeyedBuf.

Record CommandQueue := mkCommandQueue {
  cq_perRequestorEnable : bool;
  scheduledQueue : bool;
  requestorMap : list Z;
  cq_requestorBuffer : gmap Z (list BusPacket);
  hrtBuffer : list BusPacket;
  srtBuffer : list BusPacket;
}.

Definition CommandQueue_ctor (perRequestor : bool) : CommandQueue :=
  {| cq_perRequestorEnable := perRequestor; scheduledQueue := true; requestorMap := [];
     cq_requestorBuffer := ∅; hrtBuffer := []; srtBuffer := [] |}.

Definition set_cq_requestorBuffer (o : list Z) (m : gmap Z (list BusPacket)) (q : CommandQueue) :=
  mkCommandQueue (cq_perRequestorEnable q) (scheduledQueue q) o m (hrtBuffer q) (srtBuffer q).
Definition set_hrtBuffer (l : list BusPacket) (q : CommandQueue) : CommandQueue :=
  mkCommandQueue (cq_perRequestorEnable q) (scheduledQueue q) (requestorMap q)
    (cq_requestorBuffer q) l (srtBuffer q).
Definition set_srtBuffer (l : list BusPacket) (q : CommandQueue) : CommandQueue :=
  mkCommandQueue (cq_perRequestorEnable q) (scheduledQueue q) (requestorMap q)
    (cq_requestorBuffer q) (hrtBuffer q) l.
Definition set_scheduledQueue (b : bool) (q : CommandQueue) : CommandQueue :=
  mkCommandQueue (cq_perRequestorEnable q) b (requestorMap q)
    (cq_requestorBuffer q) (hrtBuffer q) (srtBuffer q).

(** [requestorBuffer[id]] for a requestor of [requestorMap]. *)
Definition cmd_buffer (q : CommandQueue) (id : Z) : list BusPacket :=
  default [] (cq_requestorBuffer q !! id).

Definition cq_isPerRequestor (q : CommandQueue) : bool := cq_perRequestorEnable q.

(** [getRequestorIndex]: the number of requestors in the queue. *)
Definition getRequestorIndex (q : CommandQueue) : nat := length (requestorMap q).

(** The guard is [index > requestorMap.size()]: the index one past the end
    passes it and reads behind the vector. *)
Definition getRequestorSize (index : nat) (q : CommandQueue) : res nat :=
  if (length (requestorMap q) <? index)%nat then Err Abort
  else id ← vec_at (requestorMap q) index; mret (length (cmd_buffer q id)).

Definition cq_getSize (critical : bool) (q : CommandQueue) : nat :=
  if critical then length (hrtBuffer q) else length (srtBuffer q).

(** [insertCommand] returns [true] on every path. *)
Definition insertCommand (command : BusPacket) (critical : bool) (q : CommandQueue)
    : bool * CommandQueue :=
  if cq_perRequestorEnable q then
    let id := bp_requestorID command in
    let q := match cq_requestorBuffer q !! id with
             | None => set_cq_requestorBuffer (requestorMap q ++ [id])
                         (<[id := []]> (cq_requestorBuffer q)) q
             | Some _ => q
             end in
    (true, set_cq_requestorBuffer (requestorMap q)
             (<[id := cmd_buffer q id ++ [command]]> (cq_requestorBuffer q)) q)
  else if critical then (true, set_hrtBuffer (hrtBuffer q ++ [command]) q)
  else (true, set_srtBuffer (srtBuffer q ++ [command]) q).

(** [getCommand] sets [scheduledQueue] first, and aborts on an empty buffer. *)
Definition getCommand (critical : bool) (q : CommandQueue) : res (BusPacket * CommandQueue) :=
  let q := set_scheduledQueue critical q in
  match (if critical then hrtBuffer q else srtBuffer q) with
  | c :: _ => Ok (c, q)
  | [] => Err Abort
  end.

Definition checkCommand (critical : bool) (index : nat) (q : CommandQueue) : res BusPacket :=
  match (if critical then hrtBuffer q else srtBuffer q) with
  | [] => Err Abort
  | l => vec_at l index
  end.

Definition getRequestorCommand (index : nat) (q : CommandQueue) : res BusPacket :=
  id ← vec_at (requestorMap q) index; vec_front (cmd_buffer q id).

(** [removeCommand(requestorID)]. *)
Definition removeCommand_req (requestorID : Z) (q : CommandQueue) : res CommandQueue :=
  l ← vec_erase (cmd_buffer q requestorID) 0;
  mret (set_cq_requestorBuffer (requestorMap q)
          (<[requestorID := l]> (cq_requestorBuffer q)) q).

(** [removeCommand()]. *)
Definition removeCommand (q : CommandQueue) : res CommandQueue :=
  if scheduledQueue q then l ← vec_erase (hrtBuffer q) 0; mret (set_hrtBuffer l q)
  else l ← vec_erase (srtBuffer q) 0; mret (set_srtBuffer l q).

(** ** Contents and invariant *)

(** The packets of a queue; those of one source of commands (one requestor, the
    critical or the noncritical buffer) are in the order of their insertion. *)
Definition commands (q : CommandQueue) : list BusPacket :=
  items_of (cq_requestorBuffer q) (requestorMap q) ++ hrtBuffer q ++ srtBuffer q.

(** The buffer a command goes to. *)
Definition buffer_for (q : CommandQueue) (c : BusPacket) (critical : bool) : list BusPacket :=
  if cq_perRequestorEnable q then cmd_buffer q (bp_requestorID c)
  else if critical then hrtBuffer q else srtBuffer q.

(** The map and the order agree, and a requestor's buffer holds only packets of
    that requestor. *)
Record cq_wf (q : CommandQueue) : Prop := {
  cq_order : order_ok (cq_requestorBuffer q) (requestorMap q);
  cq_owner : ∀ id c, c ∈ cmd_buffer q id → bp_requestorID c = id;
}.

Lemma CommandQueue_ctor_wf b : cq_wf (CommandQueue_ctor b).
Proof.
  split; simpl; [auto with mcsim|].
  intros id c. unfold cmd_buffer. simpl. rewrite lookup_empty. by intros ?%not_elem_of_nil.
Qed.

Lemma cmd_buffer_insert o m q id l id' :
  cmd_buffer (set_cq_requestorBuffer o (<[id := l]> m) q) id' =
    if decide (id' = id) then l else default [] (m !! id').
Proof.
  unfold cmd_buffer. simpl. case_decide as E.
  - subst. by rewrite lookup_insert_eq.
  - by rewrite lookup_insert_ne.
Qed.

Lemma set_cmd_buffer_wf q id l :
  cq_wf q → id ∈ requestorMap q → (∀ c, c ∈ l → bp_requestorID c = id) →
  cq_wf (set_cq_requestorBuffer (requestorMap q) (<[id := l]> (cq_requestorBuffer q)) q).
Proof.
  intros [Ho Hown] Hid Hl. split; simpl; [auto with mcsim|].
  intros id' c. rewrite cmd_buffer_insert. case_decide as E; [subst; apply Hl|apply Hown].
Qed.

Lemma set_cmd_buffer_commands q id l :
  cq_wf q → id ∈ requestorMap q →
  ∃ A B, commands q = A ++ cmd_buffer q id ++ B ∧
    commands (set_cq_requestorBuffer (requestorMap q) (<[id := l]> (cq_requestorBuffer q)) q)
      = A ++ l ++ B.
Proof.
  intros [[Hnd _] _] Hid.
  destruct (items_split (cq_requestorBuffer q) (requestorMap q) id Hnd Hid) as (A & B & HAB).
  exists A, (B ++ hrtBuffer q ++ srtBuffer q). unfold commands, cmd_buffer. simpl. split.
  - rewrite (HAB (cq_requestorBuffer q)) by done. by rewrite <- !app_assoc.
  - rewrite HAB; [|intros; by rewrite lookup_insert_ne].
    rewrite lookup_insert_eq. simpl. by rewrite <- !app_assoc.
Qed.

Lemma new_cmd_buffer q id :
  cq_wf q → cq_requestorBuffer q !! id = None →
  let q' := set_cq_requestorBuffer (requestorMap q ++ [id]) (<[id := []]> (cq_requestorBuffer q)) q in
  cq_wf q' ∧ commands q' = commands q ∧ cmd_buffer q' id = [] ∧ id ∈ requestorMap q'.
Proof.
  intros [Ho Hown] Hid q'. split; [split; simpl; [auto with mcsim|]|split; [|split]].
  - intros id' c. unfold q'. rewrite cmd_buffer_insert.
    case_decide; [by intros ?%not_elem_of_nil|apply Hown].
  - unfold commands. simpl. by rewrite items_of_snoc.
  - unfold q'. rewrite cmd_buffer_insert. by rewrite decide_True.
  - simpl. apply elem_of_app. right. by apply list_elem_of_singleton.
Qed.

Lemma insert_cmd_buffer q c :
  cq_wf q → bp_requestorID c ∈ requestorMap q →
  let id := bp_requestorID c in
  let q' := set_cq_requestorBuffer (requestorMap q)
              (<[id := cmd_buffer q id ++ [c]]> (cq_requestorBuffer q)) q in
  cq_wf q' ∧ commands q' ≡ₚ c :: commands q ∧ cmd_buffer q' id = cmd_buffer q id ++ [c].
Proof.
  intros Hwf Hin id q'. split; [|split].
  - apply set_cmd_buffer_wf; [done..|].
    intros c' [Hc| ->%list_elem_of_singleton]%elem_of_app; [|done]. by eapply cq_owner.
  - destruct (set_cmd_buffer_commands q id (cmd_buffer q id ++ [c]) Hwf Hin) as (A & B & E1 & E2).
    rewrite E1. unfold q'. rewrite E2. solve_Permutation.
  - unfold q'. rewrite cmd_buffer_insert. by rewrite decide_True.
Qed.

(** Facts other components use about a removal from the front. *)
Lemma removeCommand_req_front q id c l :
  cq_wf q → id ∈ requestorMap q → cmd_buffer q id = c :: l →
  ∃ q', removeCommand_req id q = Ok q' ∧ cq_wf q' ∧ commands q ≡ₚ c :: commands q' ∧
    cmd_buffer q' id = l ∧ (∀ id', id' ≠ id → cmd_buffer q' id' = cmd_buffer q id').
Proof.
  intros Hwf Hin Hc. unfold removeCommand_req.
  assert (vec_erase (cmd_buffer q id) 0 = Ok l) as ->
    by (apply vec_erase_Ok; rewrite Hc; simpl; split; [lia|done]).
  simpl. eexists. split; [done|]. split; [|split; [|split]].
  - apply set_cmd_buffer_wf; [done..|]. intros c' Hc'. eapply cq_owner; [done|]. rewrite Hc. by right.
  - destruct (set_cmd_buffer_commands q id l Hwf Hin) as (A & B & E1 & E2).
    rewrite E1, E2, Hc. solve_Permutation.
  - rewrite cmd_buffer_insert. by rewrite decide_True.
  - intros id' Hne. rewrite cmd_buffer_insert. by rewrite decide_False.
Qed.

Lemma getRequestorCommand_front i q c :
  cq_wf q → getRequestorCommand i q = Ok c →
  bp_requestorID c ∈ requestorMap q ∧ ∃ l, cmd_buffer q (bp_requestorID c) = c :: l.
Proof.
  intros Hwf H. apply bind_Ok in H as (id & Hi%vec_at_Ok & H0%vec_at_Ok).
  assert (bp_requestorID c = id) as ->
    by (eapply cq_owner; [done|]; by eapply list_elem_of_lookup_2).
  split; [by eapply list_elem_of_lookup_2|].
  destruct (cmd_buffer q id) as [|c' l]; [done|]. simpl in H0. simplify_eq. by eexists.
Qed.

Lemma getCommand_front critical q c q1 :
  getCommand critical q = Ok (c, q1) →
  q1 = set_scheduledQueue critical q ∧
  ∃ l, (if critical then hrtBuffer q else srtBuffer q) = c :: l.
Proof.
  unfold getCommand. destruct critical; simpl.
  - destruct (hrtBuffer q) as [|c' l]; intros; simplify_eq; eauto.
  - destruct (srtBuffer q) as [|c' l]; intros; simplify_eq; eauto.
Qed.

Lemma insertCommand_ok c critical q b q' :
  cq_wf q → insertCommand c critical q = (b, q') →
  b = true ∧ cq_wf q' ∧ commands q' ≡ₚ c :: commands q ∧
  buffer_for q' c critical = buffer_for q c critical ++ [c].
Proof.
  intros Hwf H. unfold insertCommand in H. unfold buffer_for.
  destruct (cq_perRequestorEnable q) eqn:Hper; [|destruct critical]; simplify_eq.
  - destruct (cq_requestorBuffer q !! bp_requestorID c) eqn:Hc; simpl; rewrite Hper.
    + split; [done|]. apply insert_cmd_buffer; [done|]. apply (cq_order q Hwf). eauto.
    + destruct (new_cmd_buffer q (bp_requestorID c) Hwf Hc) as (Hwf1 & Hcmd & Hbuf & Hin).
      destruct (insert_cmd_buffer _ c Hwf1 Hin) as (H1 & H2 & H3).
      split; [done|]. rewrite <- Hcmd. split_and!; [done|done|].
      replace (cmd_buffer q (bp_requestorID c)) with (@nil BusPacket)
        by (unfold cmd_buffer; by rewrite Hc).
      etransitivity; [exact H3|]. by rewrite Hbuf.
  - simpl. rewrite Hper. split_and!; [done|by destruct Hwf; split| |done].
    unfold commands. simpl. solve_Permutation.
  - simpl. rewrite Hper. split_and!; [done|by destruct Hwf; split| |done].
    unfold commands. simpl. solve_Permutation.
Qed.

(** [insertCommand] on a well-formed queue returns [true], keeps the queue
    well formed, adds exactly the packet, and puts it at the end of its buffer. *)
Theorem insertCommand_spec c critical q b q' :
  cq_wf q → insertCommand c critical q = (b, q') →
  b = true ∧ cq_wf q' ∧ commands q' ≡ₚ c :: commands q ∧
  buffer_for q' c critical = buffer_for q c critical ++ [c].
Proof. apply insertCommand_ok. Qed.

(** The packet [getRequestorCommand] shows is the oldest of its requestor,
    and [removeCommand(requestorID)] of its requestor takes out exactly it. *)
Theorem getRequestorCommand_removeCommand i q c :
  cq_wf q → getRequestorCommand i q = Ok c →
  ∃ q', removeCommand_req (bp_requestorID c) q = Ok q' ∧ cq_wf q' ∧
    commands q ≡ₚ c :: commands q' ∧
    cmd_buffer q (bp_requestorID c) = c :: cmd_buffer q' (bp_requestorID c) ∧
    (∀ id, id ≠ bp_requestorID c → cmd_buffer q' id = cmd_buffer q id).
Proof.
  intros Hwf H. destruct (getRequestorCommand_front i q c Hwf H) as (Hin & l & Hl).
  destruct (removeCommand_req_front q _ c l Hwf Hin Hl) as (q' & ? & ? & ? & Hb & ?).
  exists q'. rewrite Hl, Hb. by split_and!.
Qed.

(** The same for the general buffers, shared with the schedulers' files. *)
Lemma getCommand_pop critical q c q1 :
  cq_wf q → getCommand critical q = Ok (c, q1) →
  ∃ q2, removeCommand q1 = Ok q2 ∧ cq_wf q2 ∧ commands q ≡ₚ c :: commands q2 ∧
    hrtBuffer q = (if critical then [c] else []) ++ hrtBuffer q2 ∧
    srtBuffer q = (if critical then [] else [c]) ++ srtBuffer q2.
Proof.
  intros Hwf H. destruct (getCommand_front _ _ _ _ H) as (-> & l & Hl).
  unfold removeCommand. simpl. destruct critical; rewrite Hl; simpl.
  - eexists. split; [done|]. split; [by destruct Hwf; split|].
    split; [|done]. unfold commands. simpl. rewrite Hl. solve_Permutation.
  - eexists. split; [done|]. split; [by destruct Hwf; split|].
    split; [|done]. unfold commands. simpl. rewrite Hl. solve_Permutation.
Qed.

(** [getCommand] followed by [removeCommand] takes the oldest packet out of
    the buffer of the asked criticality and leaves the other buffer alone. *)
Theorem getCommand_removeCommand critical q c q1 :
  cq_wf q → getCommand critical q = Ok (c, q1) →
  ∃ q2, removeCommand q1 = Ok q2 ∧ cq_wf q2 ∧ commands q ≡ₚ c :: commands q2 ∧
    hrtBuffer q = (if critical then [c] else []) ++ hrtBuffer q2 ∧
    srtBuffer q = (if critical then [] else [c]) ++ srtBuffer q2.
Proof. apply getCommand_pop. Qed.

(** The bound check of [getRequestorSize] is off by one: it aborts beyond
    the size, and reads behind the vector exactly for the index equal to it. *)
Theorem getRequestorSize_errors q i :
  (getRequestorSize i q = Err Abort ↔ (getRequestorIndex q < i)%nat) ∧
  (getRequestorSize i q = Err Undefined ↔ i = getRequestorIndex q).
Proof.
  unfold getRequestorSize, getRequestorIndex, vec_at.
  destruct (Nat.ltb_spec (length (requestorMap q)) i) as [|Hle].
  - split; [done|]. split; [done|lia].
  - destruct (requestorMap q !! i) as [id|] eqn:E; simpl.
    + apply lookup_lt_Some in E. split; (split; [done|lia]).
    + apply lookup_ge_None in E. split; [split; [done|lia]|]. split; [lia|done].
Qed.

(** ** Witnesses *)
Definition wit_cmd (t : BusPacketType) (id bk : Z) : BusPacket := new_BusPacket t id 64 0 0 bk 0 0 0 0.
Definition wit_cq (per : bool) : CommandQueue :=
  (insertCommand (wit_cmd RD 2 5) true (insertCommand (wit_cmd ACT 2 5) true (CommandQueue_ctor per)).2).2.

Lemma wit_cq_wf per : cq_wf (wit_cq per).
Proof.
  unfold wit_cq.
  destruct (insertCommand (wit_cmd ACT 2 5) true (CommandQueue_ctor per)) as [b1 q1] eqn:E1.
  destruct (insertCommand_ok _ _ _ _ _ (CommandQueue_ctor_wf per) E1) as (_ & H1 & _).
  simpl. destruct (insertCommand (wit_cmd RD 2 5) true q1) as [b2 q2] eqn:E2.
  by destruct (insertCommand_ok _ _ _ _ _ H1 E2) as (_ & H2 & _).
Qed.

Lemma insertCommand_spec_witness :
  cq_wf (wit_cq true) ∧
  commands (insertCommand (wit_cmd PRE 2 5) true (wit_cq true)).2 ≡ₚ wit_cmd PRE 2 5 :: commands (wit_cq true).
Proof.
  split; [apply wit_cq_wf|].
  destruct (insertCommand_spec (wit_cmd PRE 2 5) true (wit_cq true) true
    (insertCommand (wit_cmd PRE 2 5) true (wit_cq true)).2 (wit_cq_wf true)
    ltac:(vm_compute; reflexivity)) as (_ & _ & H & _). exact H.
Defined.

Lemma getRequestorCommand_removeCommand_witness :
  cq_wf (wit_cq true) ∧
  ∃ q', removeCommand_req 2 (wit_cq true) = Ok q' ∧ cq_wf q' ∧
    commands (wit_cq true) ≡ₚ wit_cmd ACT 2 5 :: commands q' ∧
    cmd_buffer (wit_cq true) 2 = wit_cmd ACT 2 5 :: cmd_buffer q' 2 ∧
    (∀ id, id ≠ 2 → cmd_buffer q' id = cmd_buffer (wit_cq true) id).
Proof.
  split; [apply wit_cq_wf|].
  apply (getRequestorCommand_removeCommand 0 (wit_cq true) (wit_cmd ACT 2 5) (wit_cq_wf true)).
  vm_compute. reflexivity.
Defined.

Lemma getCommand_removeCommand_witness :
  cq_wf (wit_cq false) ∧
  ∃ q2, removeCommand (set_scheduledQueue true (wit_cq false)) = Ok q2 ∧ cq_wf q2 ∧
    commands (wit_cq false) ≡ₚ wit_cmd ACT 2 5 :: commands q2 ∧
    hrtBuffer (wit_cq false) = [wit_cmd ACT 2 5] ++ hrtBuffer q2 ∧
    srtBuffer (wit_cq false) = [] ++ srtBuffer q2.
Proof.
  split; [apply wit_cq_wf|].
  apply (getCommand_removeCommand true (wit_cq false) (wit_cmd ACT 2 5) _ (wit_cq_wf false)).
  vm_compute. reflexivity.
Defined.
