(* ===== verification/CmdGen.v ===== *)
(** * Command generators

    [CommandGenerator] (src/src/CommandGenerator.cpp, CommandGenerator.h) turns a
    request into DRAM commands in a FIFO. Its subclasses are
    - [Open]    src/generalScheduler/CommandGenerator_OPEN.h,
    - [Close]   src/generalScheduler/CommandGenerator_CLOSE.h,
    - [Round]   src/system/Round/CommandGenerator_Round.h,
    - [MCMC]    src/system/MCMC/CommandGenerator_MCMC.h,
    - [PipeCAS] src/system/PipeCAS/CommandGenerator_PipeCAS.h.

    The class [CommandGenerator] is the interface the request schedulers and the
    controller rely on: generating only appends commands that belong to the
    request. The row automaton [row_step] is the abstract specification of a
    legal command stream: a bank is activated only when it is closed, and
    accessed only on its open row. *)
From S2P Require Import Prelude Types.

Record Generator := mkGenerator {
  dataBusSize : Z;
  gen_first : list bool;
  lookupTable : gmap Z (Z * Z);
  commandBuffer : list BusPacket;
}.

Definition CommandGenerator_ctor (dataBus : Z) : Generator :=
  {| dataBusSize := dataBus; gen_first := replicate 8 true; lookupTable := ∅;
     commandBuffer := [] |}.

Definition gen_getCommand (g : Generator) : res BusPacket := vec_front (commandBuffer g).
Definition gen_removeCommand (g : Generator) : res Generator :=
  l ← vec_erase (commandBuffer g) 0;
  mret (mkGenerator (dataBusSize g) (gen_first g) (lookupTable g) l).
Definition gen_bufferSize (g : Generator) : nat := length (commandBuffer g).

(** [commandBuffer.push] of a list of packets, in order. *)
Definition push (cs : list BusPacket) (g : Generator) : Generator :=
  mkGenerator (dataBusSize g) (gen_first g) (lookupTable g) (commandBuffer g ++ cs).
Definition set_first (l : list bool) (g : Generator) : Generator :=
  mkGenerator (dataBusSize g) l (lookupTable g) (commandBuffer g).
Definition set_lookupTable (m : gmap Z (Z * Z)) (g : Generator) : Generator :=
  mkGenerator (dataBusSize g) (gen_first g) m (commandBuffer g).

(** [lookupTable[n]]: [operator[]] gives (0, 0) for an unknown size. *)
Definition lookup_size (g : Generator) (n : Z) : Z * Z := default (0, 0) (lookupTable g !! n).

(** [a / b] on [unsigned]; dividing by zero is undefined. *)
Definition udiv (a b : Z) : res Z := if bool_decide (b = 0) then Err Undefined else Ok (a / b).

(** The indices of [for (unsigned i = 0; i < n; i++)]. *)
Definition urange (n : Z) : list Z := Z.of_nat <$> seq 0 (Z.to_nat n).

Definition first_of (g : Generator) (bk : Z) : res bool := vec_at (gen_first g) (Z.to_nat bk).
Definition clear_first (bk : Z) (g : Generator) : res Generator :=
  l ← vec_set (gen_first g) (Z.to_nat bk) false; mret (set_first l g).

(** The part the open-page generators share: nothing when the row is open, an
    activate on the first use of the bank ([first]), else precharge and activate. *)
Definition open_row (bk : Z) (open : bool) (pre act : list BusPacket) (g : Generator) : res Generator :=
  if open then Ok g
  else
    f ← first_of g bk;
    if f : bool then clear_first bk (push act g) else Ok (push (pre ++ act) g).

(** ** Open page *)
Module Open.
Definition packet (t : BusPacketType) (c d : Z) (r : Request) : BusPacket :=
  new_BusPacket t (requestorID r) (address r) c (row r) (bank r) (rank r) (subArray r) d 0.

Definition commandGenerate (request : Request) (open : bool) (g : Generator) : res (bool * Generator) :=
  let CAS := if bool_decide (requestType request = DATA_WRITE) then WR else RD in
  size ← udiv (requestSize request) (dataBusSize g);
  g ← open_row (bank request) open [packet PRE (col request) 0 request]
        [packet ACT (col request) 0 request] g;
  mret (true, push ((λ x, packet CAS (u32 (col request + x)) (data request) request)
                      <$> urange size) g).
End Open.

(** ** Close page *)
Module Close.
Definition ctor (dataBus : Z) : Generator :=
  set_lookupTable
    (<[u32 (dataBus * 16) := (8, 2)]> (<[u32 (dataBus * 8) := (8, 1)]>
      (<[u32 (dataBus * 4) := (4, 1)]> (<[u32 (dataBus * 2) := (2, 1)]>
        (<[dataBus := (1, 1)]> ∅)))))
    (CommandGenerator_ctor dataBus).

Definition packet (t : BusPacketType) (bk d : Z) (r : Request) : BusPacket :=
  new_BusPacket t (requestorID r) (address r) (col r) (row r) bk (rank r) (subArray r) d 0.

(** One activate and one access with auto-precharge. *)
Definition pair (CAS : BusPacketType) (bk : Z) (r : Request) : list BusPacket :=
  [packet ACT bk 0 r; packet CAS bk (data r) r].

Definition commandGenerate (request : Request) (open : bool) (g : Generator) : res (bool * Generator) :=
  let CAS := if bool_decide (requestType request = DATA_WRITE) then WRA else RDA in
  let '(bis, bcs) := lookup_size g (requestSize request) in
  mret (true, push
    (bi ← urange bis;
     bc ← urange bcs;
     pair CAS (u32 (bank request + bi) `mod` 16) request) g).
End Close.

(** ** Round *)
Module Round.
Definition packet (t : BusPacketType) (c d : Z) (r : Request) : BusPacket :=
  new_BusPacket t (requestorID r) (address r) c (row r) (bank r) 0 0 d 0.

(** Every access of the burst goes to column [col + size]. *)
Definition commandGenerate (request : Request) (open : bool) (g : Generator) : res (bool * Generator) :=
  let write := bool_decide (requestType request = DATA_WRITE) in
  let CAS := if write then WR else RD in
  let A := if write then ACT_W else ACT_R in
  size ← udiv (requestSize request) (dataBusSize g);
  g ← open_row (bank request) open [packet PRE 0 0 request] [packet A 0 0 request] g;
  mret (true, push ((λ x, packet CAS (u32 (col request + size)) (data request) request)
                      <$> urange size) g).
End Round.

(** ** MCMC: posted accesses interleaved over up to four banks *)
Module MCMC.
Definition ctor (dataBus : Z) : Generator :=
  set_lookupTable
    (<[u32 (dataBus * 4) := (4, 1)]> (<[u32 (dataBus * 2) := (2, 1)]>
      (<[dataBus := (1, 1)]> ∅)))
    (CommandGenerator_ctor dataBus).

Definition act (i : Z) (r : Request) : BusPacket :=
  new_BusPacket ACT (requestorID r) (address r) (col r) (row r) (u32 (bank r + i)) (rank r) 0 0 0.
Definition cas (CAS : BusPacketType) (i : Z) (r : Request) : BusPacket :=
  set_post (new_BusPacket CAS (requestorID r) (address r) (col r) (row r) (u32 (bank r + i))
              (rank r) 0 (data r) 0).

(** The cases of the [switch]; any other size aborts. *)
Definition interleaved (CAS : BusPacketType) (interleave : Z) (r : Request) : res (list BusPacket) :=
  if bool_decide (interleave = 1) then Ok [act 0 r; cas CAS 0 r]
  else if bool_decide (interleave = 2) then
    Ok [act 0 r; act 1 r; cas CAS 0 r; cas CAS 1 r]
  else if bool_decide (interleave = 4) then
    Ok [act 0 r; act 1 r; cas CAS 0 r; act 2 r; cas CAS 1 r; act 3 r; cas CAS 2 r; cas CAS 3 r]
  else Err Abort.

Definition commandGenerate (request : Request) (open : bool) (g : Generator) : res (bool * Generator) :=
  let CAS := if bool_decide (requestType request = DATA_WRITE) then WRA else RDA in
  let r := request in
  size ← udiv (requestSize request) (dataBusSize g);
  if bool_decide (size ≤ 4) then
    cs ← interleaved CAS size r; mret (true, push cs g)
  else Err Abort.
End MCMC.

(** ** PipeCAS: close page for critical requestors, open page for the others *)
Module PipeCAS.
Definition ctor : Z → Generator := Close.ctor.

Definition packet (t : BusPacketType) (d : Z) (r : Request) : BusPacket :=
  new_BusPacket t (requestorID r) (address r) (col r) (row r) (bank r) (rank r) 0 d 0.

(** Auto-precharge for a critical requestor. *)
Definition cas_type (write crit : bool) : BusPacketType :=
  if write then (if crit then WRA else WR) else (if crit then RDA else RD).

Definition commandGenerate (requestorCriticalTable : gmap Z bool)
    (request : Request) (open : bool) (g : Generator) : res (bool * Generator) :=
  crit ← of_option OutOfRange (requestorCriticalTable !! requestorID request);
  let CAS := cas_type (bool_decide (requestType request = DATA_WRITE)) crit in
  if crit then
    mret (true, push [packet ACT 0 request; packet CAS (data request) request] g)
  else
    mret (true, push ((if open then [] else [packet PRE 0 request; packet ACT 0 request])
                        ++ [packet CAS (data request) request]) g).
End PipeCAS.

(** ** The interface *)

(** A command of request [r]: it carries its requestor and address, it is a
    precharge, an activate or a column access, and reads for a read request. *)
Definition belongs (r : Request) (c : BusPacket) : Prop :=
  bp_requestorID c = requestorID r ∧ bp_address c = address r ∧
  (busPacketType c = PRE ∨ is_ACT (busPacketType c) = true ∨
   (is_CAS (busPacketType c) = true ∧
    (is_read (busPacketType c) = true ↔ requestType r = DATA_READ))).

#[export] Instance belongs_dec r c : Decision (belongs r c).
Proof. unfold belongs. apply _. Defined.

Class CommandGenerator := {
  commandGenerate : Request → bool → Generator → res (bool * Generator);
  commandGenerate_appends r open g b g' :
    commandGenerate r open g = Ok (b, g') →
    b = true ∧ ∃ cs, commandBuffer g' = commandBuffer g ++ cs ∧ Forall (belongs r) cs;
}.

(** The number of data transfers a list of commands makes. *)
Definition n_CAS (cs : list BusPacket) : nat :=
  length (filter (λ c, is_CAS (busPacketType c) = true) cs).

Lemma n_CAS_app cs ds : n_CAS (cs ++ ds) = (n_CAS cs + n_CAS ds)%nat.
Proof. unfold n_CAS. by rewrite filter_app, length_app. Qed.

Lemma n_CAS_bind {A} (l : list A) (f : A → list BusPacket) n :
  (∀ x, x ∈ l → n_CAS (f x) = n) → n_CAS (l ≫= f) = (length l * n)%nat.
Proof.
  induction l as [|x l IH]; intros H; [done|].
  rewrite bind_cons, n_CAS_app, H, IH; [done|set_solver|set_solver].
Qed.

Lemma n_CAS_all {A} (l : list A) (f : A → BusPacket) :
  (∀ x, is_CAS (busPacketType (f x)) = true) → n_CAS (f <$> l) = length l.
Proof.
  intros H. unfold n_CAS. induction l as [|x l IH]; [done|]. rewrite fmap_cons.
  rewrite filter_cons_True by apply H. simpl. by rewrite IH.
Qed.

Lemma length_urange n : length (urange n) = Z.to_nat n.
Proof. unfold urange. by rewrite length_fmap, length_seq. Qed.

(** ** The row automaton

    The specification of a legal command stream of one channel: a map gives the
    open row of every open bank (by rank and bank). *)
Abbreviation rows := (gmap (Z * Z) Z).

Definition bank_of (c : BusPacket) : Z * Z := (bp_rank c, bp_bank c).

Definition row_step (s : rows) (c : BusPacket) : option rows :=
  match busPacketType c with
  | PRE => Some (delete (bank_of c) s)
  | ACT | ACT_R | ACT_W =>
      if decide (s !! bank_of c = None) then Some (<[bank_of c := bp_row c]> s) else None
  | RD | WR => if decide (s !! bank_of c = Some (bp_row c)) then Some s else None
  | RDA | WRA =>
      if decide (s !! bank_of c = Some (bp_row c)) then Some (delete (bank_of c) s) else None
  | _ => None
  end.

Fixpoint row_run (s : rows) (cs : list BusPacket) : option rows :=
  match cs with
  | [] => Some s
  | c :: cs => s' ← row_step s c; row_run s' cs
  end.

Lemma row_step_PRE s c : busPacketType c = PRE → row_step s c = Some (delete (bank_of c) s).
Proof. unfold row_step. by intros ->. Qed.

Lemma row_step_ACT s c :
  is_ACT (busPacketType c) = true → s !! bank_of c = None →
  row_step s c = Some (<[bank_of c := bp_row c]> s).
Proof. unfold row_step. intros Ha Hs. by destruct (busPacketType c); rewrite ?decide_True. Qed.

Lemma row_step_CASA s c :
  busPacketType c = RDA ∨ busPacketType c = WRA → s !! bank_of c = Some (bp_row c) →
  row_step s c = Some (delete (bank_of c) s).
Proof. unfold row_step. intros [-> | ->] Hs; by rewrite decide_True. Qed.

Lemma row_run_app s cs ds : row_run s (cs ++ ds) = row_run s cs ≫= λ s', row_run s' ds.
Proof.
  revert s. induction cs as [|c cs IH]; intros s; simpl; [done|].
  destruct (row_step s c); simpl; [apply IH|done].
Qed.

(** Blocks that each lead back to the same state lead back to it together. *)
Lemma row_run_bind {A} (l : list A) (f : A → list BusPacket) s :
  (∀ x, x ∈ l → row_run s (f x) = Some s) → row_run s (l ≫= f) = Some s.
Proof.
  induction l as [|x l IH]; intros H; [done|].
  rewrite bind_cons, row_run_app, H by set_solver. simpl. apply IH. set_solver.
Qed.

(** Accesses to the open row. *)
Lemma row_run_accesses s cs :
  Forall (λ c, (busPacketType c = RD ∨ busPacketType c = WR) ∧
               s !! bank_of c = Some (bp_row c)) cs →
  row_run s cs = Some s.
Proof.
  induction 1 as [|c cs [Ht Hr] _ IH]; simpl; [done|].
  unfold row_step. destruct Ht as [-> | ->]; rewrite decide_True by done; apply IH.
Qed.

(** ** The generators implement the interface *)
Lemma push_buffer cs g : commandBuffer (push cs g) = commandBuffer g ++ cs.
Proof. done. Qed.

Lemma clear_first_buffer bk g g' :
  clear_first bk g = Ok g' → commandBuffer g' = commandBuffer g.
Proof. intros H. apply bind_Ok in H as (l & _ & H). by injection H as <-. Qed.

Lemma open_row_buffer bk open pre act g g' (P : BusPacket → Prop) :
  Forall P pre → Forall P act →
  open_row bk open pre act g = Ok g' →
  ∃ cs, commandBuffer g' = commandBuffer g ++ cs ∧ Forall P cs.
Proof.
  intros Hp Ha H. unfold open_row in H. destruct open.
  { simplify_res. exists []. by rewrite app_nil_r. }
  apply bind_Ok in H as ([] & _ & H).
  - exists act. by rewrite (clear_first_buffer _ _ _ H).
  - simplify_res. exists (pre ++ act). split; [done|]. by apply Forall_app.
Qed.

(** A packet of a generator belongs to its request. *)
Ltac belongs_tac :=
  match goal with |- belongs ?r _ =>
    split; [reflexivity|split; [reflexivity|]];
    cbn; destruct (requestType r) eqn:?;
    first [ congruence | left; reflexivity | right; left; reflexivity
          | right; right; split; [reflexivity|split; (reflexivity || discriminate)] ]
  end.

Lemma open_like_appends bk open pre act (size : res Z) (f : Z → list BusPacket) g b g'
    (P : BusPacket → Prop) :
  Forall P pre → Forall P act → (∀ n, Forall P (f n)) →
  (n ← size; g1 ← open_row bk open pre act g; mret (true, push (f n) g1)) = Ok (b, g') →
  b = true ∧ ∃ cs, commandBuffer g' = commandBuffer g ++ cs ∧ Forall P cs.
Proof.
  intros Hp Ha Hf H. apply bind_Ok in H as (n & _ & H).
  apply bind_Ok in H as (g1 & H1 & H). injection H as <- <-. split; [done|].
  destruct (open_row_buffer _ _ _ _ _ _ P Hp Ha H1) as (cs & E & Hcs).
  exists (cs ++ f n). rewrite push_buffer, E, app_assoc. split; [done|]. by apply Forall_app.
Qed.

Lemma Forall_fmap_all {A} (P : BusPacket → Prop) (f : A → BusPacket) l :
  (∀ x, P (f x)) → Forall P (f <$> l).
Proof. intros H. apply Forall_fmap, Forall_true. done. Qed.

#[export] Program Instance Open_generator : CommandGenerator :=
  {| commandGenerate := Open.commandGenerate |}.
Next Obligation.
  intros r open g b g' H. eapply open_like_appends in H; [exact H| | |].
  - apply Forall_singleton. belongs_tac.
  - apply Forall_singleton. belongs_tac.
  - intros n. apply Forall_fmap_all. intros x. belongs_tac.
Qed.

#[export] Program Instance Round_generator : CommandGenerator :=
  {| commandGenerate := Round.commandGenerate |}.
Next Obligation.
  intros r open g b g' H. eapply open_like_appends in H; [exact H| | |].
  - apply Forall_singleton. belongs_tac.
  - apply Forall_singleton. belongs_tac.
  - intros n. apply Forall_fmap_all. intros x. belongs_tac.
Qed.

#[export] Program Instance Close_generator : CommandGenerator :=
  {| commandGenerate := Close.commandGenerate |}.
Next Obligation.
  intros r open g b g' H. unfold Close.commandGenerate in H.
  destruct (lookup_size g (requestSize r)) as [bis bcs]. injection H as <- <-.
  split; [done|]. eexists. split; [apply push_buffer|].
  apply Forall_forall. intros c (bi & (bc & Hc & _)%list_elem_of_bind & _)%list_elem_of_bind.
  unfold Close.pair in Hc. rewrite elem_of_cons, list_elem_of_singleton in Hc.
  destruct Hc as [-> | ->]; belongs_tac.
Qed.

#[export] Program Instance MCMC_generator : CommandGenerator :=
  {| commandGenerate := MCMC.commandGenerate |}.
Next Obligation.
  intros r open g b g' H. unfold MCMC.commandGenerate in H.
  apply bind_Ok in H as (size & _ & H). case_bool_decide; [|done].
  apply bind_Ok in H as (cs & Hcs & H). injection H as <- <-.
  split; [done|]. exists cs. split; [apply push_buffer|].
  unfold MCMC.interleaved in Hcs.
  repeat case_bool_decide; simplify_eq; (repeat (apply Forall_cons; split; [belongs_tac|])); apply Forall_nil_2.
Qed.

#[export] Program Instance PipeCAS_generator (crit : gmap Z bool) : CommandGenerator :=
  {| commandGenerate := PipeCAS.commandGenerate crit |}.
Next Obligation.
  intros crit r open g b g' H. unfold PipeCAS.commandGenerate in H.
  apply bind_Ok in H as (c & _ & H).
  destruct c; [|destruct open]; injection H as <- <-; (split; [done|]); eexists; (split; [apply push_buffer|]);
    (repeat (apply Forall_cons; split; [belongs_tac|])); apply Forall_nil_2.
Qed.

(** ** Legality and length of the generated streams *)

(** The generator's [first] flags under-approximate the open banks: a bank whose
    flag is still set is closed in every rank. *)
Definition first_ok (s : rows) (g : Generator) : Prop :=
  ∀ rk bk, gen_first g !! Z.to_nat bk = Some true → 0 ≤ bk → s !! (rk, bk) = None.

(** What the open-page generators need of the state they start in: all flags
    exist, the bank is one of them, and [open] tells the truth. *)
Record open_pre (r : Request) (k : Z * Z) (open : bool) (s : rows) (g : Generator) : Prop := {
  op_bus : 0 < dataBusSize g;
  op_len : length (gen_first g) = 8%nat;
  op_bank : 0 ≤ k.2 < 8;
  op_first : first_ok s g;
  op_open : open = true → s !! k = Some (row r);
}.

Lemma udiv_pos a b : 0 < b → udiv a b = Ok (a / b).
Proof. intros. unfold udiv. by rewrite bool_decide_false by lia. Qed.

Lemma open_row_legal r k bk open s g p a :
  open_pre r k open s g → bk = k.2 →
  busPacketType p = PRE → is_ACT (busPacketType a) = true →
  bank_of p = k → bank_of a = k → bp_row a = row r →
  ∃ cs g', open_row bk open [p] [a] g = Ok g' ∧ commandBuffer g' = commandBuffer g ++ cs ∧
    n_CAS cs = 0%nat ∧ dataBusSize g' = dataBusSize g ∧ length (gen_first g') = 8%nat ∧
    ∃ s', row_run s cs = Some s' ∧ s' !! k = Some (row r) ∧ first_ok s' g'.
Proof.
  intros [Hbus Hlen Hbk Hfirst Hopen] -> Hp Ha Hkp Hka Hrow. unfold open_row.
  assert (∀ s0, s0 !! k = None → row_step s0 a = Some (<[k := row r]> s0)) as Hact.
  { intros s0 Hs0. rewrite row_step_ACT by (rewrite ?Hka; done). by rewrite Hka, Hrow. }
  assert (is_CAS (busPacketType a) = false) as HaC by (by destruct (busPacketType a)).
  destruct open.
  { exists [], g. rewrite app_nil_r. split_and!; [done..|]. exists s. split_and!; [done|by apply Hopen|done]. }
  destruct (lookup_lt_is_Some_2 (gen_first g) (Z.to_nat k.2)) as [f Hf]; [lia|].
  unfold first_of, vec_at. rewrite Hf. simpl. destruct f.
  - exists [a]. unfold clear_first, vec_set. simpl.
    rewrite decide_True by lia. simpl. eexists. split; [done|].
    split; [done|]. split; [by unfold n_CAS; rewrite filter_cons_False by congruence|].
    split; [done|]. split; [simpl; by rewrite length_insert|]. simpl.
    rewrite Hact by (rewrite (surjective_pairing k); apply Hfirst; [done|lia]). simpl.
    eexists. split; [done|]. split; [by rewrite lookup_insert_eq|].
    intros rk bk. simpl. intros Hb Hb0. destruct (decide (bk = k.2)) as [->|Hne].
    + rewrite list_lookup_insert_eq in Hb by lia. done.
    + rewrite list_lookup_insert_ne in Hb by lia.
      rewrite lookup_insert_ne; [by apply Hfirst|intros ->; by apply Hne].
  - exists [p; a]. eexists. split; [done|]. split; [done|].
    split; [unfold n_CAS; rewrite filter_cons_False by (rewrite Hp; done); by rewrite filter_cons_False by congruence|].
    split; [done|]. split; [done|]. simpl. rewrite (row_step_PRE s p Hp), Hkp. simpl.
    rewrite Hact by by rewrite lookup_delete_eq. simpl.
    eexists. split; [done|]. split; [by rewrite lookup_insert_eq|].
    intros rk bk Hb Hb0. destruct (decide ((rk, bk) = k)) as [E|Hne].
    + rewrite <- E in Hf. cbn in Hb, Hf. congruence.
    + rewrite lookup_insert_ne, lookup_delete_ne by done. by apply Hfirst.
Qed.

(** The accesses of an open-page generator after its row was opened. *)
Lemma accesses_legal k rw s (f : Z → BusPacket) n :
  (∀ x, (busPacketType (f x) = RD ∨ busPacketType (f x) = WR) ∧ bank_of (f x) = k ∧
        bp_row (f x) = rw) →
  s !! k = Some rw →
  row_run s (f <$> urange n) = Some s ∧ n_CAS (f <$> urange n) = Z.to_nat n.
Proof.
  intros Hf Hs. split.
  - apply row_run_accesses, Forall_fmap_all. intros x. destruct (Hf x) as (? & -> & ->). done.
  - rewrite n_CAS_all, length_urange; [done|]. intros x. by destruct (Hf x) as ([-> | ->] & _).
Qed.

(** Other banks keep their rows. *)
Lemma row_run_other k k' s cs s' :
  k' ≠ k → Forall (λ c, bank_of c = k) cs → row_run s cs = Some s' → s' !! k' = s !! k'.
Proof.
  intros Hne Hcs. revert s. induction Hcs as [|c cs Hc _ IH]; intros s Hr; [by injection Hr as <-|].
  simpl in Hr. destruct (row_step s c) as [s1|] eqn:Hs; [|done]. simpl in Hr. rewrite (IH _ Hr). clear IH Hr.
  unfold row_step in Hs. rewrite Hc in Hs.
  destruct (busPacketType c); try done; repeat case_decide; simplify_eq; try done;
    by rewrite ?lookup_insert_ne, ?lookup_delete_ne by done.
Qed.

Lemma Open_legal r open s g :
  open_pre r (rank r, bank r) open s g →
  ∃ cs g' s', Open.commandGenerate r open g = Ok (true, g') ∧
    commandBuffer g' = commandBuffer g ++ cs ∧
    row_run s cs = Some s' ∧ s' !! (rank r, bank r) = Some (row r) ∧ first_ok s' g' ∧
    n_CAS cs = Z.to_nat (requestSize r / dataBusSize g) ∧
    dataBusSize g' = dataBusSize g ∧ length (gen_first g') = 8%nat ∧
    ∀ k, k ≠ (rank r, bank r) → s' !! k = s !! k.
Proof.
  intros Hpre. destruct (Open.commandGenerate r open g) as [[b g1]|e] eqn:Hgen.
  2: { exfalso. unfold Open.commandGenerate in Hgen. rewrite udiv_pos in Hgen by apply Hpre. cbn -[open_row] in Hgen.
    destruct (open_row_legal r (rank r, bank r) (bank r) open s g
      (Open.packet PRE (col r) 0 r) (Open.packet ACT (col r) 0 r) Hpre eq_refl eq_refl eq_refl eq_refl eq_refl eq_refl)
      as (cs & g' & E & _). by rewrite E in Hgen. }
  assert (∃ cs, commandBuffer g1 = commandBuffer g ++ cs ∧ Forall (λ c, bank_of c = (rank r, bank r)) cs) as (cs0 & E0 & Hbank).
  { unfold Open.commandGenerate in Hgen. eapply open_like_appends in Hgen as [_ Hg]; [exact Hg|..].
    - by apply Forall_singleton.
    - by apply Forall_singleton.
    - intros n. by apply Forall_fmap_all. }
  revert Hgen. unfold Open.commandGenerate. rewrite udiv_pos by apply Hpre. cbn -[open_row row_run].
  destruct (open_row_legal r (rank r, bank r) (bank r) open s g
    (Open.packet PRE (col r) 0 r) (Open.packet ACT (col r) 0 r) Hpre eq_refl eq_refl eq_refl eq_refl eq_refl eq_refl)
    as (cs & g' & -> & Hbuf & Hcas & Hbus & Hlen & s' & Hrun & Hrow & Hf).
  cbn -[row_run]. intros [= <- <-]. edestruct (accesses_legal (rank r, bank r) (row r) s') as [Ha Hn]; [|done|].
  2: { assert (row_run s (cs ++ ((λ x, Open.packet (if bool_decide (requestType r = DATA_WRITE) then WR else RD)
          (u32 (col r + x)) (data r) r) <$> urange (requestSize r / dataBusSize g))) = Some s') as Hall
         by (rewrite row_run_app, Hrun; exact Ha).
       eexists (cs ++ _), _, s'. split; [done|]. split; [by rewrite push_buffer, Hbuf, app_assoc|].
       split; [exact Hall|]. split; [done|]. split; [exact Hf|].
       split; [rewrite n_CAS_app, Hcas; exact Hn|]. split; [exact Hbus|]. split; [exact Hlen|].
       intros k Hk. eapply row_run_other; [exact Hk| |exact Hall].
       rewrite push_buffer, Hbuf, <- app_assoc in E0. apply app_inv_head in E0. by rewrite E0. }
  intros x. split; [|done]. simpl. case_bool_decide; auto.
Qed.

(** C30. [CommandGenerator_Open]: from a state of the banks that agrees with
    [first] and with the caller's [open], the generated commands are a legal
    stream, leave the request's row open, keep [first] correct, and make
    [requestSize / dataBusSize] transfers. *)
Theorem Open_commandGenerate_legal r open s g :
  open_pre r (rank r, bank r) open s g →
  ∃ cs g' s', Open.commandGenerate r open g = Ok (true, g') ∧
    commandBuffer g' = commandBuffer g ++ cs ∧
    row_run s cs = Some s' ∧ s' !! (rank r, bank r) = Some (row r) ∧ first_ok s' g' ∧
    n_CAS cs = Z.to_nat (requestSize r / dataBusSize g).
Proof. intros Hpre. destruct (Open_legal r open s g Hpre) as (cs & g' & s' & ? & ? & ? & ? & ? & ? & _). by exists cs, g', s'. Qed.

(** [CommandGenerator_Round], with its separate activates for reads and
    writes, on rank 0: the same promise, but every access of the request goes to
    the same column [col + size]. *)
Theorem Round_commandGenerate_legal r open s g :
  open_pre r (0, bank r) open s g →
  ∃ cs g' s', Round.commandGenerate r open g = Ok (true, g') ∧
    commandBuffer g' = commandBuffer g ++ cs ∧
    row_run s cs = Some s' ∧ s' !! (0, bank r) = Some (row r) ∧ first_ok s' g' ∧
    n_CAS cs = Z.to_nat (requestSize r / dataBusSize g) ∧
    Forall (λ c, is_CAS (busPacketType c) = true →
                 bp_column c = u32 (col r + requestSize r / dataBusSize g)) cs.
Proof.
  intros Hpre. unfold Round.commandGenerate. rewrite udiv_pos by apply Hpre. cbn -[open_row row_run].
  set (A := if bool_decide (requestType r = DATA_WRITE) then ACT_W else ACT_R).
  destruct (open_row_legal r (0, bank r) (bank r) open s g
    (Round.packet PRE 0 0 r) (Round.packet A 0 0 r) Hpre eq_refl eq_refl
    ltac:(unfold A; by case_bool_decide) eq_refl eq_refl eq_refl)
    as (cs & g' & -> & Hbuf & Hcas & _ & _ & s' & Hrun & Hrow & Hf).
  edestruct (accesses_legal (0, bank r) (row r) s') as [Ha Hn]; [|done|].
  2: { eexists (cs ++ _), _, s'. split; [done|]. split; [by rewrite push_buffer, Hbuf, app_assoc|].
       split; [rewrite row_run_app, Hrun; exact Ha|]. split; [done|]. split; [exact Hf|].
       split; [rewrite n_CAS_app, Hcas; exact Hn|].
       apply Forall_app. split; [|by apply Forall_fmap_all].
       apply Forall_forall. intros c Hc Ht. exfalso. unfold n_CAS in Hcas.
       apply length_zero_iff_nil in Hcas. apply (not_elem_of_nil c). rewrite <- Hcas.
       by apply list_elem_of_filter. }
  intros x. split; [|done]. simpl. case_bool_decide; auto.
Qed.

(** An activate followed by an access with auto-precharge to the same row of a
    closed bank leads back to the same state. *)
Lemma act_cas_legal s a c :
  busPacketType a = ACT → busPacketType c = RDA ∨ busPacketType c = WRA →
  bank_of c = bank_of a → bp_row c = bp_row a → s !! bank_of a = None →
  row_run s [a; c] = Some s.
Proof.
  intros Ha Hc Hb Hr Hs. simpl. rewrite row_step_ACT by (rewrite ?Ha; done). simpl.
  rewrite row_step_CASA; [|done|by rewrite Hb, Hr, lookup_insert_eq]. simpl.
  by rewrite Hb, delete_insert_id.
Qed.

(** [CommandGenerator_Close]: for a request of 1, 2, 4, 8 or 16 bus
    transfers whose rank has all its banks closed, the generated commands are a
    legal stream that leaves all of them closed and makes exactly the request's
    transfers; for any other size nothing is generated, and [true] is returned. *)
Theorem Close_commandGenerate_legal r open s g dataBus n :
  g = push (commandBuffer g) (Close.ctor dataBus) →
  0 < dataBus → dataBus * 16 < 2 ^ 32 → requestSize r = n * dataBus →
  (∀ bk, s !! (rank r, bk) = None) →
  ∃ cs g', Close.commandGenerate r open g = Ok (true, g') ∧
    commandBuffer g' = commandBuffer g ++ cs ∧
    row_run s cs = Some s ∧
    n_CAS cs = if decide (n ∈ [1; 2; 4; 8; 16]) then Z.to_nat n else 0%nat.
Proof.
  intros Hg Hd Hd16 Hn Hs.
  unfold Close.commandGenerate. destruct (lookup_size g (requestSize r)) as [bis bcs] eqn:Hl.
  eexists _, _. split; [done|]. split; [apply push_buffer|]. split.
  - apply row_run_bind. intros bi _. apply row_run_bind. intros bc _.
    apply act_cas_legal; [done| |done..|apply Hs]. simpl. case_bool_decide; auto.
  - assert ((Z.to_nat bis * (Z.to_nat bcs * 1))%nat =
      if decide (n ∈ [1; 2; 4; 8; 16]) then Z.to_nat n else 0%nat) as <-.
    { unfold lookup_size in Hl. rewrite Hg in Hl. simpl in Hl. rewrite Hn in Hl.
      rewrite !u32_small in Hl by lia.
      rewrite !lookup_insert, lookup_empty in Hl.
      repeat (match type of Hl with context [decide (?a = ?b)] => destruct (decide (a = b)) end; [assert (n = 1 ∨ n = 2 ∨ n = 4 ∨ n = 8 ∨ n = 16) as Hcase by nia;
        simpl in Hl; simplify_eq; rewrite decide_True by set_solver; nia|]).
      rewrite decide_False by (rewrite !elem_of_cons, elem_of_nil; nia).
      simpl in Hl. by simplify_eq. }
    rewrite (n_CAS_bind _ _ (Z.to_nat bcs * 1)%nat); [by rewrite length_urange|].
    intros bi _. rewrite (n_CAS_bind _ _ 1%nat); [by rewrite length_urange|].
    intros bc _. by case_bool_decide.
Qed.

(** Solves the lookup of one key in a map of inserts and deletes. *)
Ltac lookup_tac :=
  repeat rewrite ?lookup_delete, ?lookup_insert; repeat case_decide; congruence.

Lemma interleaved_sizes r CAS n :
  (∃ cs, MCMC.interleaved CAS n r = Ok cs) ∨ MCMC.interleaved CAS n r = Err Abort ∧ n ∉ [1; 2; 4].
Proof.
  unfold MCMC.interleaved. repeat case_bool_decide; eauto.
  right. rewrite !elem_of_cons, elem_of_nil. intuition.
Qed.

Section interleaved.
Context (r : Request) (s : rows) (CAS : BusPacketType).
Hypothesis bank_small : 0 ≤ bank r ∧ bank r + 3 < 2 ^ 32.
Hypothesis CAS_auto : CAS = RDA ∨ CAS = WRA.
Hypothesis closed : ∀ i, 0 ≤ i ≤ 3 → s !! (rank r, bank r + i) = None.

Let k (i : Z) : Z * Z := (rank r, bank r + i).

Lemma act_step s0 i cs : 0 ≤ i ≤ 3 → s0 !! k i = None →
  row_run s0 (MCMC.act i r :: cs) = row_run (<[k i := row r]> s0) cs.
Proof.
  intros Hi Hs0. assert (bank_of (MCMC.act i r) = k i) as Hk
    by (unfold bank_of, k; simpl; by rewrite u32_small by lia).
  cbn [row_run]. rewrite row_step_ACT; [by rewrite Hk|done|by rewrite Hk].
Qed.

Lemma cas_step s0 i cs : 0 ≤ i ≤ 3 → s0 !! k i = Some (row r) →
  row_run s0 (MCMC.cas CAS i r :: cs) = row_run (delete (k i) s0) cs.
Proof.
  intros Hi Hs0. assert (bank_of (MCMC.cas CAS i r) = k i) as Hk
    by (unfold bank_of, k; simpl; by rewrite u32_small by lia).
  cbn [row_run]. rewrite row_step_CASA; [by rewrite Hk|done|by rewrite Hk].
Qed.

Lemma interleaved_legal n cs :
  MCMC.interleaved CAS n r = Ok cs →
  row_run s cs = Some s ∧ n_CAS cs = Z.to_nat n ∧
  Forall (λ c, postCommand c = is_CAS (busPacketType c)) cs.
Proof.
  assert (∀ i j, i ≠ j → k i ≠ k j) as Hne by (intros i j ? [=]; lia).
  pose proof (Hne 0 1 ltac:(done)). pose proof (Hne 0 2 ltac:(done)).
  pose proof (Hne 0 3 ltac:(done)). pose proof (Hne 1 2 ltac:(done)).
  pose proof (Hne 1 3 ltac:(done)). pose proof (Hne 2 3 ltac:(done)).
  pose proof (closed 0 ltac:(lia)). pose proof (closed 1 ltac:(lia)).
  pose proof (closed 2 ltac:(lia)). pose proof (closed 3 ltac:(lia)).
  fold (k 0) (k 1) (k 2) (k 3) in *.
  intros Hcs. unfold MCMC.interleaved in Hcs. repeat case_bool_decide; simplify_eq.
  all: split; [|split; [by destruct CAS_auto as [-> | ->]
                       |by destruct CAS_auto as [-> | ->]; repeat constructor]].
  all: repeat first [rewrite act_step by (lia || lookup_tac) | rewrite cas_step by (lia || lookup_tac)].
  all: cbn [row_run]; f_equal; apply map_eq; intros j; lookup_tac.
Qed.
End interleaved.

(** [CommandGenerator_MCMC]: a request of one, two or four bus transfers
    whose banks [bank .. bank + 3] are closed becomes a legal interleaved stream
    of posted accesses that closes every bank again and makes exactly the
    request's transfers; every other size aborts. *)
Theorem MCMC_commandGenerate_legal r open s g :
  0 < dataBusSize g → 0 ≤ bank r ∧ bank r + 3 < 2 ^ 32 →
  (∀ i, 0 ≤ i ≤ 3 → s !! (rank r, bank r + i) = None) →
  let size := requestSize r / dataBusSize g in
  if decide (size ∈ [1; 2; 4]) then
    ∃ cs g', MCMC.commandGenerate r open g = Ok (true, g') ∧
      commandBuffer g' = commandBuffer g ++ cs ∧
      row_run s cs = Some s ∧ n_CAS cs = Z.to_nat size ∧
      Forall (λ c, postCommand c = is_CAS (busPacketType c)) cs
  else MCMC.commandGenerate r open g = Err Abort.
Proof.
  intros Hd Hb Hs size. unfold MCMC.commandGenerate. rewrite udiv_pos by done.
  cbn -[row_run MCMC.interleaved]. fold size.
  set (CAS := if bool_decide (requestType r = DATA_WRITE) then WRA else RDA).
  assert (CAS = RDA ∨ CAS = WRA) as HC by (unfold CAS; case_bool_decide; auto).
  destruct (interleaved_sizes r CAS size) as [[cs Hcs]|[-> Hno]].
  - destruct (interleaved_legal r s CAS Hb HC Hs size cs Hcs) as (? & ? & ?).
    rewrite Hcs. unfold MCMC.interleaved in Hcs.
    rewrite decide_True, bool_decide_true
      by (rewrite ?elem_of_cons, ?elem_of_nil; repeat case_bool_decide; try done; lia).
    exists cs, (push cs g). by split_and!.
  - rewrite decide_False by done. by case_bool_decide.
Qed.

(** ** Witnesses *)
Definition wit_request (t : RequestType) (size bk rw cl : Z) : Request :=
  {| requestType := t; requestorID := 1; requestSize := size; address := 4096; data := 7;
     arriveTime := 0; returnTime := 0; rank := 0; bankGroup := 0; bank := bk; subArray := 0;
     row := rw; col := cl; addressMap := [0; 0; bk; 0] |}.

(** Bank 2 was used and has row 5 open; the other flags are still set. *)
Definition wit_rows : rows := {[ (0, 2) := 5 ]}.
Definition wit_gen : Generator := set_first (<[2%nat := false]> (replicate 8 true)) (CommandGenerator_ctor 64).

Lemma wit_open_pre (open : bool) :
  open_pre (wit_request DATA_READ 128 2 (if open then 5 else 9) 3) (0, 2) open wit_rows wit_gen.
Proof.
  split; simpl; [lia|done|lia| |by intros ->].
  intros rk bk Hf Hbk. unfold wit_rows. apply lookup_singleton_ne.
  intros [= <- <-]. vm_compute in Hf. discriminate.
Qed.

Lemma Open_commandGenerate_legal_witness :
  ∃ cs g' s', Open.commandGenerate (wit_request DATA_READ 128 2 9 3) false wit_gen = Ok (true, g') ∧
    commandBuffer g' = [] ++ cs ∧
    row_run wit_rows cs = Some s' ∧ s' !! (0, 2) = Some 9 ∧ first_ok s' g' ∧ n_CAS cs = 2%nat.
Proof. exact (Open_commandGenerate_legal _ false _ _ (wit_open_pre false)). Defined.

Lemma Round_commandGenerate_legal_witness :
  ∃ cs g' s', Round.commandGenerate (wit_request DATA_READ 128 2 9 3) false wit_gen = Ok (true, g') ∧
    commandBuffer g' = [] ++ cs ∧
    row_run wit_rows cs = Some s' ∧ s' !! (0, 2) = Some 9 ∧ first_ok s' g' ∧ n_CAS cs = 2%nat ∧
    Forall (λ c, is_CAS (busPacketType c) = true → bp_column c = 5) cs.
Proof. exact (Round_commandGenerate_legal _ false _ _ (wit_open_pre false)). Defined.

Lemma Close_commandGenerate_legal_witness :
  ∃ cs g', Close.commandGenerate (wit_request DATA_WRITE 256 14 9 3) false (Close.ctor 64) = Ok (true, g') ∧
    commandBuffer g' = [] ++ cs ∧ row_run ∅ cs = Some ∅ ∧ n_CAS cs = 4%nat.
Proof.
  exact (Close_commandGenerate_legal (wit_request DATA_WRITE 256 14 9 3) false ∅ (Close.ctor 64) 64 4
    eq_refl ltac:(lia) ltac:(lia) eq_refl (λ bk, lookup_empty _)).
Defined.

Lemma MCMC_commandGenerate_legal_witness :
  ∃ cs g', MCMC.commandGenerate (wit_request DATA_READ 256 4 9 3) false (MCMC.ctor 64) = Ok (true, g') ∧
    commandBuffer g' = [] ++ cs ∧ row_run ∅ cs = Some ∅ ∧ n_CAS cs = 4%nat ∧
    Forall (λ c, postCommand c = is_CAS (busPacketType c)) cs.
Proof.
  exact (MCMC_commandGenerate_legal (wit_request DATA_READ 256 4 9 3) false ∅ (MCMC.ctor 64)
    ltac:(simpl; lia) ltac:(simpl; lia) (λ i _, lookup_empty _)).
Defined.
