(* ===== verification/DRAM.v ===== *)
(** * The device tree

    The template [ramulator::DRAM<T>] (src/dram/DRAM.h): a tree of nodes (channel,
    rank, bank) that checks and records the timing of the commands sent to the
    device. The class [Standard] has the enumerations of the template parameter
    [T], the class [Spec] its tables.

    Main results: [update] never fails on a well-formed tree and keeps it well
    formed; [check] agrees with [get_next]; and the timing constraints of the
    tables hold between any two commands of a run in which every command passed
    [check] when it was issued. *)
From S2P Require Import Prelude.

Class Standard := {
  Level : Type;
  Command : Type;
  State : Type;
  Level_eq :: EqDecision Level;
  Command_eq :: EqDecision Command;
  State_eq :: EqDecision State;
  (** [int(level)], and the cast back. *)
  level_int : Level → nat;
  level_of : nat → option Level;
  level_of_int l : level_of (level_int l) = Some l;
  level_int_of n l : level_of n = Some l → level_int l = n;
  (** The named enumerators the template uses. *)
  Row_level : Level;
  Bank_level : Level;
}.

(** The statistics members of a node. *)
Record Stats := mkStats {
  cur_serving_requests : Z;
  begin_of_serving : Z;
  end_of_serving : Z;
  begin_of_cur_reqcnt : Z;
  begin_of_refreshing : Z;
  end_of_refreshing : Z;
  refresh_intervals : list (Z * Z);
  active_cycles : Z;
  refresh_cycles : Z;
  busy_cycles : Z;
  active_refresh_overlap_cycles : Z;
  serving_requests : Z;
}.

Definition Stats_init : Stats := mkStats 0 (-1) (-1) (-1) (-1) (-1) [] 0 0 0 0 0.

Section dram.
Context {ST : Standard}.

Unset Elimination Schemes.
Inductive Node := mkNode {
  level : Level;
  id : Z;
  state : State;
  row_state : gmap Z State;
  cur_clk : Z;
  next : Command → Z;
  prev : Command → list Z;
  stats : Stats;
  children : list Node;
}.
Set Elimination Schemes.

Lemma Node_ind (P : Node → Prop) :
  (∀ l i s rs c nx pv st ch, Forall P ch → P (mkNode l i s rs c nx pv st ch)) → ∀ n, P n.
Proof.
  intros HP. fix IH 1. intros [l i s rs c nx pv st ch]. apply HP.
  induction ch; constructor; [apply IH|done].
Qed.

Definition set_state (s : State) (rs : gmap Z State) (n : Node) : Node :=
  mkNode (level n) (id n) s rs (cur_clk n) (next n) (prev n) (stats n) (children n).
Definition set_id (i : Z) (n : Node) : Node :=
  mkNode (level n) i (state n) (row_state n) (cur_clk n) (next n) (prev n) (stats n) (children n).
Definition set_cur_clk (clk : Z) (n : Node) : Node :=
  mkNode (level n) (id n) (state n) (row_state n) clk (next n) (prev n) (stats n) (children n).
Definition set_next (f : Command → Z) (n : Node) : Node :=
  mkNode (level n) (id n) (state n) (row_state n) (cur_clk n) f (prev n) (stats n) (children n).
Definition set_prev (f : Command → list Z) (n : Node) : Node :=
  mkNode (level n) (id n) (state n) (row_state n) (cur_clk n) (next n) f (stats n) (children n).
Definition set_stats (s : Stats) (n : Node) : Node :=
  mkNode (level n) (id n) (state n) (row_state n) (cur_clk n) (next n) (prev n) s (children n).
Definition set_children (l : list Node) (n : Node) : Node :=
  mkNode (level n) (id n) (state n) (row_state n) (cur_clk n) (next n) (prev n) (stats n) l.

(** [a[c] = v] on an array indexed by commands. *)
Definition upd {A} (f : Command → A) (c : Command) (v : A) : Command → A :=
  λ c', if decide (c' = c) then v else f c'.

Record TimingEntry := mkEntry {
  te_cmd : Command;
  dist : Z;
  val : Z;
  sibling : bool;
}.

(** The tables of the standard. [None] in [prereq], [rowhit], [rowopen] and
    [lambda] is an empty [std::function]; a prerequisite [None] is
    [Command::MAX]. *)
Class Spec := {
  start : Level → State;
  scope : Command → Level;
  timing : Level → Command → list TimingEntry;
  lambda : Level → Command → option (Node → Z → Node);
  prereq : Level → Command → option (Node → Command → Z → res (option Command));
  rowhit : Level → Command → option (Node → Command → Z → res bool);
  rowopen : Level → Command → option (Node → Command → Z → res bool);
  count : Level → Z;
  is_opening : Command → bool;
  is_refreshing : Command → bool;
}.
Context {SP : Spec}.

(** [children[i]->f(...)]: an index outside the vector is undefined. *)
Fixpoint at_child {R} (f : Node → res R) (l : list Node) (i : nat) : res R :=
  match l, i with
  | [], _ => Err Undefined
  | c :: _, O => f c
  | _ :: l, S i => at_child f l i
  end.

Fixpoint upd_child (f : Node → res Node) (l : list Node) (i : nat) : res (list Node) :=
  match l, i with
  | [], _ => Err Undefined
  | c :: l, O => c' ← f c; Ok (c' :: l)
  | c :: l, S i => l' ← upd_child f l i; Ok (c :: l')
  end.

(** [for (auto child : children) child->f(...)]. *)
Fixpoint each_child (f : Node → res Node) (l : list Node) : res (list Node) :=
  match l with
  | [] => Ok []
  | c :: l => c' ← f c; l' ← each_child f l; Ok (c' :: l')
  end.

Definition child_index (i : Z) : res nat := if bool_decide (0 ≤ i) then Ok (Z.to_nat i) else Err Undefined.

(** [addr[k]] *)
Definition addr_at (addr : list Z) (k : nat) : res Z := vec_at addr k.

(** ** Constructor *)
Definition max_dist (ts : list TimingEntry) : Z := foldl (λ d t, Z.max d (dist t)) 0 ts.

Definition new_node (l : Level) : Node :=
  mkNode l 0 (start l) ∅ 0 (λ _, -1)
    (λ c, replicate (Z.to_nat (max_dist (timing l c))) (-1)) Stats_init [].

(** The recursion ends at the level above [Row]: [fuel] is the number of levels
    left. *)
Fixpoint DRAM_ctor (fuel : nat) (l : Level) : res Node :=
  let n := new_node l in
  let child_level := S (level_int l) in
  if bool_decide (child_level = level_int Row_level) then Ok n
  else
    match fuel, level_of child_level with
    | S fuel, Some cl =>
        let child_max := count cl in
        if bool_decide (child_max = 0) then Ok n
        else
          c ← DRAM_ctor fuel cl;
          Ok (set_children ((λ i : nat, set_id (Z.of_nat i) c) <$> seq 0 (Z.to_nat child_max)) n)
    | _, _ => Err Undefined
    end.

Definition insert (child n : Node) : Node :=
  set_children (children n ++ [set_id (Z.of_nat (length (children n))) child]) n.

(** ** Decode and checks *)
Fixpoint decode (cmd : Command) (addr : list Z) (n : Node) : res Command :=
  child_id ← addr_at addr (S (level_int (level n)));
  p ← match prereq (level n) cmd with None => Ok None | Some f => f n cmd child_id end;
  match p with
  | Some c => Ok c
  | None =>
      if bool_decide (child_id < 0) || bool_decide (children n = []) then Ok cmd
      else at_child (decode cmd addr) (children n) (Z.to_nat child_id)
  end.

Fixpoint check (cmd : Command) (addr : list Z) (clk : Z) (n : Node) : res bool :=
  if bool_decide (next n cmd ≠ -1) && bool_decide (clk < next n cmd) then Ok false
  else
    child_id ← addr_at addr (S (level_int (level n)));
    if bool_decide (child_id < 0) || bool_decide (level n = scope cmd) || bool_decide (children n = [])
    then Ok true
    else at_child (check cmd addr clk) (children n) (Z.to_nat child_id).

Fixpoint check_row_hit (cmd : Command) (addr : list Z) (n : Node) : res bool :=
  child_id ← addr_at addr (S (level_int (level n)));
  match rowhit (level n) cmd with
  | Some f => f n cmd child_id
  | None =>
      if bool_decide (child_id < 0) || bool_decide (children n = []) then Ok false
      else at_child (check_row_hit cmd addr) (children n) (Z.to_nat child_id)
  end.

Fixpoint check_row_open (cmd : Command) (addr : list Z) (n : Node) : res bool :=
  child_id ← addr_at addr (S (level_int (level n)));
  match rowopen (level n) cmd with
  | Some f => f n cmd child_id
  | None =>
      if bool_decide (child_id < 0) || bool_decide (children n = []) then Ok false
      else at_child (check_row_open cmd addr) (children n) (Z.to_nat child_id)
  end.

(** The loop of [get_next] from node [n] on, [next_clk] being the maximum so far. *)
Fixpoint get_next_loop (cmd : Command) (addr : list Z) (next_clk : Z) (n : Node) : res Z :=
  let next_clk := Z.max next_clk (next n cmd) in
  if (level_int (level n) <? level_int (scope cmd))%nat && negb (bool_decide (children n = [])) then
    child_id ← addr_at addr (S (level_int (level n)));
    if bool_decide (0 ≤ child_id)
    then at_child (get_next_loop cmd addr next_clk) (children n) (Z.to_nat child_id)
    else Ok next_clk
  else Ok next_clk.

Definition get_next (cmd : Command) (addr : list Z) (n : Node) : res Z :=
  get_next_loop cmd addr (cur_clk n) n.

(** ** Updates *)

(** [lambda] may rewrite the children it recurses into: [fuel] bounds the depth
    of the tree ([update] gives the level of rows, below every node). *)
Fixpoint update_state (fuel : nat) (cmd : Command) (addr : list Z) (n : Node) : res Node :=
  child_id ← addr_at addr (S (level_int (level n)));
  let n := match lambda (level n) cmd with Some f => f n child_id | None => n end in
  if bool_decide (level n = scope cmd) || bool_decide (children n = []) then Ok n
  else
    match fuel with
    | O => Err Undefined
    | S fuel =>
        i ← child_index child_id;
        l ← upd_child (update_state fuel cmd addr) (children n) i;
        Ok (set_children l n)
    end.

(** The loop of a node that is a sibling of the target. *)
Definition sibling_entry (clk : Z) (t : TimingEntry) (n : Node) : res Node :=
  if sibling t then
    _ ← assert_ (bool_decide (dist t = 1));
    Ok (set_next (upd (next n) (te_cmd t) (Z.max (next n (te_cmd t)) (clk + val t))) n)
  else Ok n.

(** The refresh statistics of one entry. *)
Definition refresh_stats (clk past future : Z) (s : Stats) : res Stats :=
  _ ← assert_ (bool_decide (past = clk));
  let e := Z.max (end_of_refreshing s) future in
  Ok (mkStats (cur_serving_requests s) (begin_of_serving s) (end_of_serving s)
        (begin_of_cur_reqcnt s) clk e
        (if bool_decide (0 < cur_serving_requests s) then refresh_intervals s ++ [(clk, e)]
         else refresh_intervals s)
        (active_cycles s) (refresh_cycles s + (e - clk)) (busy_cycles s)
        (active_refresh_overlap_cycles s) (serving_requests s)).

(** The loop of a target node: one entry of the table of [cmd]. *)
Definition target_entry (cmd : Command) (clk : Z) (t : TimingEntry) (n : Node) : res Node :=
  if sibling t then Ok n
  else
    i ← child_index (dist t - 1);
    past ← vec_at (prev n cmd) i;
    if bool_decide (past < 0) then Ok n
    else
      let nx := Z.max (next n (te_cmd t)) (past + val t) in
      let n := set_next (upd (next n) (te_cmd t) nx) n in
      if is_refreshing cmd && is_opening (te_cmd t) then
        s ← refresh_stats clk past nx (stats n);
        Ok (set_stats s n)
      else Ok n.

(** [prev[cmd].pop_back(); prev[cmd].push_front(clk)] when there is history. *)
Definition push_history (cmd : Command) (clk : Z) (n : Node) : Node :=
  match prev n cmd with
  | [] => n
  | l => set_prev (upd (prev n) cmd (clk :: removelast l)) n
  end.

(** What [update_timing] does at one node, before its children. *)
Definition timing_here (target : bool) (cmd : Command) (clk : Z) (n : Node) : res Node :=
  if target then foldM (timing (level n) cmd) (push_history cmd clk n) (target_entry cmd clk)
  else foldM (timing (level n) cmd) n (sibling_entry clk).

Fixpoint update_timing (cmd : Command) (addr : list Z) (clk : Z) (n : Node) : res Node :=
  a ← addr_at addr (level_int (level n));
  if bool_decide (id n ≠ a) then timing_here false cmd clk n
  else
    n' ← timing_here true cmd clk n;
    if bool_decide (children n = []) then Ok n'
    else
      l ← each_child (update_timing cmd addr clk) (children n);
      Ok (set_children l n').

Definition update (cmd : Command) (addr : list Z) (clk : Z) (n : Node) : res Node :=
  n ← update_state (level_int Row_level) cmd addr (set_cur_clk clk n);
  update_timing cmd addr clk n.

(** ** Statistics of the served requests *)

(** The members [update_serving_requests] changes at one node. The counters are
    doubles; every value is an integer below 2^53. *)
Definition serving_here (delta clk : Z) (s : Stats) : res Stats :=
  _ ← assert_ (bool_decide (delta = 1) || bool_decide (delta = -1));
  let running := bool_decide (begin_of_cur_reqcnt s ≠ -1) && bool_decide (0 < cur_serving_requests s) in
  let span := clk - begin_of_cur_reqcnt s in
  let serving := if running then serving_requests s + span * cur_serving_requests s else serving_requests s in
  let active := if running then active_cycles s + span else active_cycles s in
  let cur := cur_serving_requests s + delta in
  _ ← assert_ (bool_decide (0 ≤ cur));
  if bool_decide (delta = 1) && bool_decide (cur = 1) then
    Ok (mkStats cur clk (end_of_serving s) clk (begin_of_refreshing s) (end_of_refreshing s)
          (refresh_intervals s) active (refresh_cycles s) (busy_cycles s)
          (if bool_decide (clk < end_of_refreshing s)
           then active_refresh_overlap_cycles s + (end_of_refreshing s - clk)
           else active_refresh_overlap_cycles s)
          serving)
  else if bool_decide (cur = 0) then
    _ ← assert_ (bool_decide (begin_of_serving s ≠ -1));
    _ ← assert_ (bool_decide (delta = -1));
    (* begin_of_cur_reqcnt is clk here, so nothing is added to active_cycles *)
    Ok (mkStats cur (begin_of_serving s) clk clk (begin_of_refreshing s) (end_of_refreshing s)
          [] (active + (clk - clk)) (refresh_cycles s) (busy_cycles s)
          (foldl (λ acc ref, acc + (Z.min clk ref.2 - ref.1))
             (active_refresh_overlap_cycles s) (refresh_intervals s))
          serving)
  else
    Ok (mkStats cur (begin_of_serving s) (end_of_serving s) clk (begin_of_refreshing s)
          (end_of_refreshing s) (refresh_intervals s) active (refresh_cycles s) (busy_cycles s)
          (active_refresh_overlap_cycles s) serving).

Fixpoint update_serving_requests (addr : list Z) (delta clk : Z) (n : Node) : res Node :=
  a ← addr_at addr (level_int (level n));
  _ ← assert_ (bool_decide (id n = a));
  s ← serving_here delta clk (stats n);
  child_id ← addr_at addr (S (level_int (level n)));
  if bool_decide (child_id < 0) || bool_decide (children n = [])
     || (level_int Bank_level <? level_int (level n))%nat
  then Ok (set_stats s n)
  else
    l ← upd_child (update_serving_requests addr delta clk) (children n) (Z.to_nat child_id);
    Ok (set_children l (set_stats s n)).

(** [finish], without the average, a quotient of [serving_requests]. *)
Fixpoint finish (n : Node) : Node :=
  let s := stats n in
  mkNode (level n) (id n) (state n) (row_state n) (cur_clk n) (next n) (prev n)
    (mkStats (cur_serving_requests s) (begin_of_serving s) (end_of_serving s)
       (begin_of_cur_reqcnt s) (begin_of_refreshing s) (end_of_refreshing s)
       (refresh_intervals s) (active_cycles s) (refresh_cycles s)
       (active_cycles s + refresh_cycles s - active_refresh_overlap_cycles s)
       (active_refresh_overlap_cycles s) (serving_requests s))
    (finish <$> children n).
End dram.

(** ** Shape of the tree *)
Section tree.
Context {ST : Standard} {SP : Spec}.

(** The node at the end of a path of child indices. *)
Fixpoint node_at (n : Node) (p : list nat) : option Node :=
  match p with
  | [] => Some n
  | i :: p => match children n !! i with Some c => node_at c p | None => None end
  end.

(** Everything of a tree but the states of banks and rows. *)
Fixpoint strip (n : Node) : Node :=
  mkNode (level n) (id n) (start (level n)) ∅ (cur_clk n) (next n) (prev n) (stats n)
    (strip <$> children n).

(** What the timing of a node needs of it: its level, room for the history its
    table looks at, and children numbered from 0. *)
Record node_ok (k : nat) (n : Node) : Prop := {
  ok_level : level_int (level n) = k;
  ok_row : (k < level_int Row_level)%nat;
  ok_prev c : length (prev n c) = Z.to_nat (max_dist (timing (level n) c));
  ok_ids i c : children n !! i = Some c → id c = Z.of_nat i;
}.

Definition tree_wf (n : Node) : Prop :=
  ∀ p m, node_at n p = Some m → node_ok (level_int (level n) + length p) m.

(** The laws of the tables. A transition changes the states only; history is
    asked for from distance 1 on; siblings and refreshes look at the last
    command only. *)
Class SpecLaws := {
  lambda_frame l c f n i : lambda l c = Some f → strip (f n i) = strip n;
  dist_pos l c t : t ∈ timing l c → 1 ≤ dist t;
  dist_sibling l c t : t ∈ timing l c → sibling t = true → dist t = 1;
  dist_refresh l c t :
    t ∈ timing l c → is_refreshing c = true → is_opening (te_cmd t) = true → dist t = 1;
}.
Context {SL : SpecLaws}.

Lemma strip_children n : children (strip n) = strip <$> children n.
Proof. by destruct n. Qed.

Lemma node_at_strip n p : node_at (strip n) p = strip <$> node_at n p.
Proof.
  revert n. induction p as [|i p IH]; intros n; [done|]. simpl.
  rewrite strip_children, list_lookup_fmap. destruct (children n !! i); simpl; [apply IH|done].
Qed.

Lemma node_ok_strip k n : node_ok k (strip n) ↔ node_ok k n.
Proof.
  split; intros [H1 H2 H3 H4]; (split; [destruct n; exact H1|done|destruct n; exact H3|]).
  - intros i c Hc. specialize (H4 i (strip c)). rewrite strip_children, list_lookup_fmap, Hc in H4.
    specialize (H4 eq_refl). by destruct c.
  - intros i c Hc. rewrite strip_children in Hc. apply list_lookup_fmap_Some in Hc as (c' & -> & Hc).
    apply H4 in Hc. by destruct c'.
Qed.

Lemma tree_wf_strip n n' : strip n = strip n' → tree_wf n → tree_wf n'.
Proof.
  intros Heq Hwf p m' Hm'.
  assert (node_at (strip n) p = Some (strip m')) as Hm by (by rewrite Heq, node_at_strip, Hm').
  rewrite node_at_strip in Hm. destruct (node_at n p) as [m|] eqn:E; [|done].
  simpl in Hm. injection Hm as Hm.
  apply node_ok_strip. rewrite <- Hm. apply node_ok_strip.
  replace (level n') with (level n) by (destruct n, n'; simpl in *; congruence).
  by apply Hwf.
Qed.

Lemma tree_wf_child n i c : tree_wf n → children n !! i = Some c → tree_wf c.
Proof.
  intros Hwf Hc p m Hm.
  assert (node_ok (level_int (level n) + 1) c) as [Hl _ _ _]
    by (apply (Hwf [i] c); simpl; by rewrite Hc).
  rewrite Hl. replace (level_int (level n) + 1 + length p)%nat
    with (level_int (level n) + length (i :: p))%nat by (simpl; lia).
  apply Hwf. simpl. by rewrite Hc.
Qed.

Lemma tree_wf_here n : tree_wf n → node_ok (level_int (level n)) n.
Proof. intros Hwf. specialize (Hwf [] n eq_refl). simpl in Hwf. by rewrite Nat.add_0_r in Hwf. Qed.

Lemma child_level n i c :
  tree_wf n → children n !! i = Some c → level_int (level c) = S (level_int (level n)).
Proof.
  intros Hwf Hc. assert (node_ok (level_int (level n) + 1) c) as [Hl _ _ _]
    by (apply (Hwf [i] c); simpl; by rewrite Hc). lia.
Qed.

(** ** Combinators on children *)
Lemma at_child_lookup {R} (f : Node → res R) l i c : l !! i = Some c → at_child f l i = f c.
Proof. revert i. induction l as [|x l IH]; intros [|i] Hc; simplify_eq/=; [done|auto]. Qed.

Lemma upd_child_Ok f l i l' :
  upd_child f l i = Ok l' → ∃ c c', l !! i = Some c ∧ f c = Ok c' ∧ l' = <[i := c']> l.
Proof.
  revert i l'. induction l as [|x l IH]; intros [|i] l' Hu; simpl in Hu; simplify_res.
  - eauto.
  - match goal with Hx : upd_child _ _ _ = _ |- _ => apply IH in Hx as (c & c' & ? & ? & ->) end. eauto.
Qed.

Lemma upd_child_lookup f l i c :
  l !! i = Some c → upd_child f l i = (c' ← f c; Ok (<[i := c']> l)).
Proof.
  revert i. induction l as [|x l IH]; intros [|i] Hc; simplify_eq/=; [done|].
  rewrite IH by done. by destruct (f c).
Qed.

Lemma each_child_Ok f l l' :
  each_child f l = Ok l' → Forall2 (λ c c', f c = Ok c') l l'.
Proof.
  revert l'. induction l as [|x l IH]; intros l' Hu; simpl in Hu; simplify_res; constructor; auto.
Qed.

Lemma each_child_total f l :
  (∀ c, c ∈ l → ∃ c', f c = Ok c') → ∃ l', each_child f l = Ok l'.
Proof.
  induction l as [|x l IH]; intros Hf; simpl; [by eauto|].
  destruct (Hf x) as [c' ->]; [left|]. destruct IH as [l' ->]; [intros; apply Hf; by right|].
  simpl. eauto.
Qed.

(** ** State updates leave the timing alone *)
Lemma update_state_strip fuel cmd addr n n' :
  update_state fuel cmd addr n = Ok n' → strip n' = strip n.
Proof.
  revert n n'. induction fuel as [|fuel IH]; intros n n' Hu; simpl in Hu.
  all: apply bind_Ok in Hu as (child_id & _ & Hu).
  all: set (n1 := match lambda (level n) cmd with Some f => f n child_id | None => n end) in Hu.
  all: assert (strip n1 = strip n) as E by
    (unfold n1; destruct (lambda (level n) cmd) eqn:El; [by eapply lambda_frame|done]).
  all: destruct (_ || _); [by simplify_res|].
  - simplify_res.
  - apply bind_Ok in Hu as (i & _ & Hu). apply bind_Ok in Hu as (l & Hl & Hu). simplify_res.
    rewrite <- E. apply upd_child_Ok in Hl as (c & c' & Hc & Hf & ->).
    apply IH in Hf. destruct n1; simpl in *. f_equal.
    rewrite list_fmap_insert, Hf. apply list_insert_id. by rewrite list_lookup_fmap, Hc.
Qed.

(** ** The step of one node *)

(** What an issued command is to a node: its target, a sibling of its target, or
    neither. [k] and [i0] are the level and the id of the root of path [p]. *)
Inductive role := Target | Sibling | Untouched.

#[export] Instance role_eq_dec : EqDecision role.
Proof. solve_decision. Defined.

Fixpoint role_of (addr : list Z) (k : nat) (i0 : Z) (p : list nat) : role :=
  if bool_decide (addr !! k = Some i0) then
    match p with [] => Target | j :: p => role_of addr (S k) (Z.of_nat j) p end
  else match p with [] => Sibling | _ :: _ => Untouched end.

Definition local_prev (r : role) (c : Command) (clk : Z) (pv : Command → list Z) : Command → list Z :=
  match r, pv c with
  | Target, _ :: _ => upd pv c (clk :: removelast (pv c))
  | _, _ => pv
  end.

Definition bump (nx : Command → Z) (t : TimingEntry) (past : Z) : Command → Z :=
  upd nx (te_cmd t) (Z.max (nx (te_cmd t)) (past + val t)).

Definition target_next (pv : list Z) (ts : list TimingEntry) (nx : Command → Z) : Command → Z :=
  foldl (λ nx t,
    if sibling t then nx
    else match pv !! Z.to_nat (dist t - 1) with
         | Some past => if bool_decide (past < 0) then nx else bump nx t past
         | None => nx
         end) nx ts.

Definition sibling_next (clk : Z) (ts : list TimingEntry) (nx : Command → Z) : Command → Z :=
  foldl (λ nx t, if sibling t then bump nx t clk else nx) nx ts.

Definition local_next (r : role) (l : Level) (c : Command) (clk : Z)
    (nx : Command → Z) (pv : Command → list Z) : Command → Z :=
  match r with
  | Target => target_next (local_prev Target c clk pv c) (timing l c) nx
  | Sibling => sibling_next clk (timing l c) nx
  | Untouched => nx
  end.

Definition here_rel (r : role) (c : Command) (clk : Z) (m m' : Node) : Prop :=
  level m' = level m ∧ id m' = id m ∧
  next m' = local_next r (level m) c clk (next m) (prev m) ∧
  prev m' = local_prev r c clk (prev m).

Lemma push_history_fields c clk n :
  let n' := push_history c clk n in
  level n' = level n ∧ id n' = id n ∧ children n' = children n ∧ next n' = next n ∧
  prev n' = local_prev Target c clk (prev n).
Proof. unfold push_history, local_prev. by destruct (prev n c) eqn:E. Qed.

Lemma target_loop c clk ts n n' :
  foldM ts n (target_entry c clk) = Ok n' →
  level n' = level n ∧ id n' = id n ∧ children n' = children n ∧
  prev n' = prev n ∧ next n' = target_next (prev n c) ts (next n).
Proof.
  revert n. induction ts as [|t ts IH]; intros n Hf; simpl in Hf; [by simplify_res|].
  apply bind_Ok in Hf as (n1 & Hn1 & Hf). apply IH in Hf as (-> & -> & -> & -> & ->).
  unfold target_entry in Hn1. simpl. destruct (sibling t); [by simplify_res|].
  apply bind_Ok in Hn1 as (i & Hi & Hn1). apply bind_Ok in Hn1 as (past & Hpast & Hn1).
  unfold child_index in Hi. apply vec_at_Ok in Hpast.
  destruct (bool_decide (0 ≤ dist t - 1)); [|done]. injection Hi as <-.
  assert (prev n1 c = prev n c ∧ level n1 = level n ∧ id n1 = id n ∧ children n1 = children n ∧
    prev n1 = prev n ∧ next n1 = if bool_decide (past < 0) then next n else bump (next n) t past)
    as (E0 & -> & -> & -> & -> & ->).
  { case_bool_decide; [by simplify_res|].
    destruct (is_refreshing c && is_opening (te_cmd t)); [|by simplify_res].
    apply bind_Ok in Hn1 as (s & _ & Hn1). by simplify_res. }
  by rewrite Hpast.
Qed.

Lemma sibling_loop clk ts n n' :
  foldM ts n (sibling_entry clk) = Ok n' →
  level n' = level n ∧ id n' = id n ∧ children n' = children n ∧
  prev n' = prev n ∧ next n' = sibling_next clk ts (next n).
Proof.
  revert n. induction ts as [|t ts IH]; intros n Hf; simpl in Hf; [by simplify_res|].
  apply bind_Ok in Hf as (n1 & Hn1 & Hf). apply IH in Hf as (-> & -> & -> & -> & ->).
  unfold sibling_entry in Hn1. simpl. destruct (sibling t); [|by simplify_res].
  apply bind_Ok in Hn1 as (u & _ & Hn1). by simplify_res.
Qed.

Lemma timing_here_spec (tgt : bool) c clk n n' :
  timing_here tgt c clk n = Ok n' →
  here_rel (if tgt then Target else Sibling) c clk n n' ∧ children n' = children n.
Proof.
  unfold timing_here. destruct tgt; intros Hn.
  - apply target_loop in Hn as (Hl & Hi & Hc & Hp & Hx).
    destruct (push_history_fields c clk n) as (E1 & E2 & E3 & E4 & E5).
    unfold here_rel. simpl. rewrite Hl, Hi, Hc, Hp, Hx, E1, E2, E3, E4, E5. by split_and!.
  - apply sibling_loop in Hn as (Hl & Hi & Hc & Hp & Hx). by repeat split.
Qed.

Lemma here_rel_children r c clk m m' l :
  here_rel r c clk m m' → here_rel r c clk m (set_children l m').
Proof. done. Qed.

Lemma here_rel_untouched c clk m : here_rel Untouched c clk m m.
Proof. by repeat split. Qed.

Lemma untouched_at c clk o : option_Forall2 (here_rel Untouched c clk) o o.
Proof. destruct o; constructor. apply here_rel_untouched. Qed.

(** [update_timing] makes at every node of the tree the step of its role. *)
Lemma update_timing_at c addr clk n n' p :
  tree_wf n → update_timing c addr clk n = Ok n' →
  option_Forall2 (here_rel (role_of addr (level_int (level n)) (id n) p) c clk)
    (node_at n p) (node_at n' p).
Proof.
  revert n' p. induction n as [l i s rs cc nx pv st ch IH] using Node_ind.
  set (n := mkNode l i s rs cc nx pv st ch) in *. intros n' p Hwf Hu.
  change (update_timing c addr clk n) with
    (a ← addr_at addr (level_int (level n));
     if bool_decide (id n ≠ a) then timing_here false c clk n
     else n' ← timing_here true c clk n;
          if bool_decide (children n = []) then Ok n'
          else l ← each_child (update_timing c addr clk) (children n);
               Ok (set_children l n')) in Hu.
  change ch with (children n) in IH. clearbody n. clear l i s rs cc nx pv st ch.
  apply bind_Ok in Hu as (a & Ha & Hu). apply vec_at_Ok in Ha.
  case_bool_decide as Hid.
  - apply timing_here_spec in Hu as [Hr Hc].
    destruct p as [|j p]; simpl role_of; rewrite bool_decide_false by (rewrite Ha; congruence).
    + by constructor.
    + simpl. rewrite Hc. apply untouched_at.
  - subst a. apply bind_Ok in Hu as (n1 & Hn1 & Hu).
    apply timing_here_spec in Hn1 as [Hr Hc]. case_bool_decide as Hnil.
    + simplify_res. destruct p as [|j p]; simpl role_of; rewrite bool_decide_true by done.
      * by constructor.
      * simpl. rewrite Hc. simpl in Hnil. simpl. rewrite Hnil, lookup_nil. constructor.
    + apply bind_Ok in Hu as (l' & Hl' & Hu). simplify_res. apply each_child_Ok in Hl'.
      destruct p as [|j p]; simpl role_of; rewrite bool_decide_true by done.
      * constructor. by apply here_rel_children.
      * simpl node_at. destruct (children n !! j) as [cj|] eqn:Hj.
        -- destruct (Forall2_lookup_l _ _ _ _ _ Hl' Hj) as (cj' & Hj' & Huj).
           change (children (set_children l' n1)) with l'. rewrite Hj'.
           rewrite <- (child_level n j cj Hwf Hj).
           rewrite <- (ok_ids _ _ (tree_wf_here n Hwf) j cj Hj).
           rewrite Forall_lookup in IH. apply (IH j cj Hj); [|done].
           by eapply tree_wf_child.
        -- assert (l' !! j = None) as ->; [|constructor].
           apply lookup_ge_None. apply Forall2_length in Hl'. apply lookup_ge_None in Hj. lia.
Qed.

(** [update] does so too: the states it changes do not matter here. *)
Lemma update_at c addr clk n n' p :
  tree_wf n → update c addr clk n = Ok n' →
  option_Forall2 (here_rel (role_of addr (level_int (level n)) (id n) p) c clk)
    (node_at n p) (node_at n' p).
Proof.
  intros Hwf Hu. unfold update in Hu. apply bind_Ok in Hu as (n1 & Hn1 & Hu).
  apply update_state_strip in Hn1.
  assert (strip (set_cur_clk clk n) = set_cur_clk clk (strip n)) as E by (by destruct n).
  assert (tree_wf n1) as Hwf1.
  { apply (tree_wf_strip (set_cur_clk clk n)); [done|]. intros q m Hq.
    destruct q as [|j q]; [|apply (Hwf (j :: q)); exact Hq].
    simpl in Hq. injection Hq as <-. destruct (Hwf [] n eq_refl) as [H1 H2 H3 H4]. split; [exact H1|exact H2|exact H3|exact H4]. }
  assert (level n1 = level n ∧ id n1 = id n) as [Hl Hi]
    by (rewrite E in Hn1; destruct n1, n; simpl in Hn1; by injection Hn1).
  pose proof (update_timing_at c addr clk n1 n' p Hwf1 Hu) as Hat.
  rewrite Hl, Hi in Hat.
  assert (strip <$> node_at (set_cur_clk clk n) p = strip <$> node_at n1 p) as Hs
    by by rewrite <- !node_at_strip, Hn1.
  assert (option_Forall2 (λ a b, level b = level a ∧ id b = id a ∧ next b = next a ∧ prev b = prev a)
    (node_at n p) (node_at n1 p)) as Hsame.
  { assert (∀ a b : Node, strip a = strip b →
      level b = level a ∧ id b = id a ∧ next b = next a ∧ prev b = prev a) as Hstrip
      by (intros [] [] Hab; simpl in Hab; by injection Hab).
    destruct p as [|j q]; simpl in Hs |- *.
    - constructor. apply (Hstrip (set_cur_clk clk n) n1). by rewrite Hn1.
    - destruct (children n !! j) as [cj|], (children n1 !! j) as [cj1|]; simpl in *.
      + destruct (node_at cj q), (node_at cj1 q); simpl in *; simplify_eq; constructor. by apply Hstrip.
      + destruct (node_at cj q); simpl in *; [done|constructor].
      + destruct (node_at cj1 q); simpl in *; [done|constructor].
      + constructor. }
  destruct Hsame as [a b (E1 & E2 & E3 & E4)|]; inversion Hat as [? b' Hr|]; subst; constructor.
  unfold here_rel in *. by rewrite <- E1, <- E2, <- E3, <- E4.
Qed.
End tree.

(** ** Runs and the constraints they meet *)
Section runs.
Context {ST : Standard} {SP : Spec} {SL : SpecLaws}.

Lemma local_prev_length r c clk pv c' : length (local_prev r c clk pv c') = length (pv c').
Proof.
  unfold local_prev. destruct r, (pv c) as [|x l] eqn:E; try done.
  unfold upd. case_decide as Hc; [|done]. subst. rewrite E.
  rewrite (app_removelast_last 0 (l := x :: l)) at 2 by done. rewrite length_app. simpl. lia.
Qed.

Lemma here_rel_ok r c clk m m' k :
  here_rel r c clk m m' → node_ok k m →
  (∀ i x, children m' !! i = Some x → id x = Z.of_nat i) → node_ok k m'.
Proof.
  intros (Hl & Hi & Hn & Hp) [H1 H2 H3 H4] Hids.
  split; [by rewrite Hl|done| |done]. intros c'. rewrite Hp, local_prev_length, Hl. apply H3.
Qed.

Lemma node_at_snoc n p i :
  node_at n (p ++ [i]) = m ← node_at n p; children m !! i.
Proof.
  revert n. induction p as [|j p IH]; intros n; simpl.
  - by destruct (children n !! i).
  - destruct (children n !! j); [apply IH|done].
Qed.

Lemma update_wf c addr clk n n' : tree_wf n → update c addr clk n = Ok n' → tree_wf n'.
Proof.
  intros Hwf Hu p m' Hm'.
  assert (level n' = level n) as ->.
  { pose proof (update_at c addr clk n n' [] Hwf Hu) as H0. simpl in H0.
    inversion H0 as [? ? (Hl & _)|]. done. }
  pose proof (update_at c addr clk n n' p Hwf Hu) as Hp. rewrite Hm' in Hp.
  inversion Hp as [m ? Hr Em|]. subst. symmetry in Em.
  eapply here_rel_ok; [done|by apply Hwf|].
  intros i x Hx. pose proof (update_at c addr clk n n' (p ++ [i]) Hwf Hu) as Hpi.
  rewrite !node_at_snoc, Hm', Em in Hpi. simpl in Hpi. rewrite Hx in Hpi.
  inversion Hpi as [y ? (_ & Hid & _) Ey|]; subst. rewrite Hid.
  eapply ok_ids; [by apply (Hwf p m)|done].
Qed.

(** An issued command: [check] allowed it at its time, and [update] recorded it. *)
Definition event : Type := Command * list Z * Z.

Inductive run (root : Node) : list event → Node → Prop :=
| run_nil : run root [] root
| run_snoc es n c addr clk n' :
    run root es n → 0 ≤ clk →
    check c addr clk n = Ok true → update c addr clk n = Ok n' →
    run root (es ++ [(c, addr, clk)]) n'.

(** The times, latest first, of the commands [c] of a list of events that had
    role [r] for the node at path [p]. *)
Definition times (r : role) (k : nat) (i0 : Z) (p : list nat) (es : list event) (c : Command) : list Z :=
  omap (λ e : event, if decide (e.1.1 = c ∧ role_of e.1.2 k i0 p = r) then Some e.2 else None)
    (reverse es).

(** The earliest times the tables of level [l] allow for command [c']: an entry
    of the table of [c] looks at every command [c] to the node that is at least
    its [dist]-th latest, or at every command [c] to a sibling. *)
Definition bound (l : Level) (own sib : Command → list Z) (c' : Command) (v : Z) : Prop :=
  ∃ c t i past, t ∈ timing l c ∧ te_cmd t = c' ∧ v = past + val t ∧
    (if sibling t then sib c else own c) !! i = Some past ∧ (sibling t = false → dist t ≤ Z.of_nat i + 1).

(** What [next] and [prev] of a node are, given what was issued. *)
Record local_inv (l : Level) (own sib : Command → list Z) (nx : Command → Z)
    (pv : Command → list Z) : Prop := {
  li_prev c : pv c = take (Z.to_nat (max_dist (timing l c)))
                       (own c ++ replicate (Z.to_nat (max_dist (timing l c))) (-1));
  li_times c x : x ∈ own c → 0 ≤ x;
  li_lower c v : bound l own sib c v → v ≤ nx c;
  li_upper c : nx c = -1 ∨ bound l own sib c (nx c);
}.

Lemma upd_eq {A} (f : Command → A) c v : upd f c v c = v.
Proof. unfold upd. by rewrite decide_True. Qed.
Lemma upd_ne {A} (f : Command → A) c c' v : c' ≠ c → upd f c v c' = f c'.
Proof. intros. unfold upd. by rewrite decide_False. Qed.

Lemma bump_ge nx t past c : nx c ≤ bump nx t past c.
Proof. unfold bump, upd. case_decide; [subst|]; lia. Qed.
Lemma bump_at nx t past : past + val t ≤ bump nx t past (te_cmd t).
Proof. unfold bump. rewrite upd_eq. lia. Qed.
Lemma bump_cases nx t past c :
  bump nx t past c = nx c ∨ c = te_cmd t ∧ bump nx t past c = past + val t.
Proof.
  unfold bump, upd. case_decide; [subst|by left].
  destruct (Z.max_spec (nx (te_cmd t)) (past + val t)) as [[_ ->]|[_ ->]]; auto.
Qed.

(** The loop of an abstract table: each entry bumps [next] by the time [f] gives
    for it, if any. *)
Section loop.
Context (f : TimingEntry → option Z).
Let step (nx : Command → Z) (t : TimingEntry) : Command → Z :=
  match f t with Some past => bump nx t past | None => nx end.

Lemma loop_ge ts nx c : nx c ≤ foldl step nx ts c.
Proof.
  revert nx. induction ts as [|t ts IH]; intros nx; simpl; [lia|].
  etransitivity; [|apply IH]. unfold step. destruct (f t); [apply bump_ge|lia].
Qed.

Lemma loop_at ts nx t past : t ∈ ts → f t = Some past → past + val t ≤ foldl step nx ts (te_cmd t).
Proof.
  revert nx. induction ts as [|t' ts IH]; intros nx Ht Hf; [by apply not_elem_of_nil in Ht|].
  simpl. apply elem_of_cons in Ht as [<-|Ht]; [|by apply IH].
  etransitivity; [|apply loop_ge]. unfold step. rewrite Hf. apply bump_at.
Qed.

Lemma loop_cases ts nx c :
  foldl step nx ts c = nx c ∨
  ∃ t past, t ∈ ts ∧ te_cmd t = c ∧ f t = Some past ∧ foldl step nx ts c = past + val t.
Proof.
  revert nx. induction ts as [|t ts IH]; intros nx; simpl; [by left|].
  destruct (IH (step nx t)) as [->|(t' & past & ? & ? & ? & ?)]; [|right; exists t', past; set_solver].
  unfold step. destruct (f t) as [past|] eqn:Hf; [|by left].
  destruct (bump_cases nx t past c) as [->|[-> ->]]; [by left|].
  right. exists t, past. split_and!; [left|done..].
Qed.
End loop.

Definition target_time (pv : list Z) (t : TimingEntry) : option Z :=
  if sibling t then None
  else past ← pv !! Z.to_nat (dist t - 1); if bool_decide (past < 0) then None else Some past.
Definition sibling_time (clk : Z) (t : TimingEntry) : option Z := if sibling t then Some clk else None.

Lemma target_next_loop pv ts nx :
  target_next pv ts nx =
  foldl (λ nx t, match target_time pv t with Some past => bump nx t past | None => nx end) nx ts.
Proof.
  unfold target_next. revert nx. induction ts as [|t ts IH]; intros nx; simpl; [done|].
  rewrite IH. f_equal. unfold target_time. destruct (sibling t); [done|].
  destruct (pv !! _); simpl; [by case_bool_decide|done].
Qed.

Lemma sibling_next_loop clk ts nx :
  sibling_next clk ts nx =
  foldl (λ nx t, match sibling_time clk t with Some past => bump nx t past | None => nx end) nx ts.
Proof.
  unfold sibling_next. revert nx. induction ts as [|t ts IH]; intros nx; simpl; [done|].
  rewrite IH. f_equal. unfold sibling_time. by destruct (sibling t).
Qed.

Lemma max_dist_ge ts t d : t ∈ ts → dist t ≤ foldl (λ d t, Z.max d (dist t)) d ts.
Proof.
  assert (∀ ts d, d ≤ foldl (λ d t, Z.max d (dist t)) d ts) as Hmono.
  { clear. induction ts as [|t ts IH]; intros d; simpl; [lia|]. etransitivity; [|apply IH]. lia. }
  revert d. induction ts as [|t' ts IH]; intros d Ht; [by apply not_elem_of_nil in Ht|].
  simpl. apply elem_of_cons in Ht as [<-|Ht]; [|by apply IH].
  etransitivity; [|apply Hmono]. lia.
Qed.

(** ** The invariant of one node *)

(** One more command in front of a history. *)
Definition cons_if (b : bool) (x : Z) (l : list Z) : list Z := if b then x :: l else l.

Lemma cons_if_lookup (b : bool) x l i y :
  l !! i = Some y → cons_if b x l !! (if b then S i else i) = Some y.
Proof. by destruct b. Qed.

Lemma push_take (x : Z) own d :
  (match take d (own ++ replicate d (-1)) with [] => [] | l => x :: removelast l end) =
    take d ((x :: own) ++ replicate d (-1)).
Proof.
  destruct d as [|d]; [done|].
  assert (d < length (own ++ replicate (S d) (-1)%Z))%nat as Hlen by (rewrite length_app, length_replicate; lia).
  rewrite <- app_comm_cons.
  destruct (own ++ replicate (S d) (-1)) as [|y l]; [simpl in Hlen; lia|].
  change (match take (S d) (y :: l) with [] => [] | l0 => x :: removelast l0 end)
    with (x :: removelast (take (S d) (y :: l))).
  by rewrite removelast_firstn by done.
Qed.

Section step.
Context (l : Level) (own sib own' sib' : Command → list Z) (nx : Command → Z) (pv : Command → list Z).
Context (r : role) (c : Command) (clk : Z).
Hypothesis clk_nonneg : 0 ≤ clk.
Hypothesis inv : local_inv l own sib nx pv.
Hypothesis own_step : ∀ c', own' c' = cons_if (bool_decide (c = c' ∧ r = Target)) clk (own c').
Hypothesis sib_step : ∀ c', sib' c' = cons_if (bool_decide (c = c' ∧ r = Sibling)) clk (sib c').

Lemma bound_mono c' v : bound l own sib c' v → bound l own' sib' c' v.
Proof.
  intros (c1 & t & i & past & Ht & Hc & Hv & Hpast & Hd).
  set (b := if sibling t then bool_decide (c = c1 ∧ r = Sibling) else bool_decide (c = c1 ∧ r = Target)).
  exists c1, t, (if b then S i else i), past. split_and!; [done..| |].
  - unfold b. destruct (sibling t); [rewrite sib_step|rewrite own_step]; by apply cons_if_lookup.
  - intros Hs. specialize (Hd Hs). destruct b; lia.
Qed.

(** A constraint after the step is an old one, or one of the entries the step
    looks at. *)
Lemma bound_step c' v :
  bound l own' sib' c' v →
  bound l own sib c' v ∨
  ∃ t past, t ∈ timing l c ∧ te_cmd t = c' ∧ v = past + val t ∧
    (if sibling t then r = Sibling ∧ past = clk
     else r = Target ∧ own' c !! Z.to_nat (dist t - 1) = Some past).
Proof.
  intros (c1 & t & i & past & Ht & Hc & Hv & Hpast & Hd). pose proof (dist_pos l c1 t Ht).
  destruct (sibling t) eqn:Hs.
  - rewrite sib_step in Hpast. case_bool_decide as Hb; simpl in Hpast.
    + destruct Hb as [<- Hr]. destruct i as [|i]; simpl in Hpast.
      * right. exists t, past. rewrite Hs. by simplify_eq.
      * left. exists c, t, i, past. rewrite Hs. by split_and!.
    + left. exists c1, t, i, past. rewrite Hs. by split_and!.
  - specialize (Hd eq_refl). rewrite own_step in Hpast. case_bool_decide as Hb; simpl in Hpast.
    + destruct Hb as [<- Hr]. destruct (decide (dist t = Z.of_nat i + 1)) as [Hi|Hi].
      * right. exists t, past. rewrite Hs. split_and!; try done.
        replace (Z.to_nat (dist t - 1)) with i by lia.
        rewrite own_step, bool_decide_true by done. done.
      * left. destruct i as [|i]; [lia|]. exists c, t, i, past. rewrite Hs. split_and!; try done.
        intros _. lia.
    + left. exists c1, t, i, past. rewrite Hs. by split_and!.
Qed.

Lemma prev_step c' :
  local_prev r c clk pv c' =
    take (Z.to_nat (max_dist (timing l c'))) (own' c' ++ replicate (Z.to_nat (max_dist (timing l c'))) (-1)).
Proof.
  rewrite own_step. pose proof (li_prev _ _ _ _ _ inv c') as Hp. unfold local_prev.
  case_bool_decide as Hb; simpl cons_if.
  - destruct Hb as [<- ->]. rewrite <- push_take, <- Hp. destruct (pv c) eqn:E; [done|]. by rewrite upd_eq.
  - destruct r, (pv c) eqn:E; try done. rewrite upd_ne; [done|]. intros ->. by apply Hb.
Qed.

Lemma prev_lookup t past :
  t ∈ timing l c → 0 ≤ past →
  local_prev r c clk pv c !! Z.to_nat (dist t - 1) = Some past ↔
  own' c !! Z.to_nat (dist t - 1) = Some past.
Proof.
  intros Ht Hpast. rewrite prev_step. pose proof (dist_pos l c t Ht). pose proof (max_dist_ge _ t 0 Ht) as Hm.
  change (foldl _ 0 (timing l c)) with (max_dist (timing l c)) in Hm.
  rewrite lookup_take_lt by lia. rewrite lookup_app_Some. split; [|by left].
  intros [?|[_ Hrep]]; [done|]. apply lookup_replicate in Hrep as [Hrep _]. lia.
Qed.

Lemma own_nonneg c' x : x ∈ own' c' → 0 ≤ x.
Proof.
  rewrite own_step. case_bool_decide; simpl; [|by apply (li_times _ _ _ _ _ inv)].
  intros [->|Hx]%elem_of_cons; [done|by apply (li_times _ _ _ _ _ inv) in Hx].
Qed.

Lemma next_ge c' : nx c' ≤ local_next r l c clk nx pv c'.
Proof.
  destruct r; simpl; [rewrite target_next_loop; apply loop_ge|rewrite sibling_next_loop; apply loop_ge|lia].
Qed.

Lemma local_inv_step : local_inv l own' sib' (local_next r l c clk nx pv) (local_prev r c clk pv).
Proof.
  split; [apply prev_step|apply own_nonneg| |].
  - intros c' v [Hb|(t & past & Ht & <- & -> & Hpast)]%bound_step.
    { etransitivity; [by apply (li_lower _ _ _ _ _ inv)|apply next_ge]. }
    destruct (sibling t) eqn:Hs; destruct Hpast as [Hr Hpast].
    + rewrite Hr. subst past. simpl. rewrite sibling_next_loop. apply loop_at; [done|].
      unfold sibling_time. by rewrite Hs.
    + assert (0 ≤ past) by (eapply own_nonneg, list_elem_of_lookup_2; done).
      apply prev_lookup in Hpast; [|done..]. rewrite Hr in *. cbn [local_next]. rewrite target_next_loop.
      apply loop_at; [done|]. unfold target_time. rewrite Hs, Hpast. simpl.
      by rewrite bool_decide_false by lia.
  - intros c'. assert (local_next r l c clk nx pv c' = nx c' ∨
      bound l own' sib' c' (local_next r l c clk nx pv c')) as [->|?]; [| |by right].
    2: { destruct (li_upper _ _ _ _ _ inv c') as [?|?]; [by left|right; by apply bound_mono]. }
    assert (r = Target ∨ r = Sibling ∨ r = Untouched) as [Hr|[Hr|Hr]] by (clear; destruct r; auto);
      rewrite Hr; cbn [local_next]; [| |by left].
    + rewrite target_next_loop. edestruct loop_cases as [->|(t & past & Ht & Hc & Hp & E)]; [by left|].
      right. rewrite E. unfold target_time in Hp. destruct (sibling t) eqn:Hs; [done|].
      apply bind_Some in Hp as (past' & Hl & Hp). case_bool_decide; [done|]. injection Hp as ->.
      exists c, t, (Z.to_nat (dist t - 1)), past. rewrite Hs. split_and!; try done.
      * apply prev_lookup; [done|lia|]. by rewrite Hr.
      * intros _. pose proof (dist_pos l c t Ht). lia.
    + rewrite sibling_next_loop. edestruct loop_cases as [->|(t & past & Ht & Hc & Hp & E)]; [by left|].
      right. rewrite E. unfold sibling_time in Hp. destruct (sibling t) eqn:Hs; [|done]. injection Hp as <-.
      exists c, t, 0%nat, clk. rewrite Hs. split_and!; try done.
      rewrite sib_step, bool_decide_true by done. done.
Qed.
End step.

(** ** The invariant of the tree *)

(** A tree to which nothing was issued. *)
Definition fresh (n : Node) : Prop :=
  tree_wf n ∧ ∀ p m, node_at n p = Some m →
    (∀ c, next m c = -1) ∧
    ∀ c, prev m c = replicate (Z.to_nat (max_dist (timing (level m) c))) (-1).

Lemma times_snoc r k i0 p es c addr clk c' :
  times r k i0 p (es ++ [(c, addr, clk)]) c' =
  cons_if (bool_decide (c = c' ∧ role_of addr k i0 p = r)) clk (times r k i0 p es c').
Proof.
  unfold times. rewrite reverse_snoc. simpl.
  case_decide as Hd; [by rewrite bool_decide_true|by rewrite bool_decide_false].
Qed.

Section reachable.
Context (root : Node) (root_fresh : fresh root).
Let k : nat := level_int (level root).
Let i0 : Z := id root.

(** What a node of the tree is after the events [es], [m0] being the node at the
    same path of the fresh tree. *)
Definition node_inv (es : list event) (p : list nat) (m0 m : Node) : Prop :=
  level m = level m0 ∧
  local_inv (level m0) (times Target k i0 p es) (times Sibling k i0 p es) (next m) (prev m).

Lemma fresh_inv p m : node_at root p = Some m → node_inv [] p m m.
Proof.
  intros Hm. destruct root_fresh as [_ Hf]. destruct (Hf p m Hm) as [Hn Hp]. split; [done|].
  split.
  - intros c. rewrite Hp. simpl. by rewrite take_ge by (rewrite length_replicate; lia).
  - intros c x Hx. by apply not_elem_of_nil in Hx.
  - intros c v (c1 & t & i & past & _ & _ & _ & Hpast & _).
    by destruct (sibling t), i.
  - intros c. by left.
Qed.

Lemma run_inv es n :
  run root es n →
  tree_wf n ∧ level n = level root ∧ id n = id root ∧
  ∀ p, option_Forall2 (node_inv es p) (node_at root p) (node_at n p).
Proof.
  induction 1 as [|es n c addr clk n' Hrun (Hwf & Hl & Hi & IH) Hclk Hck Hu].
  - destruct root_fresh as [Hwf _]. split_and!; [done..|]. intros p.
    destruct (node_at root p) eqn:E; constructor. by apply fresh_inv.
  - split; [by eapply update_wf|].
    pose proof (update_at c addr clk n n' [] Hwf Hu) as H0. simpl in H0.
    inversion H0 as [? ? (Hl' & Hi' & _)|]; subst. rewrite Hl', Hi'. split_and!; [done..|].
    intros p. specialize (IH p). pose proof (update_at c addr clk n n' p Hwf Hu) as Hp.
    destruct IH as [m0 m [Hlm Hinv]|]; inversion Hp as [? m' (E1 & E2 & E3 & E4)|]; subst; constructor.
    split; [by rewrite E1|]. rewrite E3, E4, Hl, Hi, Hlm.
    eapply local_inv_step; [done|done| |]; intros c'; apply times_snoc.
Qed.
End reachable.

(** ** What [check] compares *)
Lemma role_target_cons addr k i0 j p :
  role_of addr k i0 (j :: p) = Target →
  addr !! k = Some i0 ∧ role_of addr (S k) (Z.of_nat j) p = Target.
Proof. simpl. by case_bool_decide. Qed.

Lemma role_target_head addr k i0 p : role_of addr k i0 p = Target → addr !! k = Some i0.
Proof. destruct p; simpl; by case_bool_decide. Qed.

(** The nodes [check] looks at: those the command goes through, down to the
    level of its scope. *)
Definition checked (c : Command) (addr : list Z) (n : Node) (p : list nat) (m : Node) : Prop :=
  node_at n p = Some m ∧ role_of addr (level_int (level n)) (id n) p = Target ∧
  (level_int (level m) ≤ level_int (scope c))%nat.

Lemma check_spec c addr clk n b :
  tree_wf n → (level_int (level n) ≤ level_int (scope c))%nat →
  addr !! level_int (level n) = Some (id n) →
  check c addr clk n = Ok b →
  b = true ↔ ∀ p m, checked c addr n p m → next m c = -1 ∨ next m c ≤ clk.
Proof.
  revert b. induction n as [l i s rs cc nx pv st ch IH] using Node_ind.
  set (n := mkNode l i s rs cc nx pv st ch) in *. intros b Hwf Hsc Ha Hck.
  change (check c addr clk n) with
    (if bool_decide (next n c ≠ -1) && bool_decide (clk < next n c) then Ok false
     else child_id ← addr_at addr (S (level_int (level n)));
          if bool_decide (child_id < 0) || bool_decide (level n = scope c) || bool_decide (children n = [])
          then Ok true
          else at_child (check c addr clk) (children n) (Z.to_nat child_id)) in Hck.
  change ch with (children n) in IH. clearbody n. clear l i s rs cc nx pv st ch.
  assert (checked c addr n [] n) as Hself.
  { split; [done|]. split; [|done]. simpl. by rewrite bool_decide_true. }
  destruct (bool_decide (next n c ≠ -1) && bool_decide (clk < next n c)) eqn:Hnow.
  { simplify_res. split; [done|]. intros Hall. exfalso.
    apply andb_true_iff in Hnow as [H1%bool_decide_eq_true H2%bool_decide_eq_true].
    destruct (Hall [] n Hself); [done|lia]. }
  assert (next n c = -1 ∨ next n c ≤ clk) as Hhere.
  { destruct (decide (next n c = -1)); [by left|right].
    apply andb_false_iff in Hnow as [H1%bool_decide_eq_false|H1%bool_decide_eq_false]; [by destruct H1|lia]. }
  apply bind_Ok in Hck as (child_id & Hid%vec_at_Ok & Hck).
  destruct (_ || _ || _) eqn:Hstop.
  - simplify_res. split; [|done]. intros _ p m (Hm & Hr & Hlm). destruct p as [|j p]; simplify_eq/=; [done|].
    exfalso. apply role_target_cons in Hr as [_ Hr]. apply role_target_head in Hr.
    destruct (children n !! j) as [x|] eqn:Hx; [|done].
    assert (Z.of_nat j = child_id) as <- by congruence.
    rewrite !orb_true_iff, !bool_decide_eq_true in Hstop. destruct Hstop as [[?|Hl]|Hnil]; [lia| |].
    + pose proof (ok_level _ _ (Hwf (j :: p) m ltac:(simpl; by rewrite Hx))) as Hm'.
      rewrite Hm', Hl in Hlm. simpl in Hlm. lia.
    + by rewrite Hnil in Hx.
  - rewrite !orb_false_iff, !bool_decide_eq_false in Hstop. destruct Hstop as [[Hpos Hl] Hnil].
    destruct (children n !! Z.to_nat child_id) as [x|] eqn:Hx.
    2: { exfalso. clear - Hck Hx. revert Hck Hx. generalize (children n) (Z.to_nat child_id).
         intros L. induction L as [|y L IHL]; intros [|j] ??; simplify_eq/=. eauto. }
    rewrite (at_child_lookup _ _ _ x Hx) in Hck.
    pose proof (child_level n _ x Hwf Hx) as Hlx. pose proof (ok_ids _ _ (tree_wf_here n Hwf) _ x Hx) as Hidx.
    rewrite Forall_lookup in IH. rewrite (IH _ x Hx b); [|by eapply tree_wf_child| | |done].
    + split.
      * intros Hall p m (Hm & Hr & Hlm). destruct p as [|j p]; simplify_eq/=; [done|].
        apply role_target_cons in Hr as [_ Hr]. pose proof (role_target_head _ _ _ _ Hr) as Hj.
        assert (Z.to_nat child_id = j) as <- by (rewrite Hid in Hj; simplify_eq; lia).
        rewrite Hx in Hm. apply (Hall p). split; [done|]. split; [|done]. by rewrite Hlx, Hidx.
      * intros Hall p m (Hm & Hr & Hlm). apply (Hall (Z.to_nat child_id :: p)). split; [|split; [|done]].
        -- simpl. by rewrite Hx.
        -- simpl. rewrite bool_decide_true by done. by rewrite <- Hlx, <- Hidx.
    + rewrite Hlx. assert (level_int (level n) ≠ level_int (scope c)); [|lia].
      intros E. apply Hl. pose proof (level_of_int (level n)) as E1. rewrite E, level_of_int in E1. congruence.
    + rewrite Hlx, Hidx, Hid. f_equal. lia.
Qed.

Lemma check_ok root es n c addr clk b :
  fresh root → run root es n → 0 ≤ clk →
  (level_int (level root) ≤ level_int (scope c))%nat →
  addr !! level_int (level root) = Some (id root) →
  check c addr clk n = Ok b →
  b = true ↔
  ∀ p m v, checked c addr root p m →
    bound (level m) (times Target (level_int (level root)) (id root) p es)
                    (times Sibling (level_int (level root)) (id root) p es) c v →
    v ≤ clk.
Proof.
  intros Hf Hrun Hclk Hsc Ha Hck. destruct (run_inv root Hf es n Hrun) as (Hwf & Hl & Hi & Hinv).
  rewrite (check_spec c addr clk n b) by (rewrite ?Hl, ?Hi; done).
  split; intros Hall p m.
  - intros v (Hm & Hr & Hlm) Hb. specialize (Hinv p). rewrite Hm in Hinv.
    inversion Hinv as [? m' [Hl' Hli] E0 Em|]; subst. symmetry in Em.
    pose proof (li_lower _ _ _ _ _ Hli c v Hb).
    destruct (Hall p m') as [?|?]; [|lia..]. split; [done|]. by rewrite Hl, Hi, Hl'.
  - intros (Hm & Hr & Hlm). specialize (Hinv p). rewrite Hm in Hinv.
    inversion Hinv as [m0 ? [Hl' Hli] E0|]; subst. symmetry in E0.
    destruct (li_upper _ _ _ _ _ Hli c) as [?|Hb]; [by left|right].
    apply (Hall p m0); [|done]. split; [done|]. by rewrite <- Hl, <- Hi, <- Hl'.
Qed.

(** C23. [check] is exact: in every state a run reaches from a fresh tree it
    answers whether the time satisfies all the constraints that the tables put on
    the command, through the history of the run, at the nodes the command goes
    through down to the level of its scope. *)
Theorem check_exact root es n c addr clk b :
  fresh root → run root es n → 0 ≤ clk →
  (level_int (level root) ≤ level_int (scope c))%nat →
  addr !! level_int (level root) = Some (id root) →
  check c addr clk n = Ok b →
  b = true ↔
  ∀ p m v, checked c addr root p m →
    bound (level m) (times Target (level_int (level root)) (id root) p es)
                    (times Sibling (level_int (level root)) (id root) p es) c v →
    v ≤ clk.
Proof. apply check_ok. Qed.

Lemma run_app root es es' n : run root (es ++ es') n → ∃ n0, run root es n0.
Proof.
  revert n. induction es' as [|e es' IH] using rev_ind; intros n Hrun.
  - rewrite app_nil_r in Hrun. eauto.
  - rewrite app_assoc in Hrun. inversion Hrun as [E|es0 n0 c addr clk n' Hr _ _ _ E]; subst.
    + by destruct (es ++ es').
    + apply app_inj_tail in E as [-> _]. eauto.
Qed.

Lemma run_last root es c addr clk n :
  run root (es ++ [(c, addr, clk)]) n →
  ∃ n0, run root es n0 ∧ 0 ≤ clk ∧ check c addr clk n0 = Ok true.
Proof.
  inversion 1 as [E|es0 n0 c0 addr0 clk0 n' Hr Hclk Hck _ E]; subst.
  - by destruct es.
  - apply app_inj_tail in E as [-> E]. simplify_eq. eauto.
Qed.

Lemma times_app r k i0 p es es' c : times r k i0 p (es ++ es') c = times r k i0 p es' c ++ times r k i0 p es c.
Proof. unfold times. by rewrite reverse_app, omap_app. Qed.

Lemma timing_ok root es1 c1 a1 t1 es2 c2 a2 t2 n p m t :
  fresh root → run root (es1 ++ (c1, a1, t1) :: es2 ++ [(c2, a2, t2)]) n →
  (level_int (level root) ≤ level_int (scope c2))%nat →
  checked c2 a2 root p m → t ∈ timing (level m) c1 → te_cmd t = c2 →
  role_of a1 (level_int (level root)) (id root) p = (if sibling t then Sibling else Target) →
  (sibling t = false →
   dist t ≤ Z.of_nat (length (times Target (level_int (level root)) (id root) p es2 c1)) + 1) →
  t1 + val t ≤ t2.
Proof.
  intros Hf Hrun Hsc Hck Ht Hc Hr Hd.
  replace (es1 ++ (c1, a1, t1) :: es2 ++ [(c2, a2, t2)])
    with ((es1 ++ (c1, a1, t1) :: es2) ++ [(c2, a2, t2)]) in Hrun by (by rewrite <- app_assoc).
  apply run_last in Hrun as (n0 & Hrun & Ht2 & Hcheck).
  pose proof (role_target_head _ _ _ _ (proj1 (proj2 Hck))) as Ha.
  eapply (check_ok root _ n0 c2 a2 t2 true); [done..|].
  set (r := if sibling t then Sibling else Target) in *.
  assert (times r (level_int (level root)) (id root) p (es1 ++ (c1, a1, t1) :: es2) c1
    !! length (times r (level_int (level root)) (id root) p es2 c1) = Some t1) as Hlook.
  { rewrite cons_middle, !times_app, <- app_assoc.
    rewrite lookup_app_r, Nat.sub_diag by lia. unfold times at 1. simpl. by rewrite decide_True. }
  exists c1, t, (length (times r (level_int (level root)) (id root) p es2 c1)), t1.
  split_and!; [done..| |].
  - unfold r in Hlook |- *. by destruct (sibling t).
  - intros Hs. unfold r. rewrite Hs. specialize (Hd Hs). lia.
Qed.

(** C22. Timing safety: when a run issues [c1] at [t1] and later [c2] at [t2], every
    entry of the tables from [c1] to [c2] is kept at every node [c2] goes
    through down to its scope: an entry with [dist] d from [t1] on when [c1]
    was the d-th latest command of its kind to the node, or an earlier one; a
    sibling entry when [c1] went to a sibling of the node. *)
Theorem timing_safe root es1 c1 a1 t1 es2 c2 a2 t2 n p m t :
  fresh root → run root (es1 ++ (c1, a1, t1) :: es2 ++ [(c2, a2, t2)]) n →
  (level_int (level root) ≤ level_int (scope c2))%nat →
  checked c2 a2 root p m → t ∈ timing (level m) c1 → te_cmd t = c2 →
  role_of a1 (level_int (level root)) (id root) p = (if sibling t then Sibling else Target) →
  (sibling t = false →
   dist t ≤ Z.of_nat (length (times Target (level_int (level root)) (id root) p es2 c1)) + 1) →
  t1 + val t ≤ t2.
Proof. apply timing_ok. Qed.

Lemma level_int_inj (l l' : Level) : level_int l = level_int l' → l = l'.
Proof. intros E. pose proof (level_of_int l) as H. rewrite E, level_of_int in H. congruence. Qed.

Lemma at_child_elem {R} (f : Node → res R) l i r : at_child f l i = Ok r → ∃ x, l !! i = Some x ∧ f x = Ok r.
Proof. revert i. induction l as [|y l IH]; intros [|i] Hf; simplify_eq/=; eauto. Qed.

Lemma get_next_loop_ge c addr x n v : get_next_loop c addr x n = Ok v → x ≤ v ∧ next n c ≤ v.
Proof.
  revert x. induction n as [l i s rs cc nx pv st ch IH] using Node_ind. intros x Hg. simpl in Hg |- *.
  destruct (_ && _); [|simplify_res; lia].
  apply bind_Ok in Hg as (j & _ & Hg). case_bool_decide; [|simplify_res; lia].
  apply at_child_elem in Hg as (y & Hy & Hv). rewrite Forall_lookup in IH.
  apply (IH _ y Hy) in Hv. lia.
Qed.

Lemma get_next_loop_spec c addr clk x n v b :
  tree_wf n → (level_int (level n) ≤ level_int (scope c))%nat → 0 ≤ clk →
  get_next_loop c addr x n = Ok v → check c addr clk n = Ok b →
  b = true ∧ x ≤ clk ↔ v ≤ clk.
Proof.
  revert x b. induction n as [l i s rs cc nx pv st ch IH] using Node_ind.
  intros x b Hwf Hsc Hclk Hg Hc. pose proof (get_next_loop_ge _ _ _ _ _ Hg) as [Hx Hn].
  simpl in Hg, Hc, Hn, Hsc.
  destruct (bool_decide (nx c ≠ -1) && bool_decide (clk < nx c)) eqn:Hnow.
  { apply andb_true_iff in Hnow as [_ Hlt%bool_decide_eq_true]. simplify_res.
    split; [by intros [? _]|lia]. }
  assert (nx c ≤ clk) as Hhere.
  { apply andb_false_iff in Hnow as [H1%bool_decide_eq_false|H1%bool_decide_eq_false]; [|lia].
    apply dec_stable in H1. lia. }
  apply bind_Ok in Hc as (j & Hj & Hc).
  destruct (_ && negb _) eqn:Hgo in Hg.
  - apply andb_true_iff in Hgo as [Hlt%Nat.ltb_lt Hne]. rewrite Hj in Hg. simpl in Hg.
    rewrite (bool_decide_false (l = scope c)) in Hc by (intros ->; lia).
    apply negb_true_iff in Hne. rewrite Hne in Hc.
    destruct (decide (0 ≤ j)) as [Hj0|Hj0].
    + rewrite bool_decide_true in Hg by done. rewrite bool_decide_false in Hc by lia. simpl in Hc.
      apply at_child_elem in Hg as (y & Hy & Hg). rewrite (at_child_lookup _ _ _ _ Hy) in Hc.
      rewrite Forall_lookup in IH.
      assert (b = true ∧ Z.max x (nx c) ≤ clk ↔ v ≤ clk) as <-.
      { apply (IH _ y Hy); [by eapply tree_wf_child| |done..].
        rewrite (child_level _ _ _ Hwf Hy). simpl. lia. }
      split; intros [? ?]; split; (done || lia).
    + rewrite bool_decide_false in Hg by done. rewrite bool_decide_true in Hc by lia. simpl in Hc. simplify_res.
      split; [intros [_ ?]|intros ?; split; [done|]]; lia.
  - assert (bool_decide (l = scope c) || bool_decide (ch = []) = true) as Hstop.
    { apply andb_false_iff in Hgo as [Hge%Nat.ltb_ge|Hnil%negb_false_iff].
      - rewrite (bool_decide_true (l = scope c)); [done|]. apply level_int_inj. lia.
      - rewrite Hnil. apply orb_true_r. }
    rewrite <- orb_assoc, Hstop, orb_true_r in Hc. simplify_res.
    split; [intros [_ ?]|intros ?; split; [done|]]; lia.
Qed.

(** [get_next] and [check] agree: on a well-formed tree, from the current
    cycle on, a command passes [check] exactly from the cycle [get_next] names. *)
Theorem get_next_check c addr clk n v b :
  tree_wf n → (level_int (level n) ≤ level_int (scope c))%nat → 0 ≤ clk → cur_clk n ≤ clk →
  get_next c addr n = Ok v → check c addr clk n = Ok b →
  b = true ↔ v ≤ clk.
Proof.
  intros Hwf Hsc Hclk Hcur Hg Hc. rewrite <- (get_next_loop_spec c addr clk _ n v b Hwf Hsc Hclk Hg Hc).
  split; [by intros ->|by intros [? _]].
Qed.

(** ** Totality *)

(** [addr] leads from [n] to a leaf, and has an entry for the row below it. *)
Definition reaches (addr : list Z) (n : Node) : Prop :=
  (level_int Row_level < length addr)%nat ∧
  ∃ p m, node_at n p = Some m ∧ children m = [] ∧
    role_of addr (level_int (level n)) (id n) p = Target.

Lemma reaches_strip addr n n' : strip n = strip n' → reaches addr n → reaches addr n'.
Proof.
  intros E (Hlen & p & m & Hm & Hnil & Hr). split; [done|].
  pose proof (node_at_strip n p) as H1. rewrite E, node_at_strip, Hm in H1.
  destruct (node_at n' p) as [m'|] eqn:Hm'; [|done]. exists p, m'. split; [done|]. split.
  - simpl in H1. injection H1 as H1. destruct m, m'; simpl in *. subst.
    injection H1. intros. destruct children1; [done|discriminate].
  - destruct n, n'; simpl in E |- *. injection E. intros. simpl in *. by subst.
Qed.

Lemma reaches_cases addr n :
  tree_wf n → reaches addr n →
  children n = [] ∨
  ∃ j x, addr !! S (level_int (level n)) = Some (Z.of_nat j) ∧ children n !! j = Some x ∧ reaches addr x.
Proof.
  intros Hwf (Hlen & p & m & Hm & Hnil & Hr). destruct p as [|j p]; simplify_eq/=; [by left|right].
  apply role_target_cons in Hr as [_ Hr]. destruct (children n !! j) as [x|] eqn:Hx; [|done].
  exists j, x. split; [by eapply role_target_head|]. split; [done|]. split; [done|].
  exists p, m. rewrite (child_level _ _ _ Hwf Hx), (ok_ids _ _ (tree_wf_here n Hwf) _ _ Hx). done.
Qed.

Lemma addr_at_total addr k : (k < length addr)%nat → ∃ a, addr_at addr k = Ok a.
Proof. apply vec_at_lt. Qed.

Lemma check_total c addr clk n : tree_wf n → reaches addr n → ∃ b, check c addr clk n = Ok b.
Proof.
  induction n as [l i s rs cc nx pv st ch IH] using Node_ind. intros Hwf Hreach.
  destruct (reaches_cases addr _ Hwf Hreach) as [Hnil|(j & x & Hj & Hx & Hrx)]; simpl.
  - destruct (_ && _); [eauto|]. pose proof (ok_row _ _ (tree_wf_here _ Hwf)). simpl in *.
    destruct Hreach as [Hlen _]. destruct (addr_at_total addr (S (level_int l))) as [a ->]; [lia|]. simpl.
    rewrite Hnil, (bool_decide_true ([] = [])), orb_true_r by done. eauto.
  - simpl in *. destruct (_ && _); [eauto|].
    unfold addr_at, vec_at. rewrite Hj. simpl. destruct (_ || _ || _); [eauto|].
    rewrite Nat2Z.id, (at_child_lookup _ _ _ _ Hx). rewrite Forall_lookup in IH.
    apply (IH _ _ Hx); [|done]. exact (tree_wf_child _ _ _ Hwf Hx).
Qed.

Lemma update_state_total fuel c addr n :
  tree_wf n → reaches addr n → (level_int Row_level ≤ fuel + level_int (level n))%nat →
  ∃ n', update_state fuel c addr n = Ok n'.
Proof.
  revert n. induction fuel as [|fuel IH]; intros n Hwf Hreach Hfuel;
    pose proof (ok_row _ _ (tree_wf_here _ Hwf)); [lia|].
  simpl. destruct (addr_at_total addr (S (level_int (level n)))) as [a Ha];
    [destruct Hreach; lia|]. rewrite Ha. simpl.
  set (n1 := match lambda (level n) c with Some f => f n a | None => n end).
  assert (strip n = strip n1) as E by
    (unfold n1; destruct (lambda (level n) c) eqn:El; [symmetry; by eapply lambda_frame|done]).
  assert (level n1 = level n) as Hl1
    by (clearbody n1; destruct n, n1; simpl in E |- *; by injection E).
  destruct (reaches_cases addr n1) as [Hnil|(j & x & Hj & Hx & Hrx)];
    [by eapply tree_wf_strip|by eapply reaches_strip| |].
  - rewrite Hnil, (bool_decide_true ([] = [])), orb_true_r by done. eauto.
  - destruct (_ || _); [eauto|]. rewrite Hl1 in Hj. unfold addr_at, vec_at in Ha. rewrite Hj in Ha.
    simpl in Ha. injection Ha as <-. unfold child_index. rewrite bool_decide_true by lia. simpl.
    rewrite Nat2Z.id, (upd_child_lookup _ _ _ _ Hx).
    assert (tree_wf n1) as Hwf1 by by eapply tree_wf_strip.
    destruct (IH x) as [x' ->]; [by eapply tree_wf_child|done| |simpl; eauto].
    rewrite (child_level _ _ _ Hwf1 Hx), Hl1. lia.
Qed.

Lemma sibling_loop_total l c clk ts n :
  (∀ t, t ∈ ts → t ∈ timing l c) → ∃ n', foldM ts n (sibling_entry clk) = Ok n'.
Proof.
  intros Hts. destruct (foldM_total (λ _, True) ts n (sibling_entry clk)) as (n' & ? & _); [done| |eauto].
  intros t n1 Ht _. unfold sibling_entry. destruct (sibling t) eqn:Hs; [|eauto].
  rewrite (dist_sibling l c t) by auto. simpl. eauto.
Qed.

Lemma target_loop_total c clk n :
  length (prev n c) = Z.to_nat (max_dist (timing (level n) c)) →
  ∃ n', foldM (timing (level n) c) (push_history c clk n) (target_entry c clk) = Ok n'.
Proof.
  intros Hlen.
  destruct (foldM_total (λ m, prev m = local_prev Target c clk (prev n)) (timing (level n) c)
    (push_history c clk n) (target_entry c clk)) as (n' & ? & _); [| |eauto].
  { by destruct (push_history_fields c clk n) as (_ & _ & _ & _ & ?). }
  intros t m Ht Hm. unfold target_entry. destruct (sibling t) eqn:Hs; [eauto|].
  pose proof (dist_pos _ _ _ Ht). pose proof (max_dist_ge _ t 0 Ht) as Hmax.
  change (foldl _ 0 (timing (level n) c)) with (max_dist (timing (level n) c)) in Hmax.
  unfold child_index. rewrite bool_decide_true by lia. simpl.
  destruct (vec_at_lt (prev m c) (Z.to_nat (dist t - 1))) as [past Hpast].
  { rewrite Hm, local_prev_length, Hlen. lia. }
  rewrite Hpast. simpl. case_bool_decide; [eauto|].
  destruct (is_refreshing c && is_opening (te_cmd t)) eqn:Href; [|eauto].
  apply andb_true_iff in Href as [H1 H2]. pose proof (dist_refresh _ _ _ Ht H1 H2) as Hd.
  assert (past = clk) as ->.
  { apply vec_at_Ok in Hpast. rewrite Hm, Hd in Hpast. unfold local_prev in Hpast.
    destruct (prev n c) as [|y l] eqn:E; [simpl in Hlen; lia|].
    rewrite upd_eq in Hpast. simpl in Hpast. congruence. }
  unfold refresh_stats. rewrite (bool_decide_true (clk = clk)) by done. simpl. eauto.
Qed.

Lemma update_timing_total c addr clk n :
  tree_wf n → (level_int Row_level < length addr)%nat →
  ∃ n', update_timing c addr clk n = Ok n'.
Proof.
  induction n as [l i s rs cc nx pv st ch IH] using Node_ind. intros Hwf Hlen.
  pose proof (ok_row _ _ (tree_wf_here _ Hwf)) as Hrow. pose proof (ok_prev _ _ (tree_wf_here _ Hwf) c) as Hprev.
  simpl in Hrow |- *. destruct (addr_at_total addr (level_int l)) as [a ->]; [lia|]. simpl.
  case_bool_decide.
  - unfold timing_here. apply (sibling_loop_total l c). done.
  - unfold timing_here. destruct (target_loop_total c clk (mkNode l i s rs cc nx pv st ch) Hprev) as [n' Hn'].
    simpl in Hn' |- *. rewrite Hn'. simpl. case_bool_decide; [eauto|].
    destruct (each_child_total (update_timing c addr clk) ch) as [l' ->]; [|simpl; eauto].
    intros x [j Hx]%list_elem_of_lookup. rewrite Forall_lookup in IH. apply (IH _ _ Hx); [|done].
    exact (tree_wf_child _ _ _ Hwf Hx).
Qed.

Lemma update_ok c addr clk n :
  tree_wf n → reaches addr n →
  ∃ n', update c addr clk n = Ok n' ∧ tree_wf n' ∧
    ∀ p, (λ m, (level m, id m)) <$> node_at n' p = (λ m, (level m, id m)) <$> node_at n p.
Proof.
  intros Hwf Hreach.
  assert (tree_wf (set_cur_clk clk n)) as Hwf0.
  { intros [|j q] m Hq; [|apply (Hwf (j :: q)); exact Hq].
    simpl in Hq. injection Hq as <-. destruct (Hwf [] n eq_refl) as [H1 H2 H3 H4].
    split; [exact H1|exact H2|exact H3|exact H4]. }
  assert (reaches addr (set_cur_clk clk n)) as Hr0.
  { destruct Hreach as (Hlen & p & m & Hm & Hnil & Hr). split; [done|].
    destruct p as [|j q]; [|by exists (j :: q), m].
    exists [], (set_cur_clk clk n). simpl in Hm. injection Hm as ->. done. }
  unfold update. destruct (update_state_total (level_int Row_level) c addr (set_cur_clk clk n))
    as [n1 Hn1]; [done|done|lia|]. pose proof (update_state_strip _ _ _ _ _ Hn1) as Hs.
  destruct (update_timing_total c addr clk n1) as [n' Hn'];
    [by eapply tree_wf_strip|by destruct Hreach|].
  assert (update c addr clk n = Ok n') as Hu by (unfold update; rewrite Hn1; exact Hn').
  exists n'. rewrite Hn1. split; [exact Hn'|]. split; [by eapply update_wf|].
  intros p. by destruct (update_at c addr clk n n' p Hwf Hu) as [a b (E1 & E2 & _)|]; simpl; rewrite ?E1, ?E2.
Qed.

(** On a well-formed tree and an address that leads to a leaf, [check] answers,
    [update] fails neither an assertion nor a bound, and the tree stays well
    formed with the same levels and identifiers. *)
Theorem update_total c addr clk n :
  tree_wf n → reaches addr n →
  (∃ b, check c addr clk n = Ok b) ∧
  ∃ n', update c addr clk n = Ok n' ∧ tree_wf n' ∧
    ∀ p, (λ m, (level m, id m)) <$> node_at n' p = (λ m, (level m, id m)) <$> node_at n p.
Proof. intros Hwf Hreach. split; [by apply check_total|by apply update_ok]. Qed.

(** ** The constructor *)
Lemma node_at_set_id i n p :
  node_at (set_id i n) p = match p with [] => Some (set_id i n) | _ :: _ => node_at n p end.
Proof. by destruct p. Qed.

Lemma fresh_node n :
  (level_int (level n) < level_int Row_level)%nat →
  (∀ c, next n c = -1) →
  (∀ c, prev n c = replicate (Z.to_nat (max_dist (timing (level n) c))) (-1)) →
  (∀ j x, children n !! j = Some x →
     ∃ x0, x = set_id (Z.of_nat j) x0 ∧ fresh x0 ∧ level_int (level x0) = S (level_int (level n))) →
  fresh n.
Proof.
  intros Hrow Hnext Hprev Hch. split.
  - intros [|j q] m Hm; simpl in Hm.
    + simplify_eq. split; [simpl; lia|simpl; lia| |].
      * intros c. by rewrite Hprev, length_replicate.
      * intros j x Hx. apply Hch in Hx as (x0 & -> & _). done.
    + destruct (children n !! j) as [x|] eqn:Hx; [|done].
      apply Hch in Hx as (x0 & -> & [Hwf _] & Hl).
      assert (node_ok (level_int (level x0) + length q) m) as Hok.
      { rewrite node_at_set_id in Hm. destruct q as [|j' q]; [|by apply Hwf].
        simplify_eq. destruct (Hwf [] x0 eq_refl) as [H1 H2 H3 H4].
        split; [exact H1|exact H2|exact H3|exact H4]. }
      rewrite Hl in Hok. simpl. by replace (level_int (level n) + S (length q))%nat
        with (S (level_int (level n)) + length q)%nat by lia.
  - intros [|j q] m Hm; simpl in Hm; [by simplify_eq|].
    destruct (children n !! j) as [x|] eqn:Hx; [|done].
    apply Hch in Hx as (x0 & -> & [_ Hf] & _). rewrite node_at_set_id in Hm.
    destruct q; [|by apply (Hf _ m Hm)]. simplify_eq. apply (Hf [] x0 eq_refl).
Qed.

Lemma DRAM_ctor_ok fuel l :
  (∀ k, (k < level_int Row_level)%nat → is_Some (level_of k)) →
  (level_int l < level_int Row_level)%nat → (level_int Row_level ≤ fuel + S (level_int l))%nat →
  ∃ n, DRAM_ctor fuel l = Ok n ∧ fresh n ∧ level n = l ∧ id n = 0.
Proof.
  intros Hlv. revert l. induction fuel as [|fuel IH]; intros l Hl Hfuel; simpl.
  - rewrite bool_decide_true by lia. eexists. split; [done|]. split; [|done].
    by apply fresh_node.
  - case_bool_decide as Hc.
    { eexists. split; [done|]. split; [|done]. by apply fresh_node. }
    destruct (Hlv (S (level_int l))) as [cl Hcl]; [lia|]. rewrite Hcl.
    apply level_int_of in Hcl. case_bool_decide.
    { eexists. split; [done|]. split; [|done]. by apply fresh_node. }
    destruct (IH cl) as (c & -> & Hfc & Hlc & _); [lia|lia|]. simpl.
    eexists. split; [done|]. split; [|done]. apply fresh_node; [done..|].
    intros j x Hx. simpl in Hx. apply list_lookup_fmap_Some in Hx as (i & -> & Hi).
    apply lookup_seq in Hi as [-> _]. exists c. split; [done|]. split; [done|]. by rewrite Hlc.
Qed.

(** The constructor terminates, within the fuel of the levels above the rows,
    and builds a fresh well-formed tree. *)
Theorem DRAM_ctor_fresh fuel l :
  (∀ k, (k < level_int Row_level)%nat → is_Some (level_of k)) →
  (level_int l < level_int Row_level)%nat → (level_int Row_level ≤ fuel + S (level_int l))%nat →
  ∃ n, DRAM_ctor fuel l = Ok n ∧ fresh n ∧ level n = l ∧ id n = 0.
Proof. apply DRAM_ctor_ok. Qed.
End runs.

(** ** Tables written as one list

    A standard lists its entries as [timing[l][c1].push_back({c2, dist, val, sibling})]
    calls, in their order. *)
Section tables.
Context {ST : Standard}.

Definition timing_table : Type := list (Level * Command * TimingEntry).

Definition entries_of (tab : timing_table) (l : Level) (c : Command) : list TimingEntry :=
  snd <$> filter (λ x, x.1 = (l, c)) tab.

Lemma entries_of_elem tab l c te : te ∈ entries_of tab l c ↔ (l, c, te) ∈ tab.
Proof.
  unfold entries_of. rewrite list_elem_of_fmap. split.
  - intros ([k te'] & -> & [<- ?]%list_elem_of_filter). done.
  - intros Hin. exists (l, c, te). split; [done|]. by apply list_elem_of_filter.
Qed.

(** What the laws say of one entry. *)
Definition entry_ok (refreshing : Command → bool) (x : Level * Command * TimingEntry) : bool :=
  let '(l, c, te) := x in
  ((dist te =? 1) || (dist te =? 4) && negb (sibling te) && negb (refreshing c))%bool.

Lemma entries_of_ok refreshing tab l c te :
  forallb (entry_ok refreshing) tab = true → te ∈ entries_of tab l c →
  dist te = 1 ∨ dist te = 4 ∧ sibling te = false ∧ refreshing c = false.
Proof.
  rewrite forallb_forall. intros Hall Hin%entries_of_elem%list_elem_of_In%Hall. unfold entry_ok in Hin.
  destruct (Z.eqb_spec (dist te) 1), (Z.eqb_spec (dist te) 4), (sibling te), (refreshing c); simpl in Hin; auto; done.
Qed.

Lemma laws_of_table {SP : Spec} (tab : timing_table) :
  (∀ l c, timing l c = entries_of tab l c) → forallb (entry_ok is_refreshing) tab = true →
  (∀ l c f n i, lambda l c = Some f → strip (f n i) = strip n) → SpecLaws.
Proof.
  intros Htab Hok Hframe.
  assert (∀ l c te, te ∈ timing l c → dist te = 1 ∨ dist te = 4 ∧ sibling te = false ∧ is_refreshing c = false) as Hall.
  { intros l c te. rewrite Htab. by apply entries_of_ok. }
  split; [exact Hframe|..]; intros l c te Hin; destruct (Hall l c te Hin) as [E|(E & E1 & E2)]; rewrite ?E; lia || congruence.
Qed.

Lemma strip_set_state {SP : Spec} s rs n : strip (set_state s rs n) = strip n.
Proof. by destruct n. Qed.

Lemma strip_set_children {SP : Spec} (g : Node → Node) n :
  (∀ x, strip (g x) = strip x) → strip (set_children (g <$> children n) n) = strip n.
Proof.
  intros Hg. destruct n as [nl ni ns nrs nc nx pv st ch]; simpl. f_equal.
  rewrite <- list_fmap_compose. apply list_fmap_ext. intros j x _. apply Hg.
Qed.
End tables.
