(* ===== verification/DDR3.v ===== *)
(** * The DDR3 standard

    [ramulator::DDR3] (src/dram/DDR3.h, src/dram/DDR3.cpp): the enumerations, the
    organisation and speed tables, and the tables of prerequisites, row hits,
    state transitions and timing that instantiate the device tree.

    Main results: the tables satisfy the laws of [DRAM.SpecLaws], so every theorem
    on the tree holds for DDR3; [init_speed] fails for no organisation and speed of
    the tables; all timing distances and values are positive; and, since the
    array [scope] has two initialisers fewer than there are commands, an activate
    [ACT] changes no bank's state and no bank constraint of it is checked. *)
From Stdlib Require Import QArith.
From S2P Require Import Prelude DRAM.
#[local] Open Scope Z_scope.

Module DDR3.

(** ** Enumerations *)
Inductive Level := Channel | Rank | Bank | Row | Column.
Inductive Command := ACT_R | ACT_W | ACT | PRE | PREA | RD | WR | RDA | WRA | REF | PDE | PDX | SRE | SRX.
Inductive State := Opened | Closed | PowerUp | ActPowerDown | PrePowerDown | SelfRefresh | State_MAX.

#[export] Instance Level_eq_dec : EqDecision Level.
Proof. solve_decision. Defined.
#[export] Instance Command_eq_dec : EqDecision Command.
Proof. solve_decision. Defined.
#[export] Instance State_eq_dec : EqDecision State.
Proof. solve_decision. Defined.

Definition levels : list Level := [Channel; Rank; Bank; Row; Column].
Definition commands : list Command :=
  [ACT_R; ACT_W; ACT; PRE; PREA; RD; WR; RDA; WRA; REF; PDE; PDX; SRE; SRX].

Definition Level_int (l : Level) : nat :=
  match l with Channel => 0 | Rank => 1 | Bank => 2 | Row => 3 | Column => 4 end.
Definition Command_int (c : Command) : nat :=
  match c with
  | ACT_R => 0 | ACT_W => 1 | ACT => 2 | PRE => 3 | PREA => 4 | RD => 5 | WR => 6 | RDA => 7
  | WRA => 8 | REF => 9 | PDE => 10 | PDX => 11 | SRE => 12 | SRX => 13
  end.

#[export] Program Instance standard : Standard := {|
  DRAM.Level := Level; DRAM.Command := Command; DRAM.State := State;
  level_int := Level_int; level_of := λ n, levels !! n; Row_level := Row; Bank_level := Bank |}.
Next Obligation. by intros []. Qed.
Next Obligation. intros n l Hl. by do 5 (destruct n as [|n]; [by simplify_eq/=|]). Qed.

(** The initialisers of [scope] in the source. *)
Definition scope_initialisers : list Level :=
  [Row; Bank; Rank; Column; Column; Column; Column; Rank; Rank; Rank; Rank; Rank].

(** An entry without an initialiser is [Level(0)]. *)
Definition scope (c : Command) : Level :=
  match scope_initialisers !! Command_int c with Some l => l | None => Channel end.

Definition is_opening (c : Command) : bool :=
  match c with ACT | ACT_R | ACT_W => true | _ => false end.
Definition is_accessing (c : Command) : bool :=
  match c with RD | WR | RDA | WRA => true | _ => false end.
Definition is_closing (c : Command) : bool :=
  match c with RDA | WRA | PRE | PREA => true | _ => false end.
Definition is_refreshing (c : Command) : bool := match c with REF => true | _ => false end.

Definition start (l : Level) : State :=
  match l with Channel => State_MAX | Rank => PowerUp | Bank => Closed | Row => Closed | Column => State_MAX end.

(** ** Organisation *)
Inductive Org := DDR3_512Mb_x4 | DDR3_512Mb_x8 | DDR3_512Mb_x16 | DDR3_1Gb_x4 | DDR3_1Gb_x8 | DDR3_1Gb_x16 | DDR3_2Gb_x4 | DDR3_2Gb_x8 | DDR3_2Gb_x16 | DDR3_4Gb_x4 | DDR3_4Gb_x8 | DDR3_4Gb_x16 | DDR3_8Gb_x4 | DDR3_8Gb_x8 | DDR3_8Gb_x16.

Record OrgEntry := mkOrg { org_size : Z; org_dq : Z; org_count : list Z }.

Definition org_table (o : Org) : OrgEntry :=
  match o with
  | DDR3_512Mb_x4 => mkOrg 512 4 [0; 0; 8; 2 ^ 13; 2 ^ 11]
  | DDR3_512Mb_x8 => mkOrg 512 8 [0; 0; 8; 2 ^ 13; 2 ^ 10]
  | DDR3_512Mb_x16 => mkOrg 512 16 [0; 0; 8; 2 ^ 12; 2 ^ 10]
  | DDR3_1Gb_x4 => mkOrg 1024 4 [0; 0; 8; 2 ^ 14; 2 ^ 11]
  | DDR3_1Gb_x8 => mkOrg 1024 8 [0; 0; 8; 2 ^ 14; 2 ^ 10]
  | DDR3_1Gb_x16 => mkOrg 1024 16 [0; 0; 8; 2 ^ 13; 2 ^ 10]
  | DDR3_2Gb_x4 => mkOrg 2048 4 [0; 0; 8; 2 ^ 15; 2 ^ 11]
  | DDR3_2Gb_x8 => mkOrg 2048 8 [0; 0; 8; 2 ^ 15; 2 ^ 10]
  | DDR3_2Gb_x16 => mkOrg 2048 16 [0; 0; 8; 2 ^ 14; 2 ^ 10]
  | DDR3_4Gb_x4 => mkOrg 4096 4 [0; 0; 8; 2 ^ 16; 2 ^ 11]
  | DDR3_4Gb_x8 => mkOrg 4096 8 [0; 0; 8; 2 ^ 16; 2 ^ 10]
  | DDR3_4Gb_x16 => mkOrg 4096 16 [0; 0; 8; 2 ^ 15; 2 ^ 10]
  | DDR3_8Gb_x4 => mkOrg 8192 4 [0; 0; 8; 2 ^ 16; 2 ^ 12]
  | DDR3_8Gb_x8 => mkOrg 8192 8 [0; 0; 8; 2 ^ 16; 2 ^ 11]
  | DDR3_8Gb_x16 => mkOrg 8192 16 [0; 0; 8; 2 ^ 16; 2 ^ 10]
  end.

(** [org_entry.count[int(l)]]: the array has an entry per level. *)
Definition org_count_at (o : OrgEntry) (l : Level) : Z := default 0 (org_count o !! Level_int l).
Definition set_rank_number (ranks : Z) (o : OrgEntry) : OrgEntry :=
  mkOrg (org_size o) (org_dq o) (<[1%nat := ranks]> (org_count o)).
Definition set_channel_number (n : Z) (o : OrgEntry) : OrgEntry :=
  mkOrg (org_size o) (org_dq o) (<[0%nat := n]> (org_count o)).

(** ** Speed

    [freq] and [tCK] are the exact quotients of the doubles in the source. *)
Inductive Speed :=
| DDR3_800D
| DDR3_800E
| DDR3_1066E
| DDR3_1066F
| DDR3_1066G
| DDR3_1333G
| DDR3_1333H
| DDR3_1600H
| DDR3_1600J
| DDR3_1600K
| DDR3_1866K
| DDR3_1866L
| DDR3_2133L
| DDR3_2133M.

Record SpeedEntry := mkSpeed {
  rate : Z; freq : Q; tCK : Q;
  nBL : Z; nCCD : Z; nRTRS : Z;
  nCL : Z; nRCD : Z; nRP : Z; nCWL : Z;
  nRAS : Z; nRC : Z;
  nRTP : Z; nWTR : Z; nWR : Z;
  nRRD : Z; nFAW : Z;
  nRFC : Z; nREFI : Z;
  nPD : Z; nXP : Z; nXPDLL : Z;
  nCKESR : Z; nXS : Z; nXSDLL : Z;
}.

Definition speed_table (s : Speed) : SpeedEntry :=
  match s with
  | DDR3_800D => mkSpeed 800 (400 / 3 * 3)%Q (3 / (4 # 10) / 3)%Q 4 4 2 5 5 5 5 15 20 4 4 6 0 0 0 3120 3 3 10 4 0 512
  | DDR3_800E => mkSpeed 800 (400 / 3 * 3)%Q (3 / (4 # 10) / 3)%Q 4 4 2 6 6 6 5 15 21 4 4 6 0 0 0 3120 3 3 10 4 0 512
  | DDR3_1066E => mkSpeed 1066 (400 / 3 * 4)%Q (3 / (4 # 10) / 4)%Q 4 4 2 6 6 6 6 20 26 4 4 8 0 0 0 4160 3 4 13 4 0 512
  | DDR3_1066F => mkSpeed 1066 (400 / 3 * 4)%Q (3 / (4 # 10) / 4)%Q 4 4 2 7 7 7 6 20 27 4 4 8 0 0 0 4160 3 4 13 4 0 512
  | DDR3_1066G => mkSpeed 1066 (400 / 3 * 4)%Q (3 / (4 # 10) / 4)%Q 4 4 2 8 8 8 6 20 28 4 4 8 0 0 0 4160 3 4 13 4 0 512
  | DDR3_1333G => mkSpeed 1333 (400 / 3 * 5)%Q (3 / (4 # 10) / 5)%Q 4 4 2 8 8 8 7 24 32 5 5 10 0 0 0 5200 4 4 16 5 0 512
  | DDR3_1333H => mkSpeed 1333 (400 / 3 * 5)%Q (3 / (4 # 10) / 5)%Q 4 4 2 9 9 9 7 24 33 5 5 10 0 0 0 5200 4 4 16 5 0 512
  | DDR3_1600H => mkSpeed 1600 (400 / 3 * 6)%Q (3 / (4 # 10) / 6)%Q 4 4 2 9 9 9 8 28 37 6 6 12 0 0 0 6240 4 5 20 5 0 512
  | DDR3_1600J => mkSpeed 1600 (400 / 3 * 6)%Q (3 / (4 # 10) / 6)%Q 4 4 2 10 10 10 8 28 38 6 6 12 0 0 0 6240 4 5 20 5 0 512
  | DDR3_1600K => mkSpeed 1600 (400 / 3 * 6)%Q (3 / (4 # 10) / 6)%Q 4 4 2 11 11 11 8 28 39 6 6 12 0 0 0 6240 4 5 20 5 0 512
  | DDR3_1866K => mkSpeed 1866 (400 / 3 * 7)%Q (3 / (4 # 10) / 7)%Q 4 4 2 11 11 11 9 32 43 7 7 14 0 0 0 7280 5 6 23 6 0 512
  | DDR3_1866L => mkSpeed 1866 (400 / 3 * 7)%Q (3 / (4 # 10) / 7)%Q 4 4 2 12 12 12 9 32 44 7 7 14 0 0 0 7280 5 6 23 6 0 512
  | DDR3_2133L => mkSpeed 2133 (400 / 3 * 8)%Q (3 / (4 # 10) / 8)%Q 4 4 2 12 12 12 10 36 48 8 8 16 0 0 0 8320 6 7 26 7 0 512
  | DDR3_2133M => mkSpeed 2133 (400 / 3 * 8)%Q (3 / (4 # 10) / 8)%Q 4 4 2 13 13 13 10 36 49 8 8 16 0 0 0 8320 6 7 26 7 0 512
  end.

Definition by_chip (chip a b c d e : Z) : Z :=
  if chip =? 512 then a else if chip =? 2 ^ 10 then b else if chip =? 2 ^ 11 then c
  else if chip =? 2 ^ 12 then d else e.

(** The three [switch]es of [init_speed]; another rate fails an assertion. *)
Definition RRD_FAW (rate page : Z) : res (Z * Z) :=
  if rate =? 800 then Ok (if page =? 1 then (4, 16) else (4, 20)) else
  if rate =? 1066 then Ok (if page =? 1 then (4, 20) else (6, 27)) else
  if rate =? 1333 then Ok (if page =? 1 then (4, 20) else (5, 30)) else
  if rate =? 1600 then Ok (if page =? 1 then (5, 24) else (6, 32)) else
  if rate =? 1866 then Ok (if page =? 1 then (5, 26) else (6, 33)) else
  if rate =? 2133 then Ok (if page =? 1 then (5, 27) else (6, 34)) else
  Err Abort.

Definition RFC (rate chip : Z) : res Z :=
  if rate =? 800 then Ok (by_chip chip 36 44 64 104 140) else
  if rate =? 1066 then Ok (by_chip chip 48 59 86 139 187) else
  if rate =? 1333 then Ok (by_chip chip 60 74 107 174 234) else
  if rate =? 1600 then Ok (by_chip chip 72 88 128 208 280) else
  if rate =? 1866 then Ok (by_chip chip 84 103 150 243 327) else
  if rate =? 2133 then Ok (by_chip chip 96 118 171 278 374) else
  Err Abort.

Definition XS (rate chip : Z) : res Z :=
  if rate =? 800 then Ok (by_chip chip 40 48 68 108 144) else
  if rate =? 1066 then Ok (by_chip chip 54 64 91 144 192) else
  if rate =? 1333 then Ok (by_chip chip 67 80 114 180 240) else
  if rate =? 1600 then Ok (by_chip chip 80 96 136 216 288) else
  if rate =? 1866 then Ok (by_chip chip 94 112 159 252 336) else
  if rate =? 2133 then Ok (by_chip chip 107 128 182 288 384) else
  Err Abort.

Definition init_speed (o : OrgEntry) (s : SpeedEntry) : res SpeedEntry :=
  let page := Z.shiftr (org_dq o * org_count_at o Column) 13 in
  rf ← RRD_FAW (rate s) page;
  rfc ← RFC (rate s) (org_size o);
  xs ← XS (rate s) (org_size o);
  Ok (mkSpeed (rate s) (freq s) (tCK s) (nBL s) (nCCD s) (nRTRS s) (nCL s) (nRCD s) (nRP s) (nCWL s)
        (nRAS s) (nRC s) (nRTP s) (nWTR s) (nWR s) rf.1 rf.2 rfc (nREFI s) (nPD s) (nXP s)
        (nXPDLL s) (nCKESR s) xs (nXSDLL s)).

(** ** Tables of the device tree *)

(** [prereq]: the answer [None] is [Command::MAX]. *)
Definition prereq_rank_CAS (node : Node) (cmd : Command) (id : Z) : res (option Command) :=
  match state node with
  | PowerUp => Ok None
  | ActPowerDown | PrePowerDown => Ok (Some PDX)
  | SelfRefresh => Ok (Some SRX)
  | _ => Err Abort
  end.
Definition prereq_bank_CAS (node : Node) (cmd : Command) (id : Z) : res (option Command) :=
  match state node with
  | Closed => Ok (Some ACT)
  | Opened => match row_state node !! id with Some _ => Ok (Some cmd) | None => Ok (Some PRE) end
  | _ => Err Abort
  end.
Definition all_closed (node : Node) : bool :=
  forallb (λ b : Node, bool_decide (state b = Closed)) (children node).
Definition prereq_REF (node : Node) (cmd : Command) (id : Z) : res (option Command) :=
  Ok (Some (if all_closed node then REF else PREA)).
Definition prereq_PDE (node : Node) (cmd : Command) (id : Z) : res (option Command) :=
  match state node with
  | PowerUp | ActPowerDown | PrePowerDown => Ok (Some PDE)
  | SelfRefresh => Ok (Some SRX)
  | _ => Err Abort
  end.
Definition prereq_SRE (node : Node) (cmd : Command) (id : Z) : res (option Command) :=
  match state node with
  | PowerUp | SelfRefresh => Ok (Some SRE)
  | ActPowerDown | PrePowerDown => Ok (Some PDX)
  | _ => Err Abort
  end.

Definition prereq (l : Level) (c : Command) : option (Node → Command → Z → res (option Command)) :=
  match l, c with
  | Rank, RD | Rank, WR => Some prereq_rank_CAS
  | Bank, RD | Bank, WR => Some prereq_bank_CAS
  | Rank, REF => Some prereq_REF
  | Rank, PDE => Some prereq_PDE
  | Rank, SRE => Some prereq_SRE
  | _, _ => None
  end.

Definition rowhit_bank (node : Node) (cmd : Command) (id : Z) : res bool :=
  match state node with
  | Closed => Ok false
  | Opened => Ok (bool_decide (is_Some (row_state node !! id)))
  | _ => Err Abort
  end.
Definition rowhit (l : Level) (c : Command) : option (Node → Command → Z → res bool) :=
  match l, c with Bank, RD | Bank, WR => Some rowhit_bank | _, _ => None end.

Definition rowopen_bank (node : Node) (cmd : Command) (id : Z) : res bool :=
  match state node with Closed => Ok false | Opened => Ok true | _ => Err Abort end.
Definition rowopen (l : Level) (c : Command) : option (Node → Command → Z → res bool) :=
  match l, c with Bank, RD | Bank, WR => Some rowopen_bank | _, _ => None end.

Definition close_bank (node : Node) : Node := set_state Closed ∅ node.
Definition open_row (node : Node) (id : Z) : Node :=
  set_state Opened (<[id := Opened]> (row_state node)) node.

Definition lambda (l : Level) (c : Command) : option (Node → Z → Node) :=
  match l, c with
  | Bank, ACT | Bank, ACT_R | Bank, ACT_W => Some open_row
  | Bank, PRE | Bank, RDA | Bank, WRA => Some (λ node _, close_bank node)
  | Rank, PREA => Some (λ node _, set_children (close_bank <$> children node) node)
  | Rank, REF | Bank, RD | Bank, WR => Some (λ node _, node)
  | Rank, PDE =>
      Some (λ node _, set_state (if all_closed node then PrePowerDown else ActPowerDown) (row_state node) node)
  | Rank, PDX | Rank, SRX => Some (λ node _, set_state PowerUp (row_state node) node)
  | Rank, SRE => Some (λ node _, set_state SelfRefresh (row_state node) node)
  | _, _ => None
  end.

(** The calls of [init_timing], in their order:
    [timing[l][c1].push_back({c2, dist, val, sibling})]. *)
Definition e (l : Level) (c1 c2 : Command) (d v : Z) (sib : bool) : Level * Command * TimingEntry :=
  (l, c1, mkEntry c2 d v sib).

Definition timing_channel (s : SpeedEntry) : list (Level * Command * TimingEntry) := [
  (* CAS <-> CAS *)
  e Channel RD RD 1 (nBL s) false;
  e Channel RD RDA 1 (nBL s) false;
  e Channel RDA RD 1 (nBL s) false;
  e Channel RDA RDA 1 (nBL s) false;
  e Channel WR WR 1 (nBL s) false;
  e Channel WR WRA 1 (nBL s) false;
  e Channel WRA WR 1 (nBL s) false;
  e Channel WRA WRA 1 (nBL s) false
].

Definition timing_rank (s : SpeedEntry) : list (Level * Command * TimingEntry) := [
  (* CAS <-> CAS *)
  e Rank RD RD 1 (nCCD s) false;
  e Rank RD RDA 1 (nCCD s) false;
  e Rank RDA RD 1 (nCCD s) false;
  e Rank RDA RDA 1 (nCCD s) false;
  e Rank WR WR 1 (nCCD s) false;
  e Rank WR WRA 1 (nCCD s) false;
  e Rank WRA WR 1 (nCCD s) false;
  e Rank WRA WRA 1 (nCCD s) false;
  e Rank RD WR 1 (nCL s + nCCD s + 2 - nCWL s) false;
  e Rank RD WRA 1 (nCL s + nCCD s + 2 - nCWL s) false;
  e Rank RDA WR 1 (nCL s + nCCD s + 2 - nCWL s) false;
  e Rank RDA WRA 1 (nCL s + nCCD s + 2 - nCWL s) false;
  e Rank WR RD 1 (nCWL s + nBL s + nWTR s) false;
  e Rank WR RDA 1 (nCWL s + nBL s + nWTR s) false;
  e Rank WRA RD 1 (nCWL s + nBL s + nWTR s) false;
  e Rank WRA RDA 1 (nCWL s + nBL s + nWTR s) false;
  (* CAS <-> CAS (between sibling ranks) *)
  e Rank RD RD 1 (nBL s + nRTRS s) true;
  e Rank RD RDA 1 (nBL s + nRTRS s) true;
  e Rank RDA RD 1 (nBL s + nRTRS s) true;
  e Rank RDA RDA 1 (nBL s + nRTRS s) true;
  e Rank RD WR 1 (nBL s + nRTRS s) true;
  e Rank RD WRA 1 (nBL s + nRTRS s) true;
  e Rank RDA WR 1 (nBL s + nRTRS s) true;
  e Rank RDA WRA 1 (nBL s + nRTRS s) true;
  e Rank RD WR 1 (nCL s + nBL s + nRTRS s - nCWL s) true;
  e Rank RD WRA 1 (nCL s + nBL s + nRTRS s - nCWL s) true;
  e Rank RDA WR 1 (nCL s + nBL s + nRTRS s - nCWL s) true;
  e Rank RDA WRA 1 (nCL s + nBL s + nRTRS s - nCWL s) true;
  e Rank WR RD 1 (nCWL s + nBL s + nRTRS s - nCL s) true;
  e Rank WR RDA 1 (nCWL s + nBL s + nRTRS s - nCL s) true;
  e Rank WRA RD 1 (nCWL s + nBL s + nRTRS s - nCL s) true;
  e Rank WRA RDA 1 (nCWL s + nBL s + nRTRS s - nCL s) true;
  e Rank RD PREA 1 (nRTP s) false;
  e Rank WR PREA 1 (nCWL s + nBL s + nWR s) false;
  (* CAS <-> PD *)
  e Rank RD PDE 1 (nCL s + nBL s + 1) false;
  e Rank RDA PDE 1 (nCL s + nBL s + 1) false;
  e Rank WR PDE 1 (nCWL s + nBL s + nWR s) false;
  e Rank WRA PDE 1 (nCWL s + nBL s + nWR s + 1) false;
  e Rank PDX RD 1 (nXP s) false;
  e Rank PDX RDA 1 (nXP s) false;
  e Rank PDX WR 1 (nXP s) false;
  e Rank PDX WRA 1 (nXP s) false;
  (* CAS <-> SR: none (all banks have to be precharged) *)
  (* RAS <-> RAS *)
  e Rank ACT ACT 1 (nRRD s) false;
  e Rank ACT ACT 4 (nFAW s) false;
  e Rank ACT PREA 1 (nRAS s) false;
  e Rank PREA ACT 1 (nRP s) false;
  e Rank ACT_R ACT_R 1 (nRRD s) false;
  e Rank ACT_W ACT_W 1 (nRRD s) false;
  e Rank ACT_R ACT_W 1 (nRRD s) false;
  e Rank ACT_W ACT_R 1 (nRRD s) false;
  e Rank ACT_R ACT_W 4 (nFAW s) false;
  e Rank ACT_R ACT_R 4 (nFAW s) false;
  e Rank ACT_W ACT_W 4 (nFAW s) false;
  e Rank ACT_W ACT_R 4 (nFAW s) false;
  e Rank ACT_R PREA 1 (nRAS s) false;
  e Rank ACT_W PREA 1 (nRAS s) false;
  e Rank PREA ACT_R 1 (nRP s) false;
  e Rank PREA ACT_W 1 (nRP s) false;
  (* RAS <-> REF *)
  e Rank PRE REF 1 (nRP s) false;
  e Rank PREA REF 1 (nRP s) false;
  e Rank REF ACT 1 (nRFC s) false;
  e Rank REF ACT_R 1 (nRFC s) false;
  e Rank REF ACT_W 1 (nRFC s) false;
  (* RAS <-> PD *)
  e Rank ACT_R PDE 1 (1) false;
  e Rank ACT_W PDE 1 (1) false;
  e Rank PDX ACT_R 1 (nXP s) false;
  e Rank PDX ACT_W 1 (nXP s) false;
  e Rank ACT PDE 1 (1) false;
  e Rank PDX ACT 1 (nXP s) false;
  e Rank PDX PRE 1 (nXP s) false;
  e Rank PDX PREA 1 (nXP s) false;
  (* RAS <-> SR *)
  e Rank PRE SRE 1 (nRP s) false;
  e Rank PREA SRE 1 (nRP s) false;
  e Rank SRX ACT 1 (nXS s) false;
  e Rank SRX ACT_R 1 (nXS s) false;
  e Rank SRX ACT_W 1 (nXS s) false;
  (* REF <-> REF *)
  e Rank REF REF 1 (nRFC s) false;
  (* REF <-> PD *)
  e Rank REF PDE 1 (1) false;
  e Rank PDX REF 1 (nXP s) false;
  (* REF <-> SR *)
  e Rank SRX REF 1 (nXS s) false;
  (* PD <-> PD *)
  e Rank PDE PDX 1 (nPD s) false;
  e Rank PDX PDE 1 (nXP s) false;
  (* PD <-> SR *)
  e Rank PDX SRE 1 (nXP s) false;
  e Rank SRX PDE 1 (nXS s) false;
  (* SR <-> SR *)
  e Rank SRE SRX 1 (nCKESR s) false;
  e Rank SRX SRE 1 (nXS s) false
].

Definition timing_bank (s : SpeedEntry) : list (Level * Command * TimingEntry) := [
  (* CAS <-> RAS *)
  e Bank ACT RD 1 (nRCD s) false;
  e Bank ACT RDA 1 (nRCD s) false;
  e Bank ACT WR 1 (nRCD s) false;
  e Bank ACT WRA 1 (nRCD s) false;
  e Bank ACT_R RD 1 (nRCD s) false;
  e Bank ACT_W RD 1 (nRCD s) false;
  e Bank ACT_R RDA 1 (nRCD s) false;
  e Bank ACT_W RDA 1 (nRCD s) false;
  e Bank ACT_R WR 1 (nRCD s) false;
  e Bank ACT_W WR 1 (nRCD s) false;
  e Bank ACT_R WRA 1 (nRCD s) false;
  e Bank ACT_W WRA 1 (nRCD s) false;
  e Bank RD PRE 1 (nRTP s) false;
  e Bank WR PRE 1 (nCWL s + nBL s + nWR s) false;
  e Bank RDA ACT_R 1 (nRTP s + nRP s) false;
  e Bank RDA ACT_W 1 (nRTP s + nRP s) false;
  e Bank WRA ACT_R 1 (nCWL s + nBL s + nWR s + nRP s) false;
  e Bank WRA ACT_W 1 (nCWL s + nBL s + nWR s + nRP s) false;
  e Bank RD PRE 1 (nRTP s) false;
  e Bank WR PRE 1 (nCWL s + nBL s + nWR s) false;
  e Bank RDA ACT 1 (nRTP s + nRP s) false;
  e Bank WRA ACT 1 (nCWL s + nBL s + nWR s + nRP s) false;
  (* RAS <-> RAS *)
  e Bank ACT ACT 1 (nRC s) false;
  e Bank ACT PRE 1 (nRAS s) false;
  e Bank PRE ACT 1 (nRP s) false;
  e Bank ACT_R ACT_R 1 (nRC s) false;
  e Bank ACT_R ACT_W 1 (nRC s) false;
  e Bank ACT_W ACT_W 1 (nRC s) false;
  e Bank ACT_W ACT_R 1 (nRC s) false;
  e Bank ACT_R PRE 1 (nRAS s) false;
  e Bank ACT_W PRE 1 (nRAS s) false;
  e Bank PRE ACT_R 1 (nRP s) false;
  e Bank PRE ACT_W 1 (nRP s) false
].

Definition init_timing (s : SpeedEntry) : list (Level * Command * TimingEntry) :=
  timing_channel s ++ timing_rank s ++ timing_bank s.

Definition timing (s : SpeedEntry) (l : Level) (c : Command) : list TimingEntry :=
  entries_of (init_timing s) l c.

(** The object [DDR3]: its organisation and speed after the constructor. *)
Record t := mkDDR3 { org_entry : OrgEntry; speed_entry : SpeedEntry }.

Definition ctor (o : Org) (s : Speed) : res t :=
  se ← init_speed (org_table o) (speed_table s); Ok (mkDDR3 (org_table o) se).

Definition read_latency (s : Speed) : Z := nCL (speed_table s) + nBL (speed_table s).

Definition spec (d : t) : Spec := {|
  DRAM.start := start; DRAM.scope := scope; DRAM.timing := timing (speed_entry d);
  DRAM.lambda := lambda; DRAM.prereq := prereq; DRAM.rowhit := rowhit; DRAM.rowopen := rowopen;
  DRAM.count := org_count_at (org_entry d);
  DRAM.is_opening := is_opening; DRAM.is_refreshing := is_refreshing |}.

(** ** The laws of the tables *)
Lemma timing_elem s l c te : te ∈ timing s l c ↔ (l, c, te) ∈ init_timing s.
Proof. exact (@entries_of_elem standard _ l c te). Qed.

(** The shape of the entries does not depend on the speed. *)
Lemma entries_ok s : forallb (entry_ok is_refreshing) (init_timing s) = true.
Proof. reflexivity. Qed.

#[export] Instance laws (d : t) : @SpecLaws standard (spec d).
Proof.
  apply (@laws_of_table standard (spec d) (init_timing (speed_entry d))); [done|apply entries_ok|].
  intros l c f n i Hf. destruct l, c; simpl in Hf; try done; injection Hf as <-;
    try done; try apply strip_set_state. by apply strip_set_children, strip_set_state.
Qed.

(** ** The speed tables *)

(** What the timing tables need of a speed: positive parameters that are not huge, a row cycle that
    is an active time and a precharge, a window that four activates fill, and
    turn-around times that are positive. *)
Definition speed_ok (s : SpeedEntry) : bool :=
  forallb (λ x, (0 <? x) && (x <? 10000))
    [nBL s; nCCD s; nRTRS s; nCL s; nRCD s; nRP s; nCWL s; nRAS s; nRC s; nRTP s; nWTR s; nWR s;
     nRRD s; nFAW s; nRFC s; nREFI s; nPD s; nXP s; nCKESR s; nXS s]
  && (nRC s =? nRAS s + nRP s) && (4 * nRRD s <=? nFAW s) && (nRFC s <? nXS s) && (nXS s <? nREFI s)
  && (nCWL s <=? nCL s) && (nCL s <? nCWL s + nBL s + nRTRS s) && (nBL s =? nCCD s)
  && (nBL s =? 4).

Lemma ctor_ok_all o s : ∃ d, ctor o s = Ok d ∧ speed_ok (speed_entry d) = true ∧ org_entry d = org_table o.
Proof. destruct o, s; eexists; (split; [vm_compute; reflexivity|]); split; reflexivity. Qed.

(** For every organisation and speed of the tables the constructor returns
    (no assertion of [init_speed] fails) and the parameters make sense together. *)
Theorem ctor_ok o s : ∃ d, ctor o s = Ok d ∧ speed_ok (speed_entry d) = true ∧ org_entry d = org_table o.
Proof. apply ctor_ok_all. Qed.

(** The values of an entry are sums of parameters: positive when the speed is
    sensible. *)
Lemma entries_positive s :
  speed_ok s = true → Forall (λ x : Level * Command * TimingEntry, 0 < val x.2) (init_timing s).
Proof.
  intros Hok. unfold speed_ok in Hok. simpl in Hok.
  rewrite !andb_true_iff, !Z.ltb_lt, !Z.leb_le, !Z.eqb_eq in Hok.
  unfold init_timing, timing_channel, timing_rank, timing_bank. simpl.
  repeat (apply Forall_cons; split; [simpl; lia|]). by apply Forall_nil.
Qed.

(** Every timing constraint of DDR3 is a positive delay after the last or the
    fourth last command. *)
Theorem timing_positive o s d l c te :
  ctor o s = Ok d → te ∈ timing (speed_entry d) l c →
  0 < val te ∧ (dist te = 1 ∨ dist te = 4).
Proof.
  intros Hd Hin. destruct (ctor_ok_all o s) as (d' & Hd' & Hok & _). simplify_eq.
  rewrite Hd in Hd'. injection Hd' as <-. split.
  - apply timing_elem in Hin. pose proof (entries_positive _ Hok) as Hall.
    rewrite Forall_forall in Hall. by apply (Hall (l, c, te)).
  - destruct (@entries_of_ok standard is_refreshing _ l c te (entries_ok _) Hin) as [?|[? _]]; auto.
Qed.

(** ** Activates *)

Lemma scope_values :
  scope <$> commands =
  [Row; Bank; Rank; Column; Column; Column; Column; Rank; Rank; Rank; Rank; Rank; Channel; Channel].
Proof. reflexivity. Qed.

Lemma upd_child_id (f : Node → res Node) l i l' :
  (∀ x x', f x = Ok x' → x' = x) → upd_child f l i = Ok l' → l' = l.
Proof.
  intros Hf. revert i l'. induction l as [|x l IH]; intros [|i] l' Hu; simpl in Hu; simplify_res.
  - f_equal. by apply Hf.
  - f_equal. by eapply IH.
Qed.

Lemma set_children_id (n : Node) : set_children (children n) n = n.
Proof. by destruct n. Qed.

Section activates.
Context (d : t).
#[local] Instance this_spec : Spec := spec d.

(** C39. The state transition of [ACT] is registered at the level of banks, but the
    scope of [ACT] is the rank: sent from the channel or the rank, [ACT] changes
    the state of no node, and in particular opens no bank. *)
Theorem ACT_changes_no_state fuel addr n n' :
  level n = Channel ∨ level n = Rank →
  (∀ x, x ∈ children n → level n = Channel → level x = Rank) →
  update_state fuel ACT addr n = Ok n' → n' = n.
Proof.
  assert (∀ fuel x x', level x = Rank → update_state fuel ACT addr x = Ok x' → x' = x) as Hrank.
  { clear. intros fuel x x' Hl Hu. destruct fuel; simpl in Hu; rewrite Hl in Hu; simpl in Hu;
      apply bind_Ok in Hu as (i & _ & Hu); rewrite bool_decide_true in Hu by done; simpl in Hu; by injection Hu as <-. }
  intros [Hl|Hl] Hch Hu; [|by eapply Hrank].
  destruct fuel as [|fuel]; simpl in Hu; rewrite Hl in Hu; simpl in Hu;
    apply bind_Ok in Hu as (i & _ & Hu); rewrite (bool_decide_false (level n = scope ACT)) in Hu by (by rewrite Hl); simpl in Hu.
  - case_bool_decide; by simplify_res.
  - case_bool_decide; [by simplify_res|].
    apply bind_Ok in Hu as (j & _ & Hu). apply bind_Ok in Hu as (l & Hu & H2). simplify_res.
    rewrite <- (set_children_id n) at 2. f_equal.
    clear - Hrank Hch Hl Hu. revert j l Hu Hch. generalize (children n) as L.
    induction L as [|x L IH]; intros [|j] l Hu Hch; simpl in Hu; simplify_res.
    + f_equal. eapply Hrank; [|done]. apply Hch; [left|done].
    + f_equal. eapply IH; [done|]. intros y Hy. apply Hch. by right.
Qed.

Lemma nRCD_entry s c1 c2 :
  is_opening c1 = true → is_accessing c2 = true → mkEntry c2 1 (nRCD s) false ∈ timing s Bank c1.
Proof. destruct c1, c2; try done; intros _ _; apply list_elem_of_In; simpl; tauto. Qed.

Lemma nFAW_entry s : mkEntry ACT 4 (nFAW s) false ∈ timing s Rank ACT.
Proof. apply list_elem_of_In; simpl; tauto. Qed.

(** A read or a write to a bank keeps [nRCD] from every earlier activate of the
    bank, of any of the three kinds. *)
Theorem access_after_activate root es1 c1 a1 t1 es2 c2 a2 t2 n p m :
  fresh root → level root = Channel →
  run root (es1 ++ (c1, a1, t1) :: es2 ++ [(c2, a2, t2)]) n →
  is_opening c1 = true → c2 = RD ∨ c2 = WR →
  checked c2 a2 root p m → level m = Bank → role_of a1 0 (id root) p = Target →
  t1 + nRCD (speed_entry d) ≤ t2.
Proof.
  intros Hf Hl Hrun H1 H2 Hck Hlm Hr.
  eapply (@timing_ok standard this_spec (laws d) root es1 c1 a1 t1 es2 c2 a2 t2 n p m (@mkEntry standard c2 1 (nRCD (speed_entry d)) false));
    [done|done| |done| |done| |].
  - rewrite Hl. simpl. lia.
  - rewrite Hlm. apply nRCD_entry; [done|]. by destruct H2 as [-> | ->].
  - by rewrite Hl.
  - intros _. simpl. lia.
Qed.

(** C31. The four-activate window: of any five commands [ACT] of one rank in a checked
    history, the last comes at least [nFAW] cycles after the first. The history is kept by
    command, so windows in which [ACT_R] or [ACT_W] take part are not bounded by this. *)
Theorem four_activate_window root es1 a1 t1 es2 a2 t2 n p m :
  fresh root → level root = Channel →
  run root (es1 ++ (ACT, a1, t1) :: es2 ++ [(ACT, a2, t2)]) n →
  checked ACT a2 root p m → level m = Rank → role_of a1 0 (id root) p = Target →
  (3 ≤ length (times Target 0 (id root) p es2 ACT))%nat →
  t1 + nFAW (speed_entry d) ≤ t2.
Proof.
  intros Hf Hl Hrun Hck Hlm Hr H3.
  eapply (@timing_ok standard this_spec (laws d) root es1 ACT a1 t1 es2 ACT a2 t2 n p m (@mkEntry standard ACT 4 (nFAW (speed_entry d)) false));
    [done|done| |done| |done| |].
  - rewrite Hl. simpl. lia.
  - rewrite Hlm. apply nFAW_entry.
  - by rewrite Hl.
  - intros _. rewrite Hl. simpl. lia.
Qed.
End activates.

(** ** A run on a concrete device *)
Definition wit_ddr3 : t :=
  mkDDR3 (set_rank_number 1 (org_table DDR3_2Gb_x8))
    (match init_speed (org_table DDR3_2Gb_x8) (speed_table DDR3_1600K) with
     | Ok s => s | Err _ => speed_table DDR3_1600K end).
#[local] Instance wit_spec : Spec := spec wit_ddr3.

Definition wit_node (l : Level) : Node := @new_node standard wit_spec l.

(** A channel with one rank of eight banks. *)
Definition wit_root : Node :=
  match @DRAM_ctor standard wit_spec 3 Channel with Ok n => n | Err _ => wit_node Channel end.

(** [issue] checks and updates, for witnesses. *)
Definition issue (c : Command) (addr : list Z) (clk : Z) (n : Node) : Node :=
  match @update standard wit_spec c addr clk n with Ok n' => n' | Err _ => n end.

Lemma run_issue root es n c addr clk :
  run root es n → 0 ≤ clk → check c addr clk n = Ok true → is_Ok (update c addr clk n) = true →
  run root (es ++ [(c, addr, clk)]) (issue c addr clk n).
Proof.
  intros Hrun Hclk Hck Hu. eapply run_snoc; [done..|]. unfold issue.
  by destruct (update c addr clk n).
Qed.

Lemma wit_fresh : fresh wit_root.
Proof.
  destruct (@DRAM_ctor_ok standard wit_spec 3 Channel) as (n & Hn & Hf & _).
  - intros k Hk. simpl in Hk. destruct k as [|[|[|k]]]; [eexists; reflexivity..|lia].
  - simpl; lia.
  - simpl; lia.
  - unfold wit_root. by rewrite Hn.
Qed.

Definition wit_run1 : Node := issue ACT [0; 0; 3; 5; 0] 10 wit_root.
Definition wit_run2 : Node := issue RD [0; 0; 3; 5; 0] 21 wit_run1.

Lemma wit_runs : run wit_root [(ACT, [0; 0; 3; 5; 0], 10); (RD, [0; 0; 3; 5; 0], 21)] wit_run2.
Proof.
  apply (run_issue wit_root [(ACT, [0; 0; 3; 5; 0], 10)]);
    [apply (run_issue wit_root []); [apply run_nil|lia|vm_compute; reflexivity..]|lia|vm_compute; reflexivity..].
Qed.

Lemma ACT_nRC_unchecked_entry :
  mkEntry ACT 1 39 false ∈ timing (speed_entry wit_ddr3) Bank ACT.
Proof. apply list_elem_of_In; simpl; tauto. Qed.

(** The row cycle [nRC] of a bank is not checked for [ACT]: on a DDR3-1600K
    device [check] lets two activates of one bank pass six cycles apart, with
    [nRC] 39, although the table of the bank has the entry. *)
Theorem ACT_nRC_unchecked :
  nRC (speed_entry wit_ddr3) = 39 ∧
  mkEntry ACT 1 39 false ∈ timing (speed_entry wit_ddr3) Bank ACT ∧
  ∃ n, run wit_root [(ACT, [0; 0; 3; 5; 0], 10); (ACT, [0; 0; 3; 9; 0], 16)] n.
Proof.
  split; [reflexivity|]. split; [apply list_elem_of_In; simpl; tauto|].
  exists (issue ACT [0; 0; 3; 9; 0] 16 wit_run1).
  apply (run_issue wit_root [(ACT, [0; 0; 3; 5; 0], 10)]);
    [apply (run_issue wit_root []); [apply run_nil|lia|vm_compute; reflexivity..]|lia|vm_compute; reflexivity..].
Qed.

(** ** Witnesses *)
Definition wit_at (p : list nat) : Node :=
  match node_at wit_root p with Some m => m | None => wit_root end.

Definition has_node (p : list nat) : bool :=
  match node_at wit_root p with Some _ => true | None => false end.

Lemma wit_at_eq p : has_node p = true → node_at wit_root p = Some (wit_at p).
Proof. unfold has_node, wit_at. by destruct (node_at wit_root p). Qed.

Lemma wit_checked (c : Command) (p : list nat) (addr : list Z) :
  has_node p = true → role_of addr (level_int (level wit_root)) (id wit_root) p = Target →
  (level_int (level (wit_at p)) ≤ level_int (DRAM.scope c))%nat →
  checked c addr wit_root p (wit_at p).
Proof. intros Hm ? ?. split; [by apply wit_at_eq|done]. Qed.

Lemma DRAM_ctor_fresh_witness :
  ∃ n, @DRAM_ctor standard wit_spec 3 Channel = Ok n ∧ fresh n ∧ level n = Channel ∧ id n = 0.
Proof.
  apply (@DRAM_ctor_fresh standard wit_spec 3 Channel).
  - intros k Hk. simpl in Hk. destruct k as [|[|[|k]]]; [eexists; reflexivity..|lia].
  - simpl; lia.
  - simpl; lia.
Defined.

Lemma wit_run_ACT : run wit_root [(ACT, [0; 0; 3; 5; 0], 10)] wit_run1.
Proof. apply (run_issue wit_root []); [apply run_nil|lia|vm_compute; reflexivity..]. Qed.

Lemma check_exact_witness :
  false = true ↔
  ∀ p m v, checked RD [0; 0; 3; 5; 0] wit_root p m →
    bound (level m) (times Target 0 0 p [(ACT, [0; 0; 3; 5; 0], 10)])
                    (times Sibling 0 0 p [(ACT, [0; 0; 3; 5; 0], 10)]) RD v →
    v ≤ 20.
Proof.
  apply (@check_exact standard wit_spec (laws wit_ddr3) wit_root [(ACT, [0; 0; 3; 5; 0], 10)] wit_run1 RD
    [0; 0; 3; 5; 0] 20 false);
    [apply wit_fresh|apply wit_run_ACT|lia|simpl; lia|reflexivity|vm_compute; reflexivity].
Defined.

Lemma timing_safe_witness : 10 + 11 ≤ 21.
Proof.
  refine (@timing_safe standard wit_spec (laws wit_ddr3) wit_root [] ACT [0; 0; 3; 5; 0] 10 [] RD
    [0; 0; 3; 5; 0] 21 wit_run2 [0%nat; 3%nat] (wit_at [0%nat; 3%nat]) (@mkEntry standard RD 1 11 false)
    wit_fresh wit_runs _ _ _ _ _ _).
  - simpl; lia.
  - apply wit_checked; [vm_compute; reflexivity|vm_compute; reflexivity|vm_compute; lia].
  - exact (nRCD_entry (speed_entry wit_ddr3) ACT RD eq_refl eq_refl).
  - reflexivity.
  - reflexivity.
  - intros _. simpl. lia.
Defined.

Lemma get_next_check_witness : true = true ↔ 21 ≤ 21.
Proof.
  refine (@get_next_check standard wit_spec RD [0; 0; 3; 5; 0] 21 wit_run1 21 true _ _ _ _ _ _).
  - destruct (@run_inv standard wit_spec (laws wit_ddr3) wit_root wit_fresh _ _ wit_run_ACT) as [H _]. exact H.
  - vm_compute. lia.
  - lia.
  - vm_compute. discriminate.
  - vm_compute. reflexivity.
  - vm_compute. reflexivity.
Defined.

Lemma update_total_witness :
  (∃ b, @check standard wit_spec REF [0; 0; 3; 5; 0] 7 wit_root = Ok b) ∧
  ∃ n', @update standard wit_spec REF [0; 0; 3; 5; 0] 7 wit_root = Ok n' ∧ @tree_wf standard wit_spec n' ∧
    ∀ p, (λ m : Node, (level m, id m)) <$> node_at n' p = (λ m : Node, (level m, id m)) <$> node_at wit_root p.
Proof.
  apply (@update_total standard wit_spec (laws wit_ddr3)); [apply wit_fresh|].
  split; [simpl; lia|]. exists [0%nat; 3%nat], (wit_at [0%nat; 3%nat]).
  split; [apply wit_at_eq; vm_compute; reflexivity|]. split; [vm_compute; reflexivity|vm_compute; reflexivity].
Defined.

Lemma timing_positive_witness : 0 < 11 ∧ (1 = 1 ∨ 1 = 4).
Proof.
  exact (timing_positive DDR3_2Gb_x8 DDR3_1600K
    (mkDDR3 (org_table DDR3_2Gb_x8) (speed_entry wit_ddr3)) Bank ACT (@mkEntry standard RD 1 11 false)
    ltac:(vm_compute; reflexivity) (nRCD_entry (speed_entry wit_ddr3) ACT RD eq_refl eq_refl)).
Defined.

Lemma ACT_changes_no_state_witness :
  ∃ n', @update_state standard wit_spec 3 ACT [0; 0; 3; 5; 0] wit_root = Ok n' ∧ n' = wit_root.
Proof.
  destruct (@update_state standard wit_spec 3 ACT [0; 0; 3; 5; 0] wit_root) as [n'|] eqn:Hu.
  - exists n'. split; [reflexivity|].
    apply (ACT_changes_no_state wit_ddr3 3 [0; 0; 3; 5; 0] wit_root n').
    + left. vm_compute. reflexivity.
    + intros x Hx _.
      assert (forallb (λ x : Node, bool_decide (level x = Rank)) (children wit_root) = true) as Hall
        by (vm_compute; reflexivity).
      rewrite forallb_forall in Hall. apply list_elem_of_In, Hall in Hx.
      apply bool_decide_eq_true in Hx. exact Hx.
    + exact Hu.
  - exfalso. assert (is_Ok (@update_state standard wit_spec 3 ACT [0; 0; 3; 5; 0] wit_root) = true) as H
      by (vm_compute; reflexivity).
    rewrite Hu in H. discriminate H.
Defined.

Lemma access_after_activate_witness : 10 + 11 ≤ 21.
Proof.
  refine (access_after_activate wit_ddr3 wit_root [] ACT [0; 0; 3; 5; 0] 10 [] RD [0; 0; 3; 5; 0] 21 wit_run2
    [0%nat; 3%nat] (wit_at [0%nat; 3%nat]) wit_fresh _ wit_runs eq_refl (or_introl eq_refl) _ _ _).
  - vm_compute. reflexivity.
  - apply wit_checked; [vm_compute; reflexivity|vm_compute; reflexivity|vm_compute; lia].
  - vm_compute. reflexivity.
  - reflexivity.
Defined.

(** Five activates of five banks of the rank. *)
Definition wit_acts : list event :=
  (λ x : Z * Z, (ACT : DRAM.Command, [0; 0; x.1; 5; 0], x.2)) <$> [(0, 10); (1, 15); (2, 20); (3, 25); (4, 34)].
Definition wit_acts_node : Node :=
  foldl (λ n (ev : event), issue ev.1.1 ev.1.2 ev.2 n) wit_root wit_acts.

Lemma wit_acts_run : run wit_root wit_acts wit_acts_node.
Proof.
  change wit_acts with (((((([] : list event) ++ [(ACT : DRAM.Command, [0; 0; 0; 5; 0], 10)])
    ++ [(ACT : DRAM.Command, [0; 0; 1; 5; 0], 15)]) ++ [(ACT : DRAM.Command, [0; 0; 2; 5; 0], 20)])
    ++ [(ACT : DRAM.Command, [0; 0; 3; 5; 0], 25)]) ++ [(ACT : DRAM.Command, [0; 0; 4; 5; 0], 34)]).
  unfold wit_acts_node. simpl foldl.
  repeat (apply run_issue; [|lia|vm_compute; reflexivity|vm_compute; reflexivity]). apply run_nil.
Qed.

Lemma four_activate_window_witness : 10 + 24 ≤ 34.
Proof.
  refine (four_activate_window wit_ddr3 wit_root [] [0; 0; 0; 5; 0] 10
    ((λ x : Z * Z, (ACT : DRAM.Command, [0; 0; x.1; 5; 0], x.2)) <$> [(1, 15); (2, 20); (3, 25)])
    [0; 0; 4; 5; 0] 34 wit_acts_node [0%nat] (wit_at [0%nat]) wit_fresh _ wit_acts_run _ _ _ _).
  - vm_compute. reflexivity.
  - apply wit_checked; [vm_compute; reflexivity|vm_compute; reflexivity|vm_compute; lia].
  - vm_compute. reflexivity.
  - reflexivity.
  - vm_compute. lia.
Defined.

End DDR3.
