(* ===== verification/Device.v ===== *)
(** * The memory device

    [MemoryDevice] (src/src/MemoryDevice.cpp, MemoryDevice.h) and its subclasses,
    the wrappers around the device tree the controller and the command schedulers
    talk to. A device keeps the read data that travel back, with a counter each, and
    the posted commands that wait for their activate. The subclasses
    [Ramulator_DDR3<T>], [Ramulator_DDR4<T>] and [Ramulator_DSARP<T>] are copies of
    one text that differ in what the class [Ramulator] has: the constraints, the
    delays between commands and the two conversions. The instance for DDR3
    (src/src/Ramulator_DDR3.h) is here, the others are in DDR4.v and DSARP.v.

    The class [MemoryDevice] is what the command schedulers use of a device.

    Main results: every read is answered, in order, exactly [tRL + tBus] updates
    after the device received it; and for every bank constraint that leads to an
    activate and that the tree does not check, [command_timing] gives the
    schedulers a delay at least as long. *)
From Stdlib Require Import QArith Qround.
From stdpp Require Import sorting.
From S2P Require Import Prelude Types DRAM DDR3.
#[local] Open Scope Z_scope.

(** A [float] that holds a nonnegative number, converted to [unsigned]. *)
Definition float_u32 (q : Q) : Z := u32 (Qfloor q).

(** What the schedulers use of a device. *)
Class MemoryDevice (Dev : Type) := {
  get_constraints : string → Dev → Q;
  command_timing : BusPacket → nat → Dev → Z;
  command_check : BusPacket → Dev → res bool;
  receiveFromBus : BusPacket → Dev → res Dev;
  update_device : Dev → res (option BusPacket * Dev);
  get_DataBus : Dev → Z;
  get_Rank : Dev → Z;
  get_BankGroup : Dev → Z;
  get_Bank : Dev → Z;
  get_Row : Dev → Z;
  get_Column : Dev → Z;
  (** The answers about timing do not depend on what was received. *)
  receive_timing p d d' : receiveFromBus p d = Ok d' →
    (∀ c t, command_timing c t d' = command_timing c t d) ∧
    (∀ s, get_constraints s d' = get_constraints s d);
  update_device_timing d o d' : update_device d = Ok (o, d') →
    (∀ c t, command_timing c t d' = command_timing c t d) ∧
    (∀ s, get_constraints s d' = get_constraints s d);
  (** Write data change nothing. *)
  receive_data p d : busPacketType p = DATA → postCommand p = false → receiveFromBus p d = Ok d;
  (** Delays are [unsigned]. *)
  command_timing_range c t d : 0 ≤ command_timing c t d < 2 ^ 32;
}.

(** What a subclass knows of its standard [T], besides the tables of the tree. *)
Class Ramulator (T : Type) := {
  rm_standard : Standard;
  rm_spec : T → @Spec rm_standard;
  rm_laws s : @SpecLaws rm_standard (rm_spec s);
  Channel_level : @Level rm_standard;
  Rank_level : @Level rm_standard;
  Column_level : @Level rm_standard;
  Channel_level_int : @level_int rm_standard Channel_level = 0%nat;
  set_rank_number : Z → T → T;
  rm_dq : T → Z;
  (** [get_constraints] and [command_timing] on the enumerators. *)
  constraints : string → T → Q;
  delay : T → BusPacketType → BusPacketType → Z;
  (** The conversions to the commands and addresses of the tree. *)
  convert_cmd : BusPacketType → res (@Command rm_standard);
  convert_addr : BusPacket → list Z;
  convert_cmd_DATA : is_Ok (convert_cmd DATA) = false;
}.

(** An [unsigned] that becomes an [int]. *)
Definition i32 (z : Z) : Z := if bool_decide (u32 z < 2 ^ 31) then u32 z else u32 z - 2 ^ 32.

Section device.
Context {T : Type} {R : Ramulator T}.
#[local] Existing Instance rm_standard.

Record RamulatorDevice := mkDevice {
  dev_spec : T;
  clockCycle : Z;
  ranks : Z;
  bankGroups : Z;
  banks : Z;
  subArrays : Z;
  rows : Z;
  columns : Z;
  dataBusWidth : Z;
  dataCycles : list Z;
  pendingReadData : list BusPacket;
  postBuffer : list BusPacket;
  postCounter : list Z;
  channel : Node;
}.

Definition set_read (cycles : list Z) (data : list BusPacket) (d : RamulatorDevice) : RamulatorDevice :=
  mkDevice (dev_spec d) (clockCycle d) (ranks d) (bankGroups d) (banks d) (subArrays d) (rows d)
    (columns d) (dataBusWidth d) cycles data (postBuffer d) (postCounter d) (channel d).
Definition set_posted (buf : list BusPacket) (cnt : list Z) (d : RamulatorDevice) : RamulatorDevice :=
  mkDevice (dev_spec d) (clockCycle d) (ranks d) (bankGroups d) (banks d) (subArrays d) (rows d)
    (columns d) (dataBusWidth d) (dataCycles d) (pendingReadData d) buf cnt (channel d).
Definition set_channel (n : Node) (d : RamulatorDevice) : RamulatorDevice :=
  mkDevice (dev_spec d) (clockCycle d) (ranks d) (bankGroups d) (banks d) (subArrays d) (rows d)
    (columns d) (dataBusWidth d) (dataCycles d) (pendingReadData d) (postBuffer d) (postCounter d) n.
Definition set_clockCycle (n : Z) (d : RamulatorDevice) : RamulatorDevice :=
  mkDevice (dev_spec d) n (ranks d) (bankGroups d) (banks d) (subArrays d) (rows d)
    (columns d) (dataBusWidth d) (dataCycles d) (pendingReadData d) (postBuffer d) (postCounter d)
    (channel d).

(** The constructor sets the ranks of the specification and builds the tree. Bank
    groups lie between ranks and banks, subarrays between banks and rows: without
    such a level the number keeps the 1 of the base class. *)
Definition count_above (s : T) (l : Level) : Z :=
  match level_of (level_int l - 1) with Some l => @count _ (rm_spec s) l | None => 1 end.
Definition Ramulator_ctor (s : T) (ranks : Z) : res RamulatorDevice :=
  let s := set_rank_number ranks s in
  c ← @DRAM_ctor _ (rm_spec s) (level_int Row_level) Channel_level;
  Ok (mkDevice s 0 ranks
        (if bool_decide (level_int Bank_level = S (level_int Rank_level)) then 1 else u32 (count_above s Bank_level))
        (u32 (@count _ (rm_spec s) Bank_level))
        (if bool_decide (level_int Row_level = S (level_int Bank_level)) then 1 else u32 (count_above s Row_level))
        (u64 (@count _ (rm_spec s) Row_level)) (u64 (@count _ (rm_spec s) Column_level))
        (u32 (rm_dq s)) [] [] [] [] c).

Definition Device_DataBus (d : RamulatorDevice) : Z := u32 (dataBusWidth d * 8).

Definition Ramulator_get_constraints (parameter : string) (d : RamulatorDevice) : Q := constraints parameter (dev_spec d).

(** [command_timing(command, type)], converted to [unsigned]; a number that is no
    enumerator falls into the [default] of every [switch]. *)
Definition Ramulator_command_timing (command : BusPacket) (type : nat) (d : RamulatorDevice) : Z :=
  u32 (delay (dev_spec d) (busPacketType command) (default DATA (bpt_of type))).

Definition Ramulator_command_check (c : BusPacket) (d : RamulatorDevice) : res bool :=
  if postCommand c then Ok true
  else
    cmd ← convert_cmd (busPacketType c);
    @check _ (rm_spec (dev_spec d)) cmd (convert_addr c) (clockCycle d) (channel d).

(** [command_timing(command)]: the cycles until the tree allows it. *)
Definition Ramulator_next (c : BusPacket) (d : RamulatorDevice) : res Z :=
  cmd ← convert_cmd (busPacketType c);
  v ← @get_next _ (rm_spec (dev_spec d)) cmd (convert_addr c) (channel d);
  Ok (v - clockCycle d).

(** [generateData]; [updateDataArray] is empty. *)
Definition generateData (c : BusPacket) (d : RamulatorDevice) : RamulatorDevice :=
  match busPacketType c with
  | RD | RDA =>
      set_read
        (dataCycles d ++ [float_u32 (Ramulator_get_constraints "tRL"%string d + Ramulator_get_constraints "tBus"%string d)])
        (pendingReadData d ++
           [new_BusPacket DATA (bp_requestorID c) (bp_address c) 0 0 0 0 0 (bp_data c) (bp_arriveTime c)]) d
  | _ => d
  end.

Definition Ramulator_receiveFromBus (c : BusPacket) (d : RamulatorDevice) : res RamulatorDevice :=
  if postCommand c then
    Ok (set_posted
          (postBuffer d ++ [new_BusPacket (busPacketType c) (bp_requestorID c) (bp_address c) (bp_column c)
             (bp_row c) (bp_bank c) 0 (bp_subArray c) (bp_data c) (bp_arriveTime c)])
          (postCounter d ++ [Qfloor (Ramulator_get_constraints "tRCD"%string d)]) d)
  else
    d ← (if bool_decide (busPacketType c = DATA) then Ok d
         else
           cmd ← convert_cmd (busPacketType c);
           n ← @update _ (rm_spec (dev_spec d)) cmd (convert_addr c) (clockCycle d) (channel d);
           Ok (set_channel n d));
    Ok (generateData c d).

Definition countdown (l : list Z) : list Z := (λ x, if bool_decide (0 < x) then x - 1 else x) <$> l.

(** The read half of [MemoryDevice::update]: the packet handed to
    [memoryController->receiveData], if any. *)
Definition update_reads (d : RamulatorDevice) : res (option BusPacket * RamulatorDevice) :=
  match pendingReadData d with
  | [] => Ok (None, d)
  | p :: ps =>
      match countdown (dataCycles d) with
      | [] => Err Undefined
      | c :: cs =>
          if bool_decide (c = 0) then Ok (Some p, set_read cs ps d)
          else Ok (None, set_read (c :: cs) (p :: ps) d)
      end
  end.

(** The half of the posted commands: the first one whose counter has run out is
    sent to the tree. *)
Definition update_posted (d : RamulatorDevice) : res RamulatorDevice :=
  match postBuffer d with
  | [] => Ok d
  | p :: _ =>
      let cs := countdown (postCounter d) in
      c ← vec_front cs;
      let d := set_posted (postBuffer d) cs d in
      if bool_decide (c = 0) then
        d ← Ramulator_receiveFromBus p d;
        Ok (set_posted (tail (postBuffer d)) (tail (postCounter d)) d)
      else Ok d
  end.

Definition device_update (d : RamulatorDevice) : res (option BusPacket * RamulatorDevice) :=
  od ← update_reads d;
  d ← update_posted od.2;
  Ok (od.1, set_clockCycle (u32 (clockCycle d + 1)) d).

(** ** What an operation leaves alone *)
Lemma generateData_spec c d : dev_spec (generateData c d) = dev_spec d ∧
  postBuffer (generateData c d) = postBuffer d ∧ clockCycle (generateData c d) = clockCycle d.
Proof. unfold generateData. by destruct (busPacketType c). Qed.

(** What [receiveFromBus] does to the members other than the tree. *)
Lemma receive_cases c d d' :
  Ramulator_receiveFromBus c d = Ok d' →
  dev_spec d' = dev_spec d ∧ clockCycle d' = clockCycle d ∧
  if postCommand c then
    dataCycles d' = dataCycles d ∧ pendingReadData d' = pendingReadData d ∧
    length (postBuffer d') = S (length (postBuffer d))
  else
    postBuffer d' = postBuffer d ∧ postCounter d' = postCounter d ∧
    dataCycles d' = dataCycles (generateData c d) ∧ pendingReadData d' = pendingReadData (generateData c d).
Proof.
  unfold Ramulator_receiveFromBus. intros Hd. destruct (postCommand c).
  { injection Hd as <-. simpl. rewrite length_app. simpl. split_and!; try done. lia. }
  apply bind_Ok in Hd as (d1 & Hd1 & Hd). injection Hd as <-.
  assert (d1 = d ∨ ∃ n, d1 = set_channel n d) as [->|[n ->]].
  { case_bool_decide; [left; by simplify_res|right].
    apply bind_Ok in Hd1 as (cmd & _ & Hd1). apply bind_Ok in Hd1 as (n & _ & Hd1). simplify_res. eauto. }
  - destruct (generateData_spec c d) as (-> & -> & ->). unfold generateData.
    by destruct (busPacketType c).
  - unfold generateData. by destruct (busPacketType c).
Qed.

Lemma update_reads_frame d o d' :
  update_reads d = Ok (o, d') →
  channel d' = channel d ∧ dev_spec d' = dev_spec d ∧ postBuffer d' = postBuffer d ∧ clockCycle d' = clockCycle d.
Proof.
  unfold update_reads. destruct (pendingReadData d); [by intros [= <- <-]|].
  destruct (countdown (dataCycles d)); [done|]. case_bool_decide; by intros [= <- <-].
Qed.

Lemma device_update_spec d o d' : device_update d = Ok (o, d') → dev_spec d' = dev_spec d.
Proof.
  intros Hu. unfold device_update in Hu. apply bind_Ok in Hu as ([o1 d1] & H1 & Hu).
  apply update_reads_frame in H1 as (_ & E1 & _). apply bind_Ok in Hu as (d2 & H2 & Hu).
  injection Hu as _ <-. simpl in *. rewrite <- E1. unfold update_posted in H2.
  destruct (postBuffer d1) as [|p ps] eqn:Ep; [by injection H2 as <-|].
  apply bind_Ok in H2 as (c & _ & H2). case_bool_decide; [|by injection H2 as <-].
  apply bind_Ok in H2 as (d3 & H3 & H2). injection H2 as <-. apply receive_cases in H3 as [E3 _]. exact E3.
Qed.

#[export] Program Instance Ramulator_device : MemoryDevice RamulatorDevice := {|
  get_constraints := Ramulator_get_constraints;
  command_timing := Ramulator_command_timing;
  command_check := Ramulator_command_check;
  receiveFromBus := Ramulator_receiveFromBus;
  update_device := device_update;
  get_DataBus := Device_DataBus; get_Rank := ranks; get_BankGroup := bankGroups;
  get_Bank := banks; get_Row := rows; get_Column := columns |}.
Next Obligation.
  intros p d d' Hd. apply receive_cases in Hd as (Hs & _).
  unfold Ramulator_command_timing, Ramulator_get_constraints. by rewrite Hs.
Qed.
Next Obligation.
  intros d o d' Hd%device_update_spec. unfold Ramulator_command_timing, Ramulator_get_constraints. by rewrite Hd.
Qed.
Next Obligation.
  intros p d Ht Hp. unfold Ramulator_receiveFromBus. rewrite Hp, bool_decide_true by done. simpl.
  unfold generateData. by rewrite Ht.
Qed.
Next Obligation. intros. apply u32_range. Qed.

(** ** Reads are answered in time *)

(** What the outside does to a device: a packet on the bus, or the next cycle. *)
Inductive dev_op := Bus (p : BusPacket) | Tick.

(** A run, with the packets delivered and the number of the update that
    delivered them; [n] updates were made before. *)
Fixpoint run_dev (ops : list dev_op) (n : Z) (d : RamulatorDevice) : res (list (Z * BusPacket) * RamulatorDevice) :=
  match ops with
  | [] => Ok ([], d)
  | Bus p :: ops => d ← Ramulator_receiveFromBus p d; run_dev ops n d
  | Tick :: ops =>
      od ← device_update d;
      r ← run_dev ops (n + 1) od.2;
      Ok (match od.1 with Some p => [(n + 1, p)] | None => [] end ++ r.1, r.2)
  end.

Definition reply (p : BusPacket) : BusPacket :=
  new_BusPacket DATA (bp_requestorID p) (bp_address p) 0 0 0 0 0 (bp_data p) (bp_arriveTime p).

Definition latency (d : RamulatorDevice) : Z :=
  float_u32 (Ramulator_get_constraints "tRL"%string d + Ramulator_get_constraints "tBus"%string d).

(** The specification: a read seen after [n] updates is answered by update
    [n + L]. *)
Fixpoint answers (L : Z) (ops : list dev_op) (n : Z) : list (Z * BusPacket) :=
  match ops with
  | [] => []
  | Bus p :: ops => (if is_read (busPacketType p) then [(n + L, reply p)] else []) ++ answers L ops n
  | Tick :: ops => answers L ops (n + 1)
  end.

Definition ticks (ops : list dev_op) : Z :=
  foldr (λ o k, match o with Tick => k + 1 | Bus _ => k end) 0 ops.

(** No command is posted, and no two reads come in one cycle, as the command bus
    carries one command per cycle; [busy] says that one came already. *)
Fixpoint one_read (busy : bool) (ops : list dev_op) : bool :=
  match ops with
  | [] => true
  | Bus p :: ops =>
      negb (postCommand p) &&
      (if is_read (busPacketType p) then negb busy && one_read true ops else one_read busy ops)
  | Tick :: ops => one_read false ops
  end.

(** The reads in flight after [n] updates: due updates and packets. *)
Record in_flight (L n : Z) (busy : bool) (pend : list (Z * BusPacket)) (d : RamulatorDevice) : Prop := {
  if_cycles : dataCycles d = (λ x, x.1 - n) <$> pend;
  if_data : pendingReadData d = snd <$> pend;
  if_sorted : StronglySorted Z.lt (fst <$> pend);
  if_due x : x ∈ pend → n < x.1 ≤ n + L - (if busy then 0 else 1);
  if_posted : postBuffer d = [];
}.

Lemma in_flight_bus L n busy pend p d d' :
  in_flight L n busy pend d → 0 < L → latency d = L →
  Ramulator_receiveFromBus p d = Ok d' → postCommand p = false →
  (is_read (busPacketType p) = true → busy = false) →
  in_flight L n (busy || is_read (busPacketType p))
    (pend ++ (if is_read (busPacketType p) then [(n + L, reply p)] else [])) d'.
Proof.
  intros [Hc Hd Hs Hdue Hp] HL Hlat Hr Hpost Hbusy.
  apply receive_cases in Hr as (_ & _ & Hr). rewrite Hpost in Hr.
  destruct Hr as (Hpb & _ & Hcy & Hda). destruct (is_read (busPacketType p)) eqn:Hread.
  - rewrite (Hbusy eq_refl) in *. simpl in Hdue |- *.
    assert (dataCycles d' = dataCycles d ++ [latency d] ∧
            pendingReadData d' = pendingReadData d ++ [reply p]) as [E1 E2]
      by (rewrite Hcy, Hda; unfold generateData; by destruct (busPacketType p)).
    split.
    + rewrite E1, Hc, Hlat, fmap_app. simpl. do 2 f_equal. lia.
    + by rewrite E2, Hd, fmap_app.
    + rewrite fmap_app. apply StronglySorted_app_2; [|done|repeat constructor].
      intros x1 x2 Hx1%list_elem_of_fmap Hx2%list_elem_of_singleton.
      destruct Hx1 as (y & -> & Hy). apply Hdue in Hy. simpl in Hx2. lia.
    + intros x [Hx|Hx]%elem_of_app; [apply Hdue in Hx; lia|].
      apply list_elem_of_singleton in Hx as ->. simpl. lia.
    + by rewrite Hpb.
  - rewrite orb_false_r, app_nil_r.
    assert (dataCycles d' = dataCycles d ∧ pendingReadData d' = pendingReadData d) as [E1 E2]
      by (rewrite Hcy, Hda; unfold generateData; by destruct (busPacketType p)).
    split; rewrite ?E1, ?E2, ?Hpb; done.
Qed.

Lemma in_flight_countdown L n busy pend d :
  in_flight L n busy pend d → countdown (dataCycles d) = (λ x, x.1 - (n + 1)) <$> pend.
Proof.
  intros [Hc _ _ Hdue _]. unfold countdown. rewrite Hc, <- list_fmap_compose.
  apply list_fmap_ext. intros i x Hx%list_elem_of_lookup_2. apply Hdue in Hx. simpl.
  rewrite bool_decide_true by lia. lia.
Qed.

Lemma in_flight_tick L n busy pend d od :
  in_flight L n busy pend d → 0 < L → device_update d = Ok od →
  ∃ pend', in_flight L (n + 1) false pend' od.2 ∧ dev_spec od.2 = dev_spec d ∧
    pend = (match od.1 with Some p => [(n + 1, p)] | None => [] end) ++ pend' ∧
    ∀ x, x ∈ pend' → n + 1 < x.1.
Proof.
  intros Hif HL Hu. pose proof (in_flight_countdown _ _ _ _ _ Hif) as Hcd.
  destruct Hif as [Hc Hd Hs Hdue Hp]. unfold device_update in Hu.
  apply bind_Ok in Hu as ([o d1] & Hr & Hu). apply bind_Ok in Hu as (d2 & Hpost & Hu). injection Hu as <-.
  assert (∀ x, x ∈ pend → x.1 ≤ n + 1 + L - 1) as Hle.
  { intros x Hx. apply Hdue in Hx. destruct busy; lia. }
  unfold update_reads in Hr. rewrite Hd, Hcd in Hr. destruct pend as [|[due p] pend].
  { simpl in Hr. injection Hr as <- <-. unfold update_posted in Hpost. simpl in Hpost. rewrite Hp in Hpost.
    injection Hpost as <-. exists []. split; [|split_and!; [done..|by intros ? ?%not_elem_of_nil]].
    split; simpl; [done|done|constructor|by intros ? ?%not_elem_of_nil|done]. }
  simpl in Hr. rewrite fmap_cons in Hs. apply StronglySorted_inv in Hs as [Hs Hall]. rewrite Forall_fmap, Forall_forall in Hall.
  pose proof (Hdue (due, p) ltac:(left)) as Hhead. simpl in Hhead.
  case_bool_decide as Hdone; injection Hr as <- <-; unfold update_posted in Hpost; simpl in Hpost;
    rewrite Hp in Hpost; injection Hpost as <-; simpl.
  - assert (due = n + 1) as -> by lia. exists pend.
    assert (∀ x, x ∈ pend → n + 1 < x.1) as Hlt by (intros x Hx; apply Hall in Hx; simpl in Hx; lia).
    split; [|by split_and!]. split; simpl; [done|done|done| |done].
    intros x Hx. pose proof (Hlt x Hx). pose proof (Hle x ltac:(by right)). lia.
  - exists ((due, p) :: pend).
    assert (∀ x, x ∈ (due, p) :: pend → n + 1 < x.1) as Hlt.
    { intros x [->|Hx]%elem_of_cons; [simpl; lia|]. apply Hall in Hx. simpl in Hx. lia. }
    split; [|by split_and!]. split; simpl; [done|done| | |done].
    + constructor; [done|]. rewrite Forall_fmap, Forall_forall. exact Hall.
    + intros x Hx. pose proof (Hlt x Hx). pose proof (Hle x Hx). lia.
Qed.

Lemma ticks_nonneg ops : 0 ≤ ticks ops.
Proof. induction ops as [|[]]; simpl; lia. Qed.

Lemma latency_spec d d' : dev_spec d' = dev_spec d → latency d' = latency d.
Proof. unfold latency, Ramulator_get_constraints. by intros ->. Qed.

Lemma run_dev_answers L ops n d busy pend out d' :
  0 < L → latency d = L → one_read busy ops = true → in_flight L n busy pend d →
  run_dev ops n d = Ok (out, d') →
  out = filter (λ x, x.1 ≤ n + ticks ops) (pend ++ answers L ops n).
Proof.
  intros HL. revert n d busy pend out. induction ops as [|[p|] ops IH];
    intros n d busy pend out Hlat Hone Hif Hrun; simpl in Hrun, Hone |- *.
  - injection Hrun as <- _. rewrite app_nil_r. symmetry. apply filter_none.
    intros x Hx. apply (if_due _ _ _ _ _ Hif) in Hx. lia.
  - apply bind_Ok in Hrun as (d1 & Hd1 & Hrun). apply andb_true_iff in Hone as [Hpost Hone].
    apply negb_true_iff in Hpost.
    assert (one_read (busy || is_read (busPacketType p)) ops = true ∧
            (is_read (busPacketType p) = true → busy = false)) as [Hone' Hbusy].
    { destruct (is_read (busPacketType p)); [|by rewrite orb_false_r].
      apply andb_true_iff in Hone as [Hb%negb_true_iff Hone]. by rewrite orb_true_r. }
    pose proof (in_flight_bus _ _ _ _ _ _ _ Hif HL Hlat Hd1 Hpost Hbusy) as Hif1.
    assert (latency d1 = L) as Hlat1.
    { rewrite <- Hlat. apply latency_spec. by apply receive_cases in Hd1 as (? & _). }
    rewrite (IH n d1 _ _ out Hlat1 Hone' Hif1 Hrun). by rewrite <- app_assoc.
  - apply bind_Ok in Hrun as (od & Hod & Hrun). apply bind_Ok in Hrun as ([r1 r2] & Hr & Hrun).
    injection Hrun as <- ->.
    destruct (in_flight_tick _ _ _ _ _ _ Hif HL Hod) as (pend' & Hif' & Hspec & -> & Hlt).
    rewrite (IH (n + 1) od.2 false pend' r1);
      [|rewrite <- Hlat; by apply latency_spec|exact Hone|exact Hif'|exact Hr].
    pose proof (ticks_nonneg ops). replace (n + 1 + ticks ops) with (n + (ticks ops + 1)) by lia.
    destruct od.1 as [p|]; simpl; [|done]. by rewrite filter_cons_True by (simpl; lia).
Qed.

(** Read latency: from a device without reads in flight, in a run with at most
    one read per cycle, the packets delivered are exactly the data of the reads,
    in their order, each [tRL + tBus] updates after the device received it. *)
Theorem read_latency ops d out d' :
  pendingReadData d = [] → dataCycles d = [] → postBuffer d = [] → 0 < latency d →
  one_read false ops = true → run_dev ops 0 d = Ok (out, d') →
  out = filter (λ x, x.1 ≤ ticks ops) (answers (latency d) ops 0).
Proof.
  intros Hp Hc Hpost HL Hone Hrun.
  apply (run_dev_answers (latency d) ops 0 d false [] out d'); try done.
  split; [done|done|constructor|by intros ? ?%not_elem_of_nil|done].
Qed.

End device.
Arguments RamulatorDevice T {R}.

(** ** The DDR3 device *)

(** [get_constraints]. *)
Definition DDR3_constraints (parameter : string) (d : DDR3.t) : Q :=
  let s := DDR3.speed_entry d in
  if bool_decide (parameter = "tCK"%string) then DDR3.tCK s
  else inject_Z (
    if bool_decide (parameter = "tRCD"%string) then DDR3.nRCD s
    else if bool_decide (parameter = "tWL"%string) then DDR3.nCWL s
    else if bool_decide (parameter = "tRL"%string) then DDR3.nCL s
    else if bool_decide (parameter = "tWTR"%string) then DDR3.nWTR s
    else if bool_decide (parameter = "tRTW"%string) then DDR3.nCL s + DDR3.nBL s + 2 - DDR3.nCWL s
    else if bool_decide (parameter = "tBus"%string) then DDR3.nBL s
    else if bool_decide (parameter = "tREFI"%string) then DDR3.nREFI s
    else if bool_decide (parameter = "tRFC"%string) then DDR3.nRFC s
    else if bool_decide (parameter = "tRRD"%string) then DDR3.nRRD s
    else if bool_decide (parameter = "tFAW"%string) then DDR3.nFAW s
    else 0).

(** The inner [switch] of [ACT], on the enumerator of the other command. *)
Definition timing_ACT (s : DDR3.SpeedEntry) (t : BusPacketType) : Z :=
  match t with
  | ACT => DDR3.nRC s
  | PREA | PRE => DDR3.nRAS s
  | RD | RDA | WR | WRA => DDR3.nRCD s
  | _ => 1
  end.
(** The ones of [ACT_R] and [ACT_W]. *)
Definition timing_ACT_RW (s : DDR3.SpeedEntry) (t : BusPacketType) : Z :=
  match t with
  | ACT_R | ACT_W => DDR3.nRC s
  | PREA | PRE => DDR3.nRAS s
  | RD | RDA | WR | WRA => DDR3.nRCD s
  | _ => 1
  end.

(** [command_timing(command, type)] before the conversion to [unsigned]. *)
Definition timing_between (s : DDR3.SpeedEntry) (c t : BusPacketType) : Z :=
  match c with
  | PRE | PREA => match t with ACT | ACT_R | ACT_W => DDR3.nRP s | _ => 0 end
  | ACT => timing_ACT s t
  | ACT_R | ACT_W => timing_ACT_RW s t
  | RD =>
      match t with
      | RD | RDA => 4
      | WR | WRA => DDR3.nCL s + DDR3.nBL s + 2 - DDR3.nCWL s
      | PRE | PREA => DDR3.nRTP s
      | _ => 1
      end
  | RDA => match t with ACT => DDR3.nRTP s + DDR3.nRP s | _ => 1 end
  | WR =>
      match t with
      | RD | RDA => DDR3.nCWL s + 4 + 6
      | WR | WRA => 4
      | PREA | PRE => DDR3.nCWL s + 4 + DDR3.nWR s
      | _ => 1
      end
  | WRA => match t with ACT => DDR3.nCWL s + 4 + DDR3.nWR s + DDR3.nRP s | _ => 1 end
  | _ => 1
  end.

Definition DDR3_cmd (t : BusPacketType) : res DDR3.Command :=
  match t with
  | RD => Ok DDR3.RD | WR => Ok DDR3.WR | RDA => Ok DDR3.RDA | WRA => Ok DDR3.WRA
  | ACT => Ok DDR3.ACT | ACT_R => Ok DDR3.ACT_R | ACT_W => Ok DDR3.ACT_W
  | PRE => Ok DDR3.PRE | PREA => Ok DDR3.PREA | REF => Ok DDR3.REF
  | _ => Err Abort
  end.

(** All five entries of [addr_vec] are rewritten; the rank is always 0. A [bank],
    [row] or [column] becomes an [int]. *)
Definition DDR3_addr (c : BusPacket) : list Z := [0; 0; i32 (bp_bank c); i32 (bp_row c); i32 (bp_column c)].

Definition DDR3_set_rank_number (n : Z) (d : DDR3.t) : DDR3.t :=
  DDR3.mkDDR3 (DDR3.set_rank_number n (DDR3.org_entry d)) (DDR3.speed_entry d).

#[export] Program Instance Ramulator_DDR3 : Ramulator DDR3.t := {|
  rm_standard := DDR3.standard;
  rm_spec := DDR3.spec;
  rm_laws := DDR3.laws;
  Channel_level := DDR3.Channel; Rank_level := DDR3.Rank; Column_level := DDR3.Column;
  set_rank_number := DDR3_set_rank_number;
  rm_dq := λ d, DDR3.org_dq (DDR3.org_entry d);
  constraints := DDR3_constraints;
  delay := λ d, timing_between (DDR3.speed_entry d);
  convert_cmd := DDR3_cmd;
  convert_addr := DDR3_addr |}.
Next Obligation. done. Qed.
Next Obligation. done. Qed.

Abbreviation Device := (RamulatorDevice DDR3.t).

Lemma DDR3_command_timing c t (d : Device) :
  command_timing c (bpt_int t) d = u32 (timing_between (DDR3.speed_entry (dev_spec d)) (busPacketType c) t).
Proof. simpl. unfold Ramulator_command_timing. by rewrite bpt_of_int. Qed.

(** ** Delays for activates *)

(** The packet types of the commands of the tree. *)
Definition packet_type (c : DDR3.Command) : BusPacketType :=
  match c with
  | DDR3.ACT_R => ACT_R | DDR3.ACT_W => ACT_W | DDR3.ACT => ACT
  | DDR3.PRE => PRE | DDR3.PREA => PREA
  | DDR3.RD => RD | DDR3.WR => WR | DDR3.RDA => RDA | DDR3.WRA => WRA
  | DDR3.REF => REF | DDR3.PDE => PDE | DDR3.PDX => PDX | DDR3.SRE => SRE | DDR3.SRX => SRX
  end.

Lemma convert_packet_type c t : DDR3_cmd t = Ok c → packet_type c = t.
Proof. destruct t; intros; simplify_eq/=; done. Qed.

Lemma covers_ACT o s d c1 te :
  DDR3.ctor o s = Ok d → te ∈ DDR3.timing (DDR3.speed_entry d) DDR3.Bank c1 → te_cmd te = DDR3.ACT →
  dist te = 1 ∧ sibling te = false ∧
  val te ≤ timing_between (DDR3.speed_entry d) (packet_type c1) ACT.
Proof.
  intros Hd Hin Hc. apply DDR3.timing_elem in Hin.
  assert (DDR3.nBL (DDR3.speed_entry d) = 4) as HBL
    by (destruct o, s; vm_compute in Hd; injection Hd as <-; reflexivity).
  apply list_elem_of_In in Hin. unfold DDR3.init_timing, DDR3.timing_channel, DDR3.timing_rank, DDR3.timing_bank, DDR3.e in Hin. simpl in Hin.
  repeat (destruct Hin as [Hin|Hin];
    [first [discriminate Hin
           |injection Hin as <- <-; simpl in Hc;
            first [discriminate Hc|simpl; split_and!; [done|done|lia]]]|]).
  done.
Qed.

(** For every bank constraint that ends in [ACT], which the tree does not check
    because the scope of [ACT] is the rank, [command_timing] makes the schedulers
    wait at least as long: for every device of the tables. *)
Theorem command_timing_covers_ACT o s d c1 te :
  DDR3.ctor o s = Ok d → te ∈ DDR3.timing (DDR3.speed_entry d) DDR3.Bank c1 → te_cmd te = DDR3.ACT →
  dist te = 1 ∧ sibling te = false ∧
  val te ≤ timing_between (DDR3.speed_entry d) (packet_type c1) ACT.
Proof. apply covers_ACT. Qed.

(** ** Witnesses *)
Definition wit_dev0 : Device :=
  mkDevice (R := Ramulator_DDR3) DDR3.wit_ddr3 0 1 1 8 1 32768 1024 8 [] [] [] [] DDR3.wit_root.
Definition wit_dev : Device :=
  match Ramulator_ctor DDR3.wit_ddr3 1 with Ok d => d | Err _ => wit_dev0 end.

(** An activate and, eleven cycles later, a read. *)
Definition wit_rd : BusPacket := new_BusPacket RD 2 512 8 5 3 0 0 77 0.
Definition wit_ops : list dev_op :=
  Bus (new_BusPacket ACT 2 512 8 5 3 0 0 0 0) :: replicate 11 Tick ++ [Bus wit_rd] ++ replicate 16 Tick.

Lemma read_latency_witness :
  ∃ out d', run_dev wit_ops 0 wit_dev = Ok (out, d') ∧
    out = filter (λ x, x.1 ≤ ticks wit_ops) (answers (latency wit_dev) wit_ops 0).
Proof.
  destruct (run_dev wit_ops 0 wit_dev) as [[out d']|] eqn:Hrun.
  - exists out, d'. split; [reflexivity|]. apply (read_latency wit_ops wit_dev out d').
    + vm_compute. reflexivity.
    + vm_compute. reflexivity.
    + vm_compute. reflexivity.
    + vm_compute. reflexivity.
    + vm_compute. reflexivity.
    + exact Hrun.
  - exfalso. assert (is_Ok (run_dev wit_ops 0 wit_dev) = true) as H by (vm_compute; reflexivity).
    rewrite Hrun in H. discriminate H.
Defined.

(** The read received after 11 updates is answered by update 26. *)
Example read_latency_value :
  filter (λ x, x.1 ≤ ticks wit_ops) (answers (latency wit_dev) wit_ops 0) = [(26, reply wit_rd)].
Proof. vm_compute. reflexivity. Qed.

Lemma command_timing_covers_ACT_witness :
  1 = 1 ∧ false = false ∧ 39 ≤ timing_between (DDR3.speed_entry DDR3.wit_ddr3) ACT ACT.
Proof.
  apply (command_timing_covers_ACT DDR3.DDR3_2Gb_x8 DDR3.DDR3_1600K
    (DDR3.mkDDR3 (DDR3.org_table DDR3.DDR3_2Gb_x8) (DDR3.speed_entry DDR3.wit_ddr3)) DDR3.ACT
    (@mkEntry DDR3.standard DDR3.ACT 1 39 false)).
  - vm_compute. reflexivity.
  - exact DDR3.ACT_nRC_unchecked_entry.
  - reflexivity.
Defined.
