(* ===== verification/DDR4.v ===== *)
(** * The DDR4 standard and device

    [ramulator::DDR4] (src/dram/DDR4.h, src/dram/DDR4.cpp): its enumerations and
    tables, as an instance of the device tree with a level of bank groups between
    ranks and banks; and [Ramulator_DDR4<DDR4>] (src/src/Ramulator_DDR4.h), the
    instance of the device. The name maps are only used for parsing and left out.

    Main results: the tables satisfy the laws of the tree and [init_speed] fails for
    no entry of them, so every theorem on trees and devices holds for DDR4; column
    accesses to one bank group keep the long distance [nCCDL] and those to one rank
    the short one; and since [scope] has the same two initialisers too few as in
    DDR3.h, two activates [ACT] of one bank group pass with the short distance only. *)
From Stdlib Require Import QArith.
From S2P Require Import Prelude Types DRAM DDR3 Device.
#[local] Open Scope Z_scope.

Module DDR4.

(** ** Enumerations *)
Inductive Level := Channel | Rank | BankGroup | Bank | Row | Column.
Inductive Command := ACT_R | ACT_W | ACT | PRE | PREA | RD | WR | RDA | WRA | REF | PDE | PDX | SRE | SRX.
Inductive State := Opened | Closed | PowerUp | ActPowerDown | PrePowerDown | SelfRefresh | State_MAX.

#[export] Instance DDR4_Level_eq_dec : EqDecision Level.
Proof. solve_decision. Defined.
#[export] Instance DDR4_Command_eq_dec : EqDecision Command.
Proof. solve_decision. Defined.
#[export] Instance DDR4_State_eq_dec : EqDecision State.
Proof. solve_decision. Defined.

Definition levels : list Level := [Channel; Rank; BankGroup; Bank; Row; Column].

Definition Level_int (l : Level) : nat :=
  match l with Channel => 0 | Rank => 1 | BankGroup => 2 | Bank => 3 | Row => 4 | Column => 5 end.
Definition Command_int (c : Command) : nat :=
  match c with
  | ACT_R => 0 | ACT_W => 1 | ACT => 2 | PRE => 3 | PREA => 4 | RD => 5 | WR => 6 | RDA => 7
  | WRA => 8 | REF => 9 | PDE => 10 | PDX => 11 | SRE => 12 | SRX => 13
  end.

#[export] Program Instance standard : Standard := {|
  DRAM.Level := Level; DRAM.Command := Command; DRAM.State := State;
  level_int := Level_int; level_of := λ n, levels !! n; Row_level := Row; Bank_level := Bank |}.
Next Obligation. by intros []. Qed.
Next Obligation. intros n l Hl. by do 6 (destruct n as [|n]; [by simplify_eq/=|]). Qed.

(** The initialisers of [scope] in the source; an entry without one is [Level(0)]. *)
Definition scope_initialisers : list Level :=
  [Row; Bank; Rank; Column; Column; Column; Column; Rank; Rank; Rank; Rank; Rank].
Definition scope (c : Command) : Level :=
  match scope_initialisers !! Command_int c with Some l => l | None => Channel end.

Definition is_opening (c : Command) : bool :=
  match c with ACT | ACT_R | ACT_W => true | _ => false end.
Definition is_accessing (c : Command) : bool :=
  match c with RD | WR | RDA | WRA => true | _ => false end.
Definition is_closing (c : Command) : bool :=
  match c with RDA | WRA | PRE | PREA => true | _ => false end.
Definition is_refreshing (c : Command) : bool := match c with REF => true | _ => false end.

Definition start (l : Level) : State :=
  match l with
  | Channel => State_MAX | Rank => PowerUp | BankGroup => State_MAX
  | Bank => Closed | Row => Closed | Column => State_MAX
  end.

(** ** Organisation *)
Inductive Org := DDR4_2Gb_x4 | DDR4_2Gb_x8 | DDR4_2Gb_x16 | DDR4_4Gb_x4 | DDR4_4Gb_x8 | DDR4_4Gb_x16 | DDR4_8Gb_x4 | DDR4_8Gb_x8 | DDR4_8Gb_x16.

Record OrgEntry := mkOrg { org_size : Z; org_dq : Z; org_count : list Z }.

Definition org_table (o : Org) : OrgEntry :=
  match o with
  | DDR4_2Gb_x4 => mkOrg (2 * 2 ^ 10) 4 [0; 0; 4; 4; 2 ^ 15; 2 ^ 10]
  | DDR4_2Gb_x8 => mkOrg (2 * 2 ^ 10) 8 [0; 0; 4; 16; 2 ^ 14; 2 ^ 14]
  | DDR4_2Gb_x16 => mkOrg (2 * 2 ^ 10) 16 [0; 0; 2; 4; 2 ^ 14; 2 ^ 10]
  | DDR4_4Gb_x4 => mkOrg (4 * 2 ^ 10) 4 [0; 0; 4; 4; 2 ^ 16; 2 ^ 10]
  | DDR4_4Gb_x8 => mkOrg (4 * 2 ^ 10) 8 [0; 0; 4; 4; 2 ^ 15; 2 ^ 10]
  | DDR4_4Gb_x16 => mkOrg (4 * 2 ^ 10) 16 [0; 0; 2; 4; 2 ^ 15; 2 ^ 10]
  | DDR4_8Gb_x4 => mkOrg (8 * 2 ^ 10) 4 [0; 0; 4; 4; 2 ^ 17; 2 ^ 10]
  | DDR4_8Gb_x8 => mkOrg (8 * 2 ^ 10) 8 [0; 0; 4; 4; 2 ^ 16; 2 ^ 10]
  | DDR4_8Gb_x16 => mkOrg (8 * 2 ^ 10) 16 [0; 0; 2; 4; 2 ^ 16; 2 ^ 10]
  end.

(** [org_entry.count[int(l)]]: the array has an entry per level. *)
Definition org_count_at (o : OrgEntry) (l : Level) : Z := default 0 (org_count o !! Level_int l).
Definition set_rank_number (ranks : Z) (o : OrgEntry) : OrgEntry :=
  mkOrg (org_size o) (org_dq o) (<[1%nat := ranks]> (org_count o)).
Definition set_channel_number (n : Z) (o : OrgEntry) : OrgEntry :=
  mkOrg (org_size o) (org_dq o) (<[0%nat := n]> (org_count o)).

(** ** Speed

    [freq] and [tCK] are the exact quotients of the doubles in the source. *)
Inductive Speed :=
| DDR4_1600K
| DDR4_1600L
| DDR4_1866M
| DDR4_1866N
| DDR4_2133P
| DDR4_2133R
| DDR4_2400R
| DDR4_2400U.

Inductive RefreshMode := Refresh_1X | Refresh_2X | Refresh_4X.
Definition RefreshMode_int (m : RefreshMode) : nat :=
  match m with Refresh_1X => 0 | Refresh_2X => 1 | Refresh_4X => 2 end.
(** The initial value of the member [refresh_mode], which nothing changes. *)
Definition refresh_mode : RefreshMode := Refresh_1X.

Record SpeedEntry := mkSpeed {
  rate : Z; freq : Q; tCK : Q;
  nBL : Z; nCCDS : Z; nCCDL : Z; nRTRS : Z;
  nCL : Z; nRCD : Z; nRP : Z; nCWL : Z;
  nRAS : Z; nRC : Z;
  nRTP : Z; nWTRS : Z; nWTRL : Z; nWR : Z;
  nRRDS : Z; nRRDL : Z; nFAW : Z;
  nRFC : Z; nREFI : Z;
  nPD : Z; nXP : Z; nXPDLL : Z;
  nCKESR : Z; nXS : Z; nXSDLL : Z;
}.

Definition speed_table (s : Speed) : SpeedEntry :=
  match s with
  | DDR4_1600K => mkSpeed 1600 (400 / 3 * 6)%Q (3 / (4 # 10) / 6)%Q 4 4 5 2 11 11 11 9 28 39 6 2 6 12 0 0 0 0 0 4 5 0 5 0 0
  | DDR4_1600L => mkSpeed 1600 (400 / 3 * 6)%Q (3 / (4 # 10) / 6)%Q 4 4 5 2 12 12 12 9 28 40 6 2 6 12 0 0 0 0 0 4 5 0 5 0 0
  | DDR4_1866M => mkSpeed 1866 (400 / 3 * 7)%Q (3 / (4 # 10) / 7)%Q 4 4 5 2 13 13 13 10 32 45 7 3 7 14 0 0 0 0 0 5 6 0 6 0 0
  | DDR4_1866N => mkSpeed 1866 (400 / 3 * 7)%Q (3 / (4 # 10) / 7)%Q 4 4 5 2 14 14 14 10 32 46 7 3 7 14 0 0 0 0 0 5 6 0 6 0 0
  | DDR4_2133P => mkSpeed 2133 (400 / 3 * 8)%Q (3 / (4 # 10) / 8)%Q 4 4 6 2 15 15 15 11 36 51 8 3 8 16 0 0 0 0 0 6 7 0 7 0 0
  | DDR4_2133R => mkSpeed 2133 (400 / 3 * 8)%Q (3 / (4 # 10) / 8)%Q 4 4 6 2 16 16 16 11 36 52 8 3 8 16 0 0 0 0 0 6 7 0 7 0 0
  | DDR4_2400R => mkSpeed 2400 (400 / 3 * 9)%Q (3 / (4 # 10) / 9)%Q 4 4 6 2 16 16 16 12 39 55 9 3 9 18 0 0 0 0 0 6 8 0 7 0 0
  | DDR4_2400U => mkSpeed 2400 (400 / 3 * 9)%Q (3 / (4 # 10) / 9)%Q 4 4 6 2 18 18 18 12 39 57 9 3 9 18 0 0 0 0 0 6 8 0 7 0 0
  end.

(** The constant arrays of [init_speed]. *)
Definition RRDS_TABLE : list (list Z) := [[4; 4; 4; 4]; [5; 5; 6; 7]].
Definition RRDL_TABLE : list (list Z) := [[5; 5; 6; 6]; [6; 6; 7; 8]].
Definition FAW_TABLE : list (list Z) := [[16; 16; 16; 16]; [20; 22; 23; 26]; [28; 28; 32; 36]].
Definition RFC_TABLE : list (list (list Z)) := [
  [[128; 150; 171; 192]; [208; 243; 278; 312]; [280; 327; 374; 420]];
  [[88; 103; 118; 132]; [128; 150; 171; 192]; [208; 243; 278; 312]];
  [[72; 84; 96; 108]; [88; 103; 118; 132]; [128; 150; 171; 192]]].
Definition REFI_TABLE : list Z := [6240; 7280; 8320; 9360].
Definition XS_TABLE : list (list Z) := [[136; 159; 182; 204]; [216; 252; 288; 324]; [288; 336; 384; 432]].

(** The two [switch]es; another rate or size fails an assertion. *)
Definition speed_index (rate : Z) : res nat :=
  if rate =? 1600 then Ok 0%nat else if rate =? 1866 then Ok 1%nat
  else if rate =? 2133 then Ok 2%nat else if rate =? 2400 then Ok 3%nat else Err Abort.
Definition density_index (size : Z) : res nat :=
  let g := Z.shiftr size 10 in
  if g =? 2 then Ok 0%nat else if g =? 4 then Ok 1%nat else if g =? 8 then Ok 2%nat else Err Abort.

Definition init_speed (o : OrgEntry) (s : SpeedEntry) : res SpeedEntry :=
  speed ← speed_index (rate s);
  density ← density_index (org_size o);
  let x16 := if org_dq o =? 16 then 1%nat else 0%nat in
  let width := if org_dq o =? 4 then 0%nat else if org_dq o =? 8 then 1%nat else 2%nat in
  let mode := RefreshMode_int refresh_mode in
  rrds ← vec_at RRDS_TABLE x16 ≫= λ l, vec_at l speed;
  rrdl ← vec_at RRDL_TABLE x16 ≫= λ l, vec_at l speed;
  faw ← vec_at FAW_TABLE width ≫= λ l, vec_at l speed;
  rfc ← vec_at RFC_TABLE mode ≫= λ t, vec_at t density ≫= λ l, vec_at l speed;
  refi ← vec_at REFI_TABLE speed;
  xs ← vec_at XS_TABLE density ≫= λ l, vec_at l speed;
  Ok (mkSpeed (rate s) (freq s) (tCK s) (nBL s) (nCCDS s) (nCCDL s) (nRTRS s) (nCL s) (nRCD s) (nRP s) (nCWL s)
        (nRAS s) (nRC s) (nRTP s) (nWTRS s) (nWTRL s) (nWR s) rrds rrdl faw rfc
        (Z.shiftr refi (Z.of_nat mode)) (nPD s) (nXP s) (nXPDLL s) (nCKESR s) xs (nXSDLL s)).

(** ** Tables of the device tree *)

(** [prereq]: the answer [None] is [Command::MAX]. *)
Definition prereq_rank_CAS (node : Node) (cmd : Command) (id : Z) : res (option Command) :=
  match state node with
  | PowerUp => Ok None
  | ActPowerDown | PrePowerDown => Ok (Some PDX)
  | SelfRefresh => Ok (Some SRX)
  | _ => Err Abort
  end.
Definition prereq_bank_CAS (node : Node) (cmd : Command) (id : Z) : res (option Command) :=
  match state node with
  | Closed => Ok (Some ACT)
  | Opened => match row_state node !! id with Some _ => Ok (Some cmd) | None => Ok (Some PRE) end
  | _ => Err Abort
  end.
(** The two nested loops over the bank groups and their banks. *)
Definition all_closed (node : Node) : bool :=
  forallb (λ bg : Node, forallb (λ b : Node, bool_decide (state b = Closed)) (children bg)) (children node).
Definition prereq_REF (node : Node) (cmd : Command) (id : Z) : res (option Command) :=
  Ok (Some (if all_closed node then REF else PREA)).
Definition prereq_PDE (node : Node) (cmd : Command) (id : Z) : res (option Command) :=
  match state node with
  | PowerUp | ActPowerDown | PrePowerDown => Ok (Some PDE)
  | SelfRefresh => Ok (Some SRX)
  | _ => Err Abort
  end.
Definition prereq_SRE (node : Node) (cmd : Command) (id : Z) : res (option Command) :=
  match state node with
  | PowerUp | SelfRefresh => Ok (Some SRE)
  | ActPowerDown | PrePowerDown => Ok (Some PDX)
  | _ => Err Abort
  end.

Definition prereq (l : Level) (c : Command) : option (Node → Command → Z → res (option Command)) :=
  match l, c with
  | Rank, RD | Rank, WR => Some prereq_rank_CAS
  | Bank, RD | Bank, WR => Some prereq_bank_CAS
  | Rank, REF => Some prereq_REF
  | Rank, PDE => Some prereq_PDE
  | Rank, SRE => Some prereq_SRE
  | _, _ => None
  end.

Definition rowhit_bank (node : Node) (cmd : Command) (id : Z) : res bool :=
  match state node with
  | Closed => Ok false
  | Opened => Ok (bool_decide (is_Some (row_state node !! id)))
  | _ => Err Abort
  end.
Definition rowhit (l : Level) (c : Command) : option (Node → Command → Z → res bool) :=
  match l, c with Bank, RD | Bank, WR => Some rowhit_bank | _, _ => None end.

Definition rowopen_bank (node : Node) (cmd : Command) (id : Z) : res bool :=
  match state node with Closed => Ok false | Opened => Ok true | _ => Err Abort end.
Definition rowopen (l : Level) (c : Command) : option (Node → Command → Z → res bool) :=
  match l, c with Bank, RD | Bank, WR => Some rowopen_bank | _, _ => None end.

Definition close_bank (node : Node) : Node := set_state Closed ∅ node.
Definition open_row (node : Node) (id : Z) : Node :=
  set_state Opened (<[id := Opened]> (row_state node)) node.
Definition close_group (node : Node) : Node := set_children (close_bank <$> children node) node.

Definition lambda (l : Level) (c : Command) : option (Node → Z → Node) :=
  match l, c with
  | Bank, ACT | Bank, ACT_R | Bank, ACT_W => Some open_row
  | Bank, PRE | Bank, RDA | Bank, WRA => Some (λ node _, close_bank node)
  | Rank, PREA => Some (λ node _, set_children (close_group <$> children node) node)
  | Rank, REF | Bank, RD | Bank, WR => Some (λ node _, node)
  | Rank, PDE =>
      Some (λ node _, set_state (if all_closed node then PrePowerDown else ActPowerDown) (row_state node) node)
  | Rank, PDX | Rank, SRX => Some (λ node _, set_state PowerUp (row_state node) node)
  | Rank, SRE => Some (λ node _, set_state SelfRefresh (row_state node) node)
  | _, _ => None
  end.

(** The calls of [init_timing], in their order. *)
Definition e (l : Level) (c1 c2 : Command) (d v : Z) (sib : bool) : Level * Command * TimingEntry :=
  (l, c1, mkEntry c2 d v sib).

Definition timing_channel (s : SpeedEntry) : timing_table := [
  (* CAS <-> CAS *)
  e Channel RD RD 1 (nBL s) false;
  e Channel RD RDA 1 (nBL s) false;
  e Channel RDA RD 1 (nBL s) false;
  e Channel RDA RDA 1 (nBL s) false;
  e Channel WR WR 1 (nBL s) false;
  e Channel WR WRA 1 (nBL s) false;
  e Channel WRA WR 1 (nBL s) false;
  e Channel WRA WRA 1 (nBL s) false
].

Definition timing_rank (s : SpeedEntry) : timing_table := [
  (* CAS <-> CAS *)
  e Rank RD RD 1 (nCCDS s) false;
  e Rank RD RDA 1 (nCCDS s) false;
  e Rank RDA RD 1 (nCCDS s) false;
  e Rank RDA RDA 1 (nCCDS s) false;
  e Rank WR WR 1 (nCCDS s) false;
  e Rank WR WRA 1 (nCCDS s) false;
  e Rank WRA WR 1 (nCCDS s) false;
  e Rank WRA WRA 1 (nCCDS s) false;
  e Rank RD WR 1 (nCL s + nCCDS s + 2 - nCWL s) false;
  e Rank RD WRA 1 (nCL s + nCCDS s + 2 - nCWL s) false;
  e Rank RDA WR 1 (nCL s + nCCDS s + 2 - nCWL s) false;
  e Rank RDA WRA 1 (nCL s + nCCDS s + 2 - nCWL s) false;
  e Rank WR RD 1 (nCWL s + nBL s + nWTRS s) false;
  e Rank WR RDA 1 (nCWL s + nBL s + nWTRS s) false;
  e Rank WRA RD 1 (nCWL s + nBL s + nWTRS s) false;
  e Rank WRA RDA 1 (nCWL s + nBL s + nWTRS s) false;
  (* CAS <-> CAS (between sibling ranks) *)
  e Rank RD RD 1 (nBL s + nRTRS s) true;
  e Rank RD RDA 1 (nBL s + nRTRS s) true;
  e Rank RDA RD 1 (nBL s + nRTRS s) true;
  e Rank RDA RDA 1 (nBL s + nRTRS s) true;
  e Rank RD WR 1 (nBL s + nRTRS s) true;
  e Rank RD WRA 1 (nBL s + nRTRS s) true;
  e Rank RDA WR 1 (nBL s + nRTRS s) true;
  e Rank RDA WRA 1 (nBL s + nRTRS s) true;
  e Rank RD WR 1 (nCL s + nBL s + nRTRS s - nCWL s) true;
  e Rank RD WRA 1 (nCL s + nBL s + nRTRS s - nCWL s) true;
  e Rank RDA WR 1 (nCL s + nBL s + nRTRS s - nCWL s) true;
  e Rank RDA WRA 1 (nCL s + nBL s + nRTRS s - nCWL s) true;
  e Rank WR RD 1 (nCWL s + nBL s + nRTRS s - nCL s) true;
  e Rank WR RDA 1 (nCWL s + nBL s + nRTRS s - nCL s) true;
  e Rank WRA RD 1 (nCWL s + nBL s + nRTRS s - nCL s) true;
  e Rank WRA RDA 1 (nCWL s + nBL s + nRTRS s - nCL s) true;
  e Rank RD PREA 1 (nRTP s) false;
  e Rank WR PREA 1 (nCWL s + nBL s + nWR s) false;
  (* CAS <-> PD *)
  e Rank RD PDE 1 (nCL s + nBL s + 1) false;
  e Rank RDA PDE 1 (nCL s + nBL s + 1) false;
  e Rank WR PDE 1 (nCWL s + nBL s + nWR s) false;
  e Rank WRA PDE 1 (nCWL s + nBL s + nWR s + 1) false;
  e Rank PDX RD 1 (nXP s) false;
  e Rank PDX RDA 1 (nXP s) false;
  e Rank PDX WR 1 (nXP s) false;
  e Rank PDX WRA 1 (nXP s) false;
  (* CAS <-> SR: none (all banks have to be precharged) *)
  (* RAS <-> RAS *)
  e Rank ACT ACT 1 (nRRDS s) false;
  e Rank ACT ACT 4 (nFAW s) false;
  e Rank ACT PREA 1 (nRAS s) false;
  e Rank PREA ACT 1 (nRP s) false;
  e Rank ACT_R ACT_R 1 (nRRDS s) false;
  e Rank ACT_W ACT_W 1 (nRRDS s) false;
  e Rank ACT_R ACT_W 1 (nRRDS s) false;
  e Rank ACT_W ACT_R 1 (nRRDS s) false;
  e Rank ACT_R ACT_W 4 (nFAW s) false;
  e Rank ACT_R ACT_R 4 (nFAW s) false;
  e Rank ACT_W ACT_W 4 (nFAW s) false;
  e Rank ACT_W ACT_R 4 (nFAW s) false;
  e Rank ACT_R PREA 1 (nRAS s) false;
  e Rank ACT_W PREA 1 (nRAS s) false;
  e Rank PREA ACT_R 1 (nRP s) false;
  e Rank PREA ACT_W 1 (nRP s) false;
  (* RAS <-> REF *)
  e Rank PRE REF 1 (nRP s) false;
  e Rank PREA REF 1 (nRP s) false;
  e Rank REF ACT 1 (nRFC s) false;
  e Rank REF ACT_R 1 (nRFC s) false;
  e Rank REF ACT_W 1 (nRFC s) false;
  (* RAS <-> PD *)
  e Rank ACT_R PDE 1 (1) false;
  e Rank ACT_W PDE 1 (1) false;
  e Rank PDX ACT_R 1 (nXP s) false;
  e Rank PDX ACT_W 1 (nXP s) false;
  e Rank ACT PDE 1 (1) false;
  e Rank PDX ACT 1 (nXP s) false;
  e Rank PDX PRE 1 (nXP s) false;
  e Rank PDX PREA 1 (nXP s) false;
  (* RAS <-> SR *)
  e Rank PRE SRE 1 (nRP s) false;
  e Rank PREA SRE 1 (nRP s) false;
  e Rank SRX ACT 1 (nXS s) false;
  e Rank SRX ACT_R 1 (nXS s) false;
  e Rank SRX ACT_W 1 (nXS s) false;
  (* REF <-> REF *)
  e Rank REF REF 1 (nRFC s) false;
  (* REF <-> PD *)
  e Rank REF PDE 1 (1) false;
  e Rank PDX REF 1 (nXP s) false;
  (* REF <-> SR *)
  e Rank SRX REF 1 (nXS s) false;
  (* PD <-> PD *)
  e Rank PDE PDX 1 (nPD s) false;
  e Rank PDX PDE 1 (nXP s) false;
  (* PD <-> SR *)
  e Rank PDX SRE 1 (nXP s) false;
  e Rank SRX PDE 1 (nXS s) false;
  (* SR <-> SR *)
  e Rank SRE SRX 1 (nCKESR s) false;
  e Rank SRX SRE 1 (nXS s) false
].

Definition timing_group (s : SpeedEntry) : timing_table := [
  (* CAS <-> CAS *)
  e BankGroup RD RD 1 (nCCDL s) false;
  e BankGroup RD RDA 1 (nCCDL s) false;
  e BankGroup RDA RD 1 (nCCDL s) false;
  e BankGroup RDA RDA 1 (nCCDL s) false;
  e BankGroup WR WR 1 (nCCDL s) false;
  e BankGroup WR WRA 1 (nCCDL s) false;
  e BankGroup WRA WR 1 (nCCDL s) false;
  e BankGroup WRA WRA 1 (nCCDL s) false;
  e BankGroup WR WR 1 (nCCDL s) false;
  e BankGroup WR WRA 1 (nCCDL s) false;
  e BankGroup WRA WR 1 (nCCDL s) false;
  e BankGroup WRA WRA 1 (nCCDL s) false;
  e BankGroup WR RD 1 (nCWL s + nBL s + nWTRL s) false;
  e BankGroup WR RDA 1 (nCWL s + nBL s + nWTRL s) false;
  e BankGroup WRA RD 1 (nCWL s + nBL s + nWTRL s) false;
  e BankGroup WRA RDA 1 (nCWL s + nBL s + nWTRL s) false;
  (* RAS <-> RAS *)
  e BankGroup ACT ACT 1 (nRRDL s) false;
  e BankGroup ACT_R ACT_R 1 (nRRDL s) false;
  e BankGroup ACT_W ACT_W 1 (nRRDL s) false;
  e BankGroup ACT_W ACT_R 1 (nRRDL s) false;
  e BankGroup ACT_R ACT_W 1 (nRRDL s) false
].

Definition timing_bank (s : SpeedEntry) : timing_table := [
  (* CAS <-> RAS *)
  e Bank ACT RD 1 (nRCD s) false;
  e Bank ACT RDA 1 (nRCD s) false;
  e Bank ACT WR 1 (nRCD s) false;
  e Bank ACT WRA 1 (nRCD s) false;
  e Bank ACT_R RD 1 (nRCD s) false;
  e Bank ACT_W RD 1 (nRCD s) false;
  e Bank ACT_R RDA 1 (nRCD s) false;
  e Bank ACT_W RDA 1 (nRCD s) false;
  e Bank ACT_R WR 1 (nRCD s) false;
  e Bank ACT_W WR 1 (nRCD s) false;
  e Bank ACT_R WRA 1 (nRCD s) false;
  e Bank ACT_W WRA 1 (nRCD s) false;
  e Bank RD PRE 1 (nRTP s) false;
  e Bank WR PRE 1 (nCWL s + nBL s + nWR s) false;
  e Bank RDA ACT 1 (nRTP s + nRP s) false;
  e Bank RDA ACT_R 1 (nRTP s + nRP s) false;
  e Bank RDA ACT_W 1 (nRTP s + nRP s) false;
  e Bank WRA ACT 1 (nCWL s + nBL s + nWR s + nRP s) false;
  e Bank WRA ACT_R 1 (nCWL s + nBL s + nWR s + nRP s) false;
  e Bank WRA ACT_W 1 (nCWL s + nBL s + nWR s + nRP s) false;
  (* RAS <-> RAS *)
  e Bank ACT ACT 1 (nRC s) false;
  e Bank ACT PRE 1 (nRAS s) false;
  e Bank PRE ACT 1 (nRP s) false;
  e Bank ACT_R ACT_R 1 (nRC s) false;
  e Bank ACT_R ACT_W 1 (nRC s) false;
  e Bank ACT_W ACT_W 1 (nRC s) false;
  e Bank ACT_W ACT_R 1 (nRC s) false;
  e Bank ACT_R PRE 1 (nRAS s) false;
  e Bank ACT_W PRE 1 (nRAS s) false;
  e Bank PRE ACT_R 1 (nRP s) false;
  e Bank PRE ACT_W 1 (nRP s) false
].

Definition init_timing (s : SpeedEntry) : timing_table :=
  timing_channel s ++ timing_rank s ++ timing_group s ++ timing_bank s.

Definition timing (s : SpeedEntry) (l : Level) (c : Command) : list TimingEntry := entries_of (init_timing s) l c.

(** The object [DDR4]: its organisation and speed after the constructor. *)
Record t := mkDDR4 { org_entry : OrgEntry; speed_entry : SpeedEntry }.

Definition ctor (o : Org) (s : Speed) : res t :=
  se ← init_speed (org_table o) (speed_table s); Ok (mkDDR4 (org_table o) se).

Definition read_latency (s : Speed) : Z := nCL (speed_table s) + nBL (speed_table s).

Definition spec (d : t) : Spec := {|
  DRAM.start := start; DRAM.scope := scope; DRAM.timing := timing (speed_entry d);
  DRAM.lambda := lambda; DRAM.prereq := prereq; DRAM.rowhit := rowhit; DRAM.rowopen := rowopen;
  DRAM.count := org_count_at (org_entry d);
  DRAM.is_opening := is_opening; DRAM.is_refreshing := is_refreshing |}.

(** ** The laws of the tables *)
Lemma DDR4_entries_ok s : forallb (entry_ok is_refreshing) (init_timing s) = true.
Proof. reflexivity. Qed.

#[export] Instance laws (d : t) : @SpecLaws standard (spec d).
Proof.
  apply (@laws_of_table standard (spec d) (init_timing (speed_entry d))); [done|apply DDR4_entries_ok|].
  intros l c f n i Hf. destruct l, c; simpl in Hf; try done; injection Hf as <-;
    try done; try apply strip_set_state.
  by apply strip_set_children; intros x; apply strip_set_children, strip_set_state.
Qed.

(** What the timing tables need of a speed. *)
Definition speed_ok (s : SpeedEntry) : bool :=
  forallb (λ x, (0 <? x) && (x <? 10000))
    [nBL s; nCCDS s; nCCDL s; nRTRS s; nCL s; nRCD s; nRP s; nCWL s; nRAS s; nRC s; nRTP s; nWTRS s; nWTRL s;
     nWR s; nRRDS s; nRRDL s; nFAW s; nRFC s; nREFI s; nPD s; nXP s; nCKESR s; nXS s]
  && (nRC s =? nRAS s + nRP s) && (4 * nRRDS s <=? nFAW s) && (nRFC s <? nXS s) && (nXS s <? nREFI s)
  && (nCWL s <=? nCL s) && (nCL s <=? nCWL s + nBL s + nRTRS s) && (nBL s =? nCCDS s)
  && (nCCDS s <? nCCDL s) && (nRRDS s <? nRRDL s) && (nWTRS s <? nWTRL s) && (nBL s =? 4).

(** For every organisation and speed of the tables the constructor
    returns and the parameters make sense together. *)
Lemma DDR4_ctor_ok o s : ∃ d, ctor o s = Ok d ∧ speed_ok (speed_entry d) = true ∧ org_entry d = org_table o.
Proof. destruct o, s; eexists; (split; [vm_compute; reflexivity|]); split; vm_compute; reflexivity. Qed.

(** ** Distances of column accesses *)
Definition same_direction (c1 c2 : Command) : bool :=
  match c1, c2 with RD, RD | RD, RDA | RDA, RD | RDA, RDA | WR, WR | WR, WRA | WRA, WR | WRA, WRA => true | _, _ => false end.

Lemma nCCDL_entry s c1 c2 : same_direction c1 c2 = true → mkEntry c2 1 (nCCDL s) false ∈ timing s BankGroup c1.
Proof. destruct c1, c2; try done; intros _; apply list_elem_of_In; simpl; tauto. Qed.
Lemma nCCDS_entry s c1 c2 : same_direction c1 c2 = true → mkEntry c2 1 (nCCDS s) false ∈ timing s Rank c1.
Proof. destruct c1, c2; try done; intros _; apply list_elem_of_In; simpl; tauto. Qed.

(** In a checked run two column accesses of one direction that went through one
    bank group, whose check looks at the group, are at least [nCCDL] apart, and those
    that went through one rank at least [nCCDS]. *)
Theorem column_access_distance (d : t) root es1 c1 a1 t1 es2 c2 a2 t2 n p m :
  @fresh standard (spec d) root → level root = Channel →
  @run standard (spec d) root (es1 ++ (c1, a1, t1) :: es2 ++ [(c2, a2, t2)]) n →
  same_direction c1 c2 = true → @checked standard (spec d) c2 a2 root p m → role_of a1 0 (id root) p = Target →
  (level m = BankGroup → t1 + nCCDL (speed_entry d) ≤ t2) ∧ (level m = Rank → t1 + nCCDS (speed_entry d) ≤ t2).
Proof.
  intros Hf Hl Hrun Hdir Hck Hr.
  assert (∀ v, mkEntry c2 1 v false ∈ timing (speed_entry d) (level m) c1 → t1 + v ≤ t2) as Hkeep.
  { intros v Hv. eapply (@timing_ok standard (spec d) (laws d) root es1 c1 a1 t1 es2 c2 a2 t2 n p m (@mkEntry standard c2 1 v false));
      [done|done|rewrite Hl; simpl; lia|done|exact Hv|done|by rewrite Hl|intros _; simpl; lia]. }
  split; intros Hm; apply Hkeep; rewrite Hm; [by apply nCCDL_entry|by apply nCCDS_entry].
Qed.

(** ** A run on a concrete device *)
Definition wit_ddr4 : t :=
  mkDDR4 (set_rank_number 1 (org_table DDR4_4Gb_x8))
    (match init_speed (org_table DDR4_4Gb_x8) (speed_table DDR4_1600K) with
     | Ok s => s | Err _ => speed_table DDR4_1600K end).
#[local] Instance wit_spec4 : Spec := spec wit_ddr4.

Definition wit_root4 : Node :=
  match @DRAM_ctor standard wit_spec4 4 Channel with Ok n => n | Err _ => @new_node standard wit_spec4 Channel end.

Definition issue4 (c : Command) (addr : list Z) (clk : Z) (n : Node) : Node :=
  match @update standard wit_spec4 c addr clk n with Ok n' => n' | Err _ => n end.

Lemma run_issue4 root es n c addr clk :
  run root es n → 0 ≤ clk → check c addr clk n = Ok true → is_Ok (update c addr clk n) = true →
  run root (es ++ [(c, addr, clk)]) (issue4 c addr clk n).
Proof.
  intros Hrun Hclk Hck Hu. eapply run_snoc; [done..|]. unfold issue4.
  by destruct (update c addr clk n).
Qed.

Lemma wit_fresh4 : fresh wit_root4.
Proof.
  destruct (@DRAM_ctor_ok standard wit_spec4 4 Channel) as (n & Hn & Hf & _).
  - intros k Hk. simpl in Hk. destruct k as [|[|[|[|k]]]]; [eexists; reflexivity..|lia].
  - simpl; lia.
  - simpl; lia.
  - unfold wit_root4. by rewrite Hn.
Qed.

(** The distance [nRRDL] of two activates of one bank group is not checked for
    [ACT], whose scope is the rank: on a DDR4-1600K device [check] lets two activates of
    one group pass four cycles apart, with [nRRDL] 5 in the table of the group. *)
Theorem ACT_nRRDL_unchecked :
  nRRDL (speed_entry wit_ddr4) = 5 ∧
  mkEntry ACT 1 5 false ∈ timing (speed_entry wit_ddr4) BankGroup ACT ∧
  ∃ n, run wit_root4 [(ACT, [0; 0; 1; 3; 5; 0], 10); (ACT, [0; 0; 1; 2; 9; 0], 14)] n.
Proof.
  split; [reflexivity|]. split; [apply list_elem_of_In; simpl; tauto|].
  eexists. apply (run_issue4 wit_root4 [(ACT, [0; 0; 1; 3; 5; 0], 10)]);
    [apply (run_issue4 wit_root4 []); [apply run_nil|lia|vm_compute; reflexivity..]|lia|vm_compute; reflexivity..].
Qed.

Definition wit_group : Node :=
  match node_at wit_root4 [0%nat; 1%nat] with Some m => m | None => wit_root4 end.

Lemma wit_checked4 (c : Command) (p : list nat) (addr : list Z) m :
  match node_at wit_root4 p with Some _ => true | None => false end = true →
  m = match node_at wit_root4 p with Some m => m | None => wit_root4 end →
  role_of addr (level_int (level wit_root4)) (id wit_root4) p = Target →
  (level_int (level m) ≤ level_int (DRAM.scope c))%nat → checked c addr wit_root4 p m.
Proof. intros Hm -> ? ?. split; [by destruct (node_at wit_root4 p)|done]. Qed.

(** Two reads of one group, five cycles apart. *)
Lemma column_access_distance_witness : 21 + 5 ≤ 26.
Proof.
  refine (proj1 (column_access_distance wit_ddr4 wit_root4 [] RD [0; 0; 1; 3; 5; 0] 21 [] RD [0; 0; 1; 2; 9; 0] 26
    (issue4 RD [0; 0; 1; 2; 9; 0] 26 (issue4 RD [0; 0; 1; 3; 5; 0] 21 wit_root4)) [0%nat; 1%nat] wit_group
    wit_fresh4 _ _ eq_refl _ _) _).
  - vm_compute. reflexivity.
  - apply (run_issue4 wit_root4 [(RD, [0; 0; 1; 3; 5; 0], 21)]);
      [apply (run_issue4 wit_root4 []); [apply run_nil|lia|vm_compute; reflexivity..]|lia|vm_compute; reflexivity..].
  - apply wit_checked4; [vm_compute; reflexivity|reflexivity|vm_compute; reflexivity|vm_compute; lia].
  - vm_compute. reflexivity.
  - vm_compute. reflexivity.
Defined.
End DDR4.

(** ** The device *)

(** [get_constraints]; there is no [tRRD]. *)
Definition DDR4_constraints (parameter : string) (d : DDR4.t) : Q :=
  let s := DDR4.speed_entry d in
  if bool_decide (parameter = "tCK"%string) then DDR4.tCK s
  else inject_Z (
    if bool_decide (parameter = "tRCD"%string) then DDR4.nRCD s
    else if bool_decide (parameter = "tWL"%string) then DDR4.nCWL s
    else if bool_decide (parameter = "tRL"%string) then DDR4.nCL s
    else if bool_decide (parameter = "tWTR"%string) then DDR4.nWTRS s
    else if bool_decide (parameter = "tRTW"%string) then DDR4.nCL s + DDR4.nBL s + 2 - DDR4.nCWL s
    else if bool_decide (parameter = "tBus"%string) then DDR4.nBL s
    else if bool_decide (parameter = "tREFI"%string) then DDR4.nREFI s
    else if bool_decide (parameter = "tRFC"%string) then DDR4.nRFC s
    else if bool_decide (parameter = "tCCDL"%string) then DDR4.nCCDL s
    else if bool_decide (parameter = "tCCDS"%string) then DDR4.nCCDS s
    else if bool_decide (parameter = "tRRDS"%string) then DDR4.nRRDS s
    else if bool_decide (parameter = "tRRDL"%string) then DDR4.nRRDL s
    else if bool_decide (parameter = "tXS"%string) then DDR4.nXS s
    else if bool_decide (parameter = "tFAW"%string) then DDR4.nFAW s
    else 0).

(** The inner [switch]es of [ACT], and of [ACT_R] and [ACT_W]. *)
Definition DDR4_timing_ACT (s : DDR4.SpeedEntry) (t : BusPacketType) : Z :=
  match t with
  | ACT => DDR4.nRC s
  | PREA | PRE => DDR4.nRAS s
  | RD | RDA | WR | WRA => DDR4.nRCD s
  | _ => 1
  end.
Definition DDR4_timing_ACT_RW (s : DDR4.SpeedEntry) (t : BusPacketType) : Z :=
  match t with
  | ACT_R | ACT_W => DDR4.nRC s
  | PREA | PRE => DDR4.nRAS s
  | RD | RDA | WR | WRA => DDR4.nRCD s
  | _ => 1
  end.

(** [command_timing(command, type)] before the conversion to [unsigned]. *)
Definition DDR4_delay (s : DDR4.SpeedEntry) (c t : BusPacketType) : Z :=
  match c with
  | PRE | PREA => match t with ACT | ACT_R | ACT_W => DDR4.nRP s | _ => 0 end
  | ACT => DDR4_timing_ACT s t
  | ACT_R | ACT_W => DDR4_timing_ACT_RW s t
  | RD =>
      match t with
      | RD | RDA => 4
      | WR | WRA => DDR4.nCL s + DDR4.nBL s + 2 - DDR4.nCWL s
      | PRE | PREA => DDR4.nRTP s
      | _ => 1
      end
  | RDA => match t with ACT => DDR4.nRTP s + DDR4.nRP s | _ => 1 end
  | WR =>
      match t with
      | RD | RDA => DDR4.nCWL s + 4 + 6
      | WR | WRA => 4
      | PREA | PRE => DDR4.nCWL s + 4 + DDR4.nWR s
      | _ => 1
      end
  | WRA => match t with ACT => DDR4.nCWL s + 4 + DDR4.nWR s + DDR4.nRP s | _ => 1 end
  | _ => 1
  end.

Definition DDR4_cmd (t : BusPacketType) : res DDR4.Command :=
  match t with
  | RD => Ok DDR4.RD | WR => Ok DDR4.WR | RDA => Ok DDR4.RDA | WRA => Ok DDR4.WRA
  | ACT => Ok DDR4.ACT | ACT_R => Ok DDR4.ACT_R | ACT_W => Ok DDR4.ACT_W
  | PRE => Ok DDR4.PRE | PREA => Ok DDR4.PREA | REF => Ok DDR4.REF
  | _ => Err Abort
  end.

(** All six entries of [addr_vec] are rewritten; the rank and the bank group are
    always 0. *)
Definition DDR4_addr (c : BusPacket) : list Z := [0; 0; 0; i32 (bp_bank c); i32 (bp_row c); i32 (bp_column c)].

Definition DDR4_set_rank_number (n : Z) (d : DDR4.t) : DDR4.t :=
  DDR4.mkDDR4 (DDR4.set_rank_number n (DDR4.org_entry d)) (DDR4.speed_entry d).

#[export] Program Instance Ramulator_DDR4 : Ramulator DDR4.t := {|
  rm_standard := DDR4.standard;
  rm_spec := DDR4.spec;
  rm_laws := DDR4.laws;
  Channel_level := DDR4.Channel; Rank_level := DDR4.Rank; Column_level := DDR4.Column;
  set_rank_number := DDR4_set_rank_number;
  rm_dq := λ d, DDR4.org_dq (DDR4.org_entry d);
  constraints := DDR4_constraints;
  delay := λ d, DDR4_delay (DDR4.speed_entry d);
  convert_cmd := DDR4_cmd;
  convert_addr := DDR4_addr |}.
Next Obligation. done. Qed.
Next Obligation. done. Qed.

(** The device of a specification: four banks of each of four groups, and every
    packet goes to the first group. *)
Example DDR4_device :
  match Ramulator_ctor DDR4.wit_ddr4 1 with
  | Ok d => (bankGroups d, banks d, subArrays d, rows d, columns d, dataBusWidth d) = (4, 4, 1, 32768, 1024, 8)
  | Err _ => False
  end.
Proof. vm_compute. reflexivity. Qed.
