(* ===== verification/DSARP.v ===== *)
(** * The DSARP standard and device

    [ramulator::DSARP] (src/dram/DSARP.h, src/dram/DSARP.cpp): a DDR3-like standard with
    refreshes of single banks and a level of subarrays between banks and rows, so that a
    bank can be accessed while another of its subarrays is refreshed; and
    [Ramulator_DSARP<DSARP>] (src/src/Ramulator_DSARP.h), the instance of the device.
    The names of commands and levels are only used for printing and left out.

    Main results: the tables satisfy the laws of the tree for every type of refresh;
    the constructor returns exactly for a number of subarrays that is a power of two up
    to 128, and keeps the capacity of the device; and an activate keeps [nRFCpb] from a
    refresh of its bank, or with subarray parallelism of its subarray, and there the
    increased [nRRD] from a refresh of another subarray of the bank. *)
From Stdlib Require Import QArith Qround String.
From S2P Require Import Prelude Types DRAM DDR3 Device.
#[local] Open Scope Z_scope.

Module DSARP.

(** ** Enumerations *)

(** The kinds of refresh. *)
Inductive Type_ := REFAB_type | REFPB_type | DARP | SARP | DSARP_type.
(** [type == Type::DSARP || type == Type::SARP]: subarrays work in parallel. *)
Definition is_sarp (ty : Type_) : bool := match ty with SARP | DSARP_type => true | _ => false end.

Inductive Level := Channel | Rank | Bank | SubArray | Row | Column.
Inductive Command := ACT | PRE | PREA | RD | WR | RDA | WRA | REF | REFPB | PDE | PDX | SRE | SRX.
Inductive State := Opened | Closed | PowerUp | ActPowerDown | PrePowerDown | SelfRefresh | State_MAX.

#[export] Instance DSARP_Level_eq_dec : EqDecision Level.
Proof. solve_decision. Defined.
#[export] Instance DSARP_Command_eq_dec : EqDecision Command.
Proof. solve_decision. Defined.
#[export] Instance DSARP_State_eq_dec : EqDecision State.
Proof. solve_decision. Defined.

Definition levels : list Level := [Channel; Rank; Bank; SubArray; Row; Column].

Definition Level_int (l : Level) : nat :=
  match l with Channel => 0 | Rank => 1 | Bank => 2 | SubArray => 3 | Row => 4 | Column => 5 end.

#[export] Program Instance standard : Standard := {|
  DRAM.Level := Level; DRAM.Command := Command; DRAM.State := State;
  level_int := Level_int; level_of := λ n, levels !! n; Row_level := Row; Bank_level := Bank |}.
Next Obligation. by intros []. Qed.
Next Obligation. intros n l Hl. by do 6 (destruct n as [|n]; [by simplify_eq/=|]). Qed.

(** [scope]: here every command has its initialiser. *)
Definition scope (c : Command) : Level :=
  match c with
  | ACT => Row | PRE => Bank | PREA => Rank
  | RD | WR | RDA | WRA => Column
  | REF => Rank | REFPB => Bank
  | PDE | PDX | SRE | SRX => Rank
  end.

Definition is_opening (c : Command) : bool := match c with ACT => true | _ => false end.
Definition is_accessing (c : Command) : bool :=
  match c with RD | WR | RDA | WRA => true | _ => false end.
Definition is_closing (c : Command) : bool :=
  match c with RDA | WRA | PRE | PREA => true | _ => false end.
Definition is_refreshing (c : Command) : bool := match c with REF | REFPB => true | _ => false end.

(** [start] has five initialisers: the last level keeps [State(0)]. *)
Definition start (l : Level) : State :=
  match l with
  | Channel => State_MAX | Rank => PowerUp | Bank => Closed | SubArray => Closed
  | Row => State_MAX | Column => Opened
  end.

(** ** Organisation *)
Inductive Org := DSARP_8Gb_x8 | DSARP_16Gb_x8 | DSARP_32Gb_x8.

Record OrgEntry := mkOrg { org_size : Z; org_dq : Z; org_count : list Z }.

Definition org_table (o : Org) : OrgEntry :=
  match o with
  | DSARP_8Gb_x8 => mkOrg (8 * 2 ^ 10) 8 [0; 0; 8; 0; 2 ^ 16; 2 ^ 11]
  | DSARP_16Gb_x8 => mkOrg (16 * 2 ^ 10) 8 [0; 0; 8; 0; 2 ^ 17; 2 ^ 11]
  | DSARP_32Gb_x8 => mkOrg (32 * 2 ^ 10) 8 [0; 0; 8; 0; 2 ^ 18; 2 ^ 11]
  end.

(** [org_entry.count[int(l)]], and its assignment. *)
Definition org_count_at (o : OrgEntry) (l : Level) : Z := default 0 (org_count o !! Level_int l).
Definition set_count (l : Level) (n : Z) (o : OrgEntry) : OrgEntry :=
  mkOrg (org_size o) (org_dq o) (<[Level_int l := n]> (org_count o)).
Definition set_rank_number (ranks : Z) (o : OrgEntry) : OrgEntry := set_count Rank ranks o.
Definition set_channel_number (n : Z) (o : OrgEntry) : OrgEntry := set_count Channel n o.

(** ** Speed

    [freq] and [tCK] are the exact quotients of the doubles in the source. *)
Inductive Speed := DSARP_1333.

Record SpeedEntry := mkSpeed {
  rate : Z; freq : Q; tCK : Q;
  nBL : Z; nCCD : Z; nRTRS : Z;
  nCL : Z; nRCD : Z; nRPpb : Z; nRPab : Z; nCWL : Z;
  nRAS : Z; nRC : Z;
  nRTP : Z; nWTR : Z; nWR : Z;
  nRRD : Z; nFAW : Z;
  nRFCab : Z; nRFCpb : Z; nREFI : Z; nREFIpb : Z;
  nPD : Z; nXP : Z; nXPDLL : Z;
  nCKESR : Z; nXS : Z; nXSDLL : Z;
}.

Definition speed_table (s : Speed) : SpeedEntry :=
  mkSpeed 1333 (400 / 3 * 5)%Q (3 / (4 # 10) / 5)%Q 4 4 2 9 9 8 9 7 24 33 5 5 10 5 30 0 0 0 0 4 4 16 5 114 512.

(** The constant arrays of [init_speed], each with one speed or refresh mode. *)
Definition RFCAB_TABLE : list Z := [234; 354; 594].
Definition RFCPB_TABLE : list Z := [109; 164; 275].
Definition REFI_TABLE : Z := 2600.
Definition REFIPB_TABLE : Z := 325.

(** The [switch]es; another rate or size fails an assertion. *)
Definition density_index (size : Z) : res nat :=
  let g := Z.shiftr size 10 in
  if g =? 8 then Ok 0%nat else if g =? 16 then Ok 1%nat else if g =? 32 then Ok 2%nat else Err Abort.

Definition init_speed (o : OrgEntry) (s : SpeedEntry) : res SpeedEntry :=
  _ ← assert_ (rate s =? 1333);
  density ← density_index (org_size o);
  rfcpb ← vec_at RFCPB_TABLE density;
  rfcab ← vec_at RFCAB_TABLE density;
  Ok (mkSpeed (rate s) (freq s) (tCK s) (nBL s) (nCCD s) (nRTRS s) (nCL s) (nRCD s) (nRPpb s) (nRPab s) (nCWL s)
        (nRAS s) (nRC s) (nRTP s) (nWTR s) (nWR s) (nRRD s) (nFAW s) rfcab rfcpb REFI_TABLE REFIPB_TABLE
        (nPD s) (nXP s) (nXPDLL s) (nCKESR s) (nXS s) (nXSDLL s)).

(** [(int)ceil(((double)s.nRRD)*nRRD_factor)], with the factor 1.138. *)
Definition nRRD_refresh (s : SpeedEntry) : Z := Qceiling (inject_Z (nRRD s) * (1138 # 1000)).

(** ** Tables of the device tree *)

(** [prereq]: the answer [None] is [Command::MAX]. *)
Definition prereq_rank_CAS (node : Node) (cmd : Command) (id : Z) : res (option Command) :=
  match state node with
  | PowerUp => Ok None
  | ActPowerDown | PrePowerDown => Ok (Some PDX)
  | SelfRefresh => Ok (Some SRX)
  | _ => Err Abort
  end.
(** Of a bank, [row_state] has the subarrays; of a subarray the rows. *)
Definition prereq_bank_CAS (node : Node) (cmd : Command) (id : Z) : res (option Command) :=
  match state node with
  | Closed => Ok (Some ACT)
  | Opened => match row_state node !! id with Some _ => Ok None | None => Ok (Some PRE) end
  | _ => Err Abort
  end.
Definition prereq_subarray_CAS (node : Node) (cmd : Command) (id : Z) : res (option Command) :=
  match state node with
  | Closed => Ok (Some ACT)
  | Opened => match row_state node !! id with Some _ => Ok (Some cmd) | None => Ok (Some PRE) end
  | _ => Err Abort
  end.
Definition banks_closed (node : Node) : bool :=
  forallb (λ b : Node, bool_decide (state b = Closed)) (children node).
Definition prereq_REF (node : Node) (cmd : Command) (id : Z) : res (option Command) :=
  Ok (Some (if banks_closed node then REF else PREA)).
Definition prereq_REFPB (node : Node) (cmd : Command) (id : Z) : res (option Command) :=
  Ok (Some (if bool_decide (state node = Closed) then REFPB else PRE)).
Definition prereq_PDE (node : Node) (cmd : Command) (id : Z) : res (option Command) :=
  match state node with
  | PowerUp | ActPowerDown | PrePowerDown => Ok (Some PDE)
  | SelfRefresh => Ok (Some SRX)
  | _ => Err Abort
  end.
Definition prereq_SRE (node : Node) (cmd : Command) (id : Z) : res (option Command) :=
  match state node with
  | PowerUp | SelfRefresh => Ok (Some SRE)
  | ActPowerDown | PrePowerDown => Ok (Some PDX)
  | _ => Err Abort
  end.

Definition prereq (l : Level) (c : Command) : option (Node → Command → Z → res (option Command)) :=
  match l, c with
  | Rank, RD | Rank, WR => Some prereq_rank_CAS
  | Bank, RD | Bank, WR => Some prereq_bank_CAS
  | SubArray, RD | SubArray, WR => Some prereq_subarray_CAS
  | Rank, REF => Some prereq_REF
  | Bank, REFPB => Some prereq_REFPB
  | Rank, PDE => Some prereq_PDE
  | Rank, SRE => Some prereq_SRE
  | _, _ => None
  end.

Definition rowhit_subarray (node : Node) (cmd : Command) (id : Z) : res bool :=
  match state node with
  | Closed => Ok false
  | Opened => Ok (bool_decide (is_Some (row_state node !! id)))
  | _ => Err Abort
  end.
Definition rowhit (l : Level) (c : Command) : option (Node → Command → Z → res bool) :=
  match l, c with SubArray, RD | SubArray, WR => Some rowhit_subarray | _, _ => None end.

Definition rowopen_subarray (node : Node) (cmd : Command) (id : Z) : res bool :=
  match state node with Closed => Ok false | Opened => Ok true | _ => Err Abort end.
Definition rowopen (l : Level) (c : Command) : option (Node → Command → Z → res bool) :=
  match l, c with SubArray, RD | SubArray, WR => Some rowopen_subarray | _, _ => None end.

Definition close (node : Node) : Node := set_state Closed ∅ node.
Definition close_bank (node : Node) : Node :=
  let node := close node in set_children (close <$> children node) node.
Definition open_row (node : Node) (id : Z) : Node :=
  set_state Opened (<[id := Opened]> (row_state node)) node.
(** The loops of the second lambda for [PDE], which replaces the first. *)
Definition subarrays_closed (node : Node) : bool :=
  forallb (λ b : Node, forallb (λ sa : Node, bool_decide (state sa = Closed)) (children b)) (children node).

Definition lambda (l : Level) (c : Command) : option (Node → Z → Node) :=
  match l, c with
  | Rank, PREA =>
      Some (λ node _, let node := set_state (state node) ∅ node in set_children (close_bank <$> children node) node)
  | Rank, REF | Bank, RD | Bank, WR => Some (λ node _, node)
  | Rank, PDE =>
      Some (λ node _, set_state (if subarrays_closed node then PrePowerDown else ActPowerDown) (row_state node) node)
  | Rank, PDX | Rank, SRX => Some (λ node _, set_state PowerUp (row_state node) node)
  | Rank, SRE => Some (λ node _, set_state SelfRefresh (row_state node) node)
  | Bank, ACT | SubArray, ACT => Some open_row
  | Bank, PRE => Some (λ node _, close_bank node)
  | Bank, RDA | Bank, WRA | SubArray, RDA | SubArray, WRA => Some (λ node _, close node)
  | _, _ => None
  end.

(** The calls of [init_timing], in their order. *)
Definition e (l : Level) (c1 c2 : Command) (d v : Z) (sib : bool) : Level * Command * TimingEntry :=
  (l, c1, mkEntry c2 d v sib).

Definition timing_channel (s : SpeedEntry) : timing_table := [
  (* CAS <-> CAS *)
  e Channel RD RD 1 (nBL s) false;
  e Channel RD RDA 1 (nBL s) false;
  e Channel RDA RD 1 (nBL s) false;
  e Channel RDA RDA 1 (nBL s) false;
  e Channel WR WR 1 (nBL s) false;
  e Channel WR WRA 1 (nBL s) false;
  e Channel WRA WR 1 (nBL s) false;
  e Channel WRA WRA 1 (nBL s) false
].

Definition timing_rank (s : SpeedEntry) : timing_table := [
  (* CAS <-> CAS *)
  e Rank RD RD 1 (nCCD s) false;
  e Rank RD RDA 1 (nCCD s) false;
  e Rank RDA RD 1 (nCCD s) false;
  e Rank RDA RDA 1 (nCCD s) false;
  e Rank WR WR 1 (nCCD s) false;
  e Rank WR WRA 1 (nCCD s) false;
  e Rank WRA WR 1 (nCCD s) false;
  e Rank WRA WRA 1 (nCCD s) false;
  (* READ to WRITE *)
  e Rank RD WR 1 (nCL s + nCCD s + 2 - nCWL s) false;
  e Rank RD WRA 1 (nCL s + nCCD s + 2 - nCWL s) false;
  e Rank RDA WR 1 (nCL s + nCCD s + 2 - nCWL s) false;
  e Rank RDA WRA 1 (nCL s + nCCD s + 2 - nCWL s) false;
  (* WRITE to READ *)
  e Rank WR RD 1 (nCWL s + nBL s + nWTR s) false;
  e Rank WR RDA 1 (nCWL s + nBL s + nWTR s) false;
  e Rank WRA RD 1 (nCWL s + nBL s + nWTR s) false;
  e Rank WRA RDA 1 (nCWL s + nBL s + nWTR s) false;
  (* CAS <-> CAS (between sibling ranks) *)
  e Rank RD RD 1 (nBL s + nRTRS s) true;
  e Rank RD RDA 1 (nBL s + nRTRS s) true;
  e Rank RDA RD 1 (nBL s + nRTRS s) true;
  e Rank RDA RDA 1 (nBL s + nRTRS s) true;
  e Rank RD WR 1 (nBL s + nRTRS s) true;
  e Rank RD WRA 1 (nBL s + nRTRS s) true;
  e Rank RDA WR 1 (nBL s + nRTRS s) true;
  e Rank RDA WRA 1 (nBL s + nRTRS s) true;
  e Rank RD WR 1 (nCL s + nBL s + nRTRS s - nCWL s) true;
  e Rank RD WRA 1 (nCL s + nBL s + nRTRS s - nCWL s) true;
  e Rank RDA WR 1 (nCL s + nBL s + nRTRS s - nCWL s) true;
  e Rank RDA WRA 1 (nCL s + nBL s + nRTRS s - nCWL s) true;
  e Rank WR RD 1 (nCWL s + nBL s + nRTRS s - nCL s) true;
  e Rank WR RDA 1 (nCWL s + nBL s + nRTRS s - nCL s) true;
  e Rank WRA RD 1 (nCWL s + nBL s + nRTRS s - nCL s) true;
  e Rank WRA RDA 1 (nCWL s + nBL s + nRTRS s - nCL s) true;
  (* CAS <-> PREA *)
  e Rank RD PREA 1 (nRTP s) false;
  e Rank WR PREA 1 (nCWL s + nBL s + nWR s) false;
  (* CAS <-> PD *)
  e Rank RD PDE 1 (nCL s + nBL s + 1) false;
  e Rank RDA PDE 1 (nCL s + nBL s + 1) false;
  e Rank WR PDE 1 (nCWL s + nBL s + nWR s) false;
  e Rank WRA PDE 1 (nCWL s + nBL s + nWR s + 1) false;
  e Rank PDX RD 1 (nXP s) false;
  e Rank PDX RDA 1 (nXP s) false;
  e Rank PDX WR 1 (nXP s) false;
  e Rank PDX WRA 1 (nXP s) false;
  (* RAS <-> RAS *)
  e Rank ACT ACT 1 (nRRD s) false;
  e Rank ACT ACT 4 (nFAW s) false;
  e Rank ACT PREA 1 (nRAS s) false;
  e Rank PREA ACT 1 (nRPab s) false;
  (* RAS <-> REF *)
  e Rank PRE REF 1 (nRPpb s) false;
  e Rank PREA REF 1 (nRPab s) false;
  e Rank REF ACT 1 (nRFCab s) false;
  (* RAS <-> PD *)
  e Rank ACT PDE 1 (1) false;
  e Rank PDX ACT 1 (nXP s) false;
  e Rank PDX PRE 1 (nXP s) false;
  e Rank PDX PREA 1 (nXP s) false;
  (* RAS <-> SR *)
  e Rank PRE SRE 1 (nRPpb s) false;
  e Rank PREA SRE 1 (nRPab s) false;
  e Rank SRX ACT 1 (nXS s) false;
  (* REF <-> REF *)
  e Rank REF REF 1 (nRFCab s) false;
  e Rank REF REFPB 1 (nRFCab s) false;
  e Rank REFPB REF 1 (nRFCpb s) false;
  (* REF <-> PD *)
  e Rank REF PDE 1 (1) false;
  e Rank REFPB PDE 1 (1) false;
  e Rank PDX REF 1 (nXP s) false;
  e Rank PDX REFPB 1 (nXP s) false;
  (* REF <-> SR *)
  e Rank SRX REF 1 (nXS s) false;
  e Rank SRX REFPB 1 (nXS s) false;
  (* PD <-> PD *)
  e Rank PDE PDX 1 (nPD s) false;
  e Rank PDX PDE 1 (nXP s) false;
  (* PD <-> SR *)
  e Rank PDX SRE 1 (nXP s) false;
  e Rank SRX PDE 1 (nXS s) false;
  (* SR <-> SR *)
  e Rank SRE SRX 1 (nCKESR s) false;
  e Rank SRX SRE 1 (nXS s) false;
  (* REFPB *)
  e Rank REFPB REFPB 1 (nRFCpb s) false
].

Definition timing_bank (s : SpeedEntry) : timing_table := [
  (* CAS <-> RAS *)
  e Bank ACT RD 1 (nRCD s) false;
  e Bank ACT RDA 1 (nRCD s) false;
  e Bank ACT WR 1 (nRCD s) false;
  e Bank ACT WRA 1 (nRCD s) false;
  e Bank RD PRE 1 (nRTP s) false;
  e Bank WR PRE 1 (nCWL s + nBL s + nWR s) false;
  e Bank RDA ACT 1 (nRTP s + nRPpb s) false;
  e Bank WRA ACT 1 (nCWL s + nBL s + nWR s + nRPpb s) false;
  (* RAS <-> RAS *)
  e Bank ACT ACT 1 (nRC s) false;
  e Bank ACT PRE 1 (nRAS s) false;
  e Bank PRE ACT 1 (nRPpb s) false;
  e Bank PRE REFPB 1 (nRPpb s) false;
  (* Cannot overlap REFPB *)
  e Bank REFPB REFPB 1 (nRFCpb s) false;
  (* B/w banks *)
  e Bank REFPB REFPB 1 (nRFCpb s) true;
  e Bank ACT REFPB 1 (nRRD s) true;
  e Bank REFPB ACT 1 (nRRD s) true
].

(** Without subarray parallelism a refresh blocks its bank. *)
Definition timing_blocked (s : SpeedEntry) : timing_table := [
  e Bank REFPB ACT 1 (nRFCpb s) false;
  e Bank REFPB RD 1 (nRFCpb s) false;
  e Bank REFPB RDA 1 (nRFCpb s) false;
  e Bank REFPB WR 1 (nRFCpb s) false;
  e Bank REFPB WRA 1 (nRFCpb s) false;
  e Bank REFPB PRE 1 (nRFCpb s) false;
  e Bank REFPB PREA 1 (nRFCpb s) false
].

Definition timing_subarray (s : SpeedEntry) : timing_table := [
  (* between different subarrays -> Increase RRD *)
  e SubArray ACT REFPB 1 (nRRD_refresh s) true;
  e SubArray REFPB ACT 1 (nRRD_refresh s) true;
  (* Same subarray *)
  e SubArray REF ACT 1 (nRFCab s) false;
  e SubArray REFPB ACT 1 (nRFCpb s) false;
  (* CAS <-> RAS *)
  e SubArray ACT RD 1 (nRCD s) false;
  e SubArray ACT RDA 1 (nRCD s) false;
  e SubArray ACT WR 1 (nRCD s) false;
  e SubArray ACT WRA 1 (nRCD s) false;
  e SubArray RD PRE 1 (nRTP s) false;
  e SubArray WR PRE 1 (nCWL s + nBL s + nWR s) false;
  e SubArray RDA ACT 1 (nRTP s + nRPpb s) false;
  e SubArray WRA ACT 1 (nCWL s + nBL s + nWR s + nRPpb s) false;
  (* RAS <-> RAS *)
  e SubArray ACT ACT 1 (nRC s) false;
  e SubArray ACT PRE 1 (nRAS s) false;
  e SubArray PRE ACT 1 (nRPpb s) false;
  e SubArray PRE REFPB 1 (nRPpb s) false;
  e SubArray PRE REF 1 (nRPpb s) false;
  (* Enforcing timings such that there's no subarray parallelism *)
  (* between sibling subarrays for demand requests *)
  e SubArray ACT ACT 1 (nRC s) true;
  e SubArray PRE ACT 1 (nRPpb s) true;
  e SubArray RDA ACT 1 (nRTP s + nRPpb s) true;
  e SubArray WRA ACT 1 (nCWL s + nBL s + nWR s + nRPpb s) true
].

Definition init_timing (ty : Type_) (s : SpeedEntry) : timing_table :=
  timing_channel s ++ timing_rank s ++ timing_bank s ++
  (if is_sarp ty then timing_subarray s else timing_blocked s).

Definition timing (ty : Type_) (s : SpeedEntry) (l : Level) (c : Command) : list TimingEntry :=
  entries_of (init_timing ty s) l c.

(** ** The constructor *)
Record t := mkDSARP { dsarp_type : Type_; org_entry : OrgEntry; speed_entry : SpeedEntry; n_sa : Z; b_ref_rank : bool }.

(** Afterwards the rows are those the capacity leaves for the subarrays. *)
Definition ctor (o : Org) (s : Speed) (ty : Type_) (n_sa : Z) : res t :=
  let org := org_table o in
  se ← init_speed org (speed_table s);
  _ ← assert_ (bool_decide (n_sa ≠ 0) && bool_decide (n_sa ≤ 128) && bool_decide (Z.land n_sa (n_sa - 1) = 0));
  let org := set_count SubArray n_sa org in
  let tmp := org_dq org * org_count_at org Bank * n_sa * org_count_at org Column in
  let org := set_count Row (i32 (Z.quot (org_size org * 2 ^ 20) tmp)) org in
  Ok (mkDSARP ty org se n_sa (match ty with REFAB_type => true | _ => false end)).

Definition read_latency (s : Speed) : Z := nCL (speed_table s) + nBL (speed_table s).

(** The command of a refresh request, the entry of [translate] the constructor sets. *)
Definition translate_REFRESH (d : t) : Command := if b_ref_rank d then REF else REFPB.

Definition spec (d : t) : Spec := {|
  DRAM.start := start; DRAM.scope := scope; DRAM.timing := timing (dsarp_type d) (speed_entry d);
  DRAM.lambda := lambda; DRAM.prereq := prereq; DRAM.rowhit := rowhit; DRAM.rowopen := rowopen;
  DRAM.count := org_count_at (org_entry d);
  DRAM.is_opening := is_opening; DRAM.is_refreshing := is_refreshing |}.

(** ** The laws of the tables *)
Lemma DSARP_entries_ok ty s : forallb (entry_ok is_refreshing) (init_timing ty s) = true.
Proof. by destruct ty. Qed.

#[export] Instance laws (d : t) : @SpecLaws standard (spec d).
Proof.
  apply (@laws_of_table standard (spec d) (init_timing (dsarp_type d) (speed_entry d))); [done|apply DSARP_entries_ok|].
  assert (∀ n : Node, @strip _ (spec d) (close_bank n) = @strip _ (spec d) n) as Hclose.
  { intros n. unfold close_bank. rewrite strip_set_children by apply strip_set_state. apply strip_set_state. }
  intros l c f n i Hf. destruct l, c; simpl in Hf; try done; injection Hf as <-;
    try done; try apply strip_set_state; try apply Hclose.
  exact (eq_trans (strip_set_children close_bank (set_state (state n) ∅ n) Hclose) (strip_set_state _ _ _)).
Qed.

(** What the timing tables need of a speed. *)
Definition speed_ok (s : SpeedEntry) : bool :=
  forallb (λ x, (0 <? x) && (x <? 10000))
    [nBL s; nCCD s; nRTRS s; nCL s; nRCD s; nRPpb s; nRPab s; nCWL s; nRAS s; nRC s; nRTP s; nWTR s; nWR s;
     nRRD s; nFAW s; nRFCab s; nRFCpb s; nREFI s; nREFIpb s; nPD s; nXP s; nCKESR s; nXS s]
  && (4 * nRRD s <=? nFAW s) && (nRFCpb s <? nRFCab s) && (nRFCab s <? nREFI s) && (nRFCpb s <? nREFIpb s)
  && (nRRD s <? nRRD_refresh s) && (nRRD_refresh s <? nRFCpb s) && (nREFI s =? 8 * nREFIpb s)
  && (nCWL s <=? nCL s) && (nCL s <? nCWL s + nBL s + nRTRS s) && (nBL s =? 4).

(** The numbers of subarrays the assertion lets pass. *)
Definition powers : list Z := [1; 2; 4; 8; 16; 32; 64; 128].

Definition power_test (n : Z) : bool :=
  bool_decide (n ≠ 0) && bool_decide (n ≤ 128) && bool_decide (Z.land n (n - 1) = 0).

Lemma power_test_iff n : 0 ≤ n → power_test n = true ↔ n ∈ powers.
Proof.
  intros Hn. destruct (decide (n ≤ 128)) as [Hle|Hgt].
  - assert (∀ n, In n (seqZ 0 129) → eqb (power_test n) (bool_decide (n ∈ powers)) = true) as Hall
      by (apply forallb_forall; vm_compute; reflexivity).
    rewrite (eqb_prop _ _ (Hall n ltac:(apply list_elem_of_In, elem_of_seqZ; lia))). apply bool_decide_eq_true.
  - unfold power_test. rewrite (bool_decide_eq_false_2 (n ≤ 128)), andb_false_r by done. split; [done|].
    intros Hin. assert (Forall (λ n, n ≤ 128) powers) as Hall by (unfold powers; repeat (apply Forall_cons_2; [cbv beta; lia|]); apply Forall_nil_2).
    rewrite Forall_forall in Hall. by apply Hall in Hin.
Qed.

Lemma powers_ok o s ty n :
  n ∈ powers → ∃ d, ctor o s ty n = Ok d ∧ speed_ok (speed_entry d) = true ∧
    org_dq (org_entry d) * org_count_at (org_entry d) Bank * org_count_at (org_entry d) SubArray *
      org_count_at (org_entry d) Row * org_count_at (org_entry d) Column = org_size (org_entry d) * 2 ^ 20.
Proof.
  revert n. apply Forall_forall. destruct o, s, ty; repeat (constructor; [eexists; split; [vm_compute; reflexivity|split; vm_compute; reflexivity]|]); constructor.
Qed.

(** The constructor returns exactly for the powers of two up to 128 as number of
    subarrays, with sensible delays; and then the rows are such that banks, subarrays,
    rows and columns make up the capacity of the device. *)
Theorem ctor_capacity o s ty n :
  0 ≤ n →
  if bool_decide (n ∈ powers) then
    ∃ d, ctor o s ty n = Ok d ∧ speed_ok (speed_entry d) = true ∧
      org_dq (org_entry d) * org_count_at (org_entry d) Bank * org_count_at (org_entry d) SubArray *
        org_count_at (org_entry d) Row * org_count_at (org_entry d) Column = org_size (org_entry d) * 2 ^ 20
  else ctor o s ty n = Err Abort.
Proof.
  intros Hn. case_bool_decide as Hin; [by apply powers_ok|].
  assert (power_test n = false) as Ht.
  { destruct (power_test n) eqn:E; [|done]. by apply power_test_iff in E. }
  unfold power_test in Ht. unfold ctor. rewrite Ht. by destruct o, s.
Qed.

(** ** Refreshes and activates *)
Lemma blocked_entry ty s : is_sarp ty = false → mkEntry ACT 1 (nRFCpb s) false ∈ timing ty s Bank REFPB.
Proof. destruct ty; try done; intros _; apply list_elem_of_In; simpl; tauto. Qed.
Lemma subarray_entries ty s :
  is_sarp ty = true → mkEntry ACT 1 (nRFCpb s) false ∈ timing ty s SubArray REFPB ∧
  mkEntry ACT 1 (nRRD_refresh s) true ∈ timing ty s SubArray REFPB.
Proof. destruct ty; try done; intros _; split; apply list_elem_of_In; simpl; tauto. Qed.

(** In a checked run an activate comes at least [nRFCpb] after every refresh of its
    bank, when subarrays do not work in parallel; when they do, after every refresh that
    went to its subarray, and at least the increased [nRRD] after one that went to
    another subarray of the bank. *)
Theorem activate_after_refresh (d : t) root es1 a1 t1 es2 a2 t2 n p m :
  @fresh standard (spec d) root → level root = Channel →
  @run standard (spec d) root (es1 ++ (REFPB, a1, t1) :: es2 ++ [(ACT, a2, t2)]) n →
  @checked standard (spec d) ACT a2 root p m →
  if is_sarp (dsarp_type d) then
    level m = SubArray →
    (role_of a1 0 (id root) p = Target → t1 + nRFCpb (speed_entry d) ≤ t2) ∧
    (role_of a1 0 (id root) p = Sibling → t1 + nRRD_refresh (speed_entry d) ≤ t2)
  else level m = Bank → role_of a1 0 (id root) p = Target → t1 + nRFCpb (speed_entry d) ≤ t2.
Proof.
  intros Hf Hl Hrun Hck.
  assert (∀ v sib, mkEntry ACT 1 v sib ∈ timing (dsarp_type d) (speed_entry d) (level m) REFPB →
    role_of a1 0 (id root) p = (if sib then Sibling else Target) → t1 + v ≤ t2) as Hkeep.
  { intros v sib Hv Hr. eapply (@timing_ok standard (spec d) (laws d) root es1 REFPB a1 t1 es2 ACT a2 t2 n p m (@mkEntry standard ACT 1 v sib));
      [done|done|rewrite Hl; simpl; lia|done|exact Hv|done|rewrite Hl; exact Hr|intros _; simpl; lia]. }
  destruct (is_sarp (dsarp_type d)) eqn:Hs.
  - intros Hm. destruct (subarray_entries _ (speed_entry d) Hs) as [H1 H2].
    split; intros Hr; [apply (Hkeep _ false)|apply (Hkeep _ true)]; rewrite ?Hm; done.
  - intros Hm Hr. apply (Hkeep _ false); [rewrite Hm; by apply blocked_entry|done].
Qed.

(** ** Runs on a concrete device *)
Definition wit_dsarp (ty : Type_) : t :=
  match ctor DSARP_8Gb_x8 DSARP_1333 ty 8 with
  | Ok d => mkDSARP ty (set_rank_number 1 (org_entry d)) (speed_entry d) (n_sa d) (b_ref_rank d)
  | Err _ => mkDSARP ty (org_table DSARP_8Gb_x8) (speed_table DSARP_1333) 8 false
  end.

Definition wit_rootS (ty : Type_) : Node :=
  match @DRAM_ctor standard (spec (wit_dsarp ty)) 4 Channel with
  | Ok n => n | Err _ => @new_node standard (spec (wit_dsarp ty)) Channel
  end.

(** The tree after commands were issued, as far as that goes. *)
Definition issueS (ty : Type_) (c : Command) (addr : list Z) (clk : Z) (n : Node) : Node :=
  match @update standard (spec (wit_dsarp ty)) c addr clk n with Ok n' => n' | Err _ => n end.

Lemma run_issueS ty root es n c addr clk :
  @run standard (spec (wit_dsarp ty)) root es n → 0 ≤ clk →
  @check standard (spec (wit_dsarp ty)) c addr clk n = Ok true →
  is_Ok (@update standard (spec (wit_dsarp ty)) c addr clk n) = true →
  @run standard (spec (wit_dsarp ty)) root (es ++ [(c, addr, clk)]) (issueS ty c addr clk n).
Proof.
  intros Hrun Hclk Hck Hu. eapply (@run_snoc standard (spec (wit_dsarp ty))); [done..|]. unfold issueS.
  by destruct (@update standard (spec (wit_dsarp ty)) c addr clk n).
Qed.

Lemma wit_freshS ty : @fresh standard (spec (wit_dsarp ty)) (wit_rootS ty).
Proof.
  destruct (@DRAM_ctor_ok standard (spec (wit_dsarp ty)) 4 Channel) as (n & Hn & Hf & _).
  - intros k Hk. simpl in Hk. destruct k as [|[|[|[|k]]]]; [eexists; reflexivity..|lia].
  - simpl; lia.
  - simpl; lia.
  - unfold wit_rootS. by rewrite Hn.
Qed.

Definition wit_refresh : list Z := [0; 0; 3; 2; 5; 0].
Definition wit_other : list Z := [0; 0; 3; 1; 9; 0].

(** With subarrays in parallel an activate of another subarray follows the refresh of a
    bank after six cycles; otherwise it waits for the 109 cycles of the refresh. *)
Example parallel_refresh :
  (λ tc : Type_ * Z, @check standard (spec (wit_dsarp tc.1)) ACT wit_other tc.2
     (issueS tc.1 REFPB wit_refresh 10 (wit_rootS tc.1)))
    <$> [(DSARP_type, 15); (DSARP_type, 16); (REFPB_type, 16); (REFPB_type, 118); (REFPB_type, 119)] =
  [Ok false; Ok true; Ok false; Ok false; Ok true].
Proof. vm_compute. reflexivity. Qed.

Lemma wit_checkedS ty (c : Command) (p : list nat) (addr : list Z) m :
  match node_at (wit_rootS ty) p with Some _ => true | None => false end = true →
  m = match node_at (wit_rootS ty) p with Some m => m | None => wit_rootS ty end →
  role_of addr (level_int (level (wit_rootS ty))) (id (wit_rootS ty)) p = Target →
  (level_int (level m) ≤ level_int (scope c))%nat → @checked standard (spec (wit_dsarp ty)) c addr (wit_rootS ty) p m.
Proof. intros Hm -> ? ?. split; [by destruct (node_at (wit_rootS ty) p)|done]. Qed.

Definition wit_subarray : Node :=
  match node_at (wit_rootS DSARP_type) [0%nat; 3%nat; 1%nat] with Some m => m | None => wit_rootS DSARP_type end.

Lemma activate_after_refresh_witness : 10 + 6 ≤ 16.
Proof.
  refine (proj2 (activate_after_refresh (wit_dsarp DSARP_type) (wit_rootS DSARP_type) [] wit_refresh 10 [] wit_other 16
    (issueS DSARP_type ACT wit_other 16 (issueS DSARP_type REFPB wit_refresh 10 (wit_rootS DSARP_type)))
    [0%nat; 3%nat; 1%nat] wit_subarray (wit_freshS DSARP_type) _ _ _ _) _).
  - vm_compute. reflexivity.
  - apply (run_issueS DSARP_type (wit_rootS DSARP_type) [(REFPB, wit_refresh, 10)]);
      [apply (run_issueS DSARP_type (wit_rootS DSARP_type) []); [apply run_nil|lia|vm_compute; reflexivity..]|lia|vm_compute; reflexivity..].
  - apply wit_checkedS; [vm_compute; reflexivity|reflexivity|vm_compute; reflexivity|vm_compute; lia].
  - vm_compute. reflexivity.
  - vm_compute. reflexivity.
Defined.

Lemma ctor_capacity_witness : ctor DSARP_8Gb_x8 DSARP_1333 SARP 12 = Err Abort.
Proof. exact (ctor_capacity DSARP_8Gb_x8 DSARP_1333 SARP 12 ltac:(lia)). Defined.
End DSARP.

(** ** The device *)

(** [get_constraints]; there is no [tRFC]. *)
Definition DSARP_constraints (parameter : string) (d : DSARP.t) : Q :=
  let s := DSARP.speed_entry d in
  if bool_decide (parameter = "tCK"%string) then DSARP.tCK s
  else inject_Z (
    if bool_decide (parameter = "tRCD"%string) then DSARP.nRCD s
    else if bool_decide (parameter = "tWL"%string) then DSARP.nCWL s
    else if bool_decide (parameter = "tRL"%string) then DSARP.nCL s
    else if bool_decide (parameter = "tWTR"%string) then DSARP.nWTR s
    else if bool_decide (parameter = "tRTW"%string) then DSARP.nCL s + DSARP.nBL s + 2 - DSARP.nCWL s
    else if bool_decide (parameter = "tBus"%string) then DSARP.nBL s
    else if bool_decide (parameter = "tREFI"%string) then DSARP.nREFI s
    else if bool_decide (parameter = "tREFIpb"%string) then DSARP.nREFIpb s
    else if bool_decide (parameter = "tRFCpb"%string) then DSARP.nRFCpb s
    else if bool_decide (parameter = "tRFCab"%string) then DSARP.nRFCab s
    else if bool_decide (parameter = "tRRD"%string) then DSARP.nRRD s
    else if bool_decide (parameter = "tFAW"%string) then DSARP.nFAW s
    else 0).

(** [command_timing(command, type)] before the conversion to [unsigned]. *)
Definition DSARP_delay (s : DSARP.SpeedEntry) (c t : BusPacketType) : Z :=
  match c with
  | PRE => match t with ACT | REF => DSARP.nRPpb s | _ => 0 end
  | PREA => match t with ACT | REF => DSARP.nRPab s | _ => 0 end
  | ACT =>
      match t with
      | ACT => DSARP.nRC s
      | PREA | PRE => DSARP.nRAS s
      | RD | RDA | WR | WRA => DSARP.nRCD s
      | _ => 1
      end
  | RD =>
      match t with
      | RD | RDA => 4
      | WR | WRA => DSARP.nCL s + DSARP.nBL s + 2 - DSARP.nCWL s
      | PRE | PREA => DSARP.nRTP s
      | _ => 1
      end
  | RDA => match t with ACT => DSARP.nRTP s + DSARP.nRPpb s | _ => 1 end
  | WR =>
      match t with
      | RD | RDA => DSARP.nCWL s + 4 + 6
      | WR | WRA => 4
      | PREA | PRE => DSARP.nCWL s + 4 + DSARP.nWR s
      | _ => 1
      end
  | REF => match t with ACT | REF | REFPB => DSARP.nRFCab s | _ => 1 end
  | REFPB => match t with ACT => DSARP.nRRD s | REF | REFPB => DSARP.nRFCpb s | _ => 1 end
  | WRA => match t with ACT => DSARP.nCWL s + 4 + DSARP.nWR s + DSARP.nRPpb s | _ => 1 end
  | _ => 1
  end.

(** [ACT_R] and [ACT_W] have no command here. *)
Definition DSARP_cmd (t : BusPacketType) : res DSARP.Command :=
  match t with
  | RD => Ok DSARP.RD | WR => Ok DSARP.WR | RDA => Ok DSARP.RDA | WRA => Ok DSARP.WRA
  | ACT => Ok DSARP.ACT | PRE => Ok DSARP.PRE | PREA => Ok DSARP.PREA
  | REF => Ok DSARP.REF | REFPB => Ok DSARP.REFPB
  | _ => Err Abort
  end.

(** All six entries of [addr_vec] are rewritten. *)
Definition DSARP_addr (c : BusPacket) : list Z :=
  [0; i32 (bp_rank c); i32 (bp_bank c); i32 (bp_subArray c); i32 (bp_row c); i32 (bp_column c)].

Definition DSARP_set_rank_number (n : Z) (d : DSARP.t) : DSARP.t :=
  DSARP.mkDSARP (DSARP.dsarp_type d) (DSARP.set_rank_number n (DSARP.org_entry d)) (DSARP.speed_entry d)
    (DSARP.n_sa d) (DSARP.b_ref_rank d).

#[export] Program Instance Ramulator_DSARP : Ramulator DSARP.t := {|
  rm_standard := DSARP.standard;
  rm_spec := DSARP.spec;
  rm_laws := DSARP.laws;
  Channel_level := DSARP.Channel; Rank_level := DSARP.Rank; Column_level := DSARP.Column;
  set_rank_number := DSARP_set_rank_number;
  rm_dq := λ d, DSARP.org_dq (DSARP.org_entry d);
  constraints := DSARP_constraints;
  delay := λ d, DSARP_delay (DSARP.speed_entry d);
  convert_cmd := DSARP_cmd;
  convert_addr := DSARP_addr |}.
Next Obligation. done. Qed.
Next Obligation. done. Qed.

Example DSARP_device :
  match Ramulator_ctor (DSARP.wit_dsarp DSARP.DSARP_type) 1 with
  | Ok d => (bankGroups d, banks d, subArrays d, rows d, columns d, dataBusWidth d) = (1, 8, 8, 8192, 2048, 8)
  | Err _ => False
  end.
Proof. vm_compute. reflexivity. Qed.
