(* ===== verification/DeviceChoice.v ===== *)
(** * The choice of the device

    The constructor of [MemorySystem] (src/src/MemorySystem.cpp) makes the device from the
    names of the generation, the speed and the size, which the string constructors of
    the standards (src/dram/DDR3.cpp, src/dram/DDR4.cpp) look up in [std::map]s. The
    pointer [memDev] is one of the three devices; its virtual calls go to that one.

    Main results: for the generations DDR3, DDR4 and DSARP the constructor returns a
    device on a fresh tree, whatever the other names are; the names of the tables
    give their entries and all others the first entry; and any other generation leaves
    the pointer unset. *)
From Stdlib Require Import QArith String.
From S2P Require Import Prelude Types DRAM DDR3 Device DDR4 DSARP.
#[local] Open Scope Z_scope.

(** ** The name maps *)
Definition DDR3_org_map : list (string * DDR3.Org) := [
   ("DDR3_512Mb_x4", DDR3.DDR3_512Mb_x4); ("DDR3_512Mb_x8", DDR3.DDR3_512Mb_x8); ("DDR3_512Mb_x16", DDR3.DDR3_512Mb_x16);
   ("DDR3_1Gb_x4", DDR3.DDR3_1Gb_x4); ("DDR3_1Gb_x8", DDR3.DDR3_1Gb_x8); ("DDR3_1Gb_x16", DDR3.DDR3_1Gb_x16);
   ("DDR3_2Gb_x4", DDR3.DDR3_2Gb_x4); ("DDR3_2Gb_x8", DDR3.DDR3_2Gb_x8); ("DDR3_2Gb_x16", DDR3.DDR3_2Gb_x16);
   ("DDR3_4Gb_x4", DDR3.DDR3_4Gb_x4); ("DDR3_4Gb_x8", DDR3.DDR3_4Gb_x8); ("DDR3_4Gb_x16", DDR3.DDR3_4Gb_x16);
   ("DDR3_8Gb_x4", DDR3.DDR3_8Gb_x4); ("DDR3_8Gb_x8", DDR3.DDR3_8Gb_x8); ("DDR3_8Gb_x16", DDR3.DDR3_8Gb_x16)]%string.

Definition DDR3_speed_map : list (string * DDR3.Speed) := [
   ("DDR3_800D", DDR3.DDR3_800D); ("DDR3_800E", DDR3.DDR3_800E); ("DDR3_1066E", DDR3.DDR3_1066E);
   ("DDR3_1066F", DDR3.DDR3_1066F); ("DDR3_1066G", DDR3.DDR3_1066G); ("DDR3_1333G", DDR3.DDR3_1333G);
   ("DDR3_1333H", DDR3.DDR3_1333H); ("DDR3_1600H", DDR3.DDR3_1600H); ("DDR3_1600J", DDR3.DDR3_1600J);
   ("DDR3_1600K", DDR3.DDR3_1600K); ("DDR3_1866K", DDR3.DDR3_1866K); ("DDR3_1866L", DDR3.DDR3_1866L);
   ("DDR3_2133L", DDR3.DDR3_2133L); ("DDR3_2133M", DDR3.DDR3_2133M)]%string.

Definition DDR4_org_map : list (string * DDR4.Org) := [
   ("DDR4_2Gb_x4", DDR4.DDR4_2Gb_x4); ("DDR4_2Gb_x8", DDR4.DDR4_2Gb_x8); ("DDR4_2Gb_x16", DDR4.DDR4_2Gb_x16);
   ("DDR4_4Gb_x4", DDR4.DDR4_4Gb_x4); ("DDR4_4Gb_x8", DDR4.DDR4_4Gb_x8); ("DDR4_4Gb_x16", DDR4.DDR4_4Gb_x16);
   ("DDR4_8Gb_x4", DDR4.DDR4_8Gb_x4); ("DDR4_8Gb_x8", DDR4.DDR4_8Gb_x8); ("DDR4_8Gb_x16", DDR4.DDR4_8Gb_x16)]%string.

Definition DDR4_speed_map : list (string * DDR4.Speed) := [
   ("DDR4_1600K", DDR4.DDR4_1600K); ("DDR4_1600L", DDR4.DDR4_1600L); ("DDR4_1866M", DDR4.DDR4_1866M);
   ("DDR4_1866N", DDR4.DDR4_1866N); ("DDR4_2133P", DDR4.DDR4_2133P); ("DDR4_2133R", DDR4.DDR4_2133R);
   ("DDR4_2400R", DDR4.DDR4_2400R); ("DDR4_2400U", DDR4.DDR4_2400U)]%string.

(** [map[k]]: a key that is not in the map gets the enumerator of number 0. *)
Fixpoint index_map {A} (zero : A) (m : list (string * A)) (k : string) : A :=
  match m with
  | [] => zero
  | (k', a) :: m => if bool_decide (k = k') then a else index_map zero m k
  end.

Definition DDR3_of_names (org_str speed_str : string) : res DDR3.t :=
  DDR3.ctor (index_map DDR3.DDR3_512Mb_x4 DDR3_org_map org_str) (index_map DDR3.DDR3_800D DDR3_speed_map speed_str).
Definition DDR4_of_names (org_str speed_str : string) : res DDR4.t :=
  DDR4.ctor (index_map DDR4.DDR4_2Gb_x4 DDR4_org_map org_str) (index_map DDR4.DDR4_1600K DDR4_speed_map speed_str).

(** ** The device *)
Inductive AnyDevice :=
| device_DDR3 (d : RamulatorDevice DDR3.t)
| device_DDR4 (d : RamulatorDevice DDR4.t)
| device_DSARP (d : RamulatorDevice DSARP.t).

(** Another generation prints a message; then the unset pointer [memDev] is followed. *)
Definition make_device (gene speed size : string) (ranks : Z) : res AnyDevice :=
  let GeneSpeed := (gene +:+ "_" +:+ speed)%string in
  let GeneSize := (gene +:+ "_" +:+ size)%string in
  if bool_decide (gene = "DDR3"%string) then
    s ← DDR3_of_names GeneSize GeneSpeed; d ← Ramulator_ctor s ranks; Ok (device_DDR3 d)
  else if bool_decide (gene = "DDR4"%string) then
    s ← DDR4_of_names GeneSize GeneSpeed; d ← Ramulator_ctor s ranks; Ok (device_DDR4 d)
  else if bool_decide (gene = "DSARP"%string) then
    s ← DSARP.ctor DSARP.DSARP_8Gb_x8 DSARP.DSARP_1333 DSARP.DSARP_type 64;
    d ← Ramulator_ctor s ranks; Ok (device_DSARP d)
  else Err Undefined.

(** The virtual calls. *)
Definition on_device {X} (f3 : RamulatorDevice DDR3.t → X) (f4 : RamulatorDevice DDR4.t → X)
    (fs : RamulatorDevice DSARP.t → X) (d : AnyDevice) : X :=
  match d with device_DDR3 d => f3 d | device_DDR4 d => f4 d | device_DSARP d => fs d end.

(** A call on one of the devices, whose new state replaces it. *)
Definition wrap {X Y} (f : X → Y) (r : res X) : res Y := x ← r; Ok (f x).

Lemma wrap_Ok {X Y} (f : X → Y) (r : res X) y : wrap f r = Ok y → ∃ x, r = Ok x ∧ y = f x.
Proof. destruct r as [x|]; [|done]. intros [= <-]. by exists x. Qed.

Definition any_receive (p : BusPacket) : AnyDevice → res AnyDevice :=
  on_device (λ d, wrap device_DDR3 (receiveFromBus p d)) (λ d, wrap device_DDR4 (receiveFromBus p d))
    (λ d, wrap device_DSARP (receiveFromBus p d)).

Definition any_update : AnyDevice → res (option BusPacket * AnyDevice) :=
  on_device (λ d, wrap (λ od, (od.1, device_DDR3 od.2)) (update_device d))
    (λ d, wrap (λ od, (od.1, device_DDR4 od.2)) (update_device d))
    (λ d, wrap (λ od, (od.1, device_DSARP od.2)) (update_device d)).

#[export] Program Instance any_device : MemoryDevice AnyDevice := {|
  get_constraints s := on_device (get_constraints s) (get_constraints s) (get_constraints s);
  command_timing c t := on_device (command_timing c t) (command_timing c t) (command_timing c t);
  command_check c := on_device (command_check c) (command_check c) (command_check c);
  receiveFromBus := any_receive;
  update_device := any_update;
  get_DataBus := on_device get_DataBus get_DataBus get_DataBus;
  get_Rank := on_device get_Rank get_Rank get_Rank;
  get_BankGroup := on_device get_BankGroup get_BankGroup get_BankGroup;
  get_Bank := on_device get_Bank get_Bank get_Bank;
  get_Row := on_device get_Row get_Row get_Row;
  get_Column := on_device get_Column get_Column get_Column |}.
Next Obligation.
  intros p [d|d|d] d' Hd; apply wrap_Ok in Hd as (d1 & Hd & ->); by apply (receive_timing p d d1 Hd).
Qed.
Next Obligation.
  intros [d|d|d] o d' Hd; apply wrap_Ok in Hd as ([o1 d1] & Hd & [= -> ->]); by apply (update_device_timing d o1 d1 Hd).
Qed.
Next Obligation. intros p [d|d|d] Ht Hp; cbn [any_receive on_device]; by rewrite receive_data. Qed.
Next Obligation. intros c t [d|d|d]; apply command_timing_range. Qed.

(** ** What is made *)

(** A device just made from a specification: nothing in flight, a fresh tree. *)
Definition made {T} {R : Ramulator T} (s : T) (n : Z) (d : RamulatorDevice T) : Prop :=
  dev_spec d = set_rank_number n s ∧ clockCycle d = 0 ∧ postBuffer d = [] ∧ pendingReadData d = [] ∧
  @fresh rm_standard (rm_spec (dev_spec d)) (channel d) ∧ level (channel d) = Channel_level ∧ id (channel d) = 0.

Lemma Ramulator_ctor_made {T} {R : Ramulator T} (s : T) n :
  (∀ k, (k < @level_int rm_standard (@Row_level rm_standard))%nat → is_Some (@level_of rm_standard k)) →
  (0 < @level_int rm_standard (@Row_level rm_standard))%nat →
  ∃ d, Ramulator_ctor s n = Ok d ∧ made s n d.
Proof.
  intros Hlv H0. unfold Ramulator_ctor.
  destruct (@DRAM_ctor_ok rm_standard (rm_spec (set_rank_number n s)) (@level_int rm_standard (@Row_level rm_standard)) Channel_level)
    as (c & Hc & Hf & Hl & Hi); [done|rewrite Channel_level_int; lia|rewrite Channel_level_int; lia|].
  rewrite Hc. eexists. split; [reflexivity|]. by split_and!.
Qed.

(** Making a device of a specification that exists does not fail. *)
Lemma make_ok {T} {R : Ramulator T} (r : res T) n (f : RamulatorDevice T → AnyDevice) :
  (∃ s, r = Ok s) →
  (∀ k, (k < @level_int rm_standard (@Row_level rm_standard))%nat → is_Some (@level_of rm_standard k)) →
  (0 < @level_int rm_standard (@Row_level rm_standard))%nat →
  ∃ s d, r = Ok s ∧ (s ← r; d ← Ramulator_ctor s n; Ok (f d)) = Ok (f d) ∧ made s n d.
Proof.
  intros (s & ->) Hlv H0. destruct (Ramulator_ctor_made s n Hlv H0) as (d & Hd & Hm).
  exists s, d. split; [done|]. split; [|done]. cbn [mbind res_bind]. by rewrite Hd.
Qed.

(** Whatever the names of speed and size: for DDR3 and DDR4 the device is one of the
    entries the maps give for the names, the first entry for a name they do not have; for
    DSARP it is always the same one; any other generation is undefined. *)
Theorem make_device_spec gene speed size n :
  if bool_decide (gene = "DDR3"%string) then
    ∃ s d, DDR3.ctor (index_map DDR3.DDR3_512Mb_x4 DDR3_org_map ("DDR3_" +:+ size))
                     (index_map DDR3.DDR3_800D DDR3_speed_map ("DDR3_" +:+ speed)) = Ok s ∧
      make_device gene speed size n = Ok (device_DDR3 d) ∧ made s n d
  else if bool_decide (gene = "DDR4"%string) then
    ∃ s d, DDR4.ctor (index_map DDR4.DDR4_2Gb_x4 DDR4_org_map ("DDR4_" +:+ size))
                     (index_map DDR4.DDR4_1600K DDR4_speed_map ("DDR4_" +:+ speed)) = Ok s ∧
      make_device gene speed size n = Ok (device_DDR4 d) ∧ made s n d
  else if bool_decide (gene = "DSARP"%string) then
    ∃ s d, DSARP.ctor DSARP.DSARP_8Gb_x8 DSARP.DSARP_1333 DSARP.DSARP_type 64 = Ok s ∧
      make_device gene speed size n = Ok (device_DSARP d) ∧ made s n d
  else make_device gene speed size n = Err Undefined.
Proof.
  unfold make_device. case_bool_decide as H3; [|case_bool_decide as H4; [|case_bool_decide as Hs; [|done]]]; subst gene; cbv zeta.
  - apply (make_ok (T := DDR3.t) (DDR3_of_names ("DDR3_" +:+ size) ("DDR3_" +:+ speed)) n device_DDR3).
    + destruct (DDR3.ctor_ok_all (index_map DDR3.DDR3_512Mb_x4 DDR3_org_map ("DDR3_" +:+ size))
        (index_map DDR3.DDR3_800D DDR3_speed_map ("DDR3_" +:+ speed))) as (s & Hs & _). by exists s.
    + intros k Hk. apply lookup_lt_is_Some. simpl in *. lia.
    + simpl. lia.
  - apply (make_ok (T := DDR4.t) (DDR4_of_names ("DDR4_" +:+ size) ("DDR4_" +:+ speed)) n device_DDR4).
    + destruct (DDR4.DDR4_ctor_ok (index_map DDR4.DDR4_2Gb_x4 DDR4_org_map ("DDR4_" +:+ size))
        (index_map DDR4.DDR4_1600K DDR4_speed_map ("DDR4_" +:+ speed))) as (s & Hs & _). by exists s.
    + intros k Hk. apply lookup_lt_is_Some. simpl in *. lia.
    + simpl. lia.
  - apply (make_ok (T := DSARP.t) _ n device_DSARP).
    + eexists. vm_compute. reflexivity.
    + intros k Hk. apply lookup_lt_is_Some. simpl in *. lia.
    + simpl. lia.
Qed.

(** Every name of the maps gives its own entry. *)
Lemma index_map_keys {A} (zero : A) m i k a :
  NoDup m.*1 → m !! i = Some (k, a) → index_map zero m k = a.
Proof.
  revert i. induction m as [|[k' a'] m IH]; intros i Hnd Hi; [done|]. simpl in *. apply NoDup_cons in Hnd as [Hk Hnd].
  destruct i as [|i]; simpl in Hi; [injection Hi as <- <-; by rewrite bool_decide_eq_true_2|].
  case_bool_decide as Hkk; [|by eapply IH]. subst k'. exfalso. apply Hk, list_elem_of_fmap. exists (k, a).
  split; [done|]. by eapply list_elem_of_lookup_2.
Qed.

(** A name with a slip, in place of 1600K, gives the slowest device. *)
Example slip :
  match make_device "DDR3" "1600k" "2Gb_x8" 1, make_device "DDR3" "800D" "2Gb_x8" 1 with
  | Ok (device_DDR3 d), Ok (device_DDR3 d') => DDR3.rate (DDR3.speed_entry (dev_spec d)) = 800 ∧ dev_spec d = dev_spec d'
  | _, _ => False
  end.
Proof. vm_compute. by split. Qed.
