(* ===== verification/Refresh.v ===== *)
(** * The refresh machine

    [RefreshMachine] (src/src/RefreshMachine.h), which the command scheduler owns:
    a countdown to the next refresh and a buffer of refresh commands, with the
    activates that reopen the rows the refresh closes.

    Main results: with the mechanism the source selects, [none], no refresh is
    ever generated; [popCommand] reads the front of an empty buffer whenever it
    pops the last command; with [distributed], the countdown fires after
    [tREFI / 8] steps and blocks every bank. *)
From S2P Require Import Prelude Types CmdQueue.

(** [refresh_mechanism]: the source sets [none]; a comment there names the other
    two. *)
Inductive mechanism := none | distributed | per_bank.

#[global] Instance mechanism_eq_dec : EqDecision mechanism.
Proof. solve_decision. Defined.

Record RefreshMachine := mkRefresh {
  rm_ranks : Z;
  rm_banks : Z;
  tREFI : Z;
  tRFCpb : Z;
  tRFC : Z;
  tRCD : Z;
  refresh_mechanism : mechanism;
  rm_commandBuffer : list BusPacket;
  isRefreshingBank : gmap Z bool;
  isRefreshing : bool;
  isInterval : bool;
  Round_robin : Z;
  targetbank : bool;
  flag : bool;
  bank_release : Z;
  interval_pb : Z;
  globeRefreshCountdown : Z;
  refreshCounting : Z;
}.

(** The constructor leaves [targetbank], [bank_release] and [refreshCounting]
    unset: [b], [g] are what the memory held. *)
Definition RefreshMachine_ctor (mech : mechanism) (b : bool) (g : Z)
    (ranks banks tREFI tRFCpb tRFC tRCD : Z) : RefreshMachine :=
  let i := u32 (tREFI / 8) in
  mkRefresh ranks banks tREFI tRFCpb tRFC tRCD mech [] ∅ false false 0 b false g i i g.

Definition set_buffer (l : list BusPacket) (m : RefreshMachine) : RefreshMachine :=
  mkRefresh (rm_ranks m) (rm_banks m) (tREFI m) (tRFCpb m) (tRFC m) (tRCD m) (refresh_mechanism m) l
    (isRefreshingBank m) (isRefreshing m) (isInterval m) (Round_robin m) (targetbank m) (flag m)
    (bank_release m) (interval_pb m) (globeRefreshCountdown m) (refreshCounting m).
Definition set_busy (b : gmap Z bool) (m : RefreshMachine) : RefreshMachine :=
  mkRefresh (rm_ranks m) (rm_banks m) (tREFI m) (tRFCpb m) (tRFC m) (tRCD m) (refresh_mechanism m)
    (rm_commandBuffer m) b (isRefreshing m) (isInterval m) (Round_robin m) (targetbank m) (flag m)
    (bank_release m) (interval_pb m) (globeRefreshCountdown m) (refreshCounting m).
Definition set_flags (refreshing interval fl : bool) (m : RefreshMachine) : RefreshMachine :=
  mkRefresh (rm_ranks m) (rm_banks m) (tREFI m) (tRFCpb m) (tRFC m) (tRCD m) (refresh_mechanism m)
    (rm_commandBuffer m) (isRefreshingBank m) refreshing interval (Round_robin m) (targetbank m) fl
    (bank_release m) (interval_pb m) (globeRefreshCountdown m) (refreshCounting m).
Definition set_target (rr : Z) (t : bool) (m : RefreshMachine) : RefreshMachine :=
  mkRefresh (rm_ranks m) (rm_banks m) (tREFI m) (tRFCpb m) (tRFC m) (tRCD m) (refresh_mechanism m)
    (rm_commandBuffer m) (isRefreshingBank m) (isRefreshing m) (isInterval m) rr t (flag m)
    (bank_release m) (interval_pb m) (globeRefreshCountdown m) (refreshCounting m).
Definition set_counting (release counting : Z) (m : RefreshMachine) : RefreshMachine :=
  mkRefresh (rm_ranks m) (rm_banks m) (tREFI m) (tRFCpb m) (tRFC m) (tRCD m) (refresh_mechanism m)
    (rm_commandBuffer m) (isRefreshingBank m) (isRefreshing m) (isInterval m) (Round_robin m)
    (targetbank m) (flag m) release (interval_pb m) (globeRefreshCountdown m) counting.
Definition set_countdown (n : Z) (m : RefreshMachine) : RefreshMachine :=
  mkRefresh (rm_ranks m) (rm_banks m) (tREFI m) (tRFCpb m) (tRFC m) (tRCD m) (refresh_mechanism m)
    (rm_commandBuffer m) (isRefreshingBank m) (isRefreshing m) (isInterval m) (Round_robin m)
    (targetbank m) (flag m) (bank_release m) (interval_pb m) n (refreshCounting m).

Definition refreshing (m : RefreshMachine) : bool := isRefreshing m.
Definition reachInterval (m : RefreshMachine) : bool := isInterval m.
Definition busyBank (r_bank : Z) (m : RefreshMachine) : bool := default false (isRefreshingBank m !! r_bank).

(** The banks [0 .. banks - 1] marked. *)
Definition mark_banks (b : bool) (m : RefreshMachine) : RefreshMachine :=
  set_busy (foldl (λ acc i, <[Z.of_nat i := b]> acc) (isRefreshingBank m) (seq 0 (Z.to_nat (rm_banks m)))) m.

(** [refresh(refCmd)] on [refCmd == NULL]: the command to send, if any. *)
Definition rm_refresh (m : RefreshMachine) : option BusPacket * RefreshMachine :=
  let refCmd := if flag m then None else head (rm_commandBuffer m) in
  if bool_decide (refreshCounting m = 0) && flag m then
    let m := set_flags false false false m in
    let refCmd := match rm_commandBuffer m with [] => refCmd | c :: _ => Some c end in
    (refCmd,
     match refresh_mechanism m with
     | per_bank => set_busy (<[bank_release m := false]> (isRefreshingBank m)) m
     | distributed => mark_banks false m
     | none => m
     end)
  else (refCmd, m).

(** [popCommand]: after the first command is erased the front of the rest is
    read, whether there is a rest or not. *)
Definition popCommand (m : RefreshMachine) : res RefreshMachine :=
  c ← vec_front (rm_commandBuffer m);
  let m :=
    if bool_decide (busPacketType c = REFPB) then
      set_counting (bp_bank c) (u32 (tRFCpb m)) (set_flags (isRefreshing m) (isInterval m) true m)
    else if bool_decide (busPacketType c = REF) then
      set_counting (bp_bank c) (u32 (tRFC m)) (set_flags (isRefreshing m) (isInterval m) true m)
    else m in
  l ← vec_erase (rm_commandBuffer m) 0;
  let m := set_buffer l m in
  next ← vec_front l;
  Ok (if bool_decide (busPacketType next = ACT)
      then set_counting (bank_release m) (u32 (refreshCounting m + tRCD m)) m else m).

Definition refresh_packet (t : BusPacketType) (row bank rank : Z) : BusPacket :=
  new_BusPacket t 0 0 0 row bank rank 0 0 0.

(** The first loop of [commandGenerate] for one rank. *)
Definition generate_rank (m : RefreshMachine) (rank : nat) : RefreshMachine :=
  mark_banks true
    (set_buffer (rm_commandBuffer m ++
       [refresh_packet PREA 0 0 (Z.of_nat rank); refresh_packet REF 0 0 (Z.of_nat rank)]) m).

(** Its second loop for one queue: a column access at the head of the critical
    buffer gets an activate of its row after the refresh. [getCommand(true)]
    also selects that buffer for the next removal. *)
Definition generate_queue (m : RefreshMachine) (q : CommandQueue) : res (RefreshMachine * CommandQueue) :=
  if (0 <? cq_getSize true q)%nat then
    cq ← getCommand true q;
    let '(c, q) := cq in
    let reopen := refresh_packet ACT (bp_row c) (bp_bank c) (bp_rank c) in
    Ok (if bpt_lt (busPacketType c) ACT then
          match refresh_mechanism m with
          | distributed => set_buffer (rm_commandBuffer m ++ [reopen]) m
          | per_bank =>
              if bool_decide (bp_bank c = Round_robin m) then
                set_busy (<[Round_robin m := true]> (isRefreshingBank m))
                  (set_target (Round_robin m) true
                    (set_buffer (rm_commandBuffer m ++
                       [refresh_packet PRE 0 (Round_robin m) 0; refresh_packet REFPB 0 (Round_robin m) 0; reopen]) m))
              else m
          | none => m
          end
        else m, q)
  else Ok (m, q).

Fixpoint generate_queues (m : RefreshMachine) (qs : list CommandQueue)
    : res (RefreshMachine * list CommandQueue) :=
  match qs with
  | [] => Ok (m, [])
  | q :: qs =>
      mq ← generate_queue m q;
      mqs ← generate_queues mq.1 qs;
      Ok (mqs.1, mq.2 :: mqs.2)
  end.

Definition rm_commandGenerate (m : RefreshMachine) (qs : list CommandQueue)
    : res (RefreshMachine * list CommandQueue) :=
  let m := set_target (Round_robin m) false m in
  let m := match refresh_mechanism m with
           | distributed => foldl generate_rank m (seq 0 (Z.to_nat (rm_ranks m)))
           | _ => m
           end in
  mqs ← generate_queues m qs;
  let '(m, qs) := mqs in
  Ok (match refresh_mechanism m with
      | per_bank =>
          let m := if targetbank m then m
                   else set_busy (<[Round_robin m := true]> (isRefreshingBank m))
                          (set_buffer (rm_commandBuffer m ++ [refresh_packet REFPB 0 (Round_robin m) 0]) m) in
          let rr := u32 (Round_robin m + 1) in
          set_target (if bool_decide (rr = 8) then 0 else rr) (targetbank m) m
      | _ => m
      end, qs).

(** [step]: [commandQueues] are the scheduler's queues. *)
Definition rm_step (m : RefreshMachine) (qs : list CommandQueue) : res (RefreshMachine * list CommandQueue) :=
  let m := if bool_decide (refresh_mechanism m = none) then m
           else set_countdown (u32 (globeRefreshCountdown m - 1)) m in
  mqs ← (if bool_decide (globeRefreshCountdown m = 0) then
           let m := set_flags true true (flag m) m in
           let m := match refresh_mechanism m with
                    | per_bank => set_countdown (interval_pb m) m
                    | distributed => set_countdown (u32 (tREFI m)) m
                    | none => m
                    end in
           rm_commandGenerate m qs
         else Ok (m, qs));
  let '(m, qs) := mqs in
  Ok (if bool_decide (refreshCounting m = 0) then m
      else set_counting (bank_release m) (refreshCounting m - 1) m, qs).

(** ** Properties *)

Fixpoint rm_steps (n : nat) (m : RefreshMachine) (qs : list CommandQueue)
    : res (RefreshMachine * list CommandQueue) :=
  match n with
  | O => Ok (m, qs)
  | S n => mqs ← rm_step m qs; rm_steps n mqs.1 mqs.2
  end.

(** Nothing is refreshed, and nothing waits to be. *)
Definition idle (m : RefreshMachine) : Prop :=
  isRefreshing m = false ∧ isInterval m = false ∧ flag m = false ∧
  rm_commandBuffer m = [] ∧ isRefreshingBank m = ∅.

Lemma rm_step_none m qs :
  refresh_mechanism m = none → globeRefreshCountdown m ≠ 0 → idle m →
  ∃ m', rm_step m qs = Ok (m', qs) ∧ refresh_mechanism m' = none ∧
    globeRefreshCountdown m' = globeRefreshCountdown m ∧ idle m'.
Proof.
  intros Hn Hc Hidle. unfold rm_step. rewrite (bool_decide_true (refresh_mechanism m = none)) by done.
  rewrite (bool_decide_false (globeRefreshCountdown m = 0)) by done. simpl.
  case_bool_decide; eexists; (split; [done|]); by split_and!.
Qed.

(** With the mechanism [none], which is the one the constructor selects, and a
    refresh interval of at least eight cycles, no number of steps starts a
    refresh, blocks a bank or touches a command queue; [refresh] has no command. *)
Theorem none_never_refreshes n b g ranks banks refi rfcpb rfc rcd qs :
  8 ≤ refi < 2 ^ 32 →
  ∃ m, rm_steps n (RefreshMachine_ctor none b g ranks banks refi rfcpb rfc rcd) qs = Ok (m, qs) ∧
    refreshing m = false ∧ reachInterval m = false ∧ (∀ k, busyBank k m = false) ∧
    (rm_refresh m).1 = None.
Proof.
  intros Hr. assert (∀ n m, refresh_mechanism m = none → globeRefreshCountdown m ≠ 0 → idle m →
    ∃ m', rm_steps n m qs = Ok (m', qs) ∧ idle m') as Hsteps.
  { clear n. induction n as [|n IH]; intros m Hn Hc Hi; simpl; [by eauto|].
    destruct (rm_step_none m qs Hn Hc Hi) as (m' & -> & Hn' & Hc' & Hi'). simpl.
    apply IH; [done|by rewrite Hc'|done]. }
  destruct (Hsteps n (RefreshMachine_ctor none b g ranks banks refi rfcpb rfc rcd)) as (m & -> & Hidle);
    [done| |by split_and!|].
  { simpl. rewrite u32_small; [|split; Z.to_euclidean_division_equations; lia].
    Z.to_euclidean_division_equations; lia. }
  destruct Hidle as (H1 & H2 & H3 & H4 & H5). exists m. split; [done|]. split; [done|]. split; [done|].
  split; [intros k; unfold busyBank; by rewrite H5|].
  unfold rm_refresh. rewrite H3, H4, andb_false_r. done.
Qed.

(** [popCommand] reads behind the end of the buffer exactly when it holds at
    most one command: removing the last command of a refresh is undefined. *)
Theorem popCommand_undefined m :
  popCommand m = Err Undefined ↔ (length (rm_commandBuffer m) ≤ 1)%nat.
Proof.
  unfold popCommand. destruct (rm_commandBuffer m) as [|c [|c' l]] eqn:E; simpl.
  - split; [lia|done].
  - split; [lia|intros _]. repeat case_bool_decide; unfold set_counting, set_flags; simpl; by rewrite E.
  - split; [|lia]. repeat case_bool_decide; unfold set_counting, set_flags; simpl; by rewrite E.
Qed.

Lemma rm_step_waits m qs :
  refresh_mechanism m ≠ none → 1 < globeRefreshCountdown m < 2 ^ 32 →
  ∃ m', rm_step m qs = Ok (m', qs) ∧ refresh_mechanism m' = refresh_mechanism m ∧
    globeRefreshCountdown m' = globeRefreshCountdown m - 1 ∧ isRefreshing m' = isRefreshing m ∧
    rm_commandBuffer m' = rm_commandBuffer m ∧ rm_banks m' = rm_banks m ∧ tREFI m' = tREFI m.
Proof.
  intros Hm Hc. unfold rm_step. rewrite (bool_decide_false (refresh_mechanism m = none)) by done.
  simpl. rewrite u32_small by lia. rewrite bool_decide_false by lia. simpl.
  case_bool_decide; eexists; (split; [done|]); by split_and!.
Qed.

(** With [distributed] or [per-bank] the first refresh starts after exactly
    [tREFI / 8] steps: before that the machine does not refresh and has no
    command. *)
Theorem first_refresh_not_before n mech b g ranks banks refi rfcpb rfc rcd qs :
  mech ≠ none → 8 ≤ refi < 2 ^ 32 → Z.of_nat n < refi / 8 →
  ∃ m, rm_steps n (RefreshMachine_ctor mech b g ranks banks refi rfcpb rfc rcd) qs = Ok (m, qs) ∧
    refreshing m = false ∧ rm_commandBuffer m = [] ∧ globeRefreshCountdown m = refi / 8 - Z.of_nat n.
Proof.
  intros Hm Hr Hn.
  assert (∀ n m, refresh_mechanism m ≠ none → Z.of_nat n < globeRefreshCountdown m < 2 ^ 32 →
    ∃ m', rm_steps n m qs = Ok (m', qs) ∧ isRefreshing m' = isRefreshing m ∧
      rm_commandBuffer m' = rm_commandBuffer m ∧
      globeRefreshCountdown m' = globeRefreshCountdown m - Z.of_nat n) as Hsteps.
  { clear. induction n as [|n IH]; intros m Hm Hc; cbn [rm_steps].
    - exists m. split_and!; [done..|lia].
    - destruct (rm_step_waits m qs Hm) as (m1 & -> & E1 & E2 & E3 & E4 & _); [lia|]. simpl.
      destruct (IH m1) as (m' & -> & F1 & F2 & F3); [by rewrite E1|lia|].
      exists m'. split_and!; [done|congruence|congruence|lia]. }
  assert (0 ≤ refi / 8 < 2 ^ 32) as Hi by (Z.to_euclidean_division_equations; lia).
  destruct (Hsteps n (RefreshMachine_ctor mech b g ranks banks refi rfcpb rfc rcd)) as (m & -> & H1 & H2 & H3);
    [done|simpl; rewrite u32_small; lia|].
  exists m. simpl in H1, H2, H3. rewrite u32_small in H3 by lia. by split_and!.
Qed.

(** ** Witnesses *)
Lemma none_never_refreshes_witness :
  ∃ m, rm_steps 100 (RefreshMachine_ctor none true 3 1 8 6240 0 128 11) [CommandQueue_ctor false]
      = Ok (m, [CommandQueue_ctor false]) ∧
    refreshing m = false ∧ reachInterval m = false ∧ (∀ k, busyBank k m = false) ∧
    (rm_refresh m).1 = None.
Proof. apply (none_never_refreshes 100 true 3 1 8 6240 0 128 11 [CommandQueue_ctor false]). lia. Defined.

Lemma first_refresh_not_before_witness :
  ∃ m, rm_steps 779 (RefreshMachine_ctor distributed true 0 1 8 6240 0 128 11) []
      = Ok (m, []) ∧
    refreshing m = false ∧ rm_commandBuffer m = [] ∧ globeRefreshCountdown m = 1.
Proof.
  apply (first_refresh_not_before 779 distributed true 0 1 8 6240 0 128 11 []); [discriminate|lia|].
  vm_compute. reflexivity.
Defined.
