(* ===== verification/CmdSched.v ===== *)
(** * Command schedulers: the base class

    [CommandScheduler] (src/src/CommandScheduler.cpp, CommandScheduler.h): the
    timers of the command queues, the tests a scheduling algorithm makes
    ([isReady], [isIssuable]), the sending of a command and the refresh.
    The device is any instance of [MemoryDevice]. A state of this file holds the
    objects the scheduler reaches: its queues, its device, its refresh machine. The
    members [checkCommand], [checkCommand_temp_1], [checkCommand_temp_2] and
    [index_temp] are scratch variables every algorithm sets before it reads them:
    they are variables of the algorithms here.

    Main result: the timers, decremented once a cycle and raised by every command
    sent, are an exact record of absolute times: a command is ready exactly when
    every command sent before from the same queue (of the same requestor, when
    the queue has one buffer per requestor) lies at least the delay that
    [command_timing] gives for the pair in the past. *)
From S2P Require Import Prelude Types CmdQueue DRAM DDR3 Device Refresh.

Abbreviation timers := (gmap nat Z).

Section scheduler.
Context {Dev : Type} `{MemoryDevice Dev}.

Record CommandScheduler := mkScheduler {
  memoryDevice : Dev;
  refreshMachine : RefreshMachine;
  commandQueues : list CommandQueue;
  cmdQueueTimer : gmap nat timers;
  reqCmdQueueTimer : list (gmap Z timers);
  requestorCriticalTable : gmap Z bool;
  scheduledCommand : option BusPacket;
  sched_clock : Z;
}.

Definition set_memoryDevice (d : Dev) (s : CommandScheduler) : CommandScheduler :=
  mkScheduler d (refreshMachine s) (commandQueues s) (cmdQueueTimer s) (reqCmdQueueTimer s)
    (requestorCriticalTable s) (scheduledCommand s) (sched_clock s).
Definition set_refreshMachine (m : RefreshMachine) (s : CommandScheduler) : CommandScheduler :=
  mkScheduler (memoryDevice s) m (commandQueues s) (cmdQueueTimer s) (reqCmdQueueTimer s)
    (requestorCriticalTable s) (scheduledCommand s) (sched_clock s).
Definition set_commandQueues (l : list CommandQueue) (s : CommandScheduler) : CommandScheduler :=
  mkScheduler (memoryDevice s) (refreshMachine s) l (cmdQueueTimer s) (reqCmdQueueTimer s)
    (requestorCriticalTable s) (scheduledCommand s) (sched_clock s).
Definition set_cmdQueueTimer (t : gmap nat timers) (s : CommandScheduler) : CommandScheduler :=
  mkScheduler (memoryDevice s) (refreshMachine s) (commandQueues s) t (reqCmdQueueTimer s)
    (requestorCriticalTable s) (scheduledCommand s) (sched_clock s).
Definition set_reqCmdQueueTimer (t : list (gmap Z timers)) (s : CommandScheduler) : CommandScheduler :=
  mkScheduler (memoryDevice s) (refreshMachine s) (commandQueues s) (cmdQueueTimer s) t
    (requestorCriticalTable s) (scheduledCommand s) (sched_clock s).
Definition set_scheduledCommand (c : option BusPacket) (s : CommandScheduler) : CommandScheduler :=
  mkScheduler (memoryDevice s) (refreshMachine s) (commandQueues s) (cmdQueueTimer s) (reqCmdQueueTimer s)
    (requestorCriticalTable s) c (sched_clock s).
Definition set_sched_clock (n : Z) (s : CommandScheduler) : CommandScheduler :=
  mkScheduler (memoryDevice s) (refreshMachine s) (commandQueues s) (cmdQueueTimer s) (reqCmdQueueTimer s)
    (requestorCriticalTable s) (scheduledCommand s) n.

Definition set_criticalTable (t : gmap Z bool) (s : CommandScheduler) : CommandScheduler :=
  mkScheduler (memoryDevice s) (refreshMachine s) (commandQueues s) (cmdQueueTimer s) (reqCmdQueueTimer s)
    t (scheduledCommand s) (sched_clock s).

Definition getTiming (param : string) (d : Dev) : Z := float_u32 (get_constraints param d).

(** The constructor and [connectMemoryDevice]: one map of timers per queue there
    is at construction. [b], [g] are the memory the refresh machine leaves unset. *)
Definition CommandScheduler_ctor (b : bool) (g : Z) (queues : list CommandQueue)
    (table : gmap Z bool) (memDev : Dev) : CommandScheduler :=
  mkScheduler memDev
    (RefreshMachine_ctor none b g (get_Rank memDev) (get_Bank memDev) (getTiming "tREFI" memDev)
       (getTiming "tRFCpb" memDev) (getTiming "tRFC" memDev) (getTiming "tRCD" memDev))
    queues ∅ (replicate (length queues) ∅) table None 1.

Definition queue_at (i : nat) (s : CommandScheduler) : res CommandQueue := vec_at (commandQueues s) i.

(** [commandQueue[index]->f()] for an operation that changes the queue. *)
Definition set_queue (i : nat) (q : CommandQueue) (s : CommandScheduler) : CommandScheduler :=
  set_commandQueues (<[i := q]> (commandQueues s)) s.

Definition sched_refreshing (s : CommandScheduler) : bool := refreshing (refreshMachine s).

(** A timer that was never set: [find] fails, or [operator[]] gives 0. *)
Definition timer (t : timers) (type : nat) : Z := default 0 (t !! type).

(** [isReady(cmd, index)]. (It also enters an empty map for an unknown queue or
    requestor, which no operation tells from no map.) *)
Definition isReady (cmd : BusPacket) (index : nat) (s : CommandScheduler) : res bool :=
  q ← queue_at index s;
  if cq_isPerRequestor q then
    ts ← vec_at (reqCmdQueueTimer s) index;
    let t := default ∅ (ts !! bp_requestorID cmd) in
    Ok (bool_decide (timer t (bpt_int (busPacketType cmd)) = 0))
  else
    let t := default ∅ (cmdQueueTimer s !! index) in
    Ok (bool_decide (timer t (bpt_int (busPacketType cmd)) = 0)).

Definition isIssuableRefresh (cmd : BusPacket) (s : CommandScheduler) : res bool :=
  command_check cmd (memoryDevice s).

Definition isIssuable (cmd : BusPacket) (s : CommandScheduler) : res bool :=
  if busyBank (bp_bank cmd) (refreshMachine s) then Ok false
  else command_check cmd (memoryDevice s).

(** [for (type = RD; type != PDE; type++) t[type] = max(t[type], command_timing(cmd, type))]. *)
Definition raise_timers (cmd : BusPacket) (d : Dev) (t : timers) : timers :=
  foldl (λ t type, <[type := Z.max (timer t type) (command_timing cmd type d)]> t) t
    (seq (bpt_int RD) (bpt_int PDE)).

(** [sendCommand(cmd, index, bypass)], without its trace output. The packet that
    goes to the device is [scheduledCommand]. *)
Definition sendCommand (cmd : BusPacket) (index : nat) (bypass : bool) (s : CommandScheduler)
    : res CommandScheduler :=
  q ← queue_at index s;
  s ← (if cq_isPerRequestor q then
         ts ← vec_at (reqCmdQueueTimer s) index;
         let t := raise_timers cmd (memoryDevice s) (default ∅ (ts !! bp_requestorID cmd)) in
         q ← removeCommand_req (bp_requestorID cmd) q;
         Ok (set_queue index q
               (set_reqCmdQueueTimer (<[index := <[bp_requestorID cmd := t]> ts]> (reqCmdQueueTimer s)) s))
       else
         let t := raise_timers cmd (memoryDevice s) (default ∅ (cmdQueueTimer s !! index)) in
         let s := set_cmdQueueTimer (<[index := t]> (cmdQueueTimer s)) s in
         if bypass then Ok s
         else q ← removeCommand q; Ok (set_queue index q s));
  c ← of_option Undefined (scheduledCommand s);
  d ← receiveFromBus c (memoryDevice s);
  Ok (set_memoryDevice d s).

Definition commandClear (s : CommandScheduler) : CommandScheduler := set_scheduledCommand None s.

(** [refresh()]: sends a due refresh command when the device allows it. *)
Definition sched_refresh (s : CommandScheduler) : res CommandScheduler :=
  if reachInterval (refreshMachine s) then
    let '(tempCmd, m) := rm_refresh (refreshMachine s) in
    let s := set_refreshMachine m s in
    match tempCmd with
    | None => Ok s
    | Some c =>
        b ← isIssuableRefresh c s;
        if b : bool then
          d ← receiveFromBus c (memoryDevice s);
          m ← popCommand (refreshMachine s);
          Ok (set_refreshMachine m (set_memoryDevice d s))
        else Ok s
    end
  else Ok s.

Definition count_timers (t : timers) : timers := (λ x, if bool_decide (0 < x) then x - 1 else x) <$> t.

(** One queue of the loop of [tick]. *)
Definition tick_queue (index : nat) (q : CommandQueue) (s : CommandScheduler) : res CommandScheduler :=
  if cq_isPerRequestor q then
    ts ← vec_at (reqCmdQueueTimer s) index;
    Ok (set_reqCmdQueueTimer (<[index := fmap (M:=gmap Z) count_timers ts]> (reqCmdQueueTimer s)) s)
  else
    match cmdQueueTimer s !! index with
    | Some t => Ok (set_cmdQueueTimer (<[index := count_timers t]> (cmdQueueTimer s)) s)
    | None => Ok s
    end.

Definition tick (s : CommandScheduler) : res CommandScheduler :=
  s ← foldM (imap pair (commandQueues s)) s (λ iq, tick_queue iq.1 iq.2);
  mqs ← rm_step (refreshMachine s) (commandQueues s);
  Ok (set_sched_clock (u64 (sched_clock s + 1))
        (set_commandQueues mqs.2 (set_refreshMachine mqs.1 s))).
End scheduler.
Arguments CommandScheduler Dev : clear implicits.

(** ** The timers record absolute times *)
Section timers.
Context {Dev : Type} `{MemoryDevice Dev}.
Implicit Types s : CommandScheduler Dev.

Definition dec (x : Z) : Z := if bool_decide (0 < x) then x - 1 else x.

(** The timer of a command type for requestor [id] at queue [i]. *)
Definition timer_of s (i : nat) (id : Z) (type : nat) : Z :=
  match commandQueues s !! i with
  | Some q =>
      if cq_isPerRequestor q then timer (default ∅ (default ∅ (reqCmdQueueTimer s !! i) !! id)) type
      else timer (default ∅ (cmdQueueTimer s !! i)) type
  | None => 0
  end.

Lemma isReady_timer cmd i s b :
  isReady cmd i s = Ok b →
  b = bool_decide (timer_of s i (bp_requestorID cmd) (bpt_int (busPacketType cmd)) = 0).
Proof.
  unfold isReady, timer_of, queue_at. intros Hr. apply bind_Ok in Hr as (q & Hq%vec_at_Ok & Hr).
  rewrite Hq. destruct (cq_isPerRequestor q).
  - apply bind_Ok in Hr as (ts & Hts%vec_at_Ok & Hr). rewrite Hts. by simplify_res.
  - by simplify_res.
Qed.

Lemma timer_empty type : timer ∅ type = 0.
Proof. unfold timer. by rewrite lookup_empty. Qed.

Lemma timer_count (o : option timers) type :
  timer (default ∅ (count_timers <$> o)) type = dec (timer (default ∅ o) type).
Proof.
  destruct o as [t|]; simpl.
  - unfold timer, count_timers, dec. rewrite lookup_fmap. by destruct (t !! type).
  - by rewrite timer_empty.
Qed.

(** The kind of queue [j] when the queues [l] have the indices from [k] on. *)
Definition kind (l : list CommandQueue) (k j : nat) : option bool :=
  if decide (k ≤ j)%nat then cq_isPerRequestor <$> l !! (j - k)%nat else None.

Lemma tick_loop l k s s' :
  foldM (imap (λ i q, ((k + i)%nat, q)) l) s (λ iq, tick_queue iq.1 iq.2) = Ok s' →
  commandQueues s' = commandQueues s ∧ memoryDevice s' = memoryDevice s ∧
  ∀ j,
    cmdQueueTimer s' !! j =
      (if decide (kind l k j = Some false) then count_timers <$> cmdQueueTimer s !! j
       else cmdQueueTimer s !! j) ∧
    reqCmdQueueTimer s' !! j =
      (if decide (kind l k j = Some true) then fmap (M:=gmap Z) count_timers <$> reqCmdQueueTimer s !! j
       else reqCmdQueueTimer s !! j).
Proof.
  revert k s. induction l as [|q l IH]; intros k s Hf; simpl in Hf.
  - injection Hf as <-. split_and!; [done..|]. intros j. unfold kind.
    split; case_decide; try done; case_decide; simpl in *; done.
  - apply bind_Ok in Hf as (s1 & Hs1 & Hf). rewrite Nat.add_0_r in Hs1.
    rewrite (imap_ext _ (λ i q, ((S k + i)%nat, q))) in Hf by (intros; simpl; f_equal; lia).
    apply IH in Hf as (E1 & E2 & Hf).
    assert (∀ j, kind (q :: l) k j = if decide (j = k) then Some (cq_isPerRequestor q) else kind l (S k) j) as Hk.
    { intros j. unfold kind. destruct (decide (j = k)) as [->|Hne].
      - rewrite decide_True by lia. by rewrite Nat.sub_diag.
      - destruct (decide (k ≤ j)%nat), (decide (S k ≤ j)%nat); try lia; [|done].
        by replace (j - k)%nat with (S (j - S k)) by lia. }
    assert (∀ j, j = k → kind l (S k) j = None) as Hkk by (intros j ->; unfold kind; by rewrite decide_False by lia).
    unfold tick_queue in Hs1. destruct (cq_isPerRequestor q) eqn:Hq.
    + apply bind_Ok in Hs1 as (ts & Hts%vec_at_Ok & Hs1). injection Hs1 as <-.
      rewrite E1, E2. split_and!; [done..|]. intros j. destruct (Hf j) as [-> ->]. rewrite Hk. simpl.
      destruct (decide (j = k)) as [->|Hne].
      * rewrite (Hkk k eq_refl), !decide_False by done. rewrite decide_True by done.
        split; [done|]. rewrite list_lookup_insert_eq by (by eapply lookup_lt_Some). by rewrite Hts.
      * by rewrite list_lookup_insert_ne by done.
    + destruct (cmdQueueTimer s !! k) as [t|] eqn:Ht; injection Hs1 as <-; rewrite E1, E2;
        (split_and!; [done..|]); intros j; destruct (Hf j) as [-> ->]; rewrite Hk; simpl;
        (destruct (decide (j = k)) as [->|Hne]; [rewrite (Hkk k eq_refl), !decide_False by done|]).
      * rewrite decide_True by done. split; [|done]. by rewrite lookup_insert_eq, Ht.
      * by rewrite lookup_insert_ne.
      * rewrite decide_True by done. split; [|done]. by rewrite Ht.
      * done.
Qed.

(** A queue keeps its kind. *)
Definition kinds (qs : list CommandQueue) : list bool := cq_isPerRequestor <$> qs.

Lemma generate_queues_kinds m qs m' qs' : generate_queues m qs = Ok (m', qs') → kinds qs' = kinds qs.
Proof.
  revert m m' qs'. induction qs as [|q qs IH]; intros m m' qs' Hg; simpl in Hg.
  - by injection Hg as <- <-.
  - apply bind_Ok in Hg as ([m1 q1] & Hq & Hg). apply bind_Ok in Hg as ([m2 qs2] & Hqs & Hg).
    injection Hg as <- <-. simpl. f_equal; [|by eapply IH].
    unfold generate_queue in Hq. case_match; [|by injection Hq as <- <-].
    apply bind_Ok in Hq as ([c q2] & Hc & Hq).
    apply getCommand_front in Hc as [-> _]. by injection Hq as <- <-.
Qed.

Lemma rm_step_kinds m qs m' qs' : rm_step m qs = Ok (m', qs') → kinds qs' = kinds qs.
Proof.
  unfold rm_step. intros Hs. apply bind_Ok in Hs as ([m1 qs1] & H1 & Hs). injection Hs as _ <-.
  case_bool_decide; [|by injection H1 as <- <-].
  unfold rm_commandGenerate in H1. apply bind_Ok in H1 as ([m2 qs2] & Hg & H1). injection H1 as _ <-.
  by eapply generate_queues_kinds.
Qed.

Lemma kind_lookup qs i : kind qs 0 i = kinds qs !! i.
Proof. unfold kind, kinds. rewrite decide_True by lia. by rewrite list_lookup_fmap, Nat.sub_0_r. Qed.

Lemma timer_of_kind s i id type :
  timer_of s i id type =
    match kinds (commandQueues s) !! i with
    | Some true => timer (default ∅ (default ∅ (reqCmdQueueTimer s !! i) !! id)) type
    | Some false => timer (default ∅ (cmdQueueTimer s !! i)) type
    | None => 0
    end.
Proof.
  unfold timer_of, kinds. rewrite list_lookup_fmap. destruct (commandQueues s !! i) as [q|]; [|done].
  simpl. by destruct (cq_isPerRequestor q).
Qed.

(** [tick] counts every timer down once. *)
Lemma tick_timer s s' i id type :
  tick s = Ok s' →
  timer_of s' i id type = dec (timer_of s i id type) ∧
  kinds (commandQueues s') = kinds (commandQueues s) ∧ memoryDevice s' = memoryDevice s.
Proof.
  unfold tick. intros Ht. apply bind_Ok in Ht as (s1 & Hl & Ht).
  apply bind_Ok in Ht as ([m qs] & Hm & Ht). injection Ht as <-.
  rewrite (imap_ext _ (λ i q, ((0 + i)%nat, q))) in Hl by done.
  apply tick_loop in Hl as (E1 & E2 & Hl). apply rm_step_kinds in Hm.
  split; [|split; [simpl; by rewrite Hm, E1|simpl; by rewrite E2]].
  rewrite !timer_of_kind. simpl. rewrite Hm, E1. destruct (Hl i) as [-> ->]. rewrite kind_lookup.
  destruct (kinds (commandQueues s) !! i) as [[]|]; simpl.
  - destruct (reqCmdQueueTimer s !! i) as [ts|]; simpl.
    + rewrite lookup_fmap. apply timer_count.
    + rewrite lookup_empty. simpl. by rewrite timer_empty.
  - apply timer_count.
  - done.
Qed.

Lemma raise_timers_spec cmd (d : Dev) (t : timers) type :
  timer (raise_timers cmd d t) type =
    if decide (type < bpt_int PDE)%nat then Z.max (timer t type) (command_timing cmd type d)
    else timer t type.
Proof.
  unfold raise_timers. change (bpt_int RD) with 0%nat.
  assert (∀ n t, timer (foldl (λ t type, <[type := Z.max (timer t type) (command_timing cmd type d)]> t) t (seq 0 n)) type
    = if decide (type < n)%nat then Z.max (timer t type) (command_timing cmd type d) else timer t type) as Hn.
  { clear t. induction n as [|n IH]; intros t; [done|].
    rewrite seq_S, foldl_app. simpl. unfold timer at 1. destruct (decide (type = n)) as [->|Hne].
    - rewrite lookup_insert_eq. simpl. rewrite IH, decide_False by lia. by rewrite decide_True by lia.
    - rewrite lookup_insert_ne by done. fold (timer (foldl (λ t type, <[type := Z.max (timer t type) (command_timing cmd type d)]> t) t (seq 0 n)) type).
      rewrite IH. destruct (decide (type < n)%nat), (decide (type < S n)%nat); done || lia. }
  apply Hn.
Qed.

Lemma removeCommand_req_kind id q q' :
  removeCommand_req id q = Ok q' → cq_isPerRequestor q' = cq_isPerRequestor q.
Proof. intros Hr. apply bind_Ok in Hr as (l & _ & Hr). by injection Hr as <-. Qed.

Lemma removeCommand_kind q q' : removeCommand q = Ok q' → cq_isPerRequestor q' = cq_isPerRequestor q.
Proof.
  unfold removeCommand. destruct (scheduledQueue q); intros Hr;
    apply bind_Ok in Hr as (l & _ & Hr); by injection Hr as <-.
Qed.

Lemma set_queue_kinds (qs : list CommandQueue) i q q' :
  qs !! i = Some q → cq_isPerRequestor q' = cq_isPerRequestor q → kinds (<[i := q']> qs) = kinds qs.
Proof.
  intros Hq E. unfold kinds. rewrite list_fmap_insert. apply list_insert_id.
  by rewrite list_lookup_fmap, Hq, E.
Qed.

(** A command sent from queue [i] concerns the timers of queue [j], requestor
    [id]. *)
Definition concerns (ks : list bool) (i : nat) (cmd : BusPacket) (j : nat) (id : Z) : bool :=
  bool_decide (j = i ∧ (ks !! i = Some true → id = bp_requestorID cmd)).

(** [sendCommand] raises the timers of its queue and requestor. *)
Lemma send_timer_all cmd i bypass s s' j id type :
  sendCommand cmd i bypass s = Ok s' →
  kinds (commandQueues s') = kinds (commandQueues s) ∧
  (∀ c t, command_timing c t (memoryDevice s') = command_timing c t (memoryDevice s)) ∧
  timer_of s' j id type =
    (if concerns (kinds (commandQueues s)) i cmd j id
     then if decide (type < bpt_int PDE)%nat
          then Z.max (timer_of s j id type) (command_timing cmd type (memoryDevice s))
          else timer_of s j id type
     else timer_of s j id type).
Proof.
  intros Hs. unfold sendCommand in Hs. apply bind_Ok in Hs as (q & Hq%vec_at_Ok & Hs).
  apply bind_Ok in Hs as (s1 & Hs1 & Hs). apply bind_Ok in Hs as (c & _ & Hs).
  apply bind_Ok in Hs as (d & Hd & Hs). injection Hs as <-. apply receive_timing in Hd as [Hd _].
  assert (kinds (commandQueues s) !! i = Some (cq_isPerRequestor q)) as Hki
    by (unfold kinds; by rewrite list_lookup_fmap, Hq).
  rewrite !timer_of_kind. simpl. unfold concerns.
  destruct (cq_isPerRequestor q) eqn:Hper.
  - apply bind_Ok in Hs1 as (ts & Hts%vec_at_Ok & Hs1). apply bind_Ok in Hs1 as (q' & Hq' & Hs1).
    injection Hs1 as <-. simpl in Hd |- *. apply removeCommand_req_kind in Hq'.
    rewrite (set_queue_kinds _ _ q) by congruence. split_and!; [done|done|].
    destruct (decide (j = i)) as [->|Hne].
    + rewrite Hki, list_lookup_insert_eq by (by eapply lookup_lt_Some). rewrite Hts. simpl.
      destruct (decide (id = bp_requestorID cmd)) as [->|Hid].
      * rewrite lookup_insert_eq, bool_decide_true by done. simpl.
        apply raise_timers_spec.
      * rewrite lookup_insert_ne by done. rewrite bool_decide_false; [done|]. intros [_ ?]. by apply Hid; auto.
    + rewrite list_lookup_insert_ne by done. rewrite bool_decide_false by (by intros [? _]). done.
  - assert (∃ qs, s1 = set_commandQueues qs (set_cmdQueueTimer
        (<[i := raise_timers cmd (memoryDevice s) (default ∅ (cmdQueueTimer s !! i))]> (cmdQueueTimer s)) s) ∧
        kinds qs = kinds (commandQueues s)) as (qs & -> & Hqs).
    { destruct bypass.
      - exists (commandQueues s). by injection Hs1 as <-.
      - apply bind_Ok in Hs1 as (q' & Hq' & Hs1). injection Hs1 as <-.
        exists (<[i := q']> (commandQueues s)). split; [done|]. apply removeCommand_kind in Hq'.
        apply (set_queue_kinds _ _ q); congruence. }
    simpl in Hd |- *. rewrite Hqs. split_and!; [done|done|].
    destruct (decide (j = i)) as [->|Hne].
    + rewrite Hki, lookup_insert_eq. simpl. rewrite bool_decide_true by done.
      apply raise_timers_spec.
    + rewrite lookup_insert_ne by done. rewrite bool_decide_false by (by intros [? _]). done.
Qed.

Lemma send_timer cmd i bypass s s' j id type :
  sendCommand cmd i bypass s = Ok s' → (type < bpt_int PDE)%nat →
  kinds (commandQueues s') = kinds (commandQueues s) ∧
  (∀ c t, command_timing c t (memoryDevice s') = command_timing c t (memoryDevice s)) ∧
  timer_of s' j id type =
    (if concerns (kinds (commandQueues s)) i cmd j id
     then Z.max (timer_of s j id type) (command_timing cmd type (memoryDevice s))
     else timer_of s j id type).
Proof.
  intros Hs Ht. destruct (send_timer_all _ _ _ _ _ j id type Hs) as (H1 & H2 & H3).
  rewrite decide_True in H3 by done. done.
Qed.

(** The commands sent so far, each with its queue and cycle. *)
Definition sent : Type := nat * BusPacket * Z.

(** [reach s0 h n s]: from [s0], [s] is reached in cycle [n] after the commands [h]
    were sent, the last one first. The other operations of the controller leave
    timers, kinds of queues and the timing of the device alone. *)
Inductive reach (s0 : CommandScheduler Dev) : list sent → Z → CommandScheduler Dev → Prop :=
| reach_init : reach s0 [] 0 s0
| reach_send h n s cmd i bypass s' :
    reach s0 h n s → sendCommand cmd i bypass s = Ok s' → reach s0 ((i, cmd, n) :: h) n s'
| reach_tick h n s s' : reach s0 h n s → tick s = Ok s' → reach s0 h (n + 1) s'
| reach_other h n s s' :
    reach s0 h n s →
    cmdQueueTimer s' = cmdQueueTimer s → reqCmdQueueTimer s' = reqCmdQueueTimer s →
    kinds (commandQueues s') = kinds (commandQueues s) →
    (∀ c t, command_timing c t (memoryDevice s') = command_timing c t (memoryDevice s)) →
    reach s0 h n s'.

(** The longest wait the history still asks for. *)
Fixpoint wait (ks : list bool) (T : BusPacket → nat → Z) (h : list sent) (j : nat) (id : Z)
    (type : nat) (n : Z) : Z :=
  match h with
  | [] => 0
  | (i, cmd, t) :: h =>
      if concerns ks i cmd j id then Z.max (wait ks T h j id type n) (t + T cmd type - n)
      else wait ks T h j id type n
  end.

Lemma wait_nonneg ks T h j id type n : 0 ≤ wait ks T h j id type n.
Proof. induction h as [|[[i cmd] t] h IH]; simpl; [lia|]. destruct (concerns _ _ _ _ _); lia. Qed.

Lemma wait_tick ks T h j id type n : wait ks T h j id type (n + 1) = dec (wait ks T h j id type n).
Proof.
  unfold dec. induction h as [|[[i cmd] t] h IH]; simpl; [done|].
  pose proof (wait_nonneg ks T h j id type n). destruct (concerns _ _ _ _ _); [|done].
  rewrite IH. repeat case_bool_decide; lia.
Qed.

Lemma wait_zero ks T h j id type n :
  wait ks T h j id type n = 0 ↔
  ∀ i cmd t, (i, cmd, t) ∈ h → concerns ks i cmd j id = true → t + T cmd type ≤ n.
Proof.
  induction h as [|[[i cmd] t] h IH]; simpl.
  - split; [|done]. by intros _ ??? ?%not_elem_of_nil.
  - pose proof (wait_nonneg ks T h j id type n). split.
    + intros Hw i' cmd' t' [?|Hin]%elem_of_cons Hc; simplify_eq.
      * rewrite Hc in Hw. lia.
      * eapply (proj1 IH); [|exact Hin|exact Hc]. destruct (concerns ks i cmd j id); lia.
    + intros Hall. assert (wait ks T h j id type n = 0) as E
        by (apply IH; intros i' cmd' t' Hin; apply Hall; by right).
      rewrite E. destruct (concerns ks i cmd j id) eqn:Hc; [|done].
      specialize (Hall i cmd t ltac:(left) Hc). lia.
Qed.

Lemma reach_wait s0 h n s :
  cmdQueueTimer s0 = ∅ → (∀ ts, ts ∈ reqCmdQueueTimer s0 → ts = ∅) → reach s0 h n s →
  kinds (commandQueues s) = kinds (commandQueues s0) ∧
  (∀ c t, command_timing c t (memoryDevice s) = command_timing c t (memoryDevice s0)) ∧
  ∀ j id type, (j < length (commandQueues s0))%nat → (type < bpt_int PDE)%nat →
    timer_of s j id type =
      wait (kinds (commandQueues s0)) (λ c t, command_timing c t (memoryDevice s0)) h j id type n.
Proof.
  intros Hc0 Hr0. induction 1 as [|h n s cmd i bypass s' _ (Hk & Hd & IH) Hs|h n s s' _ (Hk & Hd & IH) Ht
    |h n s s' _ (Hk & Hd & IH) E1 E2 E3 E4].
  - split_and!; [done..|]. intros j id type Hj Ht. simpl. rewrite timer_of_kind, Hc0, lookup_empty. simpl.
    rewrite timer_empty. destruct (kinds (commandQueues s0) !! j) as [[]|]; try done.
    destruct (reqCmdQueueTimer s0 !! j) as [ts|] eqn:Hts; simpl; [|by rewrite lookup_empty; apply timer_empty].
    rewrite (Hr0 ts) by (by eapply list_elem_of_lookup_2). rewrite lookup_empty. apply timer_empty.
  - assert (0 < bpt_int PDE)%nat as Hpde by (simpl; lia).
    destruct (send_timer _ _ _ _ _ 0%nat 0 0%nat Hs Hpde) as (Hk' & Hd' & _).
    rewrite Hk'. split_and!; [done|intros; by rewrite Hd'|]. intros j id type Hj Ht.
    destruct (send_timer _ _ _ _ _ j id type Hs Ht) as (_ & _ & ->).
    simpl. rewrite Hk, IH, Hd by done. destruct (concerns _ _ _ _ _); [|done]. f_equal. lia.
  - destruct (tick_timer s s' 0 0 0 Ht) as (_ & Hk' & Hd'). rewrite Hk', Hd'. split_and!; [done..|].
    intros j id type Hj Hty. destruct (tick_timer s s' j id type Ht) as (-> & _).
    rewrite wait_tick. f_equal. by apply IH.
  - rewrite E3. split_and!; [done|intros; by rewrite E4|]. intros j id type Hj Hty.
    rewrite <- IH by done. rewrite !timer_of_kind. by rewrite E1, E2, E3.
Qed.

Lemma exact_ready s0 h n s cmd j b :
  cmdQueueTimer s0 = ∅ → (∀ ts, ts ∈ reqCmdQueueTimer s0 → ts = ∅) →
  reach s0 h n s → (bpt_int (busPacketType cmd) < bpt_int PDE)%nat →
  isReady cmd j s = Ok b →
  b = true ↔
  ∀ i c t, (i, c, t) ∈ h → concerns (kinds (commandQueues s0)) i c j (bp_requestorID cmd) = true →
    t + command_timing c (bpt_int (busPacketType cmd)) (memoryDevice s0) ≤ n.
Proof.
  intros Hc Hr Hreach Hty Hready.
  assert (j < length (commandQueues s0))%nat as Hj.
  { destruct (reach_wait s0 h n s Hc Hr Hreach) as (Hk & _). unfold isReady, queue_at in Hready.
    apply bind_Ok in Hready as (q & Hq%vec_at_Ok & _). apply lookup_lt_Some in Hq.
    apply (f_equal length) in Hk. unfold kinds in Hk. rewrite !length_fmap in Hk. lia. }
  rewrite (isReady_timer _ _ _ _ Hready).
  destruct (reach_wait s0 h n s Hc Hr Hreach) as (_ & _ & Hw).
  rewrite Hw by done. rewrite bool_decide_eq_true. apply wait_zero.
Qed.

(** C24. [isReady] is exact. From a scheduler without timers, after any commands
    sent and cycles ticked, [isReady] says [true] of a command for queue [j]
    exactly when every command sent before from that queue (from the same
    requestor, if the queue is per requestor) was sent at least the
    [command_timing] of the pair ago. *)
Theorem isReady_exact s0 h n s cmd j b :
  cmdQueueTimer s0 = ∅ → (∀ ts, ts ∈ reqCmdQueueTimer s0 → ts = ∅) →
  reach s0 h n s → (bpt_int (busPacketType cmd) < bpt_int PDE)%nat →
  isReady cmd j s = Ok b →
  b = true ↔
  ∀ i c t, (i, c, t) ∈ h → concerns (kinds (commandQueues s0)) i c j (bp_requestorID cmd) = true →
    t + command_timing c (bpt_int (busPacketType cmd)) (memoryDevice s0) ≤ n.
Proof. apply exact_ready. Qed.
End timers.

(** ** Bank constraints of activates

    The device tree does not check the bank constraints of [ACT]
    ([DDR3.ACT_nRC_unchecked]); the timers of the queue of the bank do. *)
Lemma timing_between_ACT_range o sp d c :
  DDR3.ctor o sp = Ok d → 0 ≤ timing_between (DDR3.speed_entry d) c ACT < 2 ^ 32.
Proof.
  intros Hd. destruct (DDR3.ctor_ok_all o sp) as (d' & Hd' & Hok & _). rewrite Hd in Hd'.
  injection Hd' as <-. unfold DDR3.speed_ok in Hok. simpl in Hok.
  rewrite !andb_true_iff, !Z.ltb_lt, !Z.leb_le, !Z.eqb_eq in Hok.
  destruct c; simpl; lia.
Qed.

(** On a DDR3 device of the tables, an [ACT] the timers call ready keeps every
    bank constraint of the table from every command sent before from its queue. *)
Theorem ready_ACT_keeps_bank_constraints o sp d (s0 s : CommandScheduler Device) h n cmd j c1 te i c t :
  cmdQueueTimer s0 = ∅ → (∀ ts, ts ∈ reqCmdQueueTimer s0 → ts = ∅) → reach s0 h n s →
  DDR3.ctor o sp = Ok d → DDR3.speed_entry (dev_spec (memoryDevice s0)) = DDR3.speed_entry d →
  busPacketType cmd = ACT → isReady cmd j s = Ok true →
  te ∈ DDR3.timing (DDR3.speed_entry d) DDR3.Bank c1 → te_cmd te = DDR3.ACT →
  busPacketType c = packet_type c1 →
  (i, c, t) ∈ h → concerns (kinds (commandQueues s0)) i c j (bp_requestorID cmd) = true →
  t + val te ≤ n.
Proof.
  intros Hc Hr Hreach Hd Hsp Hcmd Hready Hte Hact Hty Hin Hcon.
  destruct (covers_ACT o sp d c1 te Hd Hte Hact) as (_ & _ & Hval).
  assert (t + command_timing c (bpt_int (busPacketType cmd)) (memoryDevice s0) ≤ n) as Hle.
  { eapply (proj1 (exact_ready s0 h n s cmd j true Hc Hr Hreach ltac:(rewrite Hcmd; simpl; lia) Hready));
      done. }
  rewrite DDR3_command_timing, Hcmd, Hsp, Hty in Hle.
  rewrite u32_small in Hle by (by eapply timing_between_ACT_range). lia.
Qed.

(** ** Witnesses *)
Definition ok_or {A} (r : res A) (a : A) : A := match r with Ok x => x | Err _ => a end.

Lemma ok_or_Ok {A} (r : res A) a : is_Ok r = true → r = Ok (ok_or r a).
Proof. by destruct r. Qed.

Definition wit_act : BusPacket := wit_cmd ACT 2 5.
Definition wit_s0 : CommandScheduler Device :=
  set_scheduledCommand (Some wit_act) (CommandScheduler_ctor true 0 [wit_cq false] ∅ wit_dev).
Definition wit_s1 : CommandScheduler Device := ok_or (sendCommand wit_act 0 false wit_s0) wit_s0.
Definition wit_ticks (k : nat) : CommandScheduler Device :=
  Nat.iter k (λ s, ok_or (tick s) s) wit_s1.

Lemma wit_reach (k : nat) :
  forallb (λ k, is_Ok (tick (wit_ticks k))) (seq 0 k) = true →
  reach wit_s0 [(0%nat, wit_act, 0)] (Z.of_nat k) (wit_ticks k).
Proof.
  induction k as [|k IH]; intros Hk.
  - eapply (reach_send _ [] 0 wit_s0 wit_act 0 false); [apply reach_init|].
    apply ok_or_Ok. vm_compute. reflexivity.
  - rewrite seq_S, forallb_app in Hk. apply andb_true_iff in Hk as [Hk Hlast]. simpl in Hlast.
    rewrite andb_true_r in Hlast. replace (Z.of_nat (S k)) with (Z.of_nat k + 1) by lia.
    eapply reach_tick; [by apply IH|]. by apply ok_or_Ok.
Qed.

Lemma isReady_exact_witness :
  false = true ↔
  ∀ i c t, (i, c, t) ∈ [(0%nat, wit_act, 0)] → concerns [false] i c 0 2 = true →
    t + command_timing c 6 wit_dev ≤ 38.
Proof.
  apply (isReady_exact wit_s0 [(0%nat, wit_act, 0)] 38 (wit_ticks 38) wit_act 0 false).
  - reflexivity.
  - intros ts Hts. apply list_elem_of_singleton in Hts. exact Hts.
  - apply (wit_reach 38). vm_compute. reflexivity.
  - vm_compute. lia.
  - vm_compute. reflexivity.
Defined.

Lemma ready_ACT_keeps_bank_constraints_witness : 0 + 39 ≤ 39.
Proof.
  apply (ready_ACT_keeps_bank_constraints DDR3.DDR3_2Gb_x8 DDR3.DDR3_1600K
    (DDR3.mkDDR3 (DDR3.org_table DDR3.DDR3_2Gb_x8) (DDR3.speed_entry DDR3.wit_ddr3))
    wit_s0 (wit_ticks 39) [(0%nat, wit_act, 0)] 39 wit_act 0 DDR3.ACT
    (@mkEntry DDR3.standard DDR3.ACT 1 39 false) 0 wit_act 0).
  - reflexivity.
  - intros ts Hts. apply list_elem_of_singleton in Hts. exact Hts.
  - apply (wit_reach 39). vm_compute. reflexivity.
  - vm_compute. reflexivity.
  - vm_compute. reflexivity.
  - reflexivity.
  - vm_compute. reflexivity.
  - exact DDR3.ACT_nRC_unchecked_entry.
  - reflexivity.
  - reflexivity.
  - left.
  - vm_compute. reflexivity.
Defined.
