(* ===== verification/CmdAlg.v ===== *)
(** * Scheduling algorithms: the interface

    What every [commandSchedule] (src/generalScheduler/CommandScheduler_*.h,
    src/system/*/CommandScheduler_*.h) is written with, and what it promises to
    the controller: the class [CommandAlgorithm]. An instance shows that a command
    it returns was at the front of its queue, was ready by the timers and
    issuable by the device, and was sent once; and that it changes nothing else.

    The controller's part is the relation [cycle_run]: commands enter the queues,
    the algorithm is asked, the timers are counted, the device is updated.

    Main results, for every algorithm of the interface: in every run two commands
    of one queue are at least [command_timing] apart; on a device the
    commands sent are a checked run of the device tree, so that every constraint
    the tree checks holds between the packets. *)
From S2P Require Import Prelude Types KeyedBuf CmdQueue DRAM DDR3 Device Refresh CmdSched.

Section algorithms.
Context {Dev : Type} `{MemoryDevice Dev}.
Implicit Types s : CommandScheduler Dev.

(** ** What the algorithms are written with *)

(** [commandQueue[index]->getCommand(critical)]. *)
Definition peek (critical : bool) (index : nat) (s : CommandScheduler Dev)
    : res (BusPacket * CommandScheduler Dev) :=
  q ← queue_at index s;
  cq ← getCommand critical q;
  Ok (cq.1, set_queue index cq.2 s).

(** [isReady(c, index) && isIssuable(c)]. *)
Definition ready_issuable (c : BusPacket) (index : nat) (s : CommandScheduler Dev) : res bool :=
  b ← isReady c index s;
  if b : bool then isIssuable c s else Ok false.

(** The loop over the requestors of a queue that have a command: [body] gets the
    first command of each. *)
Definition each_requestor {S R} (q : CommandQueue) (t : S)
    (body : BusPacket → S → res (flow S R)) : res (flow S R) :=
  forM (seq 0 (getRequestorIndex q)) t (λ num t,
    n ← getRequestorSize num q;
    if (0 <? n)%nat then c ← getRequestorCommand num q; body c t else Ok (Next t)).

(** What is left of a loop after [break] or its end. *)
Definition after {S R} (o : flow S R) : S := match o with Next t => t | Stop t _ => t end.

(** [scheduledCommand = c; sendCommand(scheduledCommand, index, false)]. *)
Definition send (c : BusPacket) (index : nat) (s : CommandScheduler Dev) : res (CommandScheduler Dev) :=
  sendCommand c index false (set_scheduledCommand (Some c) s).

(** ** Looking does not change anything a test depends on *)

Definition same_queue (q q' : CommandQueue) : Prop := ∃ b, q' = set_scheduledQueue b q.

#[export] Instance same_queue_equiv : PreOrder same_queue.
Proof.
  split.
  - intros q. exists (scheduledQueue q). by destruct q.
  - intros q1 q2 q3 [b ->] [b' ->]. by exists b'.
Qed.

Record quiet (s s' : CommandScheduler Dev) : Prop := {
  qt_dev : memoryDevice s' = memoryDevice s;
  qt_refresh : refreshMachine s' = refreshMachine s;
  qt_timer : cmdQueueTimer s' = cmdQueueTimer s;
  qt_rtimer : reqCmdQueueTimer s' = reqCmdQueueTimer s;
  qt_table : requestorCriticalTable s' = requestorCriticalTable s;
  qt_clock : sched_clock s' = sched_clock s;
  qt_queues : Forall2 same_queue (commandQueues s) (commandQueues s');
}.

#[export] Instance quiet_preorder : PreOrder quiet.
Proof.
  split.
  - intros s. by split.
  - intros s1 s2 s3 [? ? ? ? ? ? H1] [? ? ? ? ? ? H2]. split; try congruence. by etransitivity.
Qed.

Lemma quiet_scheduled c s : quiet s (set_scheduledCommand c s).
Proof. by split. Qed.

Lemma same_queue_kind q q' : same_queue q q' → cq_isPerRequestor q' = cq_isPerRequestor q.
Proof. by intros [b ->]. Qed.

Lemma quiet_kinds s s' : quiet s s' → kinds (commandQueues s') = kinds (commandQueues s).
Proof.
  intros [_ _ _ _ _ _ Hq]. unfold kinds.
  induction Hq as [|q q' l l' Hs _ IH]; [done|].
  simpl. f_equal; [by apply same_queue_kind|exact IH].
Qed.

Lemma quiet_length s s' : quiet s s' → length (commandQueues s') = length (commandQueues s).
Proof. intros Hq. symmetry. apply Forall2_length with same_queue, Hq. Qed.

Lemma quiet_lookup s s' i q' :
  quiet s s' → commandQueues s' !! i = Some q' →
  ∃ q, commandQueues s !! i = Some q ∧ same_queue q q'.
Proof. intros Hq Hi. eapply Forall2_lookup_r in Hi as (q & ? & ?); [|apply Hq]. eauto. Qed.

Lemma quiet_lookup_l s s' i q :
  quiet s s' → commandQueues s !! i = Some q →
  ∃ q', commandQueues s' !! i = Some q' ∧ same_queue q q'.
Proof. intros Hq Hi. eapply Forall2_lookup_l in Hi as (q' & ? & ?); [|apply Hq]. eauto. Qed.

Lemma quiet_ready s s' c i : quiet s s' → isReady c i s' = isReady c i s.
Proof.
  intros Hq. unfold isReady, queue_at, vec_at. rewrite (qt_timer _ _ Hq), (qt_rtimer _ _ Hq).
  destruct (commandQueues s !! i) as [q|] eqn:E.
  - destruct (quiet_lookup_l _ _ _ _ Hq E) as (q' & -> & Hs). simpl. by rewrite (same_queue_kind _ _ Hs).
  - apply lookup_ge_None in E. rewrite <- (quiet_length _ _ Hq) in E. by apply lookup_ge_None in E as ->.
Qed.

Lemma quiet_issuable s s' c : quiet s s' → isIssuable c s' = isIssuable c s.
Proof. intros Hq. unfold isIssuable. by rewrite (qt_refresh _ _ Hq), (qt_dev _ _ Hq). Qed.

Lemma quiet_ready_issuable s s' c i : quiet s s' → ready_issuable c i s' = ready_issuable c i s.
Proof. intros Hq. 
  unfold ready_issuable. rewrite (quiet_ready _ _ _ _ Hq).
  destruct (isReady c i s) as [[]|]; simpl; [by apply quiet_issuable|done..].
Qed.

Lemma ready_issuable_true c i s :
  ready_issuable c i s = Ok true ↔ isReady c i s = Ok true ∧ isIssuable c s = Ok true.
Proof.
  unfold ready_issuable. destruct (isReady c i s) as [[]|]; simpl; split; naive_solver.
Qed.

Lemma same_queue_wf q q' : same_queue q q' → cq_wf q → cq_wf q'.
Proof. intros [b ->] [Ho Hw]. by split. Qed.

Lemma quiet_wf s s' : quiet s s' → Forall cq_wf (commandQueues s) → Forall cq_wf (commandQueues s').
Proof.
  intros Hq Hwf. apply Forall_lookup. intros i q' Hi. destruct (quiet_lookup _ _ _ _ Hq Hi) as (q & Hi' & Hs).
  eapply same_queue_wf; [exact Hs|]. by eapply Forall_lookup.
Qed.

(** ** The command a queue would give up *)

(** [c] is the command that [sendCommand(c, i, false)] takes out. *)
Definition popped (q : CommandQueue) (c : BusPacket) : Prop :=
  if cq_isPerRequestor q then ∃ l, cmd_buffer q (bp_requestorID c) = c :: l
  else ∃ l, (if scheduledQueue q then hrtBuffer q else srtBuffer q) = c :: l.

Definition at_front (i : nat) (c : BusPacket) (s : CommandScheduler Dev) : Prop :=
  ∃ q, commandQueues s !! i = Some q ∧ popped q c.

Lemma peek_Ok critical i s c s' :
  peek critical i s = Ok (c, s') →
  ∃ q, commandQueues s !! i = Some q ∧ s' = set_queue i (set_scheduledQueue critical q) s ∧
    ∃ l, (if critical then hrtBuffer q else srtBuffer q) = c :: l.
Proof.
  unfold peek. intros Hp. apply bind_Ok in Hp as (q & Hq%vec_at_Ok & Hp).
  apply bind_Ok in Hp as ([c' q'] & Hc & Hp). injection Hp as <- <-.
  apply getCommand_front in Hc as [-> Hl]. eauto.
Qed.

Lemma set_queue_quiet i b q s :
  commandQueues s !! i = Some q → quiet s (set_queue i (set_scheduledQueue b q) s).
Proof.
  intros Hi. split; try done. simpl. apply Forall2_same_length_lookup_2; [by rewrite length_insert|].
  intros j q1 q2 H1 H2. destruct (decide (j = i)) as [->|Hne].
  - rewrite list_lookup_insert_eq in H2 by (by eapply lookup_lt_Some). simplify_eq. by eexists.
  - rewrite list_lookup_insert_ne in H2 by done. by simplify_eq.
Qed.

Lemma peek_quiet critical i s c s' : peek critical i s = Ok (c, s') → quiet s s'.
Proof. intros (q & Hq & -> & _)%peek_Ok. by apply set_queue_quiet. Qed.

(** A packet of a queue by levels of the memory comes to the front by [peek]. *)
Lemma peek_front critical i s c s' q :
  commandQueues s !! i = Some q → cq_isPerRequestor q = false →
  peek critical i s = Ok (c, s') → at_front i c s'.
Proof.
  intros Hq Hper (q' & Hq' & -> & l & Hl)%peek_Ok. simplify_eq.
  exists (set_scheduledQueue critical q). split.
  - simpl. by rewrite list_lookup_insert_eq by (by eapply lookup_lt_Some).
  - unfold popped. simpl. unfold cq_isPerRequestor in *. simpl. rewrite Hper. eauto.
Qed.

(** Other queues are not touched. *)
Lemma peek_front_ne critical i j s c c' s' :
  i ≠ j → peek critical j s = Ok (c', s') → at_front i c s → at_front i c s'.
Proof.
  intros Hne (q & Hq & -> & _)%peek_Ok (q' & Hq' & Hp). exists q'. split; [|done].
  simpl. by rewrite list_lookup_insert_ne.
Qed.

(** The packet [getRequestorCommand] shows is the one its requestor gives up. *)
Lemma requestor_front i num s q c :
  commandQueues s !! i = Some q → cq_wf q → cq_isPerRequestor q = true →
  getRequestorCommand num q = Ok c → at_front i c s.
Proof.
  intros Hq Hwf Hper Hc. exists q. split; [done|]. unfold popped. rewrite Hper.
  by destruct (getRequestorCommand_front _ _ _ Hwf Hc) as [_ ?].
Qed.

(** ** The promise *)

(** [s'] is [s] after [c] was taken from queue [i] and sent, or after nothing
    happened. *)
Inductive issues (s : CommandScheduler Dev) : option (nat * BusPacket) → CommandScheduler Dev → Prop :=
| issues_none s' : quiet s s' → issues s None s'
| issues_some s1 i c s' :
    quiet s s1 → at_front i c s1 → isReady c i s1 = Ok true → isIssuable c s1 = Ok true →
    scheduledCommand s1 = Some c → sendCommand c i false s1 = Ok s' →
    issues s (Some (i, c)) s'.

Lemma send_issues s s1 i c s' :
  quiet s s1 → at_front i c s1 → ready_issuable c i s1 = Ok true →
  send c i s1 = Ok s' → issues s (Some (i, c)) s'.
Proof.
  intros Hq Hf Hr Hs. pose proof (quiet_scheduled (Some c) s1) as Hq'.
  rewrite <- (quiet_ready_issuable _ _ c i Hq') in Hr. apply ready_issuable_true in Hr as [Hr Hi].
  eapply (issues_some _ (set_scheduledCommand (Some c) s1)); [by etransitivity|done..].
Qed.

(** What the rest of the simulator does between two calls: queue [i] grows by
    commands that satisfy [P i], timers run down. *)
Definition queue_grows (P : BusPacket → Prop) (q q' : CommandQueue) : Prop :=
  cq_isPerRequestor q' = cq_isPerRequestor q ∧ scheduledQueue q' = scheduledQueue q ∧
  (∃ l, hrtBuffer q' = hrtBuffer q ++ l ∧ Forall P l) ∧
  (∃ l, srtBuffer q' = srtBuffer q ++ l ∧ Forall P l) ∧
  ∀ id, ∃ l, cmd_buffer q' id = cmd_buffer q id ++ l ∧ Forall P l.

Record grows (P : nat → BusPacket → Prop) (s s' : CommandScheduler Dev) : Prop := {
  gr_length : length (commandQueues s') = length (commandQueues s);
  gr_queue i q : commandQueues s !! i = Some q →
    ∃ q', commandQueues s' !! i = Some q' ∧ queue_grows (P i) q q';
  gr_ready c i : isReady c i s = Ok true → isReady c i s' = Ok true;
  gr_scheduled : scheduledCommand s' = scheduledCommand s;
}.

Lemma queue_grows_popped P q q' c : queue_grows P q q' → popped q c → popped q' c.
Proof.
  intros (Hk & Hs & (l1 & H1 & _) & (l2 & H2 & _) & Hb). unfold popped. rewrite Hk, Hs.
  destruct (cq_isPerRequestor q).
  - intros [l Hl]. destruct (Hb (bp_requestorID c)) as (l' & -> & _). rewrite Hl. by eexists.
  - intros [l Hl]. destruct (scheduledQueue q); rewrite ?H1, ?H2, Hl; by eexists.
Qed.

Lemma grows_front P s s' i c : grows P s s' → at_front i c s → at_front i c s'.
Proof.
  intros Hg (q & Hq & Hp). destruct (gr_queue _ _ _ Hg _ _ Hq) as (q' & Hq' & Hgr).
  exists q'. split; [done|]. by eapply queue_grows_popped.
Qed.

Lemma grows_kinds P s s' : grows P s s' → kinds (commandQueues s') = kinds (commandQueues s).
Proof.
  intros Hg. apply list_eq. intros i. unfold kinds. rewrite !list_lookup_fmap.
  destruct (commandQueues s !! i) as [q|] eqn:Hq.
  - destruct (gr_queue _ _ _ Hg _ _ Hq) as (q' & -> & Hk & _). simpl. by rewrite Hk.
  - apply lookup_ge_None in Hq. rewrite <- (gr_length _ _ _ Hg) in Hq. by apply lookup_ge_None in Hq as ->.
Qed.
End algorithms.

(** The virtual [commandSchedule] of an algorithm with private state [A]; the
    controller is built on it. *)
Class CommandScheduling (Dev A : Type) := {
  commandSchedule : A → CommandScheduler Dev → res (option BusPacket * A * CommandScheduler Dev);
}.

(** An algorithm that keeps the promise: [alg_accepts i c] is what it relies on for
    the packets of queue [i], [alg_inv] its invariant. *)
Class CommandAlgorithm (Dev A : Type) `{MemoryDevice Dev, !CommandScheduling Dev A} := {
  alg_accepts : nat → BusPacket → Prop;
  alg_inv : A → CommandScheduler Dev → Prop;
  schedule_issues a s r a' s' :
    Forall cq_wf (commandQueues s) → alg_inv a s → commandSchedule a s = Ok (r, a', s') →
    alg_inv a' s' ∧ ∃ ic, snd <$> ic = r ∧ issues s ic s';
  keep_inv a s s' : alg_inv a s → grows alg_accepts s s' → alg_inv a s';
}.

(** ** Runs of the controller around an algorithm *)

(** One update of the device. *)
Definition dev_step `{MemoryDevice Dev} (d d' : Dev) : Prop := ∃ out, update_device d = Ok (out, d').

Lemma dev_step_timing `{MemoryDevice Dev} d d' :
  dev_step d d' → ∀ c t, command_timing c t d' = command_timing c t d.
Proof. intros [out Hu]. by apply update_device_timing in Hu as [Ht _]. Qed.

(** The machine the constructor makes, between refreshes that never come. *)
Definition no_refresh (m : RefreshMachine) : Prop :=
  refresh_mechanism m = none ∧ globeRefreshCountdown m ≠ 0 ∧ idle m.

Section growth.
Context {Dev : Type} `{MemoryDevice Dev}.
Implicit Types s : CommandScheduler Dev.

(** [isReady] by the timers. *)
Lemma isReady_true c i s :
  isReady c i s = Ok true ↔
  ∃ k, kinds (commandQueues s) !! i = Some k ∧ (k = true → is_Some (reqCmdQueueTimer s !! i)) ∧
    timer_of s i (bp_requestorID c) (bpt_int (busPacketType c)) = 0.
Proof.
  rewrite timer_of_kind. unfold isReady, queue_at, vec_at, kinds. rewrite list_lookup_fmap.
  destruct (commandQueues s !! i) as [q|]; simpl; [|split; [done|by intros (? & ? & _)]].
  destruct (cq_isPerRequestor q); simpl.
  - destruct (reqCmdQueueTimer s !! i) as [ts|]; simpl.
    + split.
      * intros [= Hb%bool_decide_eq_true]. eauto.
      * intros (k & _ & _ & Ht). by rewrite bool_decide_true.
    + split; [done|]. intros (k & [= <-] & Hs & _). by destruct (Hs eq_refl).
  - split.
    + intros [= Hb%bool_decide_eq_true]. exists false. by split_and!.
    + intros (k & _ & _ & Ht). by rewrite bool_decide_true.
Qed.

Lemma app_grows {A} (P : A → Prop) (l : list A) : ∃ l', l = l ++ l' ∧ Forall P l'.
Proof. exists []. by rewrite app_nil_r. Qed.

Lemma queue_grows_refl P q : queue_grows P q q.
Proof. split_and!; try done; intros; apply app_grows. Qed.

Lemma insert_queue_grows P c critical q : P c → queue_grows P q (insertCommand c critical q).2.
Proof.
  intros Hc. assert (∀ l, ∃ l', l ++ [c] = l ++ l' ∧ Forall P l') as Hone
    by (intros l; exists [c]; split; [done|by constructor]).
  unfold insertCommand. destruct (cq_perRequestorEnable q) eqn:Hper; [|destruct critical].
  - set (q1 := match cq_requestorBuffer q !! bp_requestorID c with None => _ | Some _ => q end).
    assert (cq_perRequestorEnable q1 = cq_perRequestorEnable q ∧ scheduledQueue q1 = scheduledQueue q ∧
      hrtBuffer q1 = hrtBuffer q ∧ srtBuffer q1 = srtBuffer q ∧ ∀ id, cmd_buffer q1 id = cmd_buffer q id)
      as (E1 & E2 & E3 & E4 & E5).
    { unfold q1. destruct (cq_requestorBuffer q !! bp_requestorID c) eqn:E; [done|]. split_and!; try done.
      intros id. rewrite cmd_buffer_insert. case_decide; [subst; unfold cmd_buffer; by rewrite E|done]. }
    split_and!; simpl; [done|done|rewrite E3; apply app_grows|rewrite E4; apply app_grows|].
    intros id. rewrite cmd_buffer_insert. case_decide as Hid.
    + subst id. rewrite E5. apply Hone.
    + change (default [] (cq_requestorBuffer q1 !! id)) with (cmd_buffer q1 id). rewrite E5. apply app_grows.
  - split_and!; simpl; [done|done|apply Hone|apply app_grows|intros; apply app_grows].
  - split_and!; simpl; [done|done|apply app_grows|apply Hone|intros; apply app_grows].
Qed.

Lemma insert_grows (P : nat → BusPacket → Prop) s i q c critical :
  commandQueues s !! i = Some q → P i c → grows P s (set_queue i (insertCommand c critical q).2 s).
Proof.
  intros Hq Hc. assert (kinds (<[i:=(insertCommand c critical q).2]> (commandQueues s)) = kinds (commandQueues s)) as Hk.
  { apply (set_queue_kinds _ _ q); [done|]. apply (insert_queue_grows (P i)), Hc. }
  split; simpl; [by rewrite length_insert| | |done].
  - intros j qj Hj. destruct (decide (j = i)) as [->|Hne].
    + assert (qj = q) as -> by congruence. exists (insertCommand c critical q).2.
      rewrite list_lookup_insert_eq by (by eapply lookup_lt_Some). split; [done|]. by apply insert_queue_grows.
    + rewrite list_lookup_insert_ne by done. exists qj. split; [done|]. apply queue_grows_refl.
  - intros c' j. rewrite !isReady_true, !timer_of_kind. simpl. by rewrite Hk.
Qed.

Lemma tick_no_refresh s s' :
  no_refresh (refreshMachine s) → tick s = Ok s' →
  commandQueues s' = commandQueues s ∧ no_refresh (refreshMachine s') ∧ scheduledCommand s' = scheduledCommand s ∧
  ∀ i, is_Some (reqCmdQueueTimer s !! i) → is_Some (reqCmdQueueTimer s' !! i).
Proof.
  intros (Hn & Hc & Hi) Ht. unfold tick in Ht. apply bind_Ok in Ht as (s1 & Hl & Ht).
  apply bind_Ok in Ht as ([m qs] & Hm & Ht). injection Ht as <-.
  assert (scheduledCommand s1 = scheduledCommand s ∧ refreshMachine s1 = refreshMachine s) as [Es Er].
  { revert Hl. apply (foldM_inv (λ s1, scheduledCommand s1 = scheduledCommand s ∧ refreshMachine s1 = refreshMachine s)); [done|].
    intros [i q] s2 s3 _ [E1 E2]. unfold tick_queue. simpl. destruct (cq_isPerRequestor q).
    - intros Hb. apply bind_Ok in Hb as (ts & _ & Hb). by injection Hb as <-.
    - case_match; intros [= <-]; done. }
  rewrite (imap_ext _ (λ i q, ((0 + i)%nat, q))) in Hl by done.
  apply tick_loop in Hl as (E1 & E2 & Hl). rewrite Er in Hm.
  destruct (rm_step_none (refreshMachine s) (commandQueues s1) Hn Hc Hi) as (m' & Hm' & Hn' & Hc' & Hi').
  rewrite Hm' in Hm. injection Hm as <- <-. simpl.
  split_and!; [exact E1|split_and!; [done|by rewrite Hc'|done]|exact Es|].
  intros i Hsome. destruct (Hl i) as [_ ->]. case_decide; [by apply fmap_is_Some|done].
Qed.

Lemma tick_grows (P : nat → BusPacket → Prop) s s' d :
  no_refresh (refreshMachine s) → tick s = Ok s' → grows P s (set_memoryDevice d s').
Proof.
  intros Hn Ht. destruct (tick_no_refresh _ _ Hn Ht) as (Eq & _ & Es & Hts). split; simpl.
  - by rewrite Eq.
  - intros i q Hq. exists q. rewrite Eq. split; [done|]. apply queue_grows_refl.
  - intros c i. rewrite !isReady_true. intros (k & Hk & Hreq & Htm). exists k.
    destruct (tick_timer s s' i (bp_requestorID c) (bpt_int (busPacketType c)) Ht) as (Htm' & Hk' & _).
    simpl. rewrite Hk'. split_and!; [done|by auto|].
    change (timer_of (set_memoryDevice d s')) with (timer_of s'). by rewrite Htm', Htm.
  - done.
Qed.

Lemma table_grows (P : nat → BusPacket → Prop) s t : grows P s (set_criticalTable t s).
Proof. split; try done. intros i q Hq. exists q. split; [done|]. apply queue_grows_refl. Qed.

(** What [sendCommand] does to the device. *)
Lemma send_device cmd i bypass s s' c :
  sendCommand cmd i bypass s = Ok s' → scheduledCommand s = Some c →
  receiveFromBus c (memoryDevice s) = Ok (memoryDevice s') ∧ refreshMachine s' = refreshMachine s ∧
  scheduledCommand s' = Some c.
Proof.
  intros Hs Hc. unfold sendCommand in Hs. apply bind_Ok in Hs as (q & Hq & Hs).
  apply bind_Ok in Hs as (s1 & Hs1 & Hs). apply bind_Ok in Hs as (c' & Hc' & Hs).
  apply bind_Ok in Hs as (d & Hd & Hs). injection Hs as <-. apply of_option_Ok in Hc'.
  assert (scheduledCommand s1 = scheduledCommand s ∧ memoryDevice s1 = memoryDevice s ∧
    refreshMachine s1 = refreshMachine s) as (E1 & E2 & E3).
  { destruct (cq_isPerRequestor q); [|destruct bypass]; simplify_res; done. }
  assert (c' = c) as -> by congruence. simpl. split_and!; [by rewrite <- E2|done|congruence].
Qed.
End growth.

Section cycles.
Context {Dev A : Type} `{DevI : MemoryDevice Dev} {CmdS : CommandScheduling Dev A} {CmdA : CommandAlgorithm Dev A}.

(** One cycle: commands enter queues (and their requestor the table of
    criticalities), the refresh and the algorithm get their turn
    ([MemoryController::update]), the timers are counted and the device is updated
    ([MemorySystem::update]). Write data that go to the device change nothing
    ([receive_data]). The history has the commands sent, the last one first. *)
Inductive cycle_run (a0 : A) (s0 : CommandScheduler Dev)
    : list sent → Z → A → CommandScheduler Dev → Prop :=
| cr_init : cycle_run a0 s0 [] 0 a0 s0
| cr_insert h n a s i q c critical :
    cycle_run a0 s0 h n a s → commandQueues s !! i = Some q → alg_accepts i c →
    cycle_run a0 s0 h n a (set_queue i (insertCommand c critical q).2 s)
| cr_refresh h n a s s' :
    cycle_run a0 s0 h n a s → sched_refresh s = Ok s' → cycle_run a0 s0 h n a s'
| cr_none h n a s a' s' :
    cycle_run a0 s0 h n a s → commandSchedule a s = Ok (None, a', s') → cycle_run a0 s0 h n a' s'
| cr_issue h n a s c a' s' i :
    cycle_run a0 s0 h n a s → commandSchedule a s = Ok (Some c, a', s') →
    issues s (Some (i, c)) s' → cycle_run a0 s0 ((i, c, n) :: h) n a' s'
| cr_tick h n a s s' d :
    cycle_run a0 s0 h n a s → tick s = Ok s' → dev_step (memoryDevice s') d →
    cycle_run a0 s0 h (n + 1) a (set_memoryDevice d s')
| cr_table h n a s t :
    cycle_run a0 s0 h n a s → cycle_run a0 s0 h n a (set_criticalTable t s).

(** What the construction of the system gives. *)
Record initial (a0 : A) (s0 : CommandScheduler Dev) : Prop := {
  in_timer : cmdQueueTimer s0 = ∅;
  in_rtimer ts : ts ∈ reqCmdQueueTimer s0 → ts = ∅;
  in_refresh : no_refresh (refreshMachine s0);
  in_wf : Forall cq_wf (commandQueues s0);
  in_alg : alg_inv a0 s0;
}.

Record cycle_inv (s0 : CommandScheduler Dev) (h : list sent) (n : Z) (a : A) (s : CommandScheduler Dev) : Prop := {
  ci_reach : reach s0 h n s;
  ci_refresh : no_refresh (refreshMachine s);
  ci_wf : Forall cq_wf (commandQueues s);
  ci_alg : alg_inv a s;
}.

Lemma quiet_reach s0 h n (s s' : CommandScheduler Dev) : reach s0 h n s → quiet s s' → reach s0 h n s'.
Proof.
  intros Hr Hq. eapply reach_other; [exact Hr|apply Hq|apply Hq|by apply quiet_kinds|].
  intros. by rewrite (qt_dev _ _ Hq).
Qed.

Lemma sendCommand_wf c i (s s' : CommandScheduler Dev) :
  Forall cq_wf (commandQueues s) → at_front i c s → sendCommand c i false s = Ok s' →
  Forall cq_wf (commandQueues s').
Proof.
  intros Hwf (q & Hq & Hp) Hs. pose proof (proj1 (Forall_lookup _ _) Hwf _ _ Hq) as Hwq.
  unfold sendCommand, queue_at, vec_at in Hs. rewrite Hq in Hs. simpl in Hs.
  apply bind_Ok in Hs as (s1 & Hs1 & Hs). apply bind_Ok in Hs as (c' & _ & Hs).
  apply bind_Ok in Hs as (d & _ & Hs). injection Hs as <-. simpl.
  unfold popped in Hp. destruct (cq_isPerRequestor q).
  - apply bind_Ok in Hs1 as (ts & _ & Hs1). apply bind_Ok in Hs1 as (q' & Hq' & Hs1).
    injection Hs1 as <-. simpl. apply Forall_insert; [done|]. destruct Hp as [l Hl].
    assert (bp_requestorID c ∈ requestorMap q) as Hin.
    { apply (cq_order q Hwq). unfold cmd_buffer in Hl. destruct (cq_requestorBuffer q !! bp_requestorID c); [eauto|done]. }
    destruct (removeCommand_req_front q _ c l Hwq Hin Hl) as (q2 & Hq2 & Hw2 & _). congruence.
  - apply bind_Ok in Hs1 as (q' & Hq' & Hs1). injection Hs1 as <-. simpl. apply Forall_insert; [done|].
    destruct Hwq as [Ho Hw]. unfold removeCommand in Hq'.
    destruct (scheduledQueue q); apply bind_Ok in Hq' as (l' & _ & [= <-]); by split.
Qed.

Lemma cycle_run_inv a0 s0 h n a s : initial a0 s0 → cycle_run a0 s0 h n a s → cycle_inv s0 h n a s.
Proof.
  intros Hin. induction 1 as [|h n a s i q c critical _ [Hr Href Hwf Ha] Hq Hc|h n a s s' _ [Hr Href Hwf Ha] Hs
    |h n a s a' s' _ [Hr Href Hwf Ha] Hs|h n a s c a' s' i _ [Hr Href Hwf Ha] Hs Hi
    |h n a s s' d _ [Hr Href Hwf Ha] Ht Hd|h n a s t _ [Hr Href Hwf Ha]].
  - split; [constructor|apply Hin..].
  - pose proof (insert_grows alg_accepts s i q c critical Hq Hc) as Hg.
    split; [|done| |by eapply keep_inv].
    + eapply reach_other; [exact Hr|done|done|by eapply grows_kinds|done].
    + simpl. apply Forall_insert; [done|].
      destruct (insertCommand c critical q) as [b q'] eqn:E.
      by destruct (insertCommand_ok _ _ _ _ _ (proj1 (Forall_lookup _ _) Hwf _ _ Hq) E) as (_ & ? & _).
  - unfold sched_refresh in Hs. destruct Href as (? & ? & Hidle).
    assert (reachInterval (refreshMachine s) = false) as Hri by apply Hidle.
    rewrite Hri in Hs. injection Hs as <-. by split.
  - destruct (schedule_issues _ _ _ _ _ Hwf Ha Hs) as (Ha' & ic & Hic & Hiss).
    destruct ic; [done|]. inversion Hiss as [? Hq|]; subst.
    split; [by eapply quiet_reach|by rewrite (qt_refresh _ _ Hq)|by eapply quiet_wf|done].
  - destruct (schedule_issues _ _ _ _ _ Hwf Ha Hs) as (Ha' & _).
    inversion Hi as [|s1 ? ? ? Hq Hf Hrd His Hsc Hsend]; subst.
    split; [|destruct (send_device _ _ _ _ _ _ Hsend Hsc) as (_ & -> & _); by rewrite (qt_refresh _ _ Hq)
      |eapply sendCommand_wf; [by eapply quiet_wf|done|done]|done].
    eapply reach_send; [by eapply quiet_reach|exact Hsend].
  - destruct (tick_no_refresh _ _ Href Ht) as (Eq & Hn' & _).
    split; [|done|simpl; by rewrite Eq|eapply keep_inv; [exact Ha|by apply tick_grows]].
    eapply reach_other; [by eapply reach_tick|done|done|done|]. intros. by apply dev_step_timing.
  - split; [by eapply reach_other|done|done|]. eapply keep_inv; [exact Ha|]. by apply table_grows.
Qed.

(** A command was ready when it was issued. *)
Lemma cycle_run_ready a0 s0 h n a s :
  initial a0 s0 → cycle_run a0 s0 h n a s →
  ∀ h1 j c2 t2 h2, h = h1 ++ (j, c2, t2) :: h2 →
    ∃ a' s1, cycle_inv s0 h2 t2 a' s1 ∧ isReady c2 j s1 = Ok true.
Proof.
  intros Hin Hrun. induction Hrun as [|h n a s i q c cr Hrun IH Hq Hc|h n a s s' Hrun IH Hs
    |h n a s a' s' Hrun IH Hs|h n a s c a' s' i Hrun IH Hs Hi|h n a s s' d Hrun IH Ht Hd|h n a s t Hrun IH];
    intros h1 j c2 t2 h2 E; try by eapply IH.
  - by destruct h1.
  - destruct h1 as [|x h1]; simplify_eq/=; [|by eapply IH].
    pose proof (cycle_run_inv _ _ _ _ _ _ Hin Hrun) as Hinv. exists a, s. split; [done|].
    inversion Hi as [|s1 ? ? ? Hq Hf Hrd His Hsc Hsend]; subst. by rewrite <- (quiet_ready _ _ _ _ Hq).
Qed.

(** C21. For every algorithm of the interface: in every run, a command was sent at
    least [command_timing] after every earlier command of its queue (of its
    requestor, when the queue has one buffer per requestor). *)
Theorem algorithm_keeps_timing a0 s0 h n a s h1 j c2 t2 h2 i c1 t1 :
  initial a0 s0 → cycle_run a0 s0 h n a s →
  h = h1 ++ (j, c2, t2) :: h2 → (i, c1, t1) ∈ h2 →
  (bpt_int (busPacketType c2) < bpt_int PDE)%nat →
  concerns (kinds (commandQueues s0)) i c1 j (bp_requestorID c2) = true →
  t1 + command_timing c1 (bpt_int (busPacketType c2)) (memoryDevice s0) ≤ t2.
Proof.
  intros Hin Hrun E Hc1 Hty Hcon.
  destruct (cycle_run_ready _ _ _ _ _ _ Hin Hrun _ _ _ _ _ E) as (a' & s1 & [Hr _ _ _] & Hready).
  by eapply (proj1 (exact_ready s0 h2 t2 s1 c2 j true (in_timer _ _ Hin) (in_rtimer _ _ Hin) Hr Hty Hready)).
Qed.
End cycles.

(** ** The commands sent to a device of any standard *)
Section device_cycles.
Context {T : Type} {R : Ramulator T}.
#[local] Existing Instance rm_standard.
#[local] Abbreviation Dev := (RamulatorDevice T).
Context {A : Type} {CmdS : CommandScheduling Dev A} {CmdA : CommandAlgorithm Dev A}.
Implicit Types d : Dev.

Lemma device_step_frame d d' :
  dev_step d d' → postBuffer d = [] →
  channel d' = channel d ∧ postBuffer d' = [] ∧ clockCycle d' = u32 (clockCycle d + 1).
Proof.
  intros [out Hu] Hp. simpl in Hu. unfold device_update in Hu. apply bind_Ok in Hu as ([o d1] & H1 & Hu).
  apply update_reads_frame in H1 as (E1 & _ & E2 & E3). simpl in Hu. unfold update_posted in Hu.
  rewrite E2, Hp in Hu. simpl in Hu. injection Hu as _ <-. simpl. by rewrite E1, E2, E3, Hp.
Qed.

(** The event of the tree a packet sent in cycle [t] is. *)
Definition event_of (clk0 : Z) (x : sent) : option (@event rm_standard) :=
  match convert_cmd (T := T) (busPacketType x.1.2) with
  | Ok cmd => Some (cmd, convert_addr (T := T) x.1.2, clk0 + x.2)
  | Err _ => None
  end.
Definition events (clk0 : Z) (h : list sent) : list event := omap (event_of clk0) (reverse h).

Lemma events_cons clk0 x h : events clk0 (x :: h) = events clk0 h ++ omap (event_of clk0) [x].
Proof. unfold events. by rewrite reverse_cons, omap_app. Qed.

Lemma events_one clk0 i c n cmd :
  convert_cmd (T := T) (busPacketType c) = Ok cmd →
  omap (event_of clk0) [(i, c, n)] = [(cmd, convert_addr (T := T) c, clk0 + n)].
Proof. intros Hcmd. simpl. unfold event_of. simpl. by rewrite Hcmd. Qed.

(** A packet the device accepts is a checked step of the tree. *)
Lemma issue_event c d d' :
  postCommand c = false → command_check c d = Ok true → receiveFromBus c d = Ok d' →
  ∃ cmd, convert_cmd (T := T) (busPacketType c) = Ok cmd ∧
    @check rm_standard (rm_spec (dev_spec d)) cmd (convert_addr (T := T) c) (clockCycle d) (channel d) = Ok true ∧
    @update rm_standard (rm_spec (dev_spec d)) cmd (convert_addr (T := T) c) (clockCycle d) (channel d) = Ok (channel d').
Proof.
  simpl. unfold Ramulator_command_check, Ramulator_receiveFromBus. intros -> Hck Hrc.
  apply bind_Ok in Hck as (cmd & Hcmd & Hck). exists cmd. split; [done|]. split; [done|].
  apply bind_Ok in Hrc as (d1 & H1 & Hrc). injection Hrc as <-.
  rewrite bool_decide_false in H1 by (intros E; pose proof convert_cmd_DATA as HD; by rewrite <- E, Hcmd in HD).
  rewrite Hcmd in H1. simpl in H1. apply bind_Ok in H1 as (n & Hn & H1). injection H1 as <-.
  rewrite Hn. f_equal. unfold generateData. by destruct (busPacketType c).
Qed.

Record tree_inv (d0 : Dev) (h : list sent) (n : Z) (d : Dev) : Prop := {
  ti_n : 0 ≤ n;
  ti_spec : dev_spec d = dev_spec d0;
  ti_post : postBuffer d = [];
  ti_clock : clockCycle d = clockCycle d0 + n;
  ti_run : @run rm_standard (rm_spec (dev_spec d0)) (channel d0) (events (clockCycle d0) h) (channel d);
}.

Lemma cycle_tree (a0 : A) s0 h n a s :
  initial a0 s0 → cycle_run a0 s0 h n a s →
  postBuffer (memoryDevice s0) = [] → 0 ≤ clockCycle (memoryDevice s0) →
  clockCycle (memoryDevice s0) + n < 2 ^ 32 →
  (∀ i c t, (i, c, t) ∈ h → postCommand c = false) →
  tree_inv (memoryDevice s0) h n (memoryDevice s).
Proof.
  intros Hin Hrun Hp Hclk. induction Hrun as [|h n a s i q c cr Hrun IH Hq Hc|h n a s s' Hrun IH Hs
    |h n a s a' s' Hrun IH Hs|h n a s c a' s' i Hrun IH Hs Hi|h n a s s' d Hrun IH Ht Hd|h n a s t Hrun IH]; intros Hn Hpost.
  - split; try done; [lia|constructor].
  - exact (IH Hn Hpost).
  - pose proof (cycle_run_inv _ _ _ _ _ _ Hin Hrun) as [_ (_ & _ & Hidle) _ _].
    unfold sched_refresh in Hs. assert (reachInterval (refreshMachine s) = false) as Hri by apply Hidle.
    rewrite Hri in Hs. injection Hs as <-. exact (IH Hn Hpost).
  - pose proof (cycle_run_inv _ _ _ _ _ _ Hin Hrun) as [_ _ Hwf Ha].
    destruct (schedule_issues _ _ _ _ _ Hwf Ha Hs) as (_ & ic & Hic & Hiss).
    destruct ic; [done|]. inversion Hiss as [? Hqt|]; subst. rewrite (qt_dev _ _ Hqt). exact (IH Hn Hpost).
  - inversion Hi as [|s1 ? ? ? Hqt Hf Hrd His Hsc Hsend]; subst.
    destruct IH as [I1 I2 I3 I4 I5]; [done|intros; eapply Hpost; by right|].
    destruct (send_device _ _ _ _ _ _ Hsend Hsc) as (Hrc & _). rewrite (qt_dev _ _ Hqt) in Hrc.
    assert (postCommand c = false) as Hpc by (eapply Hpost; left).
    assert (command_check c (memoryDevice s) = Ok true) as Hck.
    { unfold isIssuable in His. rewrite (qt_dev _ _ Hqt) in His. by destruct (busyBank _ _). }
    destruct (issue_event _ _ _ Hpc Hck Hrc) as (cmd & Hcmd & Hcheck & Hupd).
    apply receive_cases in Hrc as (R1 & R2 & R3). rewrite Hpc in R3. destruct R3 as (R3 & _).
    rewrite I2 in Hcheck, Hupd. rewrite I4 in Hcheck, Hupd.
    split; [done|congruence|congruence|congruence|].
    rewrite events_cons, (events_one _ _ _ _ _ Hcmd).
    apply (@run_snoc rm_standard (rm_spec (dev_spec (memoryDevice s0))) _ _ (channel (memoryDevice s)));
      [done|lia|done|done].
  - destruct (tick_timer s s' 0 0 0 Ht) as (_ & _ & Em).
    destruct IH as [I1 I2 I3 I4 I5]; [lia|done|]. simpl. rewrite Em in Hd.
    destruct Hd as [out Hd]. pose proof (device_update_spec _ _ _ Hd) as Es.
    destruct (device_step_frame _ _ (ex_intro _ out Hd) I3) as (E1 & E2 & E3).
    split; [lia|congruence|done| |by rewrite E1]. rewrite E3, I4, u32_small by lia. lia.
  - exact (IH Hn Hpost).
Qed.

(** For every algorithm of the interface, until the 32-bit
    clock of the device wraps: the packets sent are a checked run of the device
    tree. *)
Theorem sent_packets_checked (a0 : A) s0 h n a s :
  initial a0 s0 → cycle_run a0 s0 h n a s →
  postBuffer (memoryDevice s0) = [] → 0 ≤ clockCycle (memoryDevice s0) →
  clockCycle (memoryDevice s0) + n < 2 ^ 32 →
  (∀ i c t, (i, c, t) ∈ h → postCommand c = false) →
  @run rm_standard (rm_spec (dev_spec (memoryDevice s0))) (channel (memoryDevice s0))
    (events (clockCycle (memoryDevice s0)) h) (channel (memoryDevice s)).
Proof. intros. eapply ti_run, cycle_tree; done. Qed.

Lemma events_split clk0 h1 j c2 t2 cmd2 h3 i c1 t1 cmd1 h4 :
  convert_cmd (T := T) (busPacketType c1) = Ok cmd1 → convert_cmd (T := T) (busPacketType c2) = Ok cmd2 →
  events clk0 (h1 ++ (j, c2, t2) :: h3 ++ (i, c1, t1) :: h4) =
    (events clk0 h4 ++ (cmd1, convert_addr (T := T) c1, clk0 + t1) :: events clk0 h3 ++ [(cmd2, convert_addr (T := T) c2, clk0 + t2)])
    ++ events clk0 h1.
Proof.
  intros H1 H2. unfold events. rewrite reverse_app, omap_app. f_equal.
  rewrite reverse_cons, omap_app, (events_one _ _ _ _ _ H2).
  rewrite reverse_app, omap_app, reverse_cons, omap_app, (events_one _ _ _ _ _ H1).
  by rewrite <- !app_assoc.
Qed.

(** On a fresh device, for every algorithm: a packet [c2] sent after a
    packet [c1] keeps every constraint of the tables that looks at the latest
    command, at every node the check of [c2] goes through, for the packets that
    went through the node and those that went to a sibling of it. *)
Theorem sent_packets_keep_timing (a0 : A) s0 n a s h1 j c2 t2 h3 i c1 t1 h4 cmd1 cmd2 p m te :
  let d0 := memoryDevice s0 in
  let sp := rm_spec (dev_spec d0) in
  initial a0 s0 → cycle_run a0 s0 (h1 ++ (j, c2, t2) :: h3 ++ (i, c1, t1) :: h4) n a s →
  @fresh _ sp (channel d0) → level (channel d0) = Channel_level →
  postBuffer d0 = [] → 0 ≤ clockCycle d0 → clockCycle d0 + n < 2 ^ 32 →
  (∀ k c t, (k, c, t) ∈ h1 ++ (j, c2, t2) :: h3 ++ (i, c1, t1) :: h4 → postCommand c = false) →
  convert_cmd (T := T) (busPacketType c1) = Ok cmd1 → convert_cmd (T := T) (busPacketType c2) = Ok cmd2 →
  @checked _ sp cmd2 (convert_addr (T := T) c2) (channel d0) p m →
  te ∈ @timing _ sp (level m) cmd1 → te_cmd te = cmd2 → dist te = 1 →
  role_of (convert_addr (T := T) c1) 0 (id (channel d0)) p = (if sibling te then Sibling else Target) →
  t1 + val te ≤ t2.
Proof.
  intros d0 sp Hin Hrun Hf Hl Hp Hclk Hn Hpost H1 H2 Hck Hte Hcmd Hd Hr.
  destruct (cycle_tree _ _ _ _ _ _ Hin Hrun Hp Hclk Hn Hpost) as [_ _ _ _ Htree].
  rewrite (events_split _ _ _ _ _ _ _ _ _ _ _ _ H1 H2) in Htree. apply run_app in Htree as [n0 Htree].
  cut (clockCycle d0 + t1 + val te ≤ clockCycle d0 + t2); [lia|].
  eapply (@timing_ok _ sp (rm_laws (dev_spec d0)) (channel d0)); [exact Hf|exact Htree| |exact Hck|exact Hte|exact Hcmd| |].
  - rewrite Hl, Channel_level_int. lia.
  - by rewrite Hl, Channel_level_int.
  - intros _. rewrite Hd. lia.
Qed.
End device_cycles.
