(* ===== verification/CmdAlgos.v ===== *)
(** * Scheduling algorithms

    The [commandSchedule]s that keep no commands of their own: [FCFS] and [PUSH]
    (src/generalScheduler), [FRFCFS] and [RTMem] (src/system), each in a module
    with the loops of the source, and each an instance of [CommandAlgorithm].

    Main results: every algorithm keeps the promise of the interface; [PUSH] sends
    the oldest command that can be sent; [FCFS] returns a command a second time;
    [FRFCFS], over queues by banks, does not prefer column accesses the way its
    comment says. *)
From S2P Require Import Prelude Types KeyedBuf CmdQueue DRAM DDR3 Device Refresh CmdSched CmdAlg.

(** ** Loops over the requestors of a queue *)

(** The first command of every requestor that has one, in the order of
    [requestorMap]. *)
Definition heads (q : CommandQueue) : list BusPacket :=
  omap (λ id, head (cmd_buffer q id)) (requestorMap q).

Lemma each_requestor_heads {T R} q (t : T) (body : BusPacket → T → res (flow T R)) :
  each_requestor q t body = forM (heads q) t body.
Proof.
  unfold each_requestor, heads, getRequestorIndex.
  assert (∀ l k t, (∀ j, l !! j = requestorMap q !! (k + j)%nat) →
    forM (seq k (length l)) t (λ num t,
      n ← getRequestorSize num q;
      if (0 <? n)%nat then c ← getRequestorCommand num q; body c t else Ok (Next t))
    = forM (omap (λ id, head (cmd_buffer q id)) l) t body) as Hl.
  { clear t. induction l as [|id l IH]; intros k t Hk; [done|]. cbn [length seq forM].
    assert (requestorMap q !! k = Some id) as Hid by (rewrite <- (Nat.add_0_r k), <- Hk; done).
    assert (∀ j, l !! j = requestorMap q !! (S k + j)%nat) as Hk'
      by (intros j; specialize (Hk (S j)); simpl in Hk; rewrite Hk; f_equal; lia).
    assert (getRequestorSize k q = Ok (length (cmd_buffer q id))) as ->.
    { unfold getRequestorSize, vec_at. apply lookup_lt_Some in Hid as Hlt.
      replace (length (requestorMap q) <? k)%nat with false by (symmetry; apply Nat.ltb_ge; lia).
      by rewrite Hid. }
    assert (getRequestorCommand k q = vec_front (cmd_buffer q id)) as ->
      by (unfold getRequestorCommand, vec_at; by rewrite Hid).
    simpl. destruct (cmd_buffer q id) as [|c l'] eqn:Hc; simpl; [by apply IH|].
    destruct (body c t) as [[t'|t' r]|]; simpl; [by apply IH|done..]. }
  apply (Hl (requestorMap q) 0%nat). done.
Qed.

Lemma heads_elem q c : c ∈ heads q → ∃ num, getRequestorCommand num q = Ok c.
Proof.
  unfold heads. intros (id & Hid & Hc)%list_elem_of_omap. apply list_elem_of_lookup in Hid as [num Hnum].
  exists num. unfold getRequestorCommand, vec_front, vec_at. rewrite Hnum. simpl.
  by destruct (cmd_buffer q id); simplify_eq/=.
Qed.

Section scans.
Variables (test : BusPacket → res bool) (older : BusPacket → BusPacket → bool).

(** The first loop: the first command that passes ([break]), or the last one
    (no [break]). *)
Definition scan_first (q : CommandQueue) : res (option BusPacket) :=
  after <$> each_requestor (R := unit) q None (λ c t,
    b ← test c; Ok (if b : bool then Stop (Some c) tt else Next t)).
Definition scan_last (q : CommandQueue) (t : option BusPacket) : res (option BusPacket) :=
  after <$> each_requestor (R := unit) q t (λ c t,
    b ← test c; Ok (Next (if b : bool then Some c else t))).

(** The second one: compares every command that passes with the candidate,
    which it dereferences. *)
Definition scan_older (q : CommandQueue) (t : option BusPacket) : res (option BusPacket) :=
  after <$> each_requestor (R := unit) q t (λ c t,
    b ← test c;
    if b : bool then t' ← of_option Undefined t; Ok (Next (if older c t' then Some c else t))
    else Ok (Next t)).

Definition passes (q : CommandQueue) (t : option BusPacket) : Prop :=
  ∀ c, t = Some c → c ∈ heads q ∧ test c = Ok true.

Lemma scan_first_spec q t :
  scan_first q = Ok t → passes q t ∧ (t = None → ∀ c, c ∈ heads q → test c = Ok false).
Proof.
  unfold scan_first, passes. rewrite each_requestor_heads. intros (o & Ho & <-)%fmap_Ok.
  revert o Ho. induction (heads q) as [|c l IH]; intros o Ho.
  - injection Ho as <-. split; [done|]. by intros _ c ?%not_elem_of_nil.
  - cbn [forM] in Ho. destruct (test c) as [[]|] eqn:Hc; simpl in Ho; [|destruct (IH _ Ho) as [H1 H2]|done].
    + injection Ho as <-. simpl. split; [intros ? [= <-]; split; [left|done]|done].
    + split; [intros c' Hc'; destruct (H1 c' Hc'); split; [by right|done]|].
      intros Hn c' [->|Hin]%elem_of_cons; [done|by apply H2].
Qed.

Lemma scan_last_spec q t t' :
  passes q t → scan_last q t = Ok t' →
  passes q t' ∧ (t' = None → ∀ c, c ∈ heads q → test c = Ok false).
Proof.
  unfold scan_last, passes. rewrite each_requestor_heads. intros Ht (o & Ho & <-)%fmap_Ok.
  assert (∀ l t o, forM (R := unit) l t (λ c t, b ← test c; Ok (Next (if b : bool then Some c else t))) = Ok o →
    (∀ c, after o = Some c → t = Some c ∨ c ∈ l ∧ test c = Ok true) ∧
    (after o = None → t = None ∧ ∀ c, c ∈ l → test c = Ok false)) as Hl.
  { clear. induction l as [|c l IH]; intros t o Ho.
    - injection Ho as <-. split; [by left|]. intros Hn. split; [done|]. by intros c ?%not_elem_of_nil.
    - cbn [forM] in Ho. destruct (test c) as [b|] eqn:Hc; simpl in Ho; [|done].
      destruct (IH _ _ Ho) as [H1 H2]. split.
      + intros c' Hc'. destruct (H1 _ Hc') as [E|[? ?]]; [|right; split; [by right|done]].
        destruct b; [|by left]. injection E as <-. right. split; [left|done].
      + intros Hn. destruct (H2 Hn) as [E Hall]. destruct b; [done|]. split; [done|].
        intros c' [->|Hin]%elem_of_cons; auto. }
  destruct (Hl _ _ _ Ho) as [H1 H2]. split.
  - intros c Hc. destruct (H1 c Hc) as [E|?]; [by apply Ht|done].
  - intros Hn. by apply H2.
Qed.

Lemma scan_older_none q : (∀ c, c ∈ heads q → test c = Ok false) → scan_older q None = Ok None.
Proof.
  unfold scan_older. rewrite each_requestor_heads. induction (heads q) as [|c l IH]; intros Hn; [done|].
  cbn [forM]. rewrite Hn by left. apply IH. intros; apply Hn; by right.
Qed.

Hypothesis older_le : ∀ a b, older a b = true → bp_arriveTime a ≤ bp_arriveTime b.
Hypothesis older_not : ∀ a b, older a b = false → bp_arriveTime b ≤ bp_arriveTime a.

(** With a candidate, the second loop dereferences no null pointer and ends with
    an oldest command among the candidate and those that pass. *)
Lemma scan_older_spec q c0 t' :
  passes q (Some c0) → scan_older q (Some c0) = Ok t' →
  ∃ c, t' = Some c ∧ passes q t' ∧
    bp_arriveTime c ≤ bp_arriveTime c0 ∧
    ∀ c', c' ∈ heads q → test c' = Ok true → bp_arriveTime c ≤ bp_arriveTime c'.
Proof.
  unfold scan_older, passes. rewrite each_requestor_heads. intros Hp (o & Ho & <-)%fmap_Ok.
  specialize (Hp c0 eq_refl). revert Hp.
  assert (∀ l t o, forM (R := unit) l (Some t) (λ c t, b ← test c;
      if b : bool then t' ← of_option Undefined t; Ok (Next (if older c t' then Some c else t))
      else Ok (Next t)) = Ok o →
    ∃ c, after o = Some c ∧ (c = t ∨ c ∈ l ∧ test c = Ok true) ∧ bp_arriveTime c ≤ bp_arriveTime t ∧
      ∀ c', c' ∈ l → test c' = Ok true → bp_arriveTime c ≤ bp_arriveTime c') as Hl.
  { clear - older_le older_not. induction l as [|x l IH]; intros t o Ho.
    - injection Ho as <-. exists t. split_and!; [done|by left|done|]. by intros c' ?%not_elem_of_nil.
    - cbn [forM] in Ho. destruct (test x) as [[]|] eqn:Hx; simpl in Ho; [| |done].
      + destruct (older x t) eqn:Hold; destruct (IH _ _ Ho) as (c & E & Hc & H1 & H2);
          exists c; (split; [done|]).
        * apply older_le in Hold. split; [right; destruct Hc as [->|[? ?]]; (split; [(by left) || (by right)|done])|].
          split; [lia|]. intros c' [->|Hin]%elem_of_cons ?; [done|by apply H2].
        * apply older_not in Hold. split; [destruct Hc as [->|[? ?]]; [by left|right; split; [by right|done]]|].
          split; [done|]. intros c' [->|Hin]%elem_of_cons ?; [lia|by apply H2].
      + destruct (IH _ _ Ho) as (c & E & Hc & H1 & H2). exists c. split; [done|].
        split; [destruct Hc as [->|[? ?]]; [by left|right; split; [by right|done]]|]. split; [done|].
        intros c' [->|Hin]%elem_of_cons ?; [congruence|by apply H2]. }
  intros Hp. destruct (Hl _ _ _ Ho) as (c & E & Hc & H1 & H2). exists c. split_and!; [done| |done|done].
  intros c' Hc'. assert (c' = c) as -> by congruence. by destruct Hc as [->|?].
Qed.
End scans.

(** ** Candidates from the critical buffers *)
Section candidates.
Context {Dev : Type} `{MemoryDevice Dev}.
Implicit Types s : CommandScheduler Dev.

(** [c] is the command [getCommand(true)] of queue [i] showed. *)
Definition crit_front (i : nat) (c : BusPacket) (s : CommandScheduler Dev) : Prop :=
  ∃ q l, commandQueues s !! i = Some q ∧ scheduledQueue q = true ∧ hrtBuffer q = c :: l ∧
    cq_isPerRequestor q = false.

Lemma crit_front_at i c s : crit_front i c s → at_front i c s.
Proof. intros (q & l & Hq & Hs & Hl & Hk). exists q. split; [done|]. unfold popped. rewrite Hk, Hs. eauto. Qed.

Lemma crit_front_peek i c j c' s s' :
  crit_front i c s → peek true j s = Ok (c', s') → crit_front i c s'.
Proof.
  intros (q & l & Hq & Hs & Hl & Hk) (q' & Hq' & -> & _)%peek_Ok. unfold crit_front. simpl.
  destruct (decide (i = j)) as [->|Hne].
  - exists (set_scheduledQueue true q'), l. assert (q' = q) as -> by congruence.
    rewrite list_lookup_insert_eq by (by eapply lookup_lt_Some). by split_and!.
  - exists q, l. rewrite list_lookup_insert_ne by done. by split_and!.
Qed.

Lemma peek_crit i c s s' q :
  commandQueues s !! i = Some q → cq_isPerRequestor q = false →
  peek true i s = Ok (c, s') → crit_front i c s'.
Proof.
  intros Hq Hk (q' & Hq' & -> & l & Hl)%peek_Ok. assert (q' = q) as -> by congruence.
  exists (set_scheduledQueue true q), l. simpl.
  rewrite list_lookup_insert_eq by (by eapply lookup_lt_Some). by split_and!.
Qed.

(** What a loop over the queues knows of its candidate. *)
Definition candidate s0 s (t : option (BusPacket * nat)) : Prop :=
  quiet s0 s ∧ ∀ c i, t = Some (c, i) → crit_front i c s ∧ ready_issuable c i s = Ok true.

Lemma candidate_none s : candidate s s None.
Proof. by split. Qed.

Lemma candidate_peek s0 s t j c s' : candidate s0 s t → peek true j s = Ok (c, s') → candidate s0 s' t.
Proof.
  intros [Hq Ht] Hp. pose proof (peek_quiet _ _ _ _ _ Hp) as Hq'. split; [by etransitivity|].
  intros c' i E. destruct (Ht c' i E) as [H1 H2]. split; [by eapply crit_front_peek|].
  by rewrite (quiet_ready_issuable _ _ _ _ Hq').
Qed.

Lemma candidate_scheduled s0 s t c : candidate s0 s t → candidate s0 (set_scheduledCommand c s) t.
Proof.
  intros [Hq Ht]. split; [etransitivity; [exact Hq|apply quiet_scheduled]|].
  intros c' i E. destruct (Ht c' i E) as [H1 H2]. split; [exact H1|].
  by rewrite (quiet_ready_issuable _ _ _ _ (quiet_scheduled c s)).
Qed.

Lemma candidate_new s0 s t i c s' q :
  candidate s0 s t → commandQueues s !! i = Some q → cq_isPerRequestor q = false →
  peek true i s = Ok (c, s') → ready_issuable c i s' = Ok true → candidate s0 s' (Some (c, i)).
Proof.
  intros Hc Hq Hk Hp Hr. split; [eapply (candidate_peek _ _ _ _ _ _ Hc Hp)|].
  intros c' i' [= <- <-]. split; [by eapply peek_crit|done].
Qed.

Lemma candidate_send s0 s c i s' :
  candidate s0 s (Some (c, i)) → send c i s = Ok s' → issues s0 (Some (i, c)) s'.
Proof.
  intros [Hq Ht] Hs. destruct (Ht c i eq_refl) as [Hf Hr].
  eapply send_issues; [exact Hq|by apply crit_front_at|done|done].
Qed.

Lemma issues_kinds s ic s' : issues s ic s' → kinds (commandQueues s') = kinds (commandQueues s).
Proof.
  intros [s1 Hq|s1 i c s2 Hq _ _ _ _ Hs]; [by apply quiet_kinds|].
  rewrite <- (quiet_kinds _ _ Hq). eapply (send_timer c i false s1 s2 0 0 0); [done|simpl; lia].
Qed.

(** All queues have the critical and the noncritical buffer / one per requestor. *)
Definition by_banks (s : CommandScheduler Dev) : Prop := Forall (λ k, k = false) (kinds (commandQueues s)).
Definition by_requestors (s : CommandScheduler Dev) : Prop := Forall (λ k, k = true) (kinds (commandQueues s)).

Lemma by_banks_kind s i q : by_banks s → commandQueues s !! i = Some q → cq_isPerRequestor q = false.
Proof.
  intros Hb Hq. apply (Forall_lookup_1 (λ k, k = false) _ i (cq_isPerRequestor q) Hb). unfold kinds. by rewrite list_lookup_fmap, Hq.
Qed.

Lemma by_requestors_kind s i q : by_requestors s → commandQueues s !! i = Some q → cq_isPerRequestor q = true.
Proof.
  intros Hb Hq. apply (Forall_lookup_1 (λ k, k = true) _ i (cq_isPerRequestor q) Hb). unfold kinds. by rewrite list_lookup_fmap, Hq.
Qed.

Lemma kinds_length (qs : list CommandQueue) : length (kinds qs) = length qs.
Proof. apply length_fmap. Qed.

(** A command of a requestor that passes the tests. *)
Lemma requestor_send s0 s c i q s' :
  quiet s0 s → Forall cq_wf (commandQueues s0) → commandQueues s !! i = Some q → cq_isPerRequestor q = true →
  c ∈ heads q → ready_issuable c i s = Ok true → send c i s = Ok s' → issues s0 (Some (i, c)) s'.
Proof.
  intros Hqt Hwf Hq Hk [num Hc]%heads_elem Hr Hs. eapply send_issues; [exact Hqt| |exact Hr|exact Hs].
  eapply requestor_front; [exact Hq| |exact Hk|exact Hc].
  eapply Forall_lookup_1; [by eapply quiet_wf|exact Hq].
Qed.
End candidates.

Definition is_type (ts : list BusPacketType) (c : BusPacket) : bool := bool_decide (busPacketType c ∈ ts).

(** ** FCFS (src/generalScheduler/CommandScheduler_FCFS.h) *)
Module FCFS.
Section FCFS.
Context {Dev : Type} `{MemoryDevice Dev}.
Implicit Types s : CommandScheduler Dev.

(** [checkCommand_temp_1->arriveTime >= checkCommand->arriveTime]. *)
Definition older (c t : BusPacket) : bool := bp_arriveTime c <=? bp_arriveTime t.

(** The two loops over the requestors of queue [index]. *)
Definition choose (q : CommandQueue) (index : nat) (s : CommandScheduler Dev) : res (option BusPacket) :=
  t ← scan_first (λ c, ready_issuable c index s) q;
  scan_older (λ c, ready_issuable c index s) older q t.

(** One turn of the loop over the queues. *)
Definition visit (index : nat) (s : CommandScheduler Dev)
    : res (flow (CommandScheduler Dev) (option BusPacket)) :=
  q ← queue_at index s;
  if cq_isPerRequestor q then
    if (0 <? getRequestorIndex q)%nat then
      t ← choose q index s;
      match t with
      | Some c => s ← send c index s; Ok (Stop s (Some c))
      | None => Ok (Next s)
      end
    else Ok (Next s)
  else
    let s := set_scheduledCommand None s in
    if (0 <? cq_getSize true q)%nat then
      cs ← peek true index s;
      let '(c, s) := cs in
      b ← ready_issuable c index s;
      if b : bool then s ← send c index s; Ok (Stop s (Some c)) else Ok (Next s)
    else Ok (Next s).

(** At its end the loop returns whatever [scheduledCommand] is. *)
Definition commandSchedule (a : unit) (s : CommandScheduler Dev)
    : res (option BusPacket * unit * CommandScheduler Dev) :=
  o ← forM (seq 0 (length (commandQueues s))) s visit;
  match o with
  | Stop s r => Ok (r, a, s)
  | Next s => Ok (scheduledCommand s, a, s)
  end.

Lemma FCFS_choose_spec q i s t :
  choose q i s = Ok t →
  passes (λ c, ready_issuable c i s) q t ∧
  match t with
  | Some c => ∀ c', c' ∈ heads q → ready_issuable c' i s = Ok true → bp_arriveTime c ≤ bp_arriveTime c'
  | None => ∀ c, c ∈ heads q → ready_issuable c i s = Ok false
  end.
Proof.
  unfold choose. intros Hc. apply bind_Ok in Hc as (t1 & H1 & H2).
  apply scan_first_spec in H1 as [Hp Hn]. destruct t1 as [c1|].
  - destruct (scan_older_spec (λ c, ready_issuable c i s) older) with q c1 t
      as (c & -> & Hp' & _ & Hle); [unfold older; lia..|done|done|]. done.
  - specialize (Hn eq_refl). rewrite scan_older_none in H2 by done. by injection H2 as <-.
Qed.

Lemma FCFS_visit_issues s0 index s o :
  Forall cq_wf (commandQueues s0) → quiet s0 s → visit index s = Ok o →
  match o with
  | Next s' => quiet s0 s' ∧
      (∀ q, commandQueues s !! index = Some q → cq_isPerRequestor q = false → scheduledCommand s' = None)
  | Stop s' r => ∃ ic, snd <$> ic = r ∧ issues s0 ic s'
  end.
Proof.
  intros Hwf Hq Hv. unfold visit in Hv. apply bind_Ok in Hv as (q & Hi%vec_at_Ok & Hv).
  destruct (cq_isPerRequestor q) eqn:Hk.
  - assert (∀ q', commandQueues s !! index = Some q' → cq_isPerRequestor q' = false →
      scheduledCommand s = None) as Hno by (intros; congruence).
    destruct (0 <? getRequestorIndex q)%nat; [|by injection Hv as <-].
    apply bind_Ok in Hv as ([c|] & Hc & Hv); [|by injection Hv as <-].
    apply bind_Ok in Hv as (s' & Hs & Hv). injection Hv as <-. exists (Some (index, c)). split; [done|].
    destruct (FCFS_choose_spec _ _ _ _ Hc) as [Hp _]. destruct (Hp c eq_refl) as [Hin Hr].
    by eapply requestor_send.
  - set (s1 := set_scheduledCommand None s) in Hv.
    assert (quiet s0 s1) as Hq1 by (etransitivity; [exact Hq|apply quiet_scheduled]).
    destruct (0 <? cq_getSize true q)%nat; [|by injection Hv as <-].
    apply bind_Ok in Hv as ([c s2] & Hp & Hv). apply bind_Ok in Hv as ([] & Hr & Hv).
    + apply bind_Ok in Hv as (s' & Hs & Hv). injection Hv as <-. exists (Some (index, c)). split; [done|].
      assert (candidate s0 s1 None) as Hc by (by split).
      eapply candidate_send; [|exact Hs]. by eapply candidate_new.
    + injection Hv as <-. split; [etransitivity; [exact Hq1|by eapply peek_quiet]|]. intros _ _ _.
      by apply peek_Ok in Hp as (q' & _ & -> & _).
Qed.

Definition inv (_ : unit) (s : CommandScheduler Dev) : Prop := by_banks s ∧ commandQueues s ≠ [].

Lemma FCFS_schedule a s r a' s' :
  Forall cq_wf (commandQueues s) → inv a s → commandSchedule a s = Ok (r, a', s') →
  inv a' s' ∧ ∃ ic, snd <$> ic = r ∧ issues s ic s'.
Proof.
  intros Hwf [Hb Hne] Hs. assert (∃ ic, snd <$> ic = r ∧ issues s ic s') as (ic & Hic & Hi).
  { unfold commandSchedule in Hs. apply bind_Ok in Hs as (o & Ho & Hs).
    destruct (commandQueues s) as [|q0 qs] eqn:Hqs; [done|]. rewrite <- Hqs in *.
    assert (seq 0 (length (commandQueues s)) = 0%nat :: seq 1 (length qs)) as Eseq by (by rewrite Hqs).
    assert (cq_isPerRequestor q0 = false) as Hk by (apply (by_banks_kind s 0); [done|by rewrite Hqs]).
    rewrite Eseq in Ho. cbn [forM] in Ho. apply bind_Ok in Ho as (o1 & H1 & Ho).
    eapply FCFS_visit_issues in H1; [|exact Hwf|reflexivity].
    destruct o1 as [s1|s1 r1]; [|by injection Ho as <-; injection Hs as <- _ <-].
    destruct H1 as [Hq1 Hnone]. specialize (Hnone q0 ltac:(by rewrite Hqs) Hk).
    eapply (forM_inv (λ s1, quiet s s1 ∧ scheduledCommand s1 = None)
      (λ s1 r, ∃ ic, snd <$> ic = r ∧ issues s ic s1)) in Ho; [|done|].
    - destruct o as [s2|s2 r2]; injection Hs as <- _ <-; [|done].
      destruct Ho as [Hq2 ->]. exists None. split; [done|by constructor].
    - intros i s2 o2 Hi [Hq2 Hn2] Hv. pose proof (FCFS_visit_issues s i s2 o2 Hwf Hq2 Hv) as Ho2.
      destruct o2 as [s3|]; [|done]. destruct Ho2 as [Hq3 Hn3]. split; [done|].
      unfold visit in Hv. apply bind_Ok in Hv as (q & Hiq%vec_at_Ok & Hv). eapply Hn3; [exact Hiq|].
      eapply by_banks_kind; [|exact Hiq]. unfold by_banks. by rewrite (quiet_kinds _ _ Hq2). }
  split; [|by exists ic]. apply issues_kinds in Hi. split.
  - unfold by_banks. by rewrite Hi.
  - intros E. apply Hne. apply length_zero_iff_nil. rewrite <- kinds_length, <- Hi, E. done.
Qed.

#[export] Instance scheduling : CommandScheduling Dev unit := {| CmdAlg.commandSchedule := commandSchedule |}.
#[export] Program Instance algorithm : CommandAlgorithm Dev unit := {|
  alg_accepts := λ _ _, True; alg_inv := inv;
  schedule_issues := FCFS_schedule |}.
Next Obligation.
  intros a s s' [Hb Hne] Hg. pose proof (grows_kinds _ _ _ Hg) as Hk. split.
  - unfold by_banks. by rewrite Hk.
  - intros E. apply Hne, length_zero_iff_nil. by rewrite <- (gr_length _ _ _ Hg), E.
Qed.

(** With one buffer per requestor [FCFS] never clears [scheduledCommand]: when
    no command can be sent it returns the one it returned last, which
    [MemoryController::update] has deleted and deletes again. *)
Theorem FCFS_returns_stale s :
  by_requestors s →
  (∀ i q c, commandQueues s !! i = Some q → c ∈ heads q → ready_issuable c i s = Ok false) →
  commandSchedule tt s = Ok (scheduledCommand s, tt, s).
Proof.
  intros Hb Hno. unfold commandSchedule.
  assert (∀ n k, (k + n ≤ length (commandQueues s))%nat → forM (seq k n) s visit = Ok (Next s)) as Hl.
  { induction n as [|n IH]; intros k Hk; [done|]. cbn [seq forM].
    destruct (lookup_lt_is_Some_2 (commandQueues s) k) as [q Hq]; [lia|].
    assert (visit k s = Ok (Next s)) as ->; [|by apply IH; lia].
    unfold visit, queue_at, vec_at. rewrite Hq. simpl. rewrite (by_requestors_kind _ _ _ Hb Hq).
    destruct (0 <? getRequestorIndex q)%nat; [|done].
    assert (choose q k s = Ok None) as ->; [|done]. unfold choose.
    assert (scan_first (λ c, ready_issuable c k s) q = Ok None) as ->.
    { unfold scan_first. rewrite each_requestor_heads. specialize (Hno k q).
      induction (heads q) as [|c l IHl]; [done|]. cbn [forM]. rewrite Hno by (done || left).
      apply IHl. intros; apply Hno; [done|by right]. }
    simpl. apply scan_older_none. intros c Hc. by eapply Hno. }
  by rewrite (Hl _ 0%nat).
Qed.
End FCFS.
End FCFS.

(** ** PUSH (src/generalScheduler/CommandScheduler_PUSH.h) *)
Module PUSH.
Section PUSH.
Context {Dev : Type} `{MemoryDevice Dev}.
Implicit Types s : CommandScheduler Dev.

(** The state of the loops: the scheduler, and [checkCommand_temp_1] with
    [index_temp]. *)
Abbreviation state := (CommandScheduler Dev * option (BusPacket * nat))%type.

(** One turn of either loop: [pick] decides what a command that can be sent does
    to the candidate. *)
Definition visit (pick : BusPacket → nat → option (BusPacket * nat) → res (option (BusPacket * nat)))
    (index : nat) (st : state) : res state :=
  let '(s, t) := st in
  let s := set_scheduledCommand None s in
  q ← queue_at index s;
  if (0 <? cq_getSize true q)%nat then
    cs ← peek true index s;
    let '(c, s) := cs in
    b ← ready_issuable c index s;
    if b : bool then t ← pick c index t; Ok (s, t) else Ok (s, t)
  else Ok (s, t).

Definition pick_last (c : BusPacket) (index : nat) (t : option (BusPacket * nat)) : res (option (BusPacket * nat)) :=
  Ok (Some (c, index)).
Definition pick_older (c : BusPacket) (index : nat) (t : option (BusPacket * nat)) : res (option (BusPacket * nat)) :=
  ti ← of_option Undefined t;
  Ok (if bp_arriveTime c <=? bp_arriveTime ti.1 then Some (c, index) else t).

Definition commandSchedule (a : unit) (s : CommandScheduler Dev)
    : res (option BusPacket * unit * CommandScheduler Dev) :=
  let indices := seq 0 (length (commandQueues s)) in
  st ← foldM indices (s, None) (visit pick_last);
  st ← foldM indices st (visit pick_older);
  match st with
  | (s, Some (c, index)) => s ← send c index s; Ok (Some c, a, s)
  | (s, None) => Ok (scheduledCommand s, a, s)
  end.

(** *** What a turn does *)

(** The command of queue [i] a turn looks at, and whether it can be sent. *)
Definition hrt_head s (i : nat) : option BusPacket := q ← commandQueues s !! i; head (hrtBuffer q).
Definition can_send s (i : nat) (c : BusPacket) : Prop :=
  hrt_head s i = Some c ∧ ready_issuable c i s = Ok true.

Lemma hrt_head_quiet s s' i : quiet s s' → hrt_head s' i = hrt_head s i.
Proof.
  intros Hq. unfold hrt_head. destruct (commandQueues s !! i) as [q|] eqn:E.
  - destruct (quiet_lookup_l _ _ _ _ Hq E) as (q' & -> & [b ->]). done.
  - apply lookup_ge_None in E. rewrite <- (quiet_length _ _ Hq) in E. by apply lookup_ge_None in E as ->.
Qed.

Lemma can_send_quiet s s' i c : quiet s s' → can_send s' i c ↔ can_send s i c.
Proof. intros Hq. unfold can_send. by rewrite (hrt_head_quiet _ _ _ Hq), (quiet_ready_issuable _ _ _ _ Hq). Qed.

Lemma visit_Ok pick i s t s' t' :
  visit pick i (s, t) = Ok (s', t') →
  quiet s s' ∧ scheduledCommand s' = None ∧
  ((∃ c, can_send s i c ∧ peek true i (set_scheduledCommand None s) = Ok (c, s') ∧ pick c i t = Ok t') ∨
   ((∀ c, ¬ can_send s i c) ∧ t' = t ∧
     (s' = set_scheduledCommand None s ∨ ∃ c, peek true i (set_scheduledCommand None s) = Ok (c, s')))).
Proof.
  unfold visit. intros Hv. apply bind_Ok in Hv as (q & Hi%vec_at_Ok & Hv). simpl in Hi, Hv.
  assert (hrt_head s i = head (hrtBuffer q)) as Hh by (unfold hrt_head; by rewrite Hi).
  unfold can_send. rewrite Hh. unfold cq_getSize in Hv.
  destruct (Nat.ltb_spec 0 (length (hrtBuffer q))) as [Hlt|Hle].
  - apply bind_Ok in Hv as ([c s1] & Hp & Hv). pose proof (peek_quiet _ _ _ _ _ Hp) as Hq1.
    assert (quiet s s1) as Hq by (etransitivity; [apply quiet_scheduled|exact Hq1]).
    assert (head (hrtBuffer q) = Some c ∧ scheduledCommand s1 = None) as [Hc Hn].
    { apply peek_Ok in Hp as (q' & Hq' & -> & l & Hl). simpl in Hq'. assert (q' = q) as -> by congruence.
      by rewrite Hl. }
    apply bind_Ok in Hv as (b & Hr & Hv). rewrite (quiet_ready_issuable _ _ _ _ Hq) in Hr.
    destruct b.
    + apply bind_Ok in Hv as (t1 & Ht & Hv). injection Hv as <- <-. split_and!; [done..|]. left. by exists c.
    + injection Hv as <- <-. split_and!; [done..|]. right. split_and!; [|done|right; by exists c].
      intros c' [E Hr']. congruence.
  - injection Hv as <- <-. split_and!; [apply quiet_scheduled|done|]. right. split_and!; [|done|by left].
    intros c [E _]. destruct (hrtBuffer q); [done|simpl in Hle; lia].
Qed.

Lemma visit_candidate pick s0 i s t s' t' :
  by_banks s0 → candidate s0 s t → visit pick i (s, t) = Ok (s', t') →
  (∀ c, pick c i t = Ok t' → t' = Some (c, i) ∨ t' = t) → candidate s0 s' t'.
Proof.
  intros Hb Hc Hv Hpick. assert (by_banks s) as Hbs by (unfold by_banks; by rewrite (quiet_kinds _ _ (proj1 Hc))).
  pose proof (candidate_scheduled _ _ _ None Hc) as Hc1.
  apply visit_Ok in Hv as (Hq & _ & [(c & [_ Hr] & Hp & Ht)|(_ & -> & [->|[c Hp]])]).
  - destruct (Hpick c Ht) as [->| ->]; [|by eapply candidate_peek].
    rewrite <- (quiet_ready_issuable _ _ _ _ Hq) in Hr.
    pose proof (peek_Ok _ _ _ _ _ Hp) as (q & Hi & _).
    eapply candidate_new; [exact Hc1|exact Hi| |exact Hp|exact Hr]. by eapply by_banks_kind.
  - done.
  - by eapply candidate_peek.
Qed.

Lemma pick_last_cases c i t t' : pick_last c i t = Ok t' → t' = Some (c, i) ∨ t' = t.
Proof. intros [= <-]. by left. Qed.
Lemma pick_older_cases c i t t' : pick_older c i t = Ok t' → t' = Some (c, i) ∨ t' = t.
Proof.
  unfold pick_older. intros Hp. apply bind_Ok in Hp as (ti & Hti%of_option_Ok & Hp). injection Hp as <-.
  destruct (_ <=? _); [by left|by right].
Qed.

(** The invariant of either loop after the queues below [k]. *)
Definition loop_inv (s0 : CommandScheduler Dev) (done : nat → Prop) (le : Prop) (st : state) : Prop :=
  candidate s0 st.1 st.2 ∧ (∀ c i, st.2 = Some (c, i) → can_send s0 i c) ∧
  (st.2 = None → ∀ i c, done i → ¬ can_send s0 i c) ∧
  (le → ∀ c i c' i', st.2 = Some (c, i) → done i' → can_send s0 i' c' → bp_arriveTime c ≤ bp_arriveTime c').

Lemma visit_last s0 D i st st' :
  by_banks s0 → loop_inv s0 D False st → visit pick_last i st = Ok st' →
  loop_inv s0 (λ j, D j ∨ j = i) False st' ∧ scheduledCommand st'.1 = None.
Proof.
  destruct st as [s t], st' as [s' t']. intros Hb (Hc & Hcan & Hnone & _) Hv. cbn [fst snd] in *.
  pose proof (visit_candidate _ _ _ _ _ _ _ Hb Hc Hv (λ c, pick_last_cases c i t t')) as Hc'.
  apply visit_Ok in Hv as (_ & Hn & Hv). split; [|done]. split; [done|].
  destruct Hv as [(c & Hcs & _ & [= <-])|(Hno & -> & _)]; simpl.
  - rewrite (can_send_quiet _ _ _ _ (proj1 Hc)) in Hcs. split_and!; [by intros ?? [= <- <-]|done|done].
  - split_and!; [done| |done]. intros E j c [Hj| ->]; [by apply Hnone|].
    rewrite <- (can_send_quiet _ _ _ _ (proj1 Hc)). apply Hno.
Qed.

Lemma visit_older s0 D i st st' :
  by_banks s0 → loop_inv s0 D True st → (st.2 = None → ∀ i c, ¬ can_send s0 i c) →
  visit pick_older i st = Ok st' →
  loop_inv s0 (λ j, D j ∨ j = i) True st' ∧ (st'.2 = None → ∀ i c, ¬ can_send s0 i c) ∧
  scheduledCommand st'.1 = None.
Proof.
  destruct st as [s t], st' as [s' t']. intros Hb (Hc & Hcan & _ & Hle) Hall Hv. cbn [fst snd] in *.
  pose proof (visit_candidate _ _ _ _ _ _ _ Hb Hc Hv (λ c, pick_older_cases c i t t')) as Hc'.
  apply visit_Ok in Hv as (_ & Hn & Hv). unfold loop_inv. simpl.
  destruct Hv as [(c & Hcs & _ & Hp)|(Hno & -> & _)].
  - rewrite (can_send_quiet _ _ _ _ (proj1 Hc)) in Hcs. unfold pick_older in Hp.
    apply bind_Ok in Hp as ([ct it] & ->%of_option_Ok & Hp). injection Hp as <-. simpl.
    destruct (Z.leb_spec (bp_arriveTime c) (bp_arriveTime ct)) as [Hold|Hold].
    + split_and!; try done; [by intros ?? [= <- <-]|].
      intros _ c1 i1 c' i' [= <- <-] [Hi'| ->] Hcs'.
      * specialize (Hle I _ _ c' i' eq_refl Hi' Hcs'). lia.
      * destruct Hcs, Hcs'. assert (c' = c) as -> by congruence. done.
    + split_and!; try done. intros _ c1 i1 c' i' [= <- <-] [Hi'| ->] Hcs'.
      * exact (Hle I _ _ c' i' eq_refl Hi' Hcs').
      * destruct Hcs, Hcs'. assert (c' = c) as -> by congruence. lia.
  - split_and!; try done; [intros E j c _; by apply Hall|].
    intros _ c1 i1 c' i' E [Hi'| ->] Hcs'; [by eapply Hle|]. exfalso.
    rewrite <- (can_send_quiet _ _ _ _ (proj1 Hc)) in Hcs'. by eapply Hno.
Qed.

Lemma loop_last s0 k n st st' :
  by_banks s0 → loop_inv s0 (λ j, j < k)%nat False st →
  foldM (seq k n) st (visit pick_last) = Ok st' → loop_inv s0 (λ j, j < k + n)%nat False st'.
Proof.
  intros Hb Hst. revert k st Hst. induction n as [|n IH]; intros k st Hst Hf; simpl in Hf.
  - injection Hf as <-. rewrite Nat.add_0_r. done.
  - apply bind_Ok in Hf as (st1 & Hv & Hf). destruct (visit_last _ _ _ _ _ Hb Hst Hv) as [(H1 & H2 & H3 & _) _].
    destruct (IH (S k) st1) as (I1 & I2 & I3 & _); [|done|].
    + split_and!; [done|done| |done]. intros E i c Hi. apply H3; [done|lia].
    + split_and!; [done|done| |done]. intros E i c Hi. apply I3; [done|lia].
Qed.

Lemma loop_older s0 k n st st' :
  by_banks s0 → loop_inv s0 (λ j, j < k)%nat True st → (st.2 = None → ∀ i c, ¬ can_send s0 i c) →
  foldM (seq k n) st (visit pick_older) = Ok st' →
  loop_inv s0 (λ j, j < k + n)%nat True st' ∧ (st'.2 = None → ∀ i c, ¬ can_send s0 i c) ∧
  (n ≠ 0%nat ∨ scheduledCommand st.1 = None → scheduledCommand st'.1 = None).
Proof.
  intros Hb. revert k st. induction n as [|n IH]; intros k st Hst Hall Hf; simpl in Hf.
  - injection Hf as <-. rewrite Nat.add_0_r. split_and!; try done. by intros [|].
  - apply bind_Ok in Hf as (st1 & Hv & Hf).
    destruct (visit_older _ _ _ _ _ Hb Hst Hall Hv) as ((H1 & H2 & H3 & H4) & Hall1 & Hn).
    destruct (IH (S k) st1) as ((I1 & I2 & I3 & I4) & I5 & I6); [|done|done|].
    + split_and!; [done|done|intros E i c Hi; apply H3; [done|lia]|].
      intros _ c i c' i' E Hi'. apply (H4 I c i c' i' E). lia.
    + split_and!; [|done|intros _; apply I6; by right]. split_and!; [done|done|intros E i c Hi; apply I3; [done|lia]|].
      intros _ c i c' i' E Hi'. apply (I4 I c i c' i' E). lia.
Qed.

Definition inv (_ : unit) (s : CommandScheduler Dev) : Prop := by_banks s ∧ commandQueues s ≠ [].

(** What a call does: sends the oldest command that can be sent, or nothing when
    none can. *)
Lemma schedule_oldest a s r a' s' :
  inv a s → commandSchedule a s = Ok (r, a', s') →
  match r with
  | Some c => ∃ i, can_send s i c ∧ issues s (Some (i, c)) s' ∧
      ∀ i' c', can_send s i' c' → bp_arriveTime c ≤ bp_arriveTime c'
  | None => quiet s s' ∧ ∀ i c, ¬ can_send s i c
  end.
Proof.
  intros [Hb Hne] Hs. unfold commandSchedule in Hs.
  assert (length (commandQueues s) ≠ 0%nat) as Hlen by (by intros ?%length_zero_iff_nil).
  assert (∀ i c, can_send s i c → (i < 0 + length (commandQueues s))%nat) as Hrange.
  { intros i c [Hh _]. unfold hrt_head in Hh. destruct (commandQueues s !! i) eqn:E; [|done].
    by apply lookup_lt_Some in E. }
  apply bind_Ok in Hs as (st1 & H1 & Hs). apply bind_Ok in Hs as (st2 & H2 & Hs).
  apply (loop_last s) in H1 as (L1 & L2 & L3 & _); [|done|].
  2: { split_and!; [apply candidate_none|done|intros; lia|done]. }
  assert (st1.2 = None → ∀ i c, ¬ can_send s i c) as Hall.
  { intros E i c Hcs. by eapply (L3 E i c); [eapply Hrange|]. }
  apply (loop_older s) in H2 as ((O1 & O2 & _ & O4) & O5 & O6); [|done| |done].
  2: { split_and!; [done|done|intros; lia|intros; lia]. }
  destruct st2 as [s2 [[c i]|]]; simpl in *.
  - apply bind_Ok in Hs as (s3 & Hsend & Hs). injection Hs as <- _ <-. exists i.
    split_and!; [by apply O2|by eapply candidate_send|].
    intros i' c' Hcs. eapply (O4 I c i c' i' eq_refl); [by eapply Hrange|done].
  - injection Hs as <- _ <-. rewrite O6 by auto. split; [apply O1|by apply O5].
Qed.

Lemma PUSH_schedule a s r a' s' :
  Forall cq_wf (commandQueues s) → inv a s → commandSchedule a s = Ok (r, a', s') →
  inv a' s' ∧ ∃ ic, snd <$> ic = r ∧ issues s ic s'.
Proof.
  intros _ Hinv Hs. pose proof (schedule_oldest _ _ _ _ _ Hinv Hs) as Hr.
  assert (∃ ic, snd <$> ic = r ∧ issues s ic s') as (ic & Hic & Hi).
  { destruct r as [c|]; [destruct Hr as (i & _ & Hi & _); by exists (Some (i, c))|].
    exists None. split; [done|]. constructor. apply Hr. }
  split; [|by exists ic]. destruct Hinv as [Hb Hne]. apply issues_kinds in Hi. split.
  - unfold by_banks. by rewrite Hi.
  - intros E. apply Hne, length_zero_iff_nil. by rewrite <- kinds_length, <- Hi, E.
Qed.

#[export] Instance scheduling : CommandScheduling Dev unit := {| CmdAlg.commandSchedule := commandSchedule |}.
#[export] Program Instance algorithm : CommandAlgorithm Dev unit := {|
  alg_accepts := λ _ _, True; alg_inv := inv;
  schedule_issues := PUSH_schedule |}.
Next Obligation.
  intros a s s' [Hb Hne] Hg. pose proof (grows_kinds _ _ _ Hg) as Hk. split.
  - unfold by_banks. by rewrite Hk.
  - intros E. apply Hne, length_zero_iff_nil. by rewrite <- (gr_length _ _ _ Hg), E.
Qed.

(** [PUSH] sends an oldest command among the critical commands at the front of
    a queue that are ready and issuable, and sends nothing only if there is none:
    it is first-come first-served and work conserving. *)
Theorem PUSH_sends_oldest a s r a' s' :
  by_banks s → commandQueues s ≠ [] → commandSchedule a s = Ok (r, a', s') →
  match r with
  | Some c => ∃ i, can_send s i c ∧ issues s (Some (i, c)) s' ∧
      ∀ i' c', can_send s i' c' → bp_arriveTime c ≤ bp_arriveTime c'
  | None => quiet s s' ∧ ∀ i c, ¬ can_send s i c
  end.
Proof. intros Hb Hne. by apply schedule_oldest. Qed.
End PUSH.
End PUSH.

(** ** FRFCFS (src/system/FRFCFS/CommandScheduler_FRFCFS.h) *)
Module FRFCFS.
Section FRFCFS.
Context {Dev : Type} `{MemoryDevice Dev}.
Implicit Types s : CommandScheduler Dev.

Definition younger (c t : BusPacket) : bool := bp_arriveTime c <? bp_arriveTime t.

(** The type is tested first, then [isReady] and [isIssuable]. *)
Definition test (ts : list BusPacketType) (index : nat) s (c : BusPacket) : res bool :=
  if is_type ts c then ready_issuable c index s else Ok false.

(** The choice among the requestors of queue [index]: a column access, or else an
    activate or precharge. *)
Definition choose (q : CommandQueue) (index : nat) (s : CommandScheduler Dev) : res (option BusPacket) :=
  t ← scan_first (test [RD; WR] index s) q;
  t ← (match t with
       | Some _ => scan_older (test [RD; WR] index s) younger q t
       | None => Ok None
       end);
  match t with
  | Some _ => Ok t
  | None =>
      t ← scan_last (test [ACT; PRE] index s) q t;
      scan_older (test [ACT; PRE] index s) younger q t
  end.

(** Over queues by banks: whether command [c] replaces the candidate [t]. *)
Definition prefer (c t : BusPacket) : bool :=
  if is_type [RD; WR] c then younger c t
  else if is_type [ACT] c then
    if is_type [ACT] t then younger c t else is_type [PRE] t
  else if is_type [PRE] c then is_type [PRE] t && younger c t
  else false.

Abbreviation state := (CommandScheduler Dev * option (BusPacket * nat))%type.

(** One turn of the loop over the queues; the state has [checkCommand_temp_2] and
    [index_temp]. *)
Definition visit (index : nat) (st : state) : res (flow state BusPacket) :=
  let '(s, t) := st in
  q ← queue_at index s;
  if cq_isPerRequestor q then
    if (0 <? getRequestorIndex q)%nat then
      c ← choose q index s;
      match c with
      | Some c => s ← send c index s; Ok (Stop (s, t) c)
      | None => Ok (Next (s, t))
      end
    else Ok (Next (s, t))
  else
    st ← (if (0 <? cq_getSize true q)%nat then
            cs ← peek true index s;
            let '(c, s) := cs in
            b ← ready_issuable c index s;
            Ok (s, if b : bool then
                     match t with
                     | Some (c', _) => if prefer c c' then Some (c, index) else t
                     | None => Some (c, index)
                     end
                   else t)
          else Ok (s, t));
    if bool_decide (S index = length (commandQueues s)) then
      match st with
      | (s, Some (c, i)) => s ← send c i s; Ok (Stop (s, None) c)
      | (s, None) => Ok (Next (s, None))
      end
    else Ok (Next st).

Definition commandSchedule (a : unit) (s : CommandScheduler Dev)
    : res (option BusPacket * unit * CommandScheduler Dev) :=
  let s := set_scheduledCommand None s in
  o ← forM (seq 0 (length (commandQueues s))) (s, None) visit;
  match o with
  | Stop st c => Ok (Some c, a, st.1)
  | Next st => Ok (scheduledCommand st.1, a, st.1)
  end.

Lemma test_true ts i s c : test ts i s c = Ok true → ready_issuable c i s = Ok true.
Proof. unfold test. by destruct (is_type ts c). Qed.

Lemma FRFCFS_choose_spec q i s c : choose q i s = Ok (Some c) → c ∈ heads q ∧ ready_issuable c i s = Ok true.
Proof.
  assert (∀ ts t0 t, scan_older (test ts i s) younger q (Some t0) = Ok t → passes (test ts i s) q (Some t0) →
    passes (test ts i s) q t) as Hold.
  { intros ts t0 t Ht Hp. destruct (scan_older_spec (test ts i s) younger) with q t0 t as (? & _ & ? & _);
      [unfold younger; lia..|done|done|done]. }
  unfold choose. intros Hc. apply bind_Ok in Hc as (t1 & H1 & Hc). apply scan_first_spec in H1 as [Hp1 _].
  apply bind_Ok in Hc as (t2 & H2 & Hc). destruct t2 as [c2|].
  - injection Hc as ->. destruct t1 as [c1|]; [|done].
    destruct (Hold _ _ _ H2 Hp1 c eq_refl) as [? ?%test_true]. done.
  - apply bind_Ok in Hc as (t3 & H3 & Hc). apply scan_last_spec in H3 as [Hp3 Hn]; [|done].
    destruct t3 as [c3|].
    + destruct (Hold _ _ _ Hc Hp3 c eq_refl) as [? ?%test_true]. done.
    + rewrite scan_older_none in Hc by auto. done.
Qed.

Lemma FRFCFS_visit_issues s0 index st o :
  Forall cq_wf (commandQueues s0) → candidate s0 st.1 st.2 → scheduledCommand st.1 = None →
  visit index st = Ok o →
  match o with
  | Next st' => candidate s0 st'.1 st'.2 ∧ scheduledCommand st'.1 = None
  | Stop st' c => ∃ i, issues s0 (Some (i, c)) st'.1
  end.
Proof.
  destruct st as [s t]. cbn [fst snd]. intros Hwf Hc Hn Hv. unfold visit in Hv.
  apply bind_Ok in Hv as (q & Hi%vec_at_Ok & Hv). destruct (cq_isPerRequestor q) eqn:Hk.
  - destruct (0 <? getRequestorIndex q)%nat; [|by injection Hv as <-].
    apply bind_Ok in Hv as ([c|] & Hch & Hv); [|by injection Hv as <-].
    apply bind_Ok in Hv as (s' & Hs & Hv). injection Hv as <-. exists index.
    apply FRFCFS_choose_spec in Hch as [Hin Hr]. eapply requestor_send; [apply Hc|done..].
  - apply bind_Ok in Hv as ([s1 t1] & Hst & Hv).
    assert (candidate s0 s1 t1 ∧ scheduledCommand s1 = None) as [Hc1 Hn1].
    { destruct (0 <? cq_getSize true q)%nat; [|by injection Hst as <- <-].
      apply bind_Ok in Hst as ([c s2] & Hp & Hst). apply bind_Ok in Hst as (b & Hr & Hst).
      injection Hst as <- <-. split; [|by apply peek_Ok in Hp as (? & _ & -> & _)].
      pose proof (candidate_peek _ _ _ _ _ _ Hc Hp) as Hc2. destruct b; [|done].
      pose proof (candidate_new _ _ _ _ _ _ _ Hc Hi Hk Hp Hr) as Hnew.
      destruct t as [[c' i']|]; [|done]. by destruct (prefer c c'). }
    case_bool_decide; [|by injection Hv as <-].
    destruct t1 as [[c i]|]; [|by injection Hv as <-].
    apply bind_Ok in Hv as (s' & Hs & Hv). injection Hv as <-. exists i. by eapply candidate_send.
Qed.

Lemma FRFCFS_schedule a s r a' s' :
  Forall cq_wf (commandQueues s) → True → commandSchedule a s = Ok (r, a', s') →
  True ∧ ∃ ic, snd <$> ic = r ∧ issues s ic s'.
Proof.
  intros Hwf _ Hs. split; [done|]. unfold commandSchedule in Hs. apply bind_Ok in Hs as (o & Ho & Hs).
  eapply (forM_inv (λ st, candidate s st.1 st.2 ∧ scheduledCommand st.1 = None)
    (λ st c, ∃ i, issues s (Some (i, c)) st.1)) in Ho.
  - destruct o as [[s1 t1]|[s1 t1] c]; cbn [fst snd] in *; injection Hs as <- _ <-.
    + destruct Ho as [[Hq _] ->]. exists None. split; [done|by constructor].
    + destruct Ho as [i Hi]. by exists (Some (i, c)).
  - split; [|done]. apply candidate_scheduled, candidate_none.
  - intros i st o' _ [Hc Hn] Hv. by eapply FRFCFS_visit_issues.
Qed.

#[export] Instance scheduling : CommandScheduling Dev unit := {| CmdAlg.commandSchedule := commandSchedule |}.
#[export] Program Instance algorithm : CommandAlgorithm Dev unit := {|
  alg_accepts := λ _ _, True; alg_inv := λ _ _, True;
  schedule_issues := FRFCFS_schedule |}.
Next Obligation. done. Qed.

(** One turn over a queue by banks that is not the last one. *)
Lemma visit_bank s0 s i q c l t :
  quiet s0 s → commandQueues s !! i = Some q → cq_isPerRequestor q = false → hrtBuffer q = c :: l →
  ready_issuable c i s0 = Ok true →
  ∃ s1, quiet s0 s1 ∧ visit i (s, t) =
    let t := match t with
             | Some (c', _) => if prefer c c' then Some (c, i) else t
             | None => Some (c, i)
             end in
    if bool_decide (S i = length (commandQueues s)) then
      match t with
      | Some (c, i) => s ← send c i s1; Ok (Stop (s, None) c)
      | None => Ok (Next (s1, None))
      end
    else Ok (Next (s1, t)).
Proof.
  intros Hq Hi Hk Hl Hr. set (s1 := set_queue i (set_scheduledQueue true q) s).
  assert (peek true i s = Ok (c, s1)) as Hp.
  { unfold peek, queue_at, vec_at. rewrite Hi. simpl. unfold getCommand. simpl. by rewrite Hl. }
  assert (quiet s0 s1) as Hq1 by (etransitivity; [exact Hq|by eapply peek_quiet]).
  exists s1. split; [done|]. unfold visit, queue_at, vec_at. rewrite Hi. simpl of_option. cbn [mbind res_bind].
  rewrite Hk. unfold cq_getSize. rewrite Hl. simpl length. cbn [Nat.ltb Nat.leb]. rewrite Hp. cbn [mbind res_bind].
  rewrite (quiet_ready_issuable _ _ _ _ Hq1), Hr. cbn [mbind res_bind]. done.
Qed.

(** The comment of the file says that column accesses go before activates and
    precharges. Over queues by banks a column access only replaces a candidate
    that arrived later: of an activate and a later read that can both be sent, the
    activate goes first. *)
Theorem FRFCFS_sends_older_ACT s q0 q1 c0 c1 l0 l1 r a' s' :
  commandQueues s = [q0; q1] → cq_isPerRequestor q0 = false → cq_isPerRequestor q1 = false →
  hrtBuffer q0 = c0 :: l0 → hrtBuffer q1 = c1 :: l1 →
  busPacketType c0 = ACT → busPacketType c1 = RD → bp_arriveTime c0 ≤ bp_arriveTime c1 →
  ready_issuable c0 0 s = Ok true → ready_issuable c1 1 s = Ok true →
  commandSchedule tt s = Ok (r, a', s') → r = Some c0.
Proof.
  intros Hqs K0 K1 L0 L1 T0 T1 Hle R0 R1 Hs. unfold commandSchedule in Hs.
  pose proof (quiet_scheduled None s) as Hq.
  assert (length (commandQueues (set_scheduledCommand None s)) = 2%nat) as Hlen by (simpl; by rewrite Hqs).
  cbn zeta in Hs. rewrite Hlen in Hs. cbn [seq forM] in Hs.
  destruct (visit_bank s (set_scheduledCommand None s) 0 q0 c0 l0 None Hq) as (s1 & Hq1 & E1);
    [simpl; by rewrite Hqs|done..|].
  rewrite E1, Hlen in Hs. simpl bool_decide in Hs. cbn [mbind res_bind] in Hs.
  destruct (quiet_lookup_l s s1 1 q1 Hq1) as (q1' & Hq1' & [b Hb]); [by rewrite Hqs|].
  destruct (visit_bank s s1 1 q1' c1 l1 (Some (c0, 0%nat)) Hq1 Hq1') as (s2 & Hq2 & E2);
    [by rewrite Hb|by rewrite Hb|done|].
  assert (length (commandQueues s1) = 2%nat) as Hlen1 by (by rewrite (quiet_length _ _ Hq1), Hqs).
  rewrite E2, Hlen1 in Hs. simpl bool_decide in Hs.
  assert (prefer c1 c0 = false) as Hpr.
  { unfold prefer, is_type, younger. rewrite T1. simpl. by apply Z.ltb_ge. }
  rewrite Hpr in Hs. apply bind_Ok in Hs as (o & Ho & Hs).
  apply bind_Ok in Ho as (o1 & Ho1 & Ho). apply bind_Ok in Ho1 as (s3 & _ & Ho1). injection Ho1 as <-.
  injection Ho as <-. by injection Hs as <- _ _.
Qed.
End FRFCFS.
End FRFCFS.

(** ** RTMem (src/system/RTMem/CommandScheduler_RTMem.h) *)
Module RTMem.
Section RTMem.
Context {Dev : Type} `{MemoryDevice Dev}.
Implicit Types s : CommandScheduler Dev.

Definition index_of (c : BusPacket) : nat := Z.to_nat (u32 (bp_bank c)).

(** A candidate is replaced by an earlier command. *)
Definition earlier (c : BusPacket) (t : option BusPacket) : option BusPacket :=
  match t with
  | Some c' => if bp_arriveTime c <? bp_arriveTime c' then Some c else t
  | None => Some c
  end.

(** The state: the scheduler, [tempCAS] and [tempACT]. *)
Abbreviation state := (CommandScheduler Dev * option BusPacket * option BusPacket)%type.

(** The timers tested are those of the queue with the number of the bank. *)
Definition visit (index : nat) (st : state) : res state :=
  let '(s, cas, act) := st in
  q ← queue_at index s;
  cs ← (if (0 <? cq_getSize true q)%nat then cs ← peek true index s; Ok (Some cs.1, cs.2)
        else if (0 <? cq_getSize false q)%nat then cs ← peek false index s; Ok (Some cs.1, cs.2)
        else Ok (None, s));
  match cs with
  | (Some c, s) =>
      b ← isReady c (index_of c) s;
      Ok (if b : bool then
            if bpt_lt (busPacketType c) ACT then (s, earlier c cas, act) else (s, cas, earlier c act)
          else (s, cas, act))
  | (None, s) => Ok (s, cas, act)
  end.

(** [if (temp != NULL && isIssuable(temp)) scheduledCommand = temp]. *)
Definition if_issuable (t : option BusPacket) (s : CommandScheduler Dev) : res (option BusPacket) :=
  match t with
  | Some c => b ← isIssuable c s; Ok (if b : bool then Some c else None)
  | None => Ok None
  end.

Definition commandSchedule (a : unit) (s : CommandScheduler Dev)
    : res (option BusPacket * unit * CommandScheduler Dev) :=
  let s := set_scheduledCommand None s in
  st ← foldM (seq 0 (length (commandQueues s))) (s, None, None) visit;
  let '(s, cas, act) := st in
  c ← if_issuable cas s;
  c ← (match c with Some _ => Ok c | None => if_issuable act s end);
  match c with
  | Some c => s ← send c (index_of c) s; Ok (Some c, a, s)
  | None => Ok (None, a, s)
  end.

(** Queue [i] holds commands of bank [i], which is what the configuration
    [CommandQueue=0010] of the shipped systems gives. *)
Definition accepts (i : nat) (c : BusPacket) : Prop := index_of c = i.

Definition inv (_ : unit) (s : CommandScheduler Dev) : Prop :=
  by_banks s ∧ ∀ i q c, commandQueues s !! i = Some q → c ∈ hrtBuffer q ++ srtBuffer q → index_of c = i.

(** A candidate of the queues below [k]. *)
Definition fits (k : nat) s (t : option BusPacket) : Prop :=
  ∀ c, t = Some c → (index_of c < k)%nat ∧ at_front (index_of c) c s ∧ isReady c (index_of c) s = Ok true.

Lemma fits_peek k s t critical c s' :
  fits k s t → peek critical k s = Ok (c, s') → fits (S k) s' t.
Proof.
  intros Ht Hp c' Hc'. destruct (Ht c' Hc') as (H1 & H2 & H3).
  split; [lia|]. split; [eapply peek_front_ne; [|exact Hp|exact H2]; lia|].
  by rewrite (quiet_ready _ _ _ _ (peek_quiet _ _ _ _ _ Hp)).
Qed.

Lemma fits_S k s t : fits k s t → fits (S k) s t.
Proof. intros Ht c Hc. destruct (Ht c Hc) as (? & ? & ?). split; [lia|done]. Qed.

Lemma visit_fits s0 k s cas act st' :
  inv tt s0 → quiet s0 s → fits k s cas → fits k s act → visit k (s, cas, act) = Ok st' →
  quiet s0 st'.1.1 ∧ fits (S k) st'.1.1 st'.1.2 ∧ fits (S k) st'.1.1 st'.2.
Proof.
  intros [Hb Hbank] Hq Hcas Hact Hv. unfold visit in Hv. apply bind_Ok in Hv as (q & Hk%vec_at_Ok & Hv).
  apply bind_Ok in Hv as ([o s1] & Hpk & Hv).
  destruct (quiet_lookup _ _ _ _ Hq Hk) as (q0 & Hk0 & Hsq).
  assert (cq_isPerRequestor q = false) as Hper
    by (rewrite (same_queue_kind _ _ Hsq); by eapply by_banks_kind).
  assert (∀ critical c s1, peek critical k s = Ok (c, s1) → at_front k c s1 ∧ index_of c = k) as Hpeek.
  { intros critical c s2 Hp. split; [by apply (peek_front _ _ _ _ _ _ Hk Hper Hp)|].
    apply peek_Ok in Hp as (q' & Hq' & _ & l & Hl). assert (q' = q) as -> by congruence.
    apply (Hbank k q0 c Hk0). destruct Hsq as [b ->]. simpl in Hl.
    destruct critical; rewrite Hl; apply elem_of_app; [left|right]; left. }
  assert (match o with
    | Some c => ∃ critical, peek critical k s = Ok (c, s1)
    | None => s1 = s end) as Ho.
  { destruct (0 <? cq_getSize true q)%nat; [|destruct (0 <? cq_getSize false q)%nat; [|by injection Hpk as <- <-]];
      apply bind_Ok in Hpk as ([c s2] & Hp & Hpk); injection Hpk as <- <-; eauto. }
  destruct o as [c|].
  - destruct Ho as [critical Hp]. destruct (Hpeek _ _ _ Hp) as [Hf Hic].
    apply bind_Ok in Hv as (b & Hr & Hv). rewrite Hic in Hr.
    assert (quiet s0 s1) as Hq1 by (etransitivity; [exact Hq|by eapply peek_quiet]).
    pose proof (fits_peek _ _ _ _ _ _ Hcas Hp) as Hcas1. pose proof (fits_peek _ _ _ _ _ _ Hact Hp) as Hact1.
    assert (∀ t, b = true → fits (S k) s1 t → fits (S k) s1 (earlier c t)) as Hearlier.
    { intros t Hbt Ht. assert (fits (S k) s1 (Some c)) as Hc.
      { intros c' [= <-]. rewrite Hic. split; [lia|]. by rewrite Hr, Hbt. }
      unfold earlier. destruct t as [c'|]; [|done]. by destruct (_ <? _). }
    destruct b; [destruct (bpt_lt _ _)|]; injection Hv as <-; cbn [fst snd]; split_and!; auto.
  - subst s1. injection Hv as <-. cbn [fst snd]. split_and!; [done|by apply fits_S..].
Qed.

Lemma if_issuable_Ok t s c : if_issuable t s = Ok (Some c) → t = Some c ∧ isIssuable c s = Ok true.
Proof.
  unfold if_issuable. destruct t as [c'|]; [|done]. intros Hb.
  apply bind_Ok in Hb as ([] & Hi & Hb); [|done]. by injection Hb as <-.
Qed.

Lemma send_inv s s1 c i s' :
  inv tt s → quiet s s1 → at_front i c s1 → send c i s1 = Ok s' → inv tt s'.
Proof.
  intros [Hb Hbank] Hq (q & Hi & Hp) Hs.
  assert (kinds (commandQueues s') = kinds (commandQueues s)) as Hk.
  { rewrite <- (quiet_kinds _ _ Hq). unfold send in Hs.
    eapply (send_timer c i false (set_scheduledCommand (Some c) s1) s' 0 0 0); [done|simpl; lia]. }
  split; [unfold by_banks; by rewrite Hk|].
  destruct (quiet_lookup _ _ _ _ Hq Hi) as (q0 & Hi0 & Hsq).
  assert (cq_isPerRequestor q = false) as Hper
    by (rewrite (same_queue_kind _ _ Hsq); by eapply by_banks_kind).
  unfold send, sendCommand, queue_at, vec_at in Hs. simpl in Hs. rewrite Hi in Hs. simpl in Hs.
  rewrite Hper in Hs. apply bind_Ok in Hs as (s2 & H2 & Hs). apply bind_Ok in H2 as (q' & Hq' & H2).
  injection H2 as <-. simpl in Hs. apply bind_Ok in Hs as (d & _ & Hs). injection Hs as <-. simpl.
  intros j qj c' Hj Hc'. destruct (decide (j = i)) as [->|Hne].
  - rewrite list_lookup_insert_eq in Hj by (by eapply lookup_lt_Some). injection Hj as <-.
    apply (Hbank i q0 c' Hi0). destruct Hsq as [b ->]. unfold removeCommand in Hq'. simpl in *.
    destruct b; apply bind_Ok in Hq' as (l & Hl%vec_erase_Ok & Hq'); injection Hq' as <-; destruct Hl as [_ ->];
      simpl in Hc'; apply elem_of_app; apply elem_of_app in Hc' as [?|?]; auto.
    + left. by eapply elem_of_subseteq; [apply list_subseteq_delete|].
    + right. by eapply elem_of_subseteq; [apply list_subseteq_delete|].
  - rewrite list_lookup_insert_ne in Hj by done. destruct (quiet_lookup _ _ _ _ Hq Hj) as (qj0 & Hj0 & [b ->]).
    by apply (Hbank j qj0 c').
Qed.

Lemma quiet_inv s s' : inv tt s → quiet s s' → inv tt s'.
Proof.
  intros [Hb Hbank] Hq. split; [unfold by_banks; by rewrite (quiet_kinds _ _ Hq)|].
  intros i q c Hi Hc. destruct (quiet_lookup _ _ _ _ Hq Hi) as (q0 & Hi0 & [b ->]). by apply (Hbank i q0 c).
Qed.

Lemma RTMem_schedule a s r a' s' :
  Forall cq_wf (commandQueues s) → inv a s → commandSchedule a s = Ok (r, a', s') →
  inv a' s' ∧ ∃ ic, snd <$> ic = r ∧ issues s ic s'.
Proof.
  destruct a, a'. intros _ Hinv Hs. unfold commandSchedule in Hs.
  apply bind_Ok in Hs as ([[s1 cas] act] & Hl & Hs).
  assert (quiet s s1 ∧ ∃ k, fits k s1 cas ∧ fits k s1 act) as (Hq & k & Hcas & Hact).
  { assert (∀ n k s2 cas2 act2, quiet s s2 → fits k s2 cas2 → fits k s2 act2 →
      foldM (seq k n) (s2, cas2, act2) visit = Ok (s1, cas, act) →
      quiet s s1 ∧ ∃ k, fits k s1 cas ∧ fits k s1 act) as Hn.
    { induction n as [|n IH]; intros k s2 cas2 act2 Hq Hc Ha Hf; simpl in Hf.
      - injection Hf as <- <- <-. eauto.
      - apply bind_Ok in Hf as ([[s3 cas3] act3] & Hv & Hf).
        destruct (visit_fits s k s2 cas2 act2 _ Hinv Hq Hc Ha Hv) as (Hq3 & Hc3 & Ha3).
        exact (IH _ _ _ _ Hq3 Hc3 Ha3 Hf). }
    by eapply (Hn _ 0%nat); [apply quiet_scheduled| | |exact Hl]. }
  apply bind_Ok in Hs as (c1 & H1 & Hs). apply bind_Ok in Hs as (c2 & H2 & Hs).
  assert (∀ c, c2 = Some c → at_front (index_of c) c s1 ∧ ready_issuable c (index_of c) s1 = Ok true) as Hc.
  { intros c ->. rewrite ready_issuable_true.
    assert ((cas = Some c ∨ act = Some c) ∧ isIssuable c s1 = Ok true) as [[E|E] Hi].
    { destruct c1 as [c1|]; [injection H2 as ->; apply if_issuable_Ok in H1 as []|apply if_issuable_Ok in H2 as []]; auto. }
    - by destruct (Hcas c E) as (_ & ? & ?).
    - by destruct (Hact c E) as (_ & ? & ?). }
  destruct c2 as [c|].
  - apply bind_Ok in Hs as (s2 & Hs2 & Hs). injection Hs as <- <-. destruct (Hc c eq_refl) as [Hf Hr].
    split; [by eapply send_inv|]. exists (Some (index_of c, c)). split; [done|]. by eapply send_issues.
  - injection Hs as <- <-. split; [by eapply quiet_inv|]. exists None. split; [done|by constructor].
Qed.

#[export] Instance scheduling : CommandScheduling Dev unit := {| CmdAlg.commandSchedule := commandSchedule |}.
#[export] Program Instance algorithm : CommandAlgorithm Dev unit := {|
  alg_accepts := accepts; alg_inv := inv;
  schedule_issues := RTMem_schedule |}.
Next Obligation.
  intros [] s s' [Hb Hbank] Hg. split; [unfold by_banks; by rewrite (grows_kinds _ _ _ Hg)|].
  intros i q' c Hi Hc. destruct (lookup_lt_is_Some_2 (commandQueues s) i) as [q Hq].
  { rewrite <- (gr_length _ _ _ Hg). by eapply lookup_lt_Some. }
  destruct (gr_queue _ _ _ Hg i q Hq) as (q2 & Hq2 & _ & _ & (l1 & E1 & F1) & (l2 & E2 & F2) & _).
  assert (q2 = q') as -> by congruence. rewrite E1, E2 in Hc. rewrite !elem_of_app in Hc.
  rewrite Forall_forall in F1, F2. pose proof (Hbank i q c Hq) as Hold. rewrite elem_of_app in Hold.
  destruct Hc as [[?|?]|[?|?]]; [by apply Hold; left|by apply F1|by apply Hold; right|by apply F2].
Qed.
End RTMem.
End RTMem.

(** ** Witnesses *)
#[local] Existing Instance FRFCFS.scheduling.
#[local] Existing Instance FRFCFS.algorithm.

(** A queue with an activate and a read of bank 5, in front of a DDR3-1600K. *)
Definition wit_alg0 : CommandScheduler Device :=
  CommandScheduler_ctor true 0 [wit_cq false] (<[2 := true]> ∅) wit_dev0.
Definition wit_read : BusPacket := wit_cmd RD 2 5.

Abbreviation schedule_dev := (@FRFCFS.commandSchedule Device Ramulator_device tt).

Definition issued (c : BusPacket) (s : CommandScheduler Device) : bool :=
  match schedule_dev s with Ok (Some c', _, _) => bool_decide (c' = c) | _ => false end.
Definition issue_next (s : CommandScheduler Device) : CommandScheduler Device :=
  match schedule_dev s with Ok (_, _, s') => s' | Err _ => s end.

Definition can_cycle (s : CommandScheduler Device) : bool :=
  match tick s with Ok s' => is_Ok (device_update (memoryDevice s')) | Err _ => false end.
Definition next_cycle (s : CommandScheduler Device) : CommandScheduler Device :=
  match tick s with
  | Ok s' => match device_update (memoryDevice s') with Ok (_, d) => set_memoryDevice d s' | Err _ => s end
  | Err _ => s
  end.

Abbreviation wit_run := (cycle_run (A := unit) tt wit_alg0).

Lemma wit_initial : initial tt wit_alg0.
Proof.
  split.
  - reflexivity.
  - intros ts ->%list_elem_of_singleton. reflexivity.
  - split; [reflexivity|]. split; [vm_compute; discriminate|]. split_and!; reflexivity.
  - constructor; [apply wit_cq_wf|constructor].
  - exact I.
Qed.

Lemma wit_issue h n s c :
  wit_run h n tt s → length (commandQueues s) = 1%nat → issued c s = true →
  wit_run ((0%nat, c, n) :: h) n tt (issue_next s) ∧ length (commandQueues (issue_next s)) = 1%nat.
Proof.
  intros Hrun Hlen Hi. unfold issued, issue_next in *.
  destruct (schedule_dev s) as [[[[c'|] []] s']|] eqn:Hs; try discriminate.
  apply bool_decide_eq_true in Hi as ->.
  pose proof (cycle_run_inv _ _ _ _ _ _ wit_initial Hrun) as [_ _ Hwf Ha].
  destruct (schedule_issues _ _ _ _ _ Hwf Ha Hs) as (_ & [[i c']|] & Hic & Hiss); [|done].
  simpl in Hic. injection Hic as ->.
  assert (i = 0%nat) as ->.
  { inversion Hiss as [|s1 ? ? ? Hq (q & Hq1 & _)]; subst. apply lookup_lt_Some in Hq1.
    rewrite (quiet_length _ _ Hq), Hlen in Hq1. lia. }
  split; [by eapply cr_issue|]. rewrite <- kinds_length, (issues_kinds _ _ _ Hiss), kinds_length. exact Hlen.
Qed.

Lemma wit_cycles h n k s :
  wit_run h n tt s → length (commandQueues s) = 1%nat →
  forallb (λ j, can_cycle (Nat.iter j next_cycle s)) (seq 0 k) = true →
  wit_run h (n + Z.of_nat k) tt (Nat.iter k next_cycle s) ∧
  length (commandQueues (Nat.iter k next_cycle s)) = 1%nat.
Proof.
  intros Hrun Hlen. induction k as [|k IH]; intros Hk; [by rewrite Z.add_0_r|].
  rewrite seq_S, forallb_app in Hk. apply andb_true_iff in Hk as [Hk Hlast].
  destruct (IH Hk) as [Hrun' Hlen']. cbn [Nat.iter forallb] in Hlast |- *. rewrite andb_true_r in Hlast.
  replace (n + Z.of_nat (S k)) with (n + Z.of_nat k + 1) by lia.
  set (s1 := Nat.iter k next_cycle s) in *. simpl in Hlast. fold s1 in Hlast.
  unfold can_cycle in Hlast. simpl. fold s1. unfold next_cycle.
  destruct (tick s1) as [s2|] eqn:Ht; [|done].
  destruct (device_update (memoryDevice s2)) as [[o d]|] eqn:Hd; [|done].
  split; [eapply cr_tick; [exact Hrun'|exact Ht|by exists o]|]. simpl.
  pose proof (cycle_run_inv _ _ _ _ _ _ wit_initial Hrun') as [_ Href _ _].
  by rewrite (proj1 (tick_no_refresh _ _ Href Ht)).
Qed.

Definition wit_alg1 : CommandScheduler Device := issue_next wit_alg0.
Definition wit_alg2 : CommandScheduler Device := Nat.iter 11 next_cycle wit_alg1.
Definition wit_alg3 : CommandScheduler Device := issue_next wit_alg2.
Definition wit_history : list sent := [(0%nat, wit_read, 11); (0%nat, wit_act, 0)].

Lemma wit_alg_run : wit_run wit_history 11 tt wit_alg3.
Proof.
  destruct (wit_issue [] 0 wit_alg0 wit_act) as [H1 L1]; [constructor|reflexivity|vm_compute; reflexivity|].
  destruct (wit_cycles _ _ 11 _ H1 L1) as [H2 L2]; [vm_compute; reflexivity|].
  destruct (wit_issue _ _ _ wit_read H2 L2) as [H3 _]; [vm_compute; reflexivity|]. exact H3.
Qed.

Lemma algorithm_keeps_timing_witness : 0 + 11 ≤ 11.
Proof.
  apply (algorithm_keeps_timing tt wit_alg0 wit_history 11 tt wit_alg3
    [] 0 wit_read 11 [(0%nat, wit_act, 0)] 0 wit_act 0 wit_initial wit_alg_run).
  - reflexivity.
  - left.
  - vm_compute. lia.
  - vm_compute. reflexivity.
Defined.

Lemma wit_not_posted k c t : (k, c, t) ∈ wit_history → postCommand c = false.
Proof.
  unfold wit_history. intros [?|[?|?%not_elem_of_nil]%elem_of_cons]%elem_of_cons; simplify_eq; done.
Qed.

Lemma sent_packets_checked_witness :
  @run DDR3.standard (DDR3.spec DDR3.wit_ddr3) DDR3.wit_root (events 0 wit_history)
    (channel (memoryDevice wit_alg3)).
Proof.
  apply (sent_packets_checked tt wit_alg0 wit_history 11 tt wit_alg3 wit_initial wit_alg_run).
  - reflexivity.
  - vm_compute. discriminate.
  - vm_compute. reflexivity.
  - apply wit_not_posted.
Defined.

Lemma sent_packets_keep_timing_witness : 0 + 11 ≤ 11.
Proof.
  refine (sent_packets_keep_timing tt wit_alg0 11 tt wit_alg3 [] 0 wit_read 11 [] 0 wit_act 0 [] DDR3.ACT DDR3.RD
    [0%nat; 5%nat] (DDR3.wit_at [0%nat; 5%nat]) (@mkEntry DDR3.standard DDR3.RD 1 11 false)
    wit_initial wit_alg_run DDR3.wit_fresh _ _ _ _ wit_not_posted _ _ _ _ _ _ _).
  - vm_compute. reflexivity.
  - reflexivity.
  - vm_compute. discriminate.
  - vm_compute. reflexivity.
  - reflexivity.
  - reflexivity.
  - apply DDR3.wit_checked; [vm_compute; reflexivity|vm_compute; reflexivity|vm_compute; lia].
  - exact (DDR3.nRCD_entry (DDR3.speed_entry DDR3.wit_ddr3) DDR3.ACT DDR3.RD eq_refl eq_refl).
  - reflexivity.
  - reflexivity.
  - vm_compute. reflexivity.
Defined.

Lemma FCFS_returns_stale_witness :
  FCFS.commandSchedule tt (CommandScheduler_ctor true 0 [CommandQueue_ctor true] ∅ wit_dev0)
  = Ok (None, tt, CommandScheduler_ctor true 0 [CommandQueue_ctor true] ∅ wit_dev0).
Proof.
  apply (FCFS.FCFS_returns_stale (CommandScheduler_ctor true 0 [CommandQueue_ctor true] ∅ wit_dev0)).
  - constructor; [reflexivity|constructor].
  - intros [|i] q c Hq Hc; [|destruct i; discriminate Hq]. injection Hq as <-.
    unfold heads in Hc. simpl in Hc. by apply not_elem_of_nil in Hc.
Defined.

Lemma PUSH_sends_oldest_witness :
  ∃ r s', PUSH.commandSchedule tt wit_alg0 = Ok (r, tt, s') ∧
  match r with
  | Some c => ∃ i, PUSH.can_send wit_alg0 i c ∧ issues wit_alg0 (Some (i, c)) s' ∧
      ∀ i' c', PUSH.can_send wit_alg0 i' c' → bp_arriveTime c ≤ bp_arriveTime c'
  | None => quiet wit_alg0 s' ∧ ∀ i c, ¬ PUSH.can_send wit_alg0 i c
  end.
Proof.
  destruct (PUSH.commandSchedule tt wit_alg0) as [[[r []] s']|] eqn:Hs.
  - exists r, s'. split; [reflexivity|]. apply (PUSH.PUSH_sends_oldest tt wit_alg0 r tt s').
    + constructor; [reflexivity|constructor].
    + discriminate.
    + exact Hs.
  - exfalso. assert (is_Ok (PUSH.commandSchedule tt wit_alg0) = true) as H by (vm_compute; reflexivity).
    rewrite Hs in H. discriminate H.
Defined.

(** An activate of bank 5 and a later read of bank 3, both free to go. *)
Definition wit_bank_queue (c : BusPacket) : CommandQueue :=
  (insertCommand c true (CommandQueue_ctor false)).2.
Definition wit_early_act : BusPacket := new_BusPacket ACT 2 64 0 0 5 0 0 0 4.
Definition wit_late_read : BusPacket := new_BusPacket RD 2 64 0 0 3 0 0 0 9.
Definition wit_two : CommandScheduler Device :=
  CommandScheduler_ctor true 0 [wit_bank_queue wit_early_act; wit_bank_queue wit_late_read] ∅ wit_dev0.

Lemma FRFCFS_sends_older_ACT_witness :
  ∃ r s', FRFCFS.commandSchedule tt wit_two = Ok (r, tt, s') ∧ r = Some wit_early_act.
Proof.
  destruct (FRFCFS.commandSchedule tt wit_two) as [[[r []] s']|] eqn:Hs.
  - exists r, s'. split; [reflexivity|].
    apply (FRFCFS.FRFCFS_sends_older_ACT wit_two (wit_bank_queue wit_early_act) (wit_bank_queue wit_late_read)
      wit_early_act wit_late_read [] [] r tt s'); try reflexivity.
    + vm_compute. discriminate.
    + exact Hs.
  - exfalso. assert (is_Ok (FRFCFS.commandSchedule tt wit_two) = true) as H by (vm_compute; reflexivity).
    rewrite Hs in H. discriminate H.
Defined.
