(* ===== verification/Pool.v ===== *)
(** * Pools of ready commands

    Several scheduling algorithms (src/system/*/CommandScheduler_*.h) take a
    command out of consideration when it became ready: they note it with the index
    of its queue in a FIFO or a buffer of their own and mark the queue, or the
    requestor, so that nothing of it is noted a second time before the command was
    sent. This file has the invariant they share: an entry stays at the front of
    its queue, and ready, until it is sent. The key of an entry is what is marked
    for it: its queue when the queues have a critical and a noncritical buffer, its
    requestor when they have one buffer per requestor. *)
From S2P Require Import Prelude Types KeyedBuf CmdQueue DRAM DDR3 Device Refresh CmdSched CmdAlg CmdAlgos.

(** A command and the index of its queue. *)
Abbreviation fifo := (list (BusPacket * nat)).

Definition owner (ci : BusPacket * nat) : Z := bp_requestorID ci.1.

Section waiting.
Context {Dev : Type} `{MemoryDevice Dev}.
Implicit Types s : CommandScheduler Dev.

(** An entry that waits. *)
Definition waits s (ci : BusPacket * nat) : Prop :=
  at_front ci.2 ci.1 s ∧ isReady ci.1 ci.2 s = Ok true.

Lemma waits_quiet_ne s s' j critical c' ci :
  ci.2 ≠ j → peek critical j s = Ok (c', s') → waits s ci → waits s' ci.
Proof.
  intros Hne Hp [H1 H2]. split; [by eapply peek_front_ne|].
  by rewrite (quiet_ready _ _ _ _ (peek_quiet _ _ _ _ _ Hp)).
Qed.

Lemma waits_scheduled s c ci : waits s ci → waits (set_scheduledCommand c s) ci.
Proof. intros [H1 H2]. split; [exact H1|]. by rewrite (quiet_ready _ _ _ _ (quiet_scheduled c s)). Qed.

Lemma waits_grows P s s' ci : grows P s s' → waits s ci → waits s' ci.
Proof. intros Hg [H1 H2]. split; [by eapply grows_front|by apply (gr_ready _ _ _ Hg)]. Qed.

(** What [sendCommand] does to the queues. *)
Lemma send_queues cmd i s s' :
  sendCommand cmd i false s = Ok s' →
  ∃ q q', commandQueues s !! i = Some q ∧ commandQueues s' = <[i := q']> (commandQueues s) ∧
    (if cq_isPerRequestor q then removeCommand_req (bp_requestorID cmd) q = Ok q' else removeCommand q = Ok q') ∧
    ∀ j, is_Some (reqCmdQueueTimer s !! j) → is_Some (reqCmdQueueTimer s' !! j).
Proof.
  intros Hs. unfold sendCommand in Hs. apply bind_Ok in Hs as (q & Hq%vec_at_Ok & Hs).
  apply bind_Ok in Hs as (s1 & H1 & Hs). apply bind_Ok in Hs as (c & _ & Hs).
  apply bind_Ok in Hs as (d & _ & Hs). injection Hs as <-. exists q. destruct (cq_isPerRequestor q) eqn:Hk.
  - apply bind_Ok in H1 as (ts & Hts%vec_at_Ok & H1). apply bind_Ok in H1 as (q' & Hq' & H1). injection H1 as <-.
    exists q'. split_and!; [done..|]. simpl. intros j Hj. destruct (decide (j = i)) as [->|Hne].
    + rewrite list_lookup_insert_eq; [eauto|by eapply lookup_lt_Some].
    + by rewrite list_lookup_insert_ne.
  - apply bind_Ok in H1 as (q' & Hq' & H1). injection H1 as <-. exists q'. by split_and!.
Qed.

(** Sending a command leaves the entries of other queues, and those of other
    requestors, as they are. *)
Lemma waits_send cmd i s s' ci :
  sendCommand cmd i false s = Ok s' →
  ci.2 ≠ i ∨ (by_requestors s ∧ bp_requestorID ci.1 ≠ bp_requestorID cmd) →
  waits s ci → waits s' ci.
Proof.
  intros Hs Hne [(q & Hq & Hp) Hr]. destruct ci as [c j]. simpl in *.
  destruct (send_queues _ _ _ _ Hs) as (q1 & q2 & Hq1 & E & Hrem & Hts). split.
  - unfold at_front. rewrite E. destruct (decide (j = i)) as [->|Hji].
    + destruct Hne as [|[Hb Hid]]; [done|]. assert (q1 = q) as -> by congruence. exists q2.
      rewrite list_lookup_insert_eq by (by eapply lookup_lt_Some). split; [done|].
      unfold popped in *. rewrite (by_requestors_kind _ _ _ Hb Hq) in *.
      rewrite (removeCommand_req_kind _ _ _ Hrem), (by_requestors_kind _ _ _ Hb Hq).
      apply bind_Ok in Hrem as (l & _ & Hrem). injection Hrem as <-. rewrite cmd_buffer_insert.
      by rewrite decide_False.
    + exists q. by rewrite list_lookup_insert_ne.
  - rewrite isReady_true in *. destruct Hr as (k & Hk & Hreq & Htm). exists k. simpl.
    destruct (send_timer_all _ _ _ _ _ j (bp_requestorID c) (bpt_int (busPacketType c)) Hs) as (-> & _ & ->).
    split_and!; [done|by auto|]. assert (concerns (kinds (commandQueues s)) i cmd j (bp_requestorID c) = false) as ->; [|done].
    unfold concerns. apply bool_decide_false. intros [-> Himp]. destruct Hne as [|[Hb Hid]]; [done|].
    apply Hid, Himp. rewrite Hk. f_equal. by apply (Forall_lookup_1 (λ k, k = true) _ i k Hb).
Qed.

(** *** Looking for the next command of a queue *)

(** [getCommand] of the critical buffer, or else of the noncritical one. *)
Definition next_command (index : nat) (s : CommandScheduler Dev) : res (option BusPacket * CommandScheduler Dev) :=
  q ← queue_at index s;
  if (0 <? cq_getSize true q)%nat then cs ← peek true index s; Ok (Some cs.1, cs.2)
  else if (0 <? cq_getSize false q)%nat then cs ← peek false index s; Ok (Some cs.1, cs.2)
  else Ok (None, s).

Lemma next_command_Ok i s o s' :
  next_command i s = Ok (o, s') →
  match o with Some c => ∃ critical, peek critical i s = Ok (c, s') | None => s' = s end.
Proof.
  unfold next_command. intros Hn. apply bind_Ok in Hn as (q & _ & Hn).
  destruct (0 <? cq_getSize true q)%nat; [|destruct (0 <? cq_getSize false q)%nat; [|by injection Hn as <- <-]];
    apply bind_Ok in Hn as ([c s1] & Hp & Hn); injection Hn as <- <-; eauto.
Qed.

End waiting.

Section pool.
Context {Dev : Type} `{MemoryDevice Dev} {K : Type} (key : BusPacket * nat → K) (kind : bool).
Implicit Types (s : CommandScheduler Dev) (marked : K → Prop) (pool : fifo).

Record pool_inv marked pool s : Prop := {
  pl_kinds : Forall (λ k, k = kind) (kinds (commandQueues s));
  pl_nodup : NoDup (key <$> pool);
  pl_entry ci : ci ∈ pool → marked (key ci) ∧ waits s ci;
}.

Lemma pool_perm marked pool pool' s : pool' ≡ₚ pool → pool_inv marked pool s → pool_inv marked pool' s.
Proof. intros E [Hk Hnd He]. split; [done|by rewrite E|]. intros ci. rewrite E. apply He. Qed.

Lemma pool_grows P marked pool s s' : grows P s s' → pool_inv marked pool s → pool_inv marked pool s'.
Proof.
  intros Hg [Hk Hnd He]. split; [by rewrite (grows_kinds _ _ _ Hg)|done|].
  intros ci Hin. destruct (He ci Hin). split; [done|by eapply waits_grows].
Qed.

Lemma pool_scheduled marked pool s c : pool_inv marked pool s → pool_inv marked pool (set_scheduledCommand c s).
Proof.
  intros [Hk Hnd He]. split; [done|done|]. intros ci Hin. destruct (He ci Hin). split; [done|by apply waits_scheduled].
Qed.

Lemma pool_marked marked marked' pool s :
  (∀ ci, ci ∈ pool → marked (key ci) → marked' (key ci)) → pool_inv marked pool s → pool_inv marked' pool s.
Proof. intros Hm [Hk Hnd He]. split; [done|done|]. intros ci Hin. destruct (He ci Hin). auto. Qed.

(** Looking at a queue without an entry. *)
Lemma pool_peek marked pool s critical j c s' :
  (∀ ci, ci ∈ pool → ci.2 ≠ j) → peek critical j s = Ok (c, s') → pool_inv marked pool s → pool_inv marked pool s'.
Proof.
  intros Hj Hp [Hk Hnd He]. split; [by rewrite (quiet_kinds _ _ (peek_quiet _ _ _ _ _ Hp))|done|].
  intros ci Hin. destruct (He ci Hin). split; [done|]. eapply waits_quiet_ne; [by apply Hj|done|done].
Qed.

(** A new entry, under a key that was not marked. *)
Lemma pool_enter marked marked' pool pool' s c i :
  pool_inv marked pool s → waits s (c, i) → ¬ marked (key (c, i)) →
  pool' ≡ₚ (c, i) :: pool → (∀ k, marked k → marked' k) → marked' (key (c, i)) →
  pool_inv marked' pool' s.
Proof.
  intros [Hk Hnd He] Hw Hno E Hm Hnew. eapply pool_perm; [exact E|]. split; [done| |].
  - simpl. apply NoDup_cons. split; [|done]. intros (ci & Ek & Hin)%list_elem_of_fmap.
    apply Hno. rewrite Ek. by apply He.
  - intros ci [->|Hin]%elem_of_cons; [done|]. destruct (He ci Hin). auto.
Qed.

(** Entries of different keys do not share the timers and the buffer a command
    is sent from. *)
Hypothesis key_apart : ∀ ci c i,
  key ci ≠ key (c, i) → ci.2 ≠ i ∨ kind = true ∧ bp_requestorID ci.1 ≠ bp_requestorID c.

(** Sending an entry. *)
Lemma pool_send marked marked' pool pool' s0 s c i s' :
  pool_inv marked pool s → quiet s0 s → pool ≡ₚ (c, i) :: pool' → isIssuable c s = Ok true →
  send c i s = Ok s' → (∀ k, k ≠ key (c, i) → marked k → marked' k) →
  pool_inv marked' pool' s' ∧ issues s0 (Some (i, c)) s'.
Proof.
  intros Hinv Hq E Hi Hs Hm. apply (pool_perm _ _ ((c, i) :: pool')) in Hinv as [Hk Hnd He]; [|done].
  destruct (He (c, i)) as [_ [Hf Hr]]; [left|]. simpl in Hf, Hr, Hnd. apply NoDup_cons in Hnd as [Hno Hnd].
  assert (issues s0 (Some (i, c)) s') as Hiss
    by (eapply send_issues; [exact Hq|exact Hf|by apply ready_issuable_true|exact Hs]).
  split; [|exact Hiss]. split; [|done|].
  - rewrite (issues_kinds _ _ _ Hiss), <- (quiet_kinds _ _ Hq). exact Hk.
  - intros ci Hin. destruct (He ci) as [Hmk Hw]; [by right|].
    assert (key ci ≠ key (c, i)) as Hne by (intros Ek; apply Hno; rewrite <- Ek; by apply list_elem_of_fmap_2).
    split; [by apply Hm|]. eapply waits_send; [exact Hs| |by apply waits_scheduled].
    destruct (key_apart _ _ _ Hne) as [?|[Ek ?]]; [by left|right]. split; [|done].
    unfold by_requestors. rewrite <- Ek. exact Hk.
Qed.
End pool.

(** The two kinds of keys. *)
Lemma queue_apart (ci : BusPacket * nat) (c : BusPacket) (i : nat) :
  ci.2 ≠ (c, i).2 → ci.2 ≠ i ∨ false = true ∧ bp_requestorID ci.1 ≠ bp_requestorID c.
Proof. by left. Qed.

Lemma owner_apart (ci : BusPacket * nat) (c : BusPacket) (i : nat) :
  owner ci ≠ owner (c, i) → ci.2 ≠ i ∨ true = true ∧ bp_requestorID ci.1 ≠ bp_requestorID c.
Proof. by right. Qed.

(** An entry of a pool that is kept in a list, at its position. *)
Lemma entry_perm (f : fifo) k ci : f !! k = Some ci → f ≡ₚ ci :: delete k f.
Proof. apply delete_Permutation. Qed.
