(* ===== verification/FifoAlgos.v ===== *)
(** * Scheduling algorithms with a queue of ready commands

    [DCmc] (src/system/DCmc/CommandScheduler_DCmc.h) and [ORP]
    (src/system/ORP/CommandScheduler_ORP.h) keep the commands that became ready in
    FIFOs of their own, with the index of their command queue, and a flag per
    queue or per requestor that stops a second entry: pools in the sense of Pool.v.

    Main results: both keep the promise of the interface, since an entry stays
    ready and stays at the front of its queue until it is sent; a column access
    is never sent before an older one of the FIFO. *)
From S2P Require Import Prelude Types KeyedBuf CmdQueue DRAM DDR3 Device Refresh CmdSched CmdAlg CmdAlgos Pool.

Section entries.
Context {Dev : Type} `{MemoryDevice Dev}.
Implicit Types s : CommandScheduler Dev.

(** The loop over a FIFO: the position of the first entry that is issuable. With
    [block], the first column access that is not issuable sets [casBlocking]; then
    every column access is passed over. *)
Definition scan (block : bool) (f : fifo) (s : CommandScheduler Dev) (casBlocking : bool)
    : res (flow bool nat) :=
  forM (seq 0 (length f)) casBlocking (λ k cas,
    ci ← vec_at f k;
    let isCAS := bpt_lt (busPacketType ci.1) ACT in
    if isCAS && cas then Ok (Next cas)
    else
      b ← isIssuable ci.1 s;
      Ok (if b : bool then Stop cas k else Next (cas || (block && isCAS)))).

Lemma scan_stop block f s cas cas' k :
  scan block f s cas = Ok (Stop cas' k) →
  ∃ c i, f !! k = Some (c, i) ∧ isIssuable c s = Ok true ∧
    (bpt_lt (busPacketType c) ACT = true → block = true →
     ∀ k' c' i', (k' < k)%nat → f !! k' = Some (c', i') → bpt_lt (busPacketType c') ACT = false).
Proof.
  unfold scan. assert (∀ n m cas, (∀ k' c' i', (k' < m)%nat → f !! k' = Some (c', i') →
      bpt_lt (busPacketType c') ACT = true → block = true → cas = true) →
    forM (seq m n) cas (λ k cas, ci ← vec_at f k;
      let isCAS := bpt_lt (busPacketType ci.1) ACT in
      if isCAS && cas then Ok (Next cas)
      else b ← isIssuable ci.1 s; Ok (if b : bool then Stop cas k else Next (cas || (block && isCAS)))) = Ok (Stop cas' k) →
    ∃ c i, f !! k = Some (c, i) ∧ isIssuable c s = Ok true ∧
      (bpt_lt (busPacketType c) ACT = true → block = true →
       ∀ k' c' i', (k' < k)%nat → f !! k' = Some (c', i') → bpt_lt (busPacketType c') ACT = false)) as Hn.
  { clear cas. induction n as [|n IH]; intros m cas Hm Hf; [done|]. cbn [seq forM] in Hf.
    apply bind_Ok in Hf as (o & Ho & Hf). apply bind_Ok in Ho as ([c i] & Hci%vec_at_Ok & Ho). cbn [fst snd] in Ho.
    destruct (bpt_lt (busPacketType c) ACT && cas) eqn:Hskip.
    - injection Ho as <-. apply (IH _ _) in Hf; [done|]. intros k' c' i' Hk' Hl Hcas Hb.
      by apply andb_true_iff in Hskip as [_ ->].
    - apply bind_Ok in Ho as ([] & Hi & Ho); injection Ho as <-.
      + injection Hf as -> ->. exists c, i. split_and!; [done..|]. intros Hcas Hb k' c' i' Hk' Hl.
        rewrite Hcas in Hskip. simpl in Hskip. subst cas'.
        destruct (bpt_lt (busPacketType c') ACT) eqn:E; [|done]. by specialize (Hm _ _ _ Hk' Hl E Hb).
      + apply (IH _ _) in Hf; [done|]. intros k' c' i' Hk' Hl Hcas Hb.
        destruct (decide (k' = m)) as [->|Hne].
        * rewrite Hl in Hci. injection Hci as -> ->. by rewrite Hcas, Hb, orb_true_r.
        * rewrite (Hm k' c' i'); [done|lia|done..]. }
  apply Hn. intros; lia.
Qed.

End entries.

(** ** DCmc *)
Module DCmc.

Record DCmc := mkDCmc {
  cmdFIFO : fifo;
  srtFIFO : fifo;
  queuePending : list bool;
}.

Section DCmc.
Context {Dev : Type} `{MemoryDevice Dev}.
Implicit Types s : CommandScheduler Dev.

Definition ctor (queues : list CommandQueue) : DCmc := mkDCmc [] [] ((λ _, false) <$> queues).

(** One turn of the loop over the queues. *)
Definition visit (index : nat) (st : DCmc * CommandScheduler Dev) : res (DCmc * CommandScheduler Dev) :=
  let '(a, s) := st in
  pending ← vec_at (queuePending a) index;
  if pending : bool then Ok (a, s)
  else
    cs ← next_command index s;
    match cs with
    | (None, s) => Ok (a, s)
    | (Some c, s) =>
        b ← isReady c index s;
        if b : bool then
          critical ← of_option OutOfRange (requestorCriticalTable s !! bp_requestorID c);
          let p := <[index := true]> (queuePending a) in
          Ok (if critical : bool then mkDCmc (cmdFIFO a ++ [(c, index)]) (srtFIFO a) p
              else mkDCmc (cmdFIFO a) (srtFIFO a ++ [(c, index)]) p, s)
        else Ok (a, s)
    end.

(** Sends entry [k] of a FIFO, whose rest [set] puts back. *)
Definition send_entry (f : fifo) (set : fifo → list bool → DCmc) (k : nat) (a : DCmc) s
    : res (option BusPacket * DCmc * CommandScheduler Dev) :=
  ci ← vec_at f k;
  s ← send ci.1 ci.2 s;
  p ← vec_set (queuePending a) ci.2 false;
  f ← vec_erase f k;
  Ok (Some ci.1, set f p, s).

Definition commandSchedule (a : DCmc) (s : CommandScheduler Dev)
    : res (option BusPacket * DCmc * CommandScheduler Dev) :=
  st ← foldM (seq 0 (length (commandQueues s))) (a, s) visit;
  let '(a, s) := st in
  let s := set_scheduledCommand None s in
  if (0 <? length (cmdFIFO a))%nat then
    o ← scan true (cmdFIFO a) s false;
    match o with
    | Stop _ k => send_entry (cmdFIFO a) (λ f p, mkDCmc f (srtFIFO a) p) k a s
    | Next _ => Ok (None, a, s)
    end
  else
    o ← scan false (srtFIFO a) s false;
    match o with
    | Stop _ k => send_entry (srtFIFO a) (λ f p, mkDCmc (cmdFIFO a) f p) k a s
    | Next _ => Ok (None, a, s)
    end.

Definition entries (a : DCmc) : fifo := cmdFIFO a ++ srtFIFO a.

Definition marked (a : DCmc) (i : nat) : Prop := queuePending a !! i = Some true.
Definition inv (a : DCmc) (s : CommandScheduler Dev) : Prop := pool_inv snd false (marked a) (entries a) s.

Lemma DCmc_visit_inv i a s a' s' :
  inv a s → visit i (a, s) = Ok (a', s') → inv a' s' ∧ quiet s s'.
Proof.
  intros Hinv Hv. unfold visit in Hv. apply bind_Ok in Hv as (p & Hp%vec_at_Ok & Hv).
  destruct p; [by injection Hv as <- <-|]. apply bind_Ok in Hv as ([o s1] & Hn%next_command_Ok & Hv).
  destruct o as [c|]; [|subst; by injection Hv as <- <-]. destruct Hn as [critical Hpk].
  pose proof (peek_quiet _ _ _ _ _ Hpk) as Hq.
  assert (inv a s1) as Hinv1.
  { eapply pool_peek; [|exact Hpk|exact Hinv]. intros ci Hin E. destruct (pl_entry _ _ _ _ _ Hinv ci Hin) as [Hm _].
    unfold marked in Hm. rewrite E in Hm. congruence. }
  apply bind_Ok in Hv as (b & Hr & Hv). destruct b; [|by injection Hv as <- <-].
  apply bind_Ok in Hv as (crit & _ & Hv). injection Hv as <- <-. split; [|done].
  eapply (pool_enter snd false (marked a) _ (entries a)); [exact Hinv1| |unfold marked; simpl; by rewrite Hp|..].
  - split; [|exact Hr]. pose proof (peek_Ok _ _ _ _ _ Hpk) as (q & Hi & _).
    apply (peek_front _ _ _ _ _ _ Hi (by_banks_kind _ _ _ (pl_kinds _ _ _ _ _ Hinv) Hi) Hpk).
  - unfold entries. destruct crit; simpl; solve_Permutation.
  - intros k. unfold marked. destruct (decide (k = i)) as [->|]; [by rewrite Hp|]. destruct crit; simpl; by rewrite list_lookup_insert_ne.
  - unfold marked. destruct crit; simpl; apply list_lookup_insert_eq; by eapply lookup_lt_Some.
Qed.

Lemma DCmc_loop_inv n k a s a' s' :
  inv a s → foldM (seq k n) (a, s) visit = Ok (a', s') → inv a' s' ∧ quiet s s'.
Proof.
  revert k a s. induction n as [|n IH]; intros k a s Hinv Hf; simpl in Hf; [by injection Hf as <- <-|].
  apply bind_Ok in Hf as ([a1 s1] & Hv & Hf). destruct (DCmc_visit_inv _ _ _ _ _ Hinv Hv) as [H1 Hq1].
  destruct (IH _ _ _ H1 Hf) as [H2 Hq2]. split; [done|by etransitivity].
Qed.

Lemma send_entry_inv f set k a s s0 r a' s' c i :
  inv a s → quiet s0 s → f !! k = Some (c, i) → isIssuable c s = Ok true →
  entries a ≡ₚ f ++ entries (set [] []) → (∀ f p, entries (set f p) ≡ₚ f ++ entries (set [] []) ∧ queuePending (set f p) = p) →
  send_entry f set k a s = Ok (r, a', s') →
  r = Some c ∧ inv a' s' ∧ issues s0 (Some (i, c)) s'.
Proof.
  intros Hinv Hq Hk Hiss Hperm Hset Hs. unfold send_entry, vec_at in Hs. rewrite Hk in Hs. simpl in Hs.
  apply bind_Ok in Hs as (s1 & Hsend & Hs). apply bind_Ok in Hs as (p & [Hlt ->]%vec_set_Ok & Hs).
  apply bind_Ok in Hs as (f' & [_ ->]%vec_erase_Ok & Hs). injection Hs as <- <- <-. split; [done|].
  destruct (Hset (delete k f) (<[i:=false]> (queuePending a))) as [Hperm' Hp'].
  eapply pool_send; [apply queue_apart|exact Hinv|exact Hq| |exact Hiss|exact Hsend|].
  - rewrite Hperm, Hperm', app_comm_cons. by apply Permutation_app_tail, entry_perm.
  - simpl. intros j Hne. unfold marked. rewrite Hp'. by rewrite list_lookup_insert_ne.
Qed.

Lemma DCmc_schedule a s r a' s' :
  Forall cq_wf (commandQueues s) → inv a s → commandSchedule a s = Ok (r, a', s') →
  inv a' s' ∧ ∃ ic, snd <$> ic = r ∧ issues s ic s'.
Proof.
  intros _ Hinv Hs. unfold commandSchedule in Hs. apply bind_Ok in Hs as ([a1 s1] & Hl & Hs).
  apply DCmc_loop_inv in Hl as [Hinv1 Hq]; [|done]. set (s2 := set_scheduledCommand None s1) in Hs.
  assert (inv a1 s2) as Hinv2 by by apply pool_scheduled.
  assert (quiet s s2) as Hq2 by (etransitivity; [exact Hq|apply quiet_scheduled]).
  assert (inv a1 s2 ∧ ∃ ic, snd <$> ic = None ∧ issues s ic s2) as Hnone
    by (split; [done|exists None; split; [done|by constructor]]).
  destruct (0 <? length (cmdFIFO a1))%nat.
  - apply bind_Ok in Hs as ([cas|cas k] & Hscan & Hs); [by injection Hs as <- <- <-|].
    apply scan_stop in Hscan as (c & i & Hk & Hi & _).
    eapply send_entry_inv in Hs as (-> & ? & ?); [|exact Hinv2|exact Hq2|exact Hk|exact Hi|done|done].
    split; [done|]. by exists (Some (i, c)).
  - apply bind_Ok in Hs as ([cas|cas k] & Hscan & Hs); [by injection Hs as <- <- <-|].
    apply scan_stop in Hscan as (c & i & Hk & Hi & _).
    eapply send_entry_inv in Hs as (-> & ? & ?); [|exact Hinv2|exact Hq2|exact Hk|exact Hi| |].
    + split; [done|]. by exists (Some (i, c)).
    + unfold entries. simpl. by rewrite app_nil_r, Permutation_app_comm.
    + intros f p. split; [|done]. unfold entries. simpl. by rewrite app_nil_r, Permutation_app_comm.
Qed.

#[export] Instance scheduling : CommandScheduling Dev DCmc := {| CmdAlg.commandSchedule := commandSchedule |}.
#[export] Program Instance algorithm : CommandAlgorithm Dev DCmc := {|
  alg_accepts := λ _ _, True; alg_inv := inv;
  schedule_issues := DCmc_schedule |}.
Next Obligation. intros a s s' Hinv Hg. by eapply pool_grows. Qed.

Lemma visit_appends i a s a' s' :
  visit i (a, s) = Ok (a', s') → ∃ new, cmdFIFO a' = cmdFIFO a ++ new.
Proof.
  intros Hv. unfold visit in Hv. assert (∃ new, cmdFIFO a = cmdFIFO a ++ new) by (exists []; by rewrite app_nil_r).
  apply bind_Ok in Hv as ([] & _ & Hv); [by injection Hv as <- <-|].
  apply bind_Ok in Hv as ([[c|] s1] & _ & Hv); [|by injection Hv as <- <-].
  apply bind_Ok in Hv as ([] & _ & Hv); [|by injection Hv as <- <-].
  apply bind_Ok in Hv as ([] & _ & Hv); injection Hv as <- <-; [by exists [(c, i)]|done].
Qed.

Lemma loop_appends n k a s a' s' :
  foldM (seq k n) (a, s) visit = Ok (a', s') → ∃ new, cmdFIFO a' = cmdFIFO a ++ new.
Proof.
  revert k a s. induction n as [|n IH]; intros k a s Hf; simpl in Hf.
  - injection Hf as <- <-. exists []. by rewrite app_nil_r.
  - apply bind_Ok in Hf as ([a1 s1] & [l1 E1]%visit_appends & Hf). apply IH in Hf as [l2 E2].
    exists (l1 ++ l2). by rewrite E2, E1, app_assoc.
Qed.

(** [DCmc] never lets a column access overtake another: the FIFO keeps the
    order in which critical commands became ready, and a column access that is
    sent from it is the first column access in it. *)
Theorem DCmc_CAS_in_order a s c a' s' :
  commandSchedule a s = Ok (Some c, a', s') → bpt_lt (busPacketType c) ACT = true →
  (cmdFIFO a = [] ∧ cmdFIFO a' = []) ∨
  ∃ new f1 i f2, cmdFIFO a ++ new = f1 ++ (c, i) :: f2 ∧ cmdFIFO a' = f1 ++ f2 ∧
    ∀ ci, ci ∈ f1 → bpt_lt (busPacketType ci.1) ACT = false.
Proof.
  intros Hs Hcas. unfold commandSchedule in Hs. apply bind_Ok in Hs as ([a1 s1] & [new Hnew]%loop_appends & Hs).
  destruct (Nat.ltb_spec 0 (length (cmdFIFO a1))) as [Hlt|Hle].
  - right. apply bind_Ok in Hs as ([cas|cas k] & Hscan & Hs); [done|].
    apply scan_stop in Hscan as (c' & i & Hk & _ & Hfirst). unfold send_entry, vec_at in Hs. rewrite Hk in Hs.
    simpl in Hs. apply bind_Ok in Hs as (s2 & _ & Hs). apply bind_Ok in Hs as (p & _ & Hs).
    apply bind_Ok in Hs as (f & [_ ->]%vec_erase_Ok & Hs). injection Hs as -> <- <-.
    exists new, (take k (cmdFIFO a1)), i, (drop (S k) (cmdFIFO a1)). split; [by rewrite <- Hnew, take_drop_middle|].
    split; [simpl; by rewrite delete_take_drop|].
    intros [c'' i''] [k' [Hk' Hlt']%lookup_take_Some]%list_elem_of_lookup. by eapply Hfirst.
  - left. apply bind_Ok in Hs as ([cas|cas k] & Hscan & Hs); [done|].
    assert (cmdFIFO a1 = []) as E by (apply length_zero_iff_nil; lia).
    rewrite E in Hnew. symmetry in Hnew. apply app_nil in Hnew as [Hnil _]. split; [done|].
    unfold send_entry in Hs. apply bind_Ok in Hs as (ci & _ & Hs). apply bind_Ok in Hs as (s2 & _ & Hs).
    apply bind_Ok in Hs as (p & _ & Hs). apply bind_Ok in Hs as (f & _ & Hs). by injection Hs as _ <- _.
Qed.
End DCmc.
End DCmc.

(** ** ORP *)
Module ORP.

Record ORP := mkORP {
  cmdFIFO : fifo;
  srtFIFO : fifo;
  queuePending : gmap Z bool;
}.

Section ORP.
Context {Dev : Type} `{MemoryDevice Dev}.
Implicit Types s : CommandScheduler Dev.

Definition ctor : ORP := mkORP [] [] ∅.

(** [queuePending[id]]; a key that is not there reads as [false]. *)
Definition pending (a : ORP) (id : Z) : bool := default false (queuePending a !! id).

(** [cmdFIFO.push_back(make_pair(c, index)); queuePending[id] = true]. *)
Definition enter (c : BusPacket) (index : nat) (id : Z) (a : ORP) : ORP :=
  mkORP (cmdFIFO a ++ [(c, index)]) (srtFIFO a) (<[id := true]> (queuePending a)).

(** A requestor's first command; both branches on the criticality push to
    [cmdFIFO]. *)
Definition visit_requestor (index : nat) (s : CommandScheduler Dev) (c : BusPacket) (a : ORP)
    : res (flow ORP unit) :=
  b ← (if pending a (bp_requestorID c) then Ok false else isReady c index s);
  if b : bool then
    critical ← of_option OutOfRange (requestorCriticalTable s !! bp_requestorID c);
    Ok (Next (enter c index (bp_requestorID c) a))
  else Ok (Next a).

(** One turn of the loop over the queues. *)
Definition visit (index : nat) (st : ORP * CommandScheduler Dev) : res (ORP * CommandScheduler Dev) :=
  let '(a, s) := st in
  q ← queue_at index s;
  if cq_isPerRequestor q then
    if (0 <? getRequestorIndex q)%nat then
      o ← each_requestor q a (visit_requestor index s);
      Ok (after o, s)
    else Ok (a, s)
  else
    cs ← (if (0 <? cq_getSize true q)%nat && negb (pending a (Z.of_nat index))
          then cs ← peek true index s; Ok (Some cs.1, cs.2)
          else if (0 <? cq_getSize false q)%nat then cs ← peek false index s; Ok (Some cs.1, cs.2)
          else Ok (None, s));
    match cs with
    | (None, s) => Ok (a, s)
    | (Some c, s) =>
        b ← isReady c index s;
        Ok (if b : bool then enter c index (Z.of_nat index) a else a, s)
    end.

Definition set_pending (id : Z) (b : bool) (p : gmap Z bool) : gmap Z bool := <[id := b]> p.

Definition commandSchedule (a : ORP) (s : CommandScheduler Dev)
    : res (option BusPacket * ORP * CommandScheduler Dev) :=
  st ← foldM (seq 0 (length (commandQueues s))) (a, s) visit;
  let '(a, s) := st in
  let s := set_scheduledCommand None s in
  o ← scan true (cmdFIFO a) s false;
  match o with
  | Stop _ k =>
      ci ← vec_at (cmdFIFO a) k;
      s ← send ci.1 ci.2 s;
      q ← queue_at ci.2 s;
      let id := if cq_isPerRequestor q then bp_requestorID ci.1 else Z.of_nat ci.2 in
      f ← vec_erase (cmdFIFO a) k;
      Ok (Some ci.1, mkORP f (srtFIFO a) (set_pending id false (queuePending a)), s)
  | Next casBlocking =>
      if (0 <? length (srtFIFO a))%nat && negb casBlocking then
        o ← scan false (srtFIFO a) s false;
        match o with
        | Stop _ k =>
            ci ← vec_at (srtFIFO a) k;
            s ← send ci.1 ci.2 s;
            f ← vec_erase (srtFIFO a) k;
            Ok (Some ci.1, mkORP (cmdFIFO a) f (set_pending (bp_requestorID ci.1) false (queuePending a)), s)
        | Next _ => Ok (None, a, s)
        end
      else Ok (None, a, s)
  end.

Definition marked (a : ORP) (id : Z) : Prop := pending a id = true.
Definition inv (a : ORP) (s : CommandScheduler Dev) : Prop :=
  srtFIFO a = [] ∧ pool_inv owner true (marked a) (cmdFIFO a) s.

Lemma enter_inv a s c i :
  inv a s → pending a (bp_requestorID c) = false → waits s (c, i) → inv (enter c i (bp_requestorID c) a) s.
Proof.
  intros [Hsrt Hinv] Hp Hw. split; [done|].
  eapply (pool_enter owner true (marked a)); [exact Hinv|exact Hw|unfold marked, owner; simpl; congruence|..].
  - unfold enter. simpl. solve_Permutation.
  - intros id. unfold marked, enter, pending. simpl. destruct (decide (id = bp_requestorID c)) as [->|Hne];
      [by rewrite lookup_insert_eq|by rewrite lookup_insert_ne].
  - unfold marked, enter, pending, owner. simpl. by rewrite lookup_insert_eq.
Qed.

Lemma ORP_visit_inv i a s a' s' :
  Forall cq_wf (commandQueues s) → inv a s → visit i (a, s) = Ok (a', s') → inv a' s' ∧ s' = s.
Proof.
  intros Hwf Hinv Hv. unfold visit in Hv. apply bind_Ok in Hv as (q & Hq%vec_at_Ok & Hv).
  pose proof (by_requestors_kind _ _ _ (pl_kinds _ _ _ _ _ (proj2 Hinv)) Hq) as Hk. rewrite Hk in Hv.
  destruct (0 <? getRequestorIndex q)%nat; [|by injection Hv as <- <-].
  apply bind_Ok in Hv as (o & Ho & Hv). injection Hv as <- <-. split; [|done].
  rewrite each_requestor_heads in Ho.
  eapply (forM_inv (λ a, inv a s) (λ a _, inv a s)) in Ho; [|done|].
  - by destruct o.
  - intros c a1 o1 [num Hc]%heads_elem Ha1 Hv1. unfold visit_requestor in Hv1.
    apply bind_Ok in Hv1 as (b & Hb & Hv1). destruct b; [|by injection Hv1 as <-].
    apply bind_Ok in Hv1 as (cr & _ & Hv1). injection Hv1 as <-.
    destruct (pending a1 (bp_requestorID c)) eqn:Hp; [done|]. apply enter_inv; [done|done|].
    split; [|done]. simpl. eapply requestor_front; [exact Hq| |exact Hk|exact Hc]. by eapply Forall_lookup_1.
Qed.

Lemma ORP_loop_inv n k a s a' s' :
  Forall cq_wf (commandQueues s) → inv a s → foldM (seq k n) (a, s) visit = Ok (a', s') → inv a' s' ∧ s' = s.
Proof.
  intros Hwf. revert k a. induction n as [|n IH]; intros k a Hinv Hf; simpl in Hf; [by injection Hf as <- <-|].
  apply bind_Ok in Hf as ([a1 s1] & Hv & Hf). destruct (ORP_visit_inv _ _ _ _ _ Hwf Hinv Hv) as [H1 ->].
  by apply (IH _ _ H1) in Hf.
Qed.

Lemma ORP_schedule a s r a' s' :
  Forall cq_wf (commandQueues s) → inv a s → commandSchedule a s = Ok (r, a', s') →
  inv a' s' ∧ ∃ ic, snd <$> ic = r ∧ issues s ic s'.
Proof.
  intros Hwf Hinv Hs. unfold commandSchedule in Hs. apply bind_Ok in Hs as ([a1 s1] & Hl & Hs).
  apply ORP_loop_inv in Hl as [[Hsrt Hinv1] ->]; [|done|done]. set (s2 := set_scheduledCommand None s) in Hs.
  assert (pool_inv owner true (marked a1) (cmdFIFO a1) s2) as Hinv2 by by apply pool_scheduled.
  apply bind_Ok in Hs as ([cas|cas k] & Hscan & Hs).
  { rewrite Hsrt in Hs. simpl in Hs. injection Hs as <- <- <-. split; [by split|]. exists None.
    split; [done|]. constructor. apply quiet_scheduled. }
  apply scan_stop in Hscan as (c & i & Hk & Hi & _). unfold vec_at in Hs. rewrite Hk in Hs. simpl in Hs.
  apply bind_Ok in Hs as (s3 & Hsend & Hs). apply bind_Ok in Hs as (q & Hqi%vec_at_Ok & Hs).
  apply bind_Ok in Hs as (f & [_ ->]%vec_erase_Ok & Hs).
  assert (by_requestors s3) as Hb3.
  { unfold by_requestors, send in *. destruct (send_timer_all _ _ _ _ _ 0 0 0 Hsend) as (-> & _). apply Hinv. }
  rewrite (by_requestors_kind _ _ _ Hb3 Hqi) in Hs. injection Hs as <- <- <-.
  edestruct (pool_send owner true owner_apart (marked a1) (λ id, id ≠ bp_requestorID c ∧ marked a1 id)
    (cmdFIFO a1) (delete k (cmdFIFO a1)) s s2 c i s3) as [Hinv3 Hiss];
    [exact Hinv2|apply quiet_scheduled|by apply entry_perm|exact Hi|exact Hsend|done|].
  split; [|by exists (Some (i, c))]. split; [done|]. eapply pool_marked; [|exact Hinv3].
  intros ci _ [Hne Hm]. unfold marked, pending, set_pending in *. simpl. by rewrite lookup_insert_ne by (by apply not_eq_sym).
Qed.

#[export] Instance scheduling : CommandScheduling Dev ORP := {| CmdAlg.commandSchedule := commandSchedule |}.
#[export] Program Instance algorithm : CommandAlgorithm Dev ORP := {|
  alg_accepts := λ _ _, True; alg_inv := inv;
  schedule_issues := ORP_schedule |}.
Next Obligation. intros a s s' [Hsrt Hinv] Hg. split; [done|by eapply pool_grows]. Qed.
End ORP.
End ORP.

(** ** Witness *)

(** A read at the front of the only queue becomes ready and is sent. *)
Definition wit_dcmc_s : CommandScheduler Device :=
  CommandScheduler_ctor true 0 [wit_bank_queue wit_late_read] (<[2 := true]> ∅) wit_dev0.

Lemma DCmc_CAS_in_order_witness :
  ∃ a' s', DCmc.commandSchedule (DCmc.ctor [wit_bank_queue wit_late_read]) wit_dcmc_s = Ok (Some wit_late_read, a', s') ∧
  (([] : fifo) = [] ∧ DCmc.cmdFIFO a' = [] ∨
   ∃ new f1 i f2, [] ++ new = f1 ++ (wit_late_read, i) :: f2 ∧ DCmc.cmdFIFO a' = f1 ++ f2 ∧
     ∀ ci, ci ∈ f1 → bpt_lt (busPacketType ci.1) ACT = false).
Proof.
  set (call := DCmc.commandSchedule (DCmc.ctor [wit_bank_queue wit_late_read]) wit_dcmc_s).
  assert (match call with Ok (Some c, _, _) => bool_decide (c = wit_late_read) | _ => false end = true) as H
    by (vm_compute; reflexivity).
  destruct call as [[[[c|] a'] s']|] eqn:Hs; [|discriminate H|discriminate H].
  apply bool_decide_eq_true in H. subst c. exists a', s'. split; [reflexivity|].
  apply (DCmc.DCmc_CAS_in_order (DCmc.ctor [wit_bank_queue wit_late_read]) wit_dcmc_s wit_late_read a' s').
  - exact Hs.
  - reflexivity.
Defined.
