(* ===== verification/BundleAlgos.v ===== *)
(** * Scheduling algorithms that bundle column accesses

    [RankReOrder] (src/system/RankReOrder/CommandScheduler_RankReOrder.h) and
    [ReOrder] (src/system/ReOrder/CommandScheduler_ReOrder.h) work in rounds: every
    queue, or bank, gets one column access a round, and accesses of one type are
    sent together. The commands that became ready wait in buffers of the
    algorithm, a pool in the sense of Pool.v. Vectors that are pushed to and
    erased from together are one list of pairs here.

    Main results: both keep the promise of the interface; what their rounds
    guarantee. *)
From S2P Require Import Prelude Types KeyedBuf CmdQueue DRAM DDR3 Device Refresh CmdSched CmdAlg CmdAlgos Pool.

(** ** RankReOrder *)
Module RankReOrder.

Record RankReOrder := mkRankReOrder {
  bundlingType : BusPacketType;
  rankIndex : nat;
  (** [CASBuffer] with [CASQueueIndex], [ACT_PREBuffer] with [CMDQueueIndex]. *)
  CASBuffer : list fifo;
  ACT_PREBuffer : fifo;
  queuePending : list bool;
  servedFlag : list bool;
}.

Definition rank_num : nat := 2.

Definition ctor (queues : list CommandQueue) : RankReOrder :=
  mkRankReOrder RD 0 (replicate rank_num []) [] ((λ _, false) <$> queues) ((λ _, false) <$> queues).

Definition set_round (t : BusPacketType) (served : list bool) (a : RankReOrder) : RankReOrder :=
  mkRankReOrder t (rankIndex a) (CASBuffer a) (ACT_PREBuffer a) (queuePending a) served.
Definition set_rankIndex (r : nat) (a : RankReOrder) : RankReOrder :=
  mkRankReOrder (bundlingType a) r (CASBuffer a) (ACT_PREBuffer a) (queuePending a) (servedFlag a).
Definition set_buffers (cas : list fifo) (act : fifo) (a : RankReOrder) : RankReOrder :=
  mkRankReOrder (bundlingType a) (rankIndex a) cas act (queuePending a) (servedFlag a).
Definition set_pending (p : list bool) (a : RankReOrder) : RankReOrder :=
  mkRankReOrder (bundlingType a) (rankIndex a) (CASBuffer a) (ACT_PREBuffer a) p (servedFlag a).

Definition of_type (t : BusPacketType) (ci : BusPacket * nat) : bool := bool_decide (busPacketType ci.1 = t).

(** A new round when no column access is buffered; the other type when none of
    the buffered ones has the type of the bundle. *)
Definition new_round (a : RankReOrder) : RankReOrder :=
  let newRound := forallb (λ f : fifo, bool_decide (f = [])) (CASBuffer a) in
  let newType := forallb (forallb (λ ci, negb (of_type (bundlingType a) ci))) (CASBuffer a) in
  set_round
    (if negb newRound && newType then if bool_decide (bundlingType a = RD) then WR else RD else bundlingType a)
    (if newRound then (λ _, false) <$> servedFlag a else servedFlag a) a.

Section RankReOrder.
Context {Dev : Type} `{MemoryDevice Dev}.
Implicit Types s : CommandScheduler Dev.

(** One turn of the loop that fills the buffers. *)
Definition visit (index : nat) (st : RankReOrder * CommandScheduler Dev) : res (RankReOrder * CommandScheduler Dev) :=
  let '(a, s) := st in
  pending ← vec_at (queuePending a) index;
  if pending : bool then Ok (a, s)
  else
    cs ← next_command index s;
    match cs with
    | (None, s) => Ok (a, s)
    | (Some c, s) =>
        b ← isReady c index s;
        if b : bool then
          let p := <[index := true]> (queuePending a) in
          if bpt_lt (busPacketType c) ACT then
            served ← vec_at (servedFlag a) index;
            if served : bool then Ok (a, s)
            else
              let r := Z.to_nat (bp_rank c) in
              f ← vec_at (CASBuffer a) r;
              Ok (set_pending p (set_buffers (<[r := f ++ [(c, index)]]> (CASBuffer a)) (ACT_PREBuffer a) a), s)
          else Ok (set_pending p (set_buffers (CASBuffer a) (ACT_PREBuffer a ++ [(c, index)]) a), s)
        else Ok (a, s)
    end.

(** One rank: its first access of the type of the bundle, if it is issuable; the
    turn stays with a rank that sends. *)
Definition visit_rank (s : CommandScheduler Dev) (a : RankReOrder) : res (flow RankReOrder (BusPacket * nat)) :=
  f ← vec_at (CASBuffer a) (rankIndex a);
  match list_find (λ ci, of_type (bundlingType a) ci) f with
  | Some (k, ci) =>
      b ← isIssuable ci.1 s;
      Ok (if b : bool then Stop (set_buffers (<[rankIndex a := delete k f]> (CASBuffer a)) (ACT_PREBuffer a) a) ci
          else Next (set_rankIndex (if bool_decide (S (rankIndex a) = rank_num) then 0%nat else S (rankIndex a)) a))
  | None => Ok (Next (set_rankIndex (if bool_decide (S (rankIndex a) = rank_num) then 0%nat else S (rankIndex a)) a))
  end.

(** The choice: a column access of the ranks in turn, or the first issuable of the
    other commands. *)
Definition choose (a : RankReOrder) (s : CommandScheduler Dev) : res (option (BusPacket * nat) * RankReOrder) :=
  o ← forM (seq 0 rank_num) a (λ _, visit_rank s);
  match o with
  | Stop a ci => Ok (Some ci, a)
  | Next a =>
      k ← first_such (λ ci, isIssuable ci.1 s) (ACT_PREBuffer a);
      match k with
      | Some k =>
          ci ← vec_at (ACT_PREBuffer a) k;
          Ok (Some ci, set_buffers (CASBuffer a) (delete k (ACT_PREBuffer a)) a)
      | None => Ok (None, a)
      end
  end.

Definition commandSchedule (a : RankReOrder) (s : CommandScheduler Dev)
    : res (option BusPacket * RankReOrder * CommandScheduler Dev) :=
  let s := set_scheduledCommand None s in
  st ← foldM (seq 0 (length (commandQueues s))) (new_round a, s) visit;
  let '(a, s) := st in
  o ← choose a s;
  match o with
  | (Some (c, i), a) =>
      served ← (if bpt_lt (busPacketType c) ACT then vec_set (servedFlag a) i true else Ok (servedFlag a));
      p ← vec_set (queuePending a) i false;
      s ← send c i s;
      Ok (Some c, set_pending p (set_round (bundlingType a) served a), s)
  | (None, a) => Ok (None, a, s)
  end.

(** *** The promise *)
Definition pool (a : RankReOrder) : fifo := concat (CASBuffer a) ++ ACT_PREBuffer a.
Definition marked (a : RankReOrder) (i : nat) : Prop := queuePending a !! i = Some true.
(** Queues with a buffered column access were not served in this round. *)
Record inv (a : RankReOrder) (s : CommandScheduler Dev) : Prop := {
  in_pool : pool_inv snd false (marked a) (pool a) s;
  in_cas ci : ci ∈ concat (CASBuffer a) → bpt_lt (busPacketType ci.1) ACT = true ∧ servedFlag a !! ci.2 = Some false;
  in_act ci : ci ∈ ACT_PREBuffer a → bpt_lt (busPacketType ci.1) ACT = false;
}.

Lemma new_round_inv a s : inv a s → inv (new_round a) s.
Proof.
  intros [Hp Hc Ha]. split; [exact Hp| |exact Ha]. intros ci Hin. destruct (Hc ci Hin) as [Ht Hs]. split; [exact Ht|].
  unfold new_round. simpl. destruct (forallb _ _); [|done]. by rewrite list_lookup_fmap, Hs.
Qed.

Lemma RankReOrder_visit_inv i a s a' s' : inv a s → visit i (a, s) = Ok (a', s') → inv a' s' ∧ quiet s s'.
Proof.
  intros [Hinv Hcas Hact] Hv. unfold visit in Hv. apply bind_Ok in Hv as (p & Hp%vec_at_Ok & Hv).
  destruct p; [by injection Hv as <- <-|]. apply bind_Ok in Hv as ([o s1] & Hn%next_command_Ok & Hv).
  destruct o as [c|]; [|subst; by injection Hv as <- <-]. destruct Hn as [critical Hpk].
  pose proof (peek_quiet _ _ _ _ _ Hpk) as Hq.
  assert (pool_inv snd false (marked a) (pool a) s1) as Hinv1.
  { eapply pool_peek; [|exact Hpk|exact Hinv]. intros ci Hin E. destruct (pl_entry _ _ _ _ _ Hinv ci Hin) as [Hm _].
    unfold marked in Hm. rewrite E in Hm. congruence. }
  apply bind_Ok in Hv as (b & Hr & Hv). destruct b; [|by injection Hv as <- <-].
  assert (waits s1 (c, i)) as Hw.
  { split; [|exact Hr]. pose proof (peek_Ok _ _ _ _ _ Hpk) as (q & Hi & _).
    apply (peek_front _ _ _ _ _ _ Hi (by_banks_kind _ _ _ (pl_kinds _ _ _ _ _ Hinv) Hi) Hpk). }
  assert (∀ a1, pool a1 ≡ₚ (c, i) :: pool a → queuePending a1 = <[i := true]> (queuePending a) →
    pool_inv snd false (marked a1) (pool a1) s1) as Henter.
  { intros a1 E Ep. eapply pool_enter; [exact Hinv1|exact Hw|unfold marked; simpl; by rewrite Hp|exact E|..]; unfold marked; rewrite Ep.
    - intros k. destruct (decide (k = i)) as [->|]; [by rewrite Hp|]. by rewrite list_lookup_insert_ne.
    - apply list_lookup_insert_eq. by eapply lookup_lt_Some. }
  destruct (bpt_lt (busPacketType c) ACT) eqn:Hty.
  - apply bind_Ok in Hv as ([] & Hsv%vec_at_Ok & Hv); [by injection Hv as <- <-|].
    apply bind_Ok in Hv as (f & Hf%vec_at_Ok & Hv). injection Hv as <- <-. split; [|done].
    assert (concat (<[Z.to_nat (bp_rank c) := f ++ [(c, i)]]> (CASBuffer a)) ≡ₚ (c, i) :: concat (CASBuffer a)) as E
      by (eapply concat_insert_cons; [exact Hf|solve_Permutation]).
    split; [apply Henter; [|done]; unfold pool; simpl; by rewrite E| |exact Hact].
    simpl. intros ci. rewrite E. intros [->|Hin]%elem_of_cons; [done|by apply Hcas].
  - injection Hv as <- <-. split; [|done]. split; [apply Henter; [|done]; unfold pool; simpl; solve_Permutation|done|].
    simpl. intros ci [Hin| ->%list_elem_of_singleton]%elem_of_app; [by apply Hact|exact Hty].
Qed.

Lemma RankReOrder_loop_inv n k a s a' s' :
  inv a s → foldM (seq k n) (a, s) visit = Ok (a', s') → inv a' s' ∧ quiet s s'.
Proof.
  revert k a s. induction n as [|n IH]; intros k a s Hinv Hf; simpl in Hf; [by injection Hf as <- <-|].
  apply bind_Ok in Hf as ([a1 s1] & Hv & Hf). destruct (RankReOrder_visit_inv _ _ _ _ _ Hinv Hv) as [H1 Hq1].
  destruct (IH _ _ _ H1 Hf) as [H2 Hq2]. split; [done|by etransitivity].
Qed.

(** What the choice takes out of the buffers. *)
Record taken (a a' : RankReOrder) (s : CommandScheduler Dev) (ci : BusPacket * nat) : Prop := {
  tk_issuable : isIssuable ci.1 s = Ok true;
  tk_pool : pool a ≡ₚ ci :: pool a';
  tk_where :
    (bpt_lt (busPacketType ci.1) ACT = true ∧ busPacketType ci.1 = bundlingType a ∧
       concat (CASBuffer a) ≡ₚ ci :: concat (CASBuffer a') ∧ ACT_PREBuffer a' = ACT_PREBuffer a) ∨
    (bpt_lt (busPacketType ci.1) ACT = false ∧
       CASBuffer a' = CASBuffer a ∧ ACT_PREBuffer a ≡ₚ ci :: ACT_PREBuffer a');
}.

Definition same_flags (a a' : RankReOrder) : Prop :=
  queuePending a' = queuePending a ∧ servedFlag a' = servedFlag a ∧ bundlingType a' = bundlingType a.

Lemma choose_Ok a s o a' :
  inv a s → choose a s = Ok (o, a') →
  same_flags a a' ∧
  match o with
  | Some ci => taken a a' s ci
  | None => CASBuffer a' = CASBuffer a ∧ ACT_PREBuffer a' = ACT_PREBuffer a
  end.
Proof.
  intros Hinv Hc. unfold choose in Hc. apply bind_Ok in Hc as (o1 & Ho & Hc).
  apply (forM_inv (λ a1, same_flags a a1 ∧ CASBuffer a1 = CASBuffer a ∧ ACT_PREBuffer a1 = ACT_PREBuffer a)
    (λ a1 ci, same_flags a a1 ∧ taken a a1 s ci)) in Ho; [|done|].
  - destruct o1 as [a1|a1 ci]; [|by injection Hc as <- <-]. destruct Ho as (Hs & E1 & E2).
    apply bind_Ok in Hc as ([k|] & Hk & Hc); [|by injection Hc as <- <-].
    apply first_such_Some in Hk as (ci & Hk & Hi & _). unfold vec_at in Hc. rewrite Hk in Hc. injection Hc as <- <-.
    split; [done|]. rewrite E2 in *. pose proof (entry_perm _ _ _ Hk) as Hperm. split; [done| |right].
    + unfold pool. simpl. rewrite E1. rewrite Hperm at 1. by rewrite Permutation_middle.
    + split; [|split; [done|exact Hperm]]. eapply in_act; [exact Hinv|]. by eapply list_elem_of_lookup_2.
  - intros _ a1 o2 _ (Hs & E1 & E2) Hv. unfold visit_rank in Hv. apply bind_Ok in Hv as (f & Hf%vec_at_Ok & Hv).
    destruct (list_find _ f) as [[k ci]|] eqn:Hfind; [|by injection Hv as <-].
    apply list_find_Some in Hfind as (Hk & Hty & _). apply bind_Ok in Hv as ([] & Hi & Hv); injection Hv as <-; [|done].
    split; [done|]. rewrite E1 in *. pose proof (concat_insert_delete _ _ _ _ _ Hf Hk) as Hperm.
    assert (ci ∈ concat (CASBuffer a)) as Hin by (rewrite Hperm; left).
    split; [done|unfold pool; simpl; rewrite E2; by rewrite Hperm|left]. split; [by eapply in_cas|].
    split; [|by split]. unfold of_type in Hty. destruct Hs as (_ & _ & Hb). rewrite Hb in Hty.
    by apply bool_decide_unpack in Hty.
Qed.

Lemma RankReOrder_schedule a s r a' s' :
  Forall cq_wf (commandQueues s) → inv a s → commandSchedule a s = Ok (r, a', s') →
  inv a' s' ∧ ∃ ic, snd <$> ic = r ∧ issues s ic s'.
Proof.
  intros _ Hinv Hs. unfold commandSchedule in Hs. apply bind_Ok in Hs as ([a1 s1] & Hl & Hs).
  assert (inv (new_round a) (set_scheduledCommand None s)) as Hinv0.
  { apply new_round_inv. destruct Hinv as [H1 H2 H3]. split; [by apply pool_scheduled|done|done]. }
  apply RankReOrder_loop_inv in Hl as [Hinv1 Hq]; [|exact Hinv0].
  assert (quiet s s1) as Hq1 by (etransitivity; [apply quiet_scheduled|exact Hq]).
  apply bind_Ok in Hs as ([o a2] & Hch & Hs). apply choose_Ok in Hch as [(Ep & Es & Et) Hch]; [|exact Hinv1].
  destruct Hinv1 as [H1 H2 H3]. destruct o as [[c i]|].
  - destruct Hch as [Hi Hperm Hwhere]. cbn [fst snd] in *.
    apply bind_Ok in Hs as (served & Hsv & Hs). apply bind_Ok in Hs as (p & [Hlt ->]%vec_set_Ok & Hs).
    apply bind_Ok in Hs as (s2 & Hsend & Hs). injection Hs as <- <- <-.
    edestruct (pool_send snd false queue_apart (marked a1) (λ k, k ≠ i ∧ marked a1 k) (pool a1) (pool a2) s s1 c i s2)
      as [Hp2 Hiss]; [exact H1|exact Hq1|exact Hperm|exact Hi|exact Hsend|done|].
    split; [|by exists (Some (i, c))]. split; simpl.
    + eapply pool_marked; [|exact Hp2]. intros ci _ [Hne Hm]. unfold marked in *. simpl.
      rewrite list_lookup_insert_ne by (by apply not_eq_sym). by rewrite Ep.
    + intros ci Hin. assert (ci ∈ concat (CASBuffer a1) ∧ ci.2 ≠ i) as [Hin1 Hne].
      { split.
        - destruct Hwhere as [(_ & _ & E & _)|(_ & E & _)]; [rewrite E; by right|by rewrite <- E].
        - intros Ei. assert (ci ∈ pool a2) as Hin2 by (apply elem_of_app; by left).
          destruct (pl_entry _ _ _ _ _ Hp2 ci Hin2) as [[? _] _]. done. }
      destruct (H2 ci Hin1) as [Hty Hsf]. split; [exact Hty|]. destruct (bpt_lt (busPacketType c) ACT).
      * apply vec_set_Ok in Hsv as [_ ->]. rewrite list_lookup_insert_ne by (by apply not_eq_sym). by rewrite Es.
      * injection Hsv as <-. by rewrite Es.
    + intros ci Hin. apply H3. destruct Hwhere as [(_ & _ & _ & <-)|(_ & _ & E)]; [done|]. rewrite E. by right.
  - injection Hs as <- <- <-. destruct Hch as [E1 E2]. split; [|exists None; split; [done|by constructor]].
    split; unfold pool, marked; rewrite ?E1, ?E2, ?Ep, ?Es; done.
Qed.

#[export] Instance scheduling : CommandScheduling Dev RankReOrder := {| CmdAlg.commandSchedule := commandSchedule |}.
#[export] Program Instance algorithm : CommandAlgorithm Dev RankReOrder := {|
  alg_accepts := λ _ _, True; alg_inv := inv;
  schedule_issues := RankReOrder_schedule |}.
Next Obligation. intros a s s' [H1 H2 H3] Hg. split; [by eapply pool_grows|done|done]. Qed.

Lemma RankReOrder_ctor_inv queues s : by_banks s → inv (ctor queues) s.
Proof.
  intros Hb. split; [|by intros ci ?%not_elem_of_nil..].
  split; [exact Hb|constructor|by intros ci ?%not_elem_of_nil].
Qed.

(** *** Rounds *)
Lemma loop_flags n k a s a' s' :
  foldM (seq k n) (a, s) visit = Ok (a', s') → servedFlag a' = servedFlag a ∧ bundlingType a' = bundlingType a.
Proof.
  intros Hf. change (servedFlag (a', s').1 = servedFlag a ∧ bundlingType (a', s').1 = bundlingType a).
  revert Hf. apply (foldM_inv (λ st, servedFlag st.1 = servedFlag a ∧ bundlingType st.1 = bundlingType a)); [done|].
  intros i [a1 s1] st2 _ [E1 E2] Hv. simpl in *. unfold visit in Hv. apply bind_Ok in Hv as ([] & _ & Hv); [by injection Hv as <-|].
  apply bind_Ok in Hv as ([[c|] s2] & _ & Hv); [|by injection Hv as <-].
  apply bind_Ok in Hv as ([] & _ & Hv); [|by injection Hv as <-].
  destruct (bpt_lt _ _); [|by injection Hv as <-]. apply bind_Ok in Hv as ([] & _ & Hv); [by injection Hv as <-|].
  apply bind_Ok in Hv as (f & _ & Hv). by injection Hv as <-.
Qed.

Lemma new_round_served a i :
  servedFlag (new_round a) !! i = Some false → servedFlag a !! i = Some true → concat (CASBuffer a) = [].
Proof.
  unfold new_round. simpl. destruct (forallb _ (CASBuffer a)) eqn:E; [intros _ _|congruence].
  induction (CASBuffer a) as [|f l IH]; [done|]. simpl in E. apply andb_true_iff in E as [Ef%bool_decide_eq_true El].
  simpl. by rewrite Ef, IH.
Qed.

Lemma new_round_type a ci :
  bundlingType (new_round a) ≠ bundlingType a → ci ∈ concat (CASBuffer a) → busPacketType ci.1 ≠ bundlingType a.
Proof.
  unfold new_round. simpl. destruct (_ && forallb _ _) eqn:E; [|done]. apply andb_true_iff in E as [_ E].
  intros _ Hin. apply list_elem_of_In, in_concat in Hin as (f & Hf & Hin). rewrite forallb_forall in E.
  specialize (E f Hf). rewrite forallb_forall in E. specialize (E ci Hin). unfold of_type in E.
  by apply negb_true_iff, bool_decide_eq_false in E.
Qed.

(** The rounds of [RankReOrder]: a column access that is sent has the type of
    the bundle; that type changes only when no buffered access has it; and a queue
    that was served gets its next access only in a new round, which begins when no
    access is buffered. *)
Theorem RankReOrder_rounds a s c a' s' :
  inv a s → commandSchedule a s = Ok (Some c, a', s') → bpt_lt (busPacketType c) ACT = true →
  busPacketType c = bundlingType a' ∧
  (bundlingType a' ≠ bundlingType a → ∀ ci, ci ∈ concat (CASBuffer a) → busPacketType ci.1 ≠ bundlingType a) ∧
  ∃ i, servedFlag a' !! i = Some true ∧ (servedFlag a !! i = Some true → concat (CASBuffer a) = []).
Proof.
  intros Hinv Hs Hcas. unfold commandSchedule in Hs. apply bind_Ok in Hs as ([a1 s1] & Hl & Hs).
  pose proof (loop_flags _ _ _ _ _ _ Hl) as [F1 F2].
  apply RankReOrder_loop_inv in Hl as [Hinv1 _].
  2: { apply new_round_inv. destruct Hinv as [H1 H2 H3]. split; [by apply pool_scheduled|done|done]. }
  apply bind_Ok in Hs as ([o a2] & Hch & Hs). apply choose_Ok in Hch as [(Ep & Es & Et) Hch]; [|exact Hinv1].
  destruct o as [[c' i]|]; [|done]. apply bind_Ok in Hs as (served & Hsv & Hs). apply bind_Ok in Hs as (p & _ & Hs).
  apply bind_Ok in Hs as (s2 & _ & Hs). injection Hs as -> <- _. simpl. rewrite Hcas in Hsv.
  apply vec_set_Ok in Hsv as [Hlt ->]. destruct Hch as [_ Hperm [(_ & Hty & Hin & _)|(Hty & _)]]; cbn [fst snd] in *; [|congruence].
  split; [by rewrite Et|]. rewrite Et, F2. split; [intros Hne ci Hci; by apply new_round_type|].
  exists i. split; [by apply list_lookup_insert_eq|]. apply new_round_served. rewrite <- F1.
  assert ((c, i) ∈ concat (CASBuffer a1)) as Hin1 by (rewrite Hin; left).
  by apply (in_cas _ _ Hinv1) in Hin1 as [_ ?].
Qed.
End RankReOrder.
End RankReOrder.

(** ** ReOrder *)
Module ReOrder.

Record ReOrder := mkReOrder {
  commandRegisters : fifo;
  servedFlags : list bool;
  queuePending : list bool;
  virChannelRegister : list bool;
  srtFIFO : fifo;
  bundlingType : BusPacketType;
  virMap : gmap Z nat;
}.

(** The constructor sets [virChannel] to 0. *)
Definition virChannel : nat := 0.
Definition ctor (queues : list CommandQueue) : ReOrder :=
  mkReOrder [] (replicate (length queues + virChannel) false) ((λ _, false) <$> queues)
    (replicate virChannel false) [] WR ∅.

Definition set_registers (r : fifo) (a : ReOrder) : ReOrder :=
  mkReOrder r (servedFlags a) (queuePending a) (virChannelRegister a) (srtFIFO a) (bundlingType a) (virMap a).
Definition set_srtFIFO (f : fifo) (a : ReOrder) : ReOrder :=
  mkReOrder (commandRegisters a) (servedFlags a) (queuePending a) (virChannelRegister a) f (bundlingType a) (virMap a).
Definition set_pending (p : list bool) (a : ReOrder) : ReOrder :=
  mkReOrder (commandRegisters a) (servedFlags a) p (virChannelRegister a) (srtFIFO a) (bundlingType a) (virMap a).
Definition set_round (t : BusPacketType) (served : list bool) (a : ReOrder) : ReOrder :=
  mkReOrder (commandRegisters a) served (queuePending a) (virChannelRegister a) (srtFIFO a) t (virMap a).
Definition set_channel (v : list bool) (m : gmap Z nat) (a : ReOrder) : ReOrder :=
  mkReOrder (commandRegisters a) (servedFlags a) (queuePending a) v (srtFIFO a) (bundlingType a) m.

(** What the loop over the registers finds out. *)
Record Round := mkRound { newRound : bool; newType : bool; newCAS : bool; haveCAS : bool }.

Section ReOrder.
Context {Dev : Type} `{MemoryDevice Dev}.
Implicit Types s : CommandScheduler Dev.

(** [requestorCriticalTable.at(id)] *)
Definition critical_at (id : Z) s : res bool := of_option OutOfRange (requestorCriticalTable s !! id).
(** [virMap[id]] *)
Definition channel_of (id : Z) (a : ReOrder) : nat := default 0%nat (virMap a !! id).

Definition visit (index : nat) (st : ReOrder * CommandScheduler Dev) : res (ReOrder * CommandScheduler Dev) :=
  let '(a, s) := st in
  q ← queue_at index s;
  if (0 <? cq_getSize true q)%nat || (0 <? cq_getSize false q)%nat then
    pending ← vec_at (queuePending a) index;
    if pending : bool then Ok (a, s)
    else
      cs ← next_command index s;
      match cs with
      | (None, s) => Ok (a, s)
      | (Some c, s) =>
          b ← isReady c index s;
          if b : bool then
            critical ← critical_at (bp_requestorID c) s;
            let a := set_pending (<[index := true]> (queuePending a)) a in
            Ok (if critical : bool then set_registers (commandRegisters a ++ [(c, Z.to_nat (u32 (bp_bank c)))]) a
                else set_srtFIFO (srtFIFO a ++ [(c, index)]) a, s)
          else Ok (a, s)
      end
  else Ok (a, s).

(** A free virtual channel takes the first noncritical command. *)
Definition fill_channel (queues : nat) (index : nat) (a : ReOrder) : res ReOrder :=
  busy ← vec_at (virChannelRegister a) index;
  Ok (match busy, srtFIFO a with
      | false, (c, i) :: f =>
          set_srtFIFO f
            (set_channel (<[index := true]> (virChannelRegister a)) (<[bp_requestorID c := (queues + index)%nat]> (virMap a))
              (set_registers (commandRegisters a ++ [(c, i)]) a))
      | _, _ => a
      end).

(** Whether the channel or the bank of an entry was served. *)
Definition is_served (a : ReOrder) s (ci : BusPacket * nat) : res bool :=
  critical ← critical_at (bp_requestorID ci.1) s;
  vec_at (servedFlags a) (if critical : bool then ci.2 else channel_of (bp_requestorID ci.1) a).

Definition check_register (a : ReOrder) s (ci : BusPacket * nat) (r : Round) : res (flow Round unit) :=
  if bpt_lt (busPacketType ci.1) ACT then
    served ← is_served a s ci;
    if served : bool then Ok (Next (mkRound (newRound r) (newType r) (newCAS r) true))
    else if bool_decide (busPacketType ci.1 = bundlingType a)
    then Ok (Stop (mkRound false false (newCAS r) true) tt)
    else Ok (Next (mkRound false (newType r) true true))
  else Ok (Next r).

Definition new_round (a : ReOrder) s : res ReOrder :=
  match commandRegisters a with
  | [] => Ok a
  | regs =>
      o ← forM regs (mkRound true true false false) (check_register a s);
      let r := after o in
      Ok (set_round
            (if haveCAS r && newType r && newCAS r then if bool_decide (bundlingType a = WR) then RD else WR
             else bundlingType a)
            (if newRound r then (λ _, false) <$> servedFlags a else servedFlags a) a)
  end.

(** The test of a column access. *)
Definition cas_test (a : ReOrder) s (ci : BusPacket * nat) : res bool :=
  critical ← critical_at (bp_requestorID ci.1) s;
  served ← vec_at (servedFlags a)
    (if critical : bool then Z.to_nat (u32 (bp_bank ci.1)) else channel_of (bp_requestorID ci.1) a);
  if negb served && bool_decide (busPacketType ci.1 = bundlingType a) then isIssuable ci.1 s else Ok false.
Definition type_test (t : BusPacketType) s (ci : BusPacket * nat) : res bool :=
  if bool_decide (busPacketType ci.1 = t) then isIssuable ci.1 s else Ok false.

Definition choose (a : ReOrder) s : res (option nat) :=
  k ← first_such (cas_test a s) (commandRegisters a);
  k ← (match k with None => first_such (type_test ACT s) (commandRegisters a) | _ => Ok k end);
  match k with None => first_such (type_test PRE s) (commandRegisters a) | _ => Ok k end.

(** Marks the served bank or channel. *)
Definition mark_served (c : BusPacket) (a : ReOrder) s : res ReOrder :=
  if bpt_lt (busPacketType c) ACT then
    critical ← critical_at (bp_requestorID c) s;
    l ← vec_set (servedFlags a) (if critical : bool then Z.to_nat (u32 (bp_bank c)) else channel_of (bp_requestorID c) a) true;
    Ok (set_round (bundlingType a) l a)
  else Ok a.

(** [virChannelRegister[virMap[id] - commandQueue.size()] = false], with the
    difference of unsigned numbers. *)
Definition free_channel (c : BusPacket) (a : ReOrder) s : res ReOrder :=
  critical ← critical_at (bp_requestorID c) s;
  if critical : bool then Ok a
  else
    if (channel_of (bp_requestorID c) a <? length (commandQueues s))%nat then Err Undefined
    else
      v ← vec_set (virChannelRegister a) (channel_of (bp_requestorID c) a - length (commandQueues s)) false;
      Ok (set_channel v (virMap a) a).

Definition send_register (k : nat) (a : ReOrder) s : res (option BusPacket * ReOrder * CommandScheduler Dev) :=
  ci ← vec_at (commandRegisters a) k;
  a ← mark_served ci.1 a s;
  p ← vec_set (queuePending a) ci.2 false;
  s ← send ci.1 ci.2 s;
  a ← free_channel ci.1 (set_pending p a) s;
  Ok (Some ci.1, set_registers (delete k (commandRegisters a)) a, s).

Definition send_srt (a : ReOrder) s : res (option BusPacket * ReOrder * CommandScheduler Dev) :=
  match commandRegisters a with
  | [] =>
      k ← first_such (λ ci, isIssuable ci.1 s) (srtFIFO a);
      match k with
      | Some k =>
          ci ← vec_at (srtFIFO a) k;
          s ← send ci.1 ci.2 s;
          p ← vec_set (queuePending a) ci.2 false;
          Ok (Some ci.1, set_srtFIFO (delete k (srtFIFO a)) (set_pending p a), s)
      | None => Ok (None, a, s)
      end
  | _ => Ok (None, a, s)
  end.

Definition commandSchedule (a : ReOrder) (s : CommandScheduler Dev)
    : res (option BusPacket * ReOrder * CommandScheduler Dev) :=
  let s := set_scheduledCommand None s in
  st ← foldM (seq 0 (length (commandQueues s))) (a, s) visit;
  let '(a, s) := st in
  a ← foldM (seq 0 (length (virChannelRegister a))) a (fill_channel (length (commandQueues s)));
  a ← new_round a s;
  k ← choose a s;
  match k with
  | Some k => send_register k a s
  | None => send_srt a s
  end.

(** *** The promise *)
Definition pool (a : ReOrder) : fifo := commandRegisters a ++ srtFIFO a.
Definition marked (a : ReOrder) (i : nat) : Prop := queuePending a !! i = Some true.
(** Queue [i] has the commands of bank [i], as for [RTMem]. *)
Definition inv (a : ReOrder) (s : CommandScheduler Dev) : Prop :=
  RTMem.inv tt s ∧ pool_inv snd false (marked a) (pool a) s.

Lemma peek_bank critical i s c s' :
  RTMem.inv tt s → peek critical i s = Ok (c, s') → Z.to_nat (u32 (bp_bank c)) = i.
Proof.
  intros [_ Hbank] (q & Hi & _ & l & Hl)%peek_Ok. apply (Hbank i q c Hi).
  destruct critical; rewrite Hl; apply elem_of_app; [left|right]; left.
Qed.

Lemma ReOrder_visit_inv i a s a' s' : inv a s → visit i (a, s) = Ok (a', s') → inv a' s' ∧ quiet s s'.
Proof.
  intros [Hr Hinv] Hv. unfold visit in Hv. apply bind_Ok in Hv as (q & _ & Hv).
  destruct (_ || _); [|by injection Hv as <- <-]. apply bind_Ok in Hv as (p & Hp%vec_at_Ok & Hv).
  destruct p; [by injection Hv as <- <-|]. apply bind_Ok in Hv as ([o s1] & Hn%next_command_Ok & Hv).
  destruct o as [c|]; [|subst; by injection Hv as <- <-]. destruct Hn as [critical Hpk].
  pose proof (peek_quiet _ _ _ _ _ Hpk) as Hq. pose proof (peek_bank _ _ _ _ _ Hr Hpk) as Hbk.
  pose proof (RTMem.quiet_inv _ _ Hr Hq) as Hr1.
  assert (pool_inv snd false (marked a) (pool a) s1) as Hinv1.
  { eapply pool_peek; [|exact Hpk|exact Hinv]. intros ci Hin E. destruct (pl_entry _ _ _ _ _ Hinv ci Hin) as [Hm _].
    unfold marked in Hm. rewrite E in Hm. congruence. }
  apply bind_Ok in Hv as (b & Hrd & Hv). destruct b; [|by injection Hv as <- <-].
  apply bind_Ok in Hv as (crit & _ & Hv). injection Hv as <- <-. split; [|done]. split; [done|].
  eapply (pool_enter snd false (marked a) _ (pool a) _ _ c i); [exact Hinv1| |unfold marked; simpl; by rewrite Hp|..].
  - split; [|exact Hrd]. pose proof (peek_Ok _ _ _ _ _ Hpk) as (q1 & Hi & _).
    apply (peek_front _ _ _ _ _ _ Hi (by_banks_kind _ _ _ (pl_kinds _ _ _ _ _ Hinv) Hi) Hpk).
  - unfold pool. destruct crit; simpl; rewrite ?Hbk; solve_Permutation.
  - intros k. unfold marked. destruct (decide (k = i)) as [->|]; [by rewrite Hp|]. destruct crit; simpl; by rewrite list_lookup_insert_ne.
  - unfold marked. destruct crit; simpl; apply list_lookup_insert_eq; by eapply lookup_lt_Some.
Qed.

Lemma ReOrder_loop_inv n k a s a' s' :
  inv a s → foldM (seq k n) (a, s) visit = Ok (a', s') → inv a' s' ∧ quiet s s'.
Proof.
  revert k a s. induction n as [|n IH]; intros k a s Hinv Hf; simpl in Hf; [by injection Hf as <- <-|].
  apply bind_Ok in Hf as ([a1 s1] & Hv & Hf). destruct (ReOrder_visit_inv _ _ _ _ _ Hinv Hv) as [H1 Hq1].
  destruct (IH _ _ _ H1 Hf) as [H2 Hq2]. split; [done|by etransitivity].
Qed.

Lemma fill_channel_inv n i a a' s : inv a s → fill_channel n i a = Ok a' → inv a' s.
Proof.
  intros [Hr Hinv] Hf. unfold fill_channel in Hf. apply bind_Ok in Hf as (b & _ & Hf). injection Hf as <-.
  destruct b; [done|]. destruct (srtFIFO a) as [|[c j] f] eqn:E; [done|]. split; [done|].
  eapply pool_perm; [|exact Hinv]. unfold pool. simpl. rewrite E. by rewrite <- app_assoc.
Qed.

Lemma new_round_same a s a' :
  new_round a s = Ok a' → commandRegisters a' = commandRegisters a ∧ srtFIFO a' = srtFIFO a ∧ queuePending a' = queuePending a.
Proof.
  unfold new_round. intros Hn. destruct (commandRegisters a) eqn:E; [by injection Hn as <-|].
  apply bind_Ok in Hn as (o & _ & Hn). injection Hn as <-. by rewrite <- E.
Qed.

Lemma choose_issuable a s k :
  choose a s = Ok (Some k) → ∃ c i, commandRegisters a !! k = Some (c, i) ∧ isIssuable c s = Ok true ∧
    (bpt_lt (busPacketType c) ACT = true → cas_test a s (c, i) = Ok true).
Proof.
  assert (∀ t k, bpt_lt t ACT = false → first_such (type_test t s) (commandRegisters a) = Ok (Some k) →
    ∃ c i, commandRegisters a !! k = Some (c, i) ∧ isIssuable c s = Ok true ∧
      (bpt_lt (busPacketType c) ACT = true → cas_test a s (c, i) = Ok true)) as Htype.
  { intros t j Ht ([c i] & Hj & Htest & _)%first_such_Some. exists c, i. split; [done|].
    unfold type_test in Htest. simpl in Htest. case_bool_decide as E; [|done]. split; [done|]. rewrite E. congruence. }
  unfold choose. intros Hc. apply bind_Ok in Hc as (k1 & H1 & Hc). apply bind_Ok in Hc as (k2 & H2 & Hc).
  destruct k2 as [k2|]; [injection Hc as ->|by apply (Htype PRE)].
  destruct k1 as [k1|]; [injection H2 as ->|by apply (Htype ACT)].
  apply first_such_Some in H1 as ([c i] & Hk & Htest & _). exists c, i. split_and!; [done| |done].
  unfold cas_test in Htest. apply bind_Ok in Htest as (cr & _ & Htest). apply bind_Ok in Htest as (sv & _ & Htest).
  by destruct (negb sv && _).
Qed.

Lemma mark_served_same c a s a' :
  mark_served c a s = Ok a' → commandRegisters a' = commandRegisters a ∧ srtFIFO a' = srtFIFO a ∧ queuePending a' = queuePending a.
Proof.
  unfold mark_served. intros Hm. destruct (bpt_lt _ _); [|by injection Hm as <-].
  apply bind_Ok in Hm as (cr & _ & Hm). apply bind_Ok in Hm as (l & _ & Hm). by injection Hm as <-.
Qed.

Lemma free_channel_same c a s a' :
  free_channel c a s = Ok a' → commandRegisters a' = commandRegisters a ∧ srtFIFO a' = srtFIFO a ∧
    queuePending a' = queuePending a ∧ servedFlags a' = servedFlags a.
Proof.
  unfold free_channel. intros Hm. apply bind_Ok in Hm as (cr & _ & Hm). destruct cr; [by injection Hm as <-|].
  destruct (_ <? _)%nat; [done|]. apply bind_Ok in Hm as (l & _ & Hm). by injection Hm as <-.
Qed.

(** Taking an entry out and sending it. *)
Lemma send_pool a a' s0 s c i s' :
  inv a s → quiet s0 s → pool a ≡ₚ (c, i) :: pool a' → isIssuable c s = Ok true → send c i s = Ok s' →
  queuePending a' = <[i := false]> (queuePending a) →
  inv a' s' ∧ issues s0 (Some (i, c)) s'.
Proof.
  intros [Hr Hinv] Hq E Hi Hs Ep.
  assert (at_front i c s) as Hf by (apply (pl_entry _ _ _ _ _ Hinv (c, i)); rewrite E; left).
  edestruct (pool_send snd false queue_apart (marked a) (marked a') (pool a) (pool a') s0 s c i s') as [Hp Hiss];
    [exact Hinv|exact Hq|exact E|exact Hi|exact Hs| |].
  - simpl. intros k Hne. unfold marked. rewrite Ep. by rewrite list_lookup_insert_ne by (by apply not_eq_sym).
  - split; [|exact Hiss]. split; [|exact Hp]. eapply RTMem.send_inv; [exact Hr|reflexivity|exact Hf|exact Hs].
Qed.

Lemma ReOrder_schedule a s r a' s' :
  Forall cq_wf (commandQueues s) → inv a s → commandSchedule a s = Ok (r, a', s') →
  inv a' s' ∧ ∃ ic, snd <$> ic = r ∧ issues s ic s'.
Proof.
  intros _ Hinv Hs. unfold commandSchedule in Hs. apply bind_Ok in Hs as ([a1 s1] & Hl & Hs).
  assert (inv a (set_scheduledCommand None s)) as Hinv0.
  { destruct Hinv as [H1 H2]. split; [by eapply RTMem.quiet_inv, quiet_scheduled|by apply pool_scheduled]. }
  apply ReOrder_loop_inv in Hl as [Hinv1 Hq]; [|exact Hinv0].
  assert (quiet s s1) as Hq1 by (etransitivity; [apply quiet_scheduled|exact Hq]).
  apply bind_Ok in Hs as (a2 & Hfill & Hs). apply bind_Ok in Hs as (a3 & Hround & Hs).
  assert (inv a3 s1) as Hinv3.
  { apply new_round_same in Hround as (E1 & E2 & E3).
    assert (inv a2 s1) as [H1 H2] by (eapply (foldM_inv (λ a, inv a s1)); [exact Hinv1| |exact Hfill]; intros; by eapply fill_channel_inv).
    split; [done|]. unfold pool, marked. rewrite E1, E2, E3. exact H2. }
  apply bind_Ok in Hs as ([k|] & Hk & Hs).
  - apply choose_issuable in Hk as (c & i & Hk & Hi & _). unfold send_register, vec_at in Hs. rewrite Hk in Hs. cbn [of_option mbind res_bind fst snd] in Hs.
    apply bind_Ok in Hs as (a4 & (E1 & E2 & E3)%mark_served_same & Hs). apply bind_Ok in Hs as (p & [_ ->]%vec_set_Ok & Hs).
    apply bind_Ok in Hs as (s2 & Hsend & Hs). apply bind_Ok in Hs as (a5 & (F1 & F2 & F3 & _)%free_channel_same & Hs).
    injection Hs as <- <- <-. simpl in F1, F2, F3.
    edestruct (send_pool a3 (set_registers (delete k (commandRegisters a5)) a5)) as [Hp Hiss];
      [exact Hinv3|exact Hq1| |exact Hi|exact Hsend| |split; [exact Hp|by exists (Some (i, c))]].
    + unfold pool. simpl. rewrite F1, F2, E1, E2. by rewrite (entry_perm _ _ _ Hk) at 1.
    + simpl. by rewrite F3, E3.
  - unfold send_srt in Hs. destruct (commandRegisters a3) as [|x l] eqn:Er.
    + apply bind_Ok in Hs as ([k|] & Hkk & Hs).
      * apply first_such_Some in Hkk as ([c i] & Hk' & Hi & _). unfold vec_at in Hs. rewrite Hk' in Hs. cbn [of_option mbind res_bind fst snd] in Hs.
        apply bind_Ok in Hs as (s2 & Hsend & Hs). apply bind_Ok in Hs as (p & [_ ->]%vec_set_Ok & Hs). injection Hs as <- <- <-.
        edestruct (send_pool a3) as [Hp Hiss]; [exact Hinv3|exact Hq1| |exact Hi|exact Hsend| |split; [exact Hp|by exists (Some (i, c))]]; [|done].
        unfold pool. simpl. rewrite Er. simpl. by apply entry_perm.
      * injection Hs as <- <- <-. split; [exact Hinv3|]. exists None. split; [done|by constructor].
    + injection Hs as <- <- <-. split; [exact Hinv3|]. exists None. split; [done|by constructor].
Qed.

#[export] Instance scheduling : CommandScheduling Dev ReOrder := {| CmdAlg.commandSchedule := commandSchedule |}.
#[export] Program Instance algorithm : CommandAlgorithm Dev ReOrder := {|
  alg_accepts := RTMem.accepts; alg_inv := inv;
  schedule_issues := ReOrder_schedule |}.
Next Obligation.
  intros a s s' [H1 H2] Hg. split; [|by eapply pool_grows].
  exact (keep_inv (CommandAlgorithm := RTMem.algorithm) tt s s' H1 Hg).
Qed.

(** *** Rounds *)
Definition kept (st st' : ReOrder * CommandScheduler Dev) : Prop :=
  (∃ new, commandRegisters st'.1 = commandRegisters st.1 ++ new) ∧ servedFlags st'.1 = servedFlags st.1 ∧
  requestorCriticalTable st'.2 = requestorCriticalTable st.2.

Lemma kept_trans st1 st2 st3 : kept st1 st2 → kept st2 st3 → kept st1 st3.
Proof.
  intros ([l1 E1] & F1 & G1) ([l2 E2] & F2 & G2). split; [|split; congruence].
  exists (l1 ++ l2). by rewrite E2, E1, app_assoc.
Qed.

Lemma kept_same a s a' s' :
  commandRegisters a' = commandRegisters a → servedFlags a' = servedFlags a →
  requestorCriticalTable s' = requestorCriticalTable s → kept (a, s) (a', s').
Proof. intros E1 E2 E3. split; [|done]. exists []. by rewrite app_nil_r. Qed.

Lemma visit_kept i st st' : visit i st = Ok st' → kept st st'.
Proof.
  destruct st as [a s]. intros Hv. unfold visit in Hv. apply bind_Ok in Hv as (q & _ & Hv).
  destruct (_ || _); [|injection Hv as <-; by apply kept_same].
  apply bind_Ok in Hv as ([] & _ & Hv); [injection Hv as <-; by apply kept_same|].
  apply bind_Ok in Hv as ([[c|] s1] & Hn%next_command_Ok & Hv); [|subst; injection Hv as <-; by apply kept_same].
  assert (requestorCriticalTable s1 = requestorCriticalTable s) as Et
    by (destruct Hn as [cr (q1 & _ & -> & _)%peek_Ok]; done).
  apply bind_Ok in Hv as ([] & _ & Hv); [|injection Hv as <-; by apply kept_same].
  apply bind_Ok in Hv as ([] & _ & Hv); injection Hv as <-; [|by apply kept_same].
  split; [by eexists|done].
Qed.

Lemma fill_kept n i a a' s : fill_channel n i a = Ok a' → kept (a, s) (a', s).
Proof.
  intros Hf. unfold fill_channel in Hf. apply bind_Ok in Hf as (b & _ & Hf). injection Hf as <-.
  destruct b; [by apply kept_same|]. destruct (srtFIFO a) as [|[c j] f]; [by apply kept_same|].
  split; [by eexists|done].
Qed.

Lemma check_all a s regs r o :
  forM regs r (check_register a s) = Ok o → newRound (after o) = true →
  newRound r = true ∧ ∀ ci, ci ∈ regs → bpt_lt (busPacketType ci.1) ACT = true → is_served a s ci = Ok true.
Proof.
  revert r. induction regs as [|x l IH]; intros r Hf Hn.
  - injection Hf as <-. split; [done|]. by intros ci ?%not_elem_of_nil.
  - cbn [forM] in Hf. apply bind_Ok in Hf as (o1 & Ho & Hf). unfold check_register in Ho.
    destruct (bpt_lt (busPacketType x.1) ACT) eqn:Hty.
    + apply bind_Ok in Ho as ([] & Hsv & Ho).
      * injection Ho as <-. destruct (IH _ Hf Hn) as [H1 H2]. split; [exact H1|].
        intros ci [->|Hin]%elem_of_cons; [done|by apply H2].
      * case_bool_decide; injection Ho as <-; [by injection Hf as <-|].
        destruct (IH _ Hf Hn) as [H1 _]. done.
    + injection Ho as <-. destruct (IH _ Hf Hn) as [H1 H2]. split; [exact H1|].
      intros ci [->|Hin]%elem_of_cons; [congruence|by apply H2].
Qed.

(** Flags go back to [false] only when every registered access was served. *)
Lemma new_round_flags a s a' i :
  new_round a s = Ok a' → servedFlags a !! i = Some true → servedFlags a' !! i = Some false →
  ∀ ci, ci ∈ commandRegisters a → bpt_lt (busPacketType ci.1) ACT = true → is_served a s ci = Ok true.
Proof.
  unfold new_round. intros Hn H1 H0. destruct (commandRegisters a) as [|x l]; [injection Hn as <-; congruence|].
  apply bind_Ok in Hn as (o & Ho & Hn). injection Hn as <-. simpl in H0.
  destruct (newRound (after o)) eqn:E; [|congruence]. by eapply check_all in Ho as [_ Ho].
Qed.

(** The rounds of [ReOrder] are fair: a bank whose flag says that it was served
    in this round gets a second column access only when no registered access of a
    critical requestor is left of a bank that was not served. *)
Theorem ReOrder_fair a s c a' s' :
  commandSchedule a s = Ok (Some c, a', s') → bpt_lt (busPacketType c) ACT = true →
  requestorCriticalTable s !! bp_requestorID c = Some true →
  servedFlags a !! Z.to_nat (u32 (bp_bank c)) = Some true →
  ∀ c2 b2, (c2, b2) ∈ commandRegisters a → bpt_lt (busPacketType c2) ACT = true →
    requestorCriticalTable s !! bp_requestorID c2 = Some true → servedFlags a !! b2 = Some true.
Proof.
  intros Hs Hcas Hcr Hflag c2 b2 Hin Hcas2 Hcr2. unfold commandSchedule in Hs.
  apply bind_Ok in Hs as ([a1 s1] & Hl & Hs). apply bind_Ok in Hs as (a2 & Hfill & Hs).
  assert (kept (a, set_scheduledCommand None s) (a2, s1)) as ([new En] & Ef & Et).
  { apply (kept_trans _ (a1, s1)).
    - eapply (foldM_inv (kept (a, set_scheduledCommand None s))); [by apply kept_same| |exact Hl].
      intros i st1 st2 _ H1 Hv. eapply kept_trans; [exact H1|by eapply visit_kept].
    - eapply (foldM_inv (λ a2, kept (a1, s1) (a2, s1))); [by apply kept_same| |exact Hfill].
      intros i a3 a4 _ H1 Hv. eapply kept_trans; [exact H1|by eapply fill_kept]. }
  simpl in En, Ef, Et. apply bind_Ok in Hs as (a3 & Hround & Hs). pose proof (new_round_same _ _ _ Hround) as (R1 & _).
  apply bind_Ok in Hs as ([k|] & Hk & Hs).
  - apply choose_issuable in Hk as (c' & i & Hk & _ & Htest). unfold send_register, vec_at in Hs. rewrite Hk in Hs.
    cbn [of_option mbind res_bind fst snd] in Hs. apply bind_Ok in Hs as (a4 & _ & Hs). apply bind_Ok in Hs as (p & _ & Hs).
    apply bind_Ok in Hs as (s2 & _ & Hs). apply bind_Ok in Hs as (a5 & _ & Hs). injection Hs as -> _ _.
    specialize (Htest Hcas). unfold cas_test, critical_at in Htest. simpl in Htest. rewrite Et, Hcr in Htest. simpl in Htest.
    apply bind_Ok in Htest as ([] & Hsv%vec_at_Ok & Htest); [done|].
    assert (is_served a2 s1 (c2, b2) = Ok true) as Hserved.
    { eapply new_round_flags; [exact Hround|by rewrite Ef|exact Hsv| |done]. rewrite En. apply elem_of_app. by left. }
    unfold is_served, critical_at in Hserved. simpl in Hserved. rewrite Et, Hcr2 in Hserved. simpl in Hserved.
    apply vec_at_Ok in Hserved. by rewrite <- Ef.
  - exfalso. unfold send_srt in Hs. rewrite R1, En in Hs. destruct (commandRegisters a); [by apply not_elem_of_nil in Hin|done].
Qed.
End ReOrder.
End ReOrder.

(** ** Witnesses *)

Definition wit_bundle_s : CommandScheduler Device :=
  CommandScheduler_ctor true 0 [wit_bank_queue wit_late_read] (<[2 := true]> ∅) wit_dev0.

Lemma RankReOrder_rounds_witness :
  ∃ a' s', RankReOrder.commandSchedule (RankReOrder.ctor [wit_bank_queue wit_late_read]) wit_bundle_s
    = Ok (Some wit_late_read, a', s') ∧
  RD = RankReOrder.bundlingType a' ∧ ∃ i, RankReOrder.servedFlag a' !! i = Some true.
Proof.
  set (call := RankReOrder.commandSchedule (RankReOrder.ctor [wit_bank_queue wit_late_read]) wit_bundle_s).
  assert (match call with Ok (Some c, _, _) => bool_decide (c = wit_late_read) | _ => false end = true) as H
    by (vm_compute; reflexivity).
  destruct call as [[[[c|] a'] s']|] eqn:Hs; [|discriminate H|discriminate H].
  apply bool_decide_eq_true in H. subst c. exists a', s'. split; [reflexivity|].
  destruct (RankReOrder.RankReOrder_rounds (RankReOrder.ctor [wit_bank_queue wit_late_read]) wit_bundle_s wit_late_read a' s')
    as (Hty & _ & i & Hi & _).
  - apply RankReOrder.RankReOrder_ctor_inv. constructor; [reflexivity|constructor].
  - exact Hs.
  - reflexivity.
  - split; [exact Hty|]. exists i. exact Hi.
Defined.

(** A read of bank 0 that waits in the registers, after the bank was served. *)
Definition wit_bank0_read : BusPacket := new_BusPacket RD 2 64 0 0 0 0 0 0 9.
Definition wit_round : ReOrder.ReOrder :=
  ReOrder.mkReOrder [(wit_bank0_read, 0%nat)] [true] [true] [] [] RD ∅.
Definition wit_round_s : CommandScheduler Device :=
  CommandScheduler_ctor true 0 [wit_bank_queue wit_bank0_read] (<[2 := true]> ∅) wit_dev0.

Lemma ReOrder_fair_witness : ReOrder.servedFlags wit_round !! 0%nat = Some true.
Proof.
  set (call := ReOrder.commandSchedule wit_round wit_round_s).
  assert (match call with Ok (Some c, _, _) => bool_decide (c = wit_bank0_read) | _ => false end = true) as H
    by (vm_compute; reflexivity).
  destruct call as [[[[c|] a'] s']|] eqn:Hs; [|discriminate H|discriminate H].
  apply bool_decide_eq_true in H. subst c.
  apply (ReOrder.ReOrder_fair wit_round wit_round_s wit_bank0_read a' s' Hs) with (c2 := wit_bank0_read).
  - reflexivity.
  - reflexivity.
  - reflexivity.
  - left.
  - reflexivity.
  - reflexivity.
Defined.
