(* ===== verification/PipeAlgo.v ===== *)
(** * The PipeCAS command scheduler

    [CommandScheduler_PIPECAS] (src/system/PipeCAS/CommandScheduler_PIPECAS.h)
    serves critical commands in rounds: a snapshot of the queues with accesses of
    the type of the round is taken, and every one of them is served once; column
    accesses of noncritical commands go in between until a stop point
    ([casCounter]), activates are spaced by [actCounter]. Ready commands wait in
    five FIFOs, a pool in the sense of Pool.v.

    Main results: it keeps the promise of the interface; the stop point in closed
    form, without a wrap-around for the sizes a round can have, and undefined for a
    round without an access. *)
From S2P Require Import Prelude Types KeyedBuf CmdQueue DRAM DDR3 Device Refresh CmdSched CmdAlg CmdAlgos Pool.

Record PIPECAS := mkPIPECAS {
  roundType : BusPacketType;
  roundSRT : BusPacketType;
  srtNum_ACT : Z;
  roundStart : bool;
  prevCAS : BusPacketType;
  casCounter : Z;
  actCounter : Z;
  fawCounter : list Z;
  queueScheduled : list nat;
  queueServed : list bool;
  hrtCAS : fifo;
  hrtACT : fifo;
  queuePending : list bool;
  srtCAS : fifo;
  srtACT : fifo;
  srtPRE : fifo;
  srtRD : Z;
  srtWR : Z;
}.

(** [rd] and [wr] are the memory of [srtRD] and [srtWR], which the constructor
    leaves unset. *)
Definition ctor (rd wr : Z) (queues : list CommandQueue) : PIPECAS :=
  mkPIPECAS RDA RD 0 false WRA 0 0 [] [] ((λ _, false) <$> queues) [] [] ((λ _, false) <$> queues) [] [] [] rd wr.

Definition set_rounds (t st : BusPacketType) (n : Z) (start : bool) (a : PIPECAS) : PIPECAS :=
  mkPIPECAS t st n start (prevCAS a) (casCounter a) (actCounter a) (fawCounter a) (queueScheduled a)
    (queueServed a) (hrtCAS a) (hrtACT a) (queuePending a) (srtCAS a) (srtACT a) (srtPRE a) (srtRD a) (srtWR a).
Definition set_queues (sch : list nat) (sv pend : list bool) (a : PIPECAS) : PIPECAS :=
  mkPIPECAS (roundType a) (roundSRT a) (srtNum_ACT a) (roundStart a) (prevCAS a) (casCounter a) (actCounter a)
    (fawCounter a) sch sv (hrtCAS a) (hrtACT a) pend (srtCAS a) (srtACT a) (srtPRE a) (srtRD a) (srtWR a).
Definition set_hrt (cas act : fifo) (a : PIPECAS) : PIPECAS :=
  mkPIPECAS (roundType a) (roundSRT a) (srtNum_ACT a) (roundStart a) (prevCAS a) (casCounter a) (actCounter a)
    (fawCounter a) (queueScheduled a) (queueServed a) cas act (queuePending a) (srtCAS a) (srtACT a) (srtPRE a)
    (srtRD a) (srtWR a).
Definition set_srt (cas act pre : fifo) (a : PIPECAS) : PIPECAS :=
  mkPIPECAS (roundType a) (roundSRT a) (srtNum_ACT a) (roundStart a) (prevCAS a) (casCounter a) (actCounter a)
    (fawCounter a) (queueScheduled a) (queueServed a) (hrtCAS a) (hrtACT a) (queuePending a) cas act pre
    (srtRD a) (srtWR a).
Definition set_counters (cas act : Z) (faw : list Z) (a : PIPECAS) : PIPECAS :=
  mkPIPECAS (roundType a) (roundSRT a) (srtNum_ACT a) (roundStart a) (prevCAS a) cas act faw
    (queueScheduled a) (queueServed a) (hrtCAS a) (hrtACT a) (queuePending a) (srtCAS a) (srtACT a) (srtPRE a)
    (srtRD a) (srtWR a).
Definition set_accesses (prev : BusPacketType) (rd wr : Z) (a : PIPECAS) : PIPECAS :=
  mkPIPECAS (roundType a) (roundSRT a) (srtNum_ACT a) (roundStart a) prev (casCounter a) (actCounter a)
    (fawCounter a) (queueScheduled a) (queueServed a) (hrtCAS a) (hrtACT a) (queuePending a) (srtCAS a) (srtACT a)
    (srtPRE a) rd wr.

(** ** The stop point *)

(** [exeACT]: a product of unsigned numbers and a double, whose sum is converted
    back to [unsigned], which is undefined for a value that does not fit. [ceil]
    is applied to an integer quotient. *)
Definition exeACT (num : Z) : res Z :=
  let n := u32 (num - 1) in
  let x := u32 (5 * n) + n / 4 * 4 in
  if bool_decide (x < 2 ^ 32) then Ok x else Err Undefined.

Definition tCAS_SRT (read : bool) (num srtNum : Z) : res Z :=
  x ← exeACT num;
  y ← exeACT (u32 (num + srtNum));
  let first := Z.max 0 (i32 (u32 ((if read then 15 else 21) - u32 (4 * u32 (num - 1))))) in
  Ok (u32 (Z.max (u32 (first + x)) y + 9 - u32 (u32 (5 * u32 (num - 1)) + 4))).

Section PIPECAS.
Context {Dev : Type} `{MemoryDevice Dev}.
Implicit Types s : CommandScheduler Dev.

(** ** Choosing *)

(** What a choice leaves: the chosen command with its queue. *)
Definition choice : Type := option (BusPacket * nat) * PIPECAS.

Definition or_else (o : choice) (f : PIPECAS → res choice) : res choice :=
  match o with (None, a) => f a | _ => Ok o end.

Definition schedule_HRT_ACT s (a : PIPECAS) : res choice :=
  match hrtACT a with
  | [] => Ok (None, a)
  | ci :: f => b ← isIssuable ci.1 s; Ok (if b : bool then (Some ci, set_hrt (hrtCAS a) f a) else (None, a))
  end.

Definition schedule_HRT_CAS s (a : PIPECAS) : res choice :=
  match hrtCAS a with
  | [] => Ok (None, a)
  | ci :: f =>
      b ← isIssuable ci.1 s;
      if b : bool then
        sv ← vec_set (queueServed a) ci.2 true;
        Ok (Some ci, set_queues (queueScheduled a) sv (queuePending a) (set_hrt f (hrtACT a) a))
      else Ok (None, a)
  end.

Definition schedule_SRT_ACT s (a : PIPECAS) : res choice :=
  match srtACT a with
  | [] => Ok (None, a)
  | ci :: f => b ← isIssuable ci.1 s; Ok (if b : bool then (Some ci, set_srt (srtCAS a) f (srtPRE a) a) else (None, a))
  end.

Definition schedule_SRT_CAS s (a : PIPECAS) : res choice :=
  k ← first_such (λ ci, b ← isIssuable ci.1 s; Ok (b && bool_decide (busPacketType ci.1 = roundSRT a))) (srtCAS a);
  match k with
  | Some k => ci ← vec_at (srtCAS a) k; Ok (Some ci, set_srt (delete k (srtCAS a)) (srtACT a) (srtPRE a) a)
  | None => Ok (None, a)
  end.

Definition schedule_SRT_PRE s (a : PIPECAS) : res choice :=
  match srtPRE a with
  | [] => Ok (None, a)
  | ci :: f => b ← isIssuable ci.1 s; Ok (if b : bool then (Some ci, set_srt (srtCAS a) (srtACT a) f a) else (None, a))
  end.

(** ** Filling the FIFOs *)

Definition mark (index : nat) (a : PIPECAS) : PIPECAS :=
  set_queues (queueScheduled a) (queueServed a) (<[index := true]> (queuePending a)) a.

(** [!queuePending[index] && commandQueue[index]->getSize(critical) > 0] *)
Definition free_with (critical : bool) (index : nat) (a : PIPECAS) s : res bool :=
  pending ← vec_at (queuePending a) index;
  if pending : bool then Ok false
  else q ← queue_at index s; Ok (0 <? cq_getSize critical q)%nat.

(** The first loop: noncritical commands. *)
Definition visit_srt (index : nat) (st : PIPECAS * CommandScheduler Dev) : res (PIPECAS * CommandScheduler Dev) :=
  let '(a, s) := st in
  free ← free_with false index a s;
  if free : bool then
    cs ← peek false index s;
    let '(c, s) := cs in
    b ← isReady c index s;
    if b : bool then
      let a := mark index a in
      let ci := (c, index) in
      Ok (if bool_decide (busPacketType c = ACT) then set_srt (srtCAS a) (srtACT a ++ [ci]) (srtPRE a) a
          else if bpt_lt (busPacketType c) ACT then set_srt (srtCAS a ++ [ci]) (srtACT a) (srtPRE a) a
          else set_srt (srtCAS a) (srtACT a) (srtPRE a ++ [ci]) a, s)
    else Ok (a, s)
  else Ok (a, s).

(** The type of the next round: the first access of a queue that has another type
    than the access before; the last queue with one decides. *)
Definition round_of_queue s (index : nat) (a : PIPECAS) : res PIPECAS :=
  free ← free_with true index a s;
  if free : bool then
    q ← queue_at index s;
    Ok (set_rounds
          (match list_find (λ c, bpt_lt (busPacketType c) ACT && negb (bool_decide (busPacketType c = prevCAS a))) (hrtBuffer q) with
           | Some (_, c) => busPacketType c
           | None => roundType a
           end) (roundSRT a) (srtNum_ACT a) true a)
  else Ok a.

(** The snapshot: a queue is noted once per access of the type of the round. *)
Definition snapshot_queue s (index : nat) (a : PIPECAS) : res PIPECAS :=
  free ← free_with true index a s;
  if free : bool then
    q ← queue_at index s;
    Ok (set_queues (queueScheduled a ++ ((λ _, index) <$> filter (λ c, busPacketType c = roundType a) (hrtBuffer q)))
          (queueServed a) (queuePending a) a)
  else Ok a.

Definition start_round s (a : PIPECAS) : res choice :=
  let a := set_accesses (prevCAS a) 0 0
             (set_rounds (roundType a) (if bool_decide (roundType a = RDA) then RD else WR) 0 (roundStart a) a) in
  if bool_decide (actCounter a = 0) then
    a ← foldM (seq 0 (length (commandQueues s))) a (snapshot_queue s);
    n ← tCAS_SRT (bool_decide (roundType a = RDA)) (u32 (Z.of_nat (length (queueScheduled a)))) (srtNum_ACT a);
    Ok (None, set_counters n (actCounter a) (fawCounter a) a)
  else
    o ← schedule_SRT_CAS s a;
    or_else o (schedule_SRT_PRE s).

(** A scheduled queue that is neither served nor pending. A precharge is marked
    and noted nowhere. *)
Definition visit_hrt (index : nat) (st : PIPECAS * CommandScheduler Dev) : res (PIPECAS * CommandScheduler Dev) :=
  let '(a, s) := st in
  pending ← vec_at (queuePending a) index;
  served ← (if pending : bool then Ok true else vec_at (queueServed a) index);
  if served : bool then Ok (a, s)
  else
    cs ← peek true index s;
    let '(c, s) := cs in
    b ← isReady c index s;
    if b : bool then
      let a := mark index a in
      let ci := (c, index) in
      Ok (if bool_decide (busPacketType c = ACT) then set_hrt (hrtCAS a) (hrtACT a ++ [ci]) a
          else if bpt_lt (busPacketType c) ACT then set_hrt (hrtCAS a ++ [ci]) (hrtACT a) a
          else a, s)
    else Ok (a, s).

(** ** A round *)
Definition round_ACT s (a : PIPECAS) : res choice :=
  if bool_decide (0 < srtNum_ACT a) then
    if bool_decide (actCounter a = 0) then
      o ← schedule_SRT_ACT s (set_rounds (roundType a) (roundSRT a) (srtNum_ACT a - 1) (roundStart a) a);
      or_else o (schedule_HRT_ACT s)
    else Ok (None, a)
  else schedule_HRT_ACT s a.

Definition round_CAS s (a : PIPECAS) : res choice :=
  if bool_decide (0 < casCounter a) then
    o ← schedule_SRT_CAS s a;
    or_else o (schedule_HRT_CAS s)
  else schedule_HRT_CAS s a.

(** The round is over when all scheduled queues are served. *)
Definition close_round (a : PIPECAS) : res PIPECAS :=
  flags ← foldM (queueScheduled a) true (λ i all, b ← (if all : bool then vec_at (queueServed a) i else Ok true);
                                                   Ok (all && b));
  Ok (if flags : bool then
        set_queues [] ((λ _, false) <$> queueServed a) (queuePending a)
          (set_rounds (roundType a) (roundSRT a) (srtNum_ACT a) false a)
      else a).

Definition run_round (a : PIPECAS) s : res (choice * CommandScheduler Dev) :=
  st ← foldM (queueScheduled a) (a, s) visit_hrt;
  let '(a, s) := st in
  o ← round_ACT s a;
  o ← or_else o (round_CAS s);
  o ← or_else o (schedule_SRT_PRE s);
  a ← close_round o.2;
  Ok ((o.1, a), s).

(** Outside a round: noncritical commands, ten accesses of a type at a time. *)
Definition out_of_round s (a : PIPECAS) : res choice :=
  let a := if bool_decide (srtRD a = 10)
           then set_accesses (prevCAS a) 0 (srtWR a) (set_rounds (roundType a) WR (srtNum_ACT a) (roundStart a) a) else a in
  let a := if bool_decide (srtWR a = 10)
           then set_accesses (prevCAS a) (srtRD a) 0 (set_rounds (roundType a) RD (srtNum_ACT a) (roundStart a) a) else a in
  o ← schedule_SRT_CAS s a;
  o ← or_else o (schedule_SRT_ACT s);
  or_else o (schedule_SRT_PRE s).

(** ** After the choice *)
Definition note_sent (c : BusPacket) (d : Dev) (a : PIPECAS) : PIPECAS :=
  if bool_decide (busPacketType c = ACT) then
    let act := getTiming "tRRD" d in
    let faw := fawCounter a ++ [getTiming "tFAW" d] in
    set_counters (casCounter a)
      (if bool_decide (length faw = 4%nat) then Z.max act (default 0 (head faw)) else act) faw a
  else if bpt_lt (busPacketType c) ACT then
    if bool_decide (busPacketType c = RDA) || bool_decide (busPacketType c = RD) then
      set_accesses RDA
        (if bool_decide (busPacketType c = RD) && negb (roundStart a) then u32 (srtRD a + 1) else srtRD a) (srtWR a) a
    else
      set_accesses WRA (srtRD a)
        (if bool_decide (busPacketType c = WR) && negb (roundStart a) then u32 (srtWR a + 1) else srtWR a) a
  else a.

Definition count_down (x : Z) : Z := if bool_decide (0 < x) then x - 1 else x.

Definition count_cycle (a : PIPECAS) : PIPECAS :=
  let faw := (λ x, u32 (x - 1)) <$> fawCounter a in
  set_counters (count_down (casCounter a)) (count_down (actCounter a))
    (match faw with x :: l => if bool_decide (x = 0) then l else faw | [] => faw end) a.

Definition pick (a : PIPECAS) s : res (choice * CommandScheduler Dev) :=
  let a := set_rounds (prevCAS a) (roundSRT a) (srtNum_ACT a) (roundStart a) a in
  a ← (if bool_decide (queueScheduled a = []) then foldM (seq 0 (length (commandQueues s))) a (round_of_queue s) else Ok a);
  o ← (if roundStart a && bool_decide (queueScheduled a = []) then start_round s a else Ok (None, a));
  os ← (if bool_decide (queueScheduled o.2 = []) then Ok (o, s) else run_round o.2 s);
  let '((c, a), s) := os in
  o ← (match c with
       | None => if bool_decide (queueScheduled a = []) && negb (roundStart a) then out_of_round s a else Ok (None, a)
       | Some _ => Ok (c, a)
       end);
  Ok (o, s).

Definition commandSchedule (a : PIPECAS) (s : CommandScheduler Dev)
    : res (option BusPacket * PIPECAS * CommandScheduler Dev) :=
  let s := set_scheduledCommand None s in
  st ← foldM (seq 0 (length (commandQueues s))) (a, s) visit_srt;
  os ← pick st.1 st.2;
  let '((o, a), s) := os in
  match o with
  | Some (c, i) =>
      s ← send c i s;
      p ← vec_set (queuePending a) i false;
      let a := set_queues (queueScheduled a) (queueServed a) p a in
      Ok (Some c, count_cycle (note_sent c (memoryDevice s) a), s)
  | None => Ok (None, count_cycle a, s)
  end.

(** ** The promise *)
Definition pool (a : PIPECAS) : fifo := hrtCAS a ++ hrtACT a ++ srtCAS a ++ srtACT a ++ srtPRE a.
Definition marked (a : PIPECAS) (i : nat) : Prop := queuePending a !! i = Some true.
Definition inv (a : PIPECAS) (s : CommandScheduler Dev) : Prop := pool_inv snd false (marked a) (pool a) s.

(** A choice takes its command out of the pool and changes nothing else of it. *)
Definition chosen s (a : PIPECAS) (o : choice) : Prop :=
  queuePending o.2 = queuePending a ∧
  match o.1 with
  | Some ci => isIssuable ci.1 s = Ok true ∧ pool a ≡ₚ ci :: pool o.2
  | None => pool o.2 ≡ₚ pool a
  end.

Lemma chosen_none s a : chosen s a (None, a).
Proof. split; [done|]. simpl. reflexivity. Qed.

Lemma chosen_same s a a' : queuePending a' = queuePending a → pool a' = pool a → chosen s a (None, a').
Proof. intros E1 E2. split; [done|]. simpl. by rewrite E2. Qed.

Lemma chosen_after s a a' o : chosen s a (None, a') → chosen s a' o → chosen s a o.
Proof.
  intros [E1 P1] [E2 P2]. simpl in *. split; [congruence|].
  destruct o as [[ci|] a2]; simpl in *; [|by rewrite P2]. by rewrite <- P1.
Qed.

Lemma chosen_or_else s a o f o' :
  chosen s a o → (∀ a' o', f a' = Ok o' → chosen s a' o') → or_else o f = Ok o' → chosen s a o'.
Proof.
  intros Hc Hf Ho. destruct o as [[ci|] a1]; simpl in Ho; [by injection Ho as <-|].
  eapply chosen_after; [exact Hc|by apply Hf].
Qed.

Ltac pick_front Hs :=
  apply bind_Ok in Hs as ([] & Hi & Hs); injection Hs as <-; [|by apply chosen_none];
  split; [done|]; split; [exact Hi|].

Lemma HRT_ACT_chosen s a o : schedule_HRT_ACT s a = Ok o → chosen s a o.
Proof.
  unfold schedule_HRT_ACT. intros Hs. destruct (hrtACT a) as [|ci f] eqn:E; [injection Hs as <-; by apply chosen_none|].
  pick_front Hs. unfold pool. simpl. rewrite E. solve_Permutation.
Qed.

Lemma HRT_CAS_chosen s a o : schedule_HRT_CAS s a = Ok o → chosen s a o.
Proof.
  unfold schedule_HRT_CAS. intros Hs. destruct (hrtCAS a) as [|ci f] eqn:E; [injection Hs as <-; by apply chosen_none|].
  apply bind_Ok in Hs as ([] & Hi & Hs); [|injection Hs as <-; by apply chosen_none].
  apply bind_Ok in Hs as (sv & _ & Hs). injection Hs as <-. split; [done|]. split; [exact Hi|].
  unfold pool. simpl. rewrite E. solve_Permutation.
Qed.

Lemma SRT_ACT_chosen s a o : schedule_SRT_ACT s a = Ok o → chosen s a o.
Proof.
  unfold schedule_SRT_ACT. intros Hs. destruct (srtACT a) as [|ci f] eqn:E; [injection Hs as <-; by apply chosen_none|].
  pick_front Hs. unfold pool. simpl. rewrite E. solve_Permutation.
Qed.

Lemma SRT_PRE_chosen s a o : schedule_SRT_PRE s a = Ok o → chosen s a o.
Proof.
  unfold schedule_SRT_PRE. intros Hs. destruct (srtPRE a) as [|ci f] eqn:E; [injection Hs as <-; by apply chosen_none|].
  pick_front Hs. unfold pool. simpl. rewrite E. solve_Permutation.
Qed.

Lemma SRT_CAS_chosen s a o : schedule_SRT_CAS s a = Ok o → chosen s a o.
Proof.
  unfold schedule_SRT_CAS. intros Hs. apply bind_Ok in Hs as ([k|] & Hk & Hs); [|injection Hs as <-; by apply chosen_none].
  apply first_such_Some in Hk as (ci & Hk & Ht & _). unfold vec_at in Hs. rewrite Hk in Hs. injection Hs as <-.
  apply bind_Ok in Ht as ([] & Hi & Ht); [|done]. split; [done|]. split; [exact Hi|].
  unfold pool. simpl. rewrite (entry_perm _ _ _ Hk) at 1. solve_Permutation.
Qed.

(** Looking at a queue that is not marked, and marking it, with an entry or
    without. *)
Lemma look_at a s critical i c s1 :
  inv a s → queuePending a !! i = Some false → peek critical i s = Ok (c, s1) →
  inv a s1 ∧ quiet s s1 ∧
  (isReady c i s1 = Ok true → ∀ a', queuePending a' = <[i := true]> (queuePending a) →
    pool a' ≡ₚ (c, i) :: pool a ∨ pool a' ≡ₚ pool a → inv a' s1).
Proof.
  intros Hinv Hp Hpk.
  assert (inv a s1) as Hinv1.
  { eapply pool_peek; [|exact Hpk|exact Hinv]. intros ci Hin E. destruct (pl_entry _ _ _ _ _ Hinv ci Hin) as [Hm _].
    unfold marked in Hm. rewrite E in Hm. congruence. }
  split; [exact Hinv1|]. split; [by eapply peek_quiet|]. intros Hr a' Ep E.
  assert (∀ k, marked a k → marked a' k) as Hmono.
  { intros k. unfold marked. rewrite Ep. destruct (decide (k = i)) as [->|]; [by rewrite Hp|]. by rewrite list_lookup_insert_ne. }
  destruct E as [E|E].
  - eapply (pool_enter snd false (marked a)); [exact Hinv1| |unfold marked; simpl; by rewrite Hp|exact E|exact Hmono|].
    + split; [|exact Hr]. pose proof (peek_Ok _ _ _ _ _ Hpk) as (q & Hi & _).
      apply (peek_front _ _ _ _ _ _ Hi (by_banks_kind _ _ _ (pl_kinds _ _ _ _ _ Hinv) Hi) Hpk).
    + unfold marked. rewrite Ep. apply list_lookup_insert_eq. by eapply lookup_lt_Some.
  - eapply pool_perm; [exact E|]. eapply pool_marked; [|exact Hinv1]. auto.
Qed.

Lemma free_with_Ok critical i a s :
  free_with critical i a s = Ok true → queuePending a !! i = Some false.
Proof. unfold free_with. intros Hf. by apply bind_Ok in Hf as ([] & Hp%vec_at_Ok & Hf). Qed.

Lemma visit_srt_inv i st st' : inv st.1 st.2 → visit_srt i st = Ok st' → inv st'.1 st'.2 ∧ quiet st.2 st'.2.
Proof.
  destruct st as [a s]. cbn [fst snd]. intros Hinv Hv. unfold visit_srt in Hv. apply bind_Ok in Hv as ([] & Hf & Hv); [|by injection Hv as <-].
  apply bind_Ok in Hv as ([c s1] & Hpk & Hv).
  destruct (look_at a s false i c s1 Hinv (free_with_Ok _ _ _ _ Hf) Hpk) as (Hinv1 & Hq & Henter).
  apply bind_Ok in Hv as ([] & Hr & Hv); [|by injection Hv as <-]. specialize (Henter Hr). injection Hv as <-.
  cbn [fst snd]. split; [|done].
  case_bool_decide; [|destruct (bpt_lt _ _)]; apply Henter; try done; left; unfold pool; simpl; solve_Permutation.
Qed.

Lemma visit_hrt_inv i st st' : inv st.1 st.2 → visit_hrt i st = Ok st' → inv st'.1 st'.2 ∧ quiet st.2 st'.2.
Proof.
  destruct st as [a s]. cbn [fst snd]. intros Hinv Hv. unfold visit_hrt in Hv. apply bind_Ok in Hv as (p & Hp%vec_at_Ok & Hv).
  apply bind_Ok in Hv as (sv & Hsv & Hv). destruct sv; [by injection Hv as <-|].
  assert (p = false) as -> by (by destruct p). apply bind_Ok in Hv as ([c s1] & Hpk & Hv).
  destruct (look_at a s true i c s1 Hinv Hp Hpk) as (Hinv1 & Hq & Henter).
  apply bind_Ok in Hv as ([] & Hr & Hv); [|by injection Hv as <-]. specialize (Henter Hr). injection Hv as <-.
  cbn [fst snd]. split; [|done].
  case_bool_decide; [|destruct (bpt_lt _ _)]; apply Henter; try done; [left..|by right]; unfold pool; simpl; solve_Permutation.
Qed.

Lemma visits_inv l st st' (f : nat → PIPECAS * CommandScheduler Dev → res (PIPECAS * CommandScheduler Dev)) :
  (∀ i st st', inv st.1 st.2 → f i st = Ok st' → inv st'.1 st'.2 ∧ quiet st.2 st'.2) →
  inv st.1 st.2 → foldM l st f = Ok st' → inv st'.1 st'.2 ∧ quiet st.2 st'.2.
Proof.
  intros Hf Hinv. apply (foldM_inv (λ st', inv st'.1 st'.2 ∧ quiet st.2 st'.2)); [done|].
  intros i st1 st2 _ [H1 Hq] Hv. destruct (Hf _ _ _ H1 Hv). split; [done|by etransitivity].
Qed.

Lemma round_of_queue_same s i a a' : round_of_queue s i a = Ok a' → chosen s a (None, a').
Proof.
  unfold round_of_queue. intros Hr. apply bind_Ok in Hr as ([] & _ & Hr); [|injection Hr as <-; by apply chosen_none].
  apply bind_Ok in Hr as (q & _ & Hr). injection Hr as <-. by apply chosen_same.
Qed.

Lemma snapshot_queue_same s i a a' : snapshot_queue s i a = Ok a' → chosen s a (None, a').
Proof.
  unfold snapshot_queue. intros Hr. apply bind_Ok in Hr as ([] & _ & Hr); [|injection Hr as <-; by apply chosen_none].
  apply bind_Ok in Hr as (q & _ & Hr). injection Hr as <-. by apply chosen_same.
Qed.

Lemma fold_same s l a a' (f : nat → PIPECAS → res PIPECAS) :
  (∀ i a a', f i a = Ok a' → chosen s a (None, a')) → foldM l a f = Ok a' → chosen s a (None, a').
Proof.
  intros Hf. apply (foldM_inv (λ a', chosen s a (None, a'))); [apply chosen_none|].
  intros i a1 a2 _ H1 H2. eapply chosen_after; [exact H1|by eapply Hf].
Qed.

Lemma start_round_chosen s a o : start_round s a = Ok o → chosen s a o.
Proof.
  unfold start_round. set (a1 := set_accesses _ 0 0 _). intros Hs.
  eapply (chosen_after s a a1); [by apply chosen_same|]. case_bool_decide.
  - apply bind_Ok in Hs as (a2 & O2 & Hs). apply bind_Ok in Hs as (n & _ & Hs). injection Hs as <-.
    apply (fold_same s) in O2; [|by apply snapshot_queue_same]. exact O2.
  - apply bind_Ok in Hs as (o1 & O1%SRT_CAS_chosen & Hs). eapply chosen_or_else; [exact O1| |exact Hs].
    apply SRT_PRE_chosen.
Qed.

(** A start that sends something took no snapshot. *)
Lemma start_round_some s a ci a' : start_round s a = Ok (Some ci, a') → queueScheduled a' = queueScheduled a.
Proof.
  assert (∀ a o, schedule_SRT_CAS s a = Ok o → queueScheduled o.2 = queueScheduled a) as Hcas.
  { unfold schedule_SRT_CAS. intros b o Ho. apply bind_Ok in Ho as ([k|] & _ & Ho); [|by injection Ho as <-].
    apply bind_Ok in Ho as (x & _ & Ho). by injection Ho as <-. }
  assert (∀ a o, schedule_SRT_PRE s a = Ok o → queueScheduled o.2 = queueScheduled a) as Hpre.
  { unfold schedule_SRT_PRE. intros b o Ho. destruct (srtPRE b); [by injection Ho as <-|].
    apply bind_Ok in Ho as ([] & _ & Ho); by injection Ho as <-. }
  unfold start_round. intros Hs. case_bool_decide.
  - apply bind_Ok in Hs as (a2 & _ & Hs). by apply bind_Ok in Hs as (n & _ & Hs).
  - apply bind_Ok in Hs as (o1 & O1%Hcas & Hs). destruct o1 as [[x|] a5]; simpl in Hs; [by injection Hs as _ <-|].
    apply Hpre in Hs. simpl in *. congruence.
Qed.

Lemma round_ACT_chosen s a o : round_ACT s a = Ok o → chosen s a o.
Proof.
  unfold round_ACT. intros Hs. case_bool_decide; [|by apply HRT_ACT_chosen].
  case_bool_decide; [|injection Hs as <-; by apply chosen_none].
  apply bind_Ok in Hs as (o1 & O1%SRT_ACT_chosen & Hs).
  eapply chosen_after; [|eapply chosen_or_else; [exact O1|apply HRT_ACT_chosen|exact Hs]]. by apply chosen_same.
Qed.

Lemma round_CAS_chosen s a o : round_CAS s a = Ok o → chosen s a o.
Proof.
  unfold round_CAS. intros Hs. case_bool_decide; [|by apply HRT_CAS_chosen].
  apply bind_Ok in Hs as (o1 & O1%SRT_CAS_chosen & Hs). eapply chosen_or_else; [exact O1|apply HRT_CAS_chosen|exact Hs].
Qed.

Lemma close_round_same s a a' : close_round a = Ok a' → chosen s a (None, a').
Proof.
  unfold close_round. intros Hc. apply bind_Ok in Hc as (b & _ & Hc). injection Hc as <-. destruct b; by apply chosen_same.
Qed.

Lemma out_of_round_chosen s a o : out_of_round s a = Ok o → chosen s a o.
Proof.
  unfold out_of_round. set (a1 := if bool_decide (srtRD a = 10) then _ else a).
  set (a2 := if bool_decide (srtWR a1 = 10) then _ else a1). intros Hs.
  assert (chosen s a (None, a2)) as Ha.
  { eapply (chosen_after _ _ a1); [unfold a1; case_bool_decide; by apply chosen_same|unfold a2; case_bool_decide; by apply chosen_same]. }
  eapply chosen_after; [exact Ha|]. apply bind_Ok in Hs as (o1 & H1%SRT_CAS_chosen & Hs).
  apply bind_Ok in Hs as (o2 & H2 & Hs). eapply chosen_or_else; [|apply SRT_PRE_chosen|exact Hs].
  eapply chosen_or_else; [exact H1|apply SRT_ACT_chosen|exact H2].
Qed.

(** A choice followed by a step that leaves pool and marks alone. *)
Lemma chosen_then s a o a' : chosen s a o → chosen s o.2 (None, a') → chosen s a (o.1, a').
Proof.
  intros [E1 P1] [E2 P2]. simpl in *. split; [simpl; congruence|]. simpl.
  destruct (o.1); [by rewrite P2|by rewrite P2].
Qed.

Lemma run_round_chosen a s o s' :
  inv a s → run_round a s = Ok (o, s') → ∃ a1, inv a1 s' ∧ quiet s s' ∧ chosen s' a1 o.
Proof.
  intros Hinv Hr. unfold run_round in Hr. apply bind_Ok in Hr as ([a1 s1] & Hl & Hr).
  destruct (visits_inv _ (a, s) _ visit_hrt visit_hrt_inv Hinv Hl) as [H1 Hq]. cbn [fst snd] in *.
  apply bind_Ok in Hr as (o1 & O1%round_ACT_chosen & Hr). apply bind_Ok in Hr as (o2 & O2 & Hr).
  apply bind_Ok in Hr as (o3 & O3 & Hr). apply bind_Ok in Hr as (a2 & Hc%(close_round_same s1) & Hr).
  injection Hr as <- <-. exists a1. split_and!; [done|done|]. eapply chosen_then; [|exact Hc].
  eapply chosen_or_else; [|apply SRT_PRE_chosen|exact O3]. eapply chosen_or_else; [exact O1|apply round_CAS_chosen|exact O2].
Qed.

Lemma pick_chosen a s o s' :
  inv a s → pick a s = Ok (o, s') → ∃ a1, inv a1 s' ∧ quiet s s' ∧ chosen s' a1 o.
Proof.
  intros Hinv Hp. unfold pick in Hp. set (a0 := set_rounds _ _ _ _ a) in Hp.
  apply bind_Ok in Hp as (a1 & H1 & Hp). apply bind_Ok in Hp as (o1 & H2 & Hp).
  apply bind_Ok in Hp as ([[c a2] s1] & H3 & Hp). apply bind_Ok in Hp as (o2 & H4 & Hp). injection Hp as <- <-.
  assert (chosen s a (None, a1)) as C1.
  { eapply (chosen_after _ _ a0); [by apply chosen_same|]. destruct (bool_decide (queueScheduled a0 = [])); [|injection H1 as <-; apply chosen_none].
    eapply fold_same; [apply round_of_queue_same|exact H1]. }
  assert (chosen s a o1) as C2.
  { eapply chosen_after; [exact C1|]. destruct (roundStart a1 && _); [by apply start_round_chosen|injection H2 as <-; apply chosen_none]. }
  assert (∃ a3, inv a3 s1 ∧ quiet s s1 ∧ chosen s1 a3 (c, a2)) as (a3 & I3 & Q3 & C3).
  { destruct (bool_decide_reflect (queueScheduled o1.2 = [])) as [Hnil|Hnil].
    - injection H3 as <- <-. exists a. split_and!; [done|done|]. by destruct o1.
    - destruct o1 as [[ci|] a4]; simpl in *.
      + exfalso. apply Hnil. destruct (roundStart a1 && bool_decide (queueScheduled a1 = [])) eqn:E; [|done].
        apply andb_true_iff in E as [_ E%bool_decide_eq_true]. apply start_round_some in H2. by rewrite H2.
      + apply run_round_chosen in H3; [exact H3|]. destruct C2 as [E P]. simpl in *.
        eapply pool_perm; [exact P|]. eapply pool_marked; [|exact Hinv]. intros ci _. unfold marked. by rewrite E. }
  exists a3. split_and!; [exact I3|exact Q3|]. destruct c as [ci|]; [by injection H4 as <-|].
  eapply chosen_after; [exact C3|]. destruct (bool_decide (queueScheduled a2 = []) && negb (roundStart a2)); [exact (out_of_round_chosen _ _ _ H4)|injection H4 as <-; apply chosen_none].
Qed.

Lemma note_sent_same c d a : queuePending (note_sent c d a) = queuePending a ∧ pool (note_sent c d a) = pool a.
Proof. unfold note_sent. case_bool_decide; [done|]. destruct (bpt_lt _ _); [|done]. by destruct (_ || _). Qed.

Lemma PIPECAS_schedule a s r a' s' :
  Forall cq_wf (commandQueues s) → inv a s → commandSchedule a s = Ok (r, a', s') →
  inv a' s' ∧ ∃ ic, snd <$> ic = r ∧ issues s ic s'.
Proof.
  intros _ Hinv Hs. unfold commandSchedule in Hs. apply bind_Ok in Hs as ([a1 s1] & Hl & Hs).
  apply (visits_inv _ (a, set_scheduledCommand None s) _ visit_srt visit_srt_inv) in Hl as [H1 Hq1]; [|by apply pool_scheduled].
  apply bind_Ok in Hs as ([[o a2] s2] & Hp & Hs). cbn [fst snd] in *.
  apply pick_chosen in Hp as (a3 & H3 & Hq3 & [Ep Hc]); [|exact H1]. simpl in Ep, Hc.
  assert (quiet s s2) as Hq by (etransitivity; [apply quiet_scheduled|etransitivity; [exact Hq1|exact Hq3]]).
  destruct o as [[c i]|].
  - destruct Hc as [Hi E]. simpl in Hi. apply bind_Ok in Hs as (s3 & Hsend & Hs). apply bind_Ok in Hs as (p & [_ ->]%vec_set_Ok & Hs).
    injection Hs as <- <- <-. set (a4 := set_queues _ _ _ a2). destruct (note_sent_same c (memoryDevice s3) a4) as [N1 N2].
    edestruct (pool_send snd false queue_apart (marked a3) (marked (count_cycle (note_sent c (memoryDevice s3) a4)))
      (pool a3) (pool a2) s s2 c i s3) as [Hp2 Hiss]; [exact H3|exact Hq|exact E|exact Hi|exact Hsend| |].
    + simpl. intros k Hne. unfold marked. simpl. rewrite N1. simpl. rewrite Ep. by rewrite list_lookup_insert_ne by (by apply not_eq_sym).
    + split; [|by exists (Some (i, c))]. unfold inv. change (pool (count_cycle ?x)) with (pool x). rewrite N2. exact Hp2.
  - injection Hs as <- <- <-. split; [|exists None; split; [done|by constructor]].
    eapply pool_perm; [exact Hc|]. eapply pool_marked; [|exact H3]. intros ci _. unfold marked. simpl. by rewrite Ep.
Qed.

#[export] Instance scheduling : CommandScheduling Dev PIPECAS := {| CmdAlg.commandSchedule := commandSchedule |}.
#[export] Program Instance algorithm : CommandAlgorithm Dev PIPECAS := {|
  alg_accepts := λ _ _, True; alg_inv := inv;
  schedule_issues := PIPECAS_schedule |}.
Next Obligation. intros a s s' Hinv Hg. by eapply pool_grows. Qed.

(** ** The start of a round *)

(** The accesses of the type of the round, each by its queue; a marked queue has
    none. *)
Definition round_accesses s (a : PIPECAS) : list nat :=
  concat (imap (λ i q, if bool_decide (queuePending a !! i = Some false)
                       then (λ _, i) <$> filter (λ c, busPacketType c = roundType a) (hrtBuffer q) else [])
            (commandQueues s)).

Lemma snapshot_queue_run s a i q :
  commandQueues s !! i = Some q → (i < length (queuePending a))%nat →
  snapshot_queue s i a = Ok (set_queues (queueScheduled a ++
    (if bool_decide (queuePending a !! i = Some false)
     then (λ _, i) <$> filter (λ c, busPacketType c = roundType a) (hrtBuffer q) else []))
    (queueServed a) (queuePending a) a).
Proof.
  intros Hq [p Hp]%lookup_lt_is_Some. unfold snapshot_queue, free_with, queue_at, vec_at. rewrite Hp, Hq. simpl.
  destruct p; simpl.
  - rewrite app_nil_r. by destruct a.
  - destruct (hrtBuffer q) as [|c l] eqn:E; simpl; [|done]. rewrite app_nil_r. by destruct a.
Qed.

Lemma snapshot_run s a k :
  length (queuePending a) = length (commandQueues s) → (k ≤ length (commandQueues s))%nat →
  foldM (seq 0 k) a (snapshot_queue s) =
  Ok (set_queues (queueScheduled a ++
    concat (imap (λ i q, if bool_decide (queuePending a !! i = Some false)
                         then (λ _, i) <$> filter (λ c, busPacketType c = roundType a) (hrtBuffer q) else [])
              (take k (commandQueues s)))) (queueServed a) (queuePending a) a).
Proof.
  intros Hlen. induction k as [|k IH]; intros Hk; [simpl; rewrite app_nil_r; by destruct a|].
  rewrite foldM_seq_snoc, IH by lia. cbn [mbind res_bind].
  destruct (lookup_lt_is_Some_2 (commandQueues s) k ltac:(lia)) as [q Hq].
  erewrite snapshot_queue_run; [|exact Hq|simpl; lia]. simpl.
  erewrite take_S_r by exact Hq. rewrite imap_app, concat_app, length_take, Nat.min_l by lia. simpl.
  by rewrite app_nil_r, Nat.add_0_r, app_assoc.
Qed.

(** ** The stop point in closed form *)
Definition first_CAS (read : bool) : Z := if read then 15 else 21.

Lemma i32_u32_small z : - 2 ^ 31 ≤ z < 2 ^ 31 → i32 (u32 z) = z.
Proof.
  intros Hz. unfold i32. rewrite u32_idemp. unfold u32. destruct (decide (0 ≤ z)).
  - rewrite Z.mod_small by lia. rewrite bool_decide_eq_true_2; lia.
  - rewrite <- (Z_mod_plus_full z 1). rewrite Z.mod_small by lia. rewrite bool_decide_eq_false_2; lia.
Qed.

Lemma exeACT_small n : 0 < n < 2 ^ 28 → exeACT n = Ok (5 * (n - 1) + (n - 1) / 4 * 4).
Proof.
  intros Hn. unfold exeACT. rewrite (u32_small (n - 1)), (u32_small (5 * (n - 1))) by lia.
  rewrite bool_decide_eq_true_2; [done|]. pose proof (Z.div_le_upper_bound (n - 1) 4 (n - 1)). lia.
Qed.

Lemma tCAS_SRT_closed read n :
  0 < n < 2 ^ 28 →
  tCAS_SRT read n 0 = Ok (5 + (n - 1) / 4 * 4 + Z.max 0 (first_CAS read - 4 * (n - 1))).
Proof.
  intros Hn. assert (0 ≤ (n - 1) / 4 ≤ n - 1) as Hd.
  { split; [apply Z.div_pos; lia|apply Z.div_le_upper_bound; lia]. }
  unfold tCAS_SRT. rewrite Z.add_0_r, (u32_small n) by lia. rewrite exeACT_small by done. cbn [mbind res_bind].
  rewrite (u32_small (n - 1)), (u32_small (4 * (n - 1))), (u32_small (5 * (n - 1))) by lia.
  rewrite (u32_small (5 * (n - 1) + 4)) by lia. fold (first_CAS read).
  assert (i32 (u32 (first_CAS read - 4 * (n - 1))) = first_CAS read - 4 * (n - 1)) as ->.
  { unfold first_CAS. destruct read; apply i32_u32_small; lia. }
  assert (0 ≤ Z.max 0 (first_CAS read - 4 * (n - 1)) ≤ 21) as Hm by (unfold first_CAS; destruct read; lia).
  rewrite (u32_small (_ + _)) by lia. f_equal. rewrite Z.max_l by lia. rewrite u32_small; lia.
Qed.

(** The start of a round with the activates free takes the snapshot: every
    access of the type of the round in the critical buffer of a queue without a
    pending command, in the order of the queues. The stop point of the noncritical
    accesses is a closed form of the number of them, [5 + 4 * ((n - 1) / 4)] plus
    what is left of 15 or 21 cycles, without a wrap-around. A round without an
    access converts a double that does not fit in an [unsigned]: its behaviour is
    undefined. *)
Theorem PIPECAS_stop_point s a :
  length (queuePending a) = length (commandQueues s) →
  queueScheduled a = [] → actCounter a = 0 → Z.of_nat (length (round_accesses s a)) < 2 ^ 28 →
  if bool_decide (round_accesses s a = []) then start_round s a = Err Undefined
  else ∃ a', start_round s a = Ok (None, a') ∧ queueScheduled a' = round_accesses s a ∧
    let n := Z.of_nat (length (round_accesses s a)) in
    casCounter a' = 5 + (n - 1) / 4 * 4 + Z.max 0 (first_CAS (bool_decide (roundType a = RDA)) - 4 * (n - 1)).
Proof.
  intros Hlen Hsch Hact Hn. unfold start_round. rewrite (bool_decide_eq_true_2 (actCounter _ = 0)) by done.
  rewrite snapshot_run by done. rewrite firstn_all. cbn [mbind res_bind].
  set (a1 := set_queues _ _ _ _). assert (queueScheduled a1 = round_accesses s a) as E by (simpl; by rewrite Hsch).
  assert (roundType a1 = roundType a) as -> by done. assert (srtNum_ACT a1 = 0) as -> by done. rewrite E.
  case_bool_decide as Hnil; [by rewrite Hnil|].
  assert (0 < Z.of_nat (length (round_accesses s a))) by (destruct (round_accesses s a); [done|simpl; lia]).
  rewrite u32_small by lia. rewrite tCAS_SRT_closed by lia. eexists. split; [reflexivity|]. by split.
Qed.
End PIPECAS.

(** ** Witness *)
Definition wit_rda : BusPacket := new_BusPacket RDA 1 64 0 0 0 0 0 0 9.
Definition wit_pipe_queue : CommandQueue := set_hrtBuffer [wit_rda; wit_rda; wit_rda] (CommandQueue_ctor false).
Definition wit_pipe_s : CommandScheduler Device := CommandScheduler_ctor true 0 [wit_pipe_queue; CommandQueue_ctor false] ∅ wit_dev0.
Definition wit_pipe : PIPECAS := set_rounds RDA RD 0 true (ctor 0 0 (commandQueues wit_pipe_s)).

Lemma PIPECAS_stop_point_witness :
  round_accesses wit_pipe_s wit_pipe = [0; 0; 0]%nat ∧
  ∃ a', start_round wit_pipe_s wit_pipe = Ok (None, a') ∧ casCounter a' = 12.
Proof.
  assert (round_accesses wit_pipe_s wit_pipe = [0; 0; 0]%nat) as Hr by (vm_compute; reflexivity).
  split; [exact Hr|].
  destruct (bool_decide_reflect (round_accesses wit_pipe_s wit_pipe = [])) as [E|E]; [rewrite Hr in E; discriminate E|].
  pose proof (PIPECAS_stop_point wit_pipe_s wit_pipe) as Ht.
  rewrite (bool_decide_eq_false_2 _ E), Hr in Ht.
  destruct Ht as (a' & Hs & _ & Hc); [reflexivity|reflexivity|reflexivity|simpl; lia|].
  exists a'. split; [exact Hs|exact Hc].
Defined.
