(* ===== verification/RocAlgo.v ===== *)
(** * The ROC command scheduler

    [CommandScheduler_ROC] (src/system/ROC/CommandScheduler_ROC.h) arbitrates in three
    levels. Every requestor's next command, once it is ready, enters a FIFO of its
    rank (level 3: one FIFO for accesses, one for the others); a rank has one
    candidate of either kind (level 2); one of the candidates is sent (level 1),
    accesses first, by the time after which the bus is free for their rank.

    Main results: with a single command queue, as in src/system/ROC/ROC.ini, it
    keeps the promise of the interface; whatever the number of queues, it only ever
    takes commands out of the first; and while a command of requestor 0 waits, no
    other requestor is looked at. *)
From S2P Require Import Prelude Types KeyedBuf CmdQueue DRAM DDR3 Device Refresh CmdSched CmdAlg CmdAlgos Pool.

(** The members read from the device in the first cycle; [prevCmd], [prevRank],
    [readToWrite] and [writeToRead] are set and never read afterwards. *)
Record timings := mkTimings { tCCD : Z; tRTR : Z; readLatency : Z; writeLatency : Z }.

(** [l2_CAS] and [l2_CAStimer] are one list of pairs. *)
Record ROC := mkROC {
  rankFIFO_L3PA : list (list BusPacket);
  rankFIFO_L3CAS : list (list BusPacket);
  l2_PA : list (option BusPacket);
  l2_PAindex : nat;
  l2_CAS : list (option BusPacket * Z);
  l2_CASindex : nat;
  queuePending : list bool;
  prevEnd : Z;
  timing : timings;
}.

(** The constructor sets neither the indices nor the timings. *)
Definition ctor (pa cas : nat) (t : timings) : ROC := mkROC [] [] [] pa [] cas [] 0 t.

Definition ranks : nat := 4.

Definition set_L3 (pa cas : list (list BusPacket)) (p : list bool) (a : ROC) : ROC :=
  mkROC pa cas (l2_PA a) (l2_PAindex a) (l2_CAS a) (l2_CASindex a) p (prevEnd a) (timing a).
Definition set_PA (l3 : list (list BusPacket)) (l2 : list (option BusPacket)) (i : nat) (a : ROC) : ROC :=
  mkROC l3 (rankFIFO_L3CAS a) l2 i (l2_CAS a) (l2_CASindex a) (queuePending a) (prevEnd a) (timing a).
Definition set_CAS (l3 : list (list BusPacket)) (l2 : list (option BusPacket * Z)) (i : nat) (e : Z) (a : ROC) : ROC :=
  mkROC (rankFIFO_L3PA a) l3 (l2_PA a) (l2_PAindex a) l2 i (queuePending a) e (timing a).

Section ROC.
Context {Dev : Type} `{MemoryDevice Dev}.
Implicit Types s : CommandScheduler Dev.

(** The first cycle. *)
Definition init (a : ROC) s : ROC :=
  if bool_decide (sched_clock s = 1) then
    let d := memoryDevice s in
    mkROC (rankFIFO_L3PA a ++ replicate ranks []) (rankFIFO_L3CAS a ++ replicate ranks [])
      (l2_PA a ++ replicate ranks None) 0 (l2_CAS a ++ replicate ranks (None, 0)) 0
      (queuePending a ++ replicate (size (requestorCriticalTable s)) false) (prevEnd a)
      (mkTimings (getTiming "tCCD" d) (getTiming "tRTR" d) (getTiming "tRL" d) (getTiming "tWL" d))
  else a.

(** ** Level 3 *)
Definition visit_requestor (index : nat) s (c : BusPacket) (a : ROC) : res (flow ROC unit) :=
  let id := Z.to_nat (bp_requestorID c) in
  pending ← vec_at (queuePending a) id;
  b ← (if pending : bool then Ok false else isReady c index s);
  if b : bool then
    let p := <[id := true]> (queuePending a) in
    let r := Z.to_nat (bp_rank c) in
    if bpt_lt (busPacketType c) ACT then
      f ← vec_at (rankFIFO_L3CAS a) r;
      Ok (Next (set_L3 (rankFIFO_L3PA a) (<[r := f ++ [c]]> (rankFIFO_L3CAS a)) p a))
    else
      f ← vec_at (rankFIFO_L3PA a) r;
      Ok (Next (set_L3 (<[r := f ++ [c]]> (rankFIFO_L3PA a)) (rankFIFO_L3CAS a) p a))
  else Ok (Next a).

(** [queuePending] is indexed by requestor; here it is asked for a queue. *)
Definition visit s (index : nat) (a : ROC) : res ROC :=
  pending ← vec_at (queuePending a) index;
  if pending : bool then Ok a
  else
    q ← queue_at index s;
    o ← each_requestor q a (visit_requestor index s);
    Ok (after o).

(** ** Level 2 *)
Definition promote_PA s (rank : nat) (a : ROC) : res ROC :=
  f ← vec_at (rankFIFO_L3PA a) rank;
  match f with
  | [] => Ok a
  | _ =>
      o ← vec_at (l2_PA a) rank;
      match o with
      | Some _ => Ok a
      | None =>
          k ← first_such (λ c, isIssuable c s) f;
          match k with
          | Some k =>
              c ← vec_at f k;
              Ok (set_PA (<[rank := delete k f]> (rankFIFO_L3PA a)) (<[rank := Some c]> (l2_PA a)) (l2_PAindex a) a)
          | None => Ok a
          end
      end
  end.

Definition promote_CAS (rank : nat) (a : ROC) : res ROC :=
  f ← vec_at (rankFIFO_L3CAS a) rank;
  match f with
  | [] => Ok a
  | c :: f =>
      o ← vec_at (l2_CAS a) rank;
      match o with
      | (Some _, _) => Ok a
      | (None, t) => Ok (set_CAS (<[rank := f]> (rankFIFO_L3CAS a)) (<[rank := (Some c, t)]> (l2_CAS a))
                           (l2_CASindex a) (prevEnd a) a)
      end
  end.

Definition promote s (rank : nat) (a : ROC) : res ROC := a ← promote_PA s rank a; promote_CAS rank a.

(** ** Level 1 *)
Definition next_index (n i : nat) : nat := if bool_decide (S i = n) then 0%nat else S i.

(** A candidate of a rank for which the bus is free; the loop ends at the first one,
    and stays at it when it is not issuable. *)
Definition visit_CAS (a : ROC) s (i : nat) : res (flow nat (option (BusPacket * nat))) :=
  o ← vec_at (l2_CAS a) i;
  match o with
  | (Some c, t) =>
      if bool_decide (t ≤ u64 (prevEnd a + tRTR (timing a))) then
        b ← isIssuable c s;
        Ok (if b : bool then Stop (next_index (length (l2_CAS a)) i) (Some (c, i)) else Stop i None)
      else Ok (Next (next_index (length (l2_CAS a)) i))
  | (None, _) => Ok (Next (next_index (length (l2_CAS a)) i))
  end.

(** The candidate whose rank is free first; rank 0 when none is before it. *)
Definition earliest (l : list (option BusPacket * Z)) : res nat :=
  x ← vec_front l;
  Ok (snd (foldl (λ b ix, match ix.2 with
                          | (Some _, t) => if bool_decide (t < fst b) then (t, ix.1) else b
                          | _ => b
                          end) (x.2, 0%nat) (imap pair l))).

Definition choose_CAS (a : ROC) s : res (option (BusPacket * nat) * nat) :=
  o ← forM (l2_CAS a) (l2_CASindex a) (λ _ i, visit_CAS a s i);
  match o with
  | Stop i ci => Ok (ci, i)
  | Next i =>
      k ← earliest (l2_CAS a);
      x ← vec_at (l2_CAS a) k;
      match x.1 with
      | Some c => b ← isIssuable c s; Ok (if b : bool then Some (c, k) else None, i)
      | None => Ok (None, i)
      end
  end.

(** The sent access leaves; the other ranks wait for the end of its transfer. *)
Definition take_CAS (c : BusPacket) (k i : nat) s (a : ROC) : ROC :=
  let latency := if bool_decide (busPacketType c = RD) then readLatency (timing a) else writeLatency (timing a) in
  let e := u64 (sched_clock s + latency + tCCD (timing a)) in
  set_CAS (rankFIFO_L3CAS a)
    (imap (λ j x, if bool_decide (j = k) then (None, x.2) else (x.1, u64 (e + tRTR (timing a)))) (l2_CAS a)) i e a.

Definition choose_PA (a : ROC) s : res (option BusPacket * ROC) :=
  o ← forM (l2_PA a) (l2_PAindex a) (λ _ i,
        o ← vec_at (l2_PA a) i;
        b ← (match o with Some c => isIssuable c s | None => Ok false end);
        let n := next_index (length (l2_PA a)) i in
        Ok (if b : bool then Stop n (o, i) else Next n));
  match o with
  | Stop n (c, i) => Ok (c, set_PA (rankFIFO_L3PA a) (<[i := None]> (l2_PA a)) n a)
  | Next n => Ok (None, set_PA (rankFIFO_L3PA a) (l2_PA a) n a)
  end.

Definition choose (a : ROC) s : res (option BusPacket * ROC) :=
  oi ← choose_CAS a s;
  let '(o, i) := oi in
  match o with
  | Some (c, k) => Ok (Some c, take_CAS c k i s a)
  | None => choose_PA (set_CAS (rankFIFO_L3CAS a) (l2_CAS a) i (prevEnd a) a) s
  end.

Definition arbitrate (a : ROC) s : res ROC :=
  a ← foldM (seq 0 (length (commandQueues s))) (init a s) (visit s);
  foldM (seq 0 ranks) a (promote s).

(** Every command is sent from queue 0. *)
Definition commandSchedule (a : ROC) (s : CommandScheduler Dev)
    : res (option BusPacket * ROC * CommandScheduler Dev) :=
  let s := set_scheduledCommand None s in
  a ← arbitrate a s;
  o ← choose a s;
  let '(c, a) := o in
  match c with
  | Some c =>
      s ← send c 0 s;
      p ← vec_set (queuePending a) (Z.to_nat (bp_requestorID c)) false;
      Ok (Some c, set_L3 (rankFIFO_L3PA a) (rankFIFO_L3CAS a) p a, s)
  | None => Ok (None, a, s)
  end.

(** ** The promise, with a single command queue *)
Definition entries (a : ROC) : list BusPacket :=
  concat (rankFIFO_L3PA a) ++ concat (rankFIFO_L3CAS a) ++ omap (λ o, o) (l2_PA a) ++ omap fst (l2_CAS a).
Definition pool (a : ROC) : fifo := (λ c, (c, 0%nat)) <$> entries a.
Definition key (ci : BusPacket * nat) : nat := Z.to_nat (owner ci).
Definition marked (a : ROC) (k : nat) : Prop := queuePending a !! k = Some true.
Definition inv (a : ROC) (s : CommandScheduler Dev) : Prop :=
  (length (commandQueues s) ≤ 1)%nat ∧ pool_inv key true (marked a) (pool a) s.

Lemma key_apart (ci : BusPacket * nat) (c : BusPacket) (i : nat) :
  key ci ≠ key (c, i) → ci.2 ≠ i ∨ true = true ∧ bp_requestorID ci.1 ≠ bp_requestorID c.
Proof. unfold key, owner. simpl. intros Hne. right. split; [done|congruence]. Qed.

(** What the levels 1 and 2 do to the entries. *)
Definition chosen s (a : ROC) (o : option BusPacket * ROC) : Prop :=
  queuePending o.2 = queuePending a ∧
  match o.1 with
  | Some c => isIssuable c s = Ok true ∧ entries a ≡ₚ c :: entries o.2
  | None => entries o.2 ≡ₚ entries a
  end.

Lemma roc_chosen_none s a a' :
  queuePending a' = queuePending a → entries a' = entries a → chosen s a (None, a').
Proof. intros Ep E. split; [done|]. simpl. by rewrite E. Qed.

Lemma promote_PA_same s r a a' : promote_PA s r a = Ok a' → chosen s a (None, a').
Proof.
  unfold promote_PA. intros Hp. apply bind_Ok in Hp as (f & Hf%vec_at_Ok & Hp).
  assert (chosen s a (None, a)) as Hid by by apply roc_chosen_none.
  destruct f as [|x f0] eqn:Ef; [by injection Hp as <-|]. rewrite <- Ef in *.
  apply bind_Ok in Hp as (o & Ho%vec_at_Ok & Hp). destruct o; [by injection Hp as <-|].
  apply bind_Ok in Hp as ([k|] & Hk & Hp); [|by injection Hp as <-].
  apply bind_Ok in Hp as (c & Hc%vec_at_Ok & Hp). injection Hp as <-. split; [done|]. unfold entries. simpl.
  rewrite (concat_insert_delete _ _ _ _ _ Hf Hc).
  pose proof (omap_insert_perm (λ o, o) _ _ _ (Some c) Ho) as E. simpl in E. rewrite E. solve_Permutation.
Qed.

Lemma promote_CAS_same s r a a' : promote_CAS r a = Ok a' → chosen s a (None, a').
Proof.
  unfold promote_CAS. intros Hp. apply bind_Ok in Hp as (f & Hf%vec_at_Ok & Hp).
  destruct f as [|c f]; [injection Hp as <-; by apply roc_chosen_none|].
  apply bind_Ok in Hp as ([[x|] t] & Ho%vec_at_Ok & Hp); [injection Hp as <-; by apply roc_chosen_none|]. injection Hp as <-.
  split; [done|]. unfold entries. simpl.
  rewrite (concat_insert_delete (rankFIFO_L3CAS a) _ _ 0%nat c Hf) by done. simpl.
  pose proof (omap_insert_perm fst _ _ _ (Some c, t) Ho) as E. simpl in E. rewrite E. solve_Permutation.
Qed.

Lemma roc_chosen_after s a a' o : chosen s a (None, a') → chosen s a' o → chosen s a o.
Proof.
  intros [E1 P1] [E2 P2]. simpl in *. split; [congruence|].
  destruct o as [[ci|] a2]; simpl in *; [|by rewrite P2]. by rewrite <- P1.
Qed.

Lemma visit_CAS_Stop a s i n ci :
  visit_CAS a s i = Ok (Stop n ci) → ∀ c k, ci = Some (c, k) → isIssuable c s = Ok true ∧ ∃ t, l2_CAS a !! k = Some (Some c, t).
Proof.
  unfold visit_CAS. intros Hv c k ->. apply bind_Ok in Hv as ([[x|] t] & Hx%vec_at_Ok & Hv); [|done].
  case_bool_decide; [|done]. apply bind_Ok in Hv as ([] & Hi & Hv); [|done]. injection Hv as _ <- <-. eauto.
Qed.

Lemma choose_CAS_issuable a s c k i :
  choose_CAS a s = Ok (Some (c, k), i) → isIssuable c s = Ok true ∧ ∃ t, l2_CAS a !! k = Some (Some c, t).
Proof.
  unfold choose_CAS. intros Hc. apply bind_Ok in Hc as (o & Ho & Hc).
  apply (forM_inv (λ _, True) (λ _ ci, ∀ c k, ci = Some (c, k) → isIssuable c s = Ok true ∧ ∃ t, l2_CAS a !! k = Some (Some c, t)))
    in Ho; [|done|].
  - destruct o as [n|n ci]; [|injection Hc as -> ->; by eapply Ho].
    apply bind_Ok in Hc as (j & _ & Hc). apply bind_Ok in Hc as ([x t] & Hx%vec_at_Ok & Hc).
    destruct x as [x|]; simpl in Hc; [|done]. apply bind_Ok in Hc as ([] & Hi & Hc); [|done]. injection Hc as -> -> ->. eauto.
  - intros _ n o1 _ _ Hv. destruct o1; [done|]. by eapply visit_CAS_Stop.
Qed.

Lemma omap_fst_eq {A B} (l l' : list (option A * B)) :
  (∀ j, fst <$> l !! j = fst <$> l' !! j) → omap fst l = omap fst l'.
Proof.
  revert l'. induction l as [|x l IH]; intros [|y l'] Hl; try done.
  - by specialize (Hl 0%nat).
  - by specialize (Hl 0%nat).
  - specialize (IH l' (λ j, Hl (S j))). specialize (Hl 0%nat). destruct x, y. simpl in *. injection Hl as ->. unfold omap in *. simpl. by rewrite IH.
Qed.

Lemma take_CAS_chosen a s c k i t :
  isIssuable c s = Ok true → l2_CAS a !! k = Some (Some c, t) → chosen s a (Some c, take_CAS c k i s a).
Proof.
  intros Hi Hk. split; [done|]. split; [done|]. unfold entries, take_CAS. simpl.
  set (e := u64 (_ + tCCD _)). set (l := imap _ _).
  assert (omap fst l = omap fst (<[k := (None, t)]> (l2_CAS a))) as ->.
  { apply omap_fst_eq. intros j. unfold l. rewrite list_lookup_imap. destruct (decide (j = k)) as [->|Hne].
    - rewrite Hk, list_lookup_insert_eq by (by eapply lookup_lt_Some). simpl. by rewrite bool_decide_eq_true_2.
    - rewrite list_lookup_insert_ne by done. destruct (l2_CAS a !! j); [|done]. simpl. by rewrite bool_decide_eq_false_2. }
  pose proof (omap_insert_perm fst _ _ _ (None, t) Hk) as E. simpl in E. rewrite <- E. solve_Permutation.
Qed.

Lemma choose_PA_chosen a s o : choose_PA a s = Ok o → chosen s a o.
Proof.
  unfold choose_PA. intros Hc. apply bind_Ok in Hc as (r & Hr & Hc).
  apply (forM_inv (λ _, True) (λ _ oi, ∃ c, oi.1 = Some c ∧ isIssuable c s = Ok true ∧ l2_PA a !! oi.2 = Some (Some c)))
    in Hr; [|done|].
  - destruct r as [n|n [x i]]; injection Hc as <-; [by apply roc_chosen_none|]. destruct Hr as (c & E0 & Hi & Hl). simpl in E0, Hl. subst x.
    split; [done|]. split; [exact Hi|]. unfold entries. simpl.
    pose proof (omap_insert_perm (λ o, o) _ _ _ None Hl) as E. simpl in E. rewrite <- E. solve_Permutation.
  - intros _ n r1 _ _ Hv. apply bind_Ok in Hv as (x & Hx%vec_at_Ok & Hv). apply bind_Ok in Hv as ([] & Hb & Hv); [|by injection Hv as <-].
    injection Hv as <-. destruct x as [c|]; [|done]. eauto.
Qed.

Lemma choose_chosen a s o : choose a s = Ok o → chosen s a o.
Proof.
  unfold choose. intros Hc. apply bind_Ok in Hc as ([[[c k]|] i] & H1 & Hc).
  - injection Hc as <-. apply choose_CAS_issuable in H1 as (Hi & t & Hk). by eapply take_CAS_chosen.
  - eapply roc_chosen_after; [|by apply choose_PA_chosen in Hc]. by apply roc_chosen_none.
Qed.

(** A requestor's command enters level 3. *)
Lemma visit_requestor_enter index s c a o :
  visit_requestor index s c a = Ok o →
  o = Next a ∨
  ∃ a', o = Next a' ∧ queuePending a !! Z.to_nat (bp_requestorID c) = Some false ∧ isReady c index s = Ok true ∧
    entries a' ≡ₚ c :: entries a ∧ queuePending a' = <[Z.to_nat (bp_requestorID c) := true]> (queuePending a).
Proof.
  unfold visit_requestor. intros Hv. apply bind_Ok in Hv as (p & Hp%vec_at_Ok & Hv).
  apply bind_Ok in Hv as (b & Hb & Hv). destruct b; [|left; by injection Hv as <-].
  destruct p; [done|]. right. destruct (bpt_lt _ _); apply bind_Ok in Hv as (f & Hf%vec_at_Ok & Hv); injection Hv as <-;
    (eexists; split_and!; [done|done|done| |done]); unfold entries; simpl;
    rewrite (concat_insert_cons _ _ _ (f ++ [c]) c Hf) by solve_Permutation; solve_Permutation.
Qed.

Lemma roc_visit_inv s i a a' :
  Forall cq_wf (commandQueues s) → inv a s → visit s i a = Ok a' → inv a' s.
Proof.
  intros Hwf Hinv Hv. unfold visit in Hv. apply bind_Ok in Hv as (p & _ & Hv). destruct p; [by injection Hv as <-|].
  apply bind_Ok in Hv as (q & Hq%vec_at_Ok & Hv). apply bind_Ok in Hv as (o & Ho & Hv). injection Hv as <-.
  pose proof (by_requestors_kind _ _ _ (pl_kinds _ _ _ _ _ (proj2 Hinv)) Hq) as Hk.
  assert (i = 0%nat) as -> by (apply lookup_lt_Some in Hq; destruct Hinv; lia).
  rewrite each_requestor_heads in Ho. eapply (forM_inv (λ a, inv a s) (λ a _, inv a s)) in Ho; [by destruct o|done|].
  intros c a1 o1 [num Hc]%heads_elem Ha1 [->|(a2 & -> & Hp & Hr & E & Ep)]%visit_requestor_enter; [done|].
  destruct Ha1 as [Hl Ha1]. split; [done|].
  eapply (pool_enter key true (marked a1) _ (pool a1) _ _ c 0%nat); [exact Ha1| | | | |].
  - split; [|done]. simpl. eapply requestor_front; [exact Hq| |exact Hk|exact Hc]. by eapply Forall_lookup_1.
  - unfold marked, key, owner. simpl. by rewrite Hp.
  - unfold pool. by rewrite E.
  - intros k. unfold marked. rewrite Ep. destruct (decide (k = Z.to_nat (bp_requestorID c))) as [->|]; [by rewrite Hp|].
    by rewrite list_lookup_insert_ne.
  - unfold marked, key, owner. simpl. rewrite Ep. apply list_lookup_insert_eq. by eapply lookup_lt_Some.
Qed.

Lemma init_same a s : entries (init a s) ≡ₚ entries a ∧ ∀ k, marked a k → marked (init a s) k.
Proof.
  unfold init. case_bool_decide; [|done]. split.
  - unfold entries. simpl. rewrite !concat_app, !omap_app. simpl. by rewrite !app_nil_r.
  - intros k. unfold marked. simpl. intros Hk. by apply lookup_app_l_Some.
Qed.

Lemma roc_chosen_same a a' s : chosen s a (None, a') → inv a s → inv a' s.
Proof.
  intros [Ep E] [Hl Hinv]. simpl in *. split; [done|]. eapply (pool_perm _ _ _ (pool a)); [unfold pool; by rewrite E|].
  eapply pool_marked; [|exact Hinv]. intros ci _. unfold marked. by rewrite Ep.
Qed.

Lemma arbitrate_inv a s a' :
  Forall cq_wf (commandQueues s) → inv a s → arbitrate a s = Ok a' → inv a' s.
Proof.
  intros Hwf Hinv Ha. unfold arbitrate in Ha. apply bind_Ok in Ha as (a1 & H1 & Ha).
  assert (inv a1 s) as Hinv1.
  { eapply (foldM_inv (λ a, inv a s)); [| |exact H1]; [|intros; by eapply roc_visit_inv].
    destruct (init_same a s) as [E Hm]. destruct Hinv as [Hl Hinv]. split; [done|].
    eapply (pool_perm _ _ _ (pool a)); [unfold pool; by rewrite E|]. eapply pool_marked; [|exact Hinv]. auto. }
  eapply (foldM_inv (λ a, inv a s)); [exact Hinv1| |exact Ha]. intros r a2 a3 _ H2 Hp.
  unfold promote in Hp. apply bind_Ok in Hp as (a4 & Hp1 & Hp2).
  eapply roc_chosen_same; [|exact H2]. eapply roc_chosen_after; [by eapply promote_PA_same|by eapply promote_CAS_same].
Qed.

Lemma ROC_schedule a s r a' s' :
  Forall cq_wf (commandQueues s) → inv a s → commandSchedule a s = Ok (r, a', s') →
  inv a' s' ∧ ∃ ic, snd <$> ic = r ∧ issues s ic s'.
Proof.
  intros Hwf Hinv Hs. unfold commandSchedule in Hs. set (s0 := set_scheduledCommand None s) in Hs.
  assert (inv a s0) as Hinv0 by (destruct Hinv; split; [done|by apply pool_scheduled]).
  apply bind_Ok in Hs as (a1 & H1%arbitrate_inv & Hs); [|done|exact Hinv0].
  apply bind_Ok in Hs as ([c a2] & Hc%choose_chosen & Hs). destruct c as [c|].
  - destruct Hc as [Ep [Hi E]]. simpl in Ep, Hi, E. apply bind_Ok in Hs as (s1 & Hsend & Hs).
    apply bind_Ok in Hs as (p & [_ ->]%vec_set_Ok & Hs). injection Hs as <- <- <-. destruct H1 as [Hl H1].
    set (a3 := set_L3 _ _ _ a2).
    edestruct (pool_send key true key_apart (marked a1) (marked a3) (pool a1) (pool a3) s s0 c 0 s1) as [Hp Hiss];
      [exact H1|apply quiet_scheduled| |exact Hi|exact Hsend| |].
    + unfold pool. by rewrite E.
    + intros k Hne. unfold marked. simpl. rewrite Ep. unfold key, owner in Hne. simpl in Hne.
      by rewrite list_lookup_insert_ne by (by apply not_eq_sym).
    + split; [|by exists (Some (0%nat, c))]. split; [|exact Hp].
      rewrite <- kinds_length, (issues_kinds _ _ _ Hiss), kinds_length. exact Hl.
  - injection Hs as <- <- <-. split; [by eapply roc_chosen_same|]. exists None. split; [done|]. constructor. apply quiet_scheduled.
Qed.

#[export] Instance scheduling : CommandScheduling Dev ROC := {| CmdAlg.commandSchedule := commandSchedule |}.
#[export] Program Instance algorithm : CommandAlgorithm Dev ROC := {|
  alg_accepts := λ _ _, True; alg_inv := inv;
  schedule_issues := ROC_schedule |}.
Next Obligation. intros a s s' [Hl Hinv] Hg. split; [by rewrite (gr_length _ _ _ Hg)|by eapply pool_grows]. Qed.

(** ** Requestor 0 keeps all others out *)

Lemma promotes_chosen s l a a' : foldM l a (promote s) = Ok a' → chosen s a (None, a').
Proof.
  apply (foldM_inv (λ a', chosen s a (None, a'))); [by apply roc_chosen_none|]. intros r a2 a3 _ H2 Hp.
  unfold promote in Hp. apply bind_Ok in Hp as (a4 & Hp1 & Hp2).
  eapply roc_chosen_after; [exact H2|]. eapply roc_chosen_after; [by eapply promote_PA_same|by eapply promote_CAS_same].
Qed.

(** With one command queue, after the first cycle: while a command of requestor 0
    waits in the scheduler, nothing enters it. [queuePending], which is indexed by
    requestor, is asked for the index of the queue as well; the entries before a
    call are those after it and the command sent. *)
Theorem ROC_waits_for_requestor_0 a s r a' s' :
  commandSchedule a s = Ok (r, a', s') →
  (length (commandQueues s) ≤ 1)%nat → sched_clock s ≠ 1 → marked a 0 →
  entries a ≡ₚ option_list r ++ entries a'.
Proof.
  intros Hs Hlen Hclk Hm. unfold commandSchedule in Hs. set (s0 := set_scheduledCommand None s) in Hs.
  apply bind_Ok in Hs as (a1 & H1 & Hs). unfold arbitrate in H1.
  assert (init a s0 = a) as E0 by (unfold init; by rewrite bool_decide_eq_false_2). rewrite E0 in H1.
  apply bind_Ok in H1 as (a2 & H2 & H1%promotes_chosen).
  assert (a2 = a) as ->.
  { simpl in H2. destruct (commandQueues s) as [|q [|q' l]]; simpl in *; [by injection H2|..|lia].
    apply bind_Ok in H2 as (a3 & H3 & H2). injection H2 as <-. unfold visit, vec_at in H3. unfold marked in Hm.
    rewrite Hm in H3. by injection H3. }
  apply bind_Ok in Hs as ([c a3] & Hc%choose_chosen & Hs).
  pose proof (roc_chosen_after _ _ _ _ H1 Hc) as [_ E]. simpl in E. destruct c as [c|].
  - apply bind_Ok in Hs as (s1 & _ & Hs). apply bind_Ok in Hs as (p & _ & Hs). injection Hs as <- <- _.
    destruct E as [_ E]. exact E.
  - injection Hs as <- <- _. symmetry. exact E.
Qed.

(** It takes commands from all queues and sends them from the first. *)
Lemma ROC_sends_from_first a s r a' s' i :
  commandSchedule a s = Ok (r, a', s') → i ≠ 0%nat → commandQueues s' !! i = commandQueues s !! i.
Proof.
  intros Hs Hi. unfold commandSchedule in Hs. apply bind_Ok in Hs as (a1 & _ & Hs).
  apply bind_Ok in Hs as ([c a2] & _ & Hs). destruct c as [c|]; [|by injection Hs as _ _ <-].
  apply bind_Ok in Hs as (s1 & Hsend & Hs). apply bind_Ok in Hs as (p & _ & Hs). injection Hs as _ _ <-.
  destruct (send_queues _ _ _ _ Hsend) as (q & q' & _ & -> & _). simpl. by rewrite list_lookup_insert_ne.
Qed.
End ROC.

(** ** Witness *)

(** An activate of requestor 0 in the FIFO, and one of requestor 2 in the queue. *)
Definition wit_roc_queue : CommandQueue :=
  (insertCommand (wit_cmd ACT 2 5) true (insertCommand (wit_cmd ACT 0 3) true (CommandQueue_ctor true)).2).2.
Definition wit_roc_s : CommandScheduler Device :=
  set_sched_clock 2 (CommandScheduler_ctor true 0 [wit_roc_queue] (<[2 := true]> ∅) wit_dev0).
Definition wit_roc : ROC :=
  mkROC [[wit_cmd ACT 0 3]; []; []; []] [[]; []; []; []] [None; None; None; None] 0
    [(None, 0); (None, 0); (None, 0); (None, 0)] 0 [true; false; false] 0 (mkTimings 0 0 11 8).

Lemma ROC_waits_for_requestor_0_witness :
  ∃ a' s', commandSchedule wit_roc wit_roc_s = Ok (Some (wit_cmd ACT 0 3), a', s') ∧
  [wit_cmd ACT 0 3] ≡ₚ wit_cmd ACT 0 3 :: entries a'.
Proof.
  set (call := commandSchedule wit_roc wit_roc_s).
  assert (match call with Ok (Some c, _, _) => bool_decide (c = wit_cmd ACT 0 3) | _ => false end = true) as H
    by (vm_compute; reflexivity).
  destruct call as [[[[c|] a'] s']|] eqn:Hs; [|discriminate H|discriminate H].
  apply bool_decide_eq_true in H. subst c. exists a', s'. split; [reflexivity|].
  apply (ROC_waits_for_requestor_0 wit_roc wit_roc_s (Some (wit_cmd ACT 0 3)) a' s' Hs).
  - apply le_n.
  - discriminate.
  - reflexivity.
Defined.
