(* ===== verification/RoundAlgo.v ===== *)
(** * The Round command scheduler

    [CommandScheduler_Round] (src/system/Round/CommandScheduler_Round.h) works in
    rounds of reads and rounds of writes. The ready command of every requestor waits
    in [tempqueue]; in a round a requestor is first considered ([consideredScheduled])
    and then served once ([servicebuffer]); an activate is held back ([blockACT]) when
    the accesses of the round would not cover its delay. [counter], [checkB] and
    [signCheck] are never read before they are set, so they are variables here.

    Main results: with a single command queue it keeps the promise of the interface;
    an access it sends has the type of the round, its requestor was considered and is
    served once in the round; and a precharge of a requestor with a number above 7,
    which [OrderPRE] does not have, is never sent. *)
From S2P Require Import Prelude Types KeyedBuf CmdQueue DRAM DDR3 Device Refresh CmdSched CmdAlg CmdAlgos Pool.

Record Round := mkRound {
  Order : list Z;
  OrderPRE : list Z;
  closestatemap : gmap Z bool;
  queuePending : gmap Z bool;
  tempqueue : gmap Z BusPacket;
  servicebuffer : list Z;
  consideredScheduled : list Z;
  lastCAScounter : Z;
  countACT : Z;
  time_issued_first_ACT : Z;
  ACTtimer : Z;
  CAStimer : Z;
  blockACT : bool;
  first_ : bool;
  jump : bool;
  roundType : bool;
}.

(** The arrays of 16 [int], [countACT], [blockACT] and [jump] are not set. *)
Definition ctor (service considered : list Z) (count : Z) (block jump : bool) : Round :=
  mkRound [] [0; 1; 2; 3; 4; 5; 6; 7] ∅ ∅ ∅ service considered 0 count 0 0 0 block true jump true.

Definition tCCD : Z := 4.
Definition compensation : Z := 1.

Definition set_order (o op : list Z) (a : Round) : Round :=
  mkRound o op (closestatemap a) (queuePending a) (tempqueue a) (servicebuffer a) (consideredScheduled a)
    (lastCAScounter a) (countACT a) (time_issued_first_ACT a) (ACTtimer a) (CAStimer a) (blockACT a) (first_ a)
    (jump a) (roundType a).
Definition set_waiting (cl p : gmap Z bool) (t : gmap Z BusPacket) (a : Round) : Round :=
  mkRound (Order a) (OrderPRE a) cl p t (servicebuffer a) (consideredScheduled a)
    (lastCAScounter a) (countACT a) (time_issued_first_ACT a) (ACTtimer a) (CAStimer a) (blockACT a) (first_ a)
    (jump a) (roundType a).
Definition set_served (sv cs : list Z) (a : Round) : Round :=
  mkRound (Order a) (OrderPRE a) (closestatemap a) (queuePending a) (tempqueue a) sv cs
    (lastCAScounter a) (countACT a) (time_issued_first_ACT a) (ACTtimer a) (CAStimer a) (blockACT a) (first_ a)
    (jump a) (roundType a).
Definition set_timers (last count time act cas : Z) (a : Round) : Round :=
  mkRound (Order a) (OrderPRE a) (closestatemap a) (queuePending a) (tempqueue a) (servicebuffer a)
    (consideredScheduled a) last count time act cas (blockACT a) (first_ a) (jump a) (roundType a).
Definition set_flags (block f j t : bool) (a : Round) : Round :=
  mkRound (Order a) (OrderPRE a) (closestatemap a) (queuePending a) (tempqueue a) (servicebuffer a)
    (consideredScheduled a) (lastCAScounter a) (countACT a) (time_issued_first_ACT a) (ACTtimer a) (CAStimer a)
    block f j t.

(** [servicebuffer[RR]] and [consideredScheduled[RR]]: a requestor outside the array
    is out of bounds. *)
Definition at16 (l : list Z) (r : Z) : res Z := vec_at l (Z.to_nat r).

Definition is_type (t : BusPacketType) (c : BusPacket) : bool := bool_decide (busPacketType c = t).

(** The two kinds of commands of the round. *)
Definition round_ACT (read : bool) : BusPacketType := if read then ACT_R else ACT_W.
Definition round_CAS (read : bool) : BusPacketType := if read then RD else WR.

Definition clean_buffers (a : Round) : Round :=
  set_flags false true (jump a) (roundType a)
    (set_timers (lastCAScounter a) 0 (time_issued_first_ACT a) 0 (CAStimer a)
       (set_served (replicate 16 0) (replicate 16 0) a)).

Section Round.
Context {Dev : Type} `{MemoryDevice Dev}.
Implicit Types s : CommandScheduler Dev.

(** ** Entering *)
Definition pending (a : Round) (id : Z) : bool := default false (queuePending a !! id).
Definition opened (a : Round) (id : Z) : bool := default false (closestatemap a !! id).

Definition visit_requestor (index : nat) s (c : BusPacket) (a : Round) : res (flow Round unit) :=
  let id := bp_requestorID c in
  b ← (if pending a id then Ok false else isReady c index s);
  Ok (Next (if b : bool then
    let p := <[id := true]> (queuePending a) in
    let t := <[id := c]> (tempqueue a) in
    if is_type ACT_R c || is_type ACT_W c then
      set_order (Order a ++ [id]) (OrderPRE a) (set_waiting (<[id := true]> (closestatemap a)) p t a)
    else if (is_type RD c || is_type WR c) && negb (opened a id) then
      set_order (Order a ++ [id]) (OrderPRE a) (set_waiting (closestatemap a) p t a)
    else set_waiting (closestatemap a) p t a
  else a)).

Definition visit s (index : nat) (a : Round) : res Round :=
  q ← queue_at index s;
  o ← each_requestor q a (visit_requestor index s);
  Ok (after o).

(** ** A new round *)

(** A command of the other type starts a round of that type; [wait] is the distance
    its accesses have to keep from the last one. *)
Definition switch_command (read : bool) (wait : Z) s (a : Round) (c : BusPacket) : Round :=
  if is_type (round_ACT read) c || is_type (round_CAS read) c then
    let a := clean_buffers a in
    let d := u64 (sched_clock s - lastCAScounter a) in
    let rrd := getTiming "tRRD" (memoryDevice s) in
    let '(act, cas) :=
      if bool_decide (d < wait) then (ACTtimer a, u32 (wait - d))
      else if is_type (round_ACT read) c then (rrd, 0) else (ACTtimer a, tCCD) in
    set_flags (blockACT a) (first_ a) true read
      (set_timers (lastCAScounter a) (countACT a) (time_issued_first_ACT a) act (if read then 0 else cas) a)
  else a.

Definition clean_for (read : bool) (a : Round) (c : BusPacket) : Round :=
  if is_type (round_ACT read) c || is_type (round_CAS read) c then clean_buffers a else a.

(** A round is over when nobody who was considered is waiting. *)
Definition switch_round s (a : Round) : Round :=
  if forallb (λ x, negb (bool_decide (x = 1))) (consideredScheduled a) then
    let d := memoryDevice s in
    let read := roundType a in
    let wait := if read then getTiming "tRTW" d
                else u32 (getTiming "tWL" d + getTiming "tBUS" d + getTiming "tWTR" d) in
    let cmds := (keys_in_order (tempqueue a)).*2 in
    let a := foldl (switch_command (negb read) wait s) a cmds in
    let a := if jump a then a else foldl (clean_for read) a cmds in
    set_flags (blockACT a) (first_ a) false (roundType a) a
  else a.

(** ** Holding activates back *)

(** Over the requestors of [Order]: does a command wait that satisfies [test], of a
    requestor whose considered flag is [x] and who is not served? *)
Definition waiting (a : Round) (x : Z) (t : BusPacketType) (k : Z) : res bool :=
  match tempqueue a !! k with
  | None => Ok false
  | Some c =>
      y ← at16 (consideredScheduled a) k;
      if bool_decide (y = x) then
        z ← at16 (servicebuffer a) k;
        Ok (bool_decide (z = 0) && is_type t c)
      else Ok false
  end.

Definition unserved (a : Round) (k : Z) : res bool :=
  y ← at16 (consideredScheduled a) k;
  if bool_decide (y = 1) then z ← at16 (servicebuffer a) k; Ok (bool_decide (z = 0)) else Ok false.

Definition count (f : Z → res bool) (l : list Z) : res Z :=
  foldM l 0 (λ k n, b ← f k; Ok (if b : bool then n + 1 else n)).

Definition block s (a : Round) : res Round :=
  if bool_decide (ACTtimer a = 0) && negb (first_ a) then
    checkA ← count (waiting a 1 (round_ACT (roundType a))) (Order a);
    checkD ← count (waiting a 0 RD) (Order a);
    if bool_decide (checkA = 0) then
      checkB ← count (unserved a) (Order a);
      let signCheck := i32 ((checkB + checkD) * tCCD + CAStimer a - getTiming "tRCD" (memoryDevice s) - compensation) in
      Ok (set_flags (bool_decide (signCheck < 0)) (first_ a) (jump a) (roundType a) a)
    else Ok a
  else Ok a.

(** ** Considering *)
Definition consider (r : Z) (a : Round) : res Round :=
  l ← vec_set (consideredScheduled a) (Z.to_nat r) 1;
  Ok (set_served (servicebuffer a) l a).

Definition not_considered (r : Z) (a : Round) : res bool :=
  x ← at16 (servicebuffer a) r;
  if bool_decide (x = 0) then y ← at16 (consideredScheduled a) r; Ok (bool_decide (y = 0)) else Ok false.

(** The inner loop over the activates of the round. *)
Definition accept_ACT (r : Z) (a : Round) : res Round :=
  match tempqueue a !! r with
  | None => Ok a
  | Some c =>
      if is_type (round_ACT (roundType a)) c && negb (blockACT a) then
        b ← not_considered r a;
        if b : bool then consider r a else Ok a
      else Ok a
  end.

Definition accept_one (r : Z) (a : Round) : res Round :=
  match tempqueue a !! r with
  | None => Ok a
  | Some c =>
      if is_type (round_ACT (roundType a)) c then
        b ← not_considered r a;
        if b && negb (blockACT a) then consider r a else Ok a
      else if is_type (round_CAS (roundType a)) c then
        b ← not_considered r a;
        if b : bool then
          a ← foldM (Order a) a accept_ACT;
          if blockACT a then Ok a else consider r a
        else Ok a
      else Ok a
  end.

Definition accept (a : Round) : res Round := foldM (Order a) a accept_one.

(** ** Sending *)

(** The activate of a requestor that is not served. *)
Definition can_ACT (a : Round) s (r : Z) : res bool :=
  match tempqueue a !! r with
  | None => Ok false
  | Some c =>
      if is_type (round_ACT (roundType a)) c then
        x ← at16 (servicebuffer a) r;
        if bool_decide (x = 0) && negb (blockACT a) then isIssuable c s else Ok false
      else Ok false
  end.

(** A choice: from [OrderPRE] or from [Order], and the position. *)
Definition choose_at (a : Round) s (i : nat) (_ : unit) : res (flow unit nat) :=
  r ← vec_at (Order a) i;
  match tempqueue a !! r with
  | None => Ok (Next tt)
  | Some c =>
      if is_type (round_ACT (roundType a)) c then
        b ← can_ACT a s r;
        Ok (if b : bool then Stop tt i else Next tt)
      else if is_type (round_CAS (roundType a)) c then
        x ← at16 (servicebuffer a) r;
        if bool_decide (x = 0) then
          k ← first_such (can_ACT a s) (Order a);
          match k with
          | Some k => Ok (Stop tt k)
          | None =>
              y ← at16 (consideredScheduled a) r;
              b ← (if bool_decide (y = 1) then isIssuable c s else Ok false);
              Ok (if b : bool then Stop tt i else Next tt)
          end
        else Ok (Next tt)
      else Ok (Next tt)
  end.

Definition can_PRE (a : Round) s (r : Z) : res bool :=
  match tempqueue a !! r with
  | None => Ok false
  | Some c => if is_type PRE c then isIssuable c s else Ok false
  end.

Definition choose (a : Round) s : res (option (bool * nat)) :=
  if bool_decide (tempqueue a = ∅) then Ok None
  else
    o ← forM (seq 0 (length (Order a))) tt (choose_at a s);
    match o with
    | Stop _ i => Ok (Some (false, i))
    | Next _ =>
        k ← first_such (can_PRE a s) (OrderPRE a);
        Ok (match k with Some k => Some (true, k) | None => None end)
    end.

Definition note_ACT (d : Dev) (a : Round) : Round :=
  let rrd := getTiming "tRRD" d in
  let faw := getTiming "tFAW" d in
  let t := time_issued_first_ACT a in
  let '(n, t, act) :=
    if bool_decide (countACT a = 0) then (1, 0, rrd)
    else if bool_decide (countACT a = 3) then
      if bool_decide (t < faw) then (0, 0, faw - t) else (countACT a, t, ACTtimer a)
    else (u32 (countACT a + 1), t, rrd) in
  set_flags (blockACT a) false (jump a) (roundType a) (set_timers (lastCAScounter a) n t act (CAStimer a) a).

Definition note_CAS (i : nat) (r id : Z) s (a : Round) : res Round :=
  o ← vec_erase (Order a) i;
  sv ← vec_set (servicebuffer a) (Z.to_nat r) 1;
  cs ← vec_set (consideredScheduled a) (Z.to_nat r) 0;
  Ok (set_flags (blockACT a) false (jump a) (roundType a)
        (set_timers (sched_clock s) (countACT a) (time_issued_first_ACT a) (ACTtimer a) tCCD
           (set_served sv cs (set_waiting (<[id := false]> (closestatemap a)) (queuePending a) (tempqueue a)
              (set_order o (OrderPRE a) a))))).

(** [send_precedure]. *)
Definition send_precedure (c : BusPacket) (pre : bool) (r : Z) (i : nat) (a : Round) s
    : res (Round * CommandScheduler Dev) :=
  st ← (if pre then
          o ← vec_erase (OrderPRE a) i;
          s ← send c 0 s;
          Ok (set_order (Order a) (o ++ [r]) a, s)
        else if is_type ACT_W c || is_type ACT_R c then
          s ← send c 0 s;
          Ok (note_ACT (memoryDevice s) a, s)
        else if is_type WR c || is_type RD c then
          s ← send c 0 s;
          a ← note_CAS i r (bp_requestorID c) s a;
          Ok (a, s)
        else Ok (a, set_scheduledCommand (Some c) s));
  let '(a, s) := st in
  Ok (set_waiting (closestatemap a) (<[bp_requestorID c := false]> (queuePending a)) (delete r (tempqueue a)) a, s).

(** ** One cycle *)
Definition count_down (x : Z) : Z := if bool_decide (0 < x) then x - 1 else x.

Definition start_cycle (a : Round) : Round :=
  set_flags false (first_ a) (jump a) (roundType a)
    (set_timers (lastCAScounter a) (countACT a) (u32 (time_issued_first_ACT a + 1)) (count_down (ACTtimer a))
       (count_down (CAStimer a)) a).

Definition prepare (a : Round) s : res Round :=
  a ← foldM (seq 0 (length (commandQueues s))) (start_cycle a) (visit s);
  a ← block s (switch_round s a);
  accept a.

Definition commandSchedule (a : Round) (s : CommandScheduler Dev)
    : res (option BusPacket * Round * CommandScheduler Dev) :=
  let s := set_scheduledCommand None s in
  a ← prepare a s;
  o ← choose a s;
  match o with
  | None => Ok (None, a, s)
  | Some (pre, i) =>
      r ← vec_at (if pre : bool then OrderPRE a else Order a) i;
      c ← of_option Undefined (tempqueue a !! r);
      st ← send_precedure c pre r i a s;
      Ok (Some c, st.1, st.2)
  end.

(** ** The promise, with a single command queue *)
Definition pool (a : Round) : fifo := (λ kc : Z * BusPacket, (kc.2, 0%nat)) <$> map_to_list (tempqueue a).
Definition marked (a : Round) (id : Z) : Prop := pending a id = true.
Definition keyed (a : Round) : Prop := ∀ k c, tempqueue a !! k = Some c → bp_requestorID c = k.
Definition inv (a : Round) (s : CommandScheduler Dev) : Prop :=
  (length (commandQueues s) ≤ 1)%nat ∧ keyed a ∧ pool_inv owner true (marked a) (pool a) s.

(** The steps between entering and sending change neither the waiting commands nor
    the orders. *)
Record same_waiting (a a' : Round) : Prop := {
  sw_temp : tempqueue a' = tempqueue a;
  sw_pending : queuePending a' = queuePending a;
  sw_order : Order a' = Order a;
  sw_orderPRE : OrderPRE a' = OrderPRE a;
}.

#[export] Instance same_waiting_preorder : PreOrder same_waiting.
Proof. split; [by split|]. intros a1 a2 a3 [] []. split; congruence. Qed.

Lemma foldl_waiting {B} (f : Round → B → Round) l a :
  (∀ a b, same_waiting a (f a b)) → same_waiting a (foldl f a l).
Proof. intros Hf. revert a. induction l as [|b l IH]; intros a; [done|]. simpl. etransitivity; [apply Hf|apply IH]. Qed.

(** Blocking and considering do not change who is served either. *)
Definition same_round (a a' : Round) : Prop :=
  same_waiting a a' ∧ servicebuffer a' = servicebuffer a ∧ roundType a' = roundType a.

#[export] Instance same_round_preorder : PreOrder same_round.
Proof.
  split; [by split|]. intros a1 a2 a3 (? & ? & ?) (? & ? & ?). split; [by etransitivity|split; congruence].
Qed.

Lemma foldM_round {B} (f : B → Round → res Round) l a a' :
  (∀ b a a', f b a = Ok a' → same_round a a') → foldM l a f = Ok a' → same_round a a'.
Proof.
  intros Hf. apply (foldM_inv (same_round a)); [done|]. intros b a1 a2 _ H1 H2. etransitivity; [exact H1|by eapply Hf].
Qed.

Lemma switch_round_waiting s a : same_waiting a (switch_round s a).
Proof.
  unfold switch_round. destruct (forallb _ _); [|done].
  set (a1 := foldl (switch_command _ _ _) a _).
  assert (same_waiting a a1) as H1.
  { apply foldl_waiting. intros b c. unfold switch_command. destruct (_ || _); [|done].
    destruct (bool_decide _); [|destruct (is_type _ c)]; by destruct (negb _). }
  set (a2 := if jump a1 then a1 else _). assert (same_waiting a1 a2) as H2.
  { unfold a2. destruct (jump a1); [done|]. apply foldl_waiting. intros b c. unfold clean_for. by destruct (_ || _). }
  destruct H1, H2. split; simpl; congruence.
Qed.

Lemma block_round s a a' : block s a = Ok a' → same_round a a'.
Proof.
  unfold block. intros Hb. destruct (_ && _); [|by injection Hb as <-].
  apply bind_Ok in Hb as (x & _ & Hb). apply bind_Ok in Hb as (y & _ & Hb).
  case_bool_decide; [|by injection Hb as <-]. apply bind_Ok in Hb as (z & _ & Hb). by injection Hb as <-.
Qed.

Lemma consider_round r a a' : consider r a = Ok a' → same_round a a'.
Proof. unfold consider. intros Hc. apply bind_Ok in Hc as (l & _ & Hc). by injection Hc as <-. Qed.

Lemma accept_ACT_round r a a' : accept_ACT r a = Ok a' → same_round a a'.
Proof.
  unfold accept_ACT. intros Ha. destruct (tempqueue a !! r) as [c|]; [|by injection Ha as <-].
  destruct (_ && _); [|by injection Ha as <-]. apply bind_Ok in Ha as ([] & _ & Ha); [by apply consider_round in Ha|by injection Ha as <-].
Qed.

Lemma accept_one_round r a a' : accept_one r a = Ok a' → same_round a a'.
Proof.
  unfold accept_one. intros Ha. destruct (tempqueue a !! r) as [c|]; [|by injection Ha as <-].
  destruct (is_type _ _).
  - apply bind_Ok in Ha as (b & _ & Ha). destruct (_ && _); [by apply consider_round in Ha|by injection Ha as <-].
  - destruct (is_type _ _); [|by injection Ha as <-]. apply bind_Ok in Ha as ([] & _ & Ha); [|by injection Ha as <-].
    apply bind_Ok in Ha as (a1 & H1 & Ha). etransitivity; [eapply foldM_round; [apply accept_ACT_round|exact H1]|].
    destruct (blockACT a1); [by injection Ha as <-|by apply consider_round in Ha].
Qed.

Lemma accept_round a a' : accept a = Ok a' → same_round a a'.
Proof. apply foldM_round. apply accept_one_round. Qed.

Lemma same_waiting_inv a a' s : same_waiting a a' → inv a s → inv a' s.
Proof.
  intros [Et Ep _ _] (Hl & Hk & Hinv). unfold inv, keyed, pool, marked, pending. by rewrite Et, Ep.
Qed.

(** A command enters under the number of its requestor. *)
Lemma visit_requestor_inv i s c a o :
  inv a s → at_front 0 c s → i = 0%nat → visit_requestor i s c a = Ok o →
  ∃ a', o = Next a' ∧ inv a' s ∧ OrderPRE a' = OrderPRE a ∧
    (∀ id, pending a id = true → pending a' id = true ∧ tempqueue a' !! id = tempqueue a !! id).
Proof.
  intros (Hl & Hk & Hinv) Hf -> Hv. unfold visit_requestor in Hv. apply bind_Ok in Hv as (b & Hb & Hv).
  injection Hv as <-. eexists. split; [reflexivity|]. destruct b; [|by split_and!].
  destruct (pending a (bp_requestorID c)) eqn:Hp; [done|]. set (id := bp_requestorID c) in *.
  set (a' := if is_type ACT_R c || is_type ACT_W c then _ else _).
  assert (tempqueue a' = <[id := c]> (tempqueue a) ∧ queuePending a' = <[id := true]> (queuePending a) ∧ OrderPRE a' = OrderPRE a)
    as (Et & Ep & Eo).
  { unfold a'. destruct (_ || _); [done|]. by destruct (_ && _). }
  assert (tempqueue a !! id = None) as Hnone.
  { destruct (tempqueue a !! id) as [c'|] eqn:E; [|done]. exfalso.
    destruct (pl_entry _ _ _ _ _ Hinv (c', 0%nat)) as [Hm _].
    - apply list_elem_of_fmap. exists (id, c'). split; [done|]. by apply elem_of_map_to_list.
    - unfold marked, owner in Hm. simpl in Hm. rewrite (Hk _ _ E) in Hm. congruence. }
  split_and!; [split; [done|split]|exact Eo|].
  - intros k c'. rewrite Et. intros [[<- <-]|[_ ?]]%lookup_insert_Some; [done|by apply Hk].
  - eapply (pool_enter owner true (marked a) _ (pool a) _ _ c 0%nat); [exact Hinv|done| | | |].
    + unfold marked, owner. simpl. fold id; by rewrite Hp.
    + unfold pool. rewrite Et. by rewrite map_to_list_insert.
    + intros k. unfold marked, pending. rewrite Ep. destruct (decide (k = id)) as [->|];
        [by rewrite lookup_insert_eq|by rewrite lookup_insert_ne].
    + unfold marked, owner, pending. rewrite Ep. unfold id. simpl. by rewrite lookup_insert_eq.
  - intros k Hpk. assert (k ≠ id) by congruence. unfold pending. rewrite Ep, Et. by rewrite !lookup_insert_ne by done.
Qed.

Definition kept (a a' : Round) : Prop :=
  OrderPRE a' = OrderPRE a ∧
  ∀ id, pending a id = true → pending a' id = true ∧ tempqueue a' !! id = tempqueue a !! id.

#[export] Instance kept_preorder : PreOrder kept.
Proof.
  split; [by split|]. intros a1 a2 a3 [O1 K1] [O2 K2]. split; [congruence|]. intros id Hp.
  destruct (K1 id Hp) as [Hp2 E2]. destruct (K2 id Hp2). split; [done|congruence].
Qed.

Lemma same_waiting_kept a a' : same_waiting a a' → kept a a'.
Proof. intros [Et Ep _ Eo]. split; [done|]. intros id. unfold pending. by rewrite Et, Ep. Qed.

Lemma round_visit_inv s i a a' :
  Forall cq_wf (commandQueues s) → inv a s → visit s i a = Ok a' → inv a' s ∧ kept a a'.
Proof.
  intros Hwf Hinv Hv. unfold visit in Hv. apply bind_Ok in Hv as (q & Hq%vec_at_Ok & Hv).
  apply bind_Ok in Hv as (o & Ho & Hv). injection Hv as <-.
  assert (i = 0%nat) as -> by (apply lookup_lt_Some in Hq; destruct Hinv; lia).
  pose proof (by_requestors_kind _ _ _ (pl_kinds _ _ _ _ _ (proj2 (proj2 Hinv))) Hq) as Hk.
  rewrite each_requestor_heads in Ho.
  eapply (forM_inv (λ a', inv a' s ∧ kept a a') (λ a' _, inv a' s ∧ kept a a')) in Ho; [by destruct o|done|].
  intros c a1 o1 [num Hc]%heads_elem [Ha1 K1] Hv.
  eapply visit_requestor_inv in Hv as (a2 & -> & Ha2 & Ko & K2); [|done| |done].
  - split; [done|]. etransitivity; [exact K1|by split].
  - eapply requestor_front; [exact Hq| |exact Hk|exact Hc]. by eapply Forall_lookup_1.
Qed.

Lemma prepare_inv s a a' :
  Forall cq_wf (commandQueues s) → inv a s → prepare a s = Ok a' → inv a' s ∧ kept a a'.
Proof.
  intros Hwf Hinv Hp. unfold prepare in Hp. apply bind_Ok in Hp as (a1 & H1 & Hp).
  apply bind_Ok in Hp as (a2 & H2%block_round & H3%accept_round).
  assert (inv a1 s ∧ kept a a1) as [I1 K1].
  { apply (foldM_inv (λ a1, inv a1 s ∧ kept a a1)) in H1; [done|by split; [eapply same_waiting_inv; [|exact Hinv]|]|].
    intros i b b' _ [Hb Kb] Hv. destruct (round_visit_inv _ _ _ _ Hwf Hb Hv). split; [done|by etransitivity]. }
  assert (same_waiting a1 a') as Hsw by (etransitivity; [apply switch_round_waiting|etransitivity; [apply H2|apply H3]]).
  split; [by eapply same_waiting_inv|]. etransitivity; [exact K1|by apply same_waiting_kept].
Qed.

(** ** What is chosen *)

Lemma can_ACT_true a s r :
  can_ACT a s r = Ok true → ∃ c, tempqueue a !! r = Some c ∧ isIssuable c s = Ok true ∧
    busPacketType c = round_ACT (roundType a).
Proof.
  unfold can_ACT. destruct (tempqueue a !! r) as [c|]; [|done]. unfold is_type.
  destruct (bool_decide_reflect (busPacketType c = round_ACT (roundType a))); [|done].
  intros Hc. apply bind_Ok in Hc as (x & _ & Hc). destruct (_ && _); [|done]. eauto.
Qed.

(** An access is sent when it has the type of the round and its requestor was
    considered and is not served. *)
Definition serves (a : Round) (r : Z) (c : BusPacket) : Prop :=
  busPacketType c = round_CAS (roundType a) ∧
  servicebuffer a !! Z.to_nat r = Some 0 ∧ consideredScheduled a !! Z.to_nat r = Some 1.

Lemma choose_at_Stop a s i u k :
  choose_at a s i tt = Ok (Stop u k) →
  ∃ r c, Order a !! k = Some r ∧ tempqueue a !! r = Some c ∧ isIssuable c s = Ok true ∧
    (busPacketType c = round_ACT (roundType a) ∨ serves a r c).
Proof.
  unfold choose_at. intros Hc. apply bind_Ok in Hc as (r & Hr%vec_at_Ok & Hc).
  destruct (tempqueue a !! r) as [c|] eqn:Ht; [|done]. destruct (is_type (round_ACT _) c) eqn:Eact.
  - apply bind_Ok in Hc as ([] & Hb & Hc); [|done]. injection Hc as _ <-.
    destruct (can_ACT_true _ _ _ Hb) as (c' & Hc' & Hi & Hty). exists r, c'. split_and!; [done|done|done|by left].
  - destruct (is_type (round_CAS _) c) eqn:Ecas; [|done]. apply bind_Ok in Hc as (x & Hx%vec_at_Ok & Hc).
    case_bool_decide; [|done]. apply bind_Ok in Hc as ([j|] & Hj & Hc).
    + injection Hc as _ <-. apply first_such_Some in Hj as (r' & Hr' & Hj & _).
      destruct (can_ACT_true _ _ _ Hj) as (c' & Hc' & Hi & Hty). exists r', c'. split_and!; [done|done|done|by left].
    + apply bind_Ok in Hc as (y & Hy%vec_at_Ok & Hc). apply bind_Ok in Hc as ([] & Hb & Hc); [|done].
      injection Hc as _ <-. case_bool_decide; [|done]. subst. exists r, c. split_and!; [done|done|done|right].
      split; [by apply bool_decide_eq_true in Ecas|done].
Qed.

Lemma choose_Some a s pre i :
  choose a s = Ok (Some (pre, i)) →
  ∃ r c, (if pre : bool then OrderPRE a else Order a) !! i = Some r ∧ tempqueue a !! r = Some c ∧
    isIssuable c s = Ok true ∧
    (if pre then busPacketType c = PRE else busPacketType c = round_ACT (roundType a) ∨ serves a r c).
Proof.
  unfold choose. intros Hc. case_bool_decide; [done|]. apply bind_Ok in Hc as (o & Ho & Hc).
  apply (forM_inv (λ _, True) (λ _ k, ∃ r c, Order a !! k = Some r ∧ tempqueue a !! r = Some c ∧ isIssuable c s = Ok true ∧
    (busPacketType c = round_ACT (roundType a) ∨ serves a r c))) in Ho; [|done|].
  - destruct o as [u|u k]; [|by injection Hc as <- <-].
    apply bind_Ok in Hc as ([k|] & Hk & Hc); [|done]. injection Hc as <- <-.
    apply first_such_Some in Hk as (r & Hr & Hk & _). unfold can_PRE in Hk.
    destruct (tempqueue a !! r) as [c|] eqn:Ht; [|done]. destruct (is_type PRE c) eqn:E; [|done].
    exists r, c. split_and!; [done|done|done|]. by apply bool_decide_eq_true in E.
  - intros j [] o1 _ _ Hv. destruct o1; [done|]. by eapply choose_at_Stop.
Qed.

Lemma send_precedure_Ok c pre r i a s a' s' :
  (if pre : bool then busPacketType c = PRE else ∃ t, busPacketType c = round_ACT t ∨ busPacketType c = round_CAS t) →
  send_precedure c pre r i a s = Ok (a', s') →
  send c 0 s = Ok s' ∧ tempqueue a' = delete r (tempqueue a) ∧
  queuePending a' = <[bp_requestorID c := false]> (queuePending a) ∧ roundType a' = roundType a ∧
  (if pre then ∃ o, vec_erase (OrderPRE a) i = Ok o ∧ OrderPRE a' = o ++ [r] else OrderPRE a' = OrderPRE a) ∧
  (∀ t, busPacketType c = round_CAS t → pre = false → servicebuffer a' !! Z.to_nat r = Some 1).
Proof.
  intros Hty Hs. unfold send_precedure in Hs. apply bind_Ok in Hs as ([a1 s1] & H1 & Hs). injection Hs as <- <-.
  destruct pre.
  - apply bind_Ok in H1 as (o & Ho & H1). apply bind_Ok in H1 as (s2 & Hsend & H1). injection H1 as <- <-.
    split_and!; [done|done|done|done|by exists o|done].
  - destruct (is_type ACT_W c || is_type ACT_R c) eqn:Eact.
    + apply bind_Ok in H1 as (s2 & Hsend & H1). injection H1 as <- <-.
      assert (∀ d, tempqueue (note_ACT d a) = tempqueue a ∧ queuePending (note_ACT d a) = queuePending a ∧
        roundType (note_ACT d a) = roundType a ∧ OrderPRE (note_ACT d a) = OrderPRE a) as Hn.
      { intros d. unfold note_ACT. do 2 (case_bool_decide; [try done|]); [by case_bool_decide|done]. }
      destruct (Hn (memoryDevice s2)) as (E1 & E2 & E3 & E4). simpl. rewrite E1, E2.
      split_and!; [done|done|done|done|done|]. intros t Ht _. unfold is_type in Eact. rewrite Ht in Eact. by destruct t.
    + destruct (is_type WR c || is_type RD c) eqn:Ecas.
      * apply bind_Ok in H1 as (s2 & Hsend & H1). apply bind_Ok in H1 as (a2 & Hn & H1). injection H1 as <- <-.
        unfold note_CAS in Hn. apply bind_Ok in Hn as (o & _ & Hn). apply bind_Ok in Hn as (sv & Hsv & Hn).
        apply bind_Ok in Hn as (cs & _ & Hn). injection Hn as <-. split_and!; [done|done|done|done|done|].
        intros t _ _. simpl. apply vec_set_Ok in Hsv as [Hlt ->]. by apply list_lookup_insert_eq.
      * exfalso. unfold is_type in Eact, Ecas. destruct Hty as ([] & [E|E]); rewrite E in Eact, Ecas; done.
Qed.

Lemma Round_schedule a s r a' s' :
  Forall cq_wf (commandQueues s) → inv a s → commandSchedule a s = Ok (r, a', s') →
  inv a' s' ∧ ∃ ic, snd <$> ic = r ∧ issues s ic s'.
Proof.
  intros Hwf (Hl & Hk & Hinv) Hs. unfold commandSchedule in Hs. set (s0 := set_scheduledCommand None s) in Hs.
  assert (inv a s0) as Hinv0 by (split; [done|split; [done|by apply pool_scheduled]]).
  apply bind_Ok in Hs as (a1 & H1 & Hs). apply prepare_inv in H1 as [(Hl1 & Hk1 & Hinv1) _]; [|done|exact Hinv0].
  apply bind_Ok in Hs as ([[pre i]|] & Hc & Hs).
  - apply choose_Some in Hc as (id & c & Hid & Ht & Hi & Hty). unfold vec_at in Hs. rewrite Hid in Hs.
    cbn [of_option mbind res_bind] in Hs. rewrite Ht in Hs. cbn [of_option mbind res_bind] in Hs.
    apply bind_Ok in Hs as ([a2 s2] & Hsend & Hs). injection Hs as <- <- <-.
    apply send_precedure_Ok in Hsend as (Hsend & Et & Ep & _); [|destruct pre; [done|destruct Hty as [|[? _]]; eauto]].
    cbn [fst snd]. pose proof (Hk1 _ _ Ht) as Hidc.
    edestruct (pool_send owner true owner_apart (marked a1) (marked a2) (pool a1) (pool a2) s s0 c 0 s2) as [Hp Hiss];
      [exact Hinv1|apply quiet_scheduled| |exact Hi|exact Hsend| |].
    + unfold pool. rewrite Et. rewrite <- (insert_delete_id (tempqueue a1) id c Ht) at 1.
      rewrite map_to_list_insert by apply lookup_delete_eq. done.
    + intros k Hne. unfold marked, pending. rewrite Ep. unfold owner in Hne. simpl in Hne. by rewrite lookup_insert_ne.
    + split; [|by exists (Some (0%nat, c))]. split; [|split; [|exact Hp]].
      * rewrite <- kinds_length, (issues_kinds _ _ _ Hiss), kinds_length. exact Hl.
      * intros k c'. rewrite Et. intros [_ ?]%lookup_delete_Some. by apply Hk1.
  - injection Hs as <- <- <-. split; [done|]. exists None. split; [done|]. constructor. apply quiet_scheduled.
Qed.

#[export] Instance scheduling : CommandScheduling Dev Round := {| CmdAlg.commandSchedule := commandSchedule |}.
#[export] Program Instance algorithm : CommandAlgorithm Dev Round := {|
  alg_accepts := λ _ _, True; alg_inv := inv;
  schedule_issues := Round_schedule |}.
Next Obligation.
  intros a s s' (Hl & Hk & Hinv) Hg. split; [by rewrite (gr_length _ _ _ Hg)|split; [done|by eapply pool_grows]].
Qed.

(** ** One access per round *)

Lemma visit_served s i a a' :
  visit s i a = Ok a' → servicebuffer a' = servicebuffer a ∧ consideredScheduled a' = consideredScheduled a.
Proof.
  unfold visit. intros Hv. apply bind_Ok in Hv as (q & _ & Hv). apply bind_Ok in Hv as (o & Ho & Hv). injection Hv as <-.
  rewrite each_requestor_heads in Ho.
  set (P := λ b, servicebuffer b = servicebuffer a ∧ consideredScheduled b = consideredScheduled a).
  eapply (forM_inv P (λ b _, P b)) in Ho; [by destruct o|done|].
  intros c b o1 _ [E1 E2] Hb. unfold visit_requestor in Hb. apply bind_Ok in Hb as (x & _ & Hb). injection Hb as <-.
  destruct x; [|done]. destruct (_ || _); [done|]. by destruct (_ && _).
Qed.

Lemma prepare_served s a a' :
  prepare a s = Ok a' → servicebuffer a' = servicebuffer a ∨ Forall (λ x, x ≠ 1) (consideredScheduled a).
Proof.
  intros Hp. unfold prepare in Hp. apply bind_Ok in Hp as (a1 & H1 & Hp).
  apply bind_Ok in Hp as (a2 & (_ & E2 & _)%block_round & (_ & E3 & _)%accept_round).
  assert (servicebuffer a1 = servicebuffer a ∧ consideredScheduled a1 = consideredScheduled a) as [E1 F1].
  { apply (foldM_inv (λ b, servicebuffer b = servicebuffer a ∧ consideredScheduled b = consideredScheduled a)) in H1; [done..|].
    intros i b b' _ [Hb Fb] [Hv Fv]%visit_served. split; congruence. }
  rewrite E3, E2. unfold switch_round. destruct (forallb _ _) eqn:Hall; [right|by left].
  rewrite <- F1. apply Forall_forall. intros x Hx Heq. rewrite forallb_forall in Hall.
  specialize (Hall x). rewrite <- list_elem_of_In, Heq in Hall. rewrite <- Heq in Hall at 1. by apply Hall in Hx.
Qed.

(** In a round every requestor is served at most once, with accesses of the type
    of the round: an access is sent for a requestor that is not marked as served, and
    marks it, unless the round was just begun anew, which needs that nobody who was
    considered waits. *)
Theorem Round_serves_once a s c a' s' :
  Forall cq_wf (commandQueues s) → inv a s →
  commandSchedule a s = Ok (Some c, a', s') → (busPacketType c = RD ∨ busPacketType c = WR) →
  let r := Z.to_nat (bp_requestorID c) in
  busPacketType c = round_CAS (roundType a') ∧ servicebuffer a' !! r = Some 1 ∧
  (servicebuffer a !! r = Some 0 ∨ Forall (λ x, x ≠ 1) (consideredScheduled a)).
Proof.
  intros Hwf (Hl & Hk & Hinv) Hs Hty r. unfold commandSchedule in Hs. set (s0 := set_scheduledCommand None s) in Hs.
  assert (inv a s0) as Hinv0 by (split; [done|split; [done|by apply pool_scheduled]]).
  apply bind_Ok in Hs as (a1 & H1 & Hs). pose proof (prepare_served _ _ _ H1) as Hsv.
  apply prepare_inv in H1 as [(_ & Hk1 & _) _]; [|done|exact Hinv0].
  apply bind_Ok in Hs as ([[pre i]|] & Hc & Hs); [|done].
  apply choose_Some in Hc as (id & c' & Hid & Ht & _ & Hc). unfold vec_at in Hs. rewrite Hid in Hs.
  cbn [of_option mbind res_bind] in Hs. rewrite Ht in Hs. cbn [of_option mbind res_bind] in Hs.
  apply bind_Ok in Hs as ([a2 s2] & Hsend & Hs). injection Hs as -> <- <-. cbn [fst snd].
  assert (pre = false) as -> by (destruct pre; [|done]; rewrite Hc in Hty; by destruct Hty).
  destruct Hc as [Hc|(Hc & Hs0 & _)]; [exfalso; rewrite Hc in Hty; destruct (roundType a1); by destruct Hty|].
  apply send_precedure_Ok in Hsend as (_ & _ & _ & Er & _ & Hs1); [|eauto].
  unfold r. rewrite (Hk1 _ _ Ht). rewrite Er. split_and!; [done|by eapply Hs1|].
  destruct Hsv as [<-|]; [by left|by right].
Qed.

(** ** Precharges of requestors above 7 *)

(** A precharge waits, and its requestor is not in [OrderPRE]. *)
Definition stuck (id : Z) (c : BusPacket) (a : Round) : Prop :=
  tempqueue a !! id = Some c ∧ pending a id = true ∧ OrderPRE a ≡ₚ [0; 1; 2; 3; 4; 5; 6; 7].

(** A precharge of a requestor with a number above 7 that entered the scheduler is
    never sent, and stays there for ever: [OrderPRE] only has the requestors the
    constructor puts into it. *)
Theorem Round_PRE_stuck id c a s r a' s' :
  7 < id → busPacketType c = PRE → stuck id c a →
  Forall cq_wf (commandQueues s) → inv a s → commandSchedule a s = Ok (r, a', s') →
  stuck id c a' ∧ ∀ c', r = Some c' → bp_requestorID c' ≠ id.
Proof.
  intros Hid Hpre (Ht & Hp & Ho) Hwf (Hl & Hk & Hinv) Hs. unfold commandSchedule in Hs.
  set (s0 := set_scheduledCommand None s) in Hs.
  assert (inv a s0) as Hinv0 by (split; [done|split; [done|by apply pool_scheduled]]).
  apply bind_Ok in Hs as (a1 & H1 & Hs). apply prepare_inv in H1 as [(_ & Hk1 & _) [Eo Hkept]]; [|done|exact Hinv0].
  destruct (Hkept id Hp) as [Hp1 Et1]. rewrite Ht in Et1. rewrite <- Eo in Ho.
  apply bind_Ok in Hs as ([[pre i]|] & Hc & Hs); [|by injection Hs as <- <- <-].
  apply choose_Some in Hc as (id' & c' & Hi & Ht' & _ & Hc). unfold vec_at in Hs. rewrite Hi in Hs.
  cbn [of_option mbind res_bind] in Hs. rewrite Ht' in Hs. cbn [of_option mbind res_bind] in Hs.
  apply bind_Ok in Hs as ([a2 s2] & Hsend & Hs). injection Hs as <- <- <-. cbn [fst snd].
  assert (id' ≠ id) as Hne.
  { intros ->. rewrite Et1 in Ht'. injection Ht' as <-. destruct pre.
    - apply list_elem_of_lookup_2 in Hi. rewrite Ho in Hi. rewrite !elem_of_cons, elem_of_nil in Hi. lia.
    - destruct Hc as [Hc|(Hc & _)]; rewrite Hpre in Hc; by destruct (roundType a1). }
  apply send_precedure_Ok in Hsend as (_ & Et & Ep & _ & Eo2 & _); [|destruct pre; [done|destruct Hc as [|[? _]]; eauto]].
  pose proof (Hk1 _ _ Ht') as Hid'. split; [split_and!|].
  - rewrite Et. by rewrite lookup_delete_ne.
  - unfold pending. rewrite Ep, lookup_insert_ne by congruence. exact Hp1.
  - destruct pre; [|by rewrite Eo2]. destruct Eo2 as (o & [_ ->]%vec_erase_Ok & ->). rewrite <- Ho.
    rewrite (delete_Permutation _ _ _ Hi) at 2. solve_Permutation.
  - intros c2 [= <-]. congruence.
Qed.
End Round.

(** ** Witnesses *)
Definition wit_one (c : BusPacket) : CommandQueue := (insertCommand c true (CommandQueue_ctor true)).2.

Lemma wit_one_wf c : cq_wf (wit_one c).
Proof.
  unfold wit_one. destruct (insertCommand c true (CommandQueue_ctor true)) as [b q] eqn:E.
  by destruct (insertCommand_ok _ _ _ _ _ (CommandQueue_ctor_wf true) E) as (_ & ? & _).
Qed.

Definition wit_round_s (c : BusPacket) : CommandScheduler Device :=
  CommandScheduler_ctor true 0 [wit_one c] (<[2 := true]> ∅) wit_dev0.
Definition wit_round0 : Round := ctor (replicate 16 0) (replicate 16 0) 0 false false.

Lemma wit_round_inv c : inv wit_round0 (wit_round_s c).
Proof. split; [simpl; lia|]. split; [done|]. split; [by repeat constructor|apply NoDup_nil_2|]. intros ci Hin. by apply elem_of_nil in Hin. Qed.

Lemma Round_serves_once_witness :
  ∃ a' s', commandSchedule wit_round0 (wit_round_s wit_late_read) = Ok (Some wit_late_read, a', s') ∧
  servicebuffer a' !! 2%nat = Some 1.
Proof.
  set (call := commandSchedule wit_round0 (wit_round_s wit_late_read)).
  assert (match call with Ok (Some c, _, _) => bool_decide (c = wit_late_read) | _ => false end = true) as H
    by (vm_compute; reflexivity).
  destruct call as [[[[c|] a'] s']|] eqn:Hs; [|discriminate H|discriminate H].
  apply bool_decide_eq_true in H. subst c. exists a', s'. split; [reflexivity|].
  apply (Round_serves_once wit_round0 (wit_round_s wit_late_read) wit_late_read a' s').
  - constructor; [apply wit_one_wf|constructor].
  - apply wit_round_inv.
  - exact Hs.
  - left. reflexivity.
Defined.

(** A precharge of requestor 9 that is ready and issuable. *)
Definition wit_pre : BusPacket := wit_cmd PRE 9 3.
Definition wit_stuck : Round := set_waiting ∅ (<[9 := true]> ∅) (<[9 := wit_pre]> ∅) wit_round0.

Lemma wit_stuck_inv : inv wit_stuck (wit_round_s wit_pre).
Proof.
  split; [simpl; lia|]. split.
  - intros k c Hc. change (<[9 := wit_pre]> (∅ : gmap Z BusPacket) !! k = Some c) in Hc. revert Hc. intros [[<- <-]|[_ Hc]]%lookup_insert_Some; [done|]. by rewrite lookup_empty in Hc.
  - assert (pool wit_stuck = [(wit_pre, 0%nat)]) as E by (vm_compute; reflexivity).
    split; [by repeat constructor|rewrite E; apply NoDup_singleton|]. rewrite E. intros ci ->%list_elem_of_singleton.
    split; [reflexivity|]. split; [|vm_compute; reflexivity].
    exists (wit_one wit_pre). split; [done|]. exists []. reflexivity.
Qed.

Lemma Round_PRE_stuck_witness :
  isIssuable wit_pre (wit_round_s wit_pre) = Ok true ∧
  ∃ a' s', commandSchedule wit_stuck (wit_round_s wit_pre) = Ok (None, a', s') ∧ stuck 9 wit_pre a'.
Proof.
  split; [vm_compute; reflexivity|].
  set (call := commandSchedule wit_stuck (wit_round_s wit_pre)).
  assert (match call with Ok (None, _, _) => true | _ => false end = true) as H by (vm_compute; reflexivity).
  destruct call as [[[[c|] a'] s']|] eqn:Hs; [discriminate H| |discriminate H]. exists a', s'. split; [reflexivity|].
  apply (Round_PRE_stuck 9 wit_pre wit_stuck (wit_round_s wit_pre) None a' s').
  - lia.
  - reflexivity.
  - split; [reflexivity|]. split; [reflexivity|]. apply Permutation_refl.
  - constructor; [apply wit_one_wf|constructor].
  - apply wit_stuck_inv.
  - exact Hs.
Defined.
