(* ===== verification/MagAlgo.v ===== *)
(** * The MAG command scheduler

    [CommandScheduler_MAG] (src/system/MAG/CommandScheduler_MAG.h) serves critical
    commands first, queue after queue, and holds everything back for a critical access
    that is ready and not issuable. When nothing critical goes it serves noncritical
    commands, before them the precharges and activates that a critical command makes
    necessary ([compensateCommands]).

    It is no instance of [CommandAlgorithm]. Main results: what it sends is issuable;
    a noncritical command is sent without a look at the timers of its queue; and when
    a queue has commands of both kinds, sending the critical one takes the noncritical
    one out of the queue. *)
From S2P Require Import Prelude Types KeyedBuf CmdQueue DRAM DDR3 Device Refresh CmdSched CmdAlg CmdAlgos Pool.

(** [bypass] is [false] between calls: it is a variable here. *)
Record MAG := mkMAG {
  indexRT : nat;
  indexHP : nat;
  casBlocking : bool;
  compensateCommands : list (list BusPacket);
}.

Definition ctor (queues : list CommandQueue) : MAG := mkMAG 0 0 false ((λ _, []) <$> queues).

Definition set_blocking (b : bool) (a : MAG) : MAG := mkMAG (indexRT a) (indexHP a) b (compensateCommands a).
Definition set_indexRT (n : nat) (a : MAG) : MAG := mkMAG n (indexHP a) (casBlocking a) (compensateCommands a).
Definition set_indexHP (n : nat) (a : MAG) : MAG := mkMAG (indexRT a) n (casBlocking a) (compensateCommands a).
Definition set_compensate (l : list (list BusPacket)) (a : MAG) : MAG := mkMAG (indexRT a) (indexHP a) (casBlocking a) l.

Definition next_index (n i : nat) : nat := if bool_decide (S i = n) then 0%nat else S i.

Section MAG.
Context {Dev : Type} `{MemoryDevice Dev}.
Implicit Types s : CommandScheduler Dev.

Definition compensation (t : BusPacketType) (c : BusPacket) : BusPacket :=
  new_BusPacket t 0 0 0 0 (bp_bank c) (bp_rank c) 0 0 0.

(** [getCommand(false)] also selects the noncritical buffer for the next removal. *)
Definition compensateGenerator (queueIndex : nat) (a : MAG) s : res (MAG * CommandScheduler Dev) :=
  q ← queue_at queueIndex s;
  if (0 <? cq_getSize false q)%nat then
    cs ← peek false queueIndex s;
    let '(c, s) := cs in
    l ← vec_at (compensateCommands a) queueIndex;
    let new := if bpt_lt (busPacketType c) ACT then [compensation PRE c; compensation ACT c]
               else if bool_decide (busPacketType c = ACT) then [compensation PRE c]
               else [] in
    Ok (set_compensate (<[queueIndex := l ++ new]> (compensateCommands a)) a, s)
  else Ok (a, s).

(** [tempCmd] keeps its value from one turn to the next. *)
Definition rt_state : Type := MAG * option BusPacket * CommandScheduler Dev.

Definition pick_RT (a : MAG) (temp : option BusPacket) s : res (option BusPacket * rt_state) :=
  if casBlocking a then
    cs ← peek true (indexRT a) s;
    let '(c, s) := cs in
    b ← isIssuable c s;
    Ok (if b : bool then (Some c, (set_blocking false a, Some c, s)) else (None, (a, Some c, s)))
  else
    q ← queue_at (indexRT a) s;
    if (0 <? cq_getSize true q)%nat then
      cs ← peek true (indexRT a) s;
      let '(c, s) := cs in
      r ← isReady c (indexRT a) s;
      if r : bool then
        b ← isIssuable c s;
        Ok (if b : bool then (Some c, (a, Some c, s))
            else (None, (set_blocking (bpt_lt (busPacketType c) ACT) a, Some c, s)))
      else Ok (None, (a, Some c, s))
    else Ok (None, (a, temp, s)).

Definition visit_RT (index : nat) (st : rt_state) : res (flow rt_state (option BusPacket)) :=
  let '(a, temp, s) := st in
  o ← pick_RT a temp s;
  let '(sched, (a, temp, s)) := o in
  q ← queue_at (indexRT a) s;
  st ← (if bool_decide (temp ≠ None) && (0 <? cq_getSize false q)%nat then
          l ← vec_at (compensateCommands a) index;
          if bool_decide (l = []) then compensateGenerator index a s else Ok (a, s)
        else Ok (a, s));
  let '(a, s) := st in
  if casBlocking a then Ok (Stop (a, temp, s) sched)
  else
    let a := set_indexRT (next_index (length (commandQueues s)) (indexRT a)) a in
    Ok (match sched with
        | Some _ => Stop (a, temp, s) sched
        | None => Next (a, temp, s)
        end).

(** A noncritical command, or one of [compensateCommands]; [tempCmd] and [compCommand]
    keep their values when the queue has neither. *)
Definition hp_state : Type := MAG * option BusPacket * bool * CommandScheduler Dev.

Definition visit_HP (_ : nat) (st : hp_state) : res (flow hp_state (BusPacket * bool)) :=
  let '(a, temp, comp, s) := st in
  let k := indexHP a in
  l ← vec_at (compensateCommands a) k;
  tcs ← (match l with
         | c :: _ => Ok (Some c, true, s)
         | [] =>
             q ← queue_at k s;
             if (0 <? cq_getSize false q)%nat then cs ← peek false k s; Ok (Some cs.1, false, cs.2)
             else Ok (temp, comp, s)
         end);
  let '(temp, comp, s) := tcs in
  match temp with
  | None => Ok (Next (a, temp, comp, s))
  | Some c =>
      b ← isIssuable c s;
      a ← (if b && comp then l ← vec_erase l 0; Ok (set_compensate (<[k := l]> (compensateCommands a)) a) else Ok a);
      let a := set_indexHP (next_index (length (commandQueues s)) k) a in
      Ok (if b : bool then Stop (a, temp, comp, s) (c, comp) else Next (a, temp, comp, s))
  end.

Definition choose (a : MAG) s : res (option (BusPacket * bool) * MAG * CommandScheduler Dev) :=
  let n := length (commandQueues s) in
  o ← forM (seq 0 n) (a, None, s) visit_RT;
  let '(a, temp, s) := after o in
  match o with
  | Stop _ (Some c) => Ok (Some (c, false), a, s)
  | _ =>
      if casBlocking a then Ok (None, a, s)
      else
        o ← forM (seq 0 n) (a, temp, false, s) visit_HP;
        let '(a, _, _, s) := after o in
        Ok (match o with Stop _ cb => Some cb | Next _ => None end, a, s)
  end.

Definition commandSchedule (a : MAG) (s : CommandScheduler Dev)
    : res (option BusPacket * MAG * CommandScheduler Dev) :=
  o ← choose a (set_scheduledCommand None s);
  let '(cb, a, s) := o in
  match cb with
  | Some (c, bypass) =>
      s ← sendCommand c (Z.to_nat (bp_bank c)) bypass (set_scheduledCommand (Some c) s);
      Ok (Some c, a, s)
  | None => Ok (None, a, s)
  end.

#[export] Instance scheduling : CommandScheduling Dev MAG := {| CmdAlg.commandSchedule := commandSchedule |}.

(** ** What is sent is issuable *)

Lemma compensateGenerator_quiet k a s a' s' : compensateGenerator k a s = Ok (a', s') → quiet s s'.
Proof.
  unfold compensateGenerator. intros Hc. apply bind_Ok in Hc as (q & _ & Hc). destruct (0 <? _)%nat; [|by injection Hc as <- <-].
  apply bind_Ok in Hc as ([c s1] & Hp & Hc). apply bind_Ok in Hc as (l & _ & Hc). injection Hc as <- <-. by eapply peek_quiet.
Qed.

Lemma pick_RT_issuable a temp s o a' temp' s' :
  pick_RT a temp s = Ok (o, (a', temp', s')) →
  quiet s s' ∧ ∀ c, o = Some c → isIssuable c s' = Ok true ∧ casBlocking a' = false.
Proof.
  unfold pick_RT. intros Hp. destruct (casBlocking a) eqn:Eb.
  - apply bind_Ok in Hp as ([c s1] & Hpk%peek_quiet & Hp). apply bind_Ok in Hp as ([] & Hi & Hp); injection Hp as <- <- <- <-;
      (split; [done|]); [intros ? [= <-]; by split|done].
  - apply bind_Ok in Hp as (q & _ & Hp). destruct (0 <? _)%nat; [|by injection Hp as <- <- <- <-].
    apply bind_Ok in Hp as ([c s1] & Hpk%peek_quiet & Hp). apply bind_Ok in Hp as ([] & _ & Hp); [|by injection Hp as <- <- <- <-].
    apply bind_Ok in Hp as ([] & Hi & Hp); injection Hp as <- <- <- <-; (split; [done|]); [intros ? [= <-]; by split|done].
Qed.

Lemma visit_RT_issuable s0 i a temp s o :
  quiet s0 s → visit_RT i (a, temp, s) = Ok o →
  quiet s0 (after o).2 ∧ ∀ st c, o = Stop st (Some c) → isIssuable c s0 = Ok true.
Proof.
  intros Hq Hv. unfold visit_RT in Hv. apply bind_Ok in Hv as ([sched [[a1 temp1] s1]] & Hp%pick_RT_issuable & Hv).
  destruct Hp as [Hq1 Hi]. apply bind_Ok in Hv as (q & _ & Hv). apply bind_Ok in Hv as ([a2 s2] & Hg & Hv).
  assert (quiet s1 s2) as Hq2.
  { destruct (_ && _); [|by injection Hg as <- <-]. apply bind_Ok in Hg as (l & _ & Hg).
    case_bool_decide; [by eapply compensateGenerator_quiet|by injection Hg as <- <-]. }
  assert (quiet s0 s2) as Hq3 by (etransitivity; [exact Hq|etransitivity; [exact Hq1|exact Hq2]]).
  assert (∀ c, sched = Some c → isIssuable c s0 = Ok true) as Hs.
  { intros c Hc. destruct (Hi c Hc) as [Hi' _]. rewrite <- Hi'. symmetry. apply quiet_issuable. etransitivity; [exact Hq|exact Hq1]. }
  destruct (casBlocking a2); [injection Hv as <-|destruct sched; injection Hv as <-]; (split; [exact Hq3|]).
  - intros st c [= _ ->]. by apply Hs.
  - intros st c [= _ ->]. by apply Hs.
  - done.
Qed.

Lemma visit_HP_issuable s0 i st o :
  quiet s0 st.2 → visit_HP i st = Ok o →
  quiet s0 (after o).2 ∧ ∀ st' c b, o = Stop st' (c, b) → isIssuable c s0 = Ok true.
Proof.
  destruct st as [[[a temp] comp] s]. intros Hq Hv. unfold visit_HP in Hv. apply bind_Ok in Hv as (l & _ & Hv).
  apply bind_Ok in Hv as ([[temp1 comp1] s1] & Ht & Hv).
  assert (quiet s s1) as Hq1.
  { destruct l; [|by injection Ht as <- <- <-]. apply bind_Ok in Ht as (q & _ & Ht).
    destruct (0 <? _)%nat; [|by injection Ht as <- <- <-]. apply bind_Ok in Ht as ([c s2] & Hp%peek_quiet & Ht). by injection Ht as <- <- <-. }
  assert (quiet s0 s1) as Hq2 by (etransitivity; [exact Hq|exact Hq1]).
  destruct temp1 as [c|]; [|by injection Hv as <-]. apply bind_Ok in Hv as (b & Hb & Hv). apply bind_Ok in Hv as (a1 & _ & Hv).
  destruct b; injection Hv as <-; (split; [exact Hq2|]); [|done]. intros st' c' b' [= _ <- _]. rewrite <- Hb. symmetry. by apply quiet_issuable.
Qed.

Lemma MAG_choose_issuable a s o a' s' :
  choose a s = Ok (o, a', s') → quiet s s' ∧ ∀ c b, o = Some (c, b) → isIssuable c s = Ok true.
Proof.
  unfold choose. intros Hc. apply bind_Ok in Hc as (o1 & H1 & Hc).
  apply (forM_inv (λ st, quiet s st.2) (λ st r, quiet s st.2 ∧ ∀ c, r = Some c → isIssuable c s = Ok true)) in H1; [|done|].
  2:{ intros i [[a1 t1] s1] o2 _ Hq Hv. simpl in Hq. destruct (visit_RT_issuable _ _ _ _ _ _ Hq Hv) as [Hq2 Hi].
      destruct o2 as [st|st r]; [done|]. split; [done|]. intros c ->. by eapply Hi. }
  assert (quiet s (after o1).2) as Hq1 by (destruct o1; [done|by destruct H1]).
  destruct (after o1) as [[a1 t1] s1] eqn:Ea. simpl in Hq1.
  assert ((∃ st c, o1 = Stop st (Some c) ∧ o = Some (c, false) ∧ a' = a1 ∧ s' = s1) ∨
    (if casBlocking a1 then Ok (None, a1, s1)
     else o ← forM (seq 0 (length (commandQueues s))) (a1, t1, false, s1) visit_HP;
          let '(a, _, _, s) := after o in Ok (match o with Stop _ cb => Some cb | Next _ => None end, a, s)) = Ok (o, a', s')) as [Hst|H2].
  { destruct o1 as [st|st [c|]]; [by right|left|by right]. injection Hc as <- <- <-. by exists st, c. }
  - destruct Hst as (st & c & -> & -> & -> & ->). split; [done|]. intros c' b [= <- _]. by apply H1.
  - destruct (casBlocking a1); [by injection H2 as <- <- <-|]. apply bind_Ok in H2 as (o2 & Ho2 & H2).
    apply (forM_inv (λ st, quiet s st.2) (λ st r, quiet s st.2 ∧ isIssuable r.1 s = Ok true)) in Ho2; [|done|].
    + destruct o2 as [[[[a2 t2] b2] s2]|[[[a2 t2] b2] s2] [c b]]; injection H2 as <- <- <-; [done|].
      destruct Ho2 as [Hq2 Hi]. split; [exact Hq2|]. by intros ? ? [= <- _].
    + intros i st o3 _ Hq Hv. destruct (visit_HP_issuable _ _ _ _ Hq Hv) as [Hq3 Hi]. destruct o3 as [st'|st' [c b]]; [done|].
      split; [done|]. by eapply Hi.
Qed.

(** Every command MAG sends is issuable: the refresh machine and the device accept
    it in the state the call was made in. *)
Theorem MAG_sends_issuable a s c a' s' :
  commandSchedule a s = Ok (Some c, a', s') → isIssuable c s = Ok true.
Proof.
  unfold commandSchedule. intros Hs. apply bind_Ok in Hs as ([[[[c' b]|] a1] s1] & Hc & Hs).
  - apply bind_Ok in Hs as (s2 & _ & Hs). injection Hs as -> _ _. apply MAG_choose_issuable in Hc as [_ Hi].
    rewrite <- (Hi _ _ eq_refl). symmetry. apply quiet_issuable, quiet_scheduled.
  - done.
Qed.

(** ** Noncritical commands *)

Lemma next_index_lt n i : (i < n)%nat → (next_index n i < n)%nat.
Proof. unfold next_index. case_bool_decide; lia. Qed.

(** Without critical commands the first loop only turns its index. *)
Lemma visit_RT_idle i s a :
  casBlocking a = false → Forall (λ q, hrtBuffer q = []) (commandQueues s) → (indexRT a < length (commandQueues s))%nat →
  visit_RT i (a, None, s) = Ok (Next (set_indexRT (next_index (length (commandQueues s)) (indexRT a)) a, None, s)).
Proof.
  intros Hb Hh [q Hq]%lookup_lt_is_Some_2. pose proof (Forall_lookup_1 _ _ _ _ Hh Hq) as Hnil. simpl in Hnil.
  unfold visit_RT, pick_RT, queue_at, vec_at, cq_getSize. rewrite Hb, Hq. simpl. rewrite Hnil. simpl. rewrite Hq. simpl.
  by rewrite Hb.
Qed.

Lemma RT_idle s a l :
  casBlocking a = false → Forall (λ q, hrtBuffer q = []) (commandQueues s) → (indexRT a < length (commandQueues s))%nat →
  ∃ i, forM l (a, None, s) visit_RT = Ok (Next (set_indexRT i a, None, s)).
Proof.
  intros Hb Hh. revert a Hb. induction l as [|x l IH]; intros a Hb Hi; [exists (indexRT a); by destruct a|].
  cbn [forM]. rewrite visit_RT_idle by done. cbn [mbind res_bind].
  destruct (IH (set_indexRT (next_index (length (commandQueues s)) (indexRT a)) a)) as [j Hj]; [done|by apply next_index_lt|].
  by exists j.
Qed.

(** A noncritical command is sent as soon as it is issuable: when no queue has a
    critical command, the front of the queue whose turn it is goes, whatever the
    timers of that queue say. *)
Theorem MAG_ignores_timers a s q c l r a' s' :
  casBlocking a = false → Forall (λ q, hrtBuffer q = []) (commandQueues s) →
  (indexRT a < length (commandQueues s))%nat →
  commandQueues s !! indexHP a = Some q → compensateCommands a !! indexHP a = Some [] → srtBuffer q = c :: l →
  isIssuable c s = Ok true → commandSchedule a s = Ok (r, a', s') → r = Some c.
Proof.
  intros Hb Hh Hi Hq Hcomp Hl Hiss Hs. unfold commandSchedule in Hs. set (s0 := set_scheduledCommand None s) in Hs.
  apply bind_Ok in Hs as ([[o a1] s1] & Hc & Hs). unfold choose in Hc.
  destruct (RT_idle s0 a (seq 0 (length (commandQueues s0))) Hb Hh Hi) as [j Hj]. rewrite Hj in Hc. simpl in Hc.
  rewrite Hb in Hc. apply bind_Ok in Hc as (o1 & H1 & Hc).
  destruct (length (commandQueues s)) as [|n] eqn:Hn; [lia|]. cbn [seq forM] in H1.
  apply bind_Ok in H1 as (o2 & H2 & H1). unfold visit_HP in H2. unfold vec_at at 1 in H2. simpl in H2. rewrite Hcomp in H2.
  cbn [of_option mbind res_bind] in H2. unfold queue_at, vec_at, peek, queue_at, vec_at in H2. simpl in H2. rewrite Hq in H2.
  cbn [of_option mbind res_bind] in H2. unfold cq_getSize in H2. rewrite Hl in H2. simpl in H2.
  unfold getCommand in H2. simpl in H2. rewrite Hl in H2. cbn [mbind res_bind fst snd] in H2.
  assert (quiet s (set_queue (indexHP a) (set_scheduledQueue false q) s0)) as Hquiet.
  { etransitivity; [apply (quiet_scheduled None)|]. by apply set_queue_quiet. }
  rewrite (quiet_issuable _ _ c Hquiet), Hiss in H2. simpl in H2. injection H2 as <-. injection H1 as <-.
  injection Hc as <- <- <-. apply bind_Ok in Hs as (s2 & _ & Hs). by injection Hs as <- _ _.
Qed.

Lemma lookup_set_queue i q q' s :
  commandQueues s !! i = Some q → commandQueues (set_queue i q' s) !! i = Some q'.
Proof. intros Hq. simpl. apply list_lookup_insert_eq. by eapply lookup_lt_Some. Qed.

(** The first loop at a queue with a critical command that can go. *)
Lemma pick_RT_front a s q c l :
  casBlocking a = false → commandQueues s !! indexRT a = Some q → hrtBuffer q = c :: l →
  isReady c (indexRT a) s = Ok true → isIssuable c s = Ok true →
  pick_RT a None s = Ok (Some c, (a, Some c, set_queue (indexRT a) (set_scheduledQueue true q) s)).
Proof.
  intros Hb Hq Hl Hr Hi. unfold pick_RT, peek, queue_at, vec_at. rewrite Hb, Hq. cbn [of_option mbind res_bind].
  unfold cq_getSize, getCommand. simpl. rewrite Hl. cbn [length Nat.ltb Nat.leb mbind res_bind fst snd].
  pose proof (set_queue_quiet _ true _ _ Hq) as Hquiet.
  by rewrite (quiet_ready _ _ c _ Hquiet), Hr, (quiet_issuable _ _ c Hquiet), Hi.
Qed.

Lemma compensateGenerator_looks k a s q n l a' s' :
  commandQueues s !! k = Some q → srtBuffer q = n :: l → compensateGenerator k a s = Ok (a', s') →
  s' = set_queue k (set_scheduledQueue false q) s ∧ casBlocking a' = casBlocking a.
Proof.
  intros Hq Hl. unfold compensateGenerator, peek, queue_at, vec_at. rewrite Hq. cbn [of_option mbind res_bind].
  unfold cq_getSize, getCommand. simpl. rewrite Hl. cbn [length Nat.ltb Nat.leb mbind res_bind fst snd].
  intros Hg. apply bind_Ok in Hg as (x & _ & Hg). by injection Hg as <- <-.
Qed.

(** When the turn is at queue 0, which has commands of both kinds, and its critical
    command is ready, issuable and of bank 0, the critical command is sent and stays in
    the queue; the front of the noncritical commands is taken out unsent: the look at
    it for [compensateCommands] selects its buffer for the removal. *)
Theorem MAG_removes_noncritical a s q c n lh ls r a' s' :
  casBlocking a = false → indexRT a = 0%nat → compensateCommands a !! 0%nat = Some [] →
  commandQueues s !! 0%nat = Some q → cq_isPerRequestor q = false →
  hrtBuffer q = c :: lh → srtBuffer q = n :: ls → Z.to_nat (bp_bank c) = 0%nat →
  isReady c 0 s = Ok true → isIssuable c s = Ok true → commandSchedule a s = Ok (r, a', s') →
  r = Some c ∧ ∃ q', commandQueues s' !! 0%nat = Some q' ∧ hrtBuffer q' = c :: lh ∧ srtBuffer q' = ls.
Proof.
  intros Hb Hi Hcomp Hq Hk Hh Hl Hbank Hr Hiss Hs. unfold commandSchedule in Hs. set (s0 := set_scheduledCommand None s) in Hs.
  assert (quiet s s0) as Hquiet by apply quiet_scheduled.
  apply bind_Ok in Hs as ([[o a1] s1] & Hc & Hs). unfold choose in Hc. apply bind_Ok in Hc as (o1 & H1 & Hc).
  destruct (length (commandQueues s0)) as [|m] eqn:Hm; [simpl in Hm; apply lookup_lt_Some in Hq; lia|].
  cbn [seq forM] in H1. apply bind_Ok in H1 as (o2 & H2 & H1). unfold visit_RT in H2.
  rewrite (pick_RT_front a s0 q c lh) in H2; rewrite ?Hi; [|done|done|done|by rewrite (quiet_ready _ _ c 0 Hquiet)|
    by rewrite (quiet_issuable _ _ c Hquiet)].
  cbn [mbind res_bind] in H2. rewrite Hi in H2. set (q1 := set_scheduledQueue true q) in H2. set (sp := set_queue 0 q1 s0) in H2.
  assert (commandQueues sp !! 0%nat = Some q1) as Hq1 by by eapply lookup_set_queue.
  unfold queue_at, vec_at in H2. rewrite Hq1, Hcomp in H2. cbn [of_option mbind res_bind] in H2.
  rewrite !bool_decide_eq_true_2 in H2 by done. unfold cq_getSize in H2. simpl srtBuffer in H2. rewrite Hl in H2. simpl in H2.
  apply bind_Ok in H2 as ([a2 s2] & Hg & H2).
  apply (compensateGenerator_looks 0 a sp q1 n ls) in Hg as [-> Hb2]; [|exact Hq1|exact Hl]. rewrite Hb2, Hb in H2.
  injection H2 as <-. injection H1 as <-. injection Hc as <- <- <-.
  apply bind_Ok in Hs as (s3 & Hsend & Hs). injection Hs as <- <- <-. split; [done|]. rewrite Hbank in Hsend.
  destruct (send_queues _ _ _ _ Hsend) as (q3 & q4 & Hq3 & E & Hrem & _). simpl in Hq3, E.
  pose proof (lookup_set_queue 0 q1 (set_scheduledQueue false q1) sp Hq1) as Hq2. simpl in Hq2.
  rewrite Hq2 in Hq3. injection Hq3 as <-. unfold cq_isPerRequestor in Hrem, Hk. simpl in Hrem. rewrite Hk in Hrem.
  unfold removeCommand in Hrem. simpl in Hrem. rewrite Hl in Hrem. injection Hrem as <-.
  eexists. rewrite E. split; [apply list_lookup_insert_eq; rewrite !length_insert; by eapply lookup_lt_Some|]. done.
Qed.
End MAG.

(** ** Witnesses *)
Definition wit_mag_queue (critical noncritical : list BusPacket) : CommandQueue :=
  set_srtBuffer noncritical (set_hrtBuffer critical (CommandQueue_ctor false)).
Definition wit_mag_s (critical noncritical : list BusPacket) : CommandScheduler Device :=
  CommandScheduler_ctor true 0 [wit_mag_queue critical noncritical] (<[2 := true]> ∅) wit_dev0.
Definition wit_mag : MAG := mkMAG 0 0 false [[]].
Definition wit_send_mag (s : CommandScheduler Device) : CommandScheduler Device :=
  match commandSchedule wit_mag s with Ok (_, _, s') => s' | Err _ => s end.

(** One cycle after a precharge, an activate of the same bank. *)
Definition wit_unready : CommandScheduler Device :=
  next_cycle (wit_send_mag (wit_mag_s [] [wit_cmd PRE 2 0; wit_cmd ACT 2 0])).

Lemma MAG_ignores_timers_witness :
  isReady (wit_cmd ACT 2 0) 0 wit_unready = Ok false ∧
  ∃ a' s', commandSchedule wit_mag wit_unready = Ok (Some (wit_cmd ACT 2 0), a', s').
Proof.
  split; [vm_compute; reflexivity|].
  assert (is_Ok (commandSchedule wit_mag wit_unready) = true) as H by (vm_compute; reflexivity).
  destruct (commandSchedule wit_mag wit_unready) as [[[r a'] s']|] eqn:Hs; [|discriminate H]. exists a', s'.
  assert (commandQueues wit_unready = [set_scheduledQueue false (wit_mag_queue [] [wit_cmd ACT 2 0])]) as Hq
    by (vm_compute; reflexivity).
  f_equal. f_equal. f_equal.
  apply (MAG_ignores_timers wit_mag wit_unready (set_scheduledQueue false (wit_mag_queue [] [wit_cmd ACT 2 0]))
           (wit_cmd ACT 2 0) [] r a' s').
  - reflexivity.
  - rewrite Hq. constructor; [reflexivity|constructor].
  - rewrite Hq. apply le_n.
  - rewrite Hq. reflexivity.
  - reflexivity.
  - reflexivity.
  - vm_compute. reflexivity.
  - exact Hs.
Defined.

Lemma MAG_removes_noncritical_witness :
  ∃ a' s', commandSchedule wit_mag (wit_mag_s [wit_cmd ACT 2 0] [wit_cmd RD 3 0]) = Ok (Some (wit_cmd ACT 2 0), a', s') ∧
  ∃ q', commandQueues s' !! 0%nat = Some q' ∧ hrtBuffer q' = [wit_cmd ACT 2 0] ∧ srtBuffer q' = [].
Proof.
  set (call := commandSchedule wit_mag (wit_mag_s [wit_cmd ACT 2 0] [wit_cmd RD 3 0])).
  assert (match call with Ok (Some c, _, _) => bool_decide (c = wit_cmd ACT 2 0) | _ => false end = true) as H
    by (vm_compute; reflexivity).
  destruct call as [[[[c|] a'] s']|] eqn:Hs; [|discriminate H|discriminate H].
  apply bool_decide_eq_true in H. subst c. exists a', s'. split; [reflexivity|].
  apply (MAG_removes_noncritical wit_mag (wit_mag_s [wit_cmd ACT 2 0] [wit_cmd RD 3 0])
           (wit_mag_queue [wit_cmd ACT 2 0] [wit_cmd RD 3 0]) (wit_cmd ACT 2 0) (wit_cmd RD 3 0) [] []
           (Some (wit_cmd ACT 2 0)) a' s').
  - reflexivity.
  - reflexivity.
  - reflexivity.
  - reflexivity.
  - reflexivity.
  - reflexivity.
  - reflexivity.
  - reflexivity.
  - vm_compute. reflexivity.
  - vm_compute. reflexivity.
  - exact Hs.
Defined.
