(* ===== verification/Progress.v ===== *)
(** * Scheduling algorithms make progress

    A command at the front of its queue does not wait for ever: the class
    [WorkConserving] states what an algorithm promises beyond [CommandAlgorithm] -
    it fails only when a test or a sending fails, and it sends nothing only when
    no command it looks at can be sent. [PUSH] (src/generalScheduler) and [FRFCFS]
    (src/system/FRFCFS) keep it.

    Main result: on a DDR3 device, as long as the 32-bit clock of the device does
    not wrap, from every state a run reaches in which a command is offered, the
    simulator goes on without a failure and sends a command within [longest_wait]
    cycles, the largest delay of the timing tables. *)
From S2P Require Import Prelude Types KeyedBuf CmdQueue DRAM DDR3 Device Refresh CmdSched CmdAlg CmdAlgos.

Section answers.
Context {Dev : Type} `{MemoryDevice Dev}.
Implicit Types s : CommandScheduler Dev.

(** Every queue has its timers, and every command of a queue can be tested and
    received. *)
Record answers s : Prop := {
  an_timers i : (i < length (commandQueues s))%nat → is_Some (reqCmdQueueTimer s !! i);
  an_test i q c : commandQueues s !! i = Some q → c ∈ commands q → ∃ b, command_check c (memoryDevice s) = Ok b;
  an_receive i q c : commandQueues s !! i = Some q → c ∈ commands q → ∃ d, receiveFromBus c (memoryDevice s) = Ok d;
}.

Lemma commands_same q q' : same_queue q q' → commands q' = commands q.
Proof. by intros [b ->]. Qed.

Lemma quiet_answers s s' : quiet s s' → answers s → answers s'.
Proof.
  intros Hq [H1 H2 H3]. split.
  - intros i Hi. rewrite (qt_rtimer _ _ Hq). apply H1. by rewrite <- (quiet_length _ _ Hq).
  - intros i q' c Hi Hc. destruct (quiet_lookup _ _ _ _ Hq Hi) as (q & Hi' & Hs).
    rewrite (commands_same _ _ Hs) in Hc. rewrite (qt_dev _ _ Hq). by eapply H2.
  - intros i q' c Hi Hc. destruct (quiet_lookup _ _ _ _ Hq Hi) as (q & Hi' & Hs).
    rewrite (commands_same _ _ Hs) in Hc. rewrite (qt_dev _ _ Hq). by eapply H3.
Qed.

Lemma heads_commands q c : c ∈ heads q → c ∈ commands q.
Proof.
  unfold heads, commands, items_of. intros (id & Hid & Hc)%list_elem_of_omap. apply elem_of_app. left.
  apply list_elem_of_In, in_concat. exists (cmd_buffer q id). split; apply list_elem_of_In.
  - apply list_elem_of_fmap. by exists id.
  - destruct (cmd_buffer q id) as [|c' l]; simplify_eq/=. left.
Qed.

Lemma popped_commands q c : cq_wf q → popped q c → c ∈ commands q.
Proof.
  intros [[_ Ho] Hw] Hp. unfold popped in Hp. destruct (cq_isPerRequestor q).
  - destruct Hp as [l Hl]. apply heads_commands. unfold heads. apply list_elem_of_omap.
    exists (bp_requestorID c). rewrite Hl. split; [|done]. apply Ho. unfold cmd_buffer in Hl.
    destruct (cq_requestorBuffer q !! bp_requestorID c); [eauto|done].
  - unfold commands. rewrite !elem_of_app. destruct Hp as [l Hl].
    destruct (scheduledQueue q); rewrite Hl; right; [left|right]; left.
Qed.

Lemma isReady_total s i q c :
  answers s → commandQueues s !! i = Some q → ∃ b, isReady c i s = Ok b.
Proof.
  intros Ha Hi. unfold isReady, queue_at, vec_at. rewrite Hi. simpl. destruct (cq_isPerRequestor q); [|eauto].
  destruct (an_timers _ Ha i) as [ts ->]; [by eapply lookup_lt_Some|]. simpl. eauto.
Qed.

Lemma ready_issuable_total s i q c :
  answers s → commandQueues s !! i = Some q → c ∈ commands q → ∃ b, ready_issuable c i s = Ok b.
Proof.
  intros Ha Hi Hc. destruct (isReady_total s i q c Ha Hi) as [b Hb]. unfold ready_issuable. rewrite Hb. simpl.
  destruct b; [|eauto]. unfold isIssuable. destruct (busyBank _ _); [eauto|]. by eapply an_test.
Qed.

(** What can be sent is sent without a failure. *)
Lemma send_total s0 s i c :
  quiet s0 s → Forall cq_wf (commandQueues s0) → answers s0 → at_front i c s → ∃ s', send c i s = Ok s'.
Proof.
  intros Hqt Hwf0 Ha0 (q & Hi & Hp). pose proof (quiet_wf _ _ Hqt Hwf0) as Hwf.
  pose proof (quiet_answers _ _ Hqt Ha0) as Ha. rewrite Forall_lookup in Hwf. specialize (Hwf i q Hi).
  pose proof (popped_commands _ _ Hwf Hp) as Hc. destruct (an_receive _ Ha i q c Hi Hc) as [d Hd].
  unfold send, sendCommand, queue_at, vec_at. simpl. rewrite Hi. simpl.
  unfold popped in Hp. destruct (cq_isPerRequestor q).
  - destruct (an_timers _ Ha i) as [ts Hts]; [by eapply lookup_lt_Some|]. rewrite Hts. simpl.
    destruct Hp as [l Hl]. unfold removeCommand_req, vec_erase. rewrite Hl.
    rewrite decide_True by (simpl; lia). simpl. rewrite Hd. simpl. eauto.
  - destruct Hp as [l Hl]. unfold removeCommand, vec_erase.
    destruct (scheduledQueue q); rewrite Hl, decide_True by (simpl; lia); simpl; rewrite Hd; simpl; eauto.
Qed.

Lemma peek_total s i q c l :
  commandQueues s !! i = Some q → hrtBuffer q = c :: l →
  peek true i s = Ok (c, set_queue i (set_scheduledQueue true q) s).
Proof.
  intros Hi Hl. unfold peek, queue_at, vec_at. rewrite Hi. simpl. unfold getCommand. simpl. by rewrite Hl.
Qed.

Lemma hrt_commands q c l : hrtBuffer q = c :: l → c ∈ commands q.
Proof. intros Hl. unfold commands. rewrite Hl, !elem_of_app. right. left. left. Qed.

(** The timers are counted without a failure, and the tables stay in place. *)
Lemma tick_total s :
  no_refresh (refreshMachine s) → (∀ i, (i < length (commandQueues s))%nat → is_Some (reqCmdQueueTimer s !! i)) →
  ∃ s', tick s = Ok s'.
Proof.
  intros (Hn & Hc & Hi) Hts. unfold tick.
  destruct (foldM_total (λ s1, refreshMachine s1 = refreshMachine s ∧ commandQueues s1 = commandQueues s ∧
      ∀ i, (i < length (commandQueues s))%nat → is_Some (reqCmdQueueTimer s1 !! i))
    (imap pair (commandQueues s)) s (λ iq, tick_queue iq.1 iq.2)) as (s1 & -> & E1 & E2 & _); [done| |].
  - intros [i q] s1 Hin (E1 & E2 & H1). apply elem_of_lookup_imap in Hin as (j & q' & [= <- <-] & Hq).
    unfold tick_queue. simpl. destruct (cq_isPerRequestor q).
    + destruct (H1 i) as [ts Hts1]; [by eapply lookup_lt_Some|]. unfold vec_at. rewrite Hts1. simpl.
      eexists. split; [done|]. split_and!; [done..|]. intros k Hk. simpl.
      destruct (decide (k = i)) as [->|]; [|rewrite list_lookup_insert_ne by done; by apply H1].
      rewrite list_lookup_insert_eq by (by eapply lookup_lt_Some). eauto.
    + destruct (cmdQueueTimer s1 !! i); eexists; (split; [done|]); done.
  - simpl. rewrite E1. destruct (rm_step_none (refreshMachine s) (commandQueues s1) Hn Hc Hi) as (m' & -> & _).
    simpl. eauto.
Qed.
End answers.

(** What an algorithm promises: it answers whenever the tests and the sending do,
    and a command of a queue that it [offers] and that could be sent does not leave
    it idle, over queues of the kinds it is written for. *)
Class WorkConserving (Dev A : Type) `{CmdA : CommandAlgorithm Dev A} := {
  offers : CommandQueue → BusPacket → Prop;
  offers_kinds : list bool → Prop;
  offers_same q q' c : same_queue q q' → offers q c → offers q' c;
  offers_commands q c : cq_wf q → offers q c → c ∈ commands q;
  schedule_total a s :
    Forall cq_wf (commandQueues s) → alg_inv a s → answers s → ∃ x, CmdAlg.commandSchedule a s = Ok x;
  schedule_idle a s a' s' i q c :
    Forall cq_wf (commandQueues s) → alg_inv a s → answers s → offers_kinds (kinds (commandQueues s)) →
    CmdAlg.commandSchedule a s = Ok (None, a', s') → commandQueues s !! i = Some q → offers q c →
    ready_issuable c i s = Ok false;
}.

(** The simulator without new commands: cycles of the algorithm, the timers and
    the device until a command is sent, at most [fuel] of them after the first
    call. The result has the number of cycles that went by and the command. *)
Fixpoint next_sent `{MemoryDevice Dev, !CommandScheduling Dev A} (fuel : nat) (a : A) (s : CommandScheduler Dev)
    : res (option (nat * BusPacket)) :=
  x ← CmdAlg.commandSchedule a s;
  match x, fuel with
  | (Some c, _, _), _ => Ok (Some (0%nat, c))
  | (None, _, _), O => Ok None
  | (None, a, s), S fuel =>
      s ← tick s;
      od ← update_device (memoryDevice s);
      o ← next_sent fuel a (set_memoryDevice od.2 s);
      Ok (option_map (λ kc : nat * BusPacket, (S kc.1, kc.2)) o)
  end.

(** ** On a DDR3 device *)

(** The largest delay of the tables: of the ones of the tree and the ones
    [command_timing] gives the schedulers. *)
Definition longest_wait (s : DDR3.SpeedEntry) : Z :=
  foldr Z.max 0
    (((λ x : DDR3.Level * DDR3.Command * TimingEntry, val x.2) <$> DDR3.init_timing s) ++
     ((λ ct : BusPacketType * BusPacketType, u32 (timing_between s ct.1 ct.2)) <$> list_prod all_types all_types)).

Lemma foldr_max_ge (l : list Z) x : x ∈ l → x ≤ foldr Z.max 0 l.
Proof. induction 1; simpl; lia. Qed.

Lemma all_types_elem t : t ∈ all_types.
Proof. eapply list_elem_of_lookup_2. apply (bpt_of_int t). Qed.

Lemma longest_wait_timing s l c te : te ∈ DDR3.timing s l c → val te ≤ longest_wait s.
Proof.
  intros Hin%DDR3.timing_elem. apply foldr_max_ge, elem_of_app. left. apply list_elem_of_fmap. by exists (l, c, te).
Qed.

Lemma longest_wait_command d c type : command_timing c type d ≤ longest_wait (DDR3.speed_entry (dev_spec d)).
Proof.
  simpl. unfold Ramulator_command_timing. apply foldr_max_ge, elem_of_app. right. apply list_elem_of_fmap.
  exists (busPacketType c, default DATA (bpt_of type)). split; [by destruct (bpt_of type)|].
  apply list_elem_of_In, in_prod; apply list_elem_of_In, all_types_elem.
Qed.

(** A packet the device can test and receive. *)
Definition fits (d : Device) (c : BusPacket) : Prop :=
  (bpt_int (busPacketType c) < bpt_int PDE)%nat ∧
  (postCommand c = false → ∃ cmd, convert_cmd (busPacketType c) = Ok cmd ∧
     @reaches rm_standard (convert_addr c) (channel d)).

Lemma fits_check d c :
  @tree_wf rm_standard (rm_spec (dev_spec d)) (channel d) → fits d c →
  ∃ b, command_check c d = Ok b.
Proof.
  intros Hwf [_ Hf]. simpl. unfold Ramulator_command_check. destruct (postCommand c); [eauto|].
  destruct (Hf eq_refl) as (cmd & -> & Hr). simpl. by apply (@check_total _ _).
Qed.

Lemma fits_receive d c :
  @tree_wf rm_standard (rm_spec (dev_spec d)) (channel d) → fits d c →
  ∃ d', receiveFromBus c d = Ok d'.
Proof.
  intros Hwf [_ Hf]. cbn [receiveFromBus Ramulator_device]. unfold Ramulator_receiveFromBus. destruct (postCommand c); [eauto|].
  destruct (Hf eq_refl) as (cmd & -> & Hr). case_bool_decide; cbn [mbind res_bind]; [eauto|].
  destruct (@update_ok rm_standard (rm_spec (dev_spec d)) (rm_laws (dev_spec d)) cmd (convert_addr c)
    (clockCycle d) (channel d) Hwf Hr) as (n' & -> & _). cbn [mbind res_bind]. eauto.
Qed.

(** The read data and their counters come in pairs; then an update of a device
    without posted commands does not fail. *)
Definition paired (d : Device) : Prop := length (dataCycles d) = length (pendingReadData d).

Lemma generateData_paired c d d0 :
  dataCycles d0 = dataCycles (generateData c d) → pendingReadData d0 = pendingReadData (generateData c d) →
  paired d → paired d0.
Proof.
  unfold paired, generateData. intros -> -> Hp.
  destruct (busPacketType c); simpl; rewrite ?length_app; simpl; lia.
Qed.

Lemma device_update_total d :
  paired d → postBuffer d = [] → ∃ o d', device_update d = Ok (o, d') ∧ paired d'.
Proof.
  unfold paired. intros Hp Hb. unfold device_update, update_reads.
  assert (∀ d1 o, postBuffer d1 = [] → paired d1 →
    ∃ o' d', (d2 ← update_posted d1; Ok (o, set_clockCycle (u32 (clockCycle d2 + 1)) d2)) = Ok (o' : option BusPacket, d')
      ∧ paired d') as Hrest.
  { intros d1 o Hb1 Hp1. unfold update_posted. rewrite Hb1. simpl. do 2 eexists. split; [done|]. exact Hp1. }
  destruct (pendingReadData d) as [|p ps] eqn:Ep; [simpl; by apply (Hrest d); [|unfold paired; rewrite Ep]|].
  assert (length (countdown (dataCycles d)) = S (length ps)) as Hl by (unfold countdown; by rewrite length_fmap).
  destruct (countdown (dataCycles d)) as [|c cs]; [done|].
  case_bool_decide; simpl; apply (Hrest (set_read _ _ d)); try done; unfold paired; simpl in *; lia.
Qed.

(** What a system keeps besides [cycle_inv] and [tree_inv]. *)
Record side_inv (h : list sent) (n : Z) (s : CommandScheduler Device) : Prop := {
  sd_timers i : (i < length (commandQueues s))%nat → is_Some (reqCmdQueueTimer s !! i);
  sd_paired : paired (memoryDevice s);
  sd_times i c t : (i, c, t) ∈ h → t ≤ n;
}.

Lemma receive_paired c d d' : receiveFromBus c d = Ok d' → paired d → paired d'.
Proof.
  simpl. intros (_ & _ & Hd)%receive_cases. destruct (postCommand c).
  - destruct Hd as (E1 & E2 & _). unfold paired. by rewrite E1, E2.
  - destruct Hd as (_ & _ & E1 & E2). by eapply generateData_paired.
Qed.

Lemma send_timers `{MemoryDevice Dev} c i (s s' : CommandScheduler Dev) :
  sendCommand c i false s = Ok s' →
  (∀ j, (j < length (commandQueues s))%nat → is_Some (reqCmdQueueTimer s !! j)) →
  ∀ j, (j < length (commandQueues s'))%nat → is_Some (reqCmdQueueTimer s' !! j).
Proof.
  intros Hs Hts. unfold sendCommand in Hs. apply bind_Ok in Hs as (q & Hq & Hs).
  apply bind_Ok in Hs as (s1 & Hs1 & Hs). apply bind_Ok in Hs as (c' & _ & Hs).
  apply bind_Ok in Hs as (d & _ & Hs). injection Hs as <-. simpl.
  destruct (cq_isPerRequestor q).
  - apply bind_Ok in Hs1 as (ts & Hts1%vec_at_Ok & Hs1). apply bind_Ok in Hs1 as (q' & _ & Hs1).
    injection Hs1 as <-. simpl. rewrite length_insert. intros j Hj.
    destruct (decide (j = i)) as [->|]; [|rewrite list_lookup_insert_ne by done; by apply Hts].
    rewrite list_lookup_insert_eq by (by eapply lookup_lt_Some). eauto.
  - apply bind_Ok in Hs1 as (q' & _ & Hs1). injection Hs1 as <-. simpl. rewrite length_insert. exact Hts.
Qed.

(** Where the times of a history come from. *)
Lemma times_events {ST : Standard} rl k i0 p es (c : Command) (x : Z) :
  x ∈ times rl k i0 p es c → ∃ addr, (c, addr, x) ∈ es.
Proof.
  unfold times. intros (e & Hin & Hx)%list_elem_of_omap. rewrite elem_of_reverse in Hin.
  destruct e as [[c' addr] t]. simpl in Hx. case_decide as Hd; [|done]. destruct Hd as [-> _].
  injection Hx as <-. exists addr. exact Hin.
Qed.

Lemma events_elem clk0 h (e : @event DDR3.standard) : e ∈ events clk0 h → ∃ i p t, (i, p, t) ∈ h ∧ e.2 = clk0 + t.
Proof.
  unfold events. intros ([[i p] t] & Hin & Hx)%list_elem_of_omap. rewrite elem_of_reverse in Hin.
  unfold event_of in Hx. simpl in Hx. destruct (DDR3_cmd _); [|done]. injection Hx as <-. eauto.
Qed.

Section progress.
Context {A : Type} {CmdS : CommandScheduling Device A} {CmdA : CommandAlgorithm Device A}
  {CmdW : WorkConserving Device A}.

Lemma step_side h n (s s' : CommandScheduler Device) d :
  side_inv h n s → no_refresh (refreshMachine s) → postBuffer (memoryDevice s) = [] →
  tick s = Ok s' → dev_step (memoryDevice s') d → side_inv h (n + 1) (set_memoryDevice d s').
Proof.
  intros [H1 H2 H3] Href Hp Ht [o Hd]. destruct (tick_no_refresh _ _ Href Ht) as (Eq & _ & _ & Hts).
  destruct (tick_timer s s' 0 0 0 Ht) as (_ & _ & Em). rewrite Em in Hd.
  destruct (device_update_total _ H2 Hp) as (o' & d' & Hd' & Hpd). split; simpl.
  - intros i Hi. rewrite Eq in Hi. by apply Hts, H1.
  - simpl in Hd. rewrite Hd in Hd'. by injection Hd' as _ ->.
  - intros i c t Hin. apply H3 in Hin. lia.
Qed.

Lemma cycle_side (a0 : A) s0 h n a s :
  initial a0 s0 → cycle_run a0 s0 h n a s →
  side_inv [] 0 s0 → postBuffer (memoryDevice s0) = [] → 0 ≤ clockCycle (memoryDevice s0) →
  clockCycle (memoryDevice s0) + n < 2 ^ 32 →
  (∀ i c t, (i, c, t) ∈ h → postCommand c = false) →
  side_inv h n s.
Proof.
  intros Hin Hrun H0 Hp Hclk. induction Hrun as [|h n a s i q c cr Hrun IH Hq Hc|h n a s s' Hrun IH Hs
    |h n a s a' s' Hrun IH Hs|h n a s c a' s' i Hrun IH Hs Hi|h n a s s' d Hrun IH Ht Hd|h n a s t Hrun IH]; intros Hn Hpost.
  - exact H0.
  - destruct (IH Hn Hpost) as [H1 H2 H3]. split; [|done|done]. simpl. rewrite length_insert. exact H1.
  - pose proof (cycle_run_inv _ _ _ _ _ _ Hin Hrun) as [_ (_ & _ & Hidle) _ _].
    unfold sched_refresh in Hs. assert (reachInterval (refreshMachine s) = false) as Hri by apply Hidle.
    rewrite Hri in Hs. injection Hs as <-. exact (IH Hn Hpost).
  - pose proof (cycle_run_inv _ _ _ _ _ _ Hin Hrun) as [_ _ Hwf Ha].
    destruct (schedule_issues _ _ _ _ _ Hwf Ha Hs) as (_ & ic & Hic & Hiss).
    destruct ic; [done|]. inversion Hiss as [? Hqt|]; subst. destruct (IH Hn Hpost) as [H1 H2 H3].
    split; [|by rewrite (qt_dev _ _ Hqt)|done].
    intros i Hlt. rewrite (qt_rtimer _ _ Hqt). apply H1. by rewrite <- (quiet_length _ _ Hqt).
  - inversion Hi as [|s1 ? ? ? Hqt Hf Hrd His Hsc Hsend]; subst.
    destruct IH as [H1 H2 H3]; [done|intros; eapply Hpost; by right|].
    destruct (send_device _ _ _ _ _ _ Hsend Hsc) as (Hrc & _). rewrite (qt_dev _ _ Hqt) in Hrc. split.
    + eapply send_timers; [exact Hsend|]. intros j Hj. rewrite (qt_rtimer _ _ Hqt). apply H1.
      by rewrite <- (quiet_length _ _ Hqt).
    + by eapply receive_paired.
    + intros j c' t [?|Hin']%elem_of_cons; [by simplify_eq|by eapply H3].
  - pose proof (cycle_run_inv _ _ _ _ _ _ Hin Hrun) as [_ Href _ _].
    eapply step_side; [apply IH; [lia|done]|done| |done|done].
    eapply ti_post, (cycle_tree a0 s0 h n a s); try done. lia.
  - destruct (IH Hn Hpost) as [H1 H2 H3]. by split.
Qed.

Context (a0 : A) (s0 : CommandScheduler Device) (sp : DDR3.t) (r : Z).
Let d0 : Device := memoryDevice s0.
Let W : Z := longest_wait (DDR3.speed_entry (dev_spec d0)).
Hypothesis made : Ramulator_ctor sp r = Ok d0.
Hypothesis timers : ∀ i, (i < length (commandQueues s0))%nat → is_Some (reqCmdQueueTimer s0 !! i).
Hypothesis start : initial a0 s0.
Hypothesis kinds_ok : offers_kinds (kinds (commandQueues s0)).

Lemma made_device :
  @fresh rm_standard (rm_spec (dev_spec d0)) (channel d0) ∧ level (channel d0) = DDR3.Channel ∧
  id (channel d0) = 0 ∧ postBuffer d0 = [] ∧ clockCycle d0 = 0 ∧ paired d0.
Proof.
  unfold Ramulator_ctor in made. apply bind_Ok in made as (c & Hc & Hd). injection Hd as <-. simpl.
  match type of Hc with @DRAM_ctor _ ?S _ _ = _ =>
    destruct (@DRAM_ctor_ok rm_standard S 3 DDR3.Channel) as (n & Hn & Hf & Hl & Hi) end.
  - intros [|[|[|[|k]]]] Hk; simpl in *; try lia; eauto.
  - simpl. lia.
  - simpl. lia.
  - assert (@Ok Node n = Ok c) as [= ->] by (rewrite <- Hn; exact Hc). done.
Qed.

Lemma start_side : side_inv [] 0 s0.
Proof. destruct made_device as (_ & _ & _ & _ & _ & ?). split; [exact timers|done|]. by intros ??? ?%not_elem_of_nil. Qed.

(** A state of a run, before the clock of the device wraps. *)
Record at_cycle (h : list sent) (n : Z) (a : A) (s : CommandScheduler Device) : Prop := {
  ac_run : cycle_run a0 s0 h n a s;
  ac_clock : n < 2 ^ 32;
  ac_post i c t : (i, c, t) ∈ h → postCommand c = false;
  ac_fits i q c : commandQueues s !! i = Some q → c ∈ commands q → fits (memoryDevice s) c;
}.

Lemma at_cycle_tree h n a s : at_cycle h n a s → tree_inv d0 h n (memoryDevice s) ∧ side_inv h n s.
Proof.
  intros [Hrun Hn Hpost _]. destruct made_device as (_ & _ & _ & Hp & Hc & _). unfold d0 in Hp, Hc.
  split; [eapply cycle_tree|eapply cycle_side; [..|apply start_side| | | |]]; try done; rewrite Hc; lia.
Qed.

Lemma at_cycle_kinds h n a s : at_cycle h n a s → offers_kinds (kinds (commandQueues s)).
Proof.
  intros Hat. destruct (cycle_run_inv _ _ _ _ _ _ start (ac_run _ _ _ _ Hat)) as [Hr _ _ _].
  by destruct (reach_wait s0 h n s (in_timer _ _ start) (in_rtimer _ _ start) Hr) as (-> & _).
Qed.

Lemma at_cycle_wf h n a s :
  at_cycle h n a s → @tree_wf rm_standard (rm_spec (dev_spec (memoryDevice s))) (channel (memoryDevice s)).
Proof.
  intros Hat. destruct (at_cycle_tree _ _ _ _ Hat) as [[_ Hs _ _ Hr] _]. rewrite Hs.
  destruct made_device as (Hf & _).
  by destruct (@run_inv rm_standard (rm_spec (dev_spec d0)) (rm_laws (dev_spec d0)) _ Hf _ _ Hr).
Qed.

Lemma at_cycle_answers h n a s : at_cycle h n a s → answers s.
Proof.
  intros Hat. pose proof (at_cycle_wf _ _ _ _ Hat). split.
  - by eapply sd_timers, at_cycle_tree.
  - intros i q c Hi Hc. apply fits_check; [done|]. by eapply ac_fits.
  - intros i q c Hi Hc. apply fits_receive; [done|]. by eapply ac_fits.
Qed.

(** When every command sent is [W] cycles old, every command can be sent. *)
Lemma rested_ready h n a s i q c :
  at_cycle h n a s → (∀ i c t, (i, c, t) ∈ h → t + W ≤ n) →
  commandQueues s !! i = Some q → c ∈ commands q → ready_issuable c i s = Ok true.
Proof.
  intros Hat Hold Hi Hc. pose proof (at_cycle_answers _ _ _ _ Hat) as Ha.
  destruct (ac_fits _ _ _ _ Hat i q c Hi Hc) as [Hty Hfit].
  destruct (cycle_run_inv _ _ _ _ _ _ start (ac_run _ _ _ _ Hat)) as [Hreach (_ & _ & Hidle) _ _].
  destruct (isReady_total s i q c Ha Hi) as [b Hb].
  assert (b = true) as ->.
  { apply (exact_ready s0 h n s c i b (in_timer _ _ start) (in_rtimer _ _ start) Hreach Hty Hb).
    intros i1 c1 t1 Hin _. pose proof (longest_wait_command d0 c1 (bpt_int (busPacketType c))).
    specialize (Hold _ _ _ Hin). fold W in H. fold d0. lia. }
  unfold ready_issuable. rewrite Hb. cbn [mbind res_bind]. unfold isIssuable, busyBank.
  destruct Hidle as (_ & _ & _ & _ & ->). rewrite lookup_empty. cbn [default].
  destruct (at_cycle_tree _ _ _ _ Hat) as [[Hn0 Hs Hp Hclk Hrun] _].
  destruct (an_test _ Ha i q c Hi Hc) as [b Hck]. rewrite Hck. f_equal. simpl in Hck.
  unfold Ramulator_command_check in Hck. destruct (postCommand c) eqn:Epost; [by injection Hck as <-|].
  destruct (Hfit eq_refl) as (cmd & Ecmd & _). rewrite Ecmd, Hs in Hck. cbn [mbind res_bind] in Hck.
  destruct made_device as (Hf & Hl & Hid & _ & Hc0 & _). rewrite Hclk, Hc0 in Hck.
  apply (@check_ok rm_standard (rm_spec (dev_spec d0)) (rm_laws (dev_spec d0)) (channel d0)
    (events (clockCycle d0) h) (channel (memoryDevice s)) cmd (convert_addr c) (0 + n) b Hf Hrun);
    [lia|rewrite Hl; simpl; lia|rewrite Hl, Hid; done|exact Hck|].
  intros p m v _ (c1 & te & j & past & Hte & _ & -> & Hpast & _).
  assert (val te ≤ W) as Hv by exact (longest_wait_timing _ _ _ _ Hte).
  assert (∃ addr, (c1, addr, past) ∈ events (clockCycle d0) h) as [addr Hin]
    by (destruct (sibling te); eapply times_events, list_elem_of_lookup_2, Hpast).
  apply events_elem in Hin as (i1 & p1 & t1 & Hin & E). simpl in E. subst past. specialize (Hold _ _ _ Hin). lia.
Qed.

(** An idle cycle does not fail and keeps what is offered. *)
Lemma idle_step h n a s a' s' i q c :
  at_cycle h n a s → n + 1 < 2 ^ 32 → CmdAlg.commandSchedule a s = Ok (None, a', s') →
  commandQueues s !! i = Some q → offers q c →
  ∃ s1 od q1, tick s' = Ok s1 ∧ update_device (memoryDevice s1) = Ok od ∧
    at_cycle h (n + 1) a' (set_memoryDevice od.2 s1) ∧ commandQueues s1 !! i = Some q1 ∧ offers q1 c.
Proof.
  intros Hat Hn Hs Hi Hc. pose proof (cycle_run_inv _ _ _ _ _ _ start (ac_run _ _ _ _ Hat)) as [_ _ Hwf Ha].
  destruct (schedule_issues _ _ _ _ _ Hwf Ha Hs) as (_ & ic & Hic & Hiss).
  destruct ic; [done|]. inversion Hiss as [? Hqt|]; subst.
  assert (at_cycle h n a' s') as Hat'.
  { destruct Hat as [Hr Hc0 Hp Hf]. split; [by eapply cr_none|done|done|].
    intros j qj cj Hj Hcj. destruct (quiet_lookup _ _ _ _ Hqt Hj) as (qj' & Hj' & Hsame).
    rewrite (commands_same _ _ Hsame) in Hcj. rewrite (qt_dev _ _ Hqt). by eapply Hf. }
  pose proof (cycle_run_inv _ _ _ _ _ _ start (ac_run _ _ _ _ Hat')) as [_ Href _ _].
  destruct (at_cycle_tree _ _ _ _ Hat') as [[_ _ Hpost _ _] [Hts Hpair _]].
  destruct (tick_total s' Href Hts) as [s1 Ht]. destruct (tick_no_refresh _ _ Href Ht) as (Eq & _).
  destruct (tick_timer s' s1 0 0 0 Ht) as (_ & _ & Em).
  destruct (device_update_total _ Hpair Hpost) as (o & d & Hd & _).
  destruct (quiet_lookup_l _ _ _ _ Hqt Hi) as (q1 & Hi1 & Hsame).
  exists s1, (o, d), q1. split_and!; [done|by rewrite Em| |by rewrite Eq|by eapply offers_same].
  destruct Hat' as [Hr _ Hp Hf]. split; [|lia|done|].
  - eapply cr_tick; [exact Hr|exact Ht|]. exists o. rewrite Em. exact Hd.
  - simpl. rewrite Eq. intros j qj cj Hj Hcj. specialize (Hf j qj cj Hj Hcj). unfold fits in *.
    destruct (device_step_frame _ d (ex_intro _ o Hd) Hpost) as (-> & _). done.
Qed.

Lemma sent_within fuel : ∀ h n a s i q c,
  at_cycle h n a s → n + Z.of_nat fuel < 2 ^ 32 → (∀ i c t, (i, c, t) ∈ h → t + W ≤ n + Z.of_nat fuel) →
  commandQueues s !! i = Some q → offers q c →
  ∃ k c', next_sent fuel a s = Ok (Some (k, c')) ∧ (k ≤ fuel)%nat.
Proof.
  induction fuel as [|fuel IH]; intros h n a s i q c Hat Hn Hold Hi Hc;
    pose proof (at_cycle_answers _ _ _ _ Hat) as Hans;
    pose proof (cycle_run_inv _ _ _ _ _ _ start (ac_run _ _ _ _ Hat)) as [_ _ Hwf Ha];
    destruct (schedule_total a s Hwf Ha Hans) as [[[[c'|] a'] s'] Hs]; simpl; rewrite Hs; simpl.
  1, 3: exists 0%nat, c'; split; [done|lia].
  - exfalso. pose proof (schedule_idle _ _ _ _ _ _ _ Hwf Ha Hans (at_cycle_kinds _ _ _ _ Hat) Hs Hi Hc) as Hno.
    rewrite (rested_ready h n a s i q c Hat) in Hno; [done| |exact Hi|].
    + intros i1 c1 t1 Hin. specialize (Hold _ _ _ Hin). lia.
    + apply offers_commands; [|exact Hc]. rewrite Forall_lookup in Hwf. by eapply Hwf.
  - destruct (idle_step h n a s a' s' i q c Hat) as (s1 & od & q1 & Ht & Hd & Hat1 & Hi1 & Hc1); [lia|done..|].
    simpl in Hd. rewrite Ht. simpl. rewrite Hd. simpl.
    destruct (IH h (n + 1) a' (set_memoryDevice od.2 s1) i q1 c Hat1) as (k & c' & -> & Hk); [lia| |exact Hi1|exact Hc1|].
    + intros i2 c2 t2 Hin. specialize (Hold _ _ _ Hin). lia.
    + simpl. exists (S k), c'. split; [done|lia].
Qed.

(** C12. Liveness of the command scheduling, for every work-conserving algorithm on a
    DDR3 device. In every reachable state, before the 32-bit clock of the device wraps, in which no
    posted command was sent, the device can test and receive every command of the queues and one of them
    is offered to the algorithm, the simulator runs on without a failure - no more commands
    arriving - and sends a command after at most [longest_wait] cycles. *)
Theorem offered_command_is_sent h n a s i q c :
  cycle_run a0 s0 h n a s → n + W < 2 ^ 32 →
  (∀ j p t, (j, p, t) ∈ h → postCommand p = false) →
  (∀ j qj p, commandQueues s !! j = Some qj → p ∈ commands qj → fits (memoryDevice s) p) →
  commandQueues s !! i = Some q → offers q c →
  ∃ k c', next_sent (Z.to_nat W) a s = Ok (Some (k, c')) ∧ Z.of_nat k ≤ W.
Proof.
  intros Hrun Hn Hpost Hfits Hi Hc.
  assert (0 ≤ W) as HW by (unfold W, longest_wait; induction (_ ++ _); simpl; lia).
  assert (at_cycle h n a s) as Hat by (split; [done|lia|done|done]).
  destruct (sent_within (Z.to_nat W) h n a s i q c Hat) as (k & c' & Hk & Hle); [lia| |done|done|].
  - intros j p t Hin. apply (sd_times _ _ _ (proj2 (at_cycle_tree _ _ _ _ Hat))) in Hin. lia.
  - exists k, c'. split; [done|lia].
Qed.
End progress.

(** ** PUSH *)
Module PUSH.
Import CmdAlgos.PUSH.
Section PUSH.
Context {Dev : Type} `{MemoryDevice Dev}.
Implicit Types s : CommandScheduler Dev.

Definition critical_first (q : CommandQueue) (c : BusPacket) : Prop := head (hrtBuffer q) = Some c.

(** A turn does not fail when its choice does not. *)
Lemma PUSH_visit_total pick s0 i s t :
  quiet s0 s → answers s0 → (i < length (commandQueues s0))%nat →
  (∀ c, can_send s0 i c → ∃ t', pick c i t = Ok t') →
  ∃ st, visit pick i (s, t) = Ok st.
Proof.
  intros Hqt Ha Hlt Hpick. rewrite <- (quiet_length _ _ Hqt) in Hlt.
  apply lookup_lt_is_Some in Hlt as [q Hi]. pose proof (quiet_scheduled None s) as Hq1.
  unfold visit, queue_at, vec_at. simpl. rewrite Hi. simpl. unfold cq_getSize.
  destruct (hrtBuffer q) as [|c l] eqn:Hl; simpl; [eauto|].
  rewrite (peek_total (set_scheduledCommand None s) i q c l Hi Hl). simpl.
  set (s1 := set_queue i (set_scheduledQueue true q) (set_scheduledCommand None s)).
  assert (quiet s s1) as Hq2 by (etransitivity; [exact Hq1|]; by eapply peek_quiet, peek_total).
  assert (quiet s0 s1) as Hq3 by by etransitivity.
  rewrite (quiet_ready_issuable _ _ _ _ Hq2).
  destruct (ready_issuable_total s i q c (quiet_answers _ _ Hqt Ha) Hi (hrt_commands _ _ _ Hl)) as [b Hb].
  rewrite Hb. simpl. destruct b; [|eauto].
  destruct (Hpick c) as [t' ->]; [|simpl; eauto].
  rewrite <- (can_send_quiet _ _ _ _ Hqt). split; [unfold hrt_head; rewrite Hi; simpl; by rewrite Hl|done].
Qed.

Lemma loop_last_total s0 k n st :
  by_banks s0 → answers s0 → (k + n ≤ length (commandQueues s0))%nat → loop_inv s0 (λ j, j < k)%nat False st →
  ∃ st', foldM (seq k n) st (visit pick_last) = Ok st'.
Proof.
  intros Hb Ha. revert k st. induction n as [|n IH]; intros k [s t] Hle Hst; cbn [seq foldM]; [eauto|].
  destruct (PUSH_visit_total pick_last s0 k s t) as [st1 Hv]; [apply Hst|done|lia|by unfold pick_last; eauto|].
  rewrite Hv. cbn [mbind res_bind]. apply IH; [lia|].
  destruct (visit_last _ _ _ _ _ Hb Hst Hv) as [(H1 & H2 & H3 & _) _].
  split_and!; [done|done| |done]. intros E i c Hi. apply H3; [done|lia].
Qed.

Lemma loop_older_total s0 k n st :
  by_banks s0 → answers s0 → (k + n ≤ length (commandQueues s0))%nat → loop_inv s0 (λ j, j < k)%nat True st →
  (st.2 = None → ∀ i c, ¬ can_send s0 i c) →
  ∃ st', foldM (seq k n) st (visit pick_older) = Ok st'.
Proof.
  intros Hb Ha. revert k st. induction n as [|n IH]; intros k [s t] Hle Hst Hall; cbn [seq foldM]; [eauto|].
  destruct (PUSH_visit_total pick_older s0 k s t) as [st1 Hv]; [apply Hst|done|lia| |].
  - intros c Hcs. unfold pick_older. destruct t as [ti|]; [simpl; eauto|]. exfalso. by eapply Hall.
  - rewrite Hv. cbn [mbind res_bind]. destruct (visit_older _ _ _ _ _ Hb Hst Hall Hv) as ((H1 & H2 & H3 & H4) & H5 & _).
    apply IH; [lia| |done]. split_and!; [done|done|intros E i c Hi; apply H3; [done|lia]|].
    intros _ c i c' i' E Hi'. apply (H4 I c i c' i' E). lia.
Qed.

Lemma PUSH_total a s :
  Forall cq_wf (commandQueues s) → inv a s → answers s → ∃ x, commandSchedule a s = Ok x.
Proof.
  intros Hwf [Hb Hne] Ha. unfold commandSchedule.
  assert (loop_inv s (λ j, j < 0)%nat False (s, None)) as L0
    by (split_and!; [apply candidate_none|done|intros; lia|done]).
  destruct (loop_last_total s 0 (length (commandQueues s)) (s, None) Hb Ha) as [st1 E1]; [lia|exact L0|].
  rewrite E1. cbn [mbind res_bind]. apply (loop_last s) in E1 as (L1 & L2 & L3 & _); [|done|exact L0].
  assert (st1.2 = None → ∀ i c, ¬ can_send s i c) as Hall.
  { intros E i c Hcs. eapply (L3 E i c); [|done]. destruct Hcs as [Hh _]. unfold hrt_head in Hh.
    destruct (commandQueues s !! i) eqn:Hi; [|done]. by apply lookup_lt_Some in Hi. }
  assert (loop_inv s (λ j, j < 0)%nat True st1) as O0 by (split_and!; [done|done|intros; lia|intros; lia]).
  destruct (loop_older_total s 0 (length (commandQueues s)) st1 Hb Ha) as [st2 E2]; [lia|exact O0|done|].
  rewrite E2. cbn [mbind res_bind]. apply (loop_older s) in E2 as ((O1 & _) & _); [|done|exact O0|done].
  destruct st2 as [s2 [[c i]|]]; [|eauto]. destruct O1 as [Hq O1]. destruct (O1 c i eq_refl) as [Hf _].
  destruct (send_total s s2 i c Hq Hwf Ha) as [s' ->]; [by apply crit_front_at|]. simpl. eauto.
Qed.

#[export] Program Instance work_conserving : WorkConserving Dev unit := {|
  offers := critical_first; offers_kinds := λ _, True |}.
Next Obligation. by intros q q' c [b ->]. Qed.
Next Obligation.
  intros q c _ Hc. unfold critical_first in Hc. destruct (hrtBuffer q) as [|c' l] eqn:Hl; [done|].
  injection Hc as ->. by eapply hrt_commands.
Qed.
Next Obligation. exact PUSH_total. Qed.
Next Obligation.
  intros a s a' s' i q c _ Hinv Ha _ Hs Hi Hc.
  destruct (schedule_oldest _ _ _ _ _ Hinv Hs) as [_ Hno].
  assert (hrt_head s i = Some c) as Hh by (unfold hrt_head; by rewrite Hi).
  assert (c ∈ commands q) as Hin.
  { unfold critical_first in Hc. destruct (hrtBuffer q) as [|c' l] eqn:Hl; [done|]. injection Hc as ->. by eapply hrt_commands. }
  destruct (ready_issuable_total s i q c Ha Hi Hin) as [[] Hb]; [|done]. by destruct (Hno i c).
Qed.
End PUSH.
End PUSH.

(** ** FRFCFS *)
Module FRFCFS.
Import CmdAlgos.FRFCFS.

Section scans_total.
Variables (test : BusPacket → res bool) (older : BusPacket → BusPacket → bool) (q : CommandQueue).
Hypothesis answers_test : ∀ c, c ∈ heads q → ∃ b, test c = Ok b.

Lemma scan_first_total : ∃ t, scan_first test q = Ok t.
Proof.
  unfold scan_first. rewrite each_requestor_heads. edestruct (forM_total (A := BusPacket) (R := unit) (λ _ : option BusPacket, True))
    as [o Ho]; [done| |rewrite Ho; simpl; eauto].
  intros c t Hc _. destruct (answers_test c Hc) as [b ->]. simpl. eauto.
Qed.

Lemma scan_last_total t : ∃ t', scan_last test q t = Ok t'.
Proof.
  unfold scan_last. rewrite each_requestor_heads. edestruct (forM_total (A := BusPacket) (R := unit) (λ _ : option BusPacket, True))
    as [o Ho]; [done| |rewrite Ho; simpl; eauto].
  intros c t' Hc _. destruct (answers_test c Hc) as [b ->]. simpl. eauto.
Qed.

Lemma scan_older_total c0 : ∃ t', scan_older test older q (Some c0) = Ok t'.
Proof.
  unfold scan_older. rewrite each_requestor_heads.
  edestruct (forM_total (A := BusPacket) (R := unit) (λ t : option BusPacket, is_Some t)) as [o Ho]; [eauto| |rewrite Ho; simpl; eauto].
  intros c t Hc [c1 ->]. destruct (answers_test c Hc) as [b ->]. simpl.
  destruct b; eexists; (split; [done|]); intros s2 [= <-]; [|eauto]. destruct (older c c1); eauto.
Qed.
End scans_total.

Section FRFCFS.
Context {Dev : Type} `{MemoryDevice Dev}.
Implicit Types s : CommandScheduler Dev.

Definition front_of (q : CommandQueue) (c : BusPacket) : Prop :=
  if cq_isPerRequestor q then c ∈ heads q ∧ is_type [RD; WR; ACT; PRE] c = true
  else head (hrtBuffer q) = Some c.
Definition uniform (ks : list bool) : Prop := Forall (λ k, k = false) ks ∨ Forall (λ k, k = true) ks.

Lemma test_total ts s i q c :
  answers s → commandQueues s !! i = Some q → c ∈ heads q → ∃ b, test ts i s c = Ok b.
Proof.
  intros Ha Hi Hc. unfold test. destruct (is_type ts c); [|eauto].
  by eapply ready_issuable_total; [..|apply heads_commands].
Qed.

Lemma choose_total s i q : answers s → commandQueues s !! i = Some q → ∃ t, choose q i s = Ok t.
Proof.
  intros Ha Hi. pose proof (λ ts c, test_total ts s i q c Ha Hi) as Ht. unfold choose.
  destruct (scan_first_total (test [RD; WR] i s) q (Ht _)) as [t1 ->]. cbn [mbind res_bind].
  assert (∀ t3, scan_last (test [ACT; PRE] i s) q None = Ok t3 →
    ∃ t, scan_older (test [ACT; PRE] i s) younger q t3 = Ok t) as Hlast.
  { intros [c3|] H3; [apply scan_older_total, Ht|]. apply scan_last_spec in H3 as [_ Hn]; [|done].
    rewrite scan_older_none by auto. eauto. }
  assert (∃ t, (t ← scan_last (test [ACT; PRE] i s) q None; scan_older (test [ACT; PRE] i s) younger q t) = Ok t) as [t0 H0].
  { destruct (scan_last_total (test [ACT; PRE] i s) q (Ht _) None) as [t3 H3]. rewrite H3. simpl. by apply Hlast. }
  destruct t1 as [c1|]; [|simpl; rewrite H0; eauto].
  destruct (scan_older_total (test [RD; WR] i s) younger q (Ht _) c1) as [[c2|] ->]; simpl; [eauto|rewrite H0; eauto].
Qed.

(** An empty choice means that no command of these types can be sent. *)
Lemma choose_none s i q c :
  choose q i s = Ok None → c ∈ heads q → is_type [RD; WR; ACT; PRE] c = true → ready_issuable c i s = Ok false.
Proof.
  intros Hch Hc Hty. unfold choose in Hch. apply bind_Ok in Hch as (t1 & H1 & Hch).
  apply scan_first_spec in H1 as [P1 N1]. apply bind_Ok in Hch as (t2 & H2 & Hch).
  assert (t2 = None) as -> by (destruct t2; [by injection Hch|done]).
  assert (t1 = None) as ->.
  { destruct t1 as [c1|]; [|done].
    destruct (scan_older_spec (test [RD; WR] i s) younger) with q c1 (@None BusPacket) as (? & ? & _);
      [unfold younger; lia..|done|done|done]. }
  apply bind_Ok in Hch as (t3 & H3 & Hch). apply scan_last_spec in H3 as [P3 N3]; [|done].
  assert (t3 = None) as ->.
  { destruct t3 as [c3|]; [|done].
    destruct (scan_older_spec (test [ACT; PRE] i s) younger) with q c3 (@None BusPacket) as (? & ? & _);
      [unfold younger; lia..|done|done|done]. }
  specialize (N1 eq_refl c Hc). specialize (N3 eq_refl c Hc). unfold test in N1, N3.
  assert (is_type [RD; WR] c || is_type [ACT; PRE] c = true) as Hor.
  { unfold is_type in *. by destruct (busPacketType c). }
  destruct (is_type [RD; WR] c); [done|]. by destruct (is_type [ACT; PRE] c).
Qed.

(** *** A turn of the loop *)
Definition turn_inv s0 (k : nat) (st : CommandScheduler Dev * option (BusPacket * nat)) : Prop :=
  candidate s0 st.1 st.2 ∧ scheduledCommand st.1 = None ∧ (by_requestors s0 → st.2 = None) ∧
  (st.2 = None → ∀ j q c, (j < k)%nat → commandQueues s0 !! j = Some q → front_of q c → ready_issuable c j s0 = Ok false) ∧
  (by_banks s0 → k = length (commandQueues s0) → k ≠ 0%nat → st.2 = None).

Lemma first_of_same q q' c : same_queue q q' → front_of q c → front_of q' c.
Proof. by intros [b ->]. Qed.

Lemma FRFCFS_visit_total s0 i st :
  Forall cq_wf (commandQueues s0) → answers s0 → candidate s0 st.1 st.2 → (i < length (commandQueues s0))%nat →
  ∃ o, visit i st = Ok o.
Proof.
  destruct st as [s t]. cbn [fst snd]. intros Hwf Ha Hc Hlt.
  pose proof (proj1 Hc) as Hqt. pose proof (quiet_answers _ _ Hqt Ha) as Has.
  rewrite <- (quiet_length _ _ Hqt) in Hlt. apply lookup_lt_is_Some in Hlt as [q Hi].
  unfold visit, queue_at, vec_at. rewrite Hi. cbn [of_option mbind res_bind]. destruct (cq_isPerRequestor q) eqn:Hk.
  - destruct (0 <? getRequestorIndex q)%nat; [|eauto]. destruct (choose_total s i q Has Hi) as [[c|] Hch];
      rewrite Hch; cbn [mbind res_bind]; [|eauto].
    apply FRFCFS_choose_spec in Hch as [[num Hin]%heads_elem _].
    destruct (send_total s0 s i c Hqt Hwf Ha) as [s' ->]; [|simpl; eauto].
    eapply requestor_front; [exact Hi| |exact Hk|exact Hin].
    eapply Forall_lookup_1; [by eapply quiet_wf|exact Hi].
  - assert (∃ s1 t1, (if (0 <? cq_getSize true q)%nat then
            cs ← peek true i s;
            let '(c, s) := cs in
            b ← ready_issuable c i s;
            Ok (s, if b : bool then
                     match t with
                     | Some (c', _) => if prefer c c' then Some (c, i) else t
                     | None => Some (c, i)
                     end
                   else t)
          else Ok (s, t)) = Ok (s1, t1) ∧ candidate s0 s1 t1) as (s1 & t1 & -> & Hc1).
    { unfold cq_getSize. destruct (hrtBuffer q) as [|c l] eqn:Hl; [simpl; eauto|]. simpl (0 <? _)%nat. cbn iota.
      pose proof (peek_total s i q c l Hi Hl) as Hp. rewrite Hp. cbn [mbind res_bind].
      destruct (ready_issuable_total s i q c Has Hi (hrt_commands _ _ _ Hl)) as [b Hb].
      rewrite (quiet_ready_issuable _ _ _ _ (peek_quiet _ _ _ _ _ Hp)), Hb. cbn [mbind res_bind].
      do 2 eexists. split; [done|]. pose proof (candidate_peek _ _ _ _ _ _ Hc Hp) as Hc2. destruct b; [|done].
      rewrite <- (quiet_ready_issuable _ _ _ _ (peek_quiet _ _ _ _ _ Hp)) in Hb.
      pose proof (candidate_new _ _ _ _ _ _ _ Hc Hi Hk Hp Hb) as Hnew.
      destruct t as [[c' i']|]; [|done]. by destruct (prefer c c'). }
    cbn [mbind res_bind]. case_bool_decide; [|eauto]. destruct t1 as [[c j]|]; [|eauto].
    destruct Hc1 as [Hq1 Ht1]. destruct (Ht1 c j eq_refl) as [Hf _].
    destruct (send_total s0 s1 j c Hq1 Hwf Ha) as [s' ->]; [by apply crit_front_at|]. simpl. eauto.
Qed.

Lemma FRFCFS_total a s :
  Forall cq_wf (commandQueues s) → answers s → ∃ x, commandSchedule a s = Ok x.
Proof.
  intros Hwf Ha. unfold commandSchedule. cbn zeta.
  destruct (forM_total (λ st : CommandScheduler Dev * option (BusPacket * nat), candidate s st.1 st.2 ∧ scheduledCommand st.1 = None)
    (seq 0 (length (commandQueues s))) (set_scheduledCommand None s, None) visit) as [o Ho].
  - split; [|done]. apply candidate_scheduled, candidate_none.
  - intros i st Hi [Hc Hn]. apply elem_of_seq in Hi. destruct (FRFCFS_visit_total s i st Hwf Ha Hc) as [o Ho]; [lia|].
    exists o. split; [exact Ho|]. intros s2 ->. exact (FRFCFS_visit_issues s i st _ Hwf Hc Hn Ho).
  - simpl commandQueues. rewrite Ho. cbn [mbind res_bind]. destruct o; eauto.
Qed.

(** What a turn leaves to the next one. *)
Lemma visit_next s0 k q0 s t s' t' :
  quiet s0 s → commandQueues s0 !! k = Some q0 → visit k (s, t) = Ok (Next (s', t')) →
  (t' = None → t = None ∧ ∀ c, front_of q0 c → ready_issuable c k s0 = Ok false) ∧
  (cq_isPerRequestor q0 = true → t' = t) ∧
  (cq_isPerRequestor q0 = false → S k = length (commandQueues s0) → t' = None).
Proof.
  intros Hqt Hi0 Hv. destruct (quiet_lookup_l _ _ _ _ Hqt Hi0) as (q & Hi & Hsame).
  pose proof (same_queue_kind _ _ Hsame) as Hk. pose proof (λ c, first_of_same q0 q c Hsame) as Hfo.
  unfold visit, queue_at, vec_at in Hv. rewrite Hi in Hv. cbn [of_option mbind res_bind] in Hv.
  unfold front_of in Hfo at 2. destruct (cq_isPerRequestor q) eqn:Ek.
  - split_and!; [|intros _|congruence].
    + destruct (Nat.ltb_spec 0 (getRequestorIndex q)).
      * apply bind_Ok in Hv as ([c|] & Hch & Hv); [by apply bind_Ok in Hv as (? & _ & ?)|injection Hv as <- <-].
        intros ->. split; [done|]. intros c [Hin Hty]%Hfo. rewrite <- (quiet_ready_issuable _ _ _ _ Hqt). by eapply choose_none.
      * injection Hv as <- <-. intros ->. split; [done|]. intros c [Hin _]%Hfo. exfalso. unfold heads in Hin.
        unfold getRequestorIndex in *. destruct (requestorMap q); [by apply not_elem_of_nil in Hin|simpl in *; lia].
    + destruct (0 <? getRequestorIndex q)%nat; [|by injection Hv].
      apply bind_Ok in Hv as ([c|] & _ & Hv); [by apply bind_Ok in Hv as (? & _ & ?)|by injection Hv].
  - apply bind_Ok in Hv as ([s1 t1] & Hst & Hv).
    assert (t1 = None → t = None ∧ ∀ c, front_of q0 c → ready_issuable c k s0 = Ok false) as Hnone.
    { unfold cq_getSize in Hst. destruct (hrtBuffer q) as [|c1 l] eqn:Hl; simpl (0 <? _)%nat in Hst; cbn iota in Hst.
      - injection Hst as <- ->. intros ->. split; [done|]. by intros c' ?%Hfo.
      - pose proof (peek_total s k q c1 l Hi Hl) as Hp. rewrite Hp in Hst. cbn [mbind res_bind] in Hst.
        pose proof (peek_quiet _ _ _ _ _ Hp) as Hqp.
        apply bind_Ok in Hst as (b & Hb & Hst). rewrite (quiet_ready_issuable _ _ _ _ Hqp) in Hb.
        injection Hst as <- Et. intros ->.
        destruct b; [destruct t as [[c2 j2]|]; [by destruct (prefer c1 c2)|done]|]. split; [done|].
        intros c' E%Hfo. injection E as <-. by rewrite <- (quiet_ready_issuable _ _ _ _ Hqt). }
    rewrite (quiet_length _ _ Hqt) in Hv. case_bool_decide as Hlast.
    + destruct t1 as [[c j]|]; [by apply bind_Ok in Hv as (? & _ & ?)|]. injection Hv as <- <-.
      split_and!; [done|congruence|done].
    + injection Hv as <- <-. split_and!; [exact Hnone|congruence|done].
Qed.

Lemma visit_turn s0 k st st' :
  Forall cq_wf (commandQueues s0) → turn_inv s0 k st → visit k st = Ok (Next st') → turn_inv s0 (S k) st'.
Proof.
  intros Hwf (Hc & Hn & Hreq & Hno & _) Hv.
  destruct (FRFCFS_visit_issues s0 k st _ Hwf Hc Hn Hv) as [Hc' Hn'].
  destruct st as [s t], st' as [s' t']. cbn [fst snd] in *. pose proof (proj1 Hc) as Hqt.
  assert (∃ q, commandQueues s !! k = Some q) as [q Hi]
    by (unfold visit in Hv; apply bind_Ok in Hv as (q & Hi%vec_at_Ok & _); by exists q).
  destruct (quiet_lookup _ _ _ _ Hqt Hi) as (q0 & Hi0 & _).
  destruct (visit_next s0 k q0 s t s' t' Hqt Hi0 Hv) as (H1 & H2 & H3). split_and!; cbn [fst snd]; [done|done|..].
  - intros Hr. rewrite H2; [by apply Hreq|]. by eapply by_requestors_kind.
  - intros Ht j qj c Hj Hqj Hf. destruct (H1 Ht) as [Ht0 Hk]. destruct (decide (j = k)) as [->|].
    + assert (qj = q0) as -> by congruence. by apply Hk.
    + eapply Hno; [exact Ht0|lia|done|done].
  - intros Hb Hlast _. apply H3; [by eapply by_banks_kind|done].
Qed.

Lemma turns s0 k n st st' :
  Forall cq_wf (commandQueues s0) → turn_inv s0 k st →
  forM (seq k n) st visit = Ok (Next st') → turn_inv s0 (k + n) st'.
Proof.
  intros Hwf. revert k st. induction n as [|n IH]; intros k st Hst Hf.
  - injection Hf as <-. by rewrite Nat.add_0_r.
  - cbn [seq forM] in Hf. apply bind_Ok in Hf as ([st1|st1 c] & Hv & Hf); [|done].
    rewrite <- Nat.add_succ_comm. eapply IH; [by eapply visit_turn|done].
Qed.

Lemma FRFCFS_idle a s a' s' i q c :
  Forall cq_wf (commandQueues s) → uniform (kinds (commandQueues s)) →
  commandSchedule a s = Ok (None, a', s') → commandQueues s !! i = Some q → front_of q c →
  ready_issuable c i s = Ok false.
Proof.
  intros Hwf Hu Hs Hi Hc. unfold commandSchedule in Hs. apply bind_Ok in Hs as (o & Ho & Hs).
  destruct o as [st|st c']; [|done]. pose proof (lookup_lt_Some _ _ _ Hi) as Hlt.
  apply (turns s) in Ho as (_ & _ & Hreq & Hno & Hbank); [|done|].
  - simpl in *. eapply Hno; [|exact Hlt|exact Hi|exact Hc]. destruct Hu as [Hu|Hu]; [|by apply Hreq].
    apply Hbank; [done|done|]. lia.
  - split_and!; [apply candidate_scheduled, candidate_none|done|done|intros; lia|done].
Qed.

#[export] Program Instance work_conserving : WorkConserving Dev unit := {|
  offers := front_of; offers_kinds := uniform |}.
Next Obligation. intros q q' c Hs. by apply first_of_same. Qed.
Next Obligation.
  intros q c _ Hc. unfold front_of in Hc. destruct (cq_isPerRequestor q); [by apply heads_commands, Hc|].
  destruct (hrtBuffer q) as [|c' l] eqn:Hl; [done|]. injection Hc as ->. by eapply hrt_commands.
Qed.
Next Obligation. intros a s Hwf _ Ha. by apply FRFCFS_total. Qed.
Next Obligation. intros a s a' s' i q c Hwf _ _ Hu Hs Hi Hc. exact (FRFCFS_idle a s a' s' i q c Hwf Hu Hs Hi Hc). Qed.
End FRFCFS.
End FRFCFS.

(** ** Witnesses *)
#[local] Existing Instance CmdAlgos.FRFCFS.scheduling.
#[local] Existing Instance CmdAlgos.FRFCFS.algorithm.
#[local] Existing Instance FRFCFS.work_conserving.

Lemma wit_dev0_made : Ramulator_ctor DDR3.wit_ddr3 1 = Ok wit_dev0.
Proof. unfold wit_dev0. reflexivity. Qed.

Lemma wit_waiting_run : cycle_run (A := unit) tt wit_alg0 [(0%nat, wit_act, 0)] 0 tt wit_alg1.
Proof. by destruct (wit_issue [] 0 wit_alg0 wit_act) as [H1 L1]; [constructor|reflexivity|vm_compute; reflexivity|]. Qed.

Definition wit_leaf (d : Device) (p : list nat) : bool :=
  match node_at (channel d) p with Some m => match children m with [] => true | _ :: _ => false end | None => false end.

Lemma wit_leaf_reaches d addr p :
  wit_leaf d p = true → (3 < length addr)%nat → level (channel d) = DDR3.Channel → id (channel d) = 0 →
  role_of addr 0 0 p = Target → @reaches rm_standard addr (channel d).
Proof.
  unfold wit_leaf. intros Hl Hlen E1 E2 Hr. destruct (node_at (channel d) p) as [m|] eqn:Hm; [|done].
  destruct (children m) eqn:Hc; [|done]. split; [exact Hlen|]. exists p, m. by rewrite E1, E2.
Qed.

Lemma wit_read_fits : fits (memoryDevice wit_alg1) wit_read.
Proof.
  split; [vm_compute; lia|]. intros _. exists DDR3.RD. split; [reflexivity|].
  apply (wit_leaf_reaches _ _ [0%nat; 5%nat]); [vm_compute; reflexivity|simpl; lia|vm_compute; reflexivity..].
Qed.

Definition wit_waiting_queue : CommandQueue := match commandQueues wit_alg1 with q :: _ => q | [] => wit_cq false end.

Lemma wit_waiting : commandQueues wit_alg1 = [wit_waiting_queue] ∧ commands wit_waiting_queue = [wit_read].
Proof. split; vm_compute; reflexivity. Qed.

Lemma wit_waiting_not_posted k c t : (k, c, t) ∈ [(0%nat, wit_act, 0)] → postCommand c = false.
Proof. intros Hin%list_elem_of_singleton. by simplify_eq. Qed.

Lemma wit_waiting_fits j q p : [wit_waiting_queue] !! j = Some q → p ∈ commands q → fits (memoryDevice wit_alg1) p.
Proof.
  pose proof wit_read_fits as Hf. destruct wit_waiting as [_ Hc]. revert Hf Hc.
  generalize (memoryDevice wit_alg1) wit_waiting_queue. intros d q0 Hf Hc Hq Hp.
  apply list_elem_of_lookup_2 in Hq. apply list_elem_of_singleton in Hq as ->.
  rewrite Hc in Hp. apply list_elem_of_singleton in Hp as ->. exact Hf.
Qed.

Lemma offered_command_is_sent_witness :
  ∃ k c', next_sent 136 tt wit_alg1 = Ok (Some (k, c')) ∧ Z.of_nat k ≤ 136.
Proof.
  assert (longest_wait (DDR3.speed_entry (dev_spec (memoryDevice wit_alg0))) = 136) as HW by (vm_compute; reflexivity).
  assert (offers_kinds (kinds (commandQueues wit_alg0))) as Hks by (left; constructor; [reflexivity|constructor]).
  destruct (offered_command_is_sent tt wit_alg0 DDR3.wit_ddr3 1 wit_dev0_made
    (λ i Hi, lookup_lt_is_Some_2 (reqCmdQueueTimer wit_alg0) i Hi) wit_initial
    Hks [(0%nat, wit_act, 0)] 0 tt wit_alg1 0 wit_waiting_queue wit_read
    wit_waiting_run) as (k & c' & Hk & Hle).
  - rewrite HW. lia.
  - exact wit_waiting_not_posted.
  - intros j q p. rewrite (proj1 wit_waiting). apply wit_waiting_fits.
  - rewrite (proj1 wit_waiting). reflexivity.
  - vm_compute. reflexivity.
  - rewrite HW in Hk, Hle. exists k, c'. split; [exact Hk|exact Hle].
Defined.
