(* ===== verification/ReqSched.v ===== *)
(** * Request schedulers

    [RequestScheduler] (src/src/RequestScheduler.cpp, RequestScheduler.h) and the
    algorithms [Direct] and [RR] (src/generalScheduler), [FCFS], [FRFCFS] and
    [RTMem] (src/system): they choose a request of a queue, have its commands
    generated, remember the row it opens and take it out of the queue.

    Requests live in the store [h], which the schedulers only read. The relation
    [served] is the specification: a list of requests, one after the other, had
    their commands generated with a truthful row-hit flag and left their queue.

    Main results: every algorithm only serves requests, so that no request is
    lost or served twice; with the open-page generator the commands of any number
    of calls form a legal stream, because the row table of the scheduler agrees
    with the rows the commands open; [RR] serves one request per time slot, and
    takes it out of the wrong queue when there is more than one queue. *)
From S2P Require Import Prelude Types KeyedBuf ReqQueue CmdQueue CmdGen.

Record RequestScheduler := mkReqSched {
  requestQueues : list RequestQueue;
  rs_generator : Generator;
  bankTable : gmap Z (gmap Z Z);
  switch_enable : bool;
  rs_clock : Z;
}.

Definition set_requestQueues (l : list RequestQueue) (s : RequestScheduler) : RequestScheduler :=
  mkReqSched l (rs_generator s) (bankTable s) (switch_enable s) (rs_clock s).
Definition set_generator (g : Generator) (s : RequestScheduler) : RequestScheduler :=
  mkReqSched (requestQueues s) g (bankTable s) (switch_enable s) (rs_clock s).
Definition set_bankTable (t : gmap Z (gmap Z Z)) (s : RequestScheduler) : RequestScheduler :=
  mkReqSched (requestQueues s) (rs_generator s) t (switch_enable s) (rs_clock s).
Definition set_request_queue (i : nat) (q : RequestQueue) (s : RequestScheduler) : RequestScheduler :=
  set_requestQueues (<[i := q]> (requestQueues s)) s.

(** The constructor, with the generator [connectCommandGenerator] sets; it leaves
    [switch_enable] unset ([b]). *)
Definition RequestScheduler_ctor (b : bool) (queues : list RequestQueue) (g : Generator) : RequestScheduler :=
  mkReqSched queues g ∅ b 1.

Definition request_queue (i : nat) (s : RequestScheduler) : res RequestQueue := vec_at (requestQueues s) i.

Definition flushWriteReq (sw : bool) (s : RequestScheduler) : RequestScheduler :=
  mkReqSched (requestQueues s) (rs_generator s) (bankTable s) sw (rs_clock s).
Definition rs_step (s : RequestScheduler) : RequestScheduler :=
  mkReqSched (requestQueues s) (rs_generator s) (bankTable s) (switch_enable s) (u64 (rs_clock s + 1)).

Definition rs_bufferSize (i : nat) (s : RequestScheduler) : res nat :=
  q ← request_queue i s; getSize false 0 q.
Definition serviceWrite (i : nat) (s : RequestScheduler) : res bool :=
  q ← request_queue i s;
  n ← getSize false 0 q;
  Ok (isWriteEnable q && bool_decide (n = 0%nat)).
Definition writeEnable (i : nat) (s : RequestScheduler) : res bool :=
  q ← request_queue i s; Ok (isWriteEnable q).

(** [isRowHit]: the iterator of [bankTable[request->rank]] is compared with the
    end of [bankTable[addressMap[Rank]]], which is undefined for two maps. *)
Definition isRowHit (r : Request) (s : RequestScheduler) : res bool :=
  rk ← amap (addressMap r) Rank;
  match bankTable s !! rk with
  | None => Ok false
  | Some t =>
      if bool_decide (rank r = rk) then
        bk ← amap (addressMap r) Bank;
        Ok (bool_decide (t !! bk = Some (row r)))
      else Err Undefined
  end.

Definition updateRowTable (rk bk rw : Z) (s : RequestScheduler) : RequestScheduler :=
  set_bankTable (<[rk := <[bk := rw]> (default ∅ (bankTable s !! rk))]> (bankTable s)) s.

Section schedulers.
Context `{CommandGenerator}.
Variable h : rheap.
Implicit Types s : RequestScheduler.

(** [scheduleFR(i)]: the first request of the general buffer that hits its row,
    or else the first one. *)
Definition scheduleFR (i : nat) (s : RequestScheduler) : res (option ptr * RequestScheduler) :=
  q ← request_queue i s;
  n ← getSize false 0 q;
  o ← forM (R := nat) (seq 0 n) () (λ k _,
    p ← getRequestCheck k q;
    p ← of_option Undefined p;
    r ← deref h p;
    hit ← isRowHit r s;
    Ok (if hit : bool then Stop () k else Next ()));
  pq ← getRequest (match o with Stop _ k => k | Next _ => 0%nat end) q;
  Ok (pq.1, set_request_queue i pq.2 s).

(** [isSchedulable(request, open)] of the base class. *)
Definition isSchedulable (r : Request) (open : bool) (s : RequestScheduler) : res (bool * RequestScheduler) :=
  bg ← commandGenerate r open (rs_generator s);
  Ok (bg.1, set_generator bg.2 s).

(** [requestQueue[i]->removeRequest()]. *)
Definition remove_from (i : nat) (s : RequestScheduler) : res RequestScheduler :=
  q ← request_queue i s;
  q ← removeRequest q;
  Ok (set_request_queue i q s).

(** [if (isSchedulable(r, isRowHit(r))) { updateRowTable(...); removeRequest(); }]. *)
Definition serve (i : nat) (p : ptr) (key : Request → res (Z * Z)) (s : RequestScheduler) : res RequestScheduler :=
  r ← deref h p;
  hit ← isRowHit r s;
  bs ← isSchedulable r hit s;
  let '(b, s) := bs in
  if b : bool then
    k ← key r;
    remove_from i (updateRowTable k.1 k.2 (row r) s)
  else Ok s.

(** The row table is indexed by the decoded address map or by the members. *)
Definition map_key (r : Request) : res (Z * Z) :=
  rk ← amap (addressMap r) Rank; bk ← amap (addressMap r) Bank; Ok (rk, bk).
Definition member_key (r : Request) : res (Z * Z) := Ok (rank r, bank r).

(** ** FRFCFS (src/system/FRFCFS/RequestScheduler_FRFCFS.h) *)
Definition frfcfs_visit (i : nat) (s : RequestScheduler) : res RequestScheduler :=
  n ← rs_bufferSize i s;
  if (0 <? n)%nat then
    ps ← scheduleFR i s;
    match ps with
    | (Some p, s) => serve i p map_key s
    | (None, s) => Ok s
    end
  else Ok s.
Definition frfcfs_requestSchedule (s : RequestScheduler) : res RequestScheduler :=
  foldM (seq 0 (length (requestQueues s))) s frfcfs_visit.

(** ** FCFS (src/system/FCFS/RequestScheduler_FCFS.h)

    [checkRequest] and [numIndex] keep their values from queue to queue. *)
Definition fcfs_first (q : RequestQueue) (st : option ptr * nat) : res (option ptr * nat) :=
  o ← forM (R := unit) (seq 0 (getQueueSize q)) st (λ num st,
    n ← getSize true num q;
    if (0 <? n)%nat then c ← checkRequestIndex num 0 q; Ok (Stop (c, num) ()) else Ok (Next st));
  Ok (match o with Next st => st | Stop st _ => st end).

Definition fcfs_earlier (q : RequestQueue) (st : option ptr * nat) : res (option ptr * nat) :=
  foldM (seq 0 (getQueueSize q)) st (λ num st,
    n ← getSize true num q;
    if (0 <? n)%nat then
      c ← checkRequestIndex num 0 q;
      t ← of_option Undefined st.1; rt ← deref h t;
      c' ← of_option Undefined c; rc ← deref h c';
      Ok (if arriveTime rc <=? arriveTime rt then (c, num) else st)
    else Ok st).

Definition fcfs_visit (i : nat) (st : option ptr * nat * RequestScheduler)
    : res (option ptr * nat * RequestScheduler) :=
  let '(check, s) := st in
  q ← request_queue i s;
  if isPerRequestor q then
    check ← fcfs_first q check;
    check ← fcfs_earlier q check;
    match check.1 with
    | Some _ =>
        pq ← getRequest2 check.2 0 q;
        p ← of_option Undefined pq.1;
        s ← serve i p map_key (set_request_queue i pq.2 s);
        Ok (check, s)
    | None => Ok (check, s)
    end
  else
    n ← rs_bufferSize i s;
    if (0 <? n)%nat then
      pq ← getRequest 0 q;
      let s := set_request_queue i pq.2 s in
      match pq.1 with
      | Some p => s ← serve i p map_key s; Ok (check, s)
      | None => Ok (check, s)
      end
    else Ok (check, s).
Definition fcfs_requestSchedule (numIndex : nat) (s : RequestScheduler) : res (nat * RequestScheduler) :=
  st ← foldM (seq 0 (length (requestQueues s))) (None, numIndex, s) fcfs_visit;
  Ok (st.1.2, st.2).

(** ** Direct (src/generalScheduler/RequestScheduler_DIRECT.h)

    [requestorIndex] has the next requestor of every queue; [roundRobin_Level] is
    [false], so the loop over the requestors runs to its end. *)
Definition direct_requestor (i : nat) (st : list nat * RequestScheduler) : res (list nat * RequestScheduler) :=
  let '(ri, s) := st in
  q ← request_queue i s;
  j ← vec_at ri i;
  n ← getSize true j q;
  s ← (if (0 <? n)%nat then
         pq ← getRequest2 j 0 q;
         p ← of_option Undefined pq.1;
         serve i p map_key (set_request_queue i pq.2 s)
       else Ok s);
  ri ← vec_set ri i (if bool_decide (S j = getQueueSize q) then 0%nat else S j);
  Ok (ri, s).

Definition direct_visit (i : nat) (st : list nat * RequestScheduler) : res (list nat * RequestScheduler) :=
  q ← request_queue i st.2;
  if isPerRequestor q then
    foldM (seq 0 (getQueueSize q)) st (λ _, direct_requestor i)
  else
    n ← rs_bufferSize i st.2;
    if (0 <? n)%nat then
      ps ← scheduleFR i st.2;
      p ← of_option Undefined ps.1;
      s ← serve i p member_key ps.2;
      Ok (st.1, s)
    else Ok st.
Definition direct_requestSchedule (st : list nat * RequestScheduler) : res (list nat * RequestScheduler) :=
  foldM (seq 0 (length (requestQueues st.2))) st direct_visit.
End schedulers.

(** ** The specification *)
Section specification.
Context `{CommandGenerator}.
Variable h : rheap.
Implicit Types s : RequestScheduler.

(** Only what the queues remember for [removeRequest] and the write mode, which
    nothing but the interface reads, differ. *)
Definition looked (q q' : RequestQueue) : Prop := ∃ x b, q' = setWriteMode b (set_scheduledRequest x q).

#[export] Instance looked_preorder : PreOrder looked.
Proof.
  split; [intros q; exists (ReqQueue.scheduledRequest q), (writeMode q); by destruct q|].
  intros q1 q2 q3 (x & b & ->) (y & b' & ->). by exists y, b'.
Qed.

Lemma looked_scheduled x q : looked q (set_scheduledRequest x q).
Proof. exists x, (writeMode q). by destruct q. Qed.

Record same (s s' : RequestScheduler) : Prop := {
  sm_generator : rs_generator s' = rs_generator s;
  sm_table : bankTable s' = bankTable s;
  sm_queues : Forall2 looked (requestQueues s) (requestQueues s');
}.

#[export] Instance same_preorder : PreOrder same.
Proof.
  split; [by split|]. intros s1 s2 s3 [? ? ?] [? ? ?]. split; try congruence. by etransitivity.
Qed.

(** Request [p] of queue [i] is served: its commands are generated with the
    row-hit flag of the table, the table remembers its row, and it leaves its
    queue. *)
Inductive served1 (s : RequestScheduler) (p : ptr) (s' : RequestScheduler) : Prop :=
| Served1 r i q q' hit k :
    h !! p = Some r →
    requestQueues s !! i = Some q →
    (rq_wf q → rq_wf q' ∧ contents q ≡ₚ p :: contents q') →
    requestQueues s' = <[i := q']> (requestQueues s) →
    isRowHit r s = Ok hit →
    commandGenerate r hit (rs_generator s) = Ok (true, rs_generator s') →
    map_key r = Ok k ∨ member_key r = Ok k →
    bankTable s' = bankTable (updateRowTable k.1 k.2 (row r) s) →
    served1 s p s'.

Inductive served : RequestScheduler → list ptr → RequestScheduler → Prop :=
| served_nil s s' : same s s' → served s [] s'
| served_cons s s1 s2 s3 p l :
    same s s1 → served1 s1 p s2 → served s2 l s3 → served s (p :: l) s3.

Lemma same_served s1 s2 l s3 : same s1 s2 → served s2 l s3 → served s1 l s3.
Proof.
  intros Hs Hv. destruct Hv as [|s2 s2' s4 s5 p l Hs' H1 Hv].
  - constructor. by etransitivity.
  - econstructor; [by etransitivity|done|done].
Qed.

Lemma served_app s1 l1 s2 l2 s3 : served s1 l1 s2 → served s2 l2 s3 → served s1 (l1 ++ l2) s3.
Proof.
  induction 1 as [s s' Hs|s s' s'' s4 p l Hs H1 _ IH]; intros Hv; simpl.
  - by eapply same_served.
  - econstructor; [done|done|by apply IH].
Qed.

(** ** The parts of the algorithms meet it *)
Definition all_wf s : Prop := Forall rq_wf (requestQueues s).

Lemma looked_wf q q' : looked q q' → rq_wf q → rq_wf q' ∧ contents q' = contents q.
Proof. intros (x & b & ->) [Ho Hw]. by split. Qed.

Lemma looked_wf_inv q q' : looked q q' → rq_wf q' → rq_wf q.
Proof. intros (x & b & ->) [Ho Hw]. by split. Qed.

Lemma same_wf s s' : same s s' → all_wf s → all_wf s'.
Proof.
  intros [_ _ Hq] Hwf. unfold all_wf in *. rewrite Forall_forall in *. intros q' (i & Hi)%list_elem_of_lookup.
  destruct (Forall2_lookup_r _ _ _ _ _ Hq Hi) as (q & Hq' & Hl). eapply looked_wf; [exact Hl|].
  apply Hwf. by eapply list_elem_of_lookup_2.
Qed.

Lemma served_wf s l s' : served s l s' → all_wf s → all_wf s'.
Proof.
  induction 1 as [s s' Hs|s s1 s2 s3 p l Hs [r i q q' hit k _ Hq Hw E _ _ _ _] _ IH]; intros Hwf;
    [by eapply same_wf|].
  apply IH. pose proof (same_wf _ _ Hs Hwf) as Hwf1. unfold all_wf in *. rewrite E.
  apply Forall_insert; [done|]. by apply Hw, (Forall_lookup_1 _ _ _ _ Hwf1 Hq).
Qed.

Lemma set_looked i q q' s : request_queue i s = Ok q → looked q q' → same s (set_request_queue i q' s).
Proof.
  intros Hq%vec_at_Ok Hl. split; [done|done|]. simpl. apply Forall2_same_length_lookup_2; [by rewrite length_insert|].
  intros j q1 q2 H1 H2. destruct (decide (j = i)) as [->|Hne].
  - rewrite list_lookup_insert_eq in H2 by (by eapply lookup_lt_Some). by simplify_eq.
  - rewrite list_lookup_insert_ne in H2 by done. by simplify_eq.
Qed.

(** What [getRequest] and [getRequest2] fetch, [removeRequest] takes out. *)
Definition fetched (q : RequestQueue) (p : ptr) : Prop :=
  rq_wf q → ∀ q', removeRequest q = Ok q' → rq_wf q' ∧ contents q ≡ₚ p :: contents q'.

Lemma getRequest_fetched j q p q1 : getRequest j q = Ok (Some p, q1) → looked q q1 ∧ fetched q1 p.
Proof.
  intros Hg. assert (looked q q1) as Hl.
  { unfold getRequest in Hg. case_bool_decide; [done|]. apply bind_Ok in Hg as (x & _ & Hg).
    injection Hg as _ <-. by eapply looked_scheduled. }
  split; [done|]. intros Hwf q' Hr. assert (rq_wf q) as Hwq by (by eapply looked_wf_inv).
  destruct (fetch_general j q p q1 Hwq Hg) as (q2 & _ & H2 & H3 & H4 & _). assert (q2 = q') as <- by congruence.
  split; [done|]. by rewrite (proj2 (looked_wf _ _ Hl Hwq)).
Qed.

Lemma getRequest2_fetched i j q p q1 : getRequest2 i j q = Ok (Some p, q1) → looked q q1 ∧ fetched q1 p.
Proof.
  intros Hg. assert (looked q q1) as Hl.
  { unfold getRequest2 in Hg. apply bind_Ok in Hg as (id & _ & Hg). case_bool_decide; [done|].
    apply bind_Ok in Hg as (x & _ & Hg). injection Hg as _ <-. by eapply looked_scheduled. }
  split; [done|]. intros Hwf q' Hr. assert (rq_wf q) as Hwq by (by eapply looked_wf_inv).
  destruct (fetch_requestor i j q p q1 Hwq Hg) as (id & q2 & _ & _ & H1 & H2 & H3 & _).
  assert (q2 = q') as <- by congruence. split; [done|]. by rewrite (proj2 (looked_wf _ _ Hl Hwq)).
Qed.

Lemma serve_served i p key s q s' :
  (∀ r, key r = map_key r ∨ key r = member_key r) →
  request_queue i s = Ok q → fetched q p → serve h i p key s = Ok s' → ∃ l, served s l s'.
Proof.
  intros Hkey Hq%vec_at_Ok Hf Hs. unfold serve in Hs. apply bind_Ok in Hs as (r & Hr%deref_Ok & Hs).
  apply bind_Ok in Hs as (hit & Hhit & Hs). apply bind_Ok in Hs as ([b s1] & Hb & Hs).
  unfold isSchedulable in Hb. apply bind_Ok in Hb as ([b' g] & Hg & Hb). injection Hb as <- <-. simpl in Hs.
  destruct (commandGenerate_appends _ _ _ _ _ Hg) as [-> _].
  apply bind_Ok in Hs as (k & Hk & Hs). unfold remove_from in Hs. simpl in Hs.
  apply bind_Ok in Hs as (q0 & Hq0 & Hs). unfold request_queue, vec_at in Hq0. simpl in Hq0. rewrite Hq in Hq0.
  injection Hq0 as <-. apply bind_Ok in Hs as (q' & Hq' & Hs). injection Hs as <-.
  exists [p]. eapply served_cons; [reflexivity| |by constructor].
  eapply (Served1 s p _ r i q q' hit k); try done; [intros Hwf; by apply Hf|].
  destruct (Hkey r) as [E|E]; rewrite E in Hk; auto.
Qed.

Lemma set_looked_queue i q q' s :
  request_queue i s = Ok q → request_queue i (set_request_queue i q' s) = Ok q'.
Proof.
  intros Hq%vec_at_Ok. unfold request_queue. simpl. apply vec_at_Ok, list_lookup_insert_eq. by eapply lookup_lt_Some.
Qed.

(** Looking at the general buffer of queue [i]. *)
Lemma getRequest_sched k i q s o q1 :
  request_queue i s = Ok q → getRequest k q = Ok (o, q1) →
  same s (set_request_queue i q1 s) ∧
  ∀ p, o = Some p → ∃ q', request_queue i (set_request_queue i q1 s) = Ok q' ∧ fetched q' p.
Proof.
  intros Hq Hg. destruct o as [p|].
  - destruct (getRequest_fetched _ _ _ _ Hg) as [Hl Hfe]. split; [by apply (set_looked _ q)|].
    intros p' [= <-]. exists q1. split; [|done]. by eapply set_looked_queue.
  - split; [|done]. unfold getRequest in Hg. case_bool_decide; [injection Hg as <-; by apply (set_looked _ q)|].
    by apply bind_Ok in Hg as (x & _ & Hg).
Qed.

Lemma scheduleFR_fetched i s o s' :
  scheduleFR h i s = Ok (o, s') →
  same s s' ∧ ∀ p, o = Some p → ∃ q, request_queue i s' = Ok q ∧ fetched q p.
Proof.
  unfold scheduleFR. intros Hf. apply bind_Ok in Hf as (q & Hq & Hf). apply bind_Ok in Hf as (n & _ & Hf).
  apply bind_Ok in Hf as (o1 & _ & Hf). apply bind_Ok in Hf as ([o2 q1] & Hg & Hf). injection Hf as <- <-.
  by eapply getRequest_sched.
Qed.

(** Serving what was fetched. *)
Lemma fetched_serve i key s s1 p s' :
  (∀ r, key r = map_key r ∨ key r = member_key r) → same s s1 →
  (∃ q, request_queue i s1 = Ok q ∧ fetched q p) → serve h i p key s1 = Ok s' → ∃ l, served s l s'.
Proof.
  intros Hkey Hsm (q & Hq & Hf) Hs. eapply serve_served in Hs as [l Hl]; [|done..]. exists l. by eapply same_served.
Qed.

Lemma served_same s s' : same s s' → ∃ l, served s l s'.
Proof. intros Hs. exists []. by constructor. Qed.

(** A loop whose turns serve requests serves requests. *)
Lemma loop_served {A T} (st_s : T → RequestScheduler) (l : list A) (st st' : T) f :
  (∀ x st st', x ∈ l → f x st = Ok st' → ∃ l, served (st_s st) l (st_s st')) →
  foldM l st f = Ok st' → ∃ l, served (st_s st) l (st_s st').
Proof.
  intros Hf. revert st. induction l as [|x l IH]; intros st Hl; simpl in Hl.
  - injection Hl as <-. exists []. by constructor.
  - apply bind_Ok in Hl as (st1 & H1 & Hl). destruct (Hf x st st1 ltac:(left) H1) as [l1 Hl1].
    destruct (IH (λ y a b Hy, Hf y a b (list_elem_of_further _ _ _ Hy)) st1 Hl) as [l2 Hl2].
    exists (l1 ++ l2). by eapply served_app.
Qed.

Lemma fetch_serve i q q1 p s s' :
  request_queue i s = Ok q → looked q q1 ∧ fetched q1 p →
  serve h i p map_key (set_request_queue i q1 s) = Ok s' → ∃ l, served s l s'.
Proof.
  intros Hq [Hl Hf] Hs. eapply serve_served in Hs as [l Hv]; [|by left|by eapply set_looked_queue|exact Hf].
  exists l. eapply same_served; [by eapply set_looked|exact Hv].
Qed.

Lemma frfcfs_serves s s' : frfcfs_requestSchedule h s = Ok s' → ∃ l, served s l s'.
Proof.
  apply (loop_served (λ s, s)). intros i s1 s2 _ Hv. unfold frfcfs_visit in Hv.
  apply bind_Ok in Hv as (n & _ & Hv). destruct (0 <? n)%nat; [|injection Hv as <-; exists []; by constructor].
  apply bind_Ok in Hv as ([o s3] & Hf & Hv). apply scheduleFR_fetched in Hf as [Hs Hf].
  destruct o as [p|]; [|injection Hv as <-; exists []; by constructor].
  destruct (Hf p eq_refl) as (q & Hq & Hfe). eapply serve_served in Hv as [l Hl]; [|by left|done|done].
  exists l. by eapply same_served.
Qed.

Lemma fcfs_serves num s num' s' :
  fcfs_requestSchedule h num s = Ok (num', s') → ∃ l, served s l s'.
Proof.
  unfold fcfs_requestSchedule. intros Hr. apply bind_Ok in Hr as ([st s2] & Hl & Hr). injection Hr as _ <-.
  revert Hl. apply (loop_served snd). intros i [check s1] [check' s3] _ Hv. simpl.
  unfold fcfs_visit in Hv. apply bind_Ok in Hv as (q & Hq & Hv). destruct (isPerRequestor q).
  - apply bind_Ok in Hv as (c1 & _ & Hv). apply bind_Ok in Hv as (c2 & _ & Hv).
    destruct c2.1 as [p0|]; [|injection Hv as _ <-; exists []; by constructor].
    apply bind_Ok in Hv as ([o q1] & Hg & Hv). simpl in Hv. apply bind_Ok in Hv as (p & ->%of_option_Ok & Hv).
    apply bind_Ok in Hv as (s4 & Hs & Hv). injection Hv as _ <-.
    eapply fetch_serve; [exact Hq|by eapply getRequest2_fetched|exact Hs].
  - apply bind_Ok in Hv as (n & _ & Hv). destruct (0 <? n)%nat; [|injection Hv as _ <-; exists []; by constructor].
    apply bind_Ok in Hv as ([[p|] q1] & Hg & Hv); simpl in Hv.
    + apply bind_Ok in Hv as (s4 & Hs & Hv). injection Hv as _ <-.
      eapply fetch_serve; [exact Hq|by eapply getRequest_fetched|exact Hs].
    + injection Hv as _ <-. exists []. constructor. apply (set_looked _ q); [done|].
      unfold getRequest in Hg. case_bool_decide; [by injection Hg as <-|].
      by apply bind_Ok in Hg as (x & _ & Hg).
Qed.

Lemma direct_serves st st' : direct_requestSchedule h st = Ok st' → ∃ l, served st.2 l st'.2.
Proof.
  apply (loop_served snd). intros i [ri s] [ri' s'] _ Hv. unfold direct_visit in Hv. cbn [fst snd] in *.
  apply bind_Ok in Hv as (q & Hq & Hv). destruct (isPerRequestor q).
  - change s with (snd (ri, s)). change s' with (snd (ri', s')). revert Hv.
    apply (loop_served snd). clear. intros _ [ri s] [ri' s'] _ Hv. clear q. unfold direct_requestor in Hv.
    apply bind_Ok in Hv as (q & Hq & Hv). apply bind_Ok in Hv as (j & _ & Hv). apply bind_Ok in Hv as (n & _ & Hv).
    apply bind_Ok in Hv as (s1 & Hs & Hv). apply bind_Ok in Hv as (ri1 & _ & Hv). injection Hv as _ <-. simpl.
    destruct (0 <? n)%nat; [|injection Hs as <-; exists []; by constructor].
    apply bind_Ok in Hs as ([o q1] & Hg & Hs). simpl in Hs. apply bind_Ok in Hs as (p & ->%of_option_Ok & Hs).
    eapply fetch_serve; [exact Hq|by eapply getRequest2_fetched|exact Hs].
  - apply bind_Ok in Hv as (n & _ & Hv). destruct (0 <? n)%nat; [|injection Hv as _ <-; exists []; by constructor].
    apply bind_Ok in Hv as ([o s1] & Hf & Hv). simpl in Hv. apply bind_Ok in Hv as (p & ->%of_option_Ok & Hv).
    apply bind_Ok in Hv as (s2 & Hs & Hv). injection Hv as _ <-. apply scheduleFR_fetched in Hf as [Hsm Hf].
    destruct (Hf p eq_refl) as (q1 & Hq1 & Hfe). eapply serve_served in Hs as [l Hl]; [|by right|done|done].
    exists l. by eapply same_served.
Qed.
End specification.

(** ** The interface and its theorems *)

(** What a scheduler sees and does not change: the store of the requests, and the
    command queues and the table of criticalities it has references to. *)
Record Env := mkEnv {
  env_heap : rheap;
  env_commandQueues : list CommandQueue;
  env_critical : gmap Z bool;
}.

(** The virtual [requestSchedule] of an algorithm with private state [A]; what
    is built on it works for every algorithm. *)
Class RequestScheduling (A : Type) := {
  requestSchedule : Env → A → RequestScheduler → res (A * RequestScheduler);
}.

(** The algorithms that keep the row table and lose no request. *)
Class RequestAlgorithm (A : Type) `{CommandGenerator, !RequestScheduling A} := {
  requestSchedule_serves e a s a' s' :
    requestSchedule e a s = Ok (a', s') → ∃ l, served (env_heap e) s l s';
}.

#[export] Instance FRFCFS `{CommandGenerator} : RequestScheduling unit :=
  {| requestSchedule e a s := s ← frfcfs_requestSchedule (env_heap e) s; Ok (a, s) |}.
#[export] Instance FRFCFS_serves `{CommandGenerator} : RequestAlgorithm unit.
Proof.
  split. intros e a s a' s' Hr. simpl in Hr. apply bind_Ok in Hr as (s1 & Hs & Hr). injection Hr as _ <-.
  by eapply frfcfs_serves.
Qed.

#[export] Instance FCFS `{CommandGenerator} : RequestScheduling nat :=
  {| requestSchedule e a s := fcfs_requestSchedule (env_heap e) a s |}.
#[export] Instance FCFS_serves `{CommandGenerator} : RequestAlgorithm nat.
Proof. split. intros e a s a' s' Hr. simpl in Hr. by eapply fcfs_serves. Qed.

#[export] Instance Direct `{CommandGenerator} : RequestScheduling (list nat) :=
  {| requestSchedule e a s := direct_requestSchedule (env_heap e) (a, s) |}.
#[export] Instance Direct_serves `{CommandGenerator} : RequestAlgorithm (list nat).
Proof. split. intros e a s a' s' Hr. simpl in Hr. by apply direct_serves in Hr. Qed.

Definition all_requests (s : RequestScheduler) : list ptr := concat (contents <$> requestQueues s).

Section serving.
Context `{CommandGenerator}.
Variable h : rheap.
Implicit Types s : RequestScheduler.

Lemma same_requests s s' : all_wf s → same s s' → all_requests s' = all_requests s.
Proof.
  intros Hwf [_ _ Hq]. unfold all_wf in Hwf. unfold all_requests. f_equal. induction Hq as [|q q' l l' Hl _ IH]; [done|].
  apply Forall_cons in Hwf as [Hw Hwf]. rewrite !fmap_cons, IH by done. by rewrite (proj2 (looked_wf _ _ Hl Hw)).
Qed.

Lemma insert_requests (qs : list RequestQueue) i q q' p :
  qs !! i = Some q → contents q ≡ₚ p :: contents q' →
  concat (contents <$> qs) ≡ₚ p :: concat (contents <$> <[i := q']> qs).
Proof.
  intros Hq Hp. rewrite <- (take_drop_middle qs i q Hq) at 1.
  rewrite insert_take_drop by (by eapply lookup_lt_Some).
  rewrite !fmap_app, !fmap_cons, !concat_app. simpl. rewrite Hp. solve_Permutation.
Qed.

(** The commands of one request. *)
Definition commands_of (p : ptr) (cs : list BusPacket) : Prop :=
  ∃ r, h !! p = Some r ∧ Forall (belongs r) cs.

Lemma served_conserves s l s' :
  served h s l s' → all_wf s →
  all_requests s ≡ₚ l ++ all_requests s' ∧
  ∃ css, commandBuffer (rs_generator s') = commandBuffer (rs_generator s) ++ concat css ∧
    Forall2 commands_of l css.
Proof.
  induction 1 as [s s' Hs|s s1 s2 s3 p l Hs H1 Hv IH]; intros Hwf.
  - rewrite (same_requests _ _ Hwf Hs). split; [done|]. exists []. simpl. rewrite app_nil_r.
    split; [by rewrite (sm_generator _ _ Hs)|constructor].
  - pose proof (same_wf _ _ Hs Hwf) as Hwf1.
    assert (all_wf s2) as Hwf2 by (eapply (served_wf h s1 [p] s2); [econstructor; [reflexivity|done|by constructor]|done]).
    destruct H1 as [r i q q' hit k Hr Hq Hw E Hhit Hgen _ _].
    destruct (IH Hwf2) as (Hperm & css & Hbuf & Hcss).
    destruct (Hw (Forall_lookup_1 _ _ _ _ Hwf1 Hq)) as [_ Hcont].
    destruct (commandGenerate_appends _ _ _ _ _ Hgen) as (_ & cs & Hcs & Hbel). split.
    + rewrite <- (same_requests _ _ Hwf Hs). simpl. rewrite <- Hperm. unfold all_requests. rewrite E.
      by apply insert_requests with q.
    + exists (cs :: css). split; [|constructor; [by exists r|done]].
      rewrite Hbuf, Hcs, (sm_generator _ _ Hs). simpl. by rewrite app_assoc.
Qed.

End serving.

(** C26. For every algorithm of the interface and every generator: a call takes
    some requests out of the queues, keeps all others, and appends to the
    generator's buffer, for each request taken, commands that belong to it. No
    request is lost, and none is served without leaving its queue. *)
Theorem no_request_lost `{CommandGenerator} {A : Type} {ReqS : RequestScheduling A} {ReqA : RequestAlgorithm A}
    e a s a' s' :
  all_wf s → requestSchedule e a s = Ok (a', s') →
  all_wf s' ∧ ∃ l css,
    all_requests s ≡ₚ l ++ all_requests s' ∧
    commandBuffer (rs_generator s') = commandBuffer (rs_generator s) ++ concat css ∧
    Forall2 (commands_of (env_heap e)) l css.
Proof.
  intros Hwf Hr. destruct (requestSchedule_serves _ _ _ _ _ Hr) as [l Hl].
  destruct (served_conserves _ _ _ _ Hl Hwf) as (Hp & css & ? & ?).
  split; [by eapply served_wf|]. by exists l, css.
Qed.

(** ** Legal streams *)
Section legal.
#[local] Existing Instance Open_generator.

(** The decoding of the address agrees with itself, and the bank has a flag. *)
Definition request_ok (r : Request) : Prop :=
  map_key r = Ok (rank r, bank r) ∧ 0 ≤ bank r < 8.
Definition requests_ok (h : rheap) : Prop := ∀ p r, h !! p = Some r → request_ok r.

(** Every entry of the row table is a row that is open. *)
Record tracks (s : RequestScheduler) (rs : rows) : Prop := {
  tr_table rk bk t rw : bankTable s !! rk = Some t → t !! bk = Some rw → rs !! (rk, bk) = Some rw;
  tr_bus : 0 < dataBusSize (rs_generator s);
  tr_len : length (gen_first (rs_generator s)) = 8%nat;
  tr_first : first_ok rs (rs_generator s);
}.

Lemma served1_legal h s p s' rs :
  requests_ok h → served1 h s p s' → tracks s rs →
  ∃ cs rs', commandBuffer (rs_generator s') = commandBuffer (rs_generator s) ++ cs ∧
    row_run rs cs = Some rs' ∧ tracks s' rs'.
Proof.
  intros Hok [r i q q' hit k Hr _ _ _ Hhit Hgen Hkey Htab] [Ht Hbus Hlen Hfirst].
  destruct (Hok _ _ Hr) as [Hmap Hbank].
  assert (k = (rank r, bank r)) as ->.
  { destruct Hkey as [E|E]; [congruence|]. unfold member_key in E. congruence. }
  assert (open_pre r (rank r, bank r) hit rs (rs_generator s)) as Hpre.
  { split; try done. intros ->. unfold isRowHit in Hhit. unfold map_key in Hmap.
    apply bind_Ok in Hmap as (rk & Hrk & Hmap). apply bind_Ok in Hmap as (bk & Hbk & Hmap). injection Hmap as -> ->.
    rewrite Hrk in Hhit. simpl in Hhit. destruct (bankTable s !! rank r) as [t|] eqn:Et; [|done].
    rewrite bool_decide_true in Hhit by done. rewrite Hbk in Hhit. simpl in Hhit. injection Hhit as Hb%bool_decide_eq_true.
    by eapply Ht. }
  destruct (Open_legal r hit rs (rs_generator s) Hpre)
    as (cs & g' & rs' & Hgen' & Hbuf & Hrun & Hrow & Hf & _ & Hbus' & Hlen' & Hother).
  change (commandGenerate r hit (rs_generator s)) with (Open.commandGenerate r hit (rs_generator s)) in Hgen.
  assert (g' = rs_generator s') as -> by congruence.
  exists cs, rs'. split; [done|]. split; [done|]. split; [|by rewrite Hbus'|done|done].
  rewrite Htab. simpl. intros rk bk t rw. destruct (decide (rk = rank r)) as [->|Hne].
  - rewrite lookup_insert_eq. intros [= <-]. destruct (decide (bk = bank r)) as [->|Hne].
    + rewrite lookup_insert_eq. by intros [= <-].
    + rewrite lookup_insert_ne by done. rewrite Hother by congruence.
      destruct (bankTable s !! rank r) as [t|] eqn:Et; simpl; [by eapply Ht|by rewrite lookup_empty].
  - rewrite lookup_insert_ne by done. rewrite Hother by congruence. apply Ht.
Qed.

Lemma served_legal h s l s' rs :
  requests_ok h → served h s l s' → tracks s rs →
  ∃ cs rs', commandBuffer (rs_generator s') = commandBuffer (rs_generator s) ++ cs ∧
    row_run rs cs = Some rs' ∧ tracks s' rs'.
Proof.
  intros Hok Hv. revert rs. induction Hv as [s s' Hs|s s1 s2 s3 p l Hs H1 _ IH]; intros rs Htr;
    assert (∀ s1, same s s1 → tracks s1 rs) as Hsame
      by (intros s4 [Eg Et _]; destruct Htr; split; rewrite ?Eg, ?Et; done).
  - exists [], rs. rewrite (sm_generator _ _ Hs), app_nil_r. split_and!; [done|done|by apply Hsame].
  - destruct (served1_legal _ _ _ _ _ Hok H1 (Hsame _ Hs)) as (cs1 & rs1 & E1 & R1 & T1).
    destruct (IH rs1 T1) as (cs2 & rs2 & E2 & R2 & T2). exists (cs1 ++ cs2), rs2.
    split; [by rewrite E2, E1, (sm_generator _ _ Hs), app_assoc|].
    split; [|done]. rewrite row_run_app, R1. exact R2.
Qed.

(** Calls of an algorithm, with other requests in the store and in the queues
    each time, and the buffer emptied in between, as the controller does: the
    list has all commands in the order of their generation. *)
Inductive calls {A : Type} {ReqS : RequestScheduling A} {ReqA : RequestAlgorithm A} : A → RequestScheduler → list BusPacket → Prop :=
| calls_nil a s : calls a s []
| calls_cons e a s qs a1 s1 cs :
    requests_ok (env_heap e) → requestSchedule e a (set_requestQueues qs s) = Ok (a1, s1) →
    calls a1 (set_generator (mkGenerator (dataBusSize (rs_generator s1)) (gen_first (rs_generator s1))
      (lookupTable (rs_generator s1)) []) s1) cs →
    calls a s (commandBuffer (rs_generator s1) ++ cs).

(** C25. With the open-page generator, every algorithm that keeps the row table
    makes a legal command stream, over any number of calls from the start: a bank
    is activated only when it is closed, and accessed only on its open row. *)
Theorem open_page_stream_legal {A : Type} {ReqS : RequestScheduling A} {ReqA : RequestAlgorithm A} a b qs bus cs :
  0 < bus → calls a (RequestScheduler_ctor b qs (CommandGenerator_ctor bus)) cs →
  is_Some (row_run ∅ cs).
Proof.
  intros Hbus Hcalls.
  assert (∀ a s cs, calls a s cs → ∀ rs, tracks s rs → commandBuffer (rs_generator s) = [] →
    is_Some (row_run rs cs)) as Hall.
  { clear. induction 1 as [a s|e a s qs a1 s1 cs Hok Hr _ IH]; intros rs Htr Hnil; [by eexists|].
    destruct (requestSchedule_serves _ _ _ _ _ Hr) as [l Hl].
    destruct (served_legal (env_heap e) _ l s1 rs Hok Hl) as (cs1 & rs1 & E1 & R1 & [T1 T2 T3 T4]); [by destruct Htr|].
    simpl in E1. rewrite Hnil in E1. simpl in E1. rewrite E1, row_run_app, R1. simpl.
    apply IH; [by split|done]. }
  eapply Hall; [exact Hcalls| |done]. split; simpl.
  - intros rk bk t rw Ht. by rewrite lookup_empty in Ht.
  - done.
  - done.
  - intros rk bk _ _. apply lookup_empty.
Qed.
End legal.

(** ** RR (src/generalScheduler/RequestScheduler_RR.h)

    One request per slot of [timeSlot] cycles, round robin over the queues and
    over the requestors of a queue. [fixedPrioirty] is [false] after
    construction. The virtual [isSchedulable] is a parameter: [RTMem]
    (src/system/RTMem/RequestScheduler_RTMem.h) replaces it. *)
Module RR.

Record RR := mkRR {
  slotCounter : nat;
  timeSlot : nat;
  queueIndex : nat;
  queueRequestorIndex : list nat;
  srtRequestBuffer : list ptr;
  fixedPrioirty : bool;
}.

Definition ctor (queues : list RequestQueue) : RR := mkRR 0 42 0 ((λ _, 0%nat) <$> queues) [] false.

Definition set_slotCounter (n : nat) (a : RR) : RR :=
  mkRR n (timeSlot a) (queueIndex a) (queueRequestorIndex a) (srtRequestBuffer a) (fixedPrioirty a).
Definition set_queueIndex (n : nat) (a : RR) : RR :=
  mkRR (slotCounter a) (timeSlot a) n (queueRequestorIndex a) (srtRequestBuffer a) (fixedPrioirty a).
Definition set_requestorIndex (l : list nat) (a : RR) : RR :=
  mkRR (slotCounter a) (timeSlot a) (queueIndex a) l (srtRequestBuffer a) (fixedPrioirty a).
Definition set_srt (l : list ptr) (a : RR) : RR :=
  mkRR (slotCounter a) (timeSlot a) (queueIndex a) (queueRequestorIndex a) l (fixedPrioirty a).

Section RR.
Variable h : rheap.
Variable isSchedulable : Request → bool → RequestScheduler → res (bool * RequestScheduler).

(** The algorithm's state, the scheduler and [scheduledRequest]. *)
Abbreviation state := (RR * RequestScheduler * option ptr)%type.

(** With fixed priority the request of a noncritical requestor moves to
    [srtRequestBuffer]. *)
Definition demote (table : gmap Z bool) (st : state) : res state :=
  let '(a, s, sched) := st in
  match sched with
  | Some p =>
      if fixedPrioirty a then
        r ← deref h p;
        critical ← of_option OutOfRange (table !! requestorID r);
        if critical : bool then Ok st
        else s ← remove_from (queueIndex a) s; Ok (set_srt (srtRequestBuffer a ++ [p]) a, s, None)
      else Ok st
  | None => Ok st
  end.

(** One turn over the requestors of queue [queueIndex]; [index] is the counter of
    the outer loop, and the queue [removeRequest] is called on. *)
Definition requestor_turn (table : gmap Z bool) (index : nat) (st : state) : res (flow state unit) :=
  let '(a, s, sched) := st in
  q ← request_queue (queueIndex a) s;
  j ← vec_at (queueRequestorIndex a) (queueIndex a);
  n ← getSize true j q;
  st ← (if (0 <? n)%nat then
          pq ← getRequest2 j 0 q; Ok (a, set_request_queue (queueIndex a) pq.2 s, pq.1)
        else Ok (a, s, sched));
  st ← demote table st;
  let '(a, s, sched) := st in
  bs ← (match sched with
        | Some p =>
            r ← deref h p;
            bs ← isSchedulable r false s;
            if bs.1 : bool then s ← remove_from index bs.2; Ok (true, s) else Ok (false, bs.2)
        | None => Ok (true, s)
        end);
  let '(b, s) := bs in
  if b : bool then
    ri ← vec_set (queueRequestorIndex a) (queueIndex a) (if bool_decide (S j = getQueueSize q) then 0%nat else S j);
    let st := (set_requestorIndex ri a, s, sched) in
    Ok (match sched with Some _ => Stop st () | None => Next st end)
  else Ok (Stop (a, s, sched) ()).

Definition turn (table : gmap Z bool) (index : nat) (st : state) : res (flow state unit) :=
  let '(a, s, sched) := st in
  q ← request_queue (queueIndex a) s;
  st ← (if isPerRequestor q then
          if (0 <? getQueueSize q)%nat then
            o ← forM (seq 0 (getQueueSize q)) st (λ _, requestor_turn table index);
            let '(a, s, sched) := (match o with Next st => st | Stop st _ => st end) in
            match sched, srtRequestBuffer a with
            | None, p :: rest =>
                if fixedPrioirty a then
                  r ← deref h p;
                  bs ← isSchedulable r false s;
                  Ok (if bs.1 : bool then set_srt rest a else a, bs.2, None)
                else Ok (a, s, None)
            | _, _ => Ok (a, s, sched)
            end
          else Ok st
        else
          n ← getSize false 0 q;
          if (0 <? n)%nat then
            pq ← getRequest 0 q;
            let s := set_request_queue (queueIndex a) pq.2 s in
            p ← of_option Undefined pq.1;
            r ← deref h p;
            bs ← isSchedulable r false s;
            s ← (if bs.1 : bool then remove_from index bs.2 else Ok bs.2);
            Ok (a, s, Some p)
          else Ok st);
  let '(a, s, sched) := st in
  let a := set_queueIndex (if bool_decide (S (queueIndex a) = length (requestQueues s)) then 0%nat
                           else S (queueIndex a)) a in
  Ok (match sched with
      | Some _ => Stop (set_slotCounter (timeSlot a - 1) a, s, sched) ()
      | None => Next (a, s, sched)
      end).

Definition requestSchedule (table : gmap Z bool) (a : RR) (s : RequestScheduler) : res (RR * RequestScheduler) :=
  match slotCounter a with
  | O =>
      o ← forM (seq 0 (length (requestQueues s))) (a, s, None) (turn table);
      let '(a, s, _) := (match o with Next st => st | Stop st _ => st end) in
      Ok (a, s)
  | S n => Ok (set_slotCounter n a, s)
  end.
End RR.
End RR.

(** [RTMem]: no request while a command queue holds two commands of one kind. *)
Definition rtmem_isSchedulable `{CommandGenerator} (commandQueues : list CommandQueue) (r : Request) (open : bool)
    (s : RequestScheduler) : res (bool * RequestScheduler) :=
  if existsb (λ q, (2 <=? cq_getSize true q)%nat || (2 <=? cq_getSize false q)%nat) commandQueues
  then Ok (false, s)
  else bs ← isSchedulable r open s; Ok (true, bs.2).

Lemma rtmem_refuses `{CommandGenerator} qs r open s b s' :
  rtmem_isSchedulable qs r open s = Ok (b, s') →
  b = negb (existsb (λ q, (2 <=? cq_getSize true q)%nat || (2 <=? cq_getSize false q)%nat) qs) ∧
  (b = false → s' = s).
Proof.
  unfold rtmem_isSchedulable. destruct (existsb _ _); simpl; [by intros [= <- <-]|].
  intros Hb. apply bind_Ok in Hb as (bs & _ & Hb). by injection Hb as <- <-.
Qed.

(** [RR] fetches from queue [queueIndex] but calls [removeRequest] on the queue
    with the number of the loop counter. With two queues and [queueIndex] 1, the
    request [p] whose commands were generated stays in its queue, to be served
    again, and the request [p0] of the other queue disappears unserved. *)
Theorem RR_removes_from_wrong_queue `{CommandGenerator} h table a s q0 q1 p0 p l0 l1 r g' :
  RR.slotCounter a = 0%nat → RR.queueIndex a = 1%nat →
  requestQueues s = [q0; q1] → isPerRequestor q0 = false → isPerRequestor q1 = false →
  generalBuffer q0 = p0 :: l0 → generalBuffer q1 = p :: l1 →
  ReqQueue.scheduledRequest q0 = (false, (0, 0%nat)) →
  h !! p = Some r → commandGenerate r false (rs_generator s) = Ok (true, g') →
  ∃ a' s' q0' q1', RR.requestSchedule h isSchedulable table a s = Ok (a', s') ∧
    rs_generator s' = g' ∧ requestQueues s' = [q0'; q1'] ∧
    generalBuffer q1' = p :: l1 ∧ generalBuffer q0' = l0.
Proof.
  intros Hslot Hqi Hqs K0 K1 B0 B1 Hsched Hr Hg.
  set (q1' := set_scheduledRequest (false, (0, 0%nat)) q1). set (q0' := set_generalBuffer l0 q0).
  set (a1 := RR.set_slotCounter (RR.timeSlot a - 1) (RR.set_queueIndex 0 a)).
  set (s1 := set_requestQueues [q0'; q1'] (set_generator g' s)).
  assert (RR.turn h isSchedulable table 0 (a, s, None) = Ok (Stop (a1, s1, Some p) ())) as Ht.
  { unfold RR.turn, request_queue. rewrite Hqi, Hqs. simpl. rewrite K1. rewrite B1. simpl.
    unfold getRequest, vec_at. rewrite B1. simpl. unfold deref. rewrite Hr. simpl.
    unfold isSchedulable. simpl. rewrite Hg. simpl. unfold remove_from, request_queue. simpl. rewrite Hqs. simpl.
    unfold removeRequest. rewrite Hsched, B0. simpl.
    unfold set_request_queue. simpl. rewrite Hqi, Hqs. reflexivity. }
  exists a1, s1, q0', q1'. split; [|done]. unfold RR.requestSchedule. rewrite Hslot, Hqs.
  cbn [length seq forM]. rewrite Ht. reflexivity.
Qed.

(** ** Witnesses *)
Definition wit_rs_req (id arr : Z) : Request :=
  {| requestType := DATA_READ; requestorID := id; requestSize := 64; address := 64 * arr; data := 0;
     arriveTime := arr; returnTime := 0; rank := 0; bankGroup := 0; bank := 3; subArray := 0;
     row := 7; col := 2; addressMap := [0; 0; 3; 0] |}.
Definition wit_rs_heap : rheap := <[1%positive := wit_rs_req 0 4]> (<[2%positive := wit_rs_req 1 5]> ∅).
Definition wit_rs_env : Env := mkEnv wit_rs_heap [] ∅.
Definition wit_rs_queue (p : ptr) : RequestQueue := set_generalBuffer [p] (RequestQueue_ctor false false).
Definition wit_rs : RequestScheduler :=
  RequestScheduler_ctor false [wit_rs_queue 1; wit_rs_queue 2] (CommandGenerator_ctor 64).

#[local] Existing Instance Open_generator.

Lemma no_request_lost_witness :
  all_wf wit_rs ∧ ∃ s', requestSchedule (A := unit) wit_rs_env tt wit_rs = Ok (tt, s') ∧
  all_wf s' ∧ ∃ l css, all_requests wit_rs ≡ₚ l ++ all_requests s' ∧
    commandBuffer (rs_generator s') = commandBuffer (rs_generator wit_rs) ++ concat css ∧
    Forall2 (commands_of wit_rs_heap) l css.
Proof.
  assert (all_wf wit_rs) as Hwf
    by (repeat constructor; simpl; try apply order_ok_empty; done).
  split; [exact Hwf|].
  destruct (requestSchedule (A := unit) wit_rs_env tt wit_rs) as [[[] s']|] eqn:Hs.
  - exists s'. split; [reflexivity|]. apply (no_request_lost wit_rs_env tt wit_rs tt s' Hwf Hs).
  - exfalso. assert (is_Ok (requestSchedule (A := unit) wit_rs_env tt wit_rs) = true) as H by (vm_compute; reflexivity).
    rewrite Hs in H. discriminate H.
Defined.

Definition wit_rs1 : RequestScheduler :=
  match requestSchedule (A := unit) wit_rs_env tt wit_rs with Ok (_, s) => s | Err _ => wit_rs end.

(** The first call activates the row and reads, the second one only reads. *)
Lemma open_page_stream_legal_witness :
  is_Some (row_run ∅ (commandBuffer (rs_generator wit_rs1) ++ [])) ∧
  length (commandBuffer (rs_generator wit_rs1)) = 3%nat.
Proof.
  split; [|vm_compute; reflexivity].
  apply (open_page_stream_legal tt false [wit_rs_queue 1; wit_rs_queue 2] 64); [lia|].
  apply (calls_cons wit_rs_env tt wit_rs [wit_rs_queue 1; wit_rs_queue 2] tt wit_rs1 []).
  - intros p r Hp. unfold wit_rs_env, wit_rs_heap in Hp. simpl in Hp.
    apply lookup_insert_Some in Hp as [[_ <-]|[_ Hp]]; [split; [reflexivity|simpl; lia]|].
    apply lookup_insert_Some in Hp as [[_ <-]|[_ Hp]]; [split; [reflexivity|simpl; lia]|].
    by rewrite lookup_empty in Hp.
  - vm_compute. reflexivity.
  - constructor.
Defined.

Definition wit_rr : RR.RR := RR.set_queueIndex 1 (RR.ctor (requestQueues wit_rs)).

Definition wit_rr_generator : Generator :=
  match Open.commandGenerate (wit_rs_req 1 5) false (rs_generator wit_rs) with
  | Ok (_, g) => g | Err _ => rs_generator wit_rs end.

Lemma RR_removes_from_wrong_queue_witness :
  ∃ a' s' q0' q1', RR.requestSchedule wit_rs_heap isSchedulable ∅ wit_rr wit_rs = Ok (a', s') ∧
    rs_generator s' = wit_rr_generator ∧ requestQueues s' = [q0'; q1'] ∧
    generalBuffer q1' = [2%positive] ∧ generalBuffer q0' = [].
Proof.
  apply (RR_removes_from_wrong_queue wit_rs_heap ∅ wit_rr wit_rs (wit_rs_queue 1) (wit_rs_queue 2)
    1%positive 2%positive [] [] (wit_rs_req 1 5) wit_rr_generator); vm_compute; reflexivity.
Defined.
