(* ===== verification/Prompt.v ===== *)
(** * Request schedulers that do not wait

    What a system with one request queue relies on for its progress: the class
    [PromptAlgorithm] states that an algorithm serves one request in every call in
    which the general buffer of the queue holds one, without a failure, and that it
    takes the first of all requests of the same place. [FRFCFS] and [FCFS]
    (src/system) and [Direct] (src/generalScheduler) keep it.

    The requests are decoded ones, [request_ok]: the coordinates of the address map
    agree with the members. The generator's part is a hypothesis on the call: it
    makes the commands of every request of the buffer. *)
From S2P Require Import Prelude Types KeyedBuf ReqQueue CmdQueue CmdGen ReqSched.

(** What a row hit is decided by. *)
Definition place (r : Request) : Z * Z * Z := (rank r, bank r, row r).

Definition row_hit (s : RequestScheduler) (r : Request) : bool :=
  match bankTable s !! rank r with
  | None => false
  | Some t => bool_decide (t !! bank r = Some (row r))
  end.

Lemma isRowHit_ok r s : request_ok r → isRowHit r s = Ok (row_hit s r).
Proof.
  intros [Hmap _]. unfold map_key in Hmap. apply bind_Ok in Hmap as (rk & Hrk & Hmap).
  apply bind_Ok in Hmap as (bk & Hbk & Hmap). injection Hmap as -> ->.
  unfold isRowHit, row_hit. rewrite Hrk. simpl. destruct (bankTable s !! rank r); [|done].
  rewrite bool_decide_true by done. rewrite Hbk. done.
Qed.

Lemma row_hit_place s r r' : place r = place r' → row_hit s r = row_hit s r'.
Proof. unfold place, row_hit. by intros [= -> -> ->]. Qed.

(** A queue without buffers of its own for requestors or writes. *)
Definition plain (q : RequestQueue) : Prop := perRequestorEnable q = false ∧ writeQueueEnable q = false.

Section prompt.
Context `{CommandGenerator}.
Implicit Types s : RequestScheduler.

(** The requests of the buffer are live and decoded, and their commands can be made. *)
Definition servable (h : rheap) s (q : RequestQueue) : Prop :=
  ∀ p, p ∈ generalBuffer q → ∃ r, h !! p = Some r ∧ request_ok r ∧
    ∀ hit, ∃ g, commandGenerate r hit (rs_generator s) = Ok (true, g).

(** [s'] is [s] after request [p], at position [k] of the buffer, was served; no
    request in front of it has its place. *)
Record serves_one (h : rheap) s (q : RequestQueue) s' : Prop := {
  so_request : ∃ k p r hit q', generalBuffer q !! k = Some p ∧ h !! p = Some r ∧
    (∀ j x y, (j < k)%nat → generalBuffer q !! j = Some x → h !! x = Some y → place y ≠ place r) ∧
    commandGenerate r hit (rs_generator s) = Ok (true, rs_generator s') ∧
    requestQueues s' = [q'] ∧ generalBuffer q' = delete k (generalBuffer q) ∧ plain q';
}.
End prompt.

Class PromptAlgorithm (A : Type) `{CommandGenerator, !RequestScheduling A} := {
  prompt_idle e a s q :
    requestQueues s = [q] → plain q → generalBuffer q = [] →
    ∃ a', requestSchedule e a s = Ok (a', s);
  prompt_serves e a s q :
    requestQueues s = [q] → plain q → generalBuffer q ≠ [] → servable (env_heap e) s q →
    ∃ a' s', requestSchedule e a s = Ok (a', s') ∧ serves_one (env_heap e) s q s';
}.

(** ** The parts of the algorithms *)
Section parts.
Context `{CommandGenerator}.
Variable h : rheap.
Implicit Types s : RequestScheduler.

Lemma single_queue s q : requestQueues s = [q] → request_queue 0 s = Ok q.
Proof. unfold request_queue, vec_at. by intros ->. Qed.

(** The loop of [scheduleFR], from position [k] on. *)
Lemma scan_hits s q k n :
  servable h s q → (k + n = length (generalBuffer q))%nat →
  ∃ o, forM (R := nat) (seq k n) () (λ k _,
      p ← getRequestCheck k q; p ← of_option Undefined p; r ← deref h p; hit ← isRowHit r s;
      Ok (if hit : bool then Stop () k else Next ())) = Ok o ∧
    match o with
    | Next _ => True
    | Stop _ i => (k ≤ i < k + n)%nat ∧ (∀ x y, generalBuffer q !! i = Some x → h !! x = Some y → row_hit s y = true) ∧
        ∀ j x y, (k ≤ j < i)%nat → generalBuffer q !! j = Some x → h !! x = Some y → row_hit s y = false
    end.
Proof.
  intros Hs. revert k. induction n as [|n IH]; intros k Hk; cbn [seq forM]; [by eexists|].
  destruct (lookup_lt_is_Some_2 (generalBuffer q) k) as [p Hp]; [lia|].
  destruct (Hs p) as (r & Hr & Hok & _); [by eapply list_elem_of_lookup_2|].
  assert (getRequestCheck k q = Ok (Some p)) as ->.
  { unfold getRequestCheck, vec_at. rewrite bool_decide_false by (intros E; by rewrite E in Hp). by rewrite Hp. }
  cbn [mbind res_bind of_option]. rewrite (proj2 (deref_Ok h p r) Hr). cbn [mbind res_bind].
  rewrite (isRowHit_ok r s Hok). cbn [mbind res_bind]. destruct (row_hit s r) eqn:Hit.
  - eexists. split; [done|]. split; [lia|]. split; [congruence|]. intros; lia.
  - destruct (IH (S k)) as (o & -> & Ho); [lia|]. eexists. split; [done|]. destruct o as [|[] i]; [done|].
    destruct Ho as (H1 & H2 & H3). split; [lia|]. split; [done|]. intros j x y Hj Hx Hy.
    destruct (decide (j = k)) as [->|]; [congruence|]. eapply H3; [|done..]. lia.
Qed.

Lemma scheduleFR_first s q :
  requestQueues s = [q] → generalBuffer q ≠ [] → servable h s q →
  ∃ k p r, generalBuffer q !! k = Some p ∧ h !! p = Some r ∧
    (∀ j x y, (j < k)%nat → generalBuffer q !! j = Some x → h !! x = Some y → place y ≠ place r) ∧
    scheduleFR h 0 s = Ok (Some p, set_request_queue 0 (set_scheduledRequest (false, (0, k)) q) s).
Proof.
  intros Eq Hne Hs. unfold scheduleFR. rewrite (single_queue _ _ Eq). cbn [mbind res_bind getSize mret res_ret].
  destruct (scan_hits s q 0 (length (generalBuffer q)) Hs eq_refl) as (o & Ho & Hspec).
  rewrite Ho. cbn [mbind res_bind].
  set (k := match o with Stop _ k => k | Next _ => 0%nat end).
  assert (is_Some (generalBuffer q !! k)) as [p Hp].
  { apply lookup_lt_is_Some. destruct o as [|[] i]; simpl; [destruct (generalBuffer q); [done|simpl; lia]|lia]. }
  destruct (Hs p) as (r & Hr & _); [by eapply list_elem_of_lookup_2|].
  exists k, p, r. split_and!; [done|done| |].
  - intros j x y Hj Hx Hy E. destruct o as [|[] i]; [simpl in *; lia|]. destruct Hspec as (_ & H2 & H3).
    specialize (H2 p r Hp Hr). rewrite <- (row_hit_place s _ _ E), (H3 j x y) in H2; [done|split; [lia|exact Hj]|done|done].
  - unfold getRequest, vec_at. rewrite bool_decide_false by done. rewrite Hp. done.
Qed.

(** Serving what the queue remembers. *)
Lemma serve_remembered s q k p r key kk :
  requestQueues s = [q] → plain q → scheduledRequest q = (false, (0, k)) →
  generalBuffer q !! k = Some p → h !! p = Some r → request_ok r → key r = Ok kk →
  (∀ hit, ∃ g, commandGenerate r hit (rs_generator s) = Ok (true, g)) →
  ∃ s' hit, serve h 0 p key s = Ok s' ∧ commandGenerate r hit (rs_generator s) = Ok (true, rs_generator s') ∧
    requestQueues s' = [set_generalBuffer (delete k (generalBuffer q)) q].
Proof.
  intros Eq _ Hsch Hp Hr Hok Hkey Hgen. unfold serve, deref. rewrite Hr. cbn [mbind res_bind of_option].
  rewrite (isRowHit_ok _ _ Hok). cbn [mbind res_bind]. destruct (Hgen (row_hit s r)) as [g Hg].
  unfold isSchedulable. rewrite Hg. cbn [mbind res_bind fst snd]. rewrite Hkey. cbn [mbind res_bind].
  unfold remove_from. rewrite (single_queue _ q) by done. cbn [mbind res_bind].
  unfold removeRequest. rewrite Hsch. unfold vec_erase.
  rewrite decide_True by (by eapply lookup_lt_Some). cbn [mbind res_bind mret res_ret].
  eexists _, (row_hit s r). split; [done|]. split; [exact Hg|]. simpl. by rewrite Eq.
Qed.

Lemma fetched_serves_one s q k p r key kk :
  requestQueues s = [q] → plain q → servable h s q →
  generalBuffer q !! k = Some p → h !! p = Some r → key r = Ok kk →
  (∀ j x y, (j < k)%nat → generalBuffer q !! j = Some x → h !! x = Some y → place y ≠ place r) →
  ∃ s', serve h 0 p key (set_request_queue 0 (set_scheduledRequest (false, (0, k)) q) s) = Ok s' ∧ serves_one h s q s'.
Proof.
  intros Eq Hpl Hs Hp Hr Hkey Hfirst. destruct (Hs p) as (r' & Hr' & Hok & Hgen); [by eapply list_elem_of_lookup_2|].
  assert (r' = r) as -> by congruence.
  destruct (serve_remembered (set_request_queue 0 (set_scheduledRequest (false, (0, k)) q) s)
    (set_scheduledRequest (false, (0, k)) q) k p r key kk) as (s' & hit & Hsv & Hg & Hq); try done.
  { simpl. by rewrite Eq. }
  exists s'. split; [exact Hsv|]. split. exists k, p, r, hit, (set_generalBuffer (delete k (generalBuffer q))
    (set_scheduledRequest (false, (0, k)) q)). split_and!; done.
Qed.

Lemma map_key_ok r : request_ok r → map_key r = Ok (rank r, bank r).
Proof. by intros [-> _]. Qed.
End parts.

(** ** The algorithms *)
Section instances.
Context `{CommandGenerator}.

Lemma one_turn {S} (s : S) f : foldM (seq 0 1) s f = f 0%nat s.
Proof. simpl. by destruct (f 0%nat s). Qed.

#[export] Instance FRFCFS_prompt : PromptAlgorithm unit.
Proof.
  split; intros e a s q Eq Hpl Hb; simpl; unfold frfcfs_requestSchedule; rewrite Eq; rewrite one_turn;
    unfold frfcfs_visit, rs_bufferSize; rewrite (single_queue _ _ Eq); cbn [mbind res_bind getSize mret res_ret].
  - rewrite Hb. simpl. eauto.
  - intros Hs. destruct (scheduleFR_first (env_heap e) s q Eq Hb Hs) as (k & p & r & Hp & Hr & Hfirst & Hfr).
    destruct (Hs p) as (r' & Hr' & Hok & _); [by eapply list_elem_of_lookup_2|]. assert (r' = r) as -> by congruence.
    destruct (fetched_serves_one (env_heap e) s q k p r map_key _ Eq Hpl Hs Hp Hr (map_key_ok r Hok) Hfirst) as (s' & Hsv & Hone).
    assert (0 <? length (generalBuffer q) = true)%nat as -> by (destruct (generalBuffer q); done).
    rewrite Hfr. cbn [mbind res_bind]. rewrite Hsv. simpl. eauto.
Qed.

#[export] Instance FCFS_prompt : PromptAlgorithm nat.
Proof.
  split; intros e a s q Eq Hpl Hb; simpl; unfold fcfs_requestSchedule; rewrite Eq; rewrite one_turn;
    unfold fcfs_visit; rewrite (single_queue _ _ Eq); cbn [mbind res_bind];
    unfold isPerRequestor; rewrite (proj1 Hpl); unfold rs_bufferSize; rewrite (single_queue _ _ Eq);
    cbn [mbind res_bind getSize mret res_ret].
  - rewrite Hb. simpl. eauto.
  - intros Hs. destruct (generalBuffer q) as [|p l] eqn:El; [done|]. change (0 <? length (p :: l))%nat with true. cbn iota.
    destruct (Hs p) as (r & Hr & Hok & _); [rewrite El; left|].
    assert (generalBuffer q !! 0%nat = Some p) as Hp by (by rewrite El).
    destruct (fetched_serves_one (env_heap e) s q 0 p r map_key _ Eq Hpl Hs Hp Hr (map_key_ok r Hok)) as (s' & Hsv & Hone);
      [intros; lia|].
    unfold getRequest, vec_at. rewrite bool_decide_false by (by rewrite El). rewrite Hp. cbn [mbind res_bind of_option mret res_ret fst snd].
    rewrite Hsv. simpl. eauto.
Qed.

#[export] Instance Direct_prompt : PromptAlgorithm (list nat).
Proof.
  split; intros e a s q Eq Hpl Hb; simpl; unfold direct_requestSchedule; cbn [snd]; rewrite Eq; rewrite one_turn;
    unfold direct_visit; cbn [snd fst]; rewrite (single_queue _ _ Eq); cbn [mbind res_bind];
    unfold isPerRequestor; rewrite (proj1 Hpl); unfold rs_bufferSize; rewrite (single_queue _ _ Eq);
    cbn [mbind res_bind getSize mret res_ret].
  - rewrite Hb. simpl. eauto.
  - intros Hs. destruct (scheduleFR_first (env_heap e) s q Eq Hb Hs) as (k & p & r & Hp & Hr & Hfirst & Hfr).
    destruct (fetched_serves_one (env_heap e) s q k p r member_key _ Eq Hpl Hs Hp Hr eq_refl Hfirst) as (s' & Hsv & Hone).
    assert (0 <? length (generalBuffer q) = true)%nat as -> by (destruct (generalBuffer q); done).
    rewrite Hfr. cbn [mbind res_bind of_option fst snd]. rewrite Hsv. simpl. eauto.
Qed.
End instances.
