(* ===== verification/BatchAlgos.v ===== *)
(** * Request schedulers that rank requests

    [BLISS] (src/system/BLISS), [PARBS] (src/system/PAR-BS) and
    [FRFCFS_BATCHING] (src/system/FRFCFS_Batch), with [scheduleBLISS] and
    [scheduleFR_Next] of the base class (src/src/RequestScheduler.cpp). All of
    them keep the row table and serve the requests they take, so they are
    instances of [RequestAlgorithm].

    Main results: what [scheduleBLISS] chooses, and when it reads a flag it never
    set; that a batch of [PARBS] marks at most one request of a requestor, and
    counts it five times; when [FRFCFS_BATCHING] follows a null pointer. *)
From S2P Require Import Prelude Types KeyedBuf ReqQueue CmdQueue CmdGen ReqSched.

(** ** The base class *)
Section base.
Variable h : rheap.
Implicit Types s : RequestScheduler.

(** [scheduleFR_Next(i)]: the first request behind the front that hits its row,
    or else the second one; every look is remembered for [removeRequest]. *)
Definition scheduleFR_Next (i : nat) s : res (option ptr * RequestScheduler) :=
  q ← request_queue i s;
  n ← getSize false 0 q;
  if (0 <? n)%nat then
    o ← forM (R := ptr) (seq 1 (n - 1)) q (λ k q,
      pq ← getRequest k q;
      p ← of_option Undefined pq.1;
      r ← deref h p;
      hit ← isRowHit r s;
      Ok (if hit : bool then Stop pq.2 p else Next pq.2));
    pq ← (match o with Stop q p => Ok (Some p, q) | Next q => getRequest 1 q end);
    Ok (pq.1, set_request_queue i pq.2 s)
  else Ok (None, s).

(** [int blacklist[36]]: entries that were never written are unset. *)
Definition blacklist_at (l : list (option Z)) (id : Z) : res Z :=
  x ← vec_at l (Z.to_nat id); of_option Undefined x.

(** One turn of the second loop of [scheduleBLISS]: [hits] are [hit_1] and
    [hit_2], unset at first; the loop is left with the index of the choice. *)
Definition bliss_turn (bl : list (option Z)) (q : RequestQueue) s (id : nat) (r1 : Request)
    (index : nat) (hits : option bool * option bool) : res (flow (option bool * option bool) nat) :=
  p ← getRequestCheck index q;
  match p with
  | None => Ok (Next hits)
  | Some p =>
      r2 ← deref h p;
      b1 ← blacklist_at bl (requestorID r1);
      b2 ← blacklist_at bl (requestorID r2);
      if xorb (bool_decide (b1 ≠ 1)) (bool_decide (b2 ≠ 1)) then Ok (Stop hits index)
      else
        h1 ← isRowHit r1 s;
        h2 ← isRowHit r2 s;
        let hits := (if h1 : bool then Some true else hits.1, if h2 : bool then Some true else hits.2) in
        x1 ← of_option Undefined hits.1;
        x2 ← of_option Undefined hits.2;
        Ok (if xorb x1 x2 then Stop hits (if x1 : bool then id else index) else Next hits)
  end.

(** [scheduleBLISS(i)]. The two branches of the black-list test return the request
    at the same index. *)
Definition scheduleBLISS (bl : list (option Z)) (i : nat) s : res (option ptr * RequestScheduler) :=
  q ← request_queue i s;
  n ← getSize false 0 q;
  if (0 <? n)%nat then
    o ← forM (S := unit) (seq 0 n) () (λ index _,
      p ← getRequestCheck index q;
      Ok (match p with Some p => Stop () (p, index) | None => Next () end));
    pid ← (match o with Stop _ x => Ok x | Next _ => Err Undefined end);
    r1 ← deref h pid.1;
    o ← forM (seq pid.2 (n - pid.2)) (None, None) (bliss_turn bl q s pid.2 r1);
    pq ← getRequest (match o with Stop _ k => k | Next _ => pid.2 end) q;
    Ok (pq.1, set_request_queue i pq.2 s)
  else Ok (None, s).
End base.

(** ** BLISS *)
Module BLISS.
Record BLISS := mkBLISS {
  last_pid : Z;
  counterstreak : Z;
  threshold : Z;
  temporal_clock : Z;
  blacklist : list (option Z);
}.

(** [blacklist[p] = 0] for the requestors of the table. *)
Definition clear (n : nat) (bl : list (option Z)) : res (list (option Z)) :=
  foldM (seq 0 n) bl (λ p bl, vec_set bl p (Some 0)).
Definition clear_marking (table : gmap Z bool) (bl : list (option Z)) : res (list (option Z)) :=
  clear (size table) bl.

Definition ctor (table : gmap Z bool) : res BLISS :=
  bl ← clear (size table) (replicate 36 None); Ok (mkBLISS 4 0 4 0 bl).

(** The streak of the requestor of the chosen request. *)
Definition note (id : Z) (a : BLISS) : res BLISS :=
  if bool_decide (id = last_pid a ∧ counterstreak a < threshold a) then
    Ok (mkBLISS id (u32 (counterstreak a + 1)) (threshold a) (temporal_clock a) (blacklist a))
  else if bool_decide (id = last_pid a ∧ counterstreak a = threshold a) then
    bl ← vec_set (blacklist a) (Z.to_nat id) (Some 1);
    Ok (mkBLISS id 1 (threshold a) (temporal_clock a) bl)
  else Ok (mkBLISS id 1 (threshold a) (temporal_clock a) (blacklist a)).

Section BLISS.
Context `{CommandGenerator}.

Definition visit (h : rheap) (index : nat) (st : BLISS * RequestScheduler) : res (BLISS * RequestScheduler) :=
  let '(a, s) := st in
  n ← rs_bufferSize index s;
  if (0 <? n)%nat then
    ps ← scheduleBLISS h (blacklist a) index s;
    match ps.1 with
    | Some p =>
        r ← deref h p;
        a ← note (requestorID r) a;
        s ← serve h index p member_key ps.2;
        Ok (a, s)
    | None => Ok (a, ps.2)
    end
  else Ok st.

Definition requestSchedule (h : rheap) (table : gmap Z bool) (a : BLISS) (s : RequestScheduler)
    : res (BLISS * RequestScheduler) :=
  let t := u64 (temporal_clock a + 1) in
  bl ← (if bool_decide (t `mod` 10000 = 0 ∧ t ≠ 1) then clear_marking table (blacklist a) else Ok (blacklist a));
  foldM (seq 0 (length (requestQueues s)))
    (mkBLISS (last_pid a) (counterstreak a) (threshold a) t bl, s) (visit h).
End BLISS.
End BLISS.

(** ** PARBS *)
Module PARBS.
Record PARBS := mkPARBS {
  markedCnt : Z;
  markedMaxLoadPerProc : list (option Z);
  markedTotalLoadPerProc : list (option Z);
  marked : gmap ptr bool;
  MarkableQ : gmap (Z * Z) (list ptr);
}.

(** [bmax], [rmax] and [MarkingCap] are constants. *)
Definition localBcount : nat := 8.
Definition MarkingCap : nat := 5.

(** The arrays of ten loads are unset at first. *)
Definition ctor : PARBS := mkPARBS 0 (replicate 10 None) (replicate 10 None) ∅ ∅.

(** [a[p]] of an array of loads. *)
Definition load (l : list (option Z)) (p : Z) : res Z := x ← vec_at l (Z.to_nat p); of_option Undefined x.

Definition is_marked (a : PARBS) (p : ptr) : bool := default false (marked a !! p).
Definition markable (a : PARBS) (p b : Z) : list ptr := default [] (MarkableQ a !! (p, b)).

(** [BetterRequest(req1, req2)]: marked first, then a row hit, then the requestor
    with the smaller load. *)
Definition BetterRequest (h : rheap) (s : RequestScheduler) (a : PARBS) (req1 req2 : ptr) : res ptr :=
  if xorb (is_marked a req1) (is_marked a req2) then Ok (if is_marked a req1 then req1 else req2)
  else
    r1 ← deref h req1; r2 ← deref h req2;
    h1 ← isRowHit r1 s; h2 ← isRowHit r2 s;
    if xorb h1 h2 then Ok (if h1 : bool then req1 else req2)
    else
      m1 ← load (markedMaxLoadPerProc a) (requestorID r1);
      m2 ← load (markedMaxLoadPerProc a) (requestorID r2);
      if bool_decide (m1 ≠ m2) then Ok (if bool_decide (m2 < m1) then req2 else req1)
      else
        t1 ← load (markedTotalLoadPerProc a) (requestorID r1);
        t2 ← load (markedTotalLoadPerProc a) (requestorID r2);
        Ok (if bool_decide (t1 ≠ t2) then (if bool_decide (t2 < t1) then req2 else req1) else req2).

(** The first two loops of [form_batch]. *)
Definition reset_entry (b p : nat) (a : PARBS) : res PARBS :=
  mx ← vec_set (markedMaxLoadPerProc a) p (Some 0);
  tot ← vec_set (markedTotalLoadPerProc a) p (Some 0);
  Ok (mkPARBS (markedCnt a) mx tot (marked a) (<[(Z.of_nat p, Z.of_nat b) := []]> (MarkableQ a))).
Definition reset (n : nat) (a : PARBS) : res PARBS :=
  foldM (seq 0 localBcount) a (λ b a, foldM (seq 0 n) a (reset_entry b)).

(** [nominate] enters the batch of its requestor [p] and bank [b]. *)
Definition mark (p b : Z) (nominate : ptr) (a : PARBS) : res PARBS :=
  let i := Z.to_nat p in
  tot ← load (markedTotalLoadPerProc a) p;
  mx ← load (markedMaxLoadPerProc a) p;
  let cnt := u32 (markedCnt a + 1) in
  tots ← vec_set (markedTotalLoadPerProc a) i (Some (u32 (tot + 1)));
  mxs ← vec_set (markedMaxLoadPerProc a) i (Some (if bool_decide (mx < cnt) then cnt else mx));
  Ok (mkPARBS cnt mxs tots (<[nominate := true]> (marked a)) (<[(p, b) := nominate :: markable a p b]> (MarkableQ a))).

(** The loop over the banks of requestor [p], from bank [b]. A turn that marks a
    request does not go on to the next bank; [fuel] bounds the turns, and
    [MarkingCap] of them for every bank are more than the loop makes
    ([mark_banks_spec]). *)
Fixpoint mark_banks (h : rheap) (q : RequestQueue) (fuel : nat) (p : Z) (b : nat) (a : PARBS) : res (option PARBS) :=
  if (b <? localBcount)%nat then
    match fuel with
    | O => Ok None
    | S fuel =>
        let k := length (markable a p (Z.of_nat b)) in
        if bool_decide (k = MarkingCap) then Ok (Some a)
        else if (k <? MarkingCap)%nat then
          x ← earliestperBankperReq h p (Z.of_nat b) q;
          match x with
          | Some x => a ← mark p (Z.of_nat b) x a; mark_banks h q fuel p b a
          | None => mark_banks h q fuel p (S b) a
          end
        else mark_banks h q fuel p (S b) a
    end
  else Ok (Some a).

Definition form_batch (h : rheap) (table : gmap Z bool) (s : RequestScheduler) (a : PARBS) : res PARBS :=
  a ← reset (size table) a;
  foldM (seq 0 (size table)) a (λ p a,
    q ← request_queue 0 s;
    o ← mark_banks h q (localBcount * S MarkingCap) (Z.of_nat p) 0 a;
    of_option Undefined o).

(** The candidate [temp] and its index, after the loop over the queue. *)
Definition choose (h : rheap) (s : RequestScheduler) (a : PARBS) (q : RequestQueue) (temp : ptr) : res (ptr * nat) :=
  n ← getSize false 0 q;
  foldM (seq 1 (n - 1)) (temp, 0%nat) (λ k st,
    p ← getRequestCheck k q;
    p ← of_option Undefined p;
    t ← BetterRequest h s a p st.1;
    Ok (t, if bool_decide (t = st.1) then st.2 else k)).

Definition set_markedCnt (n : Z) (a : PARBS) : PARBS :=
  mkPARBS n (markedMaxLoadPerProc a) (markedTotalLoadPerProc a) (marked a) (MarkableQ a).
Definition unmark (p : ptr) (a : PARBS) : PARBS :=
  mkPARBS (markedCnt a) (markedMaxLoadPerProc a) (markedTotalLoadPerProc a) (<[p := false]> (marked a)) (MarkableQ a).

(** [isSchedulable] of the base class is [true] whenever it returns
    ([CommandGenerator]), so [serve] has served the request. *)
Definition requestSchedule `{CommandGenerator} (h : rheap) (table : gmap Z bool) (a : PARBS) (s : RequestScheduler)
    : res (PARBS * RequestScheduler) :=
  a ← (if bool_decide (markedCnt a = 0) then form_batch h table s a else Ok a);
  q ← request_queue 0 s;
  temp ← getRequestCheck 0 q;
  match temp with
  | None => Ok (a, s)
  | Some temp =>
      ti ← choose h s a q temp;
      pq ← getRequest ti.2 q;
      p ← of_option Undefined pq.1;
      s ← serve h 0 p member_key (set_request_queue 0 pq.2 s);
      Ok (unmark p (set_markedCnt (u32 (markedCnt a - 1)) a), s)
  end.
End PARBS.

(** ** FRFCFS_BATCHING *)
Module Batching.
Section Batching.
Context `{CommandGenerator}.
Variable h : rheap.

(** [getWrite(k)], [isSchedulable], [updateRowTable] and [popWrite(k)] of the write
    queue of queue [i]; [true] when it was served. *)
Definition serve_write (i k : nat) (s : RequestScheduler) : res (bool * RequestScheduler) :=
  q ← request_queue i s;
  w ← of_option Undefined (writeQueue q);
  p ← getWrite k w;
  r ← deref h p;
  hit ← isRowHit r s;
  bs ← isSchedulable r hit s;
  let '(b, s) := bs in
  if b : bool then
    key ← map_key r;
    pw ← popWrite k w;
    Ok (true, set_request_queue i (set_writeQueue (Some pw.2) q) (updateRowTable key.1 key.2 (row r) s))
  else Ok (false, s).

(** [requestQueue[0]->setWriteMode(b)]. *)
Definition write_mode (b : bool) (s : RequestScheduler) : res RequestScheduler :=
  q ← request_queue 0 s; Ok (set_request_queue 0 (setWriteMode b q) s).

(** One turn of the loop over the write queues; the state is [sw], [cont_1] and
    the scheduler. *)
Definition visit_writes (index : nat) (st : bool * bool * RequestScheduler) : res (bool * bool * RequestScheduler) :=
  let '(sw, cont_1, s) := st in
  q ← request_queue index s;
  match writeQueue q with
  | None => Ok st
  | Some w =>
      sws ← (if highWatermark w then s ← write_mode true s; Ok (true, s) else Ok (sw, s));
      let '(sw, s) := sws in
      if sw : bool then
        if lowWatermark w then s ← write_mode false s; Ok (false, true, s)
        else bs ← serve_write index 0 s; Ok (true, if bs.1 : bool then false else cont_1, bs.2)
      else Ok (sw, cont_1, s)
  end.

(** The reads: a request for every command queue that is empty; the state is
    [cont_3] and the scheduler. *)
Definition visit_reads (qs : list CommandQueue) (index : nat) (st : bool * RequestScheduler) : res (bool * RequestScheduler) :=
  foldM qs st (λ cq st,
    if bool_decide (cq_getSize true cq = 0%nat) then
      ps ← scheduleFR h index st.2;
      match ps.1 with
      | Some p => s ← serve h index p map_key ps.2; Ok (false, s)
      | None => Ok (st.1, ps.2)
      end
    else Ok st).

(** [requestSchedule]; [sw] is a member of the base class that no constructor
    sets. *)
Definition requestSchedule (qs : list CommandQueue) (sw : bool) (s : RequestScheduler) : res (bool * RequestScheduler) :=
  we ← writeEnable 0 s;
  st ← (if we : bool then foldM (seq 0 (length (requestQueues s))) (sw, true, s) visit_writes else Ok (sw, true, s));
  let '(sw, cont_1, s) := st in
  st ← (if cont_1 : bool then foldM (seq 0 (length (requestQueues s))) (true, s) (visit_reads qs) else Ok (true, s));
  let '(cont_3, s) := st in
  let cont_2 := existsb (λ q, (0 <? cq_getSize true q)%nat) qs in
  if negb cont_2 && cont_1 && cont_3 then
    q ← request_queue 0 s;
    w ← of_option Undefined (writeQueue q);
    if bool_decide (wq_bufferSize w ≠ 0%nat) then bs ← serve_write 0 0 s; Ok (sw, bs.2) else Ok (sw, s)
  else Ok (sw, s).
End Batching.
End Batching.

(** ** They serve requests *)
Section serves.
Context `{CommandGenerator}.
Implicit Types s : RequestScheduler.

Lemma scheduleFR_Next_same h i s o s' : scheduleFR_Next h i s = Ok (o, s') → same s s'.
Proof.
  unfold scheduleFR_Next. intros Hf. apply bind_Ok in Hf as (q & Hq & Hf). apply bind_Ok in Hf as (n & _ & Hf).
  destruct (0 <? n)%nat; [|by injection Hf as <- <-].
  apply bind_Ok in Hf as (fl & Hl & Hf). apply bind_Ok in Hf as ([o1 q1] & Hg & Hf). injection Hf as <- <-.
  apply (set_looked _ q); [done|].
  apply (forM_inv (looked q) (λ q' _, looked q q')) in Hl; [|reflexivity|].
  - destruct fl as [q2|q2 p]; [|by injection Hg as _ <-]. etransitivity; [exact Hl|].
    destruct o1; [by eapply getRequest_fetched|]. unfold getRequest in Hg.
    case_bool_decide; [by injection Hg as <-|]. by apply bind_Ok in Hg as (x & _ & Hg).
  - intros k q2 fl2 _ Hq2 Hb. apply bind_Ok in Hb as ([o2 q3] & Hg2 & Hb). simpl in Hb.
    apply bind_Ok in Hb as (p & ->%of_option_Ok & Hb). apply bind_Ok in Hb as (r & _ & Hb).
    apply bind_Ok in Hb as (hit & _ & Hb). apply getRequest_fetched in Hg2 as [Hl2 _].
    destruct hit; injection Hb as <-; by etransitivity.
Qed.

Lemma scheduleBLISS_fetched h bl i s o s' :
  scheduleBLISS h bl i s = Ok (o, s') →
  same s s' ∧ ∀ p, o = Some p → ∃ q, request_queue i s' = Ok q ∧ fetched q p.
Proof.
  unfold scheduleBLISS. intros Hf. apply bind_Ok in Hf as (q & Hq & Hf). apply bind_Ok in Hf as (n & _ & Hf).
  destruct (0 <? n)%nat; [|by injection Hf as <- <-].
  apply bind_Ok in Hf as (o1 & _ & Hf). apply bind_Ok in Hf as (pid & _ & Hf). apply bind_Ok in Hf as (r & _ & Hf).
  apply bind_Ok in Hf as (o2 & _ & Hf). apply bind_Ok in Hf as ([o3 q1] & Hg & Hf). injection Hf as <- <-.
  by eapply getRequest_sched.
Qed.

Lemma bliss_serves h table a s a' s' :
  BLISS.requestSchedule h table a s = Ok (a', s') → ∃ l, served h s l s'.
Proof.
  unfold BLISS.requestSchedule. intros Hr. apply bind_Ok in Hr as (bl & _ & Hr). set (a1 := BLISS.mkBLISS _ _ _ _ _) in Hr.
  change s with (snd (a1, s)). change s' with (snd (a', s')). revert Hr. apply (loop_served h snd).
  intros i [a2 s2] [a2' s2'] _ Hv. unfold BLISS.visit in Hv. cbn [fst snd] in *.
  apply bind_Ok in Hv as (n & _ & Hv). destruct (0 <? n)%nat; [|injection Hv as _ <-; by apply served_same].
  apply bind_Ok in Hv as ([o s1] & Hf & Hv). apply scheduleBLISS_fetched in Hf as [Hsm Hf]. cbn [fst snd] in *.
  destruct o as [p|]; [|injection Hv as _ <-; by apply served_same].
  apply bind_Ok in Hv as (r & _ & Hv). apply bind_Ok in Hv as (a3 & _ & Hv). apply bind_Ok in Hv as (s3 & Hs & Hv).
  injection Hv as _ <-. eapply fetched_serve; [by right|exact Hsm|by apply Hf|exact Hs].
Qed.

Lemma parbs_serves h table a s a' s' :
  PARBS.requestSchedule h table a s = Ok (a', s') → ∃ l, served h s l s'.
Proof.
  unfold PARBS.requestSchedule. intros Hr. apply bind_Ok in Hr as (a1 & _ & Hr). apply bind_Ok in Hr as (q & Hq & Hr).
  apply bind_Ok in Hr as (temp & _ & Hr). destruct temp as [t|]; [|injection Hr as _ <-; by apply served_same].
  apply bind_Ok in Hr as (ti & _ & Hr). apply bind_Ok in Hr as ([o q1] & Hg & Hr). simpl in Hr.
  apply bind_Ok in Hr as (p & ->%of_option_Ok & Hr). apply bind_Ok in Hr as (s1 & Hs & Hr). injection Hr as _ <-.
  destruct (getRequest_sched _ _ _ _ _ _ Hq Hg) as [Hsm Hf].
  eapply fetched_serve; [by right|exact Hsm|by apply Hf|exact Hs].
Qed.

(** A write leaves the write queue of its queue. *)
Lemma popWrite_contents q w k p w' :
  writeQueue q = Some w → popWrite k w = Ok (p, w') → rq_wf q →
  rq_wf (set_writeQueue (Some w') q) ∧ contents q ≡ₚ p :: contents (set_writeQueue (Some w') q).
Proof.
  intros Hw Hp [Ho Hen]. unfold popWrite in Hp. apply bind_Ok in Hp as (p0 & Hp0%vec_at_Ok & Hp).
  apply bind_Ok in Hp as (w1 & Hr & Hp). injection Hp as <- <-. unfold removeWrite in Hr.
  apply bind_Ok in Hr as (l & [_ ->]%vec_erase_Ok & Hr). injection Hr as <-.
  split; [split; [done|]; simpl; by eexists|]. unfold contents. simpl. rewrite Hw. simpl.
  rewrite (delete_Permutation _ _ _ Hp0) at 1. solve_Permutation.
Qed.

Lemma serve_write_served h i k s b s' :
  Batching.serve_write h i k s = Ok (b, s') → ∃ l, served h s l s'.
Proof.
  unfold Batching.serve_write. intros Hs. apply bind_Ok in Hs as (q & Hq%vec_at_Ok & Hs).
  apply bind_Ok in Hs as (w & Hw%of_option_Ok & Hs). apply bind_Ok in Hs as (p & Hp & Hs).
  apply bind_Ok in Hs as (r & Hr%deref_Ok & Hs). apply bind_Ok in Hs as (hit & Hhit & Hs).
  apply bind_Ok in Hs as ([b1 s1] & Hb & Hs). unfold isSchedulable in Hb.
  apply bind_Ok in Hb as ([b' g] & Hg & Hb). injection Hb as <- <-. simpl in Hs.
  destruct (commandGenerate_appends _ _ _ _ _ Hg) as [-> _].
  apply bind_Ok in Hs as (key & Hk & Hs). apply bind_Ok in Hs as ([p2 w2] & Hpop & Hs). injection Hs as _ <-.
  assert (p2 = p) as ->.
  { unfold popWrite, getWrite in *. rewrite Hp in Hpop. simpl in Hpop. apply bind_Ok in Hpop as (? & _ & Hpop).
    by injection Hpop. }
  exists [p]. eapply served_cons; [reflexivity| |by constructor].
  eapply (Served1 h s p _ r i q (set_writeQueue (Some w2) q) hit key); try done; [|by left].
  by apply (popWrite_contents q w k).
Qed.

Lemma write_mode_same b s s' : Batching.write_mode b s = Ok s' → same s s'.
Proof.
  unfold Batching.write_mode. intros Hw. apply bind_Ok in Hw as (q & Hq & Hw). injection Hw as <-.
  apply (set_looked _ q); [done|]. exists (ReqQueue.scheduledRequest q), b. by destruct q.
Qed.

Lemma visit_writes_served h i sw c s sw' c' s' :
  Batching.visit_writes h i (sw, c, s) = Ok (sw', c', s') → ∃ l, served h s l s'.
Proof.
  unfold Batching.visit_writes. intros Hv. apply bind_Ok in Hv as (q & Hq & Hv).
  destruct (writeQueue q) as [w|]; [|injection Hv as _ _ <-; by apply served_same].
  apply bind_Ok in Hv as ([sw1 s1] & Hw & Hv).
  assert (same s s1) as Hsm.
  { destruct (highWatermark w); [|by injection Hw as _ <-].
    apply bind_Ok in Hw as (s2 & Hw & E). injection E as _ <-. by eapply write_mode_same. }
  destruct sw1; [|injection Hv as _ _ <-; by apply served_same]. destruct (lowWatermark w).
  - apply bind_Ok in Hv as (s2 & Hw2 & Hv). injection Hv as _ _ <-. apply served_same.
    etransitivity; [exact Hsm|]. by eapply write_mode_same.
  - apply bind_Ok in Hv as ([b s2] & Hs & Hv). injection Hv as _ _ <-.
    apply serve_write_served in Hs as [l Hl]. exists l. by eapply same_served.
Qed.

Lemma visit_reads_served h qs i st st' :
  Batching.visit_reads h qs i st = Ok st' → ∃ l, served h st.2 l st'.2.
Proof.
  apply (loop_served h snd). intros cq [c s] [c' s'] _ Hv. cbn [fst snd] in *.
  case_bool_decide; [|injection Hv as _ <-; by apply served_same].
  apply bind_Ok in Hv as ([o s1] & Hf & Hv). apply scheduleFR_fetched in Hf as [Hsm Hf]. cbn [fst snd] in *.
  destruct o as [p|]; [|injection Hv as _ <-; by apply served_same].
  apply bind_Ok in Hv as (s2 & Hs & Hv). injection Hv as _ <-.
  eapply fetched_serve; [by left|exact Hsm|by apply Hf|exact Hs].
Qed.

Lemma batching_serves h qs sw s sw' s' :
  Batching.requestSchedule h qs sw s = Ok (sw', s') → ∃ l, served h s l s'.
Proof.
  unfold Batching.requestSchedule. intros Hr. apply bind_Ok in Hr as (we & _ & Hr).
  apply bind_Ok in Hr as ([[sw1 c1] s1] & H1 & Hr). apply bind_Ok in Hr as ([c3 s3] & H3 & Hr).
  assert (∃ l, served h s l s1) as [l1 S1].
  { destruct we; [|injection H1 as _ _ <-; by apply served_same].
    change s with (snd (sw, true, s)). change s1 with (snd (sw1, c1, s1)). revert H1.
    apply (loop_served h snd). intros i [[sw2 c2] s2] [[sw4 c4] s4] _. apply visit_writes_served. }
  assert (∃ l, served h s1 l s3) as [l3 S3].
  { destruct c1; [|injection H3 as _ <-; by apply served_same].
    change s1 with (snd (true, s1)). change s3 with (snd (c3, s3)). revert H3.
    apply (loop_served h snd). intros i st st' _. apply visit_reads_served. }
  assert (∃ l, served h s3 l s') as [l4 S4].
  { destruct (negb _ && _ && _); [|injection Hr as _ <-; by apply served_same].
    apply bind_Ok in Hr as (q & _ & Hr). apply bind_Ok in Hr as (w & _ & Hr).
    case_bool_decide; [|injection Hr as _ <-; by apply served_same].
    apply bind_Ok in Hr as ([b s4] & Hs & Hr). injection Hr as _ <-. by eapply serve_write_served. }
  exists (l1 ++ l3 ++ l4). eapply served_app; [exact S1|]. by eapply served_app.
Qed.
End serves.

(** ** Instances *)
#[export] Instance BLISS_scheduling `{CommandGenerator} : RequestScheduling BLISS.BLISS :=
  {| requestSchedule e a s := BLISS.requestSchedule (env_heap e) (env_critical e) a s |}.
#[export] Instance BLISS_serves `{CommandGenerator} : RequestAlgorithm BLISS.BLISS.
Proof. split. intros e a s a' s' Hr. simpl in Hr. by eapply bliss_serves. Qed.

#[export] Instance PARBS_scheduling `{CommandGenerator} : RequestScheduling PARBS.PARBS :=
  {| requestSchedule e a s := PARBS.requestSchedule (env_heap e) (env_critical e) a s |}.
#[export] Instance PARBS_serves `{CommandGenerator} : RequestAlgorithm PARBS.PARBS.
Proof. split. intros e a s a' s' Hr. simpl in Hr. by eapply parbs_serves. Qed.

#[export] Instance Batching_scheduling `{CommandGenerator} : RequestScheduling bool :=
  {| requestSchedule e a s := Batching.requestSchedule (env_heap e) (env_commandQueues e) a s |}.
#[export] Instance Batching_serves `{CommandGenerator} : RequestAlgorithm bool.
Proof. split. intros e a s a' s' Hr. simpl in Hr. by eapply batching_serves. Qed.

(** ** What BLISS chooses *)
Section bliss_choice.
Variables (h : rheap) (bl : list (option Z)) (s : RequestScheduler).

(** Request [p] is live, its requestor has black-list entry [b], and its row hit
    is [hit]. *)
Definition looks (p : ptr) (b : Z) (hit : bool) : Prop :=
  ∃ r, h !! p = Some r ∧ blacklist_at bl (requestorID r) = Ok b ∧ isRowHit r s = Ok hit.

Definition is_black (p : ptr) : bool :=
  match h !! p with
  | Some r => match blacklist_at bl (requestorID r) with Ok b => bool_decide (b = 1) | Err _ => false end
  | None => false
  end.

(** The specification: the first request whose requestor is black-listed when
    that of the front is not, or the other way round; else the front. *)
Definition bliss_index (p1 : ptr) (l : list ptr) : nat :=
  default 0%nat (fst <$> list_find (λ p, is_black p ≠ is_black p1) l).

Lemma looks_black p b hit : looks p b hit → is_black p = bool_decide (b = 1).
Proof. intros (r & Hr & Hb & _). unfold is_black. by rewrite Hr, Hb. Qed.

Lemma getRequestCheck_at q k p : generalBuffer q !! k = Some p → getRequestCheck k q = Ok (Some p).
Proof.
  intros Hk. unfold getRequestCheck. rewrite bool_decide_false by (by intros E; rewrite E in Hk).
  by rewrite (proj2 (vec_at_Ok _ _ _) Hk).
Qed.

(** A turn after both flags were set. *)
Lemma bliss_turn_set q id p1 r1 b1 k p :
  h !! p1 = Some r1 → looks p1 b1 true → generalBuffer q !! k = Some p → (∃ b hit, looks p b hit) →
  bliss_turn h bl q s id r1 k (Some true, Some true) =
    Ok (if decide (is_black p ≠ is_black p1) then Stop (Some true, Some true) k else Next (Some true, Some true)).
Proof.
  intros H1 L1 Hk (b & hit & L). rewrite (looks_black _ _ _ L1), (looks_black _ _ _ L).
  destruct L1 as (r & Hr & Hb1 & Hh1). assert (r = r1) as -> by congruence. destruct L as (r2 & Hr2 & Hb2 & Hh2).
  unfold bliss_turn. rewrite (getRequestCheck_at _ _ _ Hk). cbn [mbind res_bind].
  rewrite (proj2 (deref_Ok _ _ _) Hr2). cbn [mbind res_bind]. rewrite Hb1, Hb2, Hh1, Hh2. cbn [mbind res_bind].
  destruct (decide (b1 = 1)) as [->|N1], (decide (b = 1)) as [->|N2];
    rewrite ?(bool_decide_false (1 ≠ 1)) by lia; rewrite ?(bool_decide_true (_ ≠ 1)) by lia; simpl;
    rewrite ?(bool_decide_true (1 = 1)), ?(bool_decide_false (_ = 1)) by lia; simpl; by destruct hit.
Qed.

Lemma bliss_rest q id p1 r1 b1 k l :
  h !! p1 = Some r1 → looks p1 b1 true → (∀ j p, l !! j = Some p → generalBuffer q !! (k + j)%nat = Some p) →
  Forall (λ p, ∃ b hit, looks p b hit) l →
  forM (seq k (length l)) (Some true, Some true) (bliss_turn h bl q s id r1) =
    Ok match list_find (λ p, is_black p ≠ is_black p1) l with
       | Some (j, _) => Stop (Some true, Some true) (k + j)%nat
       | None => Next (Some true, Some true)
       end.
Proof.
  intros H1 L1. revert k. induction l as [|p l IH]; intros k Hq Hall; [done|].
  apply Forall_cons in Hall as [Hp Hall]. cbn [length seq forM].
  rewrite (bliss_turn_set q id p1 r1 b1 k p); [|done|done| |done].
  2: { rewrite <- (Nat.add_0_r k). by apply Hq. }
  cbn [mbind res_bind list_find]. destruct (decide (is_black p ≠ is_black p1)) as [Hd|Hd].
  - by rewrite Nat.add_0_r.
  - rewrite IH; [| |done].
    + destruct (list_find _ l) as [[j x]|]; simpl; [|done]. by rewrite Nat.add_succ_r.
    + intros j x Hj. replace (S k + j)%nat with (k + S j)%nat by lia. by apply Hq.
Qed.

(** What [scheduleBLISS] returns: when the first request misses its row, it
    reads [hit_1], which it never set. Otherwise it takes the first request whose
    black-list status differs from that of the front, whichever of the two is
    black-listed, and the front when there is none: row hits of other requests
    do not matter. *)
Theorem BLISS_choice i q p1 l b1 hit1 :
  let k := bliss_index p1 (p1 :: l) in
  request_queue i s = Ok q → generalBuffer q = p1 :: l →
  Forall (λ p, ∃ b hit, looks p b hit) l → looks p1 b1 hit1 →
  scheduleBLISS h bl i s =
    if hit1 then Ok ((p1 :: l) !! k, set_request_queue i (set_scheduledRequest (false, (0, k)) q) s)
    else Err Undefined.
Proof.
  intros k Hq Hl Hall L1. pose proof L1 as (r1 & Hr1 & Hb1 & Hh1).
  assert (getRequestCheck 0 q = Ok (Some p1)) as Hc0 by (apply getRequestCheck_at; by rewrite Hl).
  unfold scheduleBLISS. rewrite Hq. cbn [mbind res_bind]. unfold getSize. rewrite Hl. cbn [mbind res_bind mret res_ret length seq].
  change (0 <? S (length l))%nat with true. cbn [forM]. rewrite Hc0.
  cbn [mbind res_bind fst snd]. rewrite (proj2 (deref_Ok _ _ _) Hr1). cbn [mbind res_bind Nat.sub seq forM].
  assert (bliss_turn h bl q s 0 r1 0 (None, None) = if hit1 then Ok (Next (Some true, Some true)) else Err Undefined) as ->.
  { unfold bliss_turn. rewrite Hc0. cbn [mbind res_bind]. rewrite (proj2 (deref_Ok _ _ _) Hr1). cbn [mbind res_bind].
    rewrite Hb1, Hh1. cbn [mbind res_bind]. rewrite xorb_nilpotent. by destruct hit1. }
  destruct hit1; [|done]. cbn [mbind res_bind].
  rewrite (bliss_rest q 0 p1 r1 b1 1 l); [|done|done|by intros j p Hj; rewrite Hl|done].
  assert (∀ j p, (p1 :: l) !! j = Some p →
    (pq ← getRequest j q; Ok (pq.1, set_request_queue i pq.2 s)) =
    Ok (Some p, set_request_queue i (set_scheduledRequest (false, (0, j)) q) s)) as Hget.
  { intros j p Hj. unfold getRequest. rewrite bool_decide_false by (by rewrite Hl).
    rewrite Hl, (proj2 (vec_at_Ok _ _ _) Hj). done. }
  unfold k, bliss_index. cbn [list_find]. rewrite decide_False by (by intros []).
  destruct (list_find _ l) as [[j p]|] eqn:E; cbn [mbind res_bind fmap option_fmap option_map fst default prod_map].
  - apply list_find_Some in E as (E & _). simpl. rewrite E. exact (Hget (S j) p E).
  - exact (Hget 0%nat p1 eq_refl).
Qed.
End bliss_choice.

(** ** What a batch of PARBS marks *)
Lemma omap_length {A B} (f : A → option B) l : (length (omap f l) ≤ length l)%nat.
Proof. induction l as [|x l IH]; csimpl; [done|]. destruct (f x); csimpl; lia. Qed.

Lemma visited_snoc {A} (f : nat → option A) l j y :
  (∃ p, p ∈ l ++ [j] ∧ f p = Some y) ↔ (∃ p, p ∈ l ∧ f p = Some y) ∨ f j = Some y.
Proof.
  setoid_rewrite elem_of_app. setoid_rewrite list_elem_of_singleton. split.
  - intros (p & [Hp| ->] & Hf); eauto.
  - intros [(p & Hp & Hf)|Hf]; eauto.
Qed.

Section parbs_batch.
Import PARBS.
Implicit Types a : PARBS.

Definition loaded a (p : Z) : Prop :=
  is_Ok (load (markedMaxLoadPerProc a) p) = true ∧ is_Ok (load (markedTotalLoadPerProc a) p) = true.

Lemma load_set (l : list (option Z)) p v :
  is_Ok (load l p) = true →
  ∃ l', vec_set l (Z.to_nat p) (Some v) = Ok l' ∧ ∀ p', is_Ok (load l p') = true → is_Ok (load l' p') = true.
Proof.
  unfold load, vec_at. intros Hl. destruct (l !! Z.to_nat p) as [o|] eqn:E; [|done].
  exists (<[Z.to_nat p := Some v]> l). split; [apply vec_set_Ok; split; [by eapply lookup_lt_Some|done]|].
  intros p'. destruct (decide (Z.to_nat p' = Z.to_nat p)) as [->|Hne].
  - intros _. rewrite list_lookup_insert_eq by (by eapply lookup_lt_Some). done.
  - by rewrite list_lookup_insert_ne.
Qed.

(** [a'] is [a] after [m] marks of request [x] of requestor [p]. *)
Record marks (m : nat) (x : ptr) (p : Z) a a' : Prop := {
  mk_count : markedCnt a' = match m with O => markedCnt a | S _ => u32 (markedCnt a + Z.of_nat m) end;
  mk_marked y : is_marked a' y = is_marked a y || (bool_decide (y = x) && (0 <? m)%nat);
  mk_other p' b' : p' ≠ p → markable a' p' b' = markable a p' b';
  mk_loaded p' : loaded a p' → loaded a' p';
}.

Lemma mark_ok p b x a :
  loaded a p → ∃ a', mark p b x a = Ok a' ∧ marks 1 x p a a' ∧ markable a' p b = x :: markable a p b.
Proof.
  intros [Hm Ht]. unfold mark.
  destruct (load (markedTotalLoadPerProc a) p) as [tot|] eqn:Et; [|done].
  destruct (load (markedMaxLoadPerProc a) p) as [mx|] eqn:Em; [|done]. cbn [mbind res_bind].
  destruct (load_set (markedTotalLoadPerProc a) p (u32 (tot + 1))) as (l1 & -> & H1); [by rewrite Et|].
  cbn [mbind res_bind]. set (c := u32 (markedCnt a + 1)).
  destruct (load_set (markedMaxLoadPerProc a) p (if bool_decide (mx < c) then c else mx)) as (l2 & -> & H2);
    [by rewrite Em|].
  eexists. split; [done|]. split; [split|].
  - done.
  - intros y. unfold is_marked. simpl. destruct (decide (y = x)) as [->|Hne].
    + by rewrite lookup_insert_eq, bool_decide_true, orb_true_r.
    + by rewrite lookup_insert_ne, bool_decide_false, orb_false_r.
  - intros p' b' Hp. unfold markable. simpl. rewrite lookup_insert_ne by congruence. done.
  - intros p' [? ?]. split; auto.
  - unfold markable at 1. simpl. by rewrite lookup_insert_eq.
Qed.

Lemma marks_S m x p a a1 a2 : marks 1 x p a a1 → marks m x p a1 a2 → marks (S m) x p a a2.
Proof.
  intros [C1 M1 O1 L1] [C2 M2 O2 L2]. split.
  - rewrite C2, C1. destruct m as [|m]; [done|]. unfold u32. rewrite Zplus_mod_idemp_l. f_equal. lia.
  - intros y. rewrite M2, M1. by destruct (is_marked a y), (bool_decide (y = x)), (0 <? m)%nat.
  - intros p' b' Hp. by rewrite O2, O1.
  - auto.
Qed.

Section banks.
Variables (h : rheap) (q : RequestQueue).

(** At a bank with a request the loop marks it until the bank is full, and ends. *)
Lemma mark_full p b x m fuel a :
  (b < localBcount)%nat → earliestperBankperReq h p (Z.of_nat b) q = Ok (Some x) →
  (length (markable a p (Z.of_nat b)) + m = MarkingCap)%nat → (m < fuel)%nat → loaded a p →
  ∃ a', mark_banks h q fuel p b a = Ok (Some a') ∧ marks m x p a a'.
Proof.
  intros Hb Hx. revert fuel a. induction m as [|m IH]; intros fuel a Hlen Hf Hl; destruct fuel as [|fuel]; try lia;
    cbn [mark_banks]; rewrite (proj2 (Nat.ltb_lt _ _) Hb).
  - rewrite bool_decide_true by lia. exists a. split; [done|]. split; [done|intros y|done|done].
    by rewrite andb_false_r, orb_false_r.
  - rewrite bool_decide_false by lia. rewrite (proj2 (Nat.ltb_lt _ _)) by lia. rewrite Hx. cbn [mbind res_bind].
    destruct (mark_ok p (Z.of_nat b) x a Hl) as (a1 & -> & M1 & E1). cbn [mbind res_bind].
    destruct (IH fuel a1) as (a' & -> & M2); [rewrite E1; simpl; lia|lia|by apply M1|].
    exists a'. split; [done|]. by eapply marks_S.
Qed.

(** The specification: the request of [p] a batch marks is the earliest one at the
    first bank where it has any. *)
Fixpoint first_request (p : Z) (bs : list nat) : option ptr :=
  match bs with
  | [] => None
  | b :: bs =>
      match earliestperBankperReq h p (Z.of_nat b) q with
      | Ok (Some x) => Some x
      | _ => first_request p bs
      end
  end.

Definition batch_of (p : Z) : option ptr := first_request p (seq 0 localBcount).

Hypothesis Hlive : ∀ x, x ∈ generalBuffer q → is_Some (h !! x).

(** The loop over the banks ends within the fuel, and marks that request only. *)
Lemma mark_banks_from p k b fuel a :
  (b + k = localBcount)%nat → (k + S MarkingCap ≤ fuel)%nat →
  (∀ b', (b ≤ b' < localBcount)%nat → markable a p (Z.of_nat b') = []) → loaded a p →
  ∃ a', mark_banks h q fuel p b a = Ok (Some a') ∧
    match first_request p (seq b k) with Some x => marks MarkingCap x p a a' | None => a' = a end.
Proof.
  revert b fuel. induction k as [|k IH]; intros b fuel Hb Hf Hm Hl.
  - exists a. split; [|done]. rewrite Nat.add_0_r in Hb. destruct fuel; cbn [mark_banks]; by rewrite Hb, Nat.ltb_irrefl.
  - destruct fuel as [|fuel]; [lia|].
    destruct (earliest_ok h p (Z.of_nat b) q Hlive) as (o & Ho & _). cbn [seq first_request]. rewrite Ho. destruct o as [x|].
    + apply mark_full; [lia|done| |unfold MarkingCap in *; lia|done]. by rewrite Hm by lia.
    + cbn [mark_banks]. rewrite (proj2 (Nat.ltb_lt _ _)) by lia. rewrite Hm by lia. cbn [length].
      rewrite bool_decide_false by done. cbn [Nat.ltb Nat.leb MarkingCap]. rewrite Ho. cbn [mbind res_bind].
      apply IH; [lia|lia|intros b' Hb'; apply Hm; lia|done].
Qed.

(** A state of [form_batch] before requestor [j]: the requestors in [done] have
    been visited. *)
Record batching (n j : nat) (visited : list nat) a0 a : Prop := {
  bt_loaded p : (p < n)%nat → loaded a (Z.of_nat p);
  bt_empty p b : (j ≤ p < n)%nat → (b < localBcount)%nat → markable a (Z.of_nat p) (Z.of_nat b) = [];
  bt_count : markedCnt a = Z.of_nat (MarkingCap * length (omap (λ p, batch_of (Z.of_nat p)) visited));
  bt_marked x : is_marked a x = true ↔ is_marked a0 x = true ∨ ∃ p, p ∈ visited ∧ batch_of (Z.of_nat p) = Some x;
}.

Lemma mark_turn n j a0 a :
  (j < n ≤ 10)%nat → batching n j (seq 0 j) a0 a →
  ∃ a', mark_banks h q (localBcount * S MarkingCap) (Z.of_nat j) 0 a = Ok (Some a') ∧
    batching n (S j) (seq 0 (S j)) a0 a'.
Proof.
  intros Hj [Hl He Hc Hm].
  destruct (mark_banks_from (Z.of_nat j) localBcount 0 (localBcount * S MarkingCap) a) as (a' & Hb & Ha);
    [done|unfold localBcount, MarkingCap; lia|intros b' Hb'; apply He; lia|apply Hl; lia|].
  exists a'. split; [exact Hb|]. fold (batch_of (Z.of_nat j)) in Ha.
  rewrite seq_S. simpl. destruct (batch_of (Z.of_nat j)) as [x|] eqn:Ex.
  - destruct Ha as [C M O L]. split.
    + intros p Hp. by apply L, Hl.
    + intros p b Hp Hb'. rewrite O by lia. apply He; lia.
    + rewrite C, Hc, omap_app, length_app. simpl. rewrite Ex. simpl.
      assert (length (omap (λ p, batch_of (Z.of_nat p)) (seq 0 j)) ≤ 10)%nat.
      { etransitivity; [apply omap_length|]. rewrite length_seq. lia. }
      rewrite u32_small; unfold MarkingCap; lia.
    + intros y. rewrite M, orb_true_iff, andb_true_r, Hm, bool_decide_eq_true, visited_snoc, Ex.
      assert (y = x ↔ Some x = Some y) as -> by (split; congruence). tauto.
  - subst a'. split; [done| | |].
    + intros p b Hp Hb'. apply He; lia.
    + rewrite Hc, omap_app. simpl. by rewrite Ex, app_nil_r.
    + intros y. rewrite Hm, visited_snoc, Ex. split; [tauto|]. by intros [?|[?|?]]; auto.
Qed.
End banks.

(** The reset of the requestors and banks in [P]. *)
Record cleared (P : nat → nat → Prop) a a' : Prop := {
  cl_max : length (markedMaxLoadPerProc a') = length (markedMaxLoadPerProc a);
  cl_total : length (markedTotalLoadPerProc a') = length (markedTotalLoadPerProc a);
  cl_count : markedCnt a' = markedCnt a;
  cl_marked : marked a' = marked a;
  cl_loaded p : loaded a p ∨ (∃ i b, p = Z.of_nat i ∧ P i b) → loaded a' p;
  cl_empty p b : markable a (Z.of_nat p) (Z.of_nat b) = [] ∨ P p b → markable a' (Z.of_nat p) (Z.of_nat b) = [];
}.

Lemma cleared_refl a : cleared (λ _ _, False) a a.
Proof. split; try done; [intros p [?|(?&?&?&[])]; done|by intros p b [?|[]]]. Qed.

Lemma cleared_trans P Q R a1 a2 a3 :
  cleared P a1 a2 → cleared Q a2 a3 → (∀ p b, R p b → P p b ∨ Q p b) → cleared R a1 a3.
Proof.
  intros [M1 T1 C1 K1 L1 E1] [M2 T2 C2 K2 L2 E2] HR. split; try congruence.
  - intros p [Hp|(i & b & -> & Hi)]; [apply L2; left; apply L1; by left|].
    apply HR in Hi as [Hi|Hi]; apply L2; [left; apply L1|]; right; eauto.
  - intros p b [Hp|Hi]; [apply E2; left; apply E1; by left|].
    apply HR in Hi as [Hi|Hi]; apply E2; [left; apply E1; by right|by right].
Qed.

(** A loop of resets. *)
Lemma cleared_loop (l : list nat) (P : nat → nat → nat → Prop) (bound : nat) f a :
  (∀ x a, x ∈ l → length (markedMaxLoadPerProc a) = bound → length (markedTotalLoadPerProc a) = bound →
    ∃ a', f x a = Ok a' ∧ cleared (P x) a a') →
  length (markedMaxLoadPerProc a) = bound → length (markedTotalLoadPerProc a) = bound →
  ∃ a', foldM l a f = Ok a' ∧ cleared (λ p b, ∃ x, x ∈ l ∧ P x p b) a a'.
Proof.
  intros Hf. revert a. induction l as [|x l IH]; intros a Hm Ht.
  - exists a. split; [done|]. eapply cleared_trans; [apply cleared_refl..|]. by intros p b (x & ?%not_elem_of_nil & _).
  - destruct (Hf x a) as (a1 & E1 & C1); [by left|done|done|]. simpl. rewrite E1. cbn [mbind res_bind].
    destruct (IH ltac:(intros; apply Hf; [by right|done|done]) a1) as (a2 & E2 & C2);
      [by rewrite (cl_max _ _ _ C1)|by rewrite (cl_total _ _ _ C1)|].
    exists a2. split; [exact E2|]. eapply cleared_trans; [exact C1|exact C2|].
    intros p b (y & [->|Hy]%elem_of_cons & Hp); eauto.
Qed.

Lemma reset_entry_ok b p a :
  (p < 10)%nat → length (markedMaxLoadPerProc a) = 10%nat → length (markedTotalLoadPerProc a) = 10%nat →
  ∃ a', reset_entry b p a = Ok a' ∧ cleared (λ p' b', p' = p ∧ b' = b) a a'.
Proof.
  intros Hp Hm Ht. unfold reset_entry. rewrite vec_set_lt by lia. cbn [mbind res_bind]. rewrite vec_set_lt by lia.
  eexists. split; [reflexivity|]. split; simpl; [by rewrite length_insert|by rewrite length_insert|done|done| |].
  - intros p' Hp'. assert (∀ l, length l = 10%nat → is_Ok (load l p') = true ∨ p' = Z.of_nat p →
      is_Ok (load (<[p := Some 0]> l) p') = true) as Hl.
    { intros l El Hor. unfold load, vec_at in *. destruct (decide (Z.to_nat p' = p)) as [->|Hne].
      - by rewrite list_lookup_insert_eq by lia.
      - rewrite list_lookup_insert_ne by done. destruct Hor as [?| ->]; [done|lia]. }
    destruct Hp' as [[? ?]|(i & b' & -> & [-> _])]; split; simpl; apply Hl; auto.
  - intros p' b' Hp'. unfold markable. simpl. destruct (decide ((p', b') = (p, b))) as [[= -> ->]|Hne].
    + by rewrite lookup_insert_eq.
    + rewrite lookup_insert_ne by (intros [= ?%Nat2Z.inj ?%Nat2Z.inj]; congruence).
      destruct Hp' as [?|[-> ->]]; done.
Qed.

Lemma reset_ok n a :
  (n ≤ 10)%nat → length (markedMaxLoadPerProc a) = 10%nat → length (markedTotalLoadPerProc a) = 10%nat →
  ∃ a', reset n a = Ok a' ∧ cleared (λ p b, (p < n)%nat ∧ (b < localBcount)%nat) a a'.
Proof.
  intros Hn Hm Ht. unfold reset.
  destruct (cleared_loop (seq 0 localBcount) (λ b p b', ∃ x, x ∈ seq 0 n ∧ p = x ∧ b' = b) 10
    (λ b a, foldM (seq 0 n) a (reset_entry b)) a) as (a' & E & C); [|done|done|].
  - clear a Hm Ht. intros b a _ Hm Ht.
    apply (cleared_loop (seq 0 n) (λ p p' b', p' = p ∧ b' = b) 10 (reset_entry b) a); [|done|done].
    intros p a1 [_ Hp]%elem_of_seq. apply reset_entry_ok. lia.
  - exists a'. split; [exact E|]. eapply cleared_trans; [exact C|apply cleared_refl|].
    intros p b [Hp Hb]. left. exists b. split; [apply elem_of_seq; lia|]. exists p. split; [apply elem_of_seq; lia|done].
Qed.

(** C32. A batch of PARBS, formed when nothing is marked any more, with at most ten requestors
    (the loads per requestor are arrays of ten; with more they are overrun): the loop over the
    banks of a requestor, which steps back after every mark, ends; it marks the
    same request [MarkingCap] times and leaves after the first bank with a
    request. So a batch has at most one request of every requestor, and
    [markedCnt] counts each of them [MarkingCap] times. *)
Theorem PARBS_batch h table s a q :
  let n := size table in
  (n ≤ 10)%nat → length (markedMaxLoadPerProc a) = 10%nat → length (markedTotalLoadPerProc a) = 10%nat →
  markedCnt a = 0 → request_queue 0 s = Ok q → (∀ x, x ∈ generalBuffer q → is_Some (h !! x)) →
  ∃ a', form_batch h table s a = Ok a' ∧
    markedCnt a' = Z.of_nat (MarkingCap * length (omap (λ p, batch_of h q (Z.of_nat p)) (seq 0 n))) ∧
    ∀ x, is_marked a' x = true ↔ is_marked a x = true ∨ ∃ p, (p < n)%nat ∧ batch_of h q (Z.of_nat p) = Some x.
Proof.
  intros n Hn Hm Ht Hc Hq Hlive. unfold form_batch. fold n.
  destruct (reset_ok n a Hn Hm Ht) as (a1 & -> & [_ _ C1 K1 L1 E1]). cbn [mbind res_bind].
  assert (∀ j, (j ≤ n)%nat → ∃ a', foldM (seq 0 j) a1 (λ p a, q ← request_queue 0 s;
      o ← mark_banks h q (localBcount * S MarkingCap) (Z.of_nat p) 0 a; of_option Undefined o) = Ok a' ∧
    batching h q n j (seq 0 j) a1 a') as Hall.
  { induction j as [|j IH]; intros Hj.
    - exists a1. split; [done|]. split.
      + intros p Hp. apply L1. right. exists p, 0%nat. split; [done|]. unfold localBcount. lia.
      + intros p b Hp Hb. apply E1. right. lia.
      + by rewrite C1, Hc.
      + intros x. split; [by left|]. by intros [?|(p & ?%not_elem_of_nil & _)].
    - destruct IH as (a2 & E2 & B2); [lia|]. rewrite foldM_seq_snoc, E2. cbn [mbind res_bind]. rewrite Hq.
      cbn [mbind res_bind Nat.add]. destruct (mark_turn h q Hlive n j a1 a2) as (a3 & -> & B3); [lia|done|].
      by exists a3. }
  destruct (Hall n ltac:(lia)) as (a' & E & [_ _ C M]). exists a'. split; [exact E|]. split; [exact C|].
  intros x. rewrite M. unfold is_marked at 1. rewrite K1. fold (is_marked a x).
  setoid_rewrite elem_of_seq. split; (intros [?|(p & ? & ?)]; [by left|right; exists p; split; [lia|done]]).
Qed.
End parbs_batch.


(** [FRFCFS_BATCHING] without a write queue: in every cycle in which no command
    waits and no read either, it follows the null pointer [writeQueue]. *)
Theorem batching_needs_write_queue `{CommandGenerator} h qs sw s q :
  request_queue 0 s = Ok q → isWriteEnable q = false → writeQueue q = None →
  Forall (λ cq, cq_getSize true cq = 0%nat) qs → Forall (λ q, generalBuffer q = []) (requestQueues s) →
  Batching.requestSchedule h qs sw s = Err Undefined.
Proof.
  intros Hq Hwe Hw Hcq Hgen. unfold Batching.requestSchedule, writeEnable. rewrite Hq. cbn [mbind res_bind].
  rewrite Hwe. cbn [mbind res_bind].
  assert (∀ i, (i < length (requestQueues s))%nat → ∀ st, st.2 = s → Batching.visit_reads h qs i st = Ok st) as Hv.
  { intros i Hi [c s'] Es. simpl in Es. subst s'. destruct (vec_at_lt _ _ Hi) as [qi Hqi].
    assert (generalBuffer qi = []) as Hnil.
    { apply vec_at_Ok in Hqi. by apply (Forall_lookup_1 _ _ _ _ Hgen Hqi). }
    unfold Batching.visit_reads. induction Hcq as [|cq qs0 Hc _ IH]; [done|]. cbn [foldM].
    rewrite bool_decide_true by done. unfold scheduleFR, request_queue. simpl snd. rewrite Hqi. cbn [mbind res_bind].
    unfold getSize, getRequest. rewrite Hnil. cbn [mbind res_bind mret res_ret length seq forM].
    rewrite bool_decide_true by done. cbn [mbind res_bind mret res_ret fst snd].
    assert (set_request_queue i qi s = s) as ->; [|exact IH].
    unfold set_request_queue. rewrite list_insert_id by (by apply vec_at_Ok). by destruct s. }
  assert (foldM (seq 0 (length (requestQueues s))) (true, s) (Batching.visit_reads h qs) = Ok (true, s)) as ->.
  { assert (∀ l, (∀ i, i ∈ l → (i < length (requestQueues s))%nat) →
      foldM l (true, s) (Batching.visit_reads h qs) = Ok (true, s)) as Hl.
    { induction l as [|i l IH]; intros Hi; [done|]. cbn [foldM]. rewrite Hv; [|apply Hi; by left|done].
      cbn [mbind res_bind]. apply IH. intros; apply Hi; by right. }
    apply Hl. intros i [_ Hi]%elem_of_seq. lia. }
  cbn [mbind res_bind]. assert (existsb (λ q, (0 <? cq_getSize true q)%nat) qs = false) as ->.
  { clear Hv. induction Hcq as [|cq qs0 Hc _ IH]; [done|]. cbn [existsb]. by rewrite Hc, IH. }
  cbn [negb andb]. rewrite Hq. cbn [mbind res_bind]. by rewrite Hw.
Qed.

(** ** Witnesses *)
#[local] Existing Instance Open_generator.

(** Two requests for row 7 of a bank; requestor 1 is black-listed. *)
Definition wit_two : RequestQueue := set_generalBuffer [1%positive; 2%positive] (RequestQueue_ctor false false).
Definition wit_open : RequestScheduler :=
  updateRowTable 0 3 7 (RequestScheduler_ctor false [wit_two] (CommandGenerator_ctor 64)).
Definition wit_bl : list (option Z) := <[0%nat := Some 0]> (<[1%nat := Some 1]> (replicate 36 None)).

Lemma BLISS_choice_witness :
  scheduleBLISS wit_rs_heap wit_bl 0 wit_open =
    Ok (Some 2%positive, set_request_queue 0 (set_scheduledRequest (false, (0, 1%nat)) wit_two) wit_open).
Proof.
  apply (BLISS_choice wit_rs_heap wit_bl wit_open 0 wit_two 1%positive [2%positive] 0 true).
  - reflexivity.
  - reflexivity.
  - repeat constructor. exists 1, true, (wit_rs_req 1 5). split_and!; vm_compute; reflexivity.
  - exists (wit_rs_req 0 4). split_and!; vm_compute; reflexivity.
Defined.

(** Two requestors with a request each: a count of ten. *)
Lemma PARBS_batch_witness :
  ∃ a', PARBS.form_batch wit_rs_heap (<[0 := true]> (<[1 := true]> ∅)) wit_open PARBS.ctor = Ok a' ∧
    PARBS.markedCnt a' = 10 ∧
    ∀ x, PARBS.is_marked a' x = true ↔ PARBS.is_marked PARBS.ctor x = true ∨
      ∃ p, (p < 2)%nat ∧ batch_of wit_rs_heap wit_two (Z.of_nat p) = Some x.
Proof.
  destruct (PARBS_batch wit_rs_heap (<[0 := true]> (<[1 := true]> ∅)) wit_open PARBS.ctor wit_two) as (a' & E & C & M).
  - vm_compute. lia.
  - reflexivity.
  - reflexivity.
  - reflexivity.
  - reflexivity.
  - intros x Hx. change (x ∈ [1%positive; 2%positive]) in Hx. set_unfold.
    destruct Hx as [->|[->|[]]]; eexists; vm_compute; reflexivity.
  - exists a'. split; [exact E|]. split; [rewrite C; vm_compute; reflexivity|].
    assert (size (<[0 := true]> (<[1 := true]> ∅) : gmap Z bool) = 2%nat) as Hsz by (vm_compute; reflexivity).
    intros x. rewrite M, Hsz. reflexivity.
Defined.

Lemma batching_needs_write_queue_witness :
  Batching.requestSchedule ∅ [CommandQueue_ctor false] false
    (RequestScheduler_ctor false [RequestQueue_ctor false false] (CommandGenerator_ctor 64)) = Err Undefined.
Proof.
  apply (batching_needs_write_queue ∅ [CommandQueue_ctor false] false
    (RequestScheduler_ctor false [RequestQueue_ctor false false] (CommandGenerator_ctor 64)) (RequestQueue_ctor false false)).
  - reflexivity.
  - reflexivity.
  - reflexivity.
  - repeat constructor.
  - repeat constructor.
Defined.
