(* ===== verification/SlotAlgos.v ===== *)
(** * Request schedulers with time slots, and those that lose requests

    [PMC] (src/system/PMC), [MCMC] (src/system/MCMC), [MEDUSA]
    (src/system/MEDUSA) and [PipeCAS] (src/system/PipeCAS), and the instances of
    [RequestScheduling] of these, of [RR] and of [RTMem].

    [PMC] and [MCMC] divide the time into slots and do not use the row table;
    [MEDUSA] prefers the reads of critical requestors and drains the write queue
    when there is no read; [PipeCAS] replaces [isSchedulable] by a test of its own
    that generates no command.

    Main results: a slotted scheduler takes at most one request per slot; when the
    draining of [MEDUSA] stays inside the write queue; what [PipeCAS] takes is lost;
    [PMC] needs eight requestors. *)
From Stdlib Require Import Sorted.
From S2P Require Import Prelude Types KeyedBuf ReqQueue CmdQueue CmdGen ReqSched.

(** ** PMC *)
Module PMC.
Record PMC := mkPMC {
  requestorIndex : nat;
  slotCounter : Z;
  scheduleSlot : list Z;
  timeSlot : list Z;
}.
Definition ctor : PMC := mkPMC 0 0 [] [].

(** In the first cycle the table of slots is filled. *)
Definition first_cycle (s : RequestScheduler) (a : PMC) : PMC :=
  if bool_decide (rs_clock s = 1) then
    mkPMC (requestorIndex a) (slotCounter a) [0; 1; 2; 3; 4; 5; 6; 7] (replicate 8 47)
  else a.

Definition next_requestor (a : PMC) : PMC :=
  mkPMC (if bool_decide (S (requestorIndex a) = length (scheduleSlot a)) then 0%nat else S (requestorIndex a))
    (slotCounter a) (scheduleSlot a) (timeSlot a).
Definition set_slotCounter (n : Z) (a : PMC) : PMC := mkPMC (requestorIndex a) n (scheduleSlot a) (timeSlot a).

Section PMC.
Context `{CommandGenerator}.
Variable h : rheap.

(** One turn of the loop over the slots. *)
Definition turn (st : PMC * RequestScheduler) : res (flow (PMC * RequestScheduler) unit) :=
  let '(a, s) := st in
  slot ← vec_at (scheduleSlot a) (requestorIndex a);
  q ← request_queue 0 s;
  n ← getSize true (Z.to_nat slot) q;
  pq ← (if (0 <? n)%nat then getRequest2 (Z.to_nat slot) 0 q else Ok (None, q));
  let s := set_request_queue 0 pq.2 s in
  match pq.1 with
  | Some p =>
      r ← deref h p;
      bs ← isSchedulable r false s;
      if bs.1 : bool then
        s ← remove_from 0 bs.2;
        t ← vec_at (timeSlot a) (Z.to_nat slot);
        Ok (Stop (next_requestor (set_slotCounter (u32 (t - 1)) a), s) ())
      else Err Abort
  | None => Ok (Next (next_requestor a, s))
  end.

Definition requestSchedule (a : PMC) (s : RequestScheduler) : res (PMC * RequestScheduler) :=
  let a := first_cycle s a in
  if bool_decide (slotCounter a = 0) then
    o ← forM (seq 0 (length (scheduleSlot a))) (a, s) (λ _, turn);
    Ok (match o with Next st => st | Stop st _ => st end)
  else Ok (if bool_decide (0 < slotCounter a) then set_slotCounter (slotCounter a - 1) a else a, s).
End PMC.
End PMC.

(** ** MCMC *)
Module MCMC.
Record MCMC := mkMCMC {
  requestorIndex : nat;
  slotCounter : Z;
  dataBusSize : Z;
  scheduleSlot : list Z;
  timeSlot : list Z;
  srtSlot : list (list Z);
  srtIndex : list nat;
  reqSubBuffer : list (list Request);
}.
Definition ctor (dataBus : Z) : MCMC := mkMCMC 0 0 dataBus [] [] [] [] [].

(** The first cycle: the critical requestors get slots of ten cycles, the others
    are distributed over them. *)
Definition distribute (slots : list Z) (reqs : list (Z * bool)) (srt : list (list Z)) : res (list (list Z)) :=
  foldM reqs srt (λ x srt,
    if x.2 then Ok srt
    else if bool_decide (slots = []) then Err Undefined
    else
      let i := Z.to_nat (x.1 `mod` Z.of_nat (length slots)) in
      l ← vec_at srt i; vec_set srt i (l ++ [x.1])).
Definition first_cycle (table : gmap Z bool) (s : RequestScheduler) (a : MCMC) : res MCMC :=
  if bool_decide (rs_clock s = 1) then
    let reqs := keys_in_order table in
    let critical := fst <$> filter (λ x, x.2 = true) reqs in
    let slots := scheduleSlot a ++ critical in
    srt ← distribute slots reqs (srtSlot a ++ replicate (length slots) []);
    Ok (mkMCMC (requestorIndex a) (slotCounter a) (dataBusSize a) slots (timeSlot a ++ ((λ _, 10) <$> critical))
          srt (srtIndex a ++ ((λ _, 0%nat) <$> slots)) (reqSubBuffer a ++ ((λ _, []) <$> reqs)))
  else Ok a.

Definition set_reqSubBuffer (l : list (list Request)) (a : MCMC) : MCMC :=
  mkMCMC (requestorIndex a) (slotCounter a) (dataBusSize a) (scheduleSlot a) (timeSlot a) (srtSlot a) (srtIndex a) l.
Definition set_srtIndex (l : list nat) (a : MCMC) : MCMC :=
  mkMCMC (requestorIndex a) (slotCounter a) (dataBusSize a) (scheduleSlot a) (timeSlot a) (srtSlot a) l (reqSubBuffer a).

(** The requests a request is split into, each of one transfer; [g] is what their
    memory held, in the fields that are not set. *)
Definition sub_request (g size : Z) (r : Request) : Request :=
  {| requestType := requestType r; requestorID := requestorID r; requestSize := size; address := address r; data := 0;
     arriveTime := g; returnTime := 0; rank := rank r; bankGroup := g; bank := bank r; subArray := g;
     row := row r; col := col r; addressMap := [g; g; g; g] |}.
Definition split (g size : Z) (r : Request) : res (list Request) :=
  if bool_decide (size = 0) then Err Undefined
  else Ok (replicate (Z.to_nat (requestSize r / size)) (sub_request g size r)).

Section MCMC.
Context `{CommandGenerator}.
Variables (h : rheap) (g : Z).

(** The buffer of requestor [slot] is filled from its queue when it is empty; the
    flag tells whether a request was fetched. *)
Definition refill (slot : nat) (st : MCMC * RequestScheduler) : res (bool * (MCMC * RequestScheduler)) :=
  let '(a, s) := st in
  buf ← vec_at (reqSubBuffer a) slot;
  match buf with
  | [] =>
      q ← request_queue 0 s;
      n ← getSize true slot q;
      if (0 <? n)%nat then
        pq ← getRequest2 slot 0 q;
        p ← of_option Undefined pq.1;
        r ← deref h p;
        l ← split g (dataBusSize a) r;
        s ← remove_from 0 (set_request_queue 0 pq.2 s);
        Ok (true, (set_reqSubBuffer (<[slot := l]> (reqSubBuffer a)) a, s))
      else Ok (false, st)
  | _ :: _ => Ok (false, st)
  end.

(** The first sub-request of a buffer is generated. *)
Definition generate (slot : nat) (st : MCMC * RequestScheduler) : res (MCMC * RequestScheduler) :=
  let '(a, s) := st in
  buf ← vec_at (reqSubBuffer a) slot;
  match buf with
  | r :: rest =>
      bs ← isSchedulable r false s;
      Ok (if bs.1 : bool then set_reqSubBuffer (<[slot := rest]> (reqSubBuffer a)) a else a, bs.2)
  | [] => Ok st
  end.

(** One turn over the noncritical requestors of the slot. The loop ends when
    [scheduledRequest] is set, and deletes it: when that is a request with no
    transfer, it is the pending one itself, whose later use is undefined. *)
Definition srt_turn (fetched0 : bool) (st : MCMC * RequestScheduler) : res (flow (MCMC * RequestScheduler) unit) :=
  let '(a, s) := st in
  srt ← vec_at (srtSlot a) (requestorIndex a);
  j ← vec_at (srtIndex a) (requestorIndex a);
  srtQueue ← vec_at srt j;
  fst1 ← refill (Z.to_nat srtQueue) st;
  buf ← vec_at (reqSubBuffer fst1.2.1) (Z.to_nat srtQueue);
  st ← generate (Z.to_nat srtQueue) fst1.2;
  idx ← vec_set (srtIndex st.1) (requestorIndex a) (if bool_decide (S j = length srt) then 0%nat else S j);
  let st := (set_srtIndex idx st.1, st.2) in
  match buf with
  | _ :: _ => Ok (Stop st ())
  | [] => if fetched0 || fst1.1 then Err Undefined else Ok (Next st)
  end.

Definition requestSchedule (table : gmap Z bool) (a : MCMC) (s : RequestScheduler) : res (MCMC * RequestScheduler) :=
  a ← first_cycle table s a;
  let s := rs_step s in
  if bool_decide (slotCounter a = 0) then
    slot ← vec_at (scheduleSlot a) (requestorIndex a);
    fst1 ← refill (Z.to_nat slot) (a, s);
    buf ← vec_at (reqSubBuffer fst1.2.1) (Z.to_nat slot);
    st ← (match buf with
          | _ :: _ => generate (Z.to_nat slot) fst1.2
          | [] =>
              srt ← vec_at (srtSlot a) (requestorIndex a);
              o ← forM (seq 0 (length srt)) fst1.2 (λ _, srt_turn fst1.1);
              Ok (match o with Next st => st | Stop st _ => st end)
          end);
    let '(a, s) := st in
    t ← vec_at (timeSlot a) (Z.to_nat slot);
    let j := S (requestorIndex a) in
    Ok (mkMCMC (if bool_decide (j = length (scheduleSlot a)) then 0%nat else j) (u32 (t - 1)) (dataBusSize a)
          (scheduleSlot a) (timeSlot a) (srtSlot a) (srtIndex a) (reqSubBuffer a), s)
  else
    Ok (mkMCMC (requestorIndex a) (if bool_decide (0 < slotCounter a) then slotCounter a - 1 else slotCounter a)
          (dataBusSize a) (scheduleSlot a) (timeSlot a) (srtSlot a) (srtIndex a) (reqSubBuffer a), s).
End MCMC.
End MCMC.

(** ** MEDUSA *)
Module MEDUSA.
Section MEDUSA.
Context `{CommandGenerator}.
Variable h : rheap.

(** [isSchedulable(p, hit)], and if it is, [updateRowTable] and [removeRequest]. *)
Definition serve_flag (i : nat) (p : ptr) (hit : bool) (s : RequestScheduler) : res (bool * RequestScheduler) :=
  r ← deref h p;
  bs ← isSchedulable r hit s;
  if bs.1 : bool then
    k ← map_key r;
    s ← remove_from i (updateRowTable k.1 k.2 (row r) bs.2);
    Ok (true, s)
  else Ok (false, bs.2).

(** The state of a call: [requestorIndex], [writeEnable] and the scheduler. *)
Abbreviation state := (list nat * bool * RequestScheduler)%type.

(** A turn of the loop for the critical requestors; [requestorIndex] is used as
    the key of the table of criticalities. *)
Definition critical_turn (table : gmap Z bool) (index : nat) (st : state) : res (flow state unit) :=
  let '(ri, we, s) := st in
  j ← vec_at ri index;
  critical ← of_option OutOfRange (table !! Z.of_nat j);
  if critical : bool then
    q ← request_queue index s;
    n ← getSize true j q;
    x ← (if (0 <? n)%nat then
           pq ← getRequest2 j 0 q;
           let s := set_request_queue index pq.2 s in
           match pq.1 with
           | Some p => r ← deref h p; hit ← isRowHit r s; bs ← serve_flag index p hit s; Ok (false, bs)
           | None => Ok (we, (false, s))
           end
         else Ok (we, (false, s)));
    let '(we, (scheduled, s)) := x in
    ri ← vec_set ri index (if bool_decide (S j = getQueueSize q) then 0%nat else S j);
    Ok (if scheduled : bool then Stop (ri, we, s) () else Next (ri, we, s))
  else Ok (Next st).

(** A turn of the loop for row hits; the size that is tested is that of another
    requestor. *)
Definition hit_turn (index num : nat) (st : state) : res (flow state unit) :=
  let '(ri, we, s) := st in
  q ← request_queue index s;
  j ← vec_at ri index;
  n ← getSize true j q;
  if (0 <? n)%nat then
    pq ← getRequest2 num 0 q;
    let s := set_request_queue index pq.2 s in
    match pq.1 with
    | Some p =>
        r ← deref h p;
        hit ← isRowHit r s;
        bs ← (if hit : bool then serve_flag index p true s else Ok (false, s));
        Ok (if bs.1 : bool then Stop (ri, false, bs.2) () else Next (ri, false, bs.2))
    | None => Ok (Next (ri, we, s))
    end
  else Ok (Next st).

Definition read_visit (table : gmap Z bool) (index : nat) (st : state) : res (flow state unit) :=
  q ← request_queue index st.2;
  if isPerRequestor q then
    o ← forM (seq 0 (getQueueSize q)) st (λ _, critical_turn table index);
    match o with
    | Stop st u => Ok (Stop st u)
    | Next st => forM (seq 0 (getQueueSize q)) st (hit_turn index)
    end
  else Ok (Next st).

(** [getWrite(k)], [isSchedulable] and [popWrite(k)]; the row table is not
    updated. *)
Definition write_one (hit : bool) (k : nat) (w : WriteQueue) (s : RequestScheduler) : res (WriteQueue * RequestScheduler) :=
  p ← getWrite k w;
  r ← deref h p;
  bs ← isSchedulable r hit s;
  if bs.1 : bool then pw ← popWrite k w; Ok (pw.2, bs.2) else Ok (w, bs.2).

(** The loop over the write queue above its high watermark: the writes that hit
    their row. It compares the counter with the current size; every turn
    increments the counter. *)
Fixpoint write_hits (fuel k : nat) (w : WriteQueue) (s : RequestScheduler) : res (WriteQueue * RequestScheduler) :=
  match fuel with
  | O => Ok (w, s)
  | S fuel =>
      if (k <? wq_bufferSize w)%nat then
        p ← getWrite k w;
        r ← deref h p;
        hit ← isRowHit r s;
        ws ← (if hit : bool then write_one true k w s else Ok (w, s));
        write_hits fuel (S k) ws.1 ws.2
      else Ok (w, s)
  end.

(** [while (!lowWatermark()) ...]: every turn increments the index, which leaves
    the queue when it passes its size. *)
Fixpoint write_drain (fuel k : nat) (w : WriteQueue) (s : RequestScheduler) : res (WriteQueue * RequestScheduler) :=
  if lowWatermark w then Ok (w, s)
  else
    match fuel with
    | O => Err Undefined
    | S fuel =>
        p ← getWrite k w;
        r ← deref h p;
        hit ← isRowHit r s;
        ws ← write_one hit k w s;
        write_drain fuel (S k) ws.1 ws.2
    end.

Definition write_visit (index : nat) (s : RequestScheduler) : res RequestScheduler :=
  q ← request_queue index s;
  match writeQueue q with
  | None => Ok s
  | Some w =>
      ws ← (if highWatermark w then write_hits (wq_bufferSize w) 0 w s else Ok (w, s));
      ws ← write_drain (S (wq_bufferSize ws.1)) 0 ws.1 ws.2;
      Ok (set_request_queue index (set_writeQueue (Some ws.1) q) ws.2)
  end.

Definition requestSchedule (table : gmap Z bool) (ri : list nat) (s : RequestScheduler) : res (list nat * RequestScheduler) :=
  o ← forM (seq 0 (length (requestQueues s))) (ri, true, s) (read_visit table);
  match o with
  | Stop (ri, _, s) _ => Ok (ri, s)
  | Next (ri, we, s) =>
      if we : bool then s ← foldM (seq 0 (length (requestQueues s))) s write_visit; Ok (ri, s)
      else Ok (ri, s)
  end.
End MEDUSA.
End MEDUSA.

(** ** PipeCAS *)
Module PipeCAS.
Record PipeCAS := mkPipeCAS {
  bundlingType : RequestType;
  scheduledCmdQueue : list Z;
}.
Definition ctor : PipeCAS := mkPipeCAS DATA_READ [].

(** How many commands wait in the queue of a requestor. *)
Definition waiting (qs : list CommandQueue) (id : Z) : res nat :=
  q ← vec_at qs (Z.to_nat id); Ok (cq_getSize true q).

(** Its own [isSchedulable]: a critical request waits until all queues of the
    round hold two commands. Nothing is generated. *)
Definition isSchedulable (table : gmap Z bool) (qs : list CommandQueue) (a : PipeCAS) (r : Request) : res bool :=
  critical ← of_option OutOfRange (table !! requestorID r);
  if critical : bool then
    o ← forM (scheduledCmdQueue a) () (λ id _, n ← waiting qs id; Ok (if (n <? 2)%nat then Stop () () else Next ()));
    Ok (match o with Stop _ _ => false | Next _ => true end)
  else Ok true.

(** [newRound] and [firstACT]. *)
Definition round_state (qs : list CommandQueue) (a : PipeCAS) : res (bool * bool) :=
  foldM (scheduledCmdQueue a) (true, false) (λ id st,
    n ← waiting qs id;
    Ok (if (0 <? n)%nat then (false, if (n <? 2)%nat then true else st.2) else st)).

Definition visit (h : rheap) (table : gmap Z bool) (qs : list CommandQueue) (index : nat)
    (st : PipeCAS * RequestScheduler) : res (PipeCAS * RequestScheduler) :=
  let '(a, s) := st in
  n ← rs_bufferSize index s;
  if (0 <? n)%nat then
    ps ← scheduleFR h index s;
    p ← of_option Undefined ps.1;
    let s := ps.2 in
    r ← deref h p;
    if bool_decide (requestType r = bundlingType a) then
      _ ← isRowHit r s;
      b ← isSchedulable table qs a r;
      if b : bool then
        critical ← of_option OutOfRange (table !! requestorID r);
        s ← remove_from index (updateRowTable (rank r) (bank r) (row r) s);
        Ok (if critical : bool then mkPipeCAS (bundlingType a) (scheduledCmdQueue a ++ [requestorID r]) else a, s)
      else Ok (a, s)
    else Ok (a, s)
  else Ok st.

Definition requestSchedule (h : rheap) (table : gmap Z bool) (qs : list CommandQueue) (a : PipeCAS) (s : RequestScheduler)
    : res (PipeCAS * RequestScheduler) :=
  nf ← round_state qs a;
  let '(newRound, firstACT) := nf in
  let a := if newRound : bool then mkPipeCAS (bundlingType a) [] else a in
  if newRound || negb firstACT then
    foldM (seq 0 (length (requestQueues s))) (a, s) (visit h table qs)
  else Ok (mkPipeCAS DATA_WRITE (scheduledCmdQueue a), s).
End PipeCAS.

(** ** Instances *)
Section instances.
Context `{CommandGenerator}.

#[export] Instance PMC_scheduling : RequestScheduling PMC.PMC :=
  {| requestSchedule e a s := PMC.requestSchedule (env_heap e) a s |}.
Definition MCMC_scheduling (g : Z) : RequestScheduling MCMC.MCMC :=
  {| requestSchedule e a s := MCMC.requestSchedule (env_heap e) g (env_critical e) a s |}.
Definition MEDUSA_scheduling : RequestScheduling (list nat) :=
  {| requestSchedule e a s := MEDUSA.requestSchedule (env_heap e) (env_critical e) a s |}.
#[export] Instance PipeCAS_scheduling : RequestScheduling PipeCAS.PipeCAS :=
  {| requestSchedule e a s := PipeCAS.requestSchedule (env_heap e) (env_critical e) (env_commandQueues e) a s |}.
Definition RR_scheduling : RequestScheduling RR.RR :=
  {| requestSchedule e a s := RR.requestSchedule (env_heap e) isSchedulable (env_critical e) a s |}.
Definition RTMem_scheduling : RequestScheduling RR.RR :=
  {| requestSchedule e a s :=
       RR.requestSchedule (env_heap e) (rtmem_isSchedulable (env_commandQueues e)) (env_critical e) a s |}.
End instances.

(** ** The slots of PMC *)
Section pmc.
Context `{CommandGenerator}.
Implicit Types (a : PMC.PMC) (s : RequestScheduler).

(** A fetched request leaves the queues. *)
Lemma fetched_leaves i q p s s' :
  all_wf s → request_queue i s = Ok q → fetched q p → remove_from i s = Ok s' →
  all_requests s ≡ₚ p :: all_requests s' ∧ all_wf s'.
Proof.
  intros Hwf Hq Hf Hr. unfold remove_from in Hr. rewrite Hq in Hr. cbn [mbind res_bind] in Hr.
  apply bind_Ok in Hr as (q' & Hq' & Hr). injection Hr as <-. apply vec_at_Ok in Hq.
  destruct (Hf (Forall_lookup_1 _ _ _ _ Hwf Hq) q' Hq') as [Hw Hp].
  split; [by apply (insert_requests _ i q q' p)|]. by apply Forall_insert.
Qed.

Definition slots_of_47 a : Prop := Forall (eq 47) (PMC.timeSlot a).

Lemma pmc_turn h a s o :
  slots_of_47 a → all_wf s → PMC.turn h (a, s) = Ok o →
  match o with
  | Next (a', s') => slots_of_47 a' ∧ PMC.slotCounter a' = PMC.slotCounter a ∧ all_wf s' ∧ all_requests s' = all_requests s
  | Stop (a', s') _ => slots_of_47 a' ∧ PMC.slotCounter a' = 46 ∧ ∃ p, all_requests s ≡ₚ p :: all_requests s'
  end.
Proof.
  intros Ha Hwf Ht. unfold PMC.turn in Ht. apply bind_Ok in Ht as (slot & _ & Ht).
  apply bind_Ok in Ht as (q & Hq & Ht). apply bind_Ok in Ht as (n & _ & Ht). apply bind_Ok in Ht as ([x q1] & Hg & Ht).
  cbn [fst snd] in Ht. destruct x as [p|].
  - assert (getRequest2 (Z.to_nat slot) 0 q = Ok (Some p, q1)) as Hg2 by (by destruct (0 <? n)%nat).
    apply getRequest2_fetched in Hg2 as [Hl Hf].
    apply bind_Ok in Ht as (r & _ & Ht). apply bind_Ok in Ht as ([b s1] & Hb & Ht).
    unfold isSchedulable in Hb. apply bind_Ok in Hb as ([b1 g] & _ & Hb). injection Hb as <- <-. cbn [fst snd] in Ht.
    destruct b1; [|done]. apply bind_Ok in Ht as (s2 & Hr & Ht). apply bind_Ok in Ht as (t & Ht47%vec_at_Ok & Ht).
    injection Ht as <-. split; [exact Ha|].
    assert (t = 47) as -> by (symmetry; exact (Forall_lookup_1 _ _ _ _ Ha Ht47)). split; [done|]. exists p.
    set (s0 := set_request_queue 0 q1 s) in *.
    assert (same s s0) as Hs by (by eapply set_looked). pose proof (same_wf _ _ Hs Hwf) as Hwf0.
    rewrite <- (same_requests _ _ Hwf Hs).
    eapply (fetched_leaves 0 q1 p (set_generator g s0) s2); [exact Hwf0| |exact Hf|exact Hr].
    change (request_queue 0 s0 = Ok q1). by eapply set_looked_queue.
  - injection Ht as <-. assert (looked q q1) as Hl.
    { destruct (0 <? n)%nat; [|by injection Hg as <-]. unfold getRequest2 in Hg. apply bind_Ok in Hg as (id & _ & Hg).
      case_bool_decide; [by injection Hg as <-|]. by apply bind_Ok in Hg as (? & _ & Hg). }
    assert (same s (set_request_queue 0 q1 s)) as Hs by (by eapply set_looked).
    split_and!; [done|done|by eapply same_wf|by apply same_requests].
Qed.

(** Calls of the scheduler, with any queues: [n] calls so far took [k] requests
    out of the queues. *)
Inductive pmc_calls (h : nat → rheap) : nat → nat → PMC.PMC → Prop :=
| pc_init : pmc_calls h 0 0 PMC.ctor
| pc_call n k a s a' s' :
    pmc_calls h n k a → all_wf s → PMC.requestSchedule (h n) a s = Ok (a', s') →
    pmc_calls h (S n) (k + (length (all_requests s) - length (all_requests s'))) a'.

(** [PMC] takes at most one request per slot of 47 cycles, whatever waits in
    the queues: in [n] calls at most [(n + 46) / 47]. *)
Theorem PMC_one_per_slot h n k a : pmc_calls h n k a → (k ≤ (n + 46) / 47)%nat.
Proof.
  intros Hc. enough (slots_of_47 a ∧ 0 ≤ PMC.slotCounter a ≤ 46 ∧ Z.of_nat k * 47 ≤ Z.of_nat n + PMC.slotCounter a)
    as (_ & ? & ?) by (apply Nat.div_le_lower_bound; lia).
  induction Hc as [|n k a s a' s' _ (I1 & I2 & I3) Hwf Hr]; [split_and!; [constructor|done..]|].
  unfold PMC.requestSchedule in Hr. set (a1 := PMC.first_cycle s a) in Hr.
  assert (slots_of_47 a1 ∧ PMC.slotCounter a1 = PMC.slotCounter a) as [J1 J2].
  { unfold a1, PMC.first_cycle. destruct (bool_decide (rs_clock s = 1)); (split; [|reflexivity]); [by repeat constructor|exact I1]. }
  rewrite J2 in Hr. case_bool_decide as Hz.
  - apply bind_Ok in Hr as (o & Hl & Hr).
    apply (forM_inv (λ st, slots_of_47 st.1 ∧ PMC.slotCounter st.1 = PMC.slotCounter a1 ∧ all_wf st.2 ∧
        all_requests st.2 = all_requests s)
      (λ st _, slots_of_47 st.1 ∧ PMC.slotCounter st.1 = 46 ∧ ∃ p, all_requests s ≡ₚ p :: all_requests st.2)) in Hl;
      [|done|].
    + destruct o as [[a2 s2]|[a2 s2] u]; injection Hr as <- <-; simpl in Hl.
      * destruct Hl as (K1 & K2 & _ & K4). rewrite K4, K2, J2. split_and!; [done|lia..].
      * destruct Hl as (K1 & K2 & p & K3). apply Permutation_length in K3. simpl in K3. rewrite K2, K3.
        split_and!; [done|lia..].
    + intros i [a2 s2] o2 _ (K1 & K2 & K3 & K4) Hturn. simpl in *. apply pmc_turn in Hturn; [|done|done].
      destruct o2 as [[a3 s3]|[a3 s3] u]; simpl; rewrite <- K4, <- ?K2; tauto.
  - rewrite bool_decide_true in Hr by lia. injection Hr as <- <-. simpl. split_and!; [exact J1|lia..].
Qed.

(** [PMC] visits eight requestors: with fewer in the request queue, the turn of
    a missing one reads [requestorOrder] behind its end. *)
Theorem PMC_needs_eight h a s q j :
  PMC.slotCounter a = 0 → rs_clock s ≠ 1 → PMC.scheduleSlot a !! PMC.requestorIndex a = Some j →
  request_queue 0 s = Ok q → requestorOrder q ≠ [] → (length (requestorOrder q) ≤ Z.to_nat j)%nat →
  PMC.requestSchedule h a s = Err Undefined.
Proof.
  intros Hslot Hclk Hj Hq Hne Hlen. unfold PMC.requestSchedule, PMC.first_cycle. rewrite (bool_decide_false (rs_clock s = 1)) by done.
  rewrite bool_decide_true by done.
  assert (PMC.turn h (a, s) = Err Undefined) as Ht.
  { unfold PMC.turn. rewrite (proj2 (vec_at_Ok _ _ _) Hj), Hq. cbn [mbind res_bind]. unfold getSize.
    rewrite bool_decide_false by (intros ?%length_zero_iff_nil; done). unfold vec_at.
    rewrite (lookup_ge_None_2 _ _ Hlen). reflexivity. }
  destruct (PMC.scheduleSlot a); [done|]. cbn [length seq forM]. by rewrite Ht.
Qed.
End pmc.

(** ** The draining of MEDUSA *)

Section medusa.
Context `{CommandGenerator}.
Variable h : rheap.

(** One turn of the loop: the write at the index is generated and popped. *)
Lemma drain_turn fuel k w s p r hit g' :
  lowWatermark w = false → wq_items w !! k = Some p → h !! p = Some r → isRowHit r s = Ok hit →
  commandGenerate r hit (rs_generator s) = Ok (true, g') →
  MEDUSA.write_drain h (S fuel) k w s =
    MEDUSA.write_drain h fuel (S k) (mkWriteQueue (lowwatermark w) (highwatermark w) (delete k (wq_items w))) (set_generator g' s).
Proof.
  intros Hw Hk Hr Hhit Hg. cbn [MEDUSA.write_drain]. rewrite Hw. unfold getWrite at 1.
  rewrite (proj2 (vec_at_Ok _ _ _) Hk). cbn [mbind res_bind]. rewrite (proj2 (deref_Ok _ _ _) Hr). cbn [mbind res_bind].
  rewrite Hhit. cbn [mbind res_bind]. unfold MEDUSA.write_one, getWrite. rewrite (proj2 (vec_at_Ok _ _ _) Hk).
  cbn [mbind res_bind]. rewrite (proj2 (deref_Ok _ _ _) Hr). cbn [mbind res_bind]. unfold isSchedulable. rewrite Hg.
  cbn [mbind res_bind fst snd]. unfold popWrite, removeWrite, vec_erase. rewrite (proj2 (vec_at_Ok _ _ _) Hk).
  rewrite decide_True by (by eapply lookup_lt_Some). reflexivity.
Qed.

Lemma drain_leaves fuel k w s :
  lowWatermark w = false → (length (wq_items w) ≤ k)%nat → MEDUSA.write_drain h (S fuel) k w s = Err Undefined.
Proof.
  intros Hw Hk. cbn [MEDUSA.write_drain]. rewrite Hw. unfold getWrite at 1, vec_at at 1.
  by rewrite (lookup_ge_None_2 _ _ Hk).
Qed.

(** The writes can be generated: they are live, the row table can tell whether
    they hit, and the generator accepts them. *)
Definition writable (w : WriteQueue) (s : RequestScheduler) : Prop :=
  ∀ p, p ∈ wq_items w → ∃ r, h !! p = Some r ∧ (∃ hit, isRowHit r s = Ok hit) ∧
    ∀ hit g, ∃ g', commandGenerate r hit g = Ok (true, g').

Lemma drain_from m k fuel w s :
  lowwatermark w = 4 → writable w s → length (wq_items w) = m → (m < fuel)%nat →
  if decide (m < 4 ∨ m + k < 8)%nat then
    ∃ w' s', MEDUSA.write_drain h fuel k w s = Ok (w', s') ∧ length (wq_items w') = Nat.min m 3
  else MEDUSA.write_drain h fuel k w s = Err Undefined.
Proof.
  revert k fuel w s. induction m as [|m IH]; intros k fuel w s Hlow Hitems Hlen Hf; (destruct fuel as [|fuel]; [lia|]).
  all: assert (lowWatermark w = bool_decide (length (wq_items w) < 4)%nat) as Hlw
    by (unfold lowWatermark; apply bool_decide_ext; lia); rewrite Hlen in Hlw.
  - rewrite decide_True by lia. cbn [MEDUSA.write_drain]. rewrite Hlw, bool_decide_true by lia. exists w, s. split; [done|lia].
  - destruct (decide (S m < 4)%nat) as [Hm|Hm].
    { rewrite decide_True by lia. cbn [MEDUSA.write_drain]. rewrite Hlw, bool_decide_true by lia. exists w, s. split; [done|lia]. }
    rewrite bool_decide_false in Hlw by lia. destruct (wq_items w !! k) as [p|] eqn:Hk.
    + destruct (Hitems p) as (r & Hr & [hit Hhit] & Hgen); [by eapply list_elem_of_lookup_2|].
      destruct (Hgen hit (rs_generator s)) as [g' Hg]. rewrite (drain_turn _ _ _ _ _ _ _ _ Hlw Hk Hr Hhit Hg).
      apply lookup_lt_Some in Hk as Hlt. replace (Nat.min (S m) 3) with (Nat.min m 3) by lia.
      specialize (IH (S k) fuel (mkWriteQueue (lowwatermark w) (highwatermark w) (delete k (wq_items w))) (set_generator g' s)).
      destruct (decide (S m < 4 ∨ S m + k < 8)%nat), (decide (m < 4 ∨ m + S k < 8)%nat); try lia;
        apply IH; try done; simpl; try lia; try (rewrite length_delete by (by exists p); lia);
        intros p' Hp'; apply Hitems; by eapply elem_of_submseteq, submseteq_delete.
    + apply lookup_ge_None in Hk. rewrite decide_False by lia. apply drain_leaves; [done|lia].
Qed.

(** [while (!lowWatermark()) ...] in MEDUSA: with a low watermark of four, fewer
    than eight writes are drained to the three that remain; with eight or more
    the index, which moves on while the queue shrinks, leaves the queue. *)
Theorem MEDUSA_write_drain w s :
  lowwatermark w = 4 → writable w s →
  if decide (length (wq_items w) < 8)%nat then
    ∃ w' s', MEDUSA.write_drain h (S (wq_bufferSize w)) 0 w s = Ok (w', s') ∧
      length (wq_items w') = Nat.min (length (wq_items w)) 3
  else MEDUSA.write_drain h (S (wq_bufferSize w)) 0 w s = Err Undefined.
Proof.
  intros Hlow Hitems. pose proof (drain_from _ 0 (S (wq_bufferSize w)) w s Hlow Hitems eq_refl (Nat.lt_succ_diag_r _)) as Hd.
  destruct (decide (length (wq_items w) < 8)%nat).
  - by rewrite decide_True in Hd by lia.
  - by rewrite decide_False in Hd by lia.
Qed.
End medusa.

(** ** What PipeCAS takes is lost *)
Section pipecas.
Context `{CommandGenerator}.

Lemma pipecas_generator h table qs a s a' s' :
  PipeCAS.requestSchedule h table qs a s = Ok (a', s') → rs_generator s' = rs_generator s.
Proof.
  unfold PipeCAS.requestSchedule. intros Hr. apply bind_Ok in Hr as ([nr fa] & _ & Hr).
  destruct (nr || negb fa); [|by injection Hr as _ <-]. revert Hr.
  set (a1 := if nr then _ else _). intros Hr.
  apply (foldM_inv (λ st, rs_generator st.2 = rs_generator s)) in Hr; [exact Hr|done|].
  intros i [a2 s2] [a3 s3] _ Hg Hv. unfold PipeCAS.visit in Hv. simpl in Hg |- *.
  apply bind_Ok in Hv as (n & _ & Hv). destruct (0 <? n)%nat; [|by injection Hv as _ <-].
  apply bind_Ok in Hv as ([o s4] & Hf & Hv). apply (scheduleFR_fetched h) in Hf as [[Hsm _ _] _]. cbn [fst snd] in Hv.
  apply bind_Ok in Hv as (p & _ & Hv). apply bind_Ok in Hv as (r & _ & Hv).
  case_bool_decide; [|injection Hv as _ <-; congruence].
  apply bind_Ok in Hv as (hit & _ & Hv). apply bind_Ok in Hv as ([] & _ & Hv); [|injection Hv as _ <-; congruence].
  apply bind_Ok in Hv as (c & _ & Hv). apply bind_Ok in Hv as (s5 & Hs & Hv). injection Hv as _ <-.
  unfold remove_from in Hs. apply bind_Ok in Hs as (q & _ & Hs). apply bind_Ok in Hs as (q' & _ & Hs).
  injection Hs as <-. simpl. congruence.
Qed.

(** The request scheduler [PipeCAS] loses requests: the only read in a queue
    leaves it in the next call, and no command of it is generated; nothing else
    holds it for the schedulers any more. *)
Theorem PipeCAS_loses_request h table qs s q p r c hit :
  requestQueues s = [q] → generalBuffer q = [p] → h !! p = Some r → requestType r = DATA_READ →
  table !! requestorID r = Some c → isRowHit r s = Ok hit →
  ∃ a' s' q', PipeCAS.requestSchedule h table qs PipeCAS.ctor s = Ok (a', s') ∧
    requestQueues s' = [q'] ∧ generalBuffer q' = [] ∧ rs_generator s' = rs_generator s.
Proof.
  intros Hqs Hbuf Hr Hty Hc Hhit.
  assert (∃ a' s' q', PipeCAS.requestSchedule h table qs PipeCAS.ctor s = Ok (a', s') ∧
    requestQueues s' = [q'] ∧ generalBuffer q' = []) as (a' & s' & q' & E & E1 & E2).
  { unfold PipeCAS.requestSchedule. cbn [PipeCAS.round_state PipeCAS.scheduledCmdQueue PipeCAS.ctor foldM].
    unfold PipeCAS.round_state. cbn [PipeCAS.scheduledCmdQueue PipeCAS.ctor foldM mbind res_bind orb negb].
    rewrite Hqs. cbn [length seq foldM]. unfold PipeCAS.visit, rs_bufferSize, scheduleFR, request_queue. rewrite Hqs.
    cbn [vec_at lookup list_lookup of_option mbind res_bind]. unfold getSize. rewrite Hbuf.
    cbn [mbind res_bind mret res_ret length]. change (0 <? 1)%nat with true. cbn iota. cbn [seq forM].
    unfold getRequestCheck. rewrite Hbuf. rewrite bool_decide_false by done. cbn [vec_at lookup list_lookup of_option mbind res_bind mret res_ret].
    unfold deref. rewrite Hr. cbn [of_option mbind res_bind]. rewrite Hhit. cbn [mbind res_bind].
    unfold getRequest. rewrite Hbuf, bool_decide_false by done. destruct hit;
      cbn [vec_at lookup list_lookup of_option mbind res_bind mret res_ret fst snd forM];
      rewrite Hr; cbn [of_option mbind res_bind]; rewrite bool_decide_true by done;
      (assert (isRowHit r (set_request_queue 0 (set_scheduledRequest (false, (0, 0%nat)) q) s) = isRowHit r s) as -> by done);
      rewrite Hhit; cbn [mbind res_bind]; unfold PipeCAS.isSchedulable; rewrite Hc;
      cbn [PipeCAS.scheduledCmdQueue PipeCAS.ctor forM mbind res_bind of_option];
      (assert ((if c then Ok true else Ok true) = Ok true) as -> by (by destruct c)); cbn [mbind res_bind];
      unfold remove_from, request_queue; simpl; rewrite Hqs; simpl; unfold removeRequest; simpl; rewrite Hbuf; simpl;
      unfold set_request_queue; simpl; rewrite Hqs; simpl; eauto 10. }
  exists a', s', q'. split_and!; [done..|]. by eapply pipecas_generator.
Qed.
End pipecas.

(** ** Witnesses *)
#[local] Existing Instance Open_generator.

(** A queue per requestor with eight requestors, and a request of requestor 0. *)
Definition wit_eight : RequestQueue :=
  set_requestorBuffer (<[0 := [1%positive]]> (list_to_map ((λ id, (id, [])) <$> [1; 2; 3; 4; 5; 6; 7])))
    [0; 1; 2; 3; 4; 5; 6; 7] (RequestQueue_ctor true false).
Definition wit_slots : RequestScheduler := RequestScheduler_ctor false [wit_eight] (CommandGenerator_ctor 64).
Definition wit_pmc : PMC.PMC * RequestScheduler :=
  match PMC.requestSchedule wit_rs_heap PMC.ctor wit_slots with Ok x => x | Err _ => (PMC.ctor, wit_slots) end.

Lemma wit_slots_wf : all_wf wit_slots.
Proof.
  constructor; [|constructor]. split; [|done]. split.
  - repeat (constructor; [set_solver|]). constructor.
  - intros id. simpl. split.
    + intros Hid. set_unfold. destruct Hid as [->|[->|[->|[->|[->|[->|[->|[->|[]]]]]]]]]; vm_compute; by eexists.
    + intros [l Hl]. simpl in Hl. repeat (apply lookup_insert_Some in Hl as [[<- _]|[_ Hl]]; [set_solver|]). done.
Qed.

(** The first call takes the request: one request in one call. *)
Lemma PMC_one_per_slot_witness :
  (length (all_requests wit_slots) - length (all_requests wit_pmc.2) = 1)%nat ∧
  (0 + (length (all_requests wit_slots) - length (all_requests wit_pmc.2)) ≤ (1 + 46) / 47)%nat.
Proof.
  split; [vm_compute; reflexivity|].
  apply (PMC_one_per_slot (λ _, wit_rs_heap) 1 _ wit_pmc.1).
  apply (pc_call (λ _, wit_rs_heap) 0 0 PMC.ctor wit_slots wit_pmc.1 wit_pmc.2); [constructor|exact wit_slots_wf|].
  unfold wit_pmc. destruct (PMC.requestSchedule wit_rs_heap PMC.ctor wit_slots) as [[a s]|] eqn:E; [done|].
  assert (is_Ok (PMC.requestSchedule wit_rs_heap PMC.ctor wit_slots) = true) as H by (vm_compute; reflexivity).
  rewrite E in H. discriminate H.
Defined.

(** Three requestors: slot 3 is behind the end. *)
Lemma PMC_needs_eight_witness :
  PMC.requestSchedule wit_rs_heap (PMC.mkPMC 3 0 [0; 1; 2; 3; 4; 5; 6; 7] (replicate 8 47))
    (rs_step (RequestScheduler_ctor false
      [set_requestorBuffer (<[0 := []]> (<[1 := []]> (<[2 := []]> ∅))) [0; 1; 2] (RequestQueue_ctor true false)]
      (CommandGenerator_ctor 64))) = Err Undefined.
Proof.
  eapply (PMC_needs_eight wit_rs_heap _ _ _ 3).
  - reflexivity.
  - vm_compute. discriminate.
  - reflexivity.
  - reflexivity.
  - discriminate.
  - vm_compute. lia.
Defined.

(** Eight writes overrun the queue. *)
Definition wit_writes : WriteQueue := mkWriteQueue 4 10 (replicate 8 1%positive).

Lemma MEDUSA_write_drain_witness :
  @MEDUSA.write_drain Close_generator wit_rs_heap (S (wq_bufferSize wit_writes)) 0 wit_writes wit_slots = Err Undefined.
Proof.
  apply (@MEDUSA_write_drain Close_generator wit_rs_heap wit_writes wit_slots).
  - reflexivity.
  - intros p [-> _]%elem_of_replicate. exists (wit_rs_req 0 4). split; [vm_compute; reflexivity|]. split.
    + exists false. vm_compute. reflexivity.
    + intros hit g. simpl. unfold Close.commandGenerate. destruct (lookup_size _ _). by eexists.
Defined.

(** The only read of a queue is taken, and nothing generated. *)
Lemma PipeCAS_loses_request_witness :
  ∃ a' s' q', PipeCAS.requestSchedule wit_rs_heap (<[0 := true]> ∅) [] PipeCAS.ctor
      (RequestScheduler_ctor false [wit_rs_queue 1] (CommandGenerator_ctor 64)) = Ok (a', s') ∧
    requestQueues s' = [q'] ∧ generalBuffer q' = [] ∧ rs_generator s' = CommandGenerator_ctor 64.
Proof.
  apply (PipeCAS_loses_request wit_rs_heap (<[0 := true]> ∅) []
    (RequestScheduler_ctor false [wit_rs_queue 1] (CommandGenerator_ctor 64)) (wit_rs_queue 1) 1%positive (wit_rs_req 0 4) true false).
  - reflexivity.
  - reflexivity.
  - vm_compute. reflexivity.
  - reflexivity.
  - vm_compute. reflexivity.
  - vm_compute. reflexivity.
Defined.
