(* ===== verification/ClockDomain.v ===== *)
(** * Crossing clock domains

    [ClockDomainCrosser] (src/src/ClockDomain.cpp, ClockDomain.h): calls back the
    memory system [clock1 / clock2] times per update, over time, with two
    counters of [uint64_t].

    Main result: after [n] updates the callback was made exactly
    [n * clock1 / clock2] times, rounded up; in particular every update
    terminates. *)
From S2P Require Import Prelude.

Record ClockDomainCrosser := mkCrosser {
  clock1 : Z;
  clock2 : Z;
  counter1 : Z;
  counter2 : Z;
}.

Definition ClockDomainCrosser_ctor (c1 c2 : Z) : ClockDomainCrosser := mkCrosser c1 c2 0 0.

(** The loop that adds [clock2] to [counter2] and calls back while [counter2] is
    below [counter1], from [counter2] = [k], with the number of callbacks; [None] when [fuel] runs out. *)
Fixpoint catch_up (fuel : nat) (clock2 counter1 k : Z) : option (nat * Z) :=
  if k <? counter1 then
    match fuel with
    | O => None
    | S fuel => nk ← catch_up fuel clock2 counter1 (u64 (k + clock2)); Some (S nk.1, nk.2)
    end
  else Some (0%nat, k).

(** [update] with a callback: the number of times it is called. *)
Definition crosser_update (fuel : nat) (x : ClockDomainCrosser) : option (nat * ClockDomainCrosser) :=
  if clock1 x =? clock2 x then Some (1%nat, x)
  else
    let c1 := u64 (counter1 x + clock1 x) in
    nk ← catch_up fuel (clock2 x) c1 (counter2 x);
    Some (nk.1, if c1 =? nk.2 then mkCrosser (clock1 x) (clock2 x) 0 0
                else mkCrosser (clock1 x) (clock2 x) c1 nk.2).

(** [n] updates. *)
Fixpoint crosser_updates (fuel n : nat) (x : ClockDomainCrosser) : option (nat * ClockDomainCrosser) :=
  match n with
  | O => Some (0%nat, x)
  | S n =>
      kx ← crosser_updates fuel n x;
      ky ← crosser_update fuel kx.2;
      Some ((kx.1 + ky.1)%nat, ky.2)
  end.

(** The loop makes the least number of steps that reach [counter1]. *)
Lemma catch_up_spec fuel c2 c1 k :
  0 < c2 → 0 ≤ k → c1 + c2 < 2 ^ 64 → (Z.to_nat (c1 - k) ≤ fuel)%nat →
  ∃ n k', catch_up fuel c2 c1 k = Some (n, k') ∧ k' = k + Z.of_nat n * c2 ∧
    ((n = 0%nat ∧ c1 ≤ k) ∨ c1 ≤ k' < c1 + c2).
Proof.
  intros Hc2. revert k. induction fuel as [|fuel IH]; intros k Hk Hb Hf; simpl;
    destruct (Z.ltb_spec k c1) as [Hlt|Hge]; try lia.
  - exists 0%nat, k. split_and!; [done|lia|lia].
  - rewrite u64_small by lia. destruct (IH (k + c2)) as (n & k' & -> & -> & H); [lia..|].
    exists (S n), (k + c2 + Z.of_nat n * c2). simpl. split_and!; [done|lia|].
    right. destruct H as [[-> H]|H]; [simpl; lia|lia].
  - exists 0%nat, k. split_and!; [done|lia|lia].
Qed.

(** What the counters say after [n] updates and [k] callbacks: [k] is
    [n * clock1 / clock2] rounded up. *)
Record ahead (c1 c2 : Z) (n : nat) (k : nat) (x : ClockDomainCrosser) : Prop := {
  ah_clock1 : clock1 x = c1;
  ah_clock2 : clock2 x = c2;
  ah_range : 0 ≤ counter1 x ≤ Z.of_nat n * c1;
  ah_diff : counter2 x - counter1 x = Z.of_nat k * c2 - Z.of_nat n * c1;
  ah_gap : 0 ≤ counter2 x - counter1 x < c2;
}.

Lemma update_ahead fuel c1 c2 n k x :
  0 < c1 → 0 < c2 → Z.of_nat (S n) * c1 + c2 < 2 ^ 64 → (Z.to_nat (Z.of_nat (S n) * c1) ≤ fuel)%nat →
  ahead c1 c2 n k x → ∃ j x', crosser_update fuel x = Some (j, x') ∧ ahead c1 c2 (S n) (k + j) x'.
Proof.
  intros H1 H2 Hb Hf [E1 E2 Hr Hd Hg]. unfold crosser_update. rewrite E1, E2.
  destruct (Z.eqb_spec c1 c2) as [->|Hne].
  - exists 1%nat, x. split; [done|]. split; [done|done|nia|nia|lia].
  - rewrite u64_small by nia.
    destruct (catch_up_spec fuel c2 (counter1 x + c1) (counter2 x)) as (j & k' & -> & -> & Hj); [lia|lia|nia|nia|].
    simpl. eexists j, _. split; [done|].
    destruct (Z.eqb_spec (counter1 x + c1) (counter2 x + Z.of_nat j * c2)) as [E|E];
      (split; simpl; [done|done|nia|nia|]); [lia|]. destruct Hj as [[-> Hj]|Hj]; lia.
Qed.

(** C38. From the start, [n] updates with positive clock rates terminate and make
    the callback [n * clock1 / clock2] times, rounded up, as long as the counters
    cannot wrap. *)
Theorem crosser_ratio fuel n c1 c2 :
  0 < c1 → 0 < c2 → Z.of_nat n * c1 + c2 < 2 ^ 64 → (Z.to_nat (Z.of_nat n * c1) ≤ fuel)%nat →
  ∃ k x, crosser_updates fuel n (ClockDomainCrosser_ctor c1 c2) = Some (k, x) ∧
    (Z.of_nat k - 1) * c2 < Z.of_nat n * c1 ≤ Z.of_nat k * c2.
Proof.
  intros H1 H2 Hb Hf.
  assert (∃ k x, crosser_updates fuel n (ClockDomainCrosser_ctor c1 c2) = Some (k, x) ∧ ahead c1 c2 n k x)
    as (k & x & -> & [_ _ _ Hd Hg]).
  { induction n as [|n IH]; [eexists 0%nat, _; split; [done|]; split; simpl; lia|].
    destruct IH as (k & x & Hx & Ha); [nia|nia|]. cbn [crosser_updates]. rewrite Hx. simpl.
    destruct (update_ahead fuel c1 c2 n k x) as (j & x' & Hj & Ha'); [done..|].
    rewrite Hj. simpl. by exists (k + j)%nat, x'. }
  exists k, x. split; [done|]. nia.
Qed.

(** Without a second clock the loop does not end: no fuel is enough. *)
Lemma catch_up_stuck fuel c1 k : 0 ≤ k < 2 ^ 64 → k < c1 → catch_up fuel 0 c1 k = None.
Proof.
  intros Hk Hlt. induction fuel as [|fuel IH]; simpl; destruct (Z.ltb_spec k c1); try lia; [done|].
  rewrite Z.add_0_r, u64_small by done. by rewrite IH.
Qed.

(** Three memory cycles for two processor cycles. *)
Lemma crosser_ratio_witness :
  ∃ k x, crosser_updates 1000 7 (ClockDomainCrosser_ctor 3 2) = Some (k, x) ∧
    (Z.of_nat k - 1) * 2 < 7 * 3 ≤ Z.of_nat k * 2.
Proof. apply (crosser_ratio 1000 7 3 2); [lia|lia|lia|vm_compute; lia]. Defined.
