(* ===== verification/Config.v ===== *)
(** * Configuration of a memory controller

    The part of [MemoryController] (src/src/MemoryController.cpp,
    MemoryController.h) that reads the configuration file ([readConfigFile],
    [SetKey], [convertNumber], [isNumeric], [setQueue]) and the two functions
    that interpret the organisation of the queues ([queueNumber], [decodeQueue]).

    Main results: a line of a key, a value, blanks and a comment gives back the
    key and the value; the queue [decodeQueue] computes from coordinates in range
    exists, so [requestQueue[queueIndex]] is in bounds; and the numbering is
    injective in the coordinate of the level that has queues, but not in the ones
    above it. *)
From Stdlib Require Import Ascii String.
From S2P Require Import Prelude Types.
#[local] Open Scope Z_scope.

(** ** Strings of the standard library *)

(** [s.find_first_of(c)]: the first position of a character. *)
Fixpoint find_first_of (c : ascii) (s : string) : option nat :=
  match s with
  | EmptyString => None
  | String x s => if Ascii.eqb x c then Some 0%nat else S <$> find_first_of c s
  end.

(** [s.find_last_not_of(cs)]: the last position of a character not in [cs]. *)
Fixpoint find_last_not_of (cs : list ascii) (s : string) : option nat :=
  match s with
  | EmptyString => None
  | String x s =>
      match find_last_not_of cs s with
      | Some n => Some (S n)
      | None => if bool_decide (x ∈ cs) then None else Some 0%nat
      end
  end.

(** The lines [getline] returns until the stream is at its end: there is one
    after every newline, the empty one after the last newline included. *)
Definition newline : ascii := "010".
Fixpoint lines (s : string) : list string :=
  match s with
  | EmptyString => [EmptyString]
  | String x s =>
      if Ascii.eqb x newline then EmptyString :: lines s
      else match lines s with l :: ls => String x l :: ls | [] => [String x EmptyString] end
  end.

Definition is_digit (c : ascii) : bool := bool_decide (48 ≤ nat_of_ascii c ≤ 57)%nat.
Definition digit_value (c : ascii) : Z := Z.of_nat (nat_of_ascii c) - 48.

Definition isNumeric (input : string) : bool := forallb is_digit (list_ascii_of_string input).

(** [ss >> intValue] on a string of digits: too large a number gives the largest
    [unsigned], no digit gives 0. *)
Definition read_unsigned (input : string) : Z :=
  Z.min (foldl (λ n c, 10 * n + digit_value c) 0 (list_ascii_of_string input)) (2 ^ 32 - 1).

Definition convertNumber (input : string) : Z := if isNumeric input then read_unsigned input else 0.

Definition setQueue (queueOrg : string) (queueMap : list Z) : list Z :=
  queueMap ++ ((λ c, if Ascii.eqb c "1" then 1 else 0) <$> list_ascii_of_string queueOrg).

(** ** The configuration *)
Record Config := mkConfig {
  reqMap : list Z;
  writeQueueEnabled : bool;
  requestorReqQ : bool;
  cmdMap : list Z;
  requestorCmdQ : bool;
  configTable : gmap string string;
}.

Definition truth (n : Z) : bool := negb (bool_decide (n = 0)).

Definition SetKey (key valueString : string) (c : Config) : Config :=
  if bool_decide (key = "RequestQueue"%string) then
    mkConfig (setQueue valueString (reqMap c)) (writeQueueEnabled c) (requestorReqQ c) (cmdMap c) (requestorCmdQ c) (configTable c)
  else if bool_decide (key = "WriteQueue"%string) then
    mkConfig (reqMap c) (truth (convertNumber valueString)) (requestorReqQ c) (cmdMap c) (requestorCmdQ c) (configTable c)
  else if bool_decide (key = "ReqPerREQ"%string) then
    mkConfig (reqMap c) (writeQueueEnabled c) (truth (convertNumber valueString)) (cmdMap c) (requestorCmdQ c) (configTable c)
  else if bool_decide (key = "CommandQueue"%string) then
    mkConfig (reqMap c) (writeQueueEnabled c) (requestorReqQ c) (setQueue valueString (cmdMap c)) (requestorCmdQ c) (configTable c)
  else if bool_decide (key = "CmdPerREQ"%string) then
    mkConfig (reqMap c) (writeQueueEnabled c) (requestorReqQ c) (cmdMap c) (truth (convertNumber valueString)) (configTable c)
  else
    mkConfig (reqMap c) (writeQueueEnabled c) (requestorReqQ c) (cmdMap c) (requestorCmdQ c) (<[key := valueString]> (configTable c)).

(** The text of a line in front of a comment, without the blanks at its end. A
    line of nothing but blanks keeps them. *)
Definition cut_comment (line : string) : string :=
  match find_first_of ";" line with Some i => substring 0 i line | None => line end.
Definition cut_blanks (line : string) : string :=
  match find_last_not_of [" "; "009"]%char line with
  | Some i => substring 0 (i + 1) line
  | None => line
  end.

(** One turn of the loop of [readConfigFile]: the key and the value, or nothing
    for a line that is empty or starts with a comment. *)
Definition parse_line (line : string) : res (option (string * string)) :=
  if bool_decide (line = EmptyString) then Ok None
  else if bool_decide (find_first_of ";" line = Some 0%nat) then Ok None
  else
    let line := cut_blanks (cut_comment line) in
    match find_first_of "=" line with
    | None => Err Abort
    | Some i =>
        Ok (Some (substring 0 i line, substring (i + 1) (String.length line - i) line))
    end.

(** [readConfigFile] on the contents of a file, [None] when it cannot be opened. *)
Definition readConfigFile (file : option string) (c : Config) : res Config :=
  match file with
  | None => Ok c
  | Some text =>
      foldM (lines text) c (λ line c,
        kv ← parse_line line;
        Ok match kv with Some (key, value) => SetKey key value c | None => c end)
  end.

(** Before the file is read: the three switches hold what the memory held. *)
Definition Config_ctor (b : bool) : Config := mkConfig [] b b [] b ∅.

(** ** Numbering of the queues *)

(** The first level of the organisation that has queues of its own. *)
Definition queue_level (queueMap : list Z) : option nat := fst <$> list_find (eq 1) queueMap.

(** [queueNumber]: the product of [memTable[0 .. index]]. *)
Definition queueNumber (memTable queueMap : list Z) : res Z :=
  match queue_level queueMap with
  | None => Ok 1
  | Some index => foldM (seq 0 (S index)) 1 (λ n count, m ← vec_at memTable n; Ok (u32 (count * m)))
  end.

(** The inner loop of [decodeQueue] over the coordinates above the level. *)
Definition level_step (addressMap : list Z) (n : nat) (level : Z) : res Z :=
  a ← vec_at addressMap n;
  Ok (if bool_decide (0 < a) then if bool_decide (level = 0) then a else u32 (level * a) else level).

Definition decodeQueue (memTable addressMap queueMap : list Z) : res Z :=
  match queue_level queueMap with
  | None => Ok 0
  | Some index =>
      queueIndex ← vec_at addressMap index;
      level ← foldM (seq 0 index) 0 (level_step addressMap);
      m ← vec_at memTable index;
      Ok (u32 (queueIndex + u32 (level * m)))
  end.

(** ** Lines *)
Lemma string_app_cons x a b : String x a +:+ b = String x (a +:+ b).
Proof. done. Qed.
Lemma string_app_empty b : EmptyString +:+ b = b.
Proof. done. Qed.

Lemma string_app_nil s : s +:+ EmptyString = s.
Proof. induction s as [|x s IH]; [done|]. by rewrite string_app_cons, IH. Qed.

Lemma string_app_assoc' a b c : a +:+ (b +:+ c) = (a +:+ b) +:+ c.
Proof. induction a as [|x a IH]; [done|]. by rewrite !string_app_cons, IH. Qed.

Lemma find_first_of_here c a b :
  find_first_of c a = None → find_first_of c (a +:+ String c b) = Some (String.length a).
Proof.
  induction a as [|x a IH]; rewrite ?string_app_empty, ?string_app_cons; simpl; [by rewrite Ascii.eqb_refl|].
  destruct (Ascii.eqb x c); [done|]. intros Ha%fmap_None. by rewrite IH.
Qed.

Lemma find_first_of_app c a b :
  find_first_of c a = None → find_first_of c (a +:+ b) = Nat.add (String.length a) <$> find_first_of c b.
Proof.
  induction a as [|x a IH]; rewrite ?string_app_empty, ?string_app_cons; simpl; [by destruct (find_first_of c b)|].
  destruct (Ascii.eqb x c); [done|]. intros Ha%fmap_None. rewrite IH by done. by destruct (find_first_of c b).
Qed.

Lemma substring_prefix a b : substring 0 (String.length a) (a +:+ b) = a.
Proof. induction a as [|x a IH]; rewrite ?string_app_empty, ?string_app_cons; simpl; [by destruct b|]. by rewrite IH. Qed.

Lemma substring_all n b : (String.length b ≤ n)%nat → substring 0 n b = b.
Proof.
  revert n. induction b as [|x b IH]; intros [|n] Hn; simpl in *; try done; [lia|]. rewrite IH by lia. done.
Qed.

Lemma substring_suffix a b n :
  (String.length b ≤ n)%nat → substring (String.length a) n (a +:+ b) = b.
Proof. intros Hn. induction a as [|x a IH]; rewrite ?string_app_empty, ?string_app_cons; simpl; [by apply substring_all|done]. Qed.

Lemma length_string_app a b : String.length (a +:+ b) = (String.length a + String.length b)%nat.
Proof. induction a as [|x a IH]; rewrite ?string_app_empty, ?string_app_cons; simpl; congruence. Qed.

(** Blanks are spaces and tabs. *)
Definition blank (c : ascii) : bool := bool_decide (c ∈ [" "; "009"]%char).
Definition blanks (s : string) : bool := forallb blank (list_ascii_of_string s).
Fixpoint ends_blank (s : string) : bool :=
  match s with
  | EmptyString => false
  | String x EmptyString => blank x
  | String _ s => ends_blank s
  end.

Lemma find_last_blanks s : blanks s = true → find_last_not_of [" "; "009"]%char s = None.
Proof.
  induction s as [|x s IH]; [done|]. unfold blanks. simpl. intros [Hx Hs]%andb_true_iff.
  rewrite (IH Hs). unfold blank in Hx. apply bool_decide_eq_true in Hx. by rewrite bool_decide_true.
Qed.

Lemma find_last_app a s :
  a ≠ EmptyString → ends_blank a = false → blanks s = true →
  find_last_not_of [" "; "009"]%char (a +:+ s) = Some (String.length a - 1)%nat.
Proof.
  intros Hne Ha Hs. induction a as [|x a IH]; [done|]. destruct a as [|y a].
  - change (String x EmptyString +:+ s)%string with (String x s). cbn [find_last_not_of].
    rewrite find_last_blanks by done. simpl in Ha. unfold blank in Ha.
    apply bool_decide_eq_false in Ha. by rewrite bool_decide_false.
  - change (String x (String y a) +:+ s)%string with (String x (String y a +:+ s)). cbn [find_last_not_of].
    rewrite IH by done. simpl. f_equal. lia.
Qed.

Lemma ends_blank_app a b : b ≠ EmptyString → ends_blank (a +:+ b) = ends_blank b.
Proof.
  intros Hb. induction a as [|x a IH]; [done|]. rewrite string_app_cons, <- IH. simpl.
  destruct a as [|y a]; [by destruct b|done].
Qed.

Lemma cut_blanks_app a s :
  a ≠ EmptyString → ends_blank a = false → blanks s = true → cut_blanks (a +:+ s) = a.
Proof.
  intros Hne Ha Hs. unfold cut_blanks. rewrite find_last_app by done.
  replace (String.length a - 1 + 1)%nat with (String.length a) by (destruct a; simpl; [done|lia]).
  apply substring_prefix.
Qed.

Lemma no_semicolon_blanks s : blanks s = true → find_first_of ";" s = None.
Proof.
  induction s as [|x s IH]; [done|]. unfold blanks. simpl. intros [Hx Hs]%andb_true_iff.
  rewrite (IH Hs). destruct (Ascii.eqb_spec x ";") as [->|_]; [by vm_compute in Hx|done].
Qed.

(** A line made of a key, an equals sign, a value, blanks and a comment (or
    nothing) gives back the key and the value, when the key has no equals sign
    and no semicolon, and the value has no semicolon and does not end in a
    blank. *)
Theorem parse_line_roundtrip key value sp comment :
  find_first_of "=" key = None → find_first_of ";" key = None →
  find_first_of ";" value = None → ends_blank value = false → blanks sp = true →
  (comment = EmptyString ∨ ∃ text, comment = String ";" text) →
  parse_line (key +:+ String "=" (value +:+ sp +:+ comment)) = Ok (Some (key, value)).
Proof.
  intros Hk1 Hk2 Hv1 Hv2 Hsp Hc. set (body := (key +:+ String "=" value)%string).
  assert (key +:+ String "=" (value +:+ sp +:+ comment) = (body +:+ sp) +:+ comment)%string as ->.
  { unfold body. rewrite <- !string_app_assoc'. done. }
  assert (∀ t, body +:+ t = key +:+ String "=" (value +:+ t))%string as Hbody
    by (intros t; unfold body; by rewrite <- string_app_assoc').
  assert (find_first_of ";" (body +:+ sp) = None) as Hnone.
  { rewrite Hbody, find_first_of_app by done. cbn [find_first_of].
    rewrite find_first_of_app, no_semicolon_blanks by done. done. }
  assert (body ≠ EmptyString) as Hne by (unfold body; by destruct key).
  assert (ends_blank body = false) as Hend.
  { unfold body. rewrite ends_blank_app by done. by destruct value. }
  assert (cut_comment ((body +:+ sp) +:+ comment) = (body +:+ sp))%string as Hcut.
  { unfold cut_comment. destruct Hc as [->|[text ->]].
    - by rewrite string_app_nil, Hnone.
    - rewrite find_first_of_here by done. apply substring_prefix. }
  unfold parse_line. rewrite bool_decide_false by (by destruct body).
  rewrite bool_decide_false.
  - rewrite Hcut, cut_blanks_app by done. unfold body. rewrite find_first_of_here by done.
    rewrite substring_prefix. do 3 f_equal.
    replace (key +:+ String "=" value)%string with ((key +:+ "=") +:+ value)%string by (by rewrite <- string_app_assoc').
    replace (String.length key + 1)%nat with (String.length (key +:+ "=")) by (rewrite length_string_app; done).
    apply substring_suffix. rewrite !length_string_app. simpl. lia.
  - rewrite find_first_of_app by done. destruct (find_first_of ";" comment) as [n|]; [|done].
    intros [= E]. destruct body; [done|]. simpl in E. lia.
Qed.

(** A line of blanks in front of a comment is not skipped but aborts. *)
Example blanks_before_comment : parse_line "  ; queues" = Err Abort.
Proof. reflexivity. Qed.

(** ** Queues *)

(** Coordinates in the range the memory table gives, above and at a level. *)
Definition coords_ok (memTable addressMap : list Z) (index : nat) : Prop :=
  ∀ n, (n ≤ index)%nat → ∃ a m, addressMap !! n = Some a ∧ memTable !! n = Some m ∧ 0 ≤ a < m.

(** The number of queues above a level. *)
Fixpoint organisation (memTable : list Z) (n : nat) : Z :=
  match n with O => 1 | S n => organisation memTable n * default 1 (memTable !! n) end.

Lemma organisation_pos mt am i n : coords_ok mt am i → (n ≤ S i)%nat → 1 ≤ organisation mt n.
Proof.
  intros Hc. induction n as [|n IH]; intros Hn; simpl; [done|].
  destruct (Hc n) as (a & m & _ & -> & Hr); [lia|]. specialize (IH ltac:(lia)). simpl. nia.
Qed.

Lemma organisation_mono mt am i n k : coords_ok mt am i → (n ≤ k ≤ S i)%nat → organisation mt n ≤ organisation mt k.
Proof.
  intros Hc. induction k as [|k IH]; intros Hn; [by assert (n = 0%nat) as -> by lia|].
  destruct (decide (n = S k)) as [->|]; [done|]. specialize (IH ltac:(lia)). simpl.
  destruct (Hc k) as (a & m & _ & -> & Hr); [lia|]. simpl.
  pose proof (organisation_pos _ _ _ n Hc ltac:(lia)). nia.
Qed.

Lemma queueNumber_product mt am i n :
  coords_ok mt am i → organisation mt (S i) < 2 ^ 32 → (n ≤ S i)%nat →
  foldM (seq 0 n) 1 (λ n count, m ← vec_at mt n; Ok (u32 (count * m))) = Ok (organisation mt n).
Proof.
  intros Hc Hb. induction n as [|n IH]; intros Hn; [done|].
  rewrite foldM_seq_snoc, IH by lia. simpl. destruct (Hc n) as (a & m & _ & Hm & Hr); [lia|].
  unfold vec_at. rewrite Hm. simpl. rewrite u32_small; [done|].
  pose proof (organisation_mono mt am i (S n) (S i) Hc ltac:(lia)) as Hmono.
  pose proof (organisation_pos mt am i n Hc ltac:(lia)). simpl in *. rewrite Hm in Hmono. simpl in Hmono. nia.
Qed.

(** The level stays below the number of queues above. *)
Lemma level_bound mt am i n :
  coords_ok mt am i → organisation mt (S i) < 2 ^ 32 → (n ≤ i)%nat →
  ∃ level, foldM (seq 0 n) 0 (level_step am) = Ok level ∧ 0 ≤ level < organisation mt n.
Proof.
  intros Hc Hb. induction n as [|n IH]; intros Hn; [by exists 0|].
  destruct IH as (level & Hl & Hr); [lia|]. rewrite foldM_seq_snoc, Hl. simpl. unfold level_step.
  destruct (Hc n) as (a & m & Ha & Hm & Hra); [lia|]. unfold vec_at. rewrite Ha, Hm. simpl.
  pose proof (organisation_mono mt am i (S n) (S i) Hc ltac:(lia)) as Hmono. simpl in Hmono. rewrite Hm in Hmono. simpl in *.
  case_bool_decide; [case_bool_decide|].
  - exists a. split; [done|]. nia.
  - exists (level * a). rewrite u32_small by nia. split; [done|]. nia.
  - exists level. split; [done|]. nia.
Qed.

Lemma decodeQueue_value mt am qm i :
  queue_level qm = Some i → coords_ok mt am i → organisation mt (S i) < 2 ^ 32 →
  ∃ level a m, foldM (seq 0 i) 0 (level_step am) = Ok level ∧ am !! i = Some a ∧ mt !! i = Some m ∧
    0 ≤ a < m ∧ 0 ≤ level < organisation mt i ∧ decodeQueue mt am qm = Ok (a + level * m).
Proof.
  intros Hi Hc Hb. destruct (level_bound mt am i i Hc Hb) as (level & Hl & Hr); [lia|].
  destruct (Hc i) as (a & m & Ha & Hm & Hra); [lia|]. exists level, a, m. split_and!; try done; try lia.
  unfold decodeQueue. rewrite Hi. unfold vec_at. rewrite Ha. simpl. rewrite Hl. simpl. rewrite Hm. simpl.
  simpl in Hb. rewrite Hm in Hb. simpl in Hb. rewrite (u32_small (level * m)) by nia. rewrite u32_small by nia. done.
Qed.

(** For coordinates in range the queue of an address exists: its number is
    below the number of queues that were made, at every level and for every
    organisation of fewer than 2^32 queues. *)
Theorem decodeQueue_in_range mt am qm :
  (∀ i, queue_level qm = Some i → coords_ok mt am i ∧ organisation mt (S i) < 2 ^ 32) →
  ∃ q n, decodeQueue mt am qm = Ok q ∧ queueNumber mt qm = Ok n ∧ 0 ≤ q < n.
Proof.
  intros Hok. destruct (queue_level qm) as [i|] eqn:Hi.
  - destruct (Hok i eq_refl) as [Hc Hb]. destruct (decodeQueue_value mt am qm i Hi Hc Hb) as (level & a & m & _ & _ & Hm & Ha & Hl & ->).
    eexists _, _. split; [done|]. unfold queueNumber. rewrite Hi, (queueNumber_product mt am i) by (done || lia).
    split; [done|]. simpl. rewrite Hm. simpl. nia.
  - exists 0, 1. unfold decodeQueue, queueNumber. by rewrite Hi.
Qed.

(** Two addresses that agree above the level and differ at it have different
    queues. *)
Lemma decodeQueue_injective mt am1 am2 qm i q :
  queue_level qm = Some i → coords_ok mt am1 i → coords_ok mt am2 i → organisation mt (S i) < 2 ^ 32 →
  (∀ n, (n < i)%nat → am1 !! n = am2 !! n) →
  decodeQueue mt am1 qm = Ok q → decodeQueue mt am2 qm = Ok q → am1 !! i = am2 !! i.
Proof.
  intros Hi H1 H2 Hb Hag Hq1 Hq2.
  destruct (decodeQueue_value mt am1 qm i Hi H1 Hb) as (l1 & a1 & m1 & E1 & A1 & M1 & R1 & _ & D1).
  destruct (decodeQueue_value mt am2 qm i Hi H2 Hb) as (l2 & a2 & m2 & E2 & A2 & M2 & R2 & _ & D2).
  assert (foldM (seq 0 i) 0 (level_step am1) = foldM (seq 0 i) 0 (level_step am2)) as E.
  { assert (∀ l s, (∀ n, n ∈ l → am1 !! n = am2 !! n) → foldM l s (level_step am1) = foldM l s (level_step am2)) as Hl.
    { induction l as [|n l IH]; intros s Hn; [done|]. simpl.
      assert (level_step am1 n s = level_step am2 n s) as -> by (unfold level_step, vec_at; by rewrite (Hn n) by left).
      destruct (level_step am2 n s); simpl; [|done]. apply IH. intros; apply Hn; by right. }
    apply Hl. intros n Hn%elem_of_seq. apply Hag. lia. }
  rewrite E1, E2 in E. simplify_eq. rewrite D1 in Hq1. rewrite D2 in Hq2. simplify_eq.
  rewrite A1, A2. f_equal. lia.
Qed.

(** The coordinates above the level are multiplied, not weighted: with queues per
    bank, rank 1 of group 0 and rank 0 of group 1 share theirs. *)
Example decodeQueue_collides :
  decodeQueue [2; 2; 8; 1; 1; 1] [1; 0; 3; 0] [0; 0; 1; 0] = Ok 11 ∧
  decodeQueue [2; 2; 8; 1; 1; 1] [0; 1; 3; 0] [0; 0; 1; 0] = Ok 11 ∧
  queueNumber [2; 2; 8; 1; 1; 1] [0; 0; 1; 0] = Ok 32.
Proof. vm_compute. done. Qed.

(** ** Witnesses *)
Lemma parse_line_roundtrip_witness : parse_line "CommandQueue=0010  ; per bank" = Ok (Some ("CommandQueue", "0010"))%string.
Proof.
  apply (parse_line_roundtrip "CommandQueue" "0010" "  " "; per bank"); [reflexivity..|].
  right. by exists " per bank"%string.
Defined.

Lemma decodeQueue_in_range_witness :
  ∃ q n, decodeQueue [2; 1; 8; 1; 32768; 1024] [1; 0; 5; 0] [0; 0; 1; 0] = Ok q ∧
    queueNumber [2; 1; 8; 1; 32768; 1024] [0; 0; 1; 0] = Ok n ∧ 0 ≤ q < n.
Proof.
  apply (decodeQueue_in_range [2; 1; 8; 1; 32768; 1024] [1; 0; 5; 0] [0; 0; 1; 0]).
  intros i Hi. vm_compute in Hi. injection Hi as <-. split; [|vm_compute; done].
  intros n Hn. destruct n as [|[|[|n]]]; [| | |lia]; simpl; eauto 10 with lia.
Defined.
