(* ===== verification/Controller.v ===== *)
(** * The memory controller

    [MemoryController] (src/src/MemoryController.cpp, MemoryController.h): it
    decodes incoming requests and puts them into the request queues, lets the
    request scheduler and the generator turn them into commands, distributes the
    commands over the command queues, lets the command scheduler send one of them
    per cycle, sends the data of a write a fixed time after its command, and
    answers a request when its last data went over the bus.

    The algorithms are any instances of [RequestScheduling], [CommandGenerator] and
    [CommandScheduling]. The request queues are those of the request scheduler's
    state, the command queues, the device and the table of criticalities those of
    the command scheduler's: the controller holds references to the same objects.
    The callback is a client's function: the operations return the requests it is
    called with. Left out: the trace file, the printing, and [returnReadData] and
    [writeDataDone], which nothing calls. *)
From Stdlib Require Import QArith String Sorted.
From stdpp Require Import sorting.
From S2P Require Import Prelude Types KeyedBuf AddrMap ReqQueue CmdQueue CmdGen ReqSched DRAM DDR3 Device Refresh CmdSched CmdAlg Config.
#[local] Open Scope Z_scope.

(** ** State *)

(** What [connectMemoryDevice] fixes; [request_room] is how many words the blocks [new]
    returns for a [Request] have behind its last member, [addressMap]. It is the
    allocator's: a [Request] has 80 bytes, for which malloc of glibc gives 88. *)
Record Setup := mkSetup {
  memTable : list Z;
  busWidth : Z;
  addressFormat : list (memOrg * Z);
  addressMode : privatization;
  mc_config : Config;
  callback_set : bool;
  request_room : nat;
}.

Record Statistics := mkStatistics {
  totalRequest : Z;
  openRead : Z;
  closeRead : Z;
  openWrite : Z;
  closeWrite : Z;
  readBytes : Z;
  writeBytes : Z;
  open_counter : Z;
  close_counter : Z;
  openRead_Latency : Z;
  openWrite_Latency : Z;
  closeRead_Latency : Z;
  closeWrite_Latency : Z;
  closeRequest : bool;
}.

Definition Statistics_ctor : Statistics := mkStatistics 0 0 0 0 0 0 0 0 0 0 0 0 0 true.

Record Controller (A B Dev : Type) := mkController {
  mc_setup : Setup;
  mc_clock : Z;
  requestScheduler : RequestScheduler;
  requestState : A;
  commandScheduler : CommandScheduler Dev;
  commandState : B;
  pendingReadRequest : list ptr;
  pendingWriteRequest : list ptr;
  sendDataCounter : list Z;
  sendDataBuffer : list BusPacket;
  mc_heap : rheap;
  mc_stats : Statistics;
}.
Arguments mkController {A B Dev}.
Arguments mc_setup {A B Dev} _.
Arguments mc_clock {A B Dev} _.
Arguments requestScheduler {A B Dev} _.
Arguments requestState {A B Dev} _.
Arguments commandScheduler {A B Dev} _.
Arguments commandState {A B Dev} _.
Arguments pendingReadRequest {A B Dev} _.
Arguments pendingWriteRequest {A B Dev} _.
Arguments sendDataCounter {A B Dev} _.
Arguments sendDataBuffer {A B Dev} _.
Arguments mc_heap {A B Dev} _.
Arguments mc_stats {A B Dev} _.

Section setters.
Context {A B Dev : Type}.
Implicit Types c : Controller A B Dev.

Definition set_mc_clock (n : Z) c : Controller A B Dev :=
  mkController (mc_setup c) n (requestScheduler c) (requestState c) (commandScheduler c) (commandState c)
    (pendingReadRequest c) (pendingWriteRequest c) (sendDataCounter c) (sendDataBuffer c) (mc_heap c) (mc_stats c).
Definition set_requestScheduler (s : RequestScheduler) c : Controller A B Dev :=
  mkController (mc_setup c) (mc_clock c) s (requestState c) (commandScheduler c) (commandState c)
    (pendingReadRequest c) (pendingWriteRequest c) (sendDataCounter c) (sendDataBuffer c) (mc_heap c) (mc_stats c).
Definition set_requestState (a : A) c : Controller A B Dev :=
  mkController (mc_setup c) (mc_clock c) (requestScheduler c) a (commandScheduler c) (commandState c)
    (pendingReadRequest c) (pendingWriteRequest c) (sendDataCounter c) (sendDataBuffer c) (mc_heap c) (mc_stats c).
Definition set_commandScheduler (s : CommandScheduler Dev) c : Controller A B Dev :=
  mkController (mc_setup c) (mc_clock c) (requestScheduler c) (requestState c) s (commandState c)
    (pendingReadRequest c) (pendingWriteRequest c) (sendDataCounter c) (sendDataBuffer c) (mc_heap c) (mc_stats c).
Definition set_commandState (b : B) c : Controller A B Dev :=
  mkController (mc_setup c) (mc_clock c) (requestScheduler c) (requestState c) (commandScheduler c) b
    (pendingReadRequest c) (pendingWriteRequest c) (sendDataCounter c) (sendDataBuffer c) (mc_heap c) (mc_stats c).
Definition set_pending (write : bool) (l : list ptr) c : Controller A B Dev :=
  mkController (mc_setup c) (mc_clock c) (requestScheduler c) (requestState c) (commandScheduler c) (commandState c)
    (if write then pendingReadRequest c else l) (if write then l else pendingWriteRequest c)
    (sendDataCounter c) (sendDataBuffer c) (mc_heap c) (mc_stats c).
Definition set_sendData (n : list Z) (l : list BusPacket) c : Controller A B Dev :=
  mkController (mc_setup c) (mc_clock c) (requestScheduler c) (requestState c) (commandScheduler c) (commandState c)
    (pendingReadRequest c) (pendingWriteRequest c) n l (mc_heap c) (mc_stats c).
Definition set_mc_heap (h : rheap) c : Controller A B Dev :=
  mkController (mc_setup c) (mc_clock c) (requestScheduler c) (requestState c) (commandScheduler c) (commandState c)
    (pendingReadRequest c) (pendingWriteRequest c) (sendDataCounter c) (sendDataBuffer c) h (mc_stats c).
Definition set_mc_stats (x : Statistics) c : Controller A B Dev :=
  mkController (mc_setup c) (mc_clock c) (requestScheduler c) (requestState c) (commandScheduler c) (commandState c)
    (pendingReadRequest c) (pendingWriteRequest c) (sendDataCounter c) (sendDataBuffer c) (mc_heap c) x.

Definition pending (write : bool) c : list ptr :=
  if write then pendingWriteRequest c else pendingReadRequest c.
End setters.

(** ** Statistics *)

(** One more request of requestor 0. *)
Definition stats_request (id : Z) (x : Statistics) : Statistics :=
  if bool_decide (id = 0) then
    mkStatistics (u64 (totalRequest x + 1)) (openRead x) (closeRead x) (openWrite x) (closeWrite x) (readBytes x)
      (writeBytes x) (open_counter x) (close_counter x) (openRead_Latency x) (openWrite_Latency x)
      (closeRead_Latency x) (closeWrite_Latency x) (closeRequest x)
  else x.

(** The first lines of [enqueueCommand]. *)
Definition stats_command (c : BusPacket) (x : Statistics) : Statistics :=
  if bool_decide (bp_requestorID c = 0) then
    if is_ACT (busPacketType c) then
      mkStatistics (totalRequest x) (openRead x) (closeRead x) (openWrite x) (closeWrite x) (readBytes x)
        (writeBytes x) (open_counter x) (close_counter x) (openRead_Latency x) (openWrite_Latency x)
        (closeRead_Latency x) (closeWrite_Latency x) true
    else if bpt_lt (busPacketType c) ACT_R then
      let rd := is_read (busPacketType c) in
      if closeRequest x then
        mkStatistics (totalRequest x) (openRead x) (if rd then u64 (closeRead x + 1) else closeRead x) (openWrite x)
          (if rd then closeWrite x else u64 (closeWrite x + 1)) (readBytes x)
          (writeBytes x) (open_counter x) 0 (openRead_Latency x) (openWrite_Latency x)
          (closeRead_Latency x) (closeWrite_Latency x) (closeRequest x)
      else
        mkStatistics (totalRequest x) (if rd then u64 (openRead x + 1) else openRead x) (closeRead x)
          (if rd then openWrite x else u64 (openWrite x + 1)) (closeWrite x) (readBytes x)
          (writeBytes x) 0 (close_counter x) (openRead_Latency x) (openWrite_Latency x)
          (closeRead_Latency x) (closeWrite_Latency x) (closeRequest x)
    else x
  else x.

(** [stats.readBytes += dataBusWidth] and [stats.writeBytes += dataBusWidth]. *)
Definition stats_bytes (write : bool) (n : Z) (x : Statistics) : Statistics :=
  mkStatistics (totalRequest x) (openRead x) (closeRead x) (openWrite x) (closeWrite x)
    (if write then readBytes x else u64 (readBytes x + n)) (if write then u64 (writeBytes x + n) else writeBytes x)
    (open_counter x) (close_counter x) (openRead_Latency x) (openWrite_Latency x)
    (closeRead_Latency x) (closeWrite_Latency x) (closeRequest x).

(** The worst latencies, at the answer to a request of requestor 0. *)
Definition stats_answer (write : bool) (id : Z) (x : Statistics) : Statistics :=
  if bool_decide (id = 0) then
    let opened := if closeRequest x then false else true in
    let up b n m := if b : bool then Z.max n m else n in
    mkStatistics (totalRequest x) (openRead x) (closeRead x) (openWrite x) (closeWrite x) (readBytes x) (writeBytes x)
      0 0
      (up (opened && negb write) (openRead_Latency x) (open_counter x))
      (up (opened && write) (openWrite_Latency x) (open_counter x))
      (up (negb opened && negb write) (closeRead_Latency x) (close_counter x))
      (up (negb opened && write) (closeWrite_Latency x) (close_counter x)) false
  else x.

Definition stats_step (x : Statistics) : Statistics :=
  mkStatistics (totalRequest x) (openRead x) (closeRead x) (openWrite x) (closeWrite x) (readBytes x) (writeBytes x)
    (u64 (open_counter x + 1)) (u64 (close_counter x + 1)) (openRead_Latency x) (openWrite_Latency x)
    (closeRead_Latency x) (closeWrite_Latency x) (closeRequest x).

(** ** Operations *)
Section controller.
Context {A B Dev : Type} {Gen : CommandGenerator} {ReqA : RequestScheduling A}
  {DevI : MemoryDevice Dev} {CmdS : CommandScheduling Dev B}.
Implicit Types c : Controller A B Dev.

(** [connectMemoryDevice], on a controller made by one of the constructors with a
    [MemorySystem], and the algorithms' states at construction. The values the
    constructors set are [Config_ctor] before [readConfigFile], [Statistics_ctor],
    a clock of 0 and empty buffers; [g] and [b] are the memory left unset:
    [memTable[SubArray]], the fields of the refresh machine, the switches. *)
Definition connectMemoryDevice (callback : bool) (cfg : Config) (mode : privatization) (numberRequestors : nat)
    (room : nat) (g : Z) (b : bool) (newA : list RequestQueue → A) (newB : list CommandQueue → B)
    (newG : Z → Generator) (dev : Dev) : res (Controller A B Dev) :=
  let table := [get_Rank dev; get_BankGroup dev; get_Bank dev; g; u32 (get_Row dev); u32 (get_Column dev)] in
  let criticality := list_to_map ((λ id, (Z.of_nat id, true)) <$> seq 0 numberRequestors) in
  nr ← queueNumber table (reqMap cfg);
  nc ← queueNumber table (cmdMap cfg);
  let reqQ := replicate (Z.to_nat nr) (RequestQueue_ctor (requestorReqQ cfg) (writeQueueEnabled cfg)) in
  let cmdQ := replicate (Z.to_nat nc) (CommandQueue_ctor (requestorCmdQ cfg)) in
  format ← AddressMapping_ctor (String.list_ascii_of_string (default EmptyString (configTable cfg !! "AddressMapping"%string))) table;
  Ok (mkController (mkSetup table (get_DataBus dev) format mode cfg callback room) 0
        (RequestScheduler_ctor b reqQ (newG (get_DataBus dev))) (newA reqQ)
        (CommandScheduler_ctor b g cmdQ criticality dev) (newB cmdQ)
        [] [] [] [] ∅ Statistics_ctor).

Definition setRequestor (id : Z) (criticality : bool) c : Controller A B Dev :=
  let s := commandScheduler c in
  set_commandScheduler (set_criticalTable (<[id := criticality]> (requestorCriticalTable s)) s) c.

(** [addRequest]: [true], after the request was decoded, put into a queue and
    noted as pending. [g] is what the fresh memory of the request held. What the
    decoding writes behind [addressMap] lies behind the last member: it does no harm while
    it stays in the block the allocator gave, and is undefined beyond. *)
Definition addRequest (g : Z) (id addr : Z) (R_W : bool) (size : Z) c : res (Controller A B Dev) :=
  let type := if R_W then DATA_READ else DATA_WRITE in
  let incoming := set_arriveTime (u32 (mc_clock c)) (new_Request g id type size addr 0) in
  ro ← addressMapping (addressMode (mc_setup c)) (addressFormat (mc_setup c)) incoming;
  let '(r, oob) := ro in
  _ ← (if decide (Forall (λ i, i < 4 + request_room (mc_setup c))%nat oob) then Ok tt else Err Undefined);
  let '(h, p) := alloc (mc_heap c) r in
  let c := set_mc_stats (stats_request id (mc_stats c)) (set_mc_heap h c) in
  i ← decodeQueue (memTable (mc_setup c)) (addressMap r) (reqMap (mc_config (mc_setup c)));
  let s := requestScheduler c in
  q ← request_queue (Z.to_nat i) s;
  bq ← insertRequest h p q;
  let c := set_requestScheduler (set_request_queue (Z.to_nat i) bq.2 s) c in
  Ok (if bq.1 : bool then set_pending (negb R_W) (pending (negb R_W) c ++ [p]) c else c).

(** The packet as [enqueueCommand] stores it. *)
Definition stamp (time : Z) (p : BusPacket) : BusPacket :=
  {| busPacketType := busPacketType p; bp_requestorID := bp_requestorID p; bp_address := bp_address p;
     bp_column := bp_column p; bp_row := bp_row p; bp_subArray := bp_subArray p; bp_bank := bp_bank p;
     bp_rank := bp_rank p; bp_data := bp_data p; bp_arriveTime := u32 time; postCommand := postCommand p;
     bp_addressMap := [0; 0; bp_bank p; bp_subArray p] |}.

(** [enqueueCommand]; [requestorCriticalTable[id]] enters an unknown requestor as
    not critical. *)
Definition enqueueCommand (p : BusPacket) c : res (bool * Controller A B Dev) :=
  let c := set_mc_stats (stats_command p (mc_stats c)) c in
  let p := stamp (mc_clock c) p in
  i ← decodeQueue (memTable (mc_setup c)) (bp_addressMap p) (cmdMap (mc_config (mc_setup c)));
  let s := commandScheduler c in
  let critical := default false (requestorCriticalTable s !! bp_requestorID p) in
  let s := set_criticalTable (<[bp_requestorID p := critical]> (requestorCriticalTable s)) s in
  q ← queue_at (Z.to_nat i) s;
  let bq := insertCommand p critical q in
  Ok (bq.1, set_commandScheduler (set_queue (Z.to_nat i) bq.2 s) c).

(** [while (commandGenerator->bufferSize() > 0) ...]: every turn removes a command,
    so the size of the buffer is fuel enough ([drain_done]). *)
Fixpoint drain (fuel : nat) c : res (Controller A B Dev) :=
  let g := rs_generator (requestScheduler c) in
  match fuel, gen_bufferSize g with
  | _, O => Ok c
  | O, S _ => Ok c
  | S fuel, S _ =>
      p ← gen_getCommand g;
      bc ← enqueueCommand p c;
      let '(b, c) := bc in
      if b : bool then
        g ← gen_removeCommand g;
        drain fuel (set_requestScheduler (set_generator g (requestScheduler c)) c)
      else Err Abort
  end.

Definition mc_flushWrite (sw : bool) c : Controller A B Dev :=
  if writeQueueEnabled (mc_config (mc_setup c)) then
    set_requestScheduler (flushWriteReq sw (requestScheduler c)) c
  else c.

(** The loop of [receiveData] and [sendData] over the pending requests: the first
    one of the requestor and the address of the packet. *)
Fixpoint find_pending (h : rheap) (p : BusPacket) (l : list ptr) (index : nat) : res (option (nat * ptr * Request)) :=
  match l with
  | [] => Ok None
  | x :: l =>
      r ← deref h x;
      if bool_decide (bp_requestorID p = requestorID r ∧ bp_address p = address r)
      then Ok (Some (index, x, r))
      else find_pending h p l (S index)
  end.

(** What happens to it: answered and deleted with its last data, or else fewer
    bytes to go. *)
Definition respond (write : bool) (p : BusPacket) c : res (option Request * Controller A B Dev) :=
  let c := set_mc_stats (stats_bytes write (busWidth (mc_setup c)) (mc_stats c)) c in
  m ← find_pending (mc_heap c) p (pending write c) 0;
  match m with
  | None => Ok (None, c)
  | Some (k, x, r) =>
      if bool_decide (requestSize r = busWidth (mc_setup c)) then
        if callback_set (mc_setup c) then
          let c := set_mc_stats (stats_answer write (bp_requestorID p) (mc_stats c)) c in
          Ok (Some r, set_pending write (delete k (pending write c)) (set_mc_heap (delete x (mc_heap c)) c))
        else Err BadFunctionCall
      else
        let r := set_requestSize (u32 (requestSize r - busWidth (mc_setup c))) r in
        Ok (None, set_mc_heap (<[x := r]> (mc_heap c)) c)
  end.

Definition receiveData (p : BusPacket) c : res (option Request * Controller A B Dev) := respond false p c.

Definition sendData (p : BusPacket) c : res (option Request * Controller A B Dev) :=
  d ← receiveFromBus p (memoryDevice (commandScheduler c));
  respond true p (set_commandScheduler (set_memoryDevice d (commandScheduler c)) c).

(** The cycles until the data of a write are sent. *)
Definition write_delay (p : BusPacket) (d : Dev) : Z :=
  if postCommand p then
    float_u32 (get_constraints "tRCD"%string d - 1 + get_constraints "tWL"%string d + get_constraints "tBus"%string d)
  else float_u32 (get_constraints "tWL"%string d + get_constraints "tBus"%string d).

Definition write_packet (time : Z) (p : BusPacket) : BusPacket :=
  new_BusPacket DATA (bp_requestorID p) (bp_address p) (bp_column p) (bp_row p) (bp_bank p) 0
    (bp_subArray p) (bp_data p) (u32 time).

(** The command that was sent; its packet is deleted, which [scheduledCommand] of
    the command scheduler does not notice. *)
Definition note_write (outgoing : option BusPacket) c : Controller A B Dev :=
  match outgoing with
  | Some p =>
      if is_write (busPacketType p) then
        set_sendData (sendDataCounter c ++ [write_delay p (memoryDevice (commandScheduler c))])
          (sendDataBuffer c ++ [write_packet (mc_clock c) p]) c
      else c
  | None => c
  end.

(** The data whose counter is 0 go to the device; all counters are decremented,
    as [unsigned] numbers. The results are the data and the answered request. *)
Definition send_due c : res (option BusPacket * option Request * Controller A B Dev) :=
  match sendDataCounter c with
  | [] => Ok (None, None, c)
  | n :: _ =>
      oc ← (if bool_decide (n = 0) then
              p ← vec_front (sendDataBuffer c);
              oc ← sendData p c;
              Ok (Some p, oc.1, set_sendData (tail (sendDataCounter c)) (tail (sendDataBuffer c)) oc.2)
            else Ok (None, None, c));
      Ok (oc.1, set_sendData ((λ n, u32 (n - 1)) <$> sendDataCounter oc.2) (sendDataBuffer oc.2) oc.2)
  end.

(** What an [update] does outside: the command and the write data that went to
    the device, the request that was answered. *)
Record Output := mkOutput {
  out_command : option BusPacket;
  out_data : option BusPacket;
  out_answer : option Request;
}.

(** What the request scheduler sees. *)
Definition mc_env c : Env :=
  mkEnv (mc_heap c) (commandQueues (commandScheduler c)) (requestorCriticalTable (commandScheduler c)).

Definition update c : res (Output * Controller A B Dev) :=
  asched ← requestSchedule (mc_env c) (requestState c) (requestScheduler c);
  let c := set_requestState asched.1 (set_requestScheduler asched.2 c) in
  c ← drain (gen_bufferSize (rs_generator (requestScheduler c))) c;
  s ← sched_refresh (commandScheduler c);
  bs ← commandSchedule (commandState c) s;
  let '(outgoing, b, s) := bs in
  let c := note_write outgoing (set_commandState b (set_commandScheduler s c)) in
  oc ← send_due c;
  let '(sent, answered, c) := oc in
  let c := set_requestScheduler (rs_step (requestScheduler c)) c in
  s ← tick (commandScheduler c);
  let c := set_mc_clock (u64 (mc_clock c + 1)) (set_commandScheduler s c) in
  Ok (mkOutput outgoing sent answered, set_mc_stats (stats_step (mc_stats c)) c).

Definition generalBufferSize c : res nat :=
  q ← request_queue 0 (requestScheduler c); Ok (generalReadBufferSize q).
Definition isWriteModeFromController c : res bool :=
  q ← request_queue 0 (requestScheduler c); Ok (isWriteMode q).
End controller.

(** ** The write data path *)
Section write_data.
Context {A B Dev : Type} {Gen : CommandGenerator} {ReqA : RequestScheduling A}
  {DevI : MemoryDevice Dev} {CmdS : CommandScheduling Dev B}.
Implicit Types c : Controller A B Dev.

(** Only [note_write] and [send_due] touch the data path. *)
Definition data_path c : list Z * list BusPacket := (sendDataCounter c, sendDataBuffer c).

Lemma respond_frame write p c o c' :
  respond write p c = Ok (o, c') →
  data_path c' = data_path c ∧ mc_setup c' = mc_setup c ∧ mc_clock c' = mc_clock c ∧
  commandScheduler c' = commandScheduler c ∧ commandState c' = commandState c ∧
  requestScheduler c' = requestScheduler c ∧ requestState c' = requestState c.
Proof.
  unfold respond. intros Hr. apply bind_Ok in Hr as ([[[k x] r]|] & _ & Hr); [|by injection Hr as <- <-].
  case_bool_decide; [|by injection Hr as <- <-].
  destruct (callback_set _); [|done]. by injection Hr as <- <-.
Qed.

Lemma sendData_frame p c o c' :
  busPacketType p = DATA → postCommand p = false → sendData p c = Ok (o, c') →
  data_path c' = data_path c ∧ mc_setup c' = mc_setup c ∧ mc_clock c' = mc_clock c ∧
  commandScheduler c' = commandScheduler c ∧ commandState c' = commandState c ∧
  requestScheduler c' = requestScheduler c ∧ requestState c' = requestState c.
Proof.
  intros Ht Hp Hs. unfold sendData in Hs. rewrite (receive_data _ _ Ht Hp) in Hs. simpl in Hs.
  assert (set_commandScheduler (set_memoryDevice (memoryDevice (commandScheduler c)) (commandScheduler c)) c = c) as E
    by (destruct c as [? ? ? ? [] ? ? ? ? ? ? ?]; done).
  rewrite E in Hs. by apply respond_frame in Hs.
Qed.

Lemma addRequest_frame g id addr R_W size c c' :
  addRequest g id addr R_W size c = Ok c' →
  data_path c' = data_path c ∧ mc_setup c' = mc_setup c ∧ mc_clock c' = mc_clock c ∧
  commandScheduler c' = commandScheduler c ∧ commandState c' = commandState c ∧ requestState c' = requestState c.
Proof.
  unfold addRequest. intros Ha. apply bind_Ok in Ha as ([r oob] & _ & Ha). apply bind_Ok in Ha as (u & _ & Ha). destruct (alloc _ r) as [h p].
  apply bind_Ok in Ha as (i & _ & Ha). apply bind_Ok in Ha as (q & _ & Ha). apply bind_Ok in Ha as ([b q'] & _ & Ha).
  injection Ha as <-. by destruct b.
Qed.

(** A block without two words behind [addressMap] is overrun by every request, with
    every format that has the level [Column], as all the shipped ones do. *)
Lemma addRequest_overflow g id addr R_W size c c' :
  (request_room (mc_setup c) < 2)%nat → Column ∈ (addressFormat (mc_setup c)).*1 →
  addRequest g id addr R_W size c ≠ Ok c'.
Proof.
  intros Hroom Hcol Ha. unfold addRequest in Ha. apply bind_Ok in Ha as ([r oob] & Hm & Ha).
  apply addressMapping_column in Hm; [|done..]. apply bind_Ok in Ha as (u & Hu & _).
  destruct (decide (Forall _ oob)) as [Hf|]; [|done]. rewrite Forall_forall in Hf. specialize (Hf _ Hm). simpl in Hf. lia.
Qed.

Lemma enqueueCommand_frame p c b c' :
  enqueueCommand p c = Ok (b, c') →
  data_path c' = data_path c ∧ mc_setup c' = mc_setup c ∧ mc_clock c' = mc_clock c ∧ mc_heap c' = mc_heap c ∧
  pendingReadRequest c' = pendingReadRequest c ∧ pendingWriteRequest c' = pendingWriteRequest c ∧
  commandState c' = commandState c ∧ requestScheduler c' = requestScheduler c ∧ requestState c' = requestState c ∧
  memoryDevice (commandScheduler c') = memoryDevice (commandScheduler c).
Proof.
  unfold enqueueCommand. intros Hr. apply bind_Ok in Hr as (i & _ & Hr). apply bind_Ok in Hr as (q & _ & Hr).
  by injection Hr as _ <-.
Qed.

Lemma drain_frame fuel c c' :
  drain fuel c = Ok c' →
  data_path c' = data_path c ∧ mc_setup c' = mc_setup c ∧ mc_clock c' = mc_clock c ∧ mc_heap c' = mc_heap c ∧
  pendingReadRequest c' = pendingReadRequest c ∧ pendingWriteRequest c' = pendingWriteRequest c ∧
  commandState c' = commandState c ∧ requestState c' = requestState c ∧
  memoryDevice (commandScheduler c') = memoryDevice (commandScheduler c).
Proof.
  revert c. induction fuel as [|fuel IH]; intros c Hd; simpl in Hd;
    destruct (gen_bufferSize _); try (injection Hd as <-; by split_and!).
  apply bind_Ok in Hd as (p & _ & Hd). apply bind_Ok in Hd as ([b c1] & He & Hd).
  destruct b; [|done]. apply bind_Ok in Hd as (g & _ & Hd). apply IH in Hd.
  apply enqueueCommand_frame in He as (E1 & E2 & E3 & E4 & E5 & E6 & E7 & _ & E9 & E10).
  destruct Hd as (D1 & D2 & D3 & D4 & D5 & D6 & D7 & D8 & D9). unfold data_path in *. simpl in *.
  split_and!; congruence.
Qed.

(** The write data under way before update number [n]: when they are due, in
    order, and what they are. *)
Record sending (n : Z) (pend : list (Z * BusPacket)) c : Prop := {
  sd_counter : sendDataCounter c = (λ x, x.1 - n) <$> pend;
  sd_buffer : sendDataBuffer c = snd <$> pend;
  sd_sorted : StronglySorted Z.lt (fst <$> pend);
  sd_range : Forall (λ x, n ≤ x.1 < n + 2 ^ 32) pend;
  sd_data : Forall (λ x, busPacketType x.2 = DATA ∧ postCommand x.2 = false) pend;
}.

Lemma sending_path n pend c c' : data_path c' = data_path c → sending n pend c → sending n pend c'.
Proof. unfold data_path. intros [= E1 E2] [H1 H2 H3 H4 H5]. split; congruence. Qed.

(** What update [n] sends, and what remains. *)
Definition due_now (n : Z) (pend : list (Z * BusPacket)) : option BusPacket * list (Z * BusPacket) :=
  match pend with
  | (d, x) :: rest => if bool_decide (d = n) then (Some x, rest) else (None, pend)
  | [] => (None, [])
  end.

Lemma due_now_split n pend :
  pend = match (due_now n pend).1 with Some x => [(n, x)] | None => [] end ++ (due_now n pend).2.
Proof. destruct pend as [|[d x] rest]; [done|]. simpl. case_bool_decide; by subst. Qed.

Lemma due_now_later n pend c :
  sending n pend c → Forall (λ x, n < x.1) (due_now n pend).2.
Proof.
  intros [_ _ Hs Hr _]. destruct pend as [|[d x] rest]; [constructor|]. simpl in Hs.
  apply StronglySorted_inv in Hs as [_ Hlt]. rewrite Forall_fmap in Hlt. inversion Hr; subst. simpl in *.
  case_bool_decide; simpl.
  - subst. done.
  - constructor; [simpl; lia|]. eapply Forall_impl; [exact Hlt|]. simpl. lia.
Qed.

Lemma send_due_spec n pend c o ans c' :
  sending n pend c → send_due c = Ok (o, ans, c') →
  o = (due_now n pend).1 ∧ sending (n + 1) (due_now n pend).2 c'.
Proof.
  intros Hp Hs. pose proof (due_now_later _ _ _ Hp) as Hlater. destruct Hp as [Hc Hb Hsort Hr Hd].
  assert (∀ c1, sendDataCounter c1 = (λ x, x.1 - n) <$> (due_now n pend).2 →
    sendDataBuffer c1 = snd <$> (due_now n pend).2 →
    sending (n + 1) (due_now n pend).2
      (set_sendData ((λ n, u32 (n - 1)) <$> sendDataCounter c1) (sendDataBuffer c1) c1)) as Hnext.
  { rewrite (due_now_split n pend), fmap_app in Hsort. rewrite (due_now_split n pend) in Hr, Hd.
    apply StronglySorted_app_1_r in Hsort. apply Forall_app in Hr as [_ Hr]. apply Forall_app in Hd as [_ Hd].
    intros c1 E1 E2. split; simpl; [|done|done| |done].
    - rewrite E1, <- list_fmap_compose. apply list_fmap_ext. intros k x Hx.
      apply list_elem_of_lookup_2 in Hx. rewrite Forall_forall in Hr, Hlater.
      specialize (Hr _ Hx). specialize (Hlater _ Hx). simpl in *. rewrite u32_small; lia.
    - rewrite Forall_forall in Hr, Hlater |- *. intros x Hx. specialize (Hr _ Hx). specialize (Hlater _ Hx). simpl in *. lia. }
  unfold send_due in Hs. rewrite Hc in Hs. destruct pend as [|[d x] rest].
  { simpl in *. injection Hs as <- <- <-. split; [done|]. by split. }
  simpl in Hs. simpl in Hnext |- *. destruct (decide (d = n)) as [->|Hne].
  - rewrite bool_decide_true in Hs by lia. rewrite bool_decide_true in Hnext |- * by done. rewrite Hb in Hs. simpl in Hs.
    apply bind_Ok in Hs as (oc & Hs1 & Hs). apply bind_Ok in Hs1 as ([ans1 c1] & Hs1 & Hs2). injection Hs2 as <-.
    injection Hs as <- <- <-. inversion Hd as [|? ? [Ht Hpc] _]; subst.
    apply sendData_frame in Hs1 as ([= E1 E2] & _); [|done|done]. split; [done|].
    exact (Hnext (set_sendData ((λ x, x.1 - n) <$> rest) (snd <$> rest) c1) eq_refl eq_refl).
  - rewrite bool_decide_false in Hs by lia. rewrite bool_decide_false in Hnext |- * by done. simpl in Hs.
    injection Hs as <- <- <-. split; [done|]. by apply Hnext.
Qed.

(** A write that is sent now is due [L] updates later. *)
Lemma note_write_spec n pend L p c :
  sending n pend c → Forall (λ x, x.1 < n + L) pend → 0 ≤ L < 2 ^ 32 →
  write_delay p (memoryDevice (commandScheduler c)) = L →
  sending n (pend ++ if is_write (busPacketType p) then [(n + L, write_packet (mc_clock c) p)] else [])
    (note_write (Some p) c).
Proof.
  intros [Hc Hb Hs Hr Hd] Hlt HL Hdel. unfold note_write. destruct (is_write _); [|by rewrite app_nil_r].
  split; simpl; rewrite ?fmap_app; simpl.
  - rewrite Hc, Hdel. do 2 f_equal. lia.
  - by rewrite Hb.
  - apply StronglySorted_app_2; [|done|by repeat constructor].
    intros x y Hx Hy. apply list_elem_of_fmap in Hx as (z & -> & Hz). rewrite Forall_forall in Hlt.
    apply list_elem_of_singleton in Hy as ->. by apply Hlt.
  - apply Forall_app. split; [done|]. constructor; [simpl; lia|constructor].
  - apply Forall_app. split; [done|]. by constructor.
Qed.
End write_data.

(** ** The commands reach their queues *)
Section distribution.
Context {A B Dev : Type} {Gen : CommandGenerator} {ReqA : RequestScheduling A}
  {DevI : MemoryDevice Dev} {CmdS : CommandScheduling Dev B}.
Implicit Types c : Controller A B Dev.

Definition all_commands c : list BusPacket := concat (commands <$> commandQueues (commandScheduler c)).
Definition generated c : list BusPacket := commandBuffer (rs_generator (requestScheduler c)).

(** The packet has a queue. *)
Definition has_queue c (p : BusPacket) : Prop :=
  ∃ i, decodeQueue (memTable (mc_setup c)) [0; 0; bp_bank p; bp_subArray p] (cmdMap (mc_config (mc_setup c))) = Ok i ∧
    (Z.to_nat i < length (commandQueues (commandScheduler c)))%nat.

Lemma insert_commands (qs : list CommandQueue) i q q' p :
  qs !! i = Some q → commands q' ≡ₚ p :: commands q →
  concat (commands <$> <[i := q']> qs) ≡ₚ p :: concat (commands <$> qs).
Proof.
  intros Hq Hp. rewrite <- (take_drop_middle qs i q Hq) at 2.
  rewrite insert_take_drop by (by eapply lookup_lt_Some).
  rewrite !fmap_app, !fmap_cons, !concat_app. simpl. rewrite Hp. solve_Permutation.
Qed.

Lemma enqueueCommand_total p c :
  Forall cq_wf (commandQueues (commandScheduler c)) → has_queue c p →
  ∃ c', enqueueCommand p c = Ok (true, c') ∧ Forall cq_wf (commandQueues (commandScheduler c')) ∧
    all_commands c' ≡ₚ stamp (mc_clock c) p :: all_commands c ∧
    length (commandQueues (commandScheduler c')) = length (commandQueues (commandScheduler c)).
Proof.
  intros Hwf (i & Hi & Hlt). unfold enqueueCommand. simpl bp_addressMap. change (bp_bank (stamp _ p)) with (bp_bank p).
  change (mc_setup (set_mc_stats _ c)) with (mc_setup c). rewrite Hi. cbn [mbind res_bind].
  destruct (vec_at_lt _ _ Hlt) as [q Hq]. unfold queue_at.
  change (commandQueues (set_criticalTable _ _)) with (commandQueues (commandScheduler c)).
  rewrite Hq. cbn [mbind res_bind].
  destruct (insertCommand _ _ q) as [b q'] eqn:E. apply vec_at_Ok in Hq.
  destruct (insertCommand_ok _ _ _ _ _ (proj1 (Forall_lookup _ _) Hwf _ _ Hq) E) as (-> & Hw & Hperm & _).
  eexists. split; [done|]. simpl. split; [by apply Forall_insert|]. split; [|apply length_insert].
  unfold all_commands. simpl. by eapply insert_commands.
Qed.

(** The loop of [update] that empties the generator terminates: when every
    command has a queue, it leaves the buffer empty, and the queues hold what
    they held and all commands of the buffer, with the current time. *)
Theorem drain_done c :
  Forall cq_wf (commandQueues (commandScheduler c)) → (∀ p, p ∈ generated c → has_queue c p) →
  ∃ c', drain (gen_bufferSize (rs_generator (requestScheduler c))) c = Ok c' ∧ generated c' = [] ∧
    Forall cq_wf (commandQueues (commandScheduler c')) ∧
    all_commands c' ≡ₚ (stamp (mc_clock c) <$> generated c) ++ all_commands c.
Proof.
  intros Hwf Hq. unfold gen_bufferSize. change (commandBuffer (rs_generator (requestScheduler c))) with (generated c).
  remember (generated c) as l eqn:El. revert c Hwf Hq El. induction l as [|p l IH]; intros c Hwf Hq El.
  - exists c. simpl. unfold gen_bufferSize. change (commandBuffer (rs_generator (requestScheduler c))) with (generated c).
    rewrite <- El. done.
  - simpl. unfold gen_bufferSize, gen_getCommand, vec_front.
    change (commandBuffer (rs_generator (requestScheduler c))) with (generated c). rewrite <- El. simpl.
    destruct (enqueueCommand_total p c Hwf) as (c1 & He & Hwf1 & Hp1 & Hlen1); [apply Hq; by left|].
    rewrite He. cbn [mbind res_bind].
    apply enqueueCommand_frame in He as (_ & Es & Ek & _ & _ & _ & _ & Er & _).
    unfold gen_removeCommand. rewrite <- Er in *.
    change (commandBuffer (rs_generator (requestScheduler c1))) with (generated c1).
    assert (generated c1 = p :: l) as E1 by (unfold generated; by rewrite Er).
    rewrite E1. unfold vec_erase. rewrite decide_True by (simpl; lia). simpl.
    set (c2 := set_requestScheduler _ c1).
    destruct (IH c2) as (c' & Hd & Hnil & Hwf' & Hp'); [done| |done|].
    + intros p' Hp'. destruct (Hq p') as (i & Hi & Hlt); [by right|]. exists i. simpl. rewrite Es, Hlen1. done.
    + exists c'. split; [exact Hd|]. split; [done|]. split; [done|].
      rewrite Hp'. change (all_commands c2) with (all_commands c1). rewrite Hp1. simpl mc_clock. rewrite Ek.
      solve_Permutation.
Qed.
End distribution.
