(* ===== verification/Ledger.v ===== *)
(** * Every request is pending until it is answered, once

    The controller keeps every request it accepted in [pendingReadRequest] or
    [pendingWriteRequest] until its last data went over the bus; then it calls
    back, deletes it and takes it out. This file states the account as a multiset
    of (type, requestor, address): an operation moves requests from the pending
    ones to the answered ones, and no pointer of the pending lists dangles, no
    request is deleted twice, none is forgotten. *)
From S2P Require Import Prelude Types AddrMap ReqQueue CmdQueue CmdGen ReqSched DRAM DDR3 Device Refresh CmdSched CmdAlg Config Controller.
#[local] Open Scope Z_scope.

(** What a client knows a request by. *)
Definition key (r : Request) : RequestType * Z * Z := (requestType r, requestorID r, address r).

(** The decoding keeps what a request was made with. *)
Lemma addressMapping_keeps mode dec r r' oob :
  addressMapping mode dec r = Ok (r', oob) → key r' = key r ∧ requestSize r' = requestSize r.
Proof.
  unfold addressMapping. intros Hm. apply bind_Ok in Hm as ([[[a b] r1] o] & Hf & Hm).
  injection Hm as <- <-.
  assert (key r1 = key r ∧ requestSize r1 = requestSize r) as [Ek Es].
  { revert Hf. apply (foldM_inv (λ s : Z * Z * Request * list nat, key s.1.2 = key r ∧ requestSize s.1.2 = requestSize r)); [done|].
    intros [m k] [[[x y] s1] o1] s2 _ Hk Hs. simpl in Hk. unfold decode_step, assign in Hs.
    apply bind_Ok in Hs as (? & _ & Hs). apply bind_Ok in Hs as (? & _ & Hs). apply bind_Ok in Hs as (? & _ & Hs).
    destruct (write_addressMap _ _ _ _). injection Hs as <-. by destruct m. }
  rewrite <- Ek, <- Es. by destruct mode.
Qed.

Lemma addressMapping_key mode dec r r' oob : addressMapping mode dec r = Ok (r', oob) → key r' = key r.
Proof. by intros [? _]%addressMapping_keeps. Qed.

(** ** Lists of live pointers *)
Definition keys (h : rheap) (l : list ptr) : list (RequestType * Z * Z) := omap (λ p, key <$> h !! p) l.

#[export] Instance keys_Permutation h : Proper (Permutation ==> Permutation) (keys h).
Proof. apply omap_Permutation. Qed.

Lemma keys_cons h p l r : h !! p = Some r → keys h (p :: l) = key r :: keys h l.
Proof. unfold keys. simpl. by intros ->. Qed.

Lemma keys_same h h' l :
  (∀ p, p ∈ l → key <$> h !! p = key <$> h' !! p) → keys h l = keys h' l.
Proof.
  intros Hl. apply list_omap_ext. induction l as [|p l IH]; constructor; [apply Hl; left|].
  apply IH. intros; apply Hl; by right.
Qed.

(** ** The account of a controller *)
Section ledger.
Context {A B Dev : Type} {Gen : CommandGenerator} {ReqA : RequestScheduling A}
  {DevI : MemoryDevice Dev} {CmdS : CommandScheduling Dev B}.
Implicit Types c : Controller A B Dev.

Definition all_pending c : list ptr := pendingReadRequest c ++ pendingWriteRequest c.

(** The live requests are exactly the pending ones, each in the list of its
    type. *)
Record ledger_ok c : Prop := {
  lo_nodup : NoDup (all_pending c);
  lo_live p : p ∈ all_pending c ↔ is_Some (mc_heap c !! p);
  lo_type w p r : p ∈ pending w c → mc_heap c !! p = Some r →
    requestType r = if w then DATA_WRITE else DATA_READ;
}.

Definition ledger c : list (RequestType * Z * Z) := keys (mc_heap c) (all_pending c).

Lemma ledger_frame c c' :
  mc_heap c' = mc_heap c → pendingReadRequest c' = pendingReadRequest c →
  pendingWriteRequest c' = pendingWriteRequest c →
  (ledger_ok c → ledger_ok c') ∧ ledger c' = ledger c.
Proof.
  intros E1 E2 E3. unfold ledger, all_pending. rewrite E1, E2, E3. split; [|done].
  intros [H1 H2 H3]. split; unfold all_pending; rewrite ?E1, ?E2, ?E3; [done|done|].
  intros w p r Hp. apply H3. destruct w; simpl in *; congruence.
Qed.

Lemma ledger_nil c : ledger_ok c → ledger c = [] → all_pending c = [].
Proof.
  intros [_ Hlive _] Hl. unfold ledger in Hl. destruct (all_pending c) as [|p l]; [done|].
  destruct (proj1 (Hlive p) ltac:(left)) as [r Hr]. by rewrite (keys_cons _ _ _ _ Hr) in Hl.
Qed.

Lemma pending_all w c (p : ptr) : p ∈ pending w c → p ∈ all_pending c.
Proof. unfold all_pending. destruct w; simpl; set_solver. Qed.

Lemma all_pending_set w l c : all_pending (set_pending w l c) ≡ₚ l ++ pending (negb w) c.
Proof. unfold all_pending. destruct w; simpl; [by rewrite Permutation_app_comm|done]. Qed.

Lemma all_pending_split w c : all_pending c ≡ₚ pending w c ++ pending (negb w) c.
Proof. unfold all_pending. destruct w; simpl; [by rewrite Permutation_app_comm|done]. Qed.

(** A new request enters the account. *)
Lemma ledger_add (w : bool) c h r p :
  ledger_ok c → alloc (mc_heap c) r = (h, p) → requestType r = (if w then DATA_WRITE else DATA_READ) →
  let c' := set_pending w (pending w c ++ [p]) (set_mc_heap h c) in
  ledger_ok c' ∧ ledger c' ≡ₚ key r :: ledger c.
Proof.
  intros [Hnd Hlive Hty] [Hfresh ->]%alloc_fresh Ht c'.
  assert (p ∉ all_pending c) as Hp by (rewrite Hlive, Hfresh; by intros [? ?]).
  assert (all_pending c' ≡ₚ p :: all_pending c) as Hperm.
  { unfold c'. rewrite all_pending_set, (all_pending_split w c).
    replace (pending (negb w) (set_mc_heap (<[p:=r]> (mc_heap c)) c)) with (pending (negb w) c) by (by destruct w).
    solve_Permutation. }
  assert (mc_heap c' = <[p := r]> (mc_heap c)) as Eh by (by destruct w).
  split; [split|].
  - rewrite Hperm. by constructor.
  - intros x. rewrite Hperm, Eh, elem_of_cons. destruct (decide (x = p)) as [->|Hne].
    + rewrite lookup_insert_eq. split; [by eexists|by left].
    + rewrite lookup_insert_ne by done. rewrite <- Hlive. naive_solver.
  - intros w' x r' Hx. rewrite Eh. destruct (decide (x = p)) as [->|Hne].
    + rewrite lookup_insert_eq. intros [= <-]. rewrite Ht.
      destruct w, w'; try done; simpl in Hx; contradict Hp;
        [eapply (pending_all false)|eapply (pending_all true)]; done.
    + rewrite lookup_insert_ne by done. intros Hr'. eapply Hty; [|exact Hr'].
      destruct w, w'; simpl in *; rewrite ?elem_of_app, ?list_elem_of_singleton in Hx; naive_solver.
  - unfold ledger. rewrite Hperm, Eh. rewrite (keys_cons _ _ _ r) by apply lookup_insert_eq. constructor.
    rewrite (keys_same (<[p:=r]> (mc_heap c)) (mc_heap c)); [done|].
    intros x Hx. rewrite lookup_insert_ne by (by intros ->). done.
Qed.

Lemma find_pending_spec h p l k0 k x r :
  find_pending h p l k0 = Ok (Some (k, x, r)) →
  (k0 ≤ k)%nat ∧ l !! (k - k0)%nat = Some x ∧ h !! x = Some r ∧ bp_requestorID p = requestorID r ∧ bp_address p = address r.
Proof.
  revert k0. induction l as [|y l IH]; intros k0 Hf; [done|]. simpl in Hf.
  apply bind_Ok in Hf as (ry & Hy%deref_Ok & Hf). case_bool_decide as Hm.
  - injection Hf as <- <- <-. rewrite Nat.sub_diag. naive_solver.
  - apply IH in Hf as (Hk & Hl & Hr). split; [lia|].
    replace (k - k0)%nat with (S (k - S k0)) by lia. done.
Qed.

(** The answer to a request takes it out of the account, and nothing else does. *)
Lemma ledger_respond w p c o c' :
  ledger_ok c → respond w p c = Ok (o, c') →
  ledger_ok c' ∧ ledger c ≡ₚ option_list (key <$> o) ++ ledger c' ∧
  (∀ r, o = Some r → requestorID r = bp_requestorID p ∧ address r = bp_address p ∧
    requestType r = (if w then DATA_WRITE else DATA_READ) ∧ requestSize r = busWidth (mc_setup c)).
Proof.
  intros [Hnd Hlive Hty] Hr. unfold respond in Hr.
  set (c1 := set_mc_stats _ c) in Hr. apply bind_Ok in Hr as (m & Hf & Hr).
  change (mc_heap c1) with (mc_heap c) in *. change (pending w c1) with (pending w c) in *.
  change (mc_setup c1) with (mc_setup c) in *.
  destruct m as [[[k x] r]|]; [|injection Hr as <- <-; split; [by split|split; [done|done]]].
  apply find_pending_spec in Hf as (_ & Hk & Hx & Hid & Ha). rewrite Nat.sub_0_r in Hk.
  case_bool_decide as Hsz.
  - destruct (callback_set _); [|done]. injection Hr as <- <-. set (c' := set_pending _ _ _).
    assert (mc_heap c' = delete x (mc_heap c)) as Eh by (by destruct w).
    assert (all_pending c ≡ₚ x :: all_pending c') as Hperm.
    { unfold c'. rewrite all_pending_set, (all_pending_split w c).
      rewrite (delete_Permutation _ _ _ Hk) at 1. simpl. constructor. by destruct w. }
    pose proof Hnd as Hnd'. rewrite Hperm in Hnd'. apply NoDup_cons in Hnd' as [Hni Hnd'].
    split; [split|split].
    + done.
    + intros y. rewrite Eh. destruct (decide (y = x)) as [->|Hne].
      * rewrite lookup_delete_eq. split; [done|by intros [? ?]].
      * rewrite lookup_delete_ne, <- Hlive, Hperm, elem_of_cons by done. naive_solver.
    + intros w' y ry Hy. rewrite Eh. intros [_ Hry]%lookup_delete_Some. eapply Hty; [|exact Hry].
      destruct w, w'; simpl in *; first [exact Hy|exact (elem_of_submseteq _ _ _ Hy (submseteq_delete _ _))].
    + unfold ledger. rewrite Hperm at 1. rewrite (keys_cons _ _ _ r) by done. simpl. constructor.
      rewrite (keys_same (mc_heap c) (delete x (mc_heap c))); [done|].
      intros y Hy. rewrite lookup_delete_ne by (by intros ->). done.
    + intros ? [= <-]. split_and!; [done|done| |done]. eapply Hty; [by eapply list_elem_of_lookup_2|done].
  - injection Hr as <- <-. set (r' := set_requestSize _ r). set (c' := set_mc_heap _ _).
    assert (∀ y, key <$> mc_heap c' !! y = key <$> mc_heap c !! y ∧ requestType <$> mc_heap c' !! y = requestType <$> mc_heap c !! y) as Hsame.
    { intros y. simpl. destruct (decide (y = x)) as [->|Hne]; [rewrite lookup_insert_eq, Hx; done|by rewrite lookup_insert_ne]. }
    split; [split; [done| |]|split; [|done]].
    + intros y. change (all_pending c') with (all_pending c). rewrite Hlive.
      destruct (Hsame y) as [E _]. destruct (mc_heap c' !! y), (mc_heap c !! y); try done; split; intros [? ?]; try done; by eexists.
    + intros w' y ry Hy Hry. change (pending w' c') with (pending w' c) in Hy. destruct (Hsame y) as [_ E].
      rewrite Hry in E. destruct (mc_heap c !! y) as [r0|] eqn:E0; [|done]. injection E as ->. by eapply Hty.
    + simpl. unfold ledger. change (all_pending c') with (all_pending c).
      rewrite (keys_same (mc_heap c) (mc_heap c')); [done|]. intros y _. symmetry. apply Hsame.
Qed.

Lemma insertRequest_true h p q b q' : insertRequest h p q = Ok (b, q') → b = true.
Proof.
  unfold insertRequest. intros Hi. apply bind_Ok in Hi as (r & _ & Hi).
  destruct (ReqQueue.writeQueueEnable q && _).
  - apply bind_Ok in Hi as (w & _ & Hi). by injection Hi as <- _.
  - destruct (perRequestorEnable q); by injection Hi as <- _.
Qed.

(** [addRequest] enters the request under the key it was made with. *)
Lemma addRequest_ledger g id addr R_W size c c' :
  ledger_ok c → addRequest g id addr R_W size c = Ok c' →
  ledger_ok c' ∧ ledger c' ≡ₚ (if R_W then DATA_READ else DATA_WRITE, id, addr) :: ledger c.
Proof.
  intros Hok Ha. unfold addRequest in Ha. apply bind_Ok in Ha as ([r oob] & Hr & Ha).
  apply addressMapping_key in Hr. apply bind_Ok in Ha as (u & _ & Ha). destruct (alloc _ r) as [h p] eqn:Hal.
  apply bind_Ok in Ha as (i & _ & Ha). apply bind_Ok in Ha as (q & _ & Ha).
  apply bind_Ok in Ha as ([b q'] & Hi & Ha). apply insertRequest_true in Hi as ->. injection Ha as <-.
  destruct (ledger_add (negb R_W) c h r p) as [H1 H2]; [done|done|unfold key in Hr; by destruct R_W; injection Hr|].
  set (c1 := set_pending _ _ (set_mc_heap h c)) in *. set (c2 := set_pending _ _ (set_requestScheduler _ _)).
  destruct (ledger_frame c1 c2) as [F1 F2]; [by destruct R_W..|].
  split; [by apply F1|]. rewrite F2, H2, Hr. by destruct R_W.
Qed.

Lemma sendData_ledger p c o c' :
  ledger_ok c → sendData p c = Ok (o, c') →
  ledger_ok c' ∧ ledger c ≡ₚ option_list (key <$> o) ++ ledger c'.
Proof.
  intros Hok Hs. unfold sendData in Hs. apply bind_Ok in Hs as (d & _ & Hs).
  set (c1 := set_commandScheduler _ c) in Hs. destruct (ledger_frame c c1) as [F1 F2]; [done..|].
  destruct (ledger_respond _ _ _ _ _ (F1 Hok) Hs) as (H1 & H2 & _). by rewrite <- F2.
Qed.

Lemma send_due_ledger c o ans c' :
  ledger_ok c → send_due c = Ok (o, ans, c') →
  ledger_ok c' ∧ ledger c ≡ₚ option_list (key <$> ans) ++ ledger c'.
Proof.
  intros Hok Hs. unfold send_due in Hs. destruct (sendDataCounter c) as [|n l]; [by injection Hs as <- <- <-|].
  apply bind_Ok in Hs as ([[o1 a1] c1] & Hs1 & Hs). injection Hs as <- <- <-. simpl.
  set (c2 := set_sendData _ _ c1). destruct (ledger_frame c1 c2) as [F1 F2]; [done..|]. rewrite F2.
  cut (ledger_ok c1 ∧ ledger c ≡ₚ option_list (key <$> a1) ++ ledger c1); [naive_solver|].
  case_bool_decide; [|by injection Hs1 as <- <- <-].
  apply bind_Ok in Hs1 as (p & _ & Hs1). apply bind_Ok in Hs1 as ([a3 c3] & Hs1 & Hs2). injection Hs2 as <- <- <-.
  destruct (sendData_ledger _ _ _ _ Hok Hs1) as [H1 H2]. simpl. set (c4 := set_sendData _ _ c3).
  destruct (ledger_frame c3 c4) as [G1 G2]; [done..|]. rewrite G2. split; [by apply G1|done].
Qed.

Lemma update_ledger c o c' :
  ledger_ok c → update c = Ok (o, c') →
  ledger_ok c' ∧ ledger c ≡ₚ option_list (key <$> out_answer o) ++ ledger c'.
Proof.
  intros Hok Hu. unfold update in Hu. apply bind_Ok in Hu as ([a rs] & _ & Hu).
  set (c1 := set_requestState _ _) in Hu. apply bind_Ok in Hu as (c2 & Hd & Hu).
  apply bind_Ok in Hu as (s & _ & Hu). apply bind_Ok in Hu as ([[p b] s1] & _ & Hu).
  set (c3 := note_write _ _) in Hu. apply bind_Ok in Hu as ([[sent ans] c4] & Hs & Hu).
  apply bind_Ok in Hu as (s2 & _ & Hu). injection Hu as <- <-. simpl. set (c5 := set_mc_stats _ _).
  apply drain_frame in Hd as (_ & _ & _ & E1 & E2 & E3 & _).
  destruct (ledger_frame c c3) as [F1 F2].
  1-3: unfold c3, note_write; destruct p as [p|]; [destruct (is_write _)|]; done.
  destruct (ledger_frame c4 c5) as [G1 G2]; [done..|].
  destruct (send_due_ledger _ _ _ _ (F1 Hok) Hs) as [H1 H2]. rewrite <- F2, G2. split; [by apply G1|done].
Qed.
(** ** The last data answer a request *)

(** Data packets that arrive one after the other, with the answers. *)
Fixpoint responds (w : bool) (ps : list BusPacket) c : res (list (option Request) * Controller A B Dev) :=
  match ps with
  | [] => Ok ([], c)
  | p :: ps => oc ← respond w p c; ol ← responds w ps oc.2; Ok (oc.1 :: ol.1, ol.2)
  end.

Lemma find_pending_size h p q l k0 k x r n :
  find_pending h p l k0 = Ok (Some (k, x, r)) → bp_requestorID q = bp_requestorID p → bp_address q = bp_address p →
  find_pending (<[x := set_requestSize n r]> h) q l k0 = Ok (Some (k, x, set_requestSize n r)).
Proof.
  intros Hf Eid Ea. revert k0 Hf. induction l as [|y l IH]; intros k0 Hf; [done|]. simpl in *.
  apply bind_Ok in Hf as (ry & Hy%deref_Ok & Hf). destruct (decide (y = x)) as [->|Hne].
  - unfold deref at 1. rewrite lookup_insert_eq. simpl. rewrite Eid, Ea. case_bool_decide as Hm.
    + injection Hf as <- <-. by rewrite bool_decide_true.
    + assert (ry = r) as -> by (apply find_pending_spec in Hf as (_ & _ & Hx & _); congruence).
      rewrite bool_decide_false by done. by apply IH.
  - unfold deref at 1. rewrite lookup_insert_ne, Hy by done. simpl. rewrite Eid, Ea. case_bool_decide as Hm.
    + by injection Hf as <- <- <-.
    + by apply IH.
Qed.

Lemma respond_found w p c k x r :
  find_pending (mc_heap c) p (pending w c) 0 = Ok (Some (k, x, r)) →
  let c1 := set_mc_stats (stats_bytes w (busWidth (mc_setup c)) (mc_stats c)) c in
  respond w p c =
    if bool_decide (requestSize r = busWidth (mc_setup c)) then
      if callback_set (mc_setup c) then
        Ok (Some r, set_pending w (delete k (pending w c)) (set_mc_heap (delete x (mc_heap c))
              (set_mc_stats (stats_answer w (bp_requestorID p) (mc_stats c1)) c1)))
      else Err BadFunctionCall
    else Ok (None, set_mc_heap (<[x := set_requestSize (u32 (requestSize r - busWidth (mc_setup c))) r]> (mc_heap c)) c1).
Proof.
  intros Hf c1. unfold respond. fold c1.
  change (find_pending (mc_heap c1) p (pending w c1) 0) with (find_pending (mc_heap c) p (pending w c) 0).
  rewrite Hf. by destruct w.
Qed.

(** C33. With a callback set, a request whose size is [n] times the width of the bus, and that is the first pending
    one of its type, requestor and address, is answered by exactly the [n]-th data packet, and
    not before, when the packets that come are those for its requestor and address. *)
Theorem answered_with_last_data w ps p c k x r :
  let width := busWidth (mc_setup c) in
  callback_set (mc_setup c) = true → 0 < width →
  find_pending (mc_heap c) p (pending w c) 0 = Ok (Some (k, x, r)) →
  requestSize r = Z.of_nat (S (length ps)) * width → requestSize r < 2 ^ 32 →
  Forall (λ q, bp_requestorID q = bp_requestorID p ∧ bp_address q = bp_address p) ps →
  ∃ c' r', responds w (p :: ps) c = Ok (((λ _, None) <$> ps) ++ [Some r'], c') ∧ key r' = key r ∧
    pending w c' = delete k (pending w c) ∧ mc_heap c' !! x = None.
Proof.
  revert p c r. induction ps as [|q ps IH]; intros p c r width Hcb Hw Hf Hsz Hlt Hps.
  - cbn [responds]. rewrite (respond_found _ _ _ _ _ _ Hf), bool_decide_true, Hcb by (simpl in Hsz; lia).
    eexists _, r. split; [done|]. split; [done|]. split; [by destruct w|]. destruct w; simpl; apply lookup_delete_eq.
  - apply Forall_cons in Hps as [[Eid Ea] Hps].
    assert (requestSize r - width = Z.of_nat (S (length ps)) * width) as E by (rewrite Hsz; simpl length; lia).
    cbn [responds]. rewrite (respond_found _ _ _ _ _ _ Hf), bool_decide_false by (fold width; nia). fold width.
    cbn [mbind res_bind fst snd]. rewrite (u32_small (requestSize r - width)) by nia.
    set (r1 := set_requestSize (requestSize r - width) r). set (c2 := set_mc_heap _ _).
    destruct (IH q c2 r1) as (c' & r' & Hr & Hk & Hp & Hx); [done|done| |exact E|simpl; lia| |].
    + change (find_pending (<[x := r1]> (mc_heap c)) q (pending w c) 0 = Ok (Some (k, x, r1))).
      by apply find_pending_size with p.
    + eapply Forall_impl; [exact Hps|]. simpl. intros y [-> ->]. done.
    + exists c', r'. cbn [responds] in Hr |- *. rewrite Hr. cbn [mbind res_bind fst snd].
      split; [done|]. split; [by rewrite Hk|]. split; [by rewrite Hp|done].
Qed.
End ledger.
