(* ===== verification/Flow.v ===== *)
(** * The account of the data of every request

    A request is served by the commands of its column accesses, an access moves data
    of one width of the bus, and the data are charged to the first pending request of
    their requestor and address. This file keeps the account: for every key (type,
    requestor, address) the requests of the key that are no longer in the request
    queue are the first pending ones, and the bytes they still wait for are one width
    of the bus for each of their accesses in the command queues and each of their data
    on the way. So the data that arrive always find their request, and a request is
    answered with the last data of its own.

    What it takes: the queue gives the requests of a key out in the order of their
    arrival ([PromptAlgorithm]), and every size is a multiple of the width. *)
From S2P Require Import Prelude Types KeyedBuf AddrMap ReqQueue CmdQueue CmdGen ReqSched Prompt DRAM DDR3 Device Refresh CmdSched CmdAlg Config Controller Ledger.
#[local] Open Scope Z_scope.

Abbreviation rkey := (RequestType * Z * Z)%type.

Definition is_write_key (K : rkey) : bool := bool_decide (K.1.1 = DATA_WRITE).

(** ** Lists of pointers *)

(** The requests of key [K], in their order. *)
Definition of_key (h : rheap) (K : rkey) (l : list ptr) : list ptr := filter (λ p, key <$> h !! p = Some K) l.

(** The bytes a list of requests waits for. *)
Fixpoint bytes (h : rheap) (l : list ptr) : Z :=
  match l with
  | [] => 0
  | p :: l => default 0 (requestSize <$> h !! p) + bytes h l
  end.

(** The number of [K] in a list of keys. *)
Definition count_key (K : rkey) (l : list rkey) : Z := Z.of_nat (length (filter (λ x, x = K) l)).

#[export] Instance count_key_Permutation K : Proper (Permutation ==> (=)) (count_key K).
Proof. intros l l' Hl. unfold count_key. by rewrite Hl. Qed.

Lemma count_key_app K l l' : count_key K (l ++ l') = count_key K l + count_key K l'.
Proof. unfold count_key. rewrite filter_app, length_app. lia. Qed.
Lemma count_key_cons K x l : count_key K (x :: l) = (if decide (x = K) then 1 else 0) + count_key K l.
Proof. unfold count_key. rewrite filter_cons. case_decide; simpl; lia. Qed.
Lemma count_key_nil K : count_key K [] = 0.
Proof. done. Qed.
Lemma count_key_nonneg K l : 0 ≤ count_key K l.
Proof. unfold count_key. lia. Qed.
Lemma count_key_replicate K n x : count_key K (replicate n x) = if decide (x = K) then Z.of_nat n else 0.
Proof.
  induction n as [|n IH]; simpl; [by case_decide|]. rewrite count_key_cons, IH. case_decide; lia.
Qed.

Lemma bytes_ge h l p r :
  (∀ x r, h !! x = Some r → 0 ≤ requestSize r) → p ∈ l → h !! p = Some r → requestSize r ≤ bytes h l.
Proof.
  intros Hpos Hp Hr. assert (∀ l, 0 ≤ bytes h l) as Hnn.
  { induction l0 as [|x l0 IH]; simpl; [done|]. destruct (h !! x) as [y|] eqn:E; simpl; [|done]. pose proof (Hpos _ _ E). lia. }
  induction Hp as [x l|x y l _ IH]; simpl.
  - rewrite Hr. simpl. pose proof (Hnn l). lia.
  - specialize (IH Hr). destruct (h !! y) as [z|] eqn:E; simpl; [|done]. pose proof (Hpos _ _ E). lia.
Qed.

Lemma bytes_app h l l' : bytes h (l ++ l') = bytes h l + bytes h l'.
Proof. induction l as [|p l IH]; simpl; lia. Qed.

Lemma bytes_same h h' l : (∀ p, p ∈ l → h' !! p = h !! p) → bytes h' l = bytes h l.
Proof.
  induction l as [|p l IH]; intros Hl; [done|]. simpl. rewrite Hl by left. rewrite IH; [done|]. intros; apply Hl; by right.
Qed.

Lemma of_key_same h h' K l : (∀ p, p ∈ l → key <$> h' !! p = key <$> h !! p) → of_key h' K l = of_key h K l.
Proof.
  unfold of_key. induction l as [|p l IH]; intros Hl; [done|]. rewrite !filter_cons, (Hl p) by left.
  rewrite IH by (intros; apply Hl; by right). done.
Qed.

Lemma of_key_elem h K l p : p ∈ of_key h K l ↔ p ∈ l ∧ key <$> h !! p = Some K.
Proof. unfold of_key. rewrite list_elem_of_filter. naive_solver. Qed.

Lemma of_key_app h K l l' : of_key h K (l ++ l') = of_key h K l ++ of_key h K l'.
Proof. apply filter_app. Qed.

Lemma of_key_one h K p : of_key h K [p] = if decide (key <$> h !! p = Some K) then [p] else [].
Proof. unfold of_key. rewrite filter_cons. by case_decide. Qed.

(** Taking out an element that has another key, or that is the first of its key. *)
Lemma of_key_delete h K l k p :
  l !! k = Some p → key <$> h !! p ≠ Some K → of_key h K (delete k l) = of_key h K l.
Proof.
  revert k. induction l as [|x l IH]; intros [|k] Hk Hp; simplify_eq/=.
  - unfold of_key. by rewrite filter_cons_False.
  - unfold of_key in *. rewrite !filter_cons. by rewrite (IH k Hk Hp).
Qed.

Lemma of_key_first h K l k p :
  l !! k = Some p → key <$> h !! p = Some K →
  (∀ j x, (j < k)%nat → l !! j = Some x → key <$> h !! x ≠ Some K) →
  of_key h K l = p :: of_key h K (delete k l).
Proof.
  revert k. induction l as [|x l IH]; intros [|k] Hk Hp Hj; simplify_eq/=.
  - unfold of_key. by rewrite filter_cons_True.
  - assert (key <$> h !! x ≠ Some K) as Hx by (by apply (Hj 0%nat); [lia|]).
    unfold of_key in *. rewrite !filter_cons, !decide_False by done. apply IH; [done|done|].
    intros j y Hlt Hy. apply (Hj (S j)); [lia|done].
Qed.

(** The first pending request of the requestor and the address of a packet. *)
Lemma find_pending_first h pk l t i x rest :
  (∀ p, p ∈ l → ∃ r, h !! p = Some r ∧ requestType r = t) →
  of_key h (t, bp_requestorID pk, bp_address pk) l = x :: rest →
  ∃ k r, find_pending h pk l i = Ok (Some ((i + k)%nat, x, r)) ∧ l !! k = Some x ∧ h !! x = Some r ∧
    key r = (t, bp_requestorID pk, bp_address pk) ∧
    ∀ j y, (j < k)%nat → l !! j = Some y → key <$> h !! y ≠ Some (t, bp_requestorID pk, bp_address pk).
Proof.
  intros Hl. revert i. induction l as [|p l IH]; intros i Hk; [done|].
  destruct (Hl p) as (r & Hr & Ht); [left|]. simpl. rewrite (proj2 (deref_Ok h p r) Hr). cbn [mbind res_bind].
  unfold of_key in Hk. rewrite filter_cons in Hk. case_decide as Hkey.
  - injection Hk as <- _. rewrite Hr in Hkey. simpl in Hkey. injection Hkey as E1 E2 E3. rewrite bool_decide_true by done.
    exists 0%nat, r. rewrite Nat.add_0_r. split_and!; [done|done|done|unfold key; congruence|]. intros; lia.
  - rewrite bool_decide_false.
    + destruct (IH (λ q Hq, Hl q (list_elem_of_further _ _ _ Hq)) (S i) Hk) as (k & r' & -> & H2 & H3 & H4 & H5).
      exists (S k), r'. split; [by rewrite Nat.add_succ_r|]. split_and!; [done|done|done|].
      intros [|j] y Hj Hy; [by injection Hy as <-|]. apply (H5 j); [lia|done].
    + intros [E1 E2]. apply Hkey. rewrite Hr. simpl. unfold key. congruence.
Qed.

(** ** The account *)

(** [pend w] are the pending requests, [buf] the ones in the request queue, [toks] the
    keys of the data that were asked for and did not arrive. *)
Definition account (width : Z) (h : rheap) (pend : bool → list ptr) (buf : list ptr) (toks : list rkey) : Prop :=
  ∀ K, ∃ S, of_key h K (pend (is_write_key K)) = S ++ of_key h K buf ∧ bytes h S = width * count_key K toks.

#[export] Instance account_Permutation width h pend buf : Proper (Permutation ==> iff) (account width h pend buf).
Proof. intros l l' Hl. unfold account. split; intros Ha K; destruct (Ha K) as (S & ? & E); exists S; rewrite E, Hl; done. Qed.

Lemma account_ext width h pend pend' buf toks :
  (∀ w, pend' w = pend w) → account width h pend buf toks → account width h pend' buf toks.
Proof. intros E Ha K. destruct (Ha K) as (S & ? & ?). exists S. by rewrite E. Qed.

Section account.
Variable width : Z.
Implicit Types (h : rheap) (pend : bool → list ptr) (buf : list ptr) (toks : list rkey).

Lemma account_start pend h : (∀ w, pend w = []) → account width h pend [] [].
Proof. intros E K. exists []. rewrite E, count_key_nil. split; [done|simpl; lia]. Qed.

(** A request arrives. *)
Lemma account_add h pend buf toks p r w pend' :
  account width h pend buf toks → h !! p = None → (∀ w, p ∉ pend w) → p ∉ buf →
  w = is_write_key (key r) → pend' w = pend w ++ [p] → (∀ w', w' ≠ w → pend' w' = pend w') →
  account width (<[p := r]> h) pend' (buf ++ [p]) toks.
Proof.
  intros Ha Hp Hpend Hbuf -> Ew Eo K. destruct (Ha K) as (S & E & Hb).
  assert (∀ l, p ∉ l → of_key (<[p := r]> h) K l = of_key h K l) as Hsame.
  { intros l Hl. apply of_key_same. intros x Hx. rewrite lookup_insert_ne; [done|by intros ->]. }
  assert (bytes (<[p := r]> h) S = bytes h S) as EbS.
  { apply bytes_same. intros x Hx. rewrite lookup_insert_ne; [done|intros ->].
    apply (Hpend (is_write_key K)). eapply proj1, of_key_elem. rewrite E. apply elem_of_app. by left. }
  exists S. rewrite EbS. split; [|done]. rewrite of_key_app, (Hsame buf), of_key_one, lookup_insert_eq by done. simpl.
  destruct (decide (Some (key r) = Some K)) as [[= <-]|Hne].
  - rewrite Ew, of_key_app, Hsame, E, of_key_one, lookup_insert_eq by done. simpl. rewrite decide_True by done. by rewrite app_assoc.
  - rewrite app_nil_r, <- E. destruct (decide (is_write_key K = is_write_key (key r))) as [Ek|Hk].
    + rewrite Ek, Ew, of_key_app, Hsame, of_key_one, lookup_insert_eq by done. simpl. rewrite decide_False by done.
      by rewrite app_nil_r.
    + rewrite Eo, Hsame by done. done.
Qed.

(** A request leaves the queue: its data are asked for. *)
Lemma account_serve h pend buf toks k p r n :
  account width h pend buf toks → buf !! k = Some p → h !! p = Some r →
  (∀ j x, (j < k)%nat → buf !! j = Some x → key <$> h !! x ≠ Some (key r)) →
  requestSize r = width * Z.of_nat n →
  account width h pend (delete k buf) (replicate n (key r) ++ toks).
Proof.
  intros Ha Hk Hp Hj Hsz K. destruct (Ha K) as (S & E & Hb). rewrite count_key_app, count_key_replicate.
  destruct (decide (key r = K)) as [<-|Hne].
  - exists (S ++ [p]). rewrite bytes_app. simpl. rewrite Hp. simpl. split; [|lia].
    rewrite <- app_assoc, E. f_equal. simpl. apply of_key_first; [done|by rewrite Hp|done].
  - exists S. split; [|lia]. rewrite (of_key_delete h K buf k p); [done|done|]. rewrite Hp. simpl. congruence.
Qed.

(** Data that were asked for find a request. *)
Lemma account_head h pend buf K toks :
  0 < width → account width h pend buf (K :: toks) →
  ∃ x S, of_key h K (pend (is_write_key K)) = x :: S ++ of_key h K buf ∧
    bytes h (x :: S) = width * (1 + count_key K toks).
Proof.
  intros Hw Ha. destruct (Ha K) as (S & E & Hb). rewrite count_key_cons, decide_True in Hb by done.
  destruct S as [|x S]; [|by exists x, S]. simpl in Hb. pose proof (count_key_nonneg K toks). nia.
Qed.

(** The last data of a request. *)
Lemma account_done h pend buf K toks x k r pend' :
  0 < width → account width h pend buf (K :: toks) → NoDup (pend true ++ pend false) →
  pend (is_write_key K) !! k = Some x → h !! x = Some r → key r = K → requestSize r = width →
  (∀ j y, (j < k)%nat → pend (is_write_key K) !! j = Some y → key <$> h !! y ≠ Some K) →
  pend' (is_write_key K) = delete k (pend (is_write_key K)) →
  (∀ w, w ≠ is_write_key K → pend' w = pend w) →
  account width (delete x h) pend' buf toks ∧ x ∉ buf.
Proof.
  intros Hw Ha Hnd Hk Hx EK Hsz Hj Ew Eo. destruct (account_head _ _ _ _ _ Hw Ha) as (x' & S0 & E0 & Hb0).
  assert (key <$> h !! x = Some K) as HxK by (by rewrite Hx, <- EK).
  pose proof (of_key_first h K _ _ _ Hk HxK Hj) as Efirst. rewrite E0 in Efirst. injection Efirst as -> Erest.
  assert (∀ w, NoDup (pend w)) as Hndw by (intros []; apply NoDup_app in Hnd as (? & _ & ?); done).
  assert (NoDup (of_key h K (pend (is_write_key K)))) as HndK by apply NoDup_filter, Hndw.
  rewrite E0 in HndK. apply NoDup_cons in HndK as [HxS HndS]. rewrite elem_of_app in HxS.
  assert (x ∉ buf) as Hxb by (intros Hin; apply HxS; right; by apply of_key_elem).
  split; [|done].
  assert (x ∉ delete k (pend (is_write_key K))) as Hxd.
  { pose proof (Hndw (is_write_key K)) as Hnd'. rewrite (delete_Permutation _ _ _ Hk) in Hnd'. by apply NoDup_cons in Hnd' as [? _]. }
  assert (∀ w, w ≠ is_write_key K → x ∉ pend w) as Hxo.
  { intros w Hwne Hin. apply NoDup_app in Hnd as (_ & Hdis & _). apply list_elem_of_lookup_2 in Hk.
    destruct w, (is_write_key K); try done; [by eapply Hdis|by eapply (Hdis x)]. }
  assert (∀ K' l, x ∉ l → of_key (delete x h) K' l = of_key h K' l) as Hsame.
  { intros K' l Hl. apply of_key_same. intros y Hy. rewrite lookup_delete_ne; [done|by intros ->]. }
  assert (∀ l, x ∉ l → bytes (delete x h) l = bytes h l) as Hbsame.
  { intros l Hl. apply bytes_same. intros y Hy. rewrite lookup_delete_ne; [done|by intros ->]. }
  intros K'. destruct (decide (K' = K)) as [->|Hne].
  - exists S0. rewrite Ew, !Hsame by done. split; [by rewrite <- Erest|].
    rewrite Hbsame by (intros ?; apply HxS; by left). simpl in Hb0. rewrite Hx in Hb0. simpl in Hb0. lia.
  - destruct (Ha K') as (S & E & Hb). rewrite count_key_cons, decide_False in Hb by done. exists S.
    assert (x ∉ S) as HxS'.
    { intros Hin. assert (x ∈ of_key h K' (pend (is_write_key K'))) as [_ Hx']%of_key_elem by (rewrite E; apply elem_of_app; by left).
      congruence. }
    rewrite Hbsame by done. split; [|lia]. rewrite (Hsame _ buf) by done. rewrite <- E.
    destruct (decide (is_write_key K' = is_write_key K)) as [Ek|Hk'].
    + rewrite Ek, Ew, Hsame by done. apply of_key_delete with x; [done|]. congruence.
    + rewrite Eo, Hsame by auto. done.
Qed.

(** Data that are not the last ones. *)
Lemma account_less h pend buf K toks x k r :
  0 < width → account width h pend buf (K :: toks) → NoDup (pend true ++ pend false) →
  pend (is_write_key K) !! k = Some x → h !! x = Some r → key r = K →
  (∀ j y, (j < k)%nat → pend (is_write_key K) !! j = Some y → key <$> h !! y ≠ Some K) →
  account width (<[x := set_requestSize (requestSize r - width) r]> h) pend buf toks ∧ x ∉ buf.
Proof.
  intros Hw Ha Hnd Hk Hx EK Hj. destruct (account_head _ _ _ _ _ Hw Ha) as (x' & S0 & E0 & Hb0).
  assert (key <$> h !! x = Some K) as HxK by (by rewrite Hx, <- EK).
  pose proof (of_key_first h K _ _ _ Hk HxK Hj) as Efirst. rewrite E0 in Efirst. injection Efirst as -> Erest.
  assert (NoDup (of_key h K (pend (is_write_key K)))) as HndK
    by (apply NoDup_filter; destruct (is_write_key K); apply NoDup_app in Hnd as (? & _ & ?); done).
  rewrite E0 in HndK. apply NoDup_cons in HndK as [HxS _]. rewrite elem_of_app in HxS.
  split; [|intros Hin; apply HxS; right; by apply of_key_elem].
  set (h' := <[x := _]> h).
  assert (∀ K' l, of_key h' K' l = of_key h K' l) as Hsame.
  { intros K' l. apply of_key_same. intros y _. unfold h'. destruct (decide (y = x)) as [->|Hne];
      [by rewrite lookup_insert_eq, Hx|by rewrite lookup_insert_ne]. }
  assert (∀ l, x ∉ l → bytes h' l = bytes h l) as Hbsame.
  { intros l Hl. apply bytes_same. intros y Hy. unfold h'. rewrite lookup_insert_ne; [done|by intros ->]. }
  intros K'. rewrite !Hsame. destruct (decide (K' = K)) as [->|Hne].
  - exists (x :: S0). split; [exact E0|]. simpl. unfold h' at 1. rewrite lookup_insert_eq. simpl.
    rewrite Hbsame by (intros ?; apply HxS; by left). simpl in Hb0. rewrite Hx in Hb0. simpl in Hb0. lia.
  - destruct (Ha K') as (S & E & Hb). rewrite count_key_cons, decide_False in Hb by done. exists S. split; [done|].
    rewrite Hbsame; [lia|]. intros Hin.
    assert (x ∈ of_key h K' (pend (is_write_key K'))) as [_ Hx']%of_key_elem by (rewrite E; apply elem_of_app; by left).
    congruence.
Qed.
End account.

(** ** The answers *)
Section respond.
Context {A B Dev : Type} {Gen : CommandGenerator} {ReqA : RequestScheduling A}
  {DevI : MemoryDevice Dev} {CmdS : CommandScheduling Dev B}.
Implicit Types c : Controller A B Dev.

Definition sized (width : Z) (r : Request) : Prop :=
  ∃ n, 1 ≤ n ∧ requestSize r = width * n ∧ requestSize r < 2 ^ 32.

(** The requests that changed have a new size only. *)
Definition shrunk (width : Z) (h h' : rheap) : Prop :=
  ∀ x r', h' !! x = Some r' → ∃ r n, h !! x = Some r ∧ r' = set_requestSize n r ∧ sized width r'.

Lemma set_requestSize_id r : set_requestSize (requestSize r) r = r.
Proof. by destruct r. Qed.

(** Data that were asked for answer a request or make its size smaller, without a
    failure; the requests of the queue are not touched. *)
Lemma respond_account (w : bool) p c toks buf :
  let width := busWidth (mc_setup c) in
  0 < width → callback_set (mc_setup c) = true → ledger_ok c →
  account width (mc_heap c) (λ w : bool, pending w c) buf ((if w then DATA_WRITE else DATA_READ, bp_requestorID p, bp_address p) :: toks) →
  (∀ x r, mc_heap c !! x = Some r → sized width r) →
  ∃ o c', respond w p c = Ok (o, c') ∧ account width (mc_heap c') (λ w : bool, pending w c') buf toks ∧
    shrunk width (mc_heap c) (mc_heap c') ∧ ∀ x, x ∈ buf → mc_heap c' !! x = mc_heap c !! x.
Proof.
  intros width Hw Hcb [Hnd Hlive Hty] Ha Hsz. set (t := if w then DATA_WRITE else DATA_READ) in *.
  set (K := (t, bp_requestorID p, bp_address p)) in *.
  assert (is_write_key K = w) as EwK by (by destruct w).
  assert (NoDup (pending true c ++ pending false c)) as Hnd'
    by (unfold all_pending in Hnd; simpl; by rewrite Permutation_app_comm).
  destruct (account_head _ _ _ _ _ _ Hw Ha) as (x & S & E & _).
  rewrite EwK in E. destruct (find_pending_first (mc_heap c) p (pending w c) t 0 x (S ++ of_key (mc_heap c) K buf))
    as (k & r & Hf & Hk & Hx & Hkey & Hj); [|exact E|].
  { intros q Hq. destruct (proj1 (Hlive q) (pending_all _ _ _ Hq)) as [r Hr]. exists r. split; [done|]. by eapply Hty. }
  pose proof (respond_found w p c _ x r Hf) as Hr. fold width in Hr. rewrite Hr. destruct (Hsz x r Hx) as (n & Hn & Esz & Hlt).
  case_bool_decide as Hlast.
  - rewrite Hcb. eexists _, _. split; [done|]. set (c' := set_pending _ _ _).
    assert (mc_heap c' = delete x (mc_heap c)) as Eh by (by destruct w). rewrite Eh.
    destruct (account_done width (mc_heap c) (λ w : bool, pending w c) buf K toks x k r (λ w : bool, pending w c')) as [H1 H2];
      rewrite ?EwK; try done; [by destruct w|by intros w0 Hne; destruct w, w0|].
    split; [exact H1|]. split.
    + intros y r' [_ Hy]%lookup_delete_Some. exists r', (requestSize r'). rewrite set_requestSize_id. eauto.
    + intros y Hy. rewrite lookup_delete_ne; [done|by intros ->].
  - eexists _, _. split; [done|]. cbn [mc_heap set_mc_heap].
    assert (2 ≤ n) by (destruct (decide (n = 1)) as [->|]; [exfalso; apply Hlast; lia|lia]).
    rewrite u32_small by nia.
    destruct (account_less width (mc_heap c) (λ w : bool, pending w c) buf K toks x k r) as [H1 H2]; rewrite ?EwK; try done.
    split; [eapply account_ext; [|exact H1]; by intros []|]. split.
    + intros y r'. destruct (decide (y = x)) as [->|Hne].
      * rewrite lookup_insert_eq. intros [= <-]. exists r, (requestSize r - width). split_and!; [done|done|].
        exists (n - 1). simpl. split_and!; [lia|nia|nia].
      * rewrite lookup_insert_ne by done. intros Hy. exists r', (requestSize r'). rewrite set_requestSize_id. eauto.
    + intros y Hy. rewrite lookup_insert_ne; [done|by intros ->].
Qed.
End respond.

(** ** The commands of a request *)

(** The key of the data a command asks for. *)
Definition token (p : BusPacket) : option rkey :=
  if is_CAS (busPacketType p) then
    Some (if is_read (busPacketType p) then DATA_READ else DATA_WRITE, bp_requestorID p, bp_address p)
  else None.

Definition open_types : list BusPacketType := [PRE; ACT; RD; WR].

Record of_request (r : Request) (p : BusPacket) : Prop := {
  or_type : busPacketType p ∈ open_types;
  or_post : postCommand p = false;
  or_bank : bp_bank p = bank r;
  or_id : bp_requestorID p = requestorID r;
}.

Lemma of_request_packet t c d r : t ∈ open_types → of_request r (Open.packet t c d r).
Proof. by split. Qed.

(** [open_row] does not fail on one of the eight banks. *)
Lemma open_row_total bk open pre act g :
  length (gen_first g) = 8%nat → 0 ≤ bk < 8 →
  ∃ g' cs, open_row bk open pre act g = Ok g' ∧ commandBuffer g' = commandBuffer g ++ cs ∧
    dataBusSize g' = dataBusSize g ∧ length (gen_first g') = 8%nat ∧ cs ∈ [[]; act; pre ++ act].
Proof.
  intros Hlen Hbk. unfold open_row. destruct open.
  { exists g, []. rewrite app_nil_r. split_and!; try done. left. }
  destruct (lookup_lt_is_Some_2 (gen_first g) (Z.to_nat bk)) as [f Hf]; [lia|].
  unfold first_of, vec_at. rewrite Hf. cbn [mbind res_bind of_option]. destruct f.
  - unfold clear_first. rewrite vec_set_lt by (simpl; lia). cbn [mbind res_bind mret res_ret].
    eexists _, act. split; [done|]. split_and!; [done|done|simpl; by rewrite length_insert|right; left].
  - eexists _, (pre ++ act). split; [done|]. split_and!; [done|done|done|right; right; left].
Qed.

Lemma omap_constant {X Y U} (f : X → Y) (g : Y → option U) z l : (∀ x, g (f x) = Some z) → omap g (f <$> l) = replicate (length l) z.
Proof. intros Hg. induction l as [|x l IH]; [done|]. simpl. rewrite Hg. f_equal. exact IH. Qed.

(** The open-page generator makes one access per width of the bus, and at most a
    precharge and an activate more. *)
Lemma Open_makes r hit g n :
  0 < dataBusSize g → length (gen_first g) = 8%nat → 0 ≤ bank r < 8 → requestSize r = dataBusSize g * Z.of_nat n →
  ∃ g' cs, Open.commandGenerate r hit g = Ok (true, g') ∧ commandBuffer g' = commandBuffer g ++ cs ∧
    dataBusSize g' = dataBusSize g ∧ length (gen_first g') = 8%nat ∧ Forall (of_request r) cs ∧
    omap token cs = replicate n (key r) ∧ (length cs ≤ 2 + n)%nat.
Proof.
  intros Hbus Hlen Hbk Hsz. unfold Open.commandGenerate. rewrite udiv_pos by done. cbn [mbind res_bind].
  assert (requestSize r / dataBusSize g = Z.of_nat n) as -> by (rewrite Hsz, Z.mul_comm; apply Z.div_mul; lia).
  destruct (open_row_total (bank r) hit [Open.packet PRE (col r) 0 r] [Open.packet ACT (col r) 0 r] g Hlen Hbk)
    as (g1 & cs & -> & Hbuf & Hb & Hl & Hcs). cbn [mbind res_bind mret res_ret].
  set (CAS := if bool_decide (requestType r = DATA_WRITE) then WR else RD).
  set (acc := _ <$> urange (Z.of_nat n)). exists (push acc g1), (cs ++ acc).
  assert (CAS ∈ open_types ∧ ∀ c d, token (Open.packet CAS c d r) = Some (key r)) as [HC Htok].
  { unfold CAS, token, key. case_bool_decide as Ht; simpl; [split; [set_solver|intros; by rewrite Ht]|].
    split; [set_solver|]. intros. by destruct (requestType r). }
  assert (length acc = n) as Hacc by (unfold acc; rewrite length_fmap, length_urange; lia).
  split; [done|]. split; [by rewrite push_buffer, Hbuf, app_assoc|]. split; [done|]. split; [done|]. split_and!.
  - apply Forall_app. split; [|by apply Forall_fmap_all; intros; apply of_request_packet].
    rewrite !elem_of_cons, elem_of_nil in Hcs. destruct Hcs as [->|[->|[->|[]]]]; repeat constructor; apply of_request_packet; set_solver.
  - rewrite omap_app. assert (omap token cs = []) as ->
      by (rewrite !elem_of_cons, elem_of_nil in Hcs; by destruct Hcs as [->|[->|[->|[]]]]).
    simpl. unfold acc. rewrite (omap_constant _ _ (key r)) by done. by rewrite length_urange, Nat2Z.id.
  - rewrite length_app, Hacc. rewrite !elem_of_cons, elem_of_nil in Hcs. destruct Hcs as [->|[->|[->|[]]]]; simpl; lia.
Qed.
