(* ===== verification/Leaves.v ===== *)
(** * Every bank of a DDR3 device is reached

    The device tree of a DDR3 device with ranks has a leaf for every bank of rank 0,
    at construction and after any commands: the packets the open-page generator makes
    for a bank that exists can be tested and received in every state of a run. *)
From S2P Require Import Prelude Types DRAM DDR3 Device Refresh CmdQueue CmdSched CmdAlg CmdAlgos Progress Config Controller Flow.
#[local] Open Scope Z_scope.

(** A run changes neither the nodes nor their numbers. *)
Lemma reaches_run `{SpecLaws} (root n : Node) es addr : fresh root → run root es n → reaches addr root → reaches addr n.
Proof.
  intros Hf Hrun (Hlen & p & m & Hm & Hnil & Hr). destruct (run_inv root Hf es n Hrun) as (_ & El & Ei & Hall).
  split; [done|]. rewrite El, Ei. pose proof (Hall p) as Hp. rewrite Hm in Hp. destruct (node_at n p) as [m'|] eqn:Em; [|by inversion Hp].
  exists p, m'. split; [done|]. split; [|done]. destruct (children m') as [|x l] eqn:Ec; [done|].
  pose proof (Hall (p ++ [0%nat])) as Hc. rewrite !node_at_snoc, Hm, Em in Hc. simpl in Hc. rewrite Hnil, Ec in Hc.
  simpl in Hc. inversion Hc.
Qed.

Definition banks_of (sp : DDR3.t) : Z := DDR3.org_count_at (DDR3.org_entry sp) DDR3.Bank.

Lemma i32_small z : 0 ≤ z < 2 ^ 31 → i32 z = z.
Proof. intros Hz. unfold i32. rewrite u32_small by lia. by rewrite bool_decide_true by lia. Qed.

(** The tree of the constructor. *)
Lemma made_reaches sp ranks (d : Device) p :
  Ramulator_ctor sp ranks = Ok d → 0 < ranks → 0 ≤ bp_bank p < banks_of sp → banks_of sp < 2 ^ 31 →
  @reaches rm_standard (convert_addr p) (channel d).
Proof.
  intros Hd Hr Hb Hlt. unfold Ramulator_ctor in Hd. apply bind_Ok in Hd as (c & Hc & Hd). injection Hd as <-.
  cbn [channel]. change (convert_addr p) with (DDR3_addr p). unfold DDR3_addr. rewrite i32_small by lia.
  unfold banks_of, DDR3.org_count_at in *.
  destruct (DDR3.org_count (DDR3.org_entry sp) !! 2%nat) as [nb|] eqn:Enb; simpl in Hb, Hlt; rewrite Enb in Hb, Hlt; simpl in Hb, Hlt; [|lia].
  assert (DDR3.org_count_at (DDR3.set_rank_number ranks (DDR3.org_entry sp)) DDR3.Rank = ranks) as ER.
  { unfold DDR3.org_count_at, DDR3.set_rank_number. simpl. rewrite list_lookup_insert_eq; [done|].
    apply lookup_lt_Some in Enb. lia. }
  assert (DDR3.org_count_at (DDR3.set_rank_number ranks (DDR3.org_entry sp)) DDR3.Bank = nb) as EB.
  { unfold DDR3.org_count_at, DDR3.set_rank_number. simpl. by rewrite list_lookup_insert_ne, Enb. }
  cbn -[DDR3.org_count_at] in Hc. rewrite ER, EB in Hc.
  rewrite (bool_decide_false (1%nat = 3%nat)), (bool_decide_false (ranks = 0)), (bool_decide_false (2%nat = 3%nat)),
    (bool_decide_false (nb = 0)), (bool_decide_true (3%nat = 3%nat)) in Hc by lia.
  cbn [mbind res_bind] in Hc. injection Hc as <-. split; [simpl; lia|].
  exists [0%nat; Z.to_nat (bp_bank p)], (set_id (bp_bank p) (new_node (SP := DDR3.spec (DDR3_set_rank_number ranks sp)) DDR3.Bank)).
  cbn [node_at children set_children set_id]. split_and!; [|done|].
  - rewrite list_lookup_fmap, lookup_seq_lt by lia. cbn [fmap option_fmap option_map children set_id set_children].
    rewrite list_lookup_fmap, lookup_seq_lt by lia. cbn [fmap option_fmap option_map]. by rewrite Nat.add_0_l, Z2Nat.id by lia.
  - cbn. rewrite Z2Nat.id by lia. by rewrite !bool_decide_true.
Qed.

(** A packet the open-page generator makes for one of the banks. *)
Record packet_ok (sp : DDR3.t) (p : BusPacket) : Prop := {
  po_type : busPacketType p ∈ open_types;
  po_post : postCommand p = false;
  po_bank : 0 ≤ bp_bank p < banks_of sp;
}.

Lemma packet_stamp sp t p : packet_ok sp p → packet_ok sp (Controller.stamp t p).
Proof. by intros [? ? ?]. Qed.

Lemma packet_fits sp ranks (d0 d : Device) clk h p :
  Ramulator_ctor sp ranks = Ok d0 → 0 < ranks → banks_of sp < 2 ^ 31 →
  @run rm_standard (rm_spec (dev_spec d0)) (channel d0) (events clk h) (channel d) →
  @fresh rm_standard (rm_spec (dev_spec d0)) (channel d0) →
  packet_ok sp p → fits d p.
Proof.
  intros Hd Hr Hlt Hrun Hf [Ht _ Hb]. split; [|intros _].
  - unfold open_types in Ht. rewrite !elem_of_cons, elem_of_nil in Ht. destruct Ht as [->|[->|[->|[->|[]]]]]; simpl; lia.
  - assert (∃ cmd, convert_cmd (T := DDR3.t) (busPacketType p) = Ok cmd) as [cmd Hcmd].
    { unfold open_types in Ht. rewrite !elem_of_cons, elem_of_nil in Ht.
      destruct Ht as [->|[->|[->|[->|[]]]]]; simpl; eexists; reflexivity. }
    exists cmd. split; [done|].
    apply (@reaches_run rm_standard (rm_spec (dev_spec d0)) (rm_laws (dev_spec d0)) (channel d0) (channel d) _ _ Hf Hrun).
    by eapply made_reaches.
Qed.
