(* ===== verification/System.v ===== *)
(** * The memory system

    [MemorySystem] (src/src/MemorySystem.cpp, MemorySystem.h): a controller with
    its device, updated in this order once a cycle. The devices are made by the
    constructor, from the names of the standard, its speed and its size; here the
    device is a parameter (DDR3System.v has a DDR3 one).

    Main results, for any request scheduler, command generator and command
    scheduler of the interfaces: a run of the system is a run [cycle_run] of the
    command scheduler, so that the timing theorems hold of the packets the system
    sends; on a DDR3 device every pair of packets keeps the constraints of the
    timing tables; the data of every write follow its command after the write
    latency; and every request that was added is pending until it is answered, and
    answered once. *)
From Stdlib Require Import QArith Sorted.
From stdpp Require Import sorting.
From S2P Require Import Prelude Types AddrMap ReqQueue CmdQueue CmdGen ReqSched DRAM DDR3 Device Refresh CmdSched CmdAlg Config Controller Ledger.
#[local] Open Scope Z_scope.

Section system.
Context {A B Dev : Type} {Gen : CommandGenerator} {ReqA : RequestScheduling A}
  {DevI : MemoryDevice Dev} {CmdS : CommandScheduling Dev B} {CmdA : CommandAlgorithm Dev B}.
Implicit Types c : Controller A B Dev.

Record MemorySystem := mkSystem {
  memoryController : Controller A B Dev;
  ms_clock : Z;
}.

Definition ms_addRequest (g id addr : Z) (R_W : bool) (size : Z) (m : MemorySystem) : res MemorySystem :=
  c ← addRequest g id addr R_W size (memoryController m); Ok (mkSystem c (ms_clock m)).
Definition ms_flushWrite (sw : bool) (m : MemorySystem) : MemorySystem :=
  mkSystem (mc_flushWrite sw (memoryController m)) (ms_clock m).

Definition ms_isWriteModeFromController (m : MemorySystem) : res bool := isWriteModeFromController (memoryController m).
Definition ms_generalBufferSize (m : MemorySystem) : res nat := generalBufferSize (memoryController m).

(** [memDev->update()]: the device hands arriving read data to the controller. *)
Definition update_memory c : res (option Request * Controller A B Dev) :=
  od ← update_device (memoryDevice (commandScheduler c));
  let c := set_commandScheduler (set_memoryDevice od.2 (commandScheduler c)) c in
  match od.1 with
  | Some p => receiveData p c
  | None => Ok (None, c)
  end.

(** [update]: what the controller did, and the read it answered. *)
Definition ms_update (m : MemorySystem) : res (Output * option Request * MemorySystem) :=
  oc ← update (memoryController m);
  rc ← update_memory oc.2;
  Ok (oc.1, rc.1, mkSystem rc.2 (u64 (ms_clock m + 1))).

(** ** Runs *)
Inductive event :=
| Added (k : RequestType * Z * Z)
| Cycle (o : Output) (read : option Request).

(** The events since the start, the last one first. *)
Inductive sys_run (m0 : MemorySystem) : list event → MemorySystem → Prop :=
| sr_init : sys_run m0 [] m0
| sr_add evs m g id addr R_W size m' :
    sys_run m0 evs m → ms_addRequest g id addr R_W size m = Ok m' →
    sys_run m0 (Added (if R_W then DATA_READ else DATA_WRITE, id, addr) :: evs) m'
| sr_flush evs m sw : sys_run m0 evs m → sys_run m0 evs (ms_flushWrite sw m)
| sr_update evs m o r m' :
    sys_run m0 evs m → ms_update m = Ok (o, r, m') → sys_run m0 (Cycle o r :: evs) m'.

Fixpoint cycles (evs : list event) : Z :=
  match evs with
  | [] => 0
  | Cycle _ _ :: evs => cycles evs + 1
  | Added _ :: evs => cycles evs
  end.

(** The commands the system sent and in which cycle, the last one first. *)
Fixpoint sent_commands (evs : list event) : list (BusPacket * Z) :=
  match evs with
  | [] => []
  | Cycle o _ :: evs =>
      match out_command o with Some p => [(p, cycles evs)] | None => [] end ++ sent_commands evs
  | Added _ :: evs => sent_commands evs
  end.

(** The requests that were added, and those that were answered. *)
Fixpoint added (evs : list event) : list (RequestType * Z * Z) :=
  match evs with
  | [] => []
  | Added k :: evs => k :: added evs
  | Cycle _ _ :: evs => added evs
  end.
Fixpoint answered (evs : list event) : list (RequestType * Z * Z) :=
  match evs with
  | [] => []
  | Added _ :: evs => answered evs
  | Cycle o r :: evs =>
      option_list (key <$> out_answer o) ++ option_list (key <$> r) ++ answered evs
  end.

Lemma cycles_nonneg evs : 0 ≤ cycles evs.
Proof. induction evs as [|[k|o r] evs IH]; simpl; lia. Qed.

(** ** The account *)
Lemma update_memory_ledger c r c' :
  ledger_ok c → update_memory c = Ok (r, c') →
  ledger_ok c' ∧ ledger c ≡ₚ option_list (key <$> r) ++ ledger c'.
Proof.
  intros Hok Hu. unfold update_memory in Hu. apply bind_Ok in Hu as ([o d] & _ & Hu).
  set (c1 := set_commandScheduler _ c) in Hu. destruct (ledger_frame c c1) as [F1 F2]; [done..|].
  rewrite <- F2. destruct o as [p|]; [|injection Hu as <- <-; split; [by apply F1|done]].
  destruct (ledger_respond _ _ _ _ _ (F1 Hok) Hu) as (H1 & H2 & _). done.
Qed.

Lemma ledger_ok_empty c :
  pendingReadRequest c = [] → pendingWriteRequest c = [] → mc_heap c = ∅ → ledger_ok c.
Proof.
  intros Er Ew Eh. split; unfold all_pending; rewrite ?Er, ?Ew, ?Eh; simpl.
  - constructor.
  - intros p. rewrite lookup_empty. split; [by intros ?%not_elem_of_nil|by intros [? ?]].
  - intros w p r. rewrite lookup_empty. done.
Qed.

Lemma flush_controller sw c : mc_flushWrite sw c = c ∨ ∃ s, mc_flushWrite sw c = set_requestScheduler s c.
Proof. unfold mc_flushWrite. destruct (writeQueueEnabled _); eauto. Qed.

(** The account of a system over its operations. *)
Lemma ms_addRequest_ledger g id addr R_W size m m' :
  ledger_ok (memoryController m) → ms_addRequest g id addr R_W size m = Ok m' →
  ledger_ok (memoryController m') ∧
  ledger (memoryController m') ≡ₚ (if R_W then DATA_READ else DATA_WRITE, id, addr) :: ledger (memoryController m).
Proof.
  intros Hok Ha. unfold ms_addRequest in Ha. apply bind_Ok in Ha as (c & Ha & E). injection E as <-.
  by apply (addRequest_ledger _ _ _ _ _ _ _ Hok Ha).
Qed.

Lemma ms_flushWrite_ledger sw m :
  ledger_ok (memoryController m) →
  ledger_ok (memoryController (ms_flushWrite sw m)) ∧
  ledger (memoryController (ms_flushWrite sw m)) = ledger (memoryController m).
Proof.
  intros Hok. simpl. destruct (flush_controller sw (memoryController m)) as [->|[s ->]]; [done|].
  destruct (ledger_frame (memoryController m) (set_requestScheduler s (memoryController m))) as [F1 F2]; [done..|].
  split; [by apply F1|exact F2].
Qed.

Lemma ms_update_ledger m o r m' :
  ledger_ok (memoryController m) → ms_update m = Ok (o, r, m') →
  ledger_ok (memoryController m') ∧
  ledger (memoryController m) ≡ₚ
    option_list (key <$> out_answer o) ++ option_list (key <$> r) ++ ledger (memoryController m').
Proof.
  intros Hok Hu. unfold ms_update in Hu. apply bind_Ok in Hu as ([o1 c1] & H1 & Hu). apply bind_Ok in Hu as ([r1 c2] & H2 & Hu).
  injection Hu as <- <- <-. simpl in *.
  destruct (update_ledger _ _ _ Hok H1) as [L1 P1]. destruct (update_memory_ledger _ _ _ L1 H2) as [L2 P2].
  split; [done|]. by rewrite P1, P2.
Qed.

Lemma sys_run_ledger m0 evs m :
  ledger_ok (memoryController m0) → ledger (memoryController m0) = [] → sys_run m0 evs m →
  ledger_ok (memoryController m) ∧ added evs ≡ₚ answered evs ++ ledger (memoryController m).
Proof.
  intros Hok Hnil. induction 1 as [|evs m g id addr R_W size m' _ [IH1 IH2] Ha|evs m sw _ [IH1 IH2]|evs m o r m' _ [IH1 IH2] Hu].
  - split; [done|]. simpl. by rewrite Hnil.
  - destruct (ms_addRequest_ledger _ _ _ _ _ _ _ IH1 Ha) as [H1 H2]. split; [done|]. simpl. rewrite H2, IH2.
    solve_Permutation.
  - destruct (ms_flushWrite_ledger sw m IH1) as [H1 H2]. split; [exact H1|]. by rewrite H2.
  - destruct (ms_update_ledger _ _ _ _ IH1 Hu) as [H1 H2]. split; [done|]. simpl. rewrite IH2, H2. solve_Permutation.
Qed.

(** C7. In every run of a system that starts without requests, every request that
    was added has been answered or is pending, and is so exactly as often as it
    was added: no request is lost, none is answered twice or without being asked
    for, and no pending request has been freed. *)
Theorem requests_answered_once m0 evs m :
  pendingReadRequest (memoryController m0) = [] → pendingWriteRequest (memoryController m0) = [] →
  mc_heap (memoryController m0) = ∅ → sys_run m0 evs m →
  added evs ≡ₚ answered evs ++ ledger (memoryController m) ∧
  (∀ p, p ∈ all_pending (memoryController m) ↔ is_Some (mc_heap (memoryController m) !! p)).
Proof.
  intros Er Ew Eh Hrun.
  destruct (sys_run_ledger m0 evs m) as [Hok Hp]; [by apply ledger_ok_empty| |done|split; [done|apply Hok]].
  unfold ledger, all_pending. by rewrite Er, Ew.
Qed.

(** C36. In every run of a system that starts without requests, the pending reads
    are live requests of type [DATA_READ] and the pending writes of type
    [DATA_WRITE], none of them twice: the loops over the pending requests never
    follow a dangling pointer. *)
Theorem pending_typed m0 evs m w :
  pendingReadRequest (memoryController m0) = [] → pendingWriteRequest (memoryController m0) = [] →
  mc_heap (memoryController m0) = ∅ → sys_run m0 evs m →
  NoDup (pending w (memoryController m)) ∧
  ∀ p, p ∈ pending w (memoryController m) →
    ∃ r, deref (mc_heap (memoryController m)) p = Ok r ∧ requestType r = if w then DATA_WRITE else DATA_READ.
Proof.
  intros Er Ew Eh Hrun. destruct (sys_run_ledger m0 evs m) as [[Hnd Hlive Hty] _]; [by apply ledger_ok_empty| |done|].
  { unfold ledger, all_pending. by rewrite Er, Ew. }
  split.
  - rewrite (all_pending_split w), NoDup_app in Hnd. apply Hnd.
  - intros p Hp. destruct (proj1 (Hlive p) (pending_all _ _ _ Hp)) as [r Hr].
    exists r. unfold deref. rewrite Hr. split; [done|]. by eapply Hty.
Qed.

(** ** The commands: a run of the cycle relation *)

(** The algorithm accepts every packet in the queue the controller puts it in. *)
Definition routed (su : Setup) : Prop :=
  ∀ t p i, decodeQueue (memTable su) [0; 0; bp_bank p; bp_subArray p] (cmdMap (mc_config su)) = Ok i →
    alg_accepts (Z.to_nat i) (stamp t p).

(** The data under way are data packets. *)
Definition data_ok c : Prop :=
  Forall (λ x, busPacketType x = DATA ∧ postCommand x = false) (sendDataBuffer c).

(** The command side of the controller is a run. *)
Definition runs (b0 : B) (s0 : CommandScheduler Dev) (h : list sent) (n : Z) c : Prop :=
  cycle_run b0 s0 h n (commandState c) (commandScheduler c).

Lemma enqueueCommand_runs b0 s0 h n p c b c' :
  routed (mc_setup c) → runs b0 s0 h n c → enqueueCommand p c = Ok (b, c') →
  runs b0 s0 h n c' ∧ mc_setup c' = mc_setup c.
Proof.
  intros Hroute Hrun He. unfold enqueueCommand in He. apply bind_Ok in He as (i & Hi & He).
  apply bind_Ok in He as (q & Hq%vec_at_Ok & He). injection He as _ <-. split; [|done].
  unfold runs. simpl. apply cr_insert; [by apply cr_table|exact Hq|]. eapply Hroute, Hi.
Qed.

Lemma drain_runs b0 s0 h n fuel c c' :
  routed (mc_setup c) → runs b0 s0 h n c → drain fuel c = Ok c' → runs b0 s0 h n c'.
Proof.
  revert c. induction fuel as [|fuel IH]; intros c Hroute Hrun Hd; simpl in Hd;
    destruct (gen_bufferSize _); try (by injection Hd as <-).
  apply bind_Ok in Hd as (p & _ & Hd). apply bind_Ok in Hd as ([b c1] & He & Hd).
  destruct (enqueueCommand_runs _ _ _ _ _ _ _ _ Hroute Hrun He) as [H1 E1].
  destruct b; [|done]. apply bind_Ok in Hd as (g & _ & Hd). eapply IH; [| |exact Hd]; [simpl; by rewrite E1|exact H1].
Qed.

Lemma send_due_device c o ans c' :
  data_ok c → send_due c = Ok (o, ans, c') →
  commandScheduler c' = commandScheduler c ∧ commandState c' = commandState c ∧ mc_setup c' = mc_setup c ∧
  mc_clock c' = mc_clock c ∧ data_ok c'.
Proof.
  intros Hd Hs. unfold send_due in Hs. destruct (sendDataCounter c) as [|n l]; [by injection Hs as <- <- <-|].
  apply bind_Ok in Hs as ([[o1 a1] c1] & Hs1 & Hs). injection Hs as <- <- <-. simpl.
  case_bool_decide; [|injection Hs1 as <- <- <-; by split_and!].
  apply bind_Ok in Hs1 as (p & Hp & Hs1). apply bind_Ok in Hs1 as ([a3 c3] & Hs1 & Hs2). injection Hs2 as <- <- <-.
  destruct (sendDataBuffer c) as [|x rest] eqn:E; [done|]. injection Hp as ->.
  unfold data_ok in Hd. rewrite E in Hd. apply Forall_cons in Hd as [[Ht Hpc] Hd].
  apply sendData_frame in Hs1 as (_ & E2 & E3 & E4 & E5 & _); [|done|done]. simpl. by split_and!.
Qed.

Lemma note_write_device o c :
  data_ok c → commandScheduler (note_write o c) = commandScheduler c ∧ commandState (note_write o c) = commandState c ∧
  mc_setup (note_write o c) = mc_setup c ∧ mc_clock (note_write o c) = mc_clock c ∧ data_ok (note_write o c).
Proof.
  intros Hd. unfold note_write. destruct o as [p|]; [|done]. destruct (is_write _); [|done].
  split_and!; try done. apply Forall_app. split; [exact Hd|]. by constructor.
Qed.

(** The course of an [update]: [c2] is the controller when the command was sent,
    [h'] the history with it, [c4] the controller after the data were sent. *)
Record course (b0 : B) (s0 : CommandScheduler Dev) (h h' : list sent) (n : Z)
    c (o : Output) c' (c2 c4 : Controller A B Dev) : Prop := {
  co_history : (λ x : sent, (x.1.2, x.2)) <$> h' =
    match out_command o with Some p => [(p, n)] | None => [] end ++ ((λ x : sent, (x.1.2, x.2)) <$> h);
  co_run : runs b0 s0 h' n c2;
  co_before : data_path c2 = data_path c ∧ mc_clock c2 = mc_clock c ∧ mc_setup c2 = mc_setup c;
  co_send : send_due (note_write (out_command o) c2) = Ok (out_data o, out_answer o, c4);
  co_tick : tick (commandScheduler c2) = Ok (commandScheduler c');
  co_after : data_path c' = data_path c4 ∧ mc_clock c' = u64 (mc_clock c + 1) ∧ mc_setup c' = mc_setup c ∧
    commandState c' = commandState c2;
  co_data : data_ok c';
}.

Lemma update_course b0 s0 h n c o c' :
  initial b0 s0 → routed (mc_setup c) → data_ok c → runs b0 s0 h n c → update c = Ok (o, c') →
  ∃ h' c2 c4, course b0 s0 h h' n c o c' c2 c4.
Proof.
  intros Hin Hroute Hdata Hrun Hu. unfold update in Hu.
  apply bind_Ok in Hu as ([a rs] & _ & Hu). set (c1 := set_requestState _ _) in Hu.
  apply bind_Ok in Hu as (c1' & Hd & Hu).
  assert (runs b0 s0 h n c1') as Hr2 by (by eapply drain_runs; [| |exact Hd]).
  apply drain_frame in Hd as (Ed & Es2 & Ek & _ & _ & _ & Ec2 & _).
  apply bind_Ok in Hu as (s & Href & Hu). apply bind_Ok in Hu as ([[p b] s1] & Hsch & Hu).
  assert (cycle_run b0 s0 h n (commandState c1') s) as Hr3 by (by eapply cr_refresh).
  set (c2 := set_commandState _ _) in Hu. apply bind_Ok in Hu as ([[sd an] c4] & Hs4 & Hu).
  apply bind_Ok in Hu as (s2 & Ht & Hu). injection Hu as <- <-. simpl in Ht.
  assert (data_ok c2) as Hd2 by (unfold data_ok; unfold data_path in Ed; injection Ed as _ E; simpl; rewrite E; exact Hdata).
  destruct (note_write_device p c2 Hd2) as (N1 & N2 & N3 & N4 & N5).
  destruct (send_due_device _ _ _ _ N5 Hs4) as (S1 & S2 & S3 & S4 & S5).
  rewrite S1, N1 in Ht. simpl in Ht.
  assert (∃ h', cycle_run b0 s0 h' n b s1 ∧ (λ x : sent, (x.1.2, x.2)) <$> h' =
    match p with Some p => [(p, n)] | None => [] end ++ ((λ x : sent, (x.1.2, x.2)) <$> h)) as (h' & Hr4 & Eh).
  { destruct p as [p|]; [|exists h; split; [by eapply cr_none|done]].
    pose proof (cycle_run_inv _ _ _ _ _ _ Hin Hr3) as [_ _ Hwf Ha].
    destruct (schedule_issues _ _ _ _ _ Hwf Ha Hsch) as (_ & ic & Hic & Hiss).
    destruct ic as [[i q]|]; [|done]. injection Hic as ->. exists ((i, p, n) :: h). split; [by eapply cr_issue|done]. }
  exists h', c2, c4. split; [exact Eh|exact Hr4| |exact Hs4|exact Ht| |exact S5].
  - split_and!; [exact Ed|exact Ek|exact Es2].
  - split_and!; simpl; [done|rewrite S4, N4; simpl; by rewrite Ek|by rewrite S3, N3|by rewrite S2, N2].
Qed.

(** What [memDev->update()] leaves alone in the controller. *)
Lemma update_memory_frame c r c' :
  update_memory c = Ok (r, c') →
  data_path c' = data_path c ∧ mc_clock c' = mc_clock c ∧ mc_setup c' = mc_setup c ∧ commandState c' = commandState c ∧
  ∃ od, update_device (memoryDevice (commandScheduler c)) = Ok od ∧
    commandScheduler c' = set_memoryDevice od.2 (commandScheduler c).
Proof.
  unfold update_memory. intros Hu. apply bind_Ok in Hu as ([o d] & Hd & Hu). simpl in Hu. destruct o as [p|].
  - apply respond_frame in Hu as (E1 & E2 & E3 & E4 & E5 & _). split_and!; [exact E1|done..|by exists (Some p, d)].
  - injection Hu as <- <-. split_and!; [done..|by exists (None, d)].
Qed.

(** One cycle extends the run; the history grows by the command that was sent. *)
Lemma ms_update_runs b0 s0 h n m o r m' :
  let c := memoryController m in
  initial b0 s0 → routed (mc_setup c) → data_ok c → runs b0 s0 h n c → ms_update m = Ok (o, r, m') →
  mc_setup (memoryController m') = mc_setup c ∧ data_ok (memoryController m') ∧
  ∃ h', runs b0 s0 h' (n + 1) (memoryController m') ∧
    (λ x : sent, (x.1.2, x.2)) <$> h' = match out_command o with Some p => [(p, n)] | None => [] end ++ ((λ x : sent, (x.1.2, x.2)) <$> h).
Proof.
  intros c Hin Hroute Hdata Hrun Hu. unfold ms_update in Hu. apply bind_Ok in Hu as ([o1 c6] & H1 & Hu).
  apply bind_Ok in Hu as ([r1 c8] & H2 & Hu). injection Hu as <- <- <-. simpl in H2 |- *.
  destruct (update_course _ _ _ _ _ _ _ Hin Hroute Hdata Hrun H1) as (h' & c2 & c4 & [Eh Hr _ _ Ht (_ & _ & E3 & E4) Hd]).
  apply update_memory_frame in H2 as (F1 & _ & F3 & F4 & [od d] & Hdev & F5).
  split; [congruence|]. split; [unfold data_ok, data_path in *; injection F1 as _ ->; exact Hd|].
  exists h'. split; [|done]. unfold runs in *. rewrite F4, E4, F5. eapply cr_tick; [exact Hr|exact Ht|]. by exists od.
Qed.

Lemma sys_run_cycle b0 s0 m0 evs m :
  initial b0 s0 → routed (mc_setup (memoryController m0)) →
  commandState (memoryController m0) = b0 → commandScheduler (memoryController m0) = s0 →
  sendDataBuffer (memoryController m0) = [] → sys_run m0 evs m →
  mc_setup (memoryController m) = mc_setup (memoryController m0) ∧ data_ok (memoryController m) ∧
  ∃ h, runs b0 s0 h (cycles evs) (memoryController m) ∧ (λ x : sent, (x.1.2, x.2)) <$> h = sent_commands evs.
Proof.
  intros Hin Hroute Eb Es Enil.
  induction 1 as [|evs m g id addr R_W size m' _ (E & Hd & h & Hr & Eh) Ha|evs m sw _ (E & Hd & h & Hr & Eh)
    |evs m o r m' _ (E & Hd & h & Hr & Eh) Hu].
  - split; [done|]. split; [unfold data_ok; by rewrite Enil|]. exists []. split; [|done].
    unfold runs. rewrite Eb, Es. constructor.
  - unfold ms_addRequest in Ha. apply bind_Ok in Ha as (c & Ha & E'). injection E' as <-.
    apply addRequest_frame in Ha as ([= _ F2] & F3 & _ & F4 & F5 & _). simpl. split; [congruence|].
    split; [unfold data_ok; by rewrite F2|]. exists h. split; [|done]. unfold runs. by rewrite F4, F5.
  - simpl. destruct (flush_controller sw (memoryController m)) as [->|[s ->]]; eauto 10.
  - destruct (ms_update_runs b0 s0 h (cycles evs) m o r m' Hin) as (E1 & Hd1 & h' & Hr' & Eh');
      [by rewrite E|done|done|done|].
    split; [congruence|]. split; [done|]. exists h'. split; [done|]. cbn [sent_commands]. rewrite <- Eh. exact Eh'.
Qed.

(** C10. The memory system refines the cycle relation of the command schedulers:
    for every run of the whole system there is a run of the relation with the
    same commands in the same cycles, which ends in the same state of the command
    scheduler. *)
Theorem system_refines_cycles m0 evs m :
  initial (commandState (memoryController m0)) (commandScheduler (memoryController m0)) →
  routed (mc_setup (memoryController m0)) → sendDataBuffer (memoryController m0) = [] → sys_run m0 evs m →
  ∃ h, cycle_run (commandState (memoryController m0)) (commandScheduler (memoryController m0)) h (cycles evs)
      (commandState (memoryController m)) (commandScheduler (memoryController m)) ∧
    (λ x : sent, (x.1.2, x.2)) <$> h = sent_commands evs.
Proof. intros Hin Hroute Hnil Hrun. by eapply sys_run_cycle. Qed.

(** ** The data of writes *)

Lemma cycle_run_constraints b0 s0 h n b (s : CommandScheduler Dev) :
  initial b0 s0 → cycle_run b0 s0 h n b s →
  ∀ x, get_constraints x (memoryDevice s) = get_constraints x (memoryDevice s0).
Proof.
  intros Hin Hrun x. induction Hrun as [|h n b s i q c cr Hrun IH Hq Hc|h n b s s' Hrun IH Hs
    |h n b s b' s' Hrun IH Hs|h n b s c b' s' i Hrun IH Hs Hi|h n b s s' d Hrun IH Ht [out Hd]|h n b s t Hrun IH]; try done.
  - pose proof (cycle_run_inv _ _ _ _ _ _ Hin Hrun) as [_ (_ & _ & Hidle) _ _].
    unfold sched_refresh in Hs. assert (reachInterval (refreshMachine s) = false) as Hri by apply Hidle.
    rewrite Hri in Hs. by injection Hs as <-.
  - pose proof (cycle_run_inv _ _ _ _ _ _ Hin Hrun) as [_ _ Hwf Ha].
    destruct (schedule_issues _ _ _ _ _ Hwf Ha Hs) as (_ & ic & Hic & Hiss).
    destruct ic; [done|]. inversion Hiss as [? Hqt|]; subst. by rewrite (qt_dev _ _ Hqt).
  - inversion Hi as [|s1 ? ? ? Hqt Hf Hrd His Hsc Hsend]; subst.
    destruct (send_device _ _ _ _ _ _ Hsend Hsc) as (Hrc & _). rewrite (qt_dev _ _ Hqt) in Hrc.
    apply receive_timing in Hrc as [_ ->]. exact IH.
  - simpl. destruct (tick_timer s s' 0 0 0 Ht) as (_ & _ & Em). rewrite Em in Hd.
    apply update_device_timing in Hd as [_ ->]. exact IH.
Qed.

Definition write_latency (d : Dev) : Z := float_u32 (get_constraints "tWL"%string d + get_constraints "tBus"%string d)%Q.

(** The specification: when the data of the writes that were sent are due, in the
    order of the writes. *)
Fixpoint due_writes (L : Z) (evs : list event) : list (Z * BusPacket) :=
  match evs with
  | [] => []
  | Added _ :: evs => due_writes L evs
  | Cycle o _ :: evs =>
      due_writes L evs ++
      match out_command o with
      | Some p => if is_write (busPacketType p) then [(cycles evs + L, write_packet (cycles evs) p)] else []
      | None => []
      end
  end.

(** The data that were sent, in order. *)
Fixpoint sent_data (evs : list event) : list (Z * BusPacket) :=
  match evs with
  | [] => []
  | Added _ :: evs => sent_data evs
  | Cycle o _ :: evs => sent_data evs ++ match out_data o with Some x => [(cycles evs, x)] | None => [] end
  end.

Lemma write_packet_clock n p : write_packet (u64 n) p = write_packet n p.
Proof.
  unfold write_packet. f_equal. apply Z.mod_mod_divide. by exists (2 ^ 32).
Qed.

Record data_inv (L : Z) (evs : list event) (c : Controller A B Dev) : Prop := {
  di_clock : mc_clock c = u64 (cycles evs);
  di_range : Forall (λ x, x.1 < cycles evs) (sent_data evs);
  di_pend : ∃ pend, due_writes L evs = sent_data evs ++ pend ∧ sending (cycles evs) pend c ∧
    Forall (λ x, x.1 < cycles evs + L) pend;
}.

Lemma data_inv_frame L evs c c' :
  data_path c' = data_path c → mc_clock c' = mc_clock c → data_inv L evs c → data_inv L evs c'.
Proof.
  intros E1 E2 [H1 H2 (pend & H3 & H4 & H5)]. split; [congruence|done|]. exists pend. split; [done|].
  split; [by eapply sending_path|done].
Qed.

Lemma data_inv_added L k evs c : data_inv L evs c → data_inv L (Added k :: evs) c.
Proof. by intros [H1 H2 H3]. Qed.

(** One cycle. *)
Lemma update_data_inv b0 s0 h evs c o c' r :
  let L := write_latency (memoryDevice s0) in
  0 ≤ L < 2 ^ 32 → initial b0 s0 → routed (mc_setup c) → data_ok c → runs b0 s0 h (cycles evs) c →
  (∀ p, out_command o = Some p → postCommand p = false) →
  data_inv L evs c → update c = Ok (o, c') → data_inv L (Cycle o r :: evs) c'.
Proof.
  intros L HL Hin Hroute Hdata Hrun Hpost [Hk Hs (pend & Hp1 & Hp2 & Hp3)] Hu.
  destruct (update_course _ _ _ _ _ _ _ Hin Hroute Hdata Hrun Hu) as (h' & c2 & c4 & [_ Hr (B1 & B2 & _) Hsend _ (A1 & A2 & _) _]).
  set (new := match out_command o with
    | Some p => if is_write (busPacketType p) then [(cycles evs + L, write_packet (cycles evs) p)] else []
    | None => [] end).
  assert (sending (cycles evs) (pend ++ new) (note_write (out_command o) c2) ∧
    Forall (λ x, x.1 < cycles evs + L + 1) (pend ++ new)) as [Hnote Hlt].
  { apply (sending_path _ _ _ _ B1) in Hp2. unfold new. destruct (out_command o) as [p|] eqn:Eo.
    - pose proof (note_write_spec (cycles evs) pend L p c2 Hp2 Hp3 HL) as Hn.
      rewrite B2, Hk, write_packet_clock in Hn. split.
      + apply Hn. unfold write_delay. rewrite (Hpost p eq_refl). unfold L, write_latency.
        rewrite !(cycle_run_constraints _ _ _ _ _ _ Hin Hr). done.
      + apply Forall_app. split; [eapply Forall_impl; [exact Hp3|]; simpl; lia|].
        destruct (is_write _); [|constructor]. constructor; [simpl; lia|constructor].
    - rewrite app_nil_r. split; [exact Hp2|]. eapply Forall_impl; [exact Hp3|]. simpl. lia. }
  destruct (send_due_spec _ _ _ _ _ _ Hnote Hsend) as [Eo Hafter].
  rewrite (due_now_split (cycles evs) (pend ++ new)) in Hlt. apply Forall_app in Hlt as [_ Hlt]. split.
  - cbn [cycles]. rewrite A2, Hk. unfold u64. by rewrite Zplus_mod_idemp_l.
  - cbn [sent_data cycles]. apply Forall_app. split; [eapply Forall_impl; [exact Hs|]; simpl; lia|].
    destruct (out_data o); [|constructor]. constructor; [simpl; lia|constructor].
  - exists (due_now (cycles evs) (pend ++ new)).2. split; [|split].
    + cbn [due_writes sent_data]. fold new. rewrite Hp1, Eo, <- !app_assoc. f_equal. apply due_now_split.
    + cbn [cycles]. by eapply sending_path.
    + cbn [cycles]. eapply Forall_impl; [exact Hlt|]. simpl. lia.
Qed.

(** C11. In a run in which no posted command was sent, the data of every write leave the
    controller exactly [tWL + tBus] cycles after its command, in the order of the commands: after
    any such run the data sent are those of the writes whose time has come, in their cycles. (A
    posted write breaks this for the writes behind it too.) *)
Theorem write_data_on_time m0 evs m :
  let c0 := memoryController m0 in
  let L := write_latency (memoryDevice (commandScheduler c0)) in
  0 ≤ L < 2 ^ 32 → initial (commandState c0) (commandScheduler c0) → routed (mc_setup c0) →
  mc_clock c0 = 0 → sendDataCounter c0 = [] → sendDataBuffer c0 = [] → sys_run m0 evs m →
  (∀ p t, (p, t) ∈ sent_commands evs → postCommand p = false) →
  sent_data evs = filter (λ x, x.1 < cycles evs) (due_writes L evs).
Proof.
  intros c0 L HL Hin Hroute Hk En1 En2 Hrun Hpost.
  assert (data_inv L evs (memoryController m)) as [_ Hs (pend & E & [_ _ _ Hr _] & _)].
  { clear -HL Hin Hroute Hk En1 En2 Hrun Hpost.
    induction Hrun as [|evs m g id addr R_W size m' Hrun IH Ha|evs m sw Hrun IH|evs m o r m' Hrun IH Hu].
    - split; simpl; [done|constructor|]. exists []. split; [done|]. split; [|constructor].
      subst c0. split; simpl; [by rewrite En1|by rewrite En2|constructor..].
    - unfold ms_addRequest in Ha. apply bind_Ok in Ha as (c & Ha & E'). injection E' as <-.
      apply addRequest_frame in Ha as (F1 & _ & F2 & _).
      eapply data_inv_frame; [exact F1|exact F2|]. apply data_inv_added, IH, Hpost.
    - simpl. destruct (flush_controller sw (memoryController m)) as [->|[s ->]]; [by apply IH|].
      by eapply data_inv_frame; [| |exact (IH Hpost)].
    - destruct (sys_run_cycle _ _ _ _ _ Hin Hroute eq_refl eq_refl En2 Hrun) as (E & Hd & h & Hr & Eh).
      unfold ms_update in Hu. apply bind_Ok in Hu as ([o1 c6] & H1 & Hu). apply bind_Ok in Hu as ([r1 c8] & H2 & Hu).
      injection Hu as <- <- <-. apply update_memory_frame in H2 as (F1 & F2 & _).
      eapply data_inv_frame; [exact F1|exact F2|]. eapply update_data_inv; [exact HL|exact Hin|by rewrite E|done|exact Hr| |apply IH|exact H1].
      + intros p Ep. apply (Hpost p (cycles evs)). simpl. rewrite Ep. by left.
      + intros p t Hp. apply (Hpost p t). cbn [sent_commands]. apply elem_of_app. by right. }
  rewrite E, filter_app. rewrite (filter_all _ (sent_data evs)) by done.
  rewrite filter_none; [by rewrite app_nil_r|].
  intros x Hx. rewrite Forall_forall in Hr. specialize (Hr x Hx). lia.
Qed.
End system.
Arguments MemorySystem A B Dev : clear implicits.
