(* ===== verification/DDR3System.v ===== *)
(** * A memory system with a DDR3 device

    The theorems of System.v together with those of the device tree, for any
    algorithms and any standard, and a concrete system for the witnesses: the configuration of
    src/system/FRFCFS/FRFCFS.ini (one request queue, one command queue per bank,
    FR-FCFS scheduling, open page) in front of a DDR3 device of one rank, with the
    FR-FCFS command scheduler. *)
From Stdlib Require Import QArith String.
From S2P Require Import Prelude Types AddrMap ReqQueue CmdQueue CmdGen ReqSched DRAM DDR3 Device Refresh CmdSched CmdAlg CmdAlgos Config Controller Ledger System.
#[local] Open Scope Z_scope.

Section device_system.
Context {T : Type} {R : Ramulator T}.
#[local] Existing Instance rm_standard.
#[local] Abbreviation Dev := (RamulatorDevice T).
Context {A B : Type} {Gen : CommandGenerator} {ReqA : RequestScheduling A} {CmdS : CommandScheduling Dev B} {CmdA : CommandAlgorithm Dev B}.

(** Of two packets that went to the device, the later one keeps every constraint of the
    timing tables on the pair that looks at the latest command, at every node its
    check goes through. *)
Definition timing_kept (d0 : Dev) (evs : list event) : Prop :=
  let sp := rm_spec (dev_spec d0) in
  ∀ e1 p2 t2 e2 p1 t1 e3 cmd1 cmd2 path n te,
    sent_commands evs = e1 ++ (p2, t2) :: e2 ++ (p1, t1) :: e3 →
    convert_cmd (T := T) (busPacketType p1) = Ok cmd1 → convert_cmd (T := T) (busPacketType p2) = Ok cmd2 →
    @checked _ sp cmd2 (convert_addr (T := T) p2) (channel d0) path n →
    te ∈ @timing _ sp (level n) cmd1 → te_cmd te = cmd2 → dist te = 1 →
    role_of (convert_addr (T := T) p1) 0 (id (channel d0)) path = (if sibling te then Sibling else Target) →
    t1 + val te ≤ t2.

(** No command that went to the device is posted. *)
Definition none_posted (evs : list event) : Prop := ∀ p t, (p, t) ∈ sent_commands evs → postCommand p = false.

Lemma run_keeps_timing (m0 : MemorySystem A B Dev) evs m :
  let c0 := memoryController m0 in
  let d0 := memoryDevice (commandScheduler c0) in
  initial (commandState c0) (commandScheduler c0) → routed (mc_setup c0) → sendDataBuffer c0 = [] →
  @fresh _ (rm_spec (dev_spec d0)) (channel d0) → level (channel d0) = Channel_level → postBuffer d0 = [] → 0 ≤ clockCycle d0 →
  sys_run m0 evs m → clockCycle d0 + cycles evs < 2 ^ 32 → none_posted evs → timing_kept d0 evs.
Proof.
  intros c0 d0 Hin Hroute Hnil Hf Hl Hp Hclk Hrun Hn Hpost.
  unfold timing_kept. cbv zeta. intros e1 p2 t2 e2 p1 t1 e3 cmd1 cmd2 path n te Hsent H1 H2 Hck Hte Hcmd Hd Hr.
  destruct (sys_run_cycle _ _ m0 evs m Hin Hroute eq_refl eq_refl Hnil Hrun) as (_ & _ & h & Hcyc & Eh).
  rewrite Hsent in Eh. apply fmap_app_inv in Eh as (h1 & h' & E1 & E2 & ->).
  apply eq_sym, fmap_cons_inv in E2 as ([[j q2] u2] & h2 & [= -> ->] & E2 & ->).
  apply eq_sym, fmap_app_inv in E2 as (h3 & h4 & E3 & E4 & ->).
  apply eq_sym, fmap_cons_inv in E4 as ([[i q1] u1] & h5 & [= -> ->] & E5 & ->).
  eapply (sent_packets_keep_timing (commandState c0) (commandScheduler c0) (cycles evs) _ _ h1 j q2 u2 h3 i q1 u1 h5);
    try done.
  intros k c t Hin'. apply (Hpost c t). rewrite Hsent, E1, E3, E5.
  apply (list_elem_of_fmap_2 (λ x : sent, (x.1.2, x.2))) in Hin'.
  rewrite fmap_app, fmap_cons, fmap_app, fmap_cons in Hin'. simpl in Hin'.
  exact Hin'.
Qed.

(** C1. End to end, for every request scheduler, generator and command scheduler of
    the interfaces: in every run of a memory system that starts on a fresh
    device of any standard, when no command that was sent is posted (those of the generator
    MCMC are) and the 32-bit clock of the device does not wrap, of two packets that went
    to the device the later one keeps every constraint of the timing tables on the pair
    that looks at the latest command, at every node its check goes through. *)
Theorem system_keeps_timing (m0 : MemorySystem A B Dev) evs m e1 p2 t2 e2 p1 t1 e3 cmd1 cmd2 path n te :
  let c0 := memoryController m0 in
  let d0 := memoryDevice (commandScheduler c0) in
  let sp := rm_spec (dev_spec d0) in
  initial (commandState c0) (commandScheduler c0) → routed (mc_setup c0) → sendDataBuffer c0 = [] →
  @fresh _ sp (channel d0) → level (channel d0) = Channel_level → postBuffer d0 = [] → 0 ≤ clockCycle d0 →
  sys_run m0 evs m → clockCycle d0 + cycles evs < 2 ^ 32 →
  sent_commands evs = e1 ++ (p2, t2) :: e2 ++ (p1, t1) :: e3 →
  (∀ p t, (p, t) ∈ sent_commands evs → postCommand p = false) →
  convert_cmd (T := T) (busPacketType p1) = Ok cmd1 → convert_cmd (T := T) (busPacketType p2) = Ok cmd2 →
  @checked _ sp cmd2 (convert_addr (T := T) p2) (channel d0) path n →
  te ∈ @timing _ sp (level n) cmd1 → te_cmd te = cmd2 → dist te = 1 →
  role_of (convert_addr (T := T) p1) 0 (id (channel d0)) path = (if sibling te then Sibling else Target) →
  t1 + val te ≤ t2.
Proof.
  intros c0 d0 sp Hin Hroute Hnil Hf Hl Hp Hclk Hrun Hn Hsent Hpost H1 H2.
  exact (run_keeps_timing m0 evs m Hin Hroute Hnil Hf Hl Hp Hclk Hrun Hn Hpost e1 p2 t2 e2 p1 t1 e3 cmd1 cmd2 path n te Hsent H1 H2).
Qed.
End device_system.

(** ** A concrete system *)
#[local] Existing Instance Open_generator.
#[local] Existing Instance CmdAlgos.FRFCFS.scheduling.
#[local] Existing Instance CmdAlgos.FRFCFS.algorithm.
#[local] Existing Instance ReqSched.FRFCFS.

(** src/system/FRFCFS/FRFCFS.ini. *)
Definition ini : string :=
"; Rank[0], BankGroup[1], Bank[2], SubArray[3], Row[4], Col[5]
;AddressMapping=425 ; For the verification purpose
AddressMapping=012345
; Channel, Rank, BankGroup, Bank, SubArray
RequestQueue=0000
WriteQueue=0
ReqPerREQ=0
CommandQueue=0010
CmdPerREQ=0

; Scheduler Based on Names
RequestScheduler=FRFCFS
CommandGenerator=OPEN
CommandScheduler=PUSH
; Note that the command scheduler for the FRFCFS could be much simpler. 
; As using one global queue for the command queue do not require any arbitration and etc (similar to device simulators.)".

Definition wit_cfg : Config :=
  match readConfigFile (Some ini) (Config_ctor false) with Ok c => c | Err _ => Config_ctor false end.

Abbreviation SYS := (MemorySystem unit unit Device).

Definition wit_controller : res (Controller unit unit Device) :=
  connectMemoryDevice true wit_cfg Interleaved 4 2 0 true (λ _, tt) (λ _, tt) CommandGenerator_ctor wit_dev0.

Definition update_n (n : nat) (m : SYS) : res (list event * SYS) :=
  foldM (seq 0 n) ([], m) (λ _ st, orm ← ms_update st.2; Ok (Cycle orm.1.1 orm.1.2 :: st.1, orm.2)).

Lemma update_n_run (m0 m m' : SYS) evs evs' n :
  sys_run m0 evs m → update_n n m = Ok (evs', m') → sys_run m0 (evs' ++ evs) m'.
Proof.
  intros Hrun. unfold update_n.
  apply (foldM_inv (λ st : list event * SYS, sys_run m0 (st.1 ++ evs) st.2)); [exact Hrun|].
  intros i [es m1] [es2 m2] _ Hm Hu. apply bind_Ok in Hu as ([[o r] m3] & Hu & E). injection E as <- <-. simpl.
  by eapply sr_update.
Qed.

Definition wit_m0 : SYS :=
  mkSystem match wit_controller with
           | Ok c => c
           | Err _ => mkController (mkSetup [] 0 [] Interleaved wit_cfg true 2) 0
               (RequestScheduler_ctor true [] (CommandGenerator_ctor 8)) tt
               (CommandScheduler_ctor true 0 [] ∅ wit_dev0) tt [] [] [] [] ∅ Statistics_ctor
           end 0.

(** A read of requestor 0, a write of requestor 1 to another row of the bank, and
    eighty cycles. *)
Definition wit_m1 : SYS := match ms_addRequest 0 0 0x4b40 true 64 wit_m0 with Ok m => m | Err _ => wit_m0 end.
Definition wit_m2 : SYS := match ms_addRequest 0 1 0x34b00 false 64 wit_m1 with Ok m => m | Err _ => wit_m1 end.
Definition wit_end : list event * SYS := match update_n 80 wit_m2 with Ok x => x | Err _ => ([], wit_m2) end.
Definition wit_events : list event := wit_end.1 ++ [Added (DATA_WRITE, 1, 0x34b00); Added (DATA_READ, 0, 0x4b40)].

Lemma wit_added :
  sys_run wit_m0 [Added (DATA_WRITE, 1, 0x34b00); Added (DATA_READ, 0, 0x4b40)] wit_m2.
Proof.
  assert (sys_run wit_m0 [Added (DATA_READ, 0, 0x4b40)] wit_m1) as H1.
  { apply (sr_add wit_m0 [] wit_m0 0 0 0x4b40 true 64); [constructor|]. unfold wit_m1.
    destruct (ms_addRequest 0 0 0x4b40 true 64 wit_m0) eqn:E; [done|].
    assert (is_Ok (ms_addRequest 0 0 0x4b40 true 64 wit_m0) = true) as H by (vm_compute; reflexivity).
    rewrite E in H. discriminate H. }
  apply (sr_add wit_m0 _ wit_m1 0 1 0x34b00 false 64); [exact H1|]. unfold wit_m2.
  destruct (ms_addRequest 0 1 0x34b00 false 64 wit_m1) eqn:E; [done|].
  assert (is_Ok (ms_addRequest 0 1 0x34b00 false 64 wit_m1) = true) as H by (vm_compute; reflexivity).
  rewrite E in H. discriminate H.
Qed.

Lemma wit_sys_run : sys_run wit_m0 wit_events wit_end.2.
Proof.
  unfold wit_events. eapply update_n_run; [exact wit_added|]. unfold wit_end.
  destruct (update_n 80 wit_m2) as [[evs m]|] eqn:E; [done|].
  assert (is_Ok (update_n 80 wit_m2) = true) as H by (vm_compute; reflexivity). rewrite E in H. discriminate H.
Qed.

Definition wit_packet (t : BusPacketType) (id addr col rw time : Z) : BusPacket :=
  stamp time (new_BusPacket t id addr col rw 0 0 0 0 0).

Lemma wit_sent :
  sent_commands wit_events =
    [(wit_packet WR 1 0x34b00 768 210 1, 50); (wit_packet ACT 1 0x34b00 768 210 1, 39);
     (wit_packet PRE 1 0x34b00 768 210 1, 28); (wit_packet RD 0 0x4b40 832 18 0, 11);
     (wit_packet ACT 0 0x4b40 832 18 0, 0)].
Proof. vm_compute. reflexivity. Qed.

Lemma wit_sys_initial :
  initial (commandState (memoryController wit_m0)) (commandScheduler (memoryController wit_m0)).
Proof.
  split.
  - vm_compute. reflexivity.
  - assert (reqCmdQueueTimer (commandScheduler (memoryController wit_m0)) = replicate 8 ∅) as -> by (vm_compute; reflexivity).
    by intros ts [-> _]%elem_of_replicate.
  - split; [vm_compute; reflexivity|]. split; [vm_compute; discriminate|]. split_and!; vm_compute; reflexivity.
  - assert (commandQueues (commandScheduler (memoryController wit_m0)) = replicate 8 (CommandQueue_ctor false)) as ->
      by (vm_compute; reflexivity).
    apply Forall_replicate, CommandQueue_ctor_wf.
  - exact I.
Qed.

Lemma wit_sys_not_posted p t : (p, t) ∈ sent_commands wit_events → postCommand p = false.
Proof.
  assert (Forall (λ x, postCommand x.1 = false) (sent_commands wit_events)) as Hall by (rewrite wit_sent; repeat constructor).
  intros Hp. by apply (proj1 (Forall_forall _ _) Hall (p, t)).
Qed.

(** The read comes [nRCD] after the activate of its bank. *)
Lemma system_keeps_timing_witness : 0 + 11 ≤ 11.
Proof.
  apply (system_keeps_timing wit_m0 wit_events wit_end.2
    [(wit_packet WR 1 0x34b00 768 210 1, 50); (wit_packet ACT 1 0x34b00 768 210 1, 39); (wit_packet PRE 1 0x34b00 768 210 1, 28)]
    (wit_packet RD 0 0x4b40 832 18 0) 11 [] (wit_packet ACT 0 0x4b40 832 18 0) 0 [] DDR3.ACT DDR3.RD
    [0%nat; 0%nat] (DDR3.wit_at [0%nat; 0%nat]) (@mkEntry DDR3.standard DDR3.RD 1 11 false)).
  - exact wit_sys_initial.
  - intros t p i _. exact I.
  - vm_compute. reflexivity.
  - exact DDR3.wit_fresh.
  - vm_compute. reflexivity.
  - vm_compute. reflexivity.
  - vm_compute. discriminate.
  - exact wit_sys_run.
  - vm_compute. reflexivity.
  - exact wit_sent.
  - exact wit_sys_not_posted.
  - reflexivity.
  - reflexivity.
  - apply DDR3.wit_checked; [vm_compute; reflexivity|vm_compute; reflexivity|vm_compute; lia].
  - exact (DDR3.nRCD_entry (DDR3.speed_entry DDR3.wit_ddr3) DDR3.ACT DDR3.RD eq_refl eq_refl).
  - reflexivity.
  - reflexivity.
  - vm_compute. reflexivity.
Defined.

(** The simulation above is a run of the cycle relation. *)
Lemma system_refines_cycles_witness :
  ∃ h, cycle_run (commandState (memoryController wit_m0)) (commandScheduler (memoryController wit_m0)) h (cycles wit_events)
      (commandState (memoryController wit_end.2)) (commandScheduler (memoryController wit_end.2)) ∧
    (λ x : sent, (x.1.2, x.2)) <$> h = sent_commands wit_events.
Proof.
  apply (system_refines_cycles wit_m0 wit_events wit_end.2).
  - exact wit_sys_initial.
  - intros t p i _. exact I.
  - vm_compute. reflexivity.
  - exact wit_sys_run.
Defined.

(** The write of cycle 50 is followed by its data in cycle 62. *)
Lemma write_data_on_time_witness :
  sent_data wit_events = [(62, write_packet 50 (wit_packet WR 1 0x34b00 768 210 1))] ∧
  sent_data wit_events = filter (λ x, x.1 < cycles wit_events)
    (due_writes (write_latency (memoryDevice (commandScheduler (memoryController wit_m0)))) wit_events).
Proof.
  split; [vm_compute; reflexivity|].
  apply (write_data_on_time wit_m0 wit_events wit_end.2).
  - vm_compute. split; [discriminate|reflexivity].
  - exact wit_sys_initial.
  - intros t p i _. exact I.
  - vm_compute. reflexivity.
  - vm_compute. reflexivity.
  - vm_compute. reflexivity.
  - exact wit_sys_run.
  - exact wit_sys_not_posted.
Defined.

(** Both requests are answered. *)
Lemma requests_answered_once_witness :
  answered wit_events = [(DATA_WRITE, 1, 0x34b00); (DATA_READ, 0, 0x4b40)] ∧
  added wit_events ≡ₚ answered wit_events ++ ledger (memoryController wit_end.2) ∧
  ∀ p, p ∈ all_pending (memoryController wit_end.2) ↔ is_Some (mc_heap (memoryController wit_end.2) !! p).
Proof.
  split; [vm_compute; reflexivity|].
  apply (requests_answered_once wit_m0 wit_events wit_end.2).
  - vm_compute. reflexivity.
  - vm_compute. reflexivity.
  - vm_compute. reflexivity.
  - exact wit_sys_run.
Defined.

(** The controller of [wit_m1] after the request scheduler of its first cycle: the
    generator holds the activate and the read of the request. *)
Definition wit_generated : Controller unit unit Device :=
  let c := memoryController wit_m1 in
  match requestSchedule (mc_env c) (requestState c) (requestScheduler c) with
  | Ok x => set_requestState x.1 (set_requestScheduler x.2 c)
  | Err _ => c
  end.

(** Both enter the queue of their bank. *)
Lemma drain_done_witness :
  generated wit_generated = [new_BusPacket ACT 0 0x4b40 832 18 0 0 0 0 0; new_BusPacket RD 0 0x4b40 832 18 0 0 0 0 0] ∧
  ∃ c', drain (gen_bufferSize (rs_generator (requestScheduler wit_generated))) wit_generated = Ok c' ∧ generated c' = [] ∧
    Forall cq_wf (commandQueues (commandScheduler c')) ∧
    all_commands c' ≡ₚ (stamp (mc_clock wit_generated) <$> generated wit_generated) ++ all_commands wit_generated.
Proof.
  assert (generated wit_generated =
    [new_BusPacket ACT 0 0x4b40 832 18 0 0 0 0 0; new_BusPacket RD 0 0x4b40 832 18 0 0 0 0 0]) as E by (vm_compute; reflexivity).
  split; [exact E|]. apply (drain_done wit_generated).
  - assert (commandQueues (commandScheduler wit_generated) = replicate 8 (CommandQueue_ctor false)) as ->
      by (vm_compute; reflexivity).
    apply Forall_replicate, CommandQueue_ctor_wf.
  - assert (Forall (has_queue wit_generated) (generated wit_generated)) as Hall.
    { rewrite E. repeat constructor; exists 0; split; [vm_compute; reflexivity|vm_compute; lia
        |vm_compute; reflexivity|vm_compute; lia]. }
    intros p Hp. by apply (proj1 (Forall_forall _ _) Hall p).
Defined.

(** A read of 128 bytes takes two bursts of the bus of 64. *)
Definition wit_read : Controller unit unit Device :=
  memoryController match ms_addRequest 0 0 0x4b40 true 128 wit_m0 with Ok m => m | Err _ => wit_m0 end.
Definition wit_data : BusPacket := new_BusPacket DATA 0 0x4b40 832 18 0 0 0 0 0.
Definition wit_request : Request :=
  match deref (mc_heap wit_read) 1%positive with Ok r => r | Err _ => new_Request 0 0 DATA_READ 0 0 0 end.

Lemma answered_with_last_data_witness :
  ∃ c' r', responds false [wit_data; wit_data] wit_read = Ok ([None; Some r'], c') ∧ key r' = key wit_request ∧
    pending false c' = [] ∧ mc_heap c' !! 1%positive = None.
Proof.
  apply (answered_with_last_data false [wit_data] wit_data wit_read 0%nat 1%positive wit_request).
  - vm_compute. reflexivity.
  - vm_compute. reflexivity.
  - vm_compute. reflexivity.
  - vm_compute. reflexivity.
  - vm_compute. reflexivity.
  - repeat constructor.
Defined.

(** Before the first cycle the write list holds one live write. *)
Lemma pending_typed_witness :
  NoDup (pending true (memoryController wit_m2)) ∧
  ∀ p, p ∈ pending true (memoryController wit_m2) →
    ∃ r, deref (mc_heap (memoryController wit_m2)) p = Ok r ∧ requestType r = DATA_WRITE.
Proof.
  apply (pending_typed wit_m0 [Added (DATA_WRITE, 1, 0x34b00); Added (DATA_READ, 0, 0x4b40)] wit_m2 true).
  - vm_compute. reflexivity.
  - vm_compute. reflexivity.
  - vm_compute. reflexivity.
  - exact wit_added.
Defined.
