(* ===== verification/Phases.v ===== *)
(** * The phases of a cycle

    What holds of a memory system between the parts of [update], for the theorem
    that every request is answered (Liveness.v): a controller with one request queue
    and command queues by banks in front of one rank of a DDR3 device, with any
    prompt request scheduler and any work-conserving command scheduler that looks at
    the front of every queue. [sound] is the invariant, [balanced] says that the data
    on the way and the commands that ask for more are exactly what the pending
    requests outside the request queue miss, and [work] counts the commands that
    are, or will be, queued.

    A lemma [.._phase] per part of the cycle: it does not fail, it keeps [sound] and
    [balanced], and it does this to the requests and to [work]. *)
From Stdlib Require Import QArith Sorted.
From stdpp Require Import sorting.
From S2P Require Import Prelude Types KeyedBuf AddrMap ReqQueue CmdQueue CmdGen ReqSched Prompt DRAM DDR3 Device Refresh CmdSched CmdAlg CmdAlgos Progress Config Controller Ledger Flow Leaves System.
#[local] Open Scope Z_scope.
#[local] Existing Instance Open_generator.

(** A work-conserving algorithm that looks at the front of every queue by banks. *)
Class OffersHeads (B : Type) `{CmdW : WorkConserving Device B} := {
  offers_head q c : cq_isPerRequestor q = false → head (hrtBuffer q) = Some c → offers q c;
}.

#[export] Instance PUSH_offers : @OffersHeads unit _ CmdAlgos.PUSH.scheduling CmdAlgos.PUSH.algorithm PUSH.work_conserving.
Proof. split. intros q c _ Hc. exact Hc. Qed.
#[export] Instance FRFCFS_offers : @OffersHeads unit _ CmdAlgos.FRFCFS.scheduling CmdAlgos.FRFCFS.algorithm FRFCFS.work_conserving.
Proof. split. intros q c Hk Hc. simpl. unfold FRFCFS.front_of. by rewrite Hk. Qed.

Section liveness.
Context {A B : Type} {ReqA : RequestScheduling A} {ReqP : PromptAlgorithm A}
  {CmdS : CommandScheduling Device B} {CmdA : CommandAlgorithm Device B} {CmdW : WorkConserving Device B}
  {CmdH : OffersHeads B}.
Abbreviation CTRL := (Controller A B Device).
Implicit Types c : CTRL.

Variables (sp : DDR3.t) (c0 : CTRL).
#[local] Abbreviation su := (mc_setup c0).
#[local] Abbreviation s0 := (commandScheduler c0).
#[local] Abbreviation b0 := (commandState c0).
#[local] Abbreviation d0 := (memoryDevice s0).
#[local] Abbreviation width := (busWidth su).
(** A request waits [W] cycles for every command, [L] or [Lr] for its data. *)
#[local] Abbreviation W := (longest_wait (DDR3.speed_entry (dev_spec d0))).
#[local] Abbreviation L := (write_latency d0).
#[local] Abbreviation Lr := (latency d0).

(** A controller with one request queue and command queues by banks, in front of one
    rank of a DDR3 device, before its first cycle. *)
Record plain_system : Prop := {
  ps_device : Ramulator_ctor sp 1 = Ok d0;
  ps_banks : 0 < banks_of sp ≤ 8;
  ps_latency : 0 < Lr;
  ps_callback : callback_set su = true;
  ps_width : 0 < width;
  ps_mode : addressMode su = Interleaved;
  ps_format : format_ok (addressFormat su);
  ps_levels m : m ∈ (addressFormat su).*1;
  ps_rank k : (Rank, k) ∈ addressFormat su → k = 0;
  ps_bank k : (Bank, k) ∈ addressFormat su → 2 ^ k ≤ banks_of sp;
  ps_room : (2 ≤ request_room su)%nat;
  ps_request_map : queue_level (reqMap (mc_config su)) = None;
  ps_command_map bk sa : 0 ≤ bk < banks_of sp →
    ∃ i, decodeQueue (memTable su) [0; 0; bk; sa] (cmdMap (mc_config su)) = Ok i ∧
      (Z.to_nat i < length (commandQueues s0))%nat;
  ps_routed : routed su;
  ps_request_queue : requestQueues (requestScheduler c0) = [RequestQueue_ctor false false];
  ps_generator : rs_generator (requestScheduler c0) = CommandGenerator_ctor width;
  ps_command_queues : Forall (eq (CommandQueue_ctor false)) (commandQueues s0);
  ps_timers i : (i < length (commandQueues s0))%nat → is_Some (reqCmdQueueTimer s0 !! i);
  ps_initial : initial b0 s0;
  ps_kinds : offers_kinds (kinds (commandQueues s0));
  ps_clock : mc_clock c0 = 0;
  ps_reads : pendingReadRequest c0 = [];
  ps_writes : pendingWriteRequest c0 = [];
  ps_data : sendDataCounter c0 = [] ∧ sendDataBuffer c0 = [];
  ps_heap : mc_heap c0 = ∅;
}.

Hypothesis start : plain_system.

(** ** What holds of the requests and the commands *)

(** Where an address lies. *)
Definition place_at (addr : Z) : Z * Z * Z :=
  match addressMapping Interleaved (addressFormat su) (new_Request 0 0 DATA_READ 0 addr 0) with
  | Ok (r, _) => place r
  | Err _ => (0, 0, 0)
  end.

(** The requestor is critical. *)
Definition critical (id : Z) : Prop := requestorCriticalTable s0 !! id = Some true.

Record good (r : Request) : Prop := {
  gd_decoded : request_ok r;
  gd_bank : 0 ≤ bank r < banks_of sp;
  gd_place : place r = place_at (address r);
  gd_size : sized width r;
  gd_critical : critical (requestorID r);
}.

Lemma good_size n r : good r → sized width (set_requestSize n r) → good (set_requestSize n r).
Proof. by intros [H1 H2 H3 _ H5] Hn. Qed.

(** The decoding of a request. *)
Lemma decoded_good id addr (R_W : bool) size t g :
  critical id → sized width (new_Request g id (if R_W then DATA_READ else DATA_WRITE) size addr 0) →
  ∃ r oob, addressMapping Interleaved (addressFormat su)
      (set_arriveTime t (new_Request g id (if R_W then DATA_READ else DATA_WRITE) size addr 0)) = Ok (r, oob) ∧ good r ∧
    key r = (if R_W then DATA_READ else DATA_WRITE, id, addr) ∧ requestSize r = size.
Proof.
  intros Hid Hsz. set (r0 := set_arriveTime _ _).
  destruct (addressMapping_spec (addressFormat su) r0 (ps_format start)) as (r & oob & Hm & _ & Hrange & _ & Hmap).
  destruct (addressMapping_keeps _ _ _ _ _ Hm) as [Hkey Es]. exists r, oob. split; [done|].
  assert (key r0 = (if R_W then DATA_READ else DATA_WRITE, id, addr)) as Hkey0 by done.
  assert (requestorID r = id ∧ address r = addr) as [Eid Ea] by (rewrite Hkey0 in Hkey; by injection Hkey).
  assert (∀ m, ∃ k, (m, k) ∈ addressFormat su ∧ 0 ≤ coord m r < 2 ^ k) as Hc.
  { intros m. pose proof (ps_levels start m) as Hm'. apply list_elem_of_fmap in Hm' as ([m' k] & -> & Hin).
    exists k. split; [done|]. by apply Hrange. }
  assert (rank r = 0) as Er.
  { destruct (Hc Rank) as (k & Hin & Hr). rewrite (ps_rank start k Hin) in Hr. simpl in Hr. lia. }
  assert (0 ≤ bank r < banks_of sp) as Hb.
  { destruct (Hc Bank) as (k & Hin & Hr). pose proof (ps_bank start k Hin). simpl in Hr. lia. }
  split; [|by rewrite Hkey]. split.
  - split; [|pose proof (ps_banks start); lia]. unfold map_key, amap. rewrite Hmap, Er. done.
  - done.
  - unfold place_at. destruct (addressMapping_spec (addressFormat su) (new_Request 0 0 DATA_READ 0 (address r) 0) (ps_format start))
      as (r2 & oob2 & Hm2 & _). rewrite Hm2.
    assert (∀ m, coord m r = coord m r2) as Hdet.
    { intros m. eapply addressMapping_determined; [apply start| |exact Hm|exact Hm2|apply start]. simpl. by rewrite Ea. }
    pose proof (Hdet Rank). pose proof (Hdet Bank). pose proof (Hdet Row). simpl in *. unfold place. congruence.
  - destruct Hsz as (n & ? & E1 & E2). exists n. by rewrite Es.
  - by rewrite Eid.
Qed.

(** ** The invariant *)
Definition waiting c : list ptr := concat (generalBuffer <$> requestQueues (requestScheduler c)).

(** The data on the way, as keys: asked for by a generated or queued command, coming
    from the device or going to it. *)
Definition command_tokens c : list rkey := omap token (generated c ++ all_commands c).
Definition data_tokens c : list rkey :=
  ((λ p, (DATA_READ, bp_requestorID p, bp_address p)) <$> pendingReadData (memoryDevice (commandScheduler c))) ++
  ((λ p, (DATA_WRITE, bp_requestorID p, bp_address p)) <$> sendDataBuffer c).
Definition balanced c (toks : list rkey) : Prop :=
  account width (mc_heap c) (λ w : bool, pending w c) (waiting c) toks.

(** A command queue by banks with commands of critical requestors. *)
Record lane (q : CommandQueue) : Prop := {
  ln_kind : cq_perRequestorEnable q = false;
  ln_map : requestorMap q = [];
  ln_srt : srtBuffer q = [];
  ln_packets : Forall (packet_ok sp) (hrtBuffer q);
}.

(** The state after [n] cycles with history [h]; [busy] says that a command was sent
    in the cycle under way, [nw] is the cycle the write data are counted from. *)
Record sound (busy : bool) (nw : Z) (h : list sent) (n : Z) c : Prop := {
  sn_setup : mc_setup c = su;
  sn_clock : n < 2 ^ 32;
  sn_run : runs b0 s0 h n c;
  sn_posted i p t : (i, p, t) ∈ h → postCommand p = false;
  sn_times i p t : (i, p, t) ∈ h → t < n + (if busy then 1 else 0);
  sn_ledger : ledger_ok c;
  sn_plain : ∃ q, requestQueues (requestScheduler c) = [q] ∧ plain q;
  sn_waiting p : p ∈ waiting c → p ∈ all_pending c;
  sn_bus : dataBusSize (rs_generator (requestScheduler c)) = width;
  sn_first : length (gen_first (rs_generator (requestScheduler c))) = 8%nat;
  sn_live p r : mc_heap c !! p = Some r → good r;
  sn_table id : critical id → requestorCriticalTable (commandScheduler c) !! id = Some true;
  sn_generated : Forall (λ p, packet_ok sp p ∧ critical (bp_requestorID p)) (generated c);
  sn_lanes : Forall lane (commandQueues (commandScheduler c));
  sn_queues : length (commandQueues (commandScheduler c)) = length (commandQueues s0);
  sn_writes : ∃ pend, sending nw pend c ∧ ∀ x, x ∈ pend → ∃ i p t, (i, p, t) ∈ h ∧ x.1 = t + L;
  sn_reads : ∃ pend, in_flight Lr n busy pend (memoryDevice (commandScheduler c)) ∧
    ∀ x, x ∈ pend → ∃ i p t, (i, p, t) ∈ h ∧ x.1 = t + Lr;
}.

(** Only the request side changes. *)
Lemma sound_requests busy nw h n c a s q :
  sound busy nw h n c →
  requestQueues s = [q] → plain q → (∀ p, p ∈ generalBuffer q → p ∈ all_pending c) →
  dataBusSize (rs_generator s) = width → length (gen_first (rs_generator s)) = 8%nat →
  Forall (λ p, packet_ok sp p ∧ critical (bp_requestorID p)) (commandBuffer (rs_generator s)) →
  sound busy nw h n (set_requestState a (set_requestScheduler s c)).
Proof.
  intros [S1 S2 S3 S4 S5 S6 S7 S8 S9 S10 S11 S12 S13 S14 S15 (pend & S16 & S17) S18] Eq Hpl Hin Hbus Hlen Hgen.
  set (c' := set_requestState a _).
  assert (waiting c' = generalBuffer q) as Ew by (unfold waiting, c'; simpl; rewrite Eq; simpl; apply app_nil_r).
  split; try done.
  - destruct (ledger_frame c c') as [F _]; [done..|]. by apply F.
  - by exists q.
  - intros p Hp. rewrite Ew in Hp. by apply Hin.
  - exists pend. split; [|done]. exact (sending_path nw pend c c' eq_refl S16).
Qed.

(** ** The request scheduler *)
Definition cost (h : rheap) (p : ptr) : nat :=
  match h !! p with Some r => 2 + Z.to_nat (requestSize r / width) | None => 0 end.
(** The commands that are queued or will be. *)
Definition work c : nat :=
  (sum_list_with (cost (mc_heap c)) (waiting c) + length (generated c) + length (all_commands c))%nat.

Lemma sized_multiple r : sized width r → ∃ n : nat, requestSize r = width * Z.of_nat n ∧ Z.to_nat (requestSize r / width) = n.
Proof.
  intros (n & Hn & E & _). exists (Z.to_nat n). rewrite Z2Nat.id by lia. split; [done|].
  rewrite E, Z.mul_comm, Z.div_mul; [done|]. pose proof (ps_width start). lia.
Qed.

Lemma sum_list_with_delete {X} (f : X → nat) l k x : l !! k = Some x → sum_list_with f l = (f x + sum_list_with f (delete k l))%nat.
Proof. revert k. induction l as [|y l IH]; intros [|k] Hk; simplify_eq/=; [done|]. rewrite (IH k Hk). lia. Qed.

Lemma generator_makes r hit g :
  good r → dataBusSize g = width → length (gen_first g) = 8%nat →
  ∃ g' cs n, Open.commandGenerate r hit g = Ok (true, g') ∧ commandBuffer g' = commandBuffer g ++ cs ∧
    dataBusSize g' = width ∧ length (gen_first g') = 8%nat ∧ requestSize r = width * Z.of_nat n ∧
    Forall (λ p, packet_ok sp p ∧ critical (bp_requestorID p)) cs ∧
    omap token cs = replicate n (key r) ∧ (length cs ≤ 2 + Z.to_nat (requestSize r / width))%nat.
Proof.
  intros [Hok Hb _ Hsz Hcr] Hbus Hlen. destruct (sized_multiple r Hsz) as (n & En & Eq).
  destruct (Open_makes r hit g n) as (g' & cs & H1 & H2 & H3 & H4 & H5 & H6 & H7);
    [rewrite Hbus; apply start|done|apply Hok|by rewrite Hbus|].
  exists g', cs, n. rewrite Eq. split_and!; try done; [congruence|].
  eapply Forall_impl; [exact H5|]. intros p [? ? Ep Eid]. rewrite Eid. split; [split; try done; by rewrite Ep|done].
Qed.

Lemma request_phase nw h n c :
  sound false nw h n c → balanced c (command_tokens c ++ data_tokens c) →
  ∃ a s, requestSchedule (mc_env c) (requestState c) (requestScheduler c) = Ok (a, s) ∧
    let c1 := set_requestState a (set_requestScheduler s c) in
    sound false nw h n c1 ∧ balanced c1 (command_tokens c1 ++ data_tokens c1) ∧
    (length (waiting c1) = length (waiting c) - 1)%nat ∧ (work c1 ≤ work c)%nat.
Proof.
  intros Hs Hb. destruct (sn_plain _ _ _ _ _ Hs) as (q & Eq & Hpl).
  assert (waiting c = generalBuffer q) as Ew by (unfold waiting; rewrite Eq; simpl; apply app_nil_r).
  destruct (decide (generalBuffer q = [])) as [Enil|Hne].
  - destruct (prompt_idle (mc_env c) (requestState c) (requestScheduler c) q Eq Hpl Enil) as [a Ha].
    exists a, (requestScheduler c). split; [exact Ha|]. cbn zeta.
    set (c1 := set_requestState a _). assert (waiting c1 = waiting c) as Ew1 by done.
    rewrite Ew1, Ew, Enil. split_and!; [|exact Hb|done|done].
    apply (sound_requests false nw h n c a _ q Hs); try done; try apply Hs.
    intros p. rewrite Enil. by intros ?%not_elem_of_nil.
  - assert (servable (mc_heap c) (requestScheduler c) q) as Hsv.
    { intros p Hp. rewrite <- Ew in Hp. pose proof (sn_waiting _ _ _ _ _ Hs p Hp) as Hp'.
      apply (lo_live _ (sn_ledger _ _ _ _ _ Hs)) in Hp' as [r Hr]. pose proof (sn_live _ _ _ _ _ Hs p r Hr) as Hg.
      exists r. split; [done|]. split; [apply Hg|]. intros hit.
      destruct (generator_makes r hit (rs_generator (requestScheduler c)) Hg) as (g' & _ & _ & Hgen & _);
        [apply Hs|apply Hs|by exists g']. }
    destruct (prompt_serves (mc_env c) (requestState c) (requestScheduler c) q Eq Hpl Hne Hsv) as (a & s & Ha & [Hone]).
    destruct Hone as (k & p & r & hit & q' & Hk & Hr & Hfirst & Hgen & Eq' & Eb' & Hpl').
    change (env_heap (mc_env c)) with (mc_heap c) in *.
    pose proof (sn_live _ _ _ _ _ Hs p r Hr) as Hg.
    destruct (generator_makes r hit (rs_generator (requestScheduler c)) Hg) as (g' & cs & m & Hgen' & Hbuf & Hbus & Hlen & Hm & Hcs & Htok & Hle);
      [apply Hs|apply Hs|].
    assert (g' = rs_generator s) as -> by (change (commandGenerate r hit) with (Open.commandGenerate r hit) in Hgen; congruence).
    exists a, s. split; [exact Ha|]. cbn zeta. set (c1 := set_requestState a _).
    assert (waiting c1 = delete k (waiting c)) as Ew1.
    { rewrite Ew. unfold waiting. simpl. rewrite Eq'. simpl. by rewrite app_nil_r. }
    assert (generated c1 = generated c ++ cs) as Eg1 by exact Hbuf.
    rewrite <- Ew in Hk. split_and!.
    + apply (sound_requests false nw h n c a s q' Hs); try done.
      * intros x Hx. rewrite Eb', <- Ew in Hx. apply (sn_waiting _ _ _ _ _ Hs). by eapply elem_of_submseteq, submseteq_delete.
      * rewrite Hbuf. apply Forall_app. split; [apply Hs|done].
    + unfold balanced. rewrite Ew1. unfold command_tokens. rewrite Eg1. change (all_commands c1) with (all_commands c).
      change (data_tokens c1) with (data_tokens c).
      assert (omap token ((generated c ++ cs) ++ all_commands c) ++ data_tokens c ≡ₚ
        replicate m (key r) ++ command_tokens c ++ data_tokens c) as ->.
      { unfold command_tokens. rewrite !omap_app, Htok. solve_Permutation. }
      apply (account_serve width _ _ _ _ k p r m Hb Hk Hr); [|done].
      intros j x Hj Hx E. rewrite Ew in Hx.
      destruct (mc_heap c !! x) as [y|] eqn:Hy; [|done]. simpl in E. injection E as _ _ E.
      apply (Hfirst j x y Hj Hx Hy). rewrite (gd_place _ Hg), (gd_place y), E; [done|by eapply sn_live].
    + rewrite Ew1. apply length_delete. by eexists.
    + unfold work. rewrite Ew1, Eg1, length_app. change (mc_heap c1) with (mc_heap c). change (all_commands c1) with (all_commands c).
      rewrite (sum_list_with_delete _ _ _ _ Hk). unfold cost at 2. rewrite Hr. lia.
Qed.

(** ** The commands enter their queues *)

(** Only the command side changes, and the device not. *)
Lemma sound_commands busy nw h n c c' :
  sound busy nw h n c → runs b0 s0 h n c' → mc_setup c' = mc_setup c → mc_heap c' = mc_heap c →
  pendingReadRequest c' = pendingReadRequest c → pendingWriteRequest c' = pendingWriteRequest c →
  data_path c' = data_path c → requestScheduler c' = requestScheduler c →
  memoryDevice (commandScheduler c') = memoryDevice (commandScheduler c) →
  (∀ id, critical id → requestorCriticalTable (commandScheduler c') !! id = Some true) →
  Forall lane (commandQueues (commandScheduler c')) →
  length (commandQueues (commandScheduler c')) = length (commandQueues s0) →
  sound busy nw h n c'.
Proof.
  intros [S1 S2 S3 S4 S5 S6 S7 S8 S9 S10 S11 S12 S13 S14 S15 (pend & S16 & S17) S18] E1 E2 E3 E4 E5 E6 E7 E8 Ht Hl Hlen.
  split; unfold waiting, all_pending, generated in *; rewrite ?E2, ?E3, ?E4, ?E5, ?E7, ?E8; try done.
  - destruct (ledger_frame c c' E3 E4 E5) as [F _]. by apply F.
  - exists pend. split; [exact (sending_path nw pend c c' E6 S16)|done].
Qed.

Lemma lane_insert p q : lane q → packet_ok sp p → lane (insertCommand p true q).2 ∧ commands (insertCommand p true q).2 = commands q ++ [p].
Proof.
  intros [H1 H2 H3 H4] Hp. unfold insertCommand. rewrite H1. simpl. split.
  - split; simpl; try done. apply Forall_app. split; [done|by constructor].
  - unfold commands. simpl. rewrite H2, H3, !app_nil_r. done.
Qed.

Lemma enqueue_phase nw h n c p l :
  sound false nw h n c → generated c = p :: l →
  ∃ c1 g, enqueueCommand p c = Ok (true, c1) ∧ gen_removeCommand (rs_generator (requestScheduler c1)) = Ok g ∧
    let c2 := set_requestScheduler (set_generator g (requestScheduler c1)) c1 in
    sound false nw h n c2 ∧ generated c2 = l ∧ all_commands c2 ≡ₚ stamp (mc_clock c) p :: all_commands c ∧
    waiting c2 = waiting c ∧ mc_heap c2 = mc_heap c ∧ (∀ w, pending w c2 = pending w c) ∧ data_tokens c2 = data_tokens c.
Proof.
  intros Hs Eg. pose proof (sn_generated _ _ _ _ _ Hs) as Hgen. rewrite Eg in Hgen. apply Forall_cons in Hgen as [[Hp Hcr] Hgen].
  destruct (ps_command_map start (bp_bank p) (bp_subArray p) (po_bank _ _ Hp)) as (i & Hi & Hlt).
  rewrite <- (sn_queues _ _ _ _ _ Hs) in Hlt. destruct (lookup_lt_is_Some_2 _ _ Hlt) as [q Hq].
  pose proof (Forall_lookup_1 _ _ _ _ (sn_lanes _ _ _ _ _ Hs) Hq) as Hln.
  pose proof (packet_stamp sp (mc_clock c) p Hp) as Hps.
  destruct (lane_insert (stamp (mc_clock c) p) q Hln Hps) as [Hln' Hcmd'].
  pose proof (sn_setup _ _ _ _ _ Hs) as Esu. pose proof (sn_table _ _ _ _ _ Hs _ Hcr) as Htab.
  assert (∃ c1, enqueueCommand p c = Ok (true, c1) ∧
    commandScheduler c1 = set_queue (Z.to_nat i) (insertCommand (stamp (mc_clock c) p) true q).2
      (set_criticalTable (<[bp_requestorID p := true]> (requestorCriticalTable (commandScheduler c))) (commandScheduler c)))
    as (c1 & He & Ecs).
  { unfold enqueueCommand. change (mc_setup (set_mc_stats _ c)) with (mc_setup c). rewrite Esu.
    change (bp_addressMap (stamp _ p)) with [0; 0; bp_bank p; bp_subArray p]. rewrite Hi. cbn [mbind res_bind].
    change (commandScheduler (set_mc_stats _ c)) with (commandScheduler c). change (bp_requestorID (stamp _ p)) with (bp_requestorID p).
    rewrite Htab. cbn [default]. unfold queue_at, vec_at.
    change (commandQueues (set_criticalTable _ _)) with (commandQueues (commandScheduler c)). rewrite Hq. cbn [mbind res_bind of_option].
    simpl. assert ((insertCommand (stamp (mc_clock c) p) true q).1 = true) as -> by (unfold insertCommand; by rewrite (ln_kind _ Hln)).
    eexists. split; [done|done]. }
  destruct (enqueueCommand_runs b0 s0 h n p c true c1) as [Hrun _];
    [rewrite Esu; apply start|apply Hs|exact He|].
  pose proof (enqueueCommand_frame _ _ _ _ He) as (F1 & F2 & F3 & F4 & F5 & F6 & F7 & F8 & F9 & F10).
  assert (generated c1 = p :: l) as Eg1 by (unfold generated; by rewrite F8).
  exists c1, (mkGenerator (dataBusSize (rs_generator (requestScheduler c1))) (gen_first (rs_generator (requestScheduler c1)))
    (lookupTable (rs_generator (requestScheduler c1))) l).
  split; [exact He|]. split.
  { unfold gen_removeCommand. change (commandBuffer (rs_generator (requestScheduler c1))) with (generated c1). by rewrite Eg1. }
  assert (sound false nw h n c1) as Hs1.
  { apply (sound_commands _ _ _ _ c); try done; rewrite Ecs; cbn [commandQueues set_queue set_commandQueues set_criticalTable requestorCriticalTable].
    - intros id Hid. destruct (decide (id = bp_requestorID p)) as [->|]; [apply lookup_insert_eq|].
      rewrite lookup_insert_ne by done. by apply (sn_table _ _ _ _ _ Hs).
    - apply Forall_insert; [apply Hs|done].
    - rewrite length_insert. apply Hs. }
  cbn zeta. set (c2 := set_requestScheduler _ c1).
  assert (all_commands c2 ≡ₚ stamp (mc_clock c) p :: all_commands c) as Eall.
  { unfold all_commands. change (commandScheduler c2) with (commandScheduler c1). rewrite Ecs. cbn [commandQueues set_queue set_commandQueues].
    apply (insert_commands _ _ q); [exact Hq|]. rewrite Hcmd'. by rewrite Permutation_app_comm. }
  split_and!; [|done|exact Eall|unfold waiting; simpl; by rewrite F8|exact F4| |].
  - destruct (sn_plain _ _ _ _ _ Hs1) as (q0 & Eq & Hpl).
    apply (sound_requests false nw h n c1 (requestState c1) _ q0 Hs1); try done; try apply Hs1.
    intros x Hx. apply (sn_waiting _ _ _ _ _ Hs1). unfold waiting. rewrite Eq. simpl. by rewrite app_nil_r.
  - intros []; simpl; done.
  - unfold data_tokens. change (commandScheduler c2) with (commandScheduler c1). rewrite F10.
    unfold data_path in F1. injection F1 as _ F1. change (sendDataBuffer c2) with (sendDataBuffer c1). by rewrite F1.
Qed.

(** What the account is made of does not change. *)
Record same_account c c' : Prop := {
  sa_heap : mc_heap c' = mc_heap c;
  sa_pending w : pending w c' = pending w c;
  sa_waiting : waiting c' = waiting c;
  sa_tokens : command_tokens c' ++ data_tokens c' ≡ₚ command_tokens c ++ data_tokens c;
}.

Lemma same_account_trans c1 c2 c3 : same_account c1 c2 → same_account c2 c3 → same_account c1 c3.
Proof. intros [A1 A2 A3 A4] [B1 B2 B3 B4]. split; [congruence|intros; by rewrite B2|congruence|by rewrite B4]. Qed.

Lemma same_balanced c c' :
  same_account c c' → balanced c (command_tokens c ++ data_tokens c) → balanced c' (command_tokens c' ++ data_tokens c').
Proof.
  intros [E1 E2 E3 E4] Hb. unfold balanced in *. rewrite E1, E3, E4.
  apply (account_ext _ _ (λ w : bool, pending w c)); [exact E2|exact Hb].
Qed.

Lemma drain_phase nw h n c :
  sound false nw h n c →
  ∃ c', drain (gen_bufferSize (rs_generator (requestScheduler c))) c = Ok c' ∧
    sound false nw h n c' ∧ generated c' = [] ∧ same_account c c' ∧ work c' = work c.
Proof.
  unfold gen_bufferSize. change (commandBuffer (rs_generator (requestScheduler c))) with (generated c).
  remember (generated c) as l eqn:El. revert c El. induction l as [|p l IH]; intros c El Hs.
  - exists c. simpl. unfold gen_bufferSize. change (commandBuffer (rs_generator (requestScheduler c))) with (generated c).
    rewrite <- El. split_and!; done.
  - destruct (enqueue_phase nw h n c p l Hs (eq_sym El)) as (c1 & g & He & Hg & Hs2 & Eg2 & Ea & Ew & Eh & Ep & Ed).
    set (c2 := set_requestScheduler _ c1) in *.
    destruct (IH c2 (eq_sym Eg2) Hs2) as (c' & Hd & Hs' & Hnil & Hacc & Ework).
    exists c'. split.
    { simpl. unfold gen_bufferSize, gen_getCommand, vec_front.
      change (commandBuffer (rs_generator (requestScheduler c))) with (generated c). rewrite <- El. simpl.
      rewrite He. cbn [mbind res_bind]. pose proof (enqueueCommand_frame _ _ _ _ He) as (_ & _ & _ & _ & _ & _ & _ & F & _).
      rewrite <- F, Hg. cbn [mbind res_bind]. exact Hd. }
    split_and!; [done|done| |].
    + eapply same_account_trans; [|exact Hacc]. split; [done|done|done|].
      unfold command_tokens. rewrite Ed, Eg2, <- El, !omap_app, Ea. simpl.
      change (token (stamp (mc_clock c) p)) with (token p). destruct (token p); [solve_Permutation|done].
    + rewrite Ework. unfold work. rewrite Eh, Ew, Ea, Eg2, <- El. simpl. lia.
Qed.

(** ** A command is sent *)
Lemma same_lane q q' : same_queue q q' → lane q → lane q'.
Proof. by intros [b ->] [H1 H2 H3 H4]. Qed.

Lemma quiet_lanes (s s' : CommandScheduler Device) :
  quiet s s' → Forall lane (commandQueues s) → Forall lane (commandQueues s') ∧ commands <$> commandQueues s' = commands <$> commandQueues s.
Proof.
  intros Hq Hl. pose proof (qt_queues _ _ Hq) as H2. induction H2 as [|q q' l l' Hs _ IH]; [done|].
  apply Forall_cons in Hl as [Hln Hl]. destruct (IH Hl) as [H3 H4]. split.
  - constructor; [by eapply same_lane|done].
  - rewrite !fmap_cons, H4, (commands_same _ _ Hs). done.
Qed.

Lemma send_lanes p i (s s' : CommandScheduler Device) :
  Forall lane (commandQueues s) → at_front i p s → sendCommand p i false s = Ok s' →
  Forall lane (commandQueues s') ∧ packet_ok sp p ∧
  concat (commands <$> commandQueues s) ≡ₚ p :: concat (commands <$> commandQueues s') ∧
  requestorCriticalTable s' = requestorCriticalTable s ∧ length (commandQueues s') = length (commandQueues s).
Proof.
  intros Hl (q & Hq & Hp) Hs. pose proof (Forall_lookup_1 _ _ _ _ Hl Hq) as [K1 K2 K3 K4].
  unfold popped, cq_isPerRequestor in Hp. rewrite K1 in Hp. destruct Hp as [l El].
  assert (scheduledQueue q = true ∧ hrtBuffer q = p :: l) as [Esch Ehrt].
  { destruct (scheduledQueue q); [done|]. congruence. }
  rewrite Ehrt in K4. apply Forall_cons in K4 as [Hok K4].
  unfold sendCommand, queue_at, vec_at, cq_isPerRequestor in Hs. rewrite Hq in Hs. cbn [mbind res_bind of_option] in Hs.
  rewrite K1 in Hs. cbv beta iota zeta in Hs. unfold removeCommand in Hs. rewrite Esch, Ehrt in Hs.
  unfold vec_erase in Hs. rewrite decide_True in Hs by (simpl; lia). cbn [mbind res_bind mret res_ret] in Hs.
  apply bind_Ok in Hs as (c' & _ & Hs). apply bind_Ok in Hs as (d & _ & Hs). injection Hs as <-. simpl.
  split_and!; [|done| |done|by rewrite length_insert].
  - apply Forall_insert; [done|]. by split.
  - assert (commandQueues s = <[i := q]> (<[i := set_hrtBuffer l q]> (commandQueues s))) as E
      by (rewrite list_insert_insert_eq; symmetry; by apply list_insert_id).
    rewrite E at 1. apply (insert_commands _ _ (set_hrtBuffer l q)).
    + apply list_lookup_insert_eq. by eapply lookup_lt_Some.
    + unfold commands. simpl. rewrite K2, K3, Ehrt. done.
Qed.

Lemma made : @fresh rm_standard (rm_spec (dev_spec d0)) (channel d0) ∧ postBuffer d0 = [] ∧ clockCycle d0 = 0.
Proof. destruct (made_device s0 sp 1 (ps_device start)) as (? & _ & _ & ? & ? & _). done. Qed.

Lemma sound_tree busy nw h n c : sound busy nw h n c → tree_inv d0 h n (memoryDevice (commandScheduler c)).
Proof.
  intros Hs. destruct made as (_ & Hp & Hc).
  apply (cycle_tree b0 s0 h n (commandState c) (commandScheduler c)); fold d0; rewrite ?Hc; try done; try apply Hs; try apply start.
Qed.

Lemma sound_at_cycle busy nw h n c : sound busy nw h n c → at_cycle b0 s0 h n (commandState c) (commandScheduler c).
Proof.
  intros Hs. destruct (sound_tree _ _ _ _ _ Hs) as [_ _ _ _ Hrun]. split; try apply Hs.
  intros i q p Hq Hp. destruct (Forall_lookup_1 _ _ _ _ (sn_lanes _ _ _ _ _ Hs) Hq) as [K1 K2 K3 K4].
  unfold commands in Hp. rewrite K2, K3, app_nil_r in Hp. simpl in Hp.
  eapply (packet_fits sp 1 d0); [apply start|done|pose proof (ps_banks start); lia|exact Hrun|apply made|].
  by apply (proj1 (Forall_forall _ _) K4).
Qed.

Lemma sound_reads_delay busy nw h n c : sound busy nw h n c → latency (memoryDevice (commandScheduler c)) = Lr.
Proof. intros Hs. apply latency_spec. apply (ti_spec _ _ _ _ (sound_tree _ _ _ _ _ Hs)). Qed.

Lemma in_flight_weaken l n b pend (d : Device) : in_flight l n b pend d → in_flight l n true pend d.
Proof. intros [H1 H2 H3 H4 H5]. split; try done. intros x Hx. apply H4 in Hx. destruct b; lia. Qed.

Lemma packet_CAS p : packet_ok sp p →
  token p = if is_read (busPacketType p) then Some (DATA_READ, bp_requestorID p, bp_address p)
            else if is_write (busPacketType p) then Some (DATA_WRITE, bp_requestorID p, bp_address p) else None.
Proof.
  intros [Ht _ _]. unfold open_types in Ht. rewrite !elem_of_cons, elem_of_nil in Ht. unfold token.
  destruct Ht as [->|[->|[->|[->|[]]]]]; reflexivity.
Qed.

(** What is asked for when [p] goes to the device. *)
Lemma note_write_tokens p c (d : Device) :
  packet_ok sp p → receiveFromBus p d = Ok (memoryDevice (commandScheduler c)) →
  ((λ x, (DATA_READ, bp_requestorID x, bp_address x)) <$> pendingReadData (memoryDevice (commandScheduler c))) ++
  ((λ x, (DATA_WRITE, bp_requestorID x, bp_address x)) <$> sendDataBuffer (note_write (Some p) c)) ≡ₚ
  option_list (token p) ++ ((λ x, (DATA_READ, bp_requestorID x, bp_address x)) <$> pendingReadData d) ++
  ((λ x, (DATA_WRITE, bp_requestorID x, bp_address x)) <$> sendDataBuffer c).
Proof.
  intros Hp Hr. simpl in Hr. apply receive_cases in Hr as (_ & _ & Hr). rewrite (po_post _ _ Hp) in Hr.
  destruct Hr as (_ & _ & _ & ->). rewrite (packet_CAS p Hp). unfold note_write.
  destruct Hp as [Ht _ _]. unfold open_types in Ht. rewrite !elem_of_cons, elem_of_nil in Ht. unfold generateData.
  destruct Ht as [Et|[Et|[Et|[Et|[]]]]]; rewrite Et;
    repeat match goal with
    | |- context [is_read ?t] => let v := eval vm_compute in (is_read t) in change (is_read t) with v
    | |- context [is_write ?t] => let v := eval vm_compute in (is_write t) in change (is_write t) with v
    end; cbn -[fmap]; rewrite ?fmap_app; [done|done| |]; simpl; solve_Permutation.
Qed.

Lemma sound_weaken nw h n c : sound false nw h n c → sound true nw h n c.
Proof.
  intros [S1 S2 S3 S4 S5 S6 S7 S8 S9 S10 S11 S12 S13 S14 S15 S16 (pend & S17 & S18)]. split; try done.
  - intros i p t Hin. apply S5 in Hin. lia.
  - exists pend. split; [by eapply in_flight_weaken|done].
Qed.

(** The algorithm leaves a command waiting only if the last one is not old enough. *)
Lemma idle_reason nw h n c b s :
  sound false nw h n c → commandSchedule (commandState c) (commandScheduler c) = Ok (None, b, s) →
  all_commands c ≠ [] → ∃ i p t, (i, p, t) ∈ h ∧ n < t + W.
Proof.
  intros Hs Hsch Hne. destruct (decide (Forall (λ x : sent, x.2 + W ≤ n) h)) as [Hold|Hnew].
  2: { apply not_Forall_Exists, Exists_exists in Hnew as ([[i p] t] & Hin & Hlt); [|apply _]. simpl in Hlt. exists i, p, t. split; [done|lia]. }
  exfalso. pose proof (sound_at_cycle _ _ _ _ _ Hs) as Hat.
  assert (∃ i q p, commandQueues (commandScheduler c) !! i = Some q ∧ head (hrtBuffer q) = Some p ∧ p ∈ commands q ∧ lane q)
    as (i & q & p & Hi & Hp & Hin & Hln).
  { destruct (all_commands c) as [|p l] eqn:El; [done|].
    assert (p ∈ all_commands c) as Hp by (rewrite El; left). unfold all_commands in Hp.
    apply list_elem_of_In, in_concat in Hp as (qc & Hqc & Hp). apply list_elem_of_In in Hqc, Hp.
    apply list_elem_of_fmap in Hqc as (q & -> & Hq). apply list_elem_of_lookup in Hq as [i Hi].
    pose proof (Forall_lookup_1 _ _ _ _ (sn_lanes _ _ _ _ _ Hs) Hi) as Hln. destruct Hln as [K1 K2 K3 K4] eqn:E. clear E.
    unfold commands in Hp. rewrite K2, K3, app_nil_r in Hp. simpl in Hp. destruct (hrtBuffer q) as [|x xs] eqn:Ex; [by apply not_elem_of_nil in Hp|].
    exists i, q, x. split_and!; [done|by rewrite Ex|by eapply hrt_commands|by split; rewrite ?Ex]. }
  pose proof (cycle_run_inv _ _ _ _ _ _ (ps_initial start) (sn_run _ _ _ _ _ Hs)) as [_ _ Hwf Ha].
  assert (ready_issuable p i (commandScheduler c) = Ok false) as Hno.
  { eapply schedule_idle; [exact Hwf|exact Ha| | |exact Hsch|exact Hi|apply offers_head; [apply Hln|exact Hp]].
    - eapply at_cycle_answers; [apply start|apply start|apply start|exact Hat].
    - eapply at_cycle_kinds; [apply start|apply start|exact Hat]. }
  rewrite (rested_ready b0 s0 sp 1 (ps_device start) (ps_timers start) (ps_initial start) h n _ _ i q p Hat) in Hno;
    [done| |exact Hi|exact Hin].
  intros j x t Hx. rewrite Forall_forall in Hold. exact (Hold _ Hx).
Qed.

Lemma quiet_phase nw h n c b s :
  sound false nw h n c → commandSchedule (commandState c) (commandScheduler c) = Ok (None, b, s) →
  quiet (commandScheduler c) s →
  let c1 := set_commandState b (set_commandScheduler s c) in
  sound true nw h n c1 ∧ same_account c c1 ∧ work c1 = work c.
Proof.
  intros Hs Hsch Hq c1. destruct (quiet_lanes _ _ Hq (sn_lanes _ _ _ _ _ Hs)) as [Hl Ecmd].
  assert (all_commands c1 = all_commands c) as Eall by (unfold all_commands; simpl; by rewrite Ecmd).
  split_and!.
  - apply sound_weaken, (sound_commands _ _ _ _ c); try done; simpl.
    + eapply cr_none; [apply Hs|exact Hsch].
    + apply (qt_dev _ _ Hq).
    + rewrite (qt_table _ _ Hq). apply Hs.
    + rewrite (quiet_length _ _ Hq). apply Hs.
  - split; try done. unfold command_tokens, data_tokens. rewrite Eall. simpl. by rewrite (qt_dev _ _ Hq).
  - unfold work. by rewrite Eall.
Qed.

(** The data side of a command that goes to the device. *)
Lemma send_data h n c p i b s :
  sound false n h n c → packet_ok sp p →
  runs b0 s0 ((i, p, n) :: h) n (set_commandState b (set_commandScheduler s c)) →
  receiveFromBus p (memoryDevice (commandScheduler c)) = Ok (memoryDevice s) →
  let c1 := note_write (Some p) (set_commandState b (set_commandScheduler s c)) in
  (∃ pend, sending n pend c1 ∧ ∀ x, x ∈ pend → ∃ j q t, (j, q, t) ∈ (i, p, n) :: h ∧ x.1 = t + L) ∧
  (∃ pend, in_flight Lr n true pend (memoryDevice s) ∧ ∀ x, x ∈ pend → ∃ j q t, (j, q, t) ∈ (i, p, n) :: h ∧ x.1 = t + Lr).
Proof.
  intros Hs Hp Hrun Hrc c1. destruct (sn_writes _ _ _ _ _ Hs) as (pend & Hpend & Hdue).
  destruct (sn_reads _ _ _ _ _ Hs) as (rpend & Hrpend & Hrdue). split.
  - eexists. split.
    + apply (note_write_spec n pend L p (set_commandState b (set_commandScheduler s c))).
      * exact (sending_path n pend c (set_commandState b (set_commandScheduler s c)) eq_refl Hpend).
      * apply Forall_forall. intros x Hx. destruct (Hdue x Hx) as (j & q & t & Hin & ->).
        pose proof (sn_times _ _ _ _ _ Hs j q t Hin) as Ht. simpl in Ht |- *. lia.
      * apply u32_range.
      * unfold write_delay. rewrite (po_post _ _ Hp).
        rewrite !(cycle_run_constraints _ _ _ _ _ _ (ps_initial start) Hrun). done.
    + intros x [Hx|Hx]%elem_of_app; [destruct (Hdue x Hx) as (j & q & t & ? & ?); exists j, q, t; split; [by right|done]|].
      destruct (is_write _); [|by apply not_elem_of_nil in Hx]. apply list_elem_of_singleton in Hx as ->.
      exists i, p, n. split; [by left|done].
  - eexists. split.
    + eapply in_flight_weaken, (in_flight_bus Lr n false rpend p _ _ Hrpend (ps_latency start)); [by eapply sound_reads_delay|exact Hrc|apply Hp|done].
    + intros x [Hx|Hx]%elem_of_app; [destruct (Hrdue x Hx) as (j & q & t & ? & ?); exists j, q, t; split; [by right|done]|].
      destruct (is_read _); [|by apply not_elem_of_nil in Hx]. apply list_elem_of_singleton in Hx as ->.
      exists i, p, n. split; [by left|done].
Qed.

Lemma note_write_frame o c :
  let c' := note_write o c in
  mc_setup c' = mc_setup c ∧ commandScheduler c' = commandScheduler c ∧ commandState c' = commandState c ∧
  mc_heap c' = mc_heap c ∧ (∀ w, pending w c' = pending w c) ∧ requestScheduler c' = requestScheduler c.
Proof. unfold note_write. destruct o as [p|]; [|done]. destruct (is_write _); split_and!; try done; by intros []. Qed.

Lemma sent_phase h n c p b s i :
  sound false n h n c → commandSchedule (commandState c) (commandScheduler c) = Ok (Some p, b, s) →
  issues (commandScheduler c) (Some (i, p)) s →
  let c1 := note_write (Some p) (set_commandState b (set_commandScheduler s c)) in
  sound true n ((i, p, n) :: h) n c1 ∧ same_account c c1 ∧ S (work c1) = work c.
Proof.
  intros Hs Hsch Hi c1. assert (runs b0 s0 ((i, p, n) :: h) n (set_commandState b (set_commandScheduler s c))) as Hrun
    by (eapply cr_issue; [apply Hs|exact Hsch|exact Hi]).
  inversion Hi as [|s1 ? ? ? Hqt Hf Hrd His Hsc Hsend]; subst.
  destruct (quiet_lanes _ _ Hqt (sn_lanes _ _ _ _ _ Hs)) as [Hl1 Ecmd1].
  destruct (send_lanes _ _ _ _ Hl1 Hf Hsend) as (Hl & Hp & Hperm & Etab & Elen). rewrite Ecmd1 in Hperm.
  destruct (send_device _ _ _ _ _ _ Hsend Hsc) as (Hrc & _). rewrite (qt_dev _ _ Hqt) in Hrc.
  destruct (send_data h n c p i b s Hs Hp Hrun Hrc) as [Hwr Hrd'].
  pose proof (note_write_frame (Some p) (set_commandState b (set_commandScheduler s c))) as (N1 & N2 & N3 & N4 & N5 & N6).
  fold c1 in N1, N2, N3, N4, N5, N6, Hwr.
  assert (all_commands c ≡ₚ p :: all_commands c1) as Eall.
  { unfold all_commands. rewrite N2. exact Hperm. }
  assert (waiting c1 = waiting c) as Ew by (unfold waiting; by rewrite N6).
  assert (generated c1 = generated c) as Eg by (unfold generated; by rewrite N6).
  assert (pendingReadRequest c1 = pendingReadRequest c ∧ pendingWriteRequest c1 = pendingWriteRequest c) as [Ep1 Ep2]
    by (split; [exact (N5 false)|exact (N5 true)]).
  split_and!.
  - destruct Hs as [S1 S2 S3 S4 S5 S6 S7 S8 S9 S10 S11 S12 S13 S14 S15 S16 S17].
    split; rewrite ?Ew, ?Eg, ?N6, ?N4, ?N2; try done.
    + by rewrite N1.
    + unfold runs. rewrite N2, N3. exact Hrun.
    + intros j q t [[= -> -> ->]|Hin]%elem_of_cons; [apply Hp|by eapply S4].
    + intros j q t [[= -> -> ->]|Hin]%elem_of_cons; [lia|]. apply S5 in Hin. lia.
    + destruct (ledger_frame c c1) as [F _]; [done..|]. by apply F.
    + intros x Hx. apply S8 in Hx. unfold all_pending in *. by rewrite Ep1, Ep2.
    + simpl. rewrite Etab, (qt_table _ _ Hqt). done.
    + simpl. rewrite Elen, (quiet_length _ _ Hqt). done.
  - split; [done|exact N5|done|].
    assert (data_tokens c1 ≡ₚ option_list (token p) ++ data_tokens c) as ->.
    { unfold data_tokens. rewrite N2. exact (note_write_tokens p (set_commandState b (set_commandScheduler s c)) _ Hp Hrc). }
    unfold command_tokens. rewrite Eg, !omap_app, Eall. simpl. destruct (token p); simpl; solve_Permutation.
  - unfold work. rewrite Ew, Eg, N4, Eall. simpl. lia.
Qed.

Lemma command_phase h n c :
  sound false n h n c → generated c = [] →
  ∃ o b s, commandSchedule (commandState c) (commandScheduler c) = Ok (o, b, s) ∧
    let c1 := note_write o (set_commandState b (set_commandScheduler s c)) in
    ∃ h', sound true n h' n c1 ∧ generated c1 = [] ∧ same_account c c1 ∧
      match o with
      | None => h' = h ∧ work c1 = work c ∧ (all_commands c ≠ [] → ∃ i p t, (i, p, t) ∈ h ∧ n < t + W)
      | Some p => (∃ i, h' = (i, p, n) :: h) ∧ S (work c1) = work c
      end.
Proof.
  intros Hs Hnil. pose proof (cycle_run_inv _ _ _ _ _ _ (ps_initial start) (sn_run _ _ _ _ _ Hs)) as [_ Href Hwf Ha].
  pose proof (at_cycle_answers _ _ _ _ (ps_device start) (ps_timers start) (ps_initial start) _ _ _ _ (sound_at_cycle _ _ _ _ _ Hs)) as Hans.
  destruct (schedule_total _ _ Hwf Ha Hans) as [[[o b] s] Hsch]. exists o, b, s. split; [exact Hsch|].
  destruct (schedule_issues _ _ _ _ _ Hwf Ha Hsch) as (_ & ic & Hic & Hiss). destruct o as [p|].
  - destruct ic as [[i q]|]; [|done]. injection Hic as ->. cbn zeta. exists ((i, p, n) :: h).
    destruct (sent_phase h n c p b s i Hs Hsch Hiss) as (H1 & H2 & H3).
    pose proof (note_write_frame (Some p) (set_commandState b (set_commandScheduler s c))) as (_ & _ & _ & _ & _ & N6).
    split_and!; [exact H1|unfold generated; by rewrite N6|exact H2|by eexists|exact H3].
  - destruct ic; [done|]. inversion Hiss as [? Hq|]; subst. exists h.
    destruct (quiet_phase n h n c b s Hs Hsch Hq) as (H1 & H2 & H3).
    split_and!; [exact H1|exact Hnil|exact H2|done|exact H3|]. by eapply idle_reason.
Qed.

(** ** Data arrive *)
Lemma sum_list_with_same {X} (f g : X → nat) l : (∀ x, x ∈ l → f x = g x) → sum_list_with f l = sum_list_with g l.
Proof. induction l as [|x l IH]; intros Hl; [done|]. simpl. rewrite (Hl x) by left. rewrite IH; [done|]. intros; apply Hl; by right. Qed.

Lemma respond_phase (w : bool) p busy nw h n c toks :
  sound busy nw h n c → balanced c ((if w then DATA_WRITE else DATA_READ, bp_requestorID p, bp_address p) :: toks) →
  ∃ o c', respond w p c = Ok (o, c') ∧ sound busy nw h n c' ∧ balanced c' toks ∧
    waiting c' = waiting c ∧ work c' = work c ∧ command_tokens c' = command_tokens c ∧
    commandScheduler c' = commandScheduler c ∧ data_path c' = data_path c ∧ generated c' = generated c.
Proof.
  intros Hs Hb. pose proof (sn_setup _ _ _ _ _ Hs) as Esu.
  destruct (respond_account w p c toks (waiting c)) as (o & c' & Hr & Ha & Hshr & Hsame).
  - rewrite Esu. apply start.
  - rewrite Esu. apply start.
  - apply Hs.
  - rewrite Esu. exact Hb.
  - intros x r Hx. rewrite Esu. apply (gd_size _ (sn_live _ _ _ _ _ Hs x r Hx)).
  - destruct (ledger_respond _ _ _ _ _ (sn_ledger _ _ _ _ _ Hs) Hr) as [Hled _].
    pose proof (respond_frame _ _ _ _ _ Hr) as (F1 & F2 & F3 & F4 & F5 & F6 & F7). rewrite Esu in Ha, Hshr.
    assert (waiting c' = waiting c) as Ew by (unfold waiting; by rewrite F6).
    assert (generated c' = generated c) as Eg by (unfold generated; by rewrite F6).
    assert (all_commands c' = all_commands c) as Ec by (unfold all_commands; by rewrite F4).
    exists o, c'. split; [exact Hr|]. split; [|split; [unfold balanced; by rewrite Ew|]].
    + destruct Hs as [S1 S2 S3 S4 S5 S6 S7 S8 S9 S10 S11 S12 S13 S14 S15 (pend & S16 & S17) S18].
      split; rewrite ?Ew, ?Eg, ?F4, ?F6, ?F2; try done.
      * unfold runs. by rewrite F4, F5.
      * intros x Hx. apply (lo_live _ Hled). rewrite Hsame by done. by apply (lo_live _ S6), S8.
      * intros x r' Hx. destruct (Hshr x r' Hx) as (r & m & Hxr & -> & Hsz). apply good_size; [by eapply S11|done].
      * exists pend. split; [exact (sending_path nw pend c c' F1 S16)|done].
    + unfold work, command_tokens. rewrite Ew, Eg, Ec.
      split_and!; try done. do 2 f_equal. apply sum_list_with_same. intros x Hx. unfold cost. by rewrite Hsame.
Qed.

(** The data of writes that are due. *)
Lemma sound_data busy nw nw' h n c l l' :
  sound busy nw h n c →
  (∃ pend, sending nw' pend (set_sendData l l' c) ∧ ∀ x, x ∈ pend → ∃ i p t, (i, p, t) ∈ h ∧ x.1 = t + L) →
  sound busy nw' h n (set_sendData l l' c).
Proof.
  intros [S1 S2 S3 S4 S5 S6 S7 S8 S9 S10 S11 S12 S13 S14 S15 _ S18] Hw. split; try done.
  destruct (ledger_frame c (set_sendData l l' c)) as [F _]; [done..|]. by apply F.
Qed.

Lemma due_now_sub n pend x : x ∈ (due_now n pend).2 → x ∈ pend.
Proof. intros Hx. rewrite (due_now_split n pend). apply elem_of_app. by right. Qed.

Lemma set_same_device c : set_commandScheduler (set_memoryDevice (memoryDevice (commandScheduler c)) (commandScheduler c)) c = c.
Proof. by destruct c as [? ? ? ? [] ? ? ? ? ? ? ?]. Qed.

Lemma send_due_phase h n c :
  sound true n h n c → balanced c (command_tokens c ++ data_tokens c) →
  ∃ o a c', send_due c = Ok (o, a, c') ∧ sound true (n + 1) h n c' ∧
    balanced c' (command_tokens c' ++ data_tokens c') ∧
    waiting c' = waiting c ∧ work c' = work c ∧ command_tokens c' = command_tokens c ∧ generated c' = generated c.
Proof.
  intros Hs Hb. destruct (sn_writes _ _ _ _ _ Hs) as (pend & Hpend & Hdue).
  assert (∀ o a c', send_due c = Ok (o, a, c') →
    ∃ pend', sending (n + 1) pend' c' ∧ ∀ x, x ∈ pend' → ∃ i p t, (i, p, t) ∈ h ∧ x.1 = t + L) as Hafter.
  { intros o a c' Hsd. destruct (send_due_spec n pend c o a c' Hpend Hsd) as [_ H2]. eexists. split; [exact H2|].
    intros x Hx. apply Hdue. by eapply due_now_sub. }
  pose proof (sd_counter _ _ _ Hpend) as Ec. pose proof (sd_buffer _ _ _ Hpend) as Eb.
  unfold send_due in Hafter |- *. rewrite Ec in Hafter |- *. destruct pend as [|[due x] rest].
  - simpl in Hafter |- *. do 3 eexists. split; [done|]. split; [|done].
    assert (set_sendData (sendDataCounter c) (sendDataBuffer c) c = c) as E by (by destruct c).
    rewrite <- E. apply (sound_data _ _ _ _ _ _ _ _ Hs). rewrite E. by eapply Hafter.
  - cbn [fmap list_fmap fst] in Hafter |- *. case_bool_decide as Hnow.
    + rewrite Eb in Hafter |- *. cbn [fmap list_fmap snd] in Hafter |- *.
      change (vec_front (x :: (snd <$> rest))) with (Ok x) in Hafter |- *. cbn [mbind res_bind] in Hafter |- *.
      destruct (Forall_cons_1 _ _ _ (sd_data _ _ _ Hpend)) as [[Hty Hpc] _]. simpl in Hty, Hpc.
      set (toks := command_tokens c ++ ((λ p, (DATA_READ, bp_requestorID p, bp_address p)) <$> pendingReadData (memoryDevice (commandScheduler c))) ++
        ((λ p, (DATA_WRITE, bp_requestorID p, bp_address p)) <$> (snd <$> rest))).
      assert (command_tokens c ++ data_tokens c ≡ₚ (DATA_WRITE, bp_requestorID x, bp_address x) :: toks) as Etok.
      { unfold data_tokens, toks. rewrite Eb. simpl. solve_Permutation. }
      unfold balanced in Hb. rewrite Etok in Hb.
      destruct (respond_phase true x true n h n c toks Hs Hb) as (a & c1 & Hr & Hs1 & Hb1 & E1 & E2 & E3 & E4 & E5 & E6).
      assert (sendData x c = Ok (a, c1)) as Hsd.
      { unfold sendData. rewrite (receive_data _ _ Hty Hpc). cbn [mbind res_bind]. by rewrite set_same_device. }
      rewrite Hsd in Hafter |- *. cbn [mbind res_bind of_option fst snd tail] in Hafter |- *.
      do 3 eexists. split; [done|].
      match goal with |- context [set_sendData ?k ?l (set_sendData ?k' ?l' c1)] =>
        change (set_sendData k l (set_sendData k' l' c1)) with (set_sendData k l c1) in Hafter |- * end.
      split; [|split; [|done]].
      * apply (sound_data _ _ _ _ _ _ _ _ Hs1). by eapply Hafter.
      * change (balanced c1 (command_tokens c1 ++ data_tokens
          (set_sendData ((λ n, u32 (n - 1)) <$> ((λ x : Z * BusPacket, x.1 - n) <$> rest)) (snd <$> rest) c1))).
        unfold data_tokens. simpl. rewrite E3, E4. exact Hb1.
    + do 3 eexists. split; [done|]. cbn [snd]. split; [|done]. apply (sound_data _ _ _ _ _ _ _ _ Hs). by eapply Hafter.
Qed.

(** ** The end of the cycle *)
Lemma tick_table (s s' : CommandScheduler Device) : tick s = Ok s' → requestorCriticalTable s' = requestorCriticalTable s.
Proof.
  unfold tick. intros Ht. apply bind_Ok in Ht as (s1 & Hl & Ht). apply bind_Ok in Ht as ([m qs] & _ & Ht). injection Ht as <-. simpl.
  revert Hl. apply (foldM_inv (λ s1, requestorCriticalTable s1 = requestorCriticalTable s)); [done|].
  intros [i q] s2 s3 _ E. unfold tick_queue. simpl. destruct (cq_isPerRequestor q).
  - intros Hb. apply bind_Ok in Hb as (ts & _ & Hb). by injection Hb as <-.
  - case_match; intros [= <-]; done.
Qed.

(** The controller at the end of [update], and after the device was updated. *)
Definition ticked (s : CommandScheduler Device) c : CTRL :=
  set_mc_stats (stats_step (mc_stats c)) (set_mc_clock (u64 (mc_clock c + 1))
    (set_commandScheduler s (set_requestScheduler (rs_step (requestScheduler c)) c))).

Lemma tick_phase h n c :
  sound true (n + 1) h n c → n + 1 < 2 ^ 32 →
  ∃ s o d, tick (commandScheduler c) = Ok s ∧ device_update (memoryDevice s) = Ok (o, d) ∧
    let c1 := set_commandScheduler (set_memoryDevice d s) (ticked s c) in
    sound false (n + 1) h (n + 1) c1 ∧ waiting c1 = waiting c ∧ work c1 = work c ∧
    (∀ w, pending w c1 = pending w c) ∧ mc_heap c1 = mc_heap c ∧
    command_tokens c ++ data_tokens c ≡ₚ
      option_list ((λ p, (DATA_READ, bp_requestorID p, bp_address p)) <$> o) ++ command_tokens c1 ++ data_tokens c1.
Proof.
  intros Hs Hn. pose proof (cycle_run_inv _ _ _ _ _ _ (ps_initial start) (sn_run _ _ _ _ _ Hs)) as [_ Href _ _].
  destruct (at_cycle_tree b0 s0 sp 1 (ps_device start) (ps_timers start) (ps_initial start) _ _ _ _ (sound_at_cycle _ _ _ _ _ Hs))
    as [Htree [Hts Hpair _]].
  destruct (tick_total _ Href Hts) as [s Ht]. destruct (tick_no_refresh _ _ Href Ht) as (Eq & _).
  destruct (tick_timer _ s 0 0 0 Ht) as (_ & _ & Em). pose proof (tick_table _ _ Ht) as Etab.
  destruct (device_update_total _ Hpair (ti_post _ _ _ _ Htree)) as (o & d & Hd & _).
  exists s, o, d. rewrite Em. split; [done|]. split; [done|]. cbn zeta. set (c1 := set_commandScheduler _ _).
  destruct (sn_reads _ _ _ _ _ Hs) as (pend & Hif & Hdue).
  destruct (in_flight_tick _ _ _ _ _ _ Hif (ps_latency start) Hd) as (pend' & Hif' & _ & Epend & _). simpl in Hif', Epend.
  assert (all_commands c1 = all_commands c) as Eall by (unfold all_commands; simpl; by rewrite Eq).
  split_and!; [|done|unfold work; by rewrite Eall|by intros []|done|].
  - destruct Hs as [S1 S2 S3 S4 S5 S6 S7 S8 S9 S10 S11 S12 S13 S14 S15 (wpend & S16 & S17) S18].
    split; try done.
    + eapply cr_tick; [exact S3|exact Ht|]. exists o. rewrite Em. exact Hd.
    + intros i p t Hin. apply S5 in Hin. lia.
    + destruct (ledger_frame c c1) as [F _]; [done..|]. by apply F.
    + simpl. by rewrite Etab.
    + simpl. by rewrite Eq.
    + simpl. by rewrite Eq.
    + exists wpend. split; [exact (sending_path (n + 1) wpend c c1 eq_refl S16)|done].
    + exists pend'. split; [exact Hif'|]. intros x Hx. apply Hdue. rewrite Epend. apply elem_of_app. by right.
  - unfold command_tokens, data_tokens. rewrite Eall. change (generated c1) with (generated c).
    change (sendDataBuffer c1) with (sendDataBuffer c). change (memoryDevice (commandScheduler c1)) with d.
    rewrite (if_data _ _ _ _ _ Hif), (if_data _ _ _ _ _ Hif'), Epend. destruct o as [p|]; simpl; [|done]. solve_Permutation.
Qed.
End liveness.
