(* ===== verification/Liveness.v ===== *)
(** * Every request is answered

    The phases of a cycle (Phases.v) put together: an [update] of the memory system
    (src/src/MemorySystem.cpp, MemoryController.cpp), a request and a flush keep
    [steady], what holds between two cycles, and none of them fails. So a caller may
    do what it likes, [op], with requests that fit: the system never fails; and with
    enough cycles every request is answered - first the request queue runs empty, a
    request in every cycle, then the command queues, a command in [longest_wait] + 1
    cycles at most, then the data arrive after the latency of the device. *)
From Stdlib Require Import QArith Sorted.
From stdpp Require Import sorting.
From S2P Require Import Prelude Types KeyedBuf AddrMap ReqQueue CmdQueue CmdGen ReqSched Prompt DRAM DDR3 Device Refresh CmdSched CmdAlg CmdAlgos Progress Config Controller Ledger Flow Leaves System DDR3System Phases.
#[local] Open Scope Z_scope.
#[local] Existing Instance Open_generator.

(** ** Sequences of operations *)
Section operations.
Context {A B Dev : Type} {Gen : CommandGenerator} {ReqA : RequestScheduling A} {DevI : MemoryDevice Dev} {CmdS : CommandScheduling Dev B}.
Abbreviation SYS := (MemorySystem A B Dev).
Implicit Types m : SYS.

(** What a caller does with a memory system. *)
Inductive op :=
| Add (g id addr : Z) (R_W : bool) (size : Z)
| Flush (sw : bool)
| Update.

(** The events so far, the last one first, and the system. *)
Definition run_op (o : op) (st : list event * SYS) : res (list event * SYS) :=
  match o with
  | Add g id addr R_W size =>
      m ← ms_addRequest g id addr R_W size st.2;
      Ok (Added (if R_W then DATA_READ else DATA_WRITE, id, addr) :: st.1, m)
  | Flush sw => Ok (st.1, ms_flushWrite sw st.2)
  | Update => orm ← ms_update st.2; Ok (Cycle orm.1.1 orm.1.2 :: st.1, orm.2)
  end.

Definition run_ops (ops : list op) (st : list event * SYS) : res (list event * SYS) := foldM ops st run_op.

Lemma run_ops_sys_run m0 ops st st' :
  sys_run m0 st.1 st.2 → run_ops ops st = Ok st' → sys_run m0 st'.1 st'.2.
Proof.
  intros Hrun. apply (foldM_inv (λ st, sys_run m0 st.1 st.2)); [exact Hrun|]. clear st st' Hrun. intros [g id addr R_W size|sw|] st1 st2 _ Hrun Ho; simpl in Ho.
  - apply bind_Ok in Ho as (m & Ha & [= <-]). by eapply sr_add.
  - injection Ho as <-. by apply sr_flush.
  - apply bind_Ok in Ho as ([[o r] m] & Hu & [= <-]). by eapply sr_update.
Qed.

Lemma run_ops_app ops ops' st st1 : run_ops ops st = Ok st1 → run_ops (ops ++ ops') st = run_ops ops' st1.
Proof.
  revert st. induction ops as [|o ops IH]; intros st H; [by injection H as ->|].
  unfold run_ops in *. cbn [foldM app] in *. apply bind_Ok in H as (st2 & -> & H). by apply IH.
Qed.

(** [k] cycles lead from [st] to [st']. *)
Definition cycles_to (k : nat) (st st' : list event * SYS) : Prop := run_ops (replicate k Update) st = Ok st'.

Lemma cycles_to_trans k k' st st1 st2 : cycles_to k st st1 → cycles_to k' st1 st2 → cycles_to (k + k') st st2.
Proof. unfold cycles_to. intros H1 H2. rewrite replicate_add. by rewrite (run_ops_app _ _ _ _ H1). Qed.

Lemma cycles_to_one st o r m : ms_update st.2 = Ok (o, r, m) → cycles_to 1 st (Cycle o r :: st.1, m).
Proof. intros H. unfold cycles_to, run_ops. cbn [replicate foldM run_op]. by rewrite H. Qed.

Lemma cycles_to_empty k m0 st st' :
  ledger_ok (memoryController m0) → ledger (memoryController m0) = [] →
  sys_run m0 st.1 st.2 → ledger (memoryController st.2) = [] → cycles_to k st st' → ledger (memoryController st'.2) = [].
Proof.
  intros Hok Hnil Hrun He. unfold cycles_to. intros Hc.
  cut (sys_run m0 st'.1 st'.2 ∧ ledger (memoryController st'.2) = []); [by intros [_ ?]|]. revert Hc.
  apply (foldM_inv (λ st, sys_run m0 st.1 st.2 ∧ ledger (memoryController st.2) = [])); [done|].
  intros o st1 st2 [-> _]%elem_of_replicate [Hr1 E] Ho. simpl in Ho. apply bind_Ok in Ho as ([[o r] m] & Hu & [= <-]). simpl.
  split; [by eapply sr_update|]. destruct (sys_run_ledger m0 _ _ Hok Hnil Hr1) as [Hok1 _].
  destruct (ms_update_ledger _ _ _ _ Hok1 Hu) as [_ Hp]. rewrite E in Hp. apply Permutation_nil, app_nil in Hp as [_ Hp].
  by apply app_nil in Hp as [_ ->].
Qed.

Fixpoint updates (ops : list op) : Z :=
  match ops with
  | [] => 0
  | Update :: ops => updates ops + 1
  | _ :: ops => updates ops
  end.

Lemma updates_nonneg ops : 0 ≤ updates ops.
Proof. induction ops as [|[] ops IH]; simpl; lia. Qed.

(** The requests that are added. *)
Fixpoint asked (ops : list op) : list (RequestType * Z * Z) :=
  match ops with
  | [] => []
  | Add _ id addr R_W _ :: ops => (if R_W then DATA_READ else DATA_WRITE, id, addr) :: asked ops
  | _ :: ops => asked ops
  end.

Lemma run_ops_events ops : ∀ st st', run_ops ops st = Ok st' →
  added st'.1 = rev (asked ops) ++ added st.1 ∧ cycles st'.1 = cycles st.1 + updates ops.
Proof.
  unfold run_ops. induction ops as [|o ops IH]; intros st st' H; cbn [foldM] in H.
  { injection H as ->. simpl. split; [done|lia]. }
  apply bind_Ok in H as (st1 & Ho & H). destruct (IH _ _ H) as [-> ->].
  destruct o as [g id addr R_W size|sw|]; cbn [run_op] in Ho.
  - apply bind_Ok in Ho as (m & _ & [= <-]). simpl. by rewrite <- app_assoc.
  - injection Ho as <-. done.
  - apply bind_Ok in Ho as ([[o r] m] & _ & [= <-]). simpl. split; [done|lia].
Qed.

Lemma updates_cycles k : updates (replicate k Update) = Z.of_nat k.
Proof. induction k as [|k IH]; [done|]. cbn [replicate updates]. lia. Qed.

Lemma asked_app ops k : asked (ops ++ replicate k Update) = asked ops.
Proof. induction ops as [|[] ops IH]; simpl; [by induction k|by rewrite IH|done|done]. Qed.

(** The commands that the requests take at most. *)
Fixpoint load (width : Z) (ops : list op) : nat :=
  match ops with
  | [] => 0
  | Add _ _ _ _ size :: ops => 2 + Z.to_nat (size / width) + load width ops
  | _ :: ops => load width ops
  end.
End operations.

Section answers.
Context {A B : Type} {ReqA : RequestScheduling A} {ReqP : PromptAlgorithm A}
  {CmdS : CommandScheduling Device B} {CmdA : CommandAlgorithm Device B} {CmdW : WorkConserving Device B}
  {CmdH : OffersHeads B}.
Abbreviation CTRL := (Controller A B Device).
Implicit Types c : CTRL.

Variables (sp : DDR3.t) (c0 : CTRL).
#[local] Abbreviation su := (mc_setup c0).
#[local] Abbreviation s0 := (commandScheduler c0).
#[local] Abbreviation b0 := (commandState c0).
#[local] Abbreviation d0 := (memoryDevice s0).
#[local] Abbreviation width := (busWidth su).
#[local] Abbreviation W := (longest_wait (DDR3.speed_entry (dev_spec d0))).
#[local] Abbreviation L := (write_latency d0).
#[local] Abbreviation Lr := (latency d0).
Hypothesis start : plain_system sp c0.

(** Between two cycles. *)
Record steady (h : list sent) (n : Z) c : Prop := {
  st_sound : sound sp c0 false n h n c;
  st_balanced : balanced c0 c (command_tokens c ++ data_tokens c);
  st_generated : generated c = [];
}.

Lemma refresh_idle h n c : sound sp c0 false n h n c → sched_refresh (commandScheduler c) = Ok (commandScheduler c).
Proof.
  intros Hs. pose proof (cycle_run_inv _ _ _ _ _ _ (ps_initial _ _ start) (sn_run _ _ _ _ _ _ _ Hs)) as [_ (_ & _ & Hidle) _ _].
  unfold sched_refresh. assert (reachInterval (refreshMachine (commandScheduler c)) = false) as -> by apply Hidle. done.
Qed.

(** A command was sent, or it is too early for the next. *)
Definition advanced (h h' : list sent) (n : Z) (k k' : nat) : Prop :=
  (∃ i p, h' = (i, p, n) :: h ∧ (S k' ≤ k)%nat) ∨
  (h' = h ∧ (k' ≤ k)%nat ∧ (k' = 0%nat ∨ ∃ i p t, (i, p, t) ∈ h ∧ n < t + W)).

(** The parts of [update] put together. *)
Lemma update_phase h n c :
  steady h n c → n + 1 < 2 ^ 32 →
  ∃ o c' x d, update c = Ok (o, c') ∧ update_device (memoryDevice (commandScheduler c')) = Ok (x, d) ∧
    let c2 := set_commandScheduler (set_memoryDevice d (commandScheduler c')) c' in
    ∃ h', sound sp c0 false (n + 1) h' (n + 1) c2 ∧
      balanced c0 c2 (option_list ((λ p, (DATA_READ, bp_requestorID p, bp_address p)) <$> x) ++ command_tokens c2 ++ data_tokens c2) ∧
      generated c2 = [] ∧
      length (waiting c2) = (length (waiting c) - 1)%nat ∧ (work c0 c2 ≤ work c0 c)%nat ∧
      (waiting c = [] → advanced h h' n (work c0 c) (work c0 c2)).
Proof.
  intros [Hs Hb Hg] Hn.
  destruct (request_phase sp c0 start n h n c Hs Hb) as (a & rs & Hreq & Hs1 & Hb1 & Ew1 & Ek1).
  set (c1 := set_requestState a (set_requestScheduler rs c)) in *.
  destruct (drain_phase sp c0 start n h n c1 Hs1) as (c2 & Hd & Hs2 & Hg2 & Hacc2 & Ek2).
  pose proof (same_balanced c0 c1 c2 Hacc2 Hb1) as Hb2.
  destruct (command_phase sp c0 start h n c2 Hs2 Hg2) as (oc & b & s3 & Hsch & h' & Hs3 & Hg3 & Hacc3 & Hcase).
  set (c3 := note_write oc (set_commandState b (set_commandScheduler s3 c2))) in *.
  pose proof (same_balanced c0 c2 c3 Hacc3 Hb2) as Hb3.
  destruct (send_due_phase sp c0 start h' n c3 Hs3 Hb3) as (x4 & a4 & c4 & Hsd & Hs4 & Hb4 & Ew4 & Ek4 & Et4 & Eg4).
  destruct (tick_phase sp c0 start h' n c4 Hs4 Hn) as (s5 & x & d & Ht & Hdev & Hs5 & Ew5 & Ek5 & Ep5 & Eh5 & Etok).
  eexists _, (ticked s5 c4), x, d. split; [|split; [exact Hdev|]].
  { unfold update. rewrite Hreq. cbn [mbind res_bind fst snd]. fold c1.
    rewrite Hd. cbn [mbind res_bind]. rewrite (refresh_idle _ _ _ Hs2). cbn [mbind res_bind].
    rewrite Hsch. cbn [mbind res_bind]. fold c3. rewrite Hsd. cbn [mbind res_bind].
    change (commandScheduler (set_requestScheduler _ c4)) with (commandScheduler c4). rewrite Ht. cbn [mbind res_bind]. reflexivity. }
  set (c5 := set_commandScheduler _ (ticked s5 c4)) in *. cbn zeta.
  change (set_commandScheduler (set_memoryDevice d (commandScheduler (ticked s5 c4))) (ticked s5 c4)) with c5.
  assert (waiting c5 = waiting c1) as Ew.
  { rewrite Ew5, Ew4, (sa_waiting _ _ Hacc3), (sa_waiting _ _ Hacc2). done. }
  assert (work c0 c5 = work c0 c3) as Ek by (by rewrite Ek5, Ek4).
  exists h'. split_and!; [exact Hs5| | | | |].
  - unfold balanced in Hb4 |- *. rewrite Ew5, Eh5, <- Etok.
    apply (account_ext _ _ (λ w : bool, pending w c4)); [exact Ep5|exact Hb4].
  - change (generated c5) with (generated c4). by rewrite Eg4.
  - by rewrite Ew.
  - rewrite Ek. rewrite <- Ek2 in Ek1. destruct oc; destruct Hcase as [? Hcase]; [lia|]. destruct Hcase. lia.
  - intros Hnil. rewrite Ek. rewrite <- Ek2 in Ek1. destruct oc as [p|].
    + destruct Hcase as [(i & ->) Hk]. left. exists i, p. split; [done|lia].
    + destruct Hcase as (-> & Hk & Hidle). right. split; [done|]. split; [lia|].
      destruct (decide (all_commands c2 = [])) as [Hnc|Hne]; [left|by right; apply Hidle].
      rewrite Hk. unfold work. rewrite Hnc, Hg2, (sa_waiting _ _ Hacc2).
      destruct (waiting c1); [done|]. rewrite Hnil in Ew1. done.
Qed.
(** A whole cycle, with the answer of the device. *)
Lemma cycle_total h n m :
  steady h n (memoryController m) → n + 1 < 2 ^ 32 →
  ∃ o r m', ms_update m = Ok (o, r, m') ∧ ∃ h', steady h' (n + 1) (memoryController m') ∧
    length (waiting (memoryController m')) = (length (waiting (memoryController m)) - 1)%nat ∧
    (work c0 (memoryController m') ≤ work c0 (memoryController m))%nat ∧
    (waiting (memoryController m) = [] → advanced h h' n (work c0 (memoryController m)) (work c0 (memoryController m'))).
Proof.
  intros Hst Hn. destruct (update_phase h n _ Hst Hn) as (o & c' & x & d & Hu & Hdev & h' & Hs & Hb & Hg & Hw & Hk & Hadv).
  set (c2 := set_commandScheduler _ c') in *. unfold ms_update, update_memory. rewrite Hu. cbn [mbind res_bind fst snd].
  rewrite Hdev. cbn [mbind res_bind fst snd]. fold c2. destruct x as [p|].
  - destruct (respond_phase sp c0 start false p false (n + 1) h' (n + 1) c2 (command_tokens c2 ++ data_tokens c2) Hs)
      as (a & c3 & Hr & Hs3 & Hb3 & E1 & E2 & E3 & E4 & E5 & E6); [exact Hb|].
    unfold receiveData. rewrite Hr. cbn [mbind res_bind fst snd]. do 3 eexists. split; [done|]. exists h'. cbn [memoryController].
    rewrite E1, E2. split_and!; [|done..]. split; [done| |by rewrite E6].
    unfold data_tokens. rewrite E3, E4. unfold data_path in E5. injection E5 as _ ->. exact Hb3.
  - cbn [mbind res_bind fst snd]. do 3 eexists. split; [done|]. exists h'. cbn [memoryController].
    split_and!; [|done..]. by split.
Qed.

(** ** Requests are added *)

(** What a caller may ask for: of a critical requestor, as many bytes as a number
    of data, at least one. *)
Definition request_fits (id size : Z) : Prop :=
  critical c0 id ∧ ∃ k, 1 ≤ k ∧ size = width * k ∧ size < 2 ^ 32.

(** What [addRequest] does with one plain queue. *)
Lemma addRequest_plain c g id addr (R_W : bool) size r oob q :
  addressMapping (addressMode (mc_setup c)) (addressFormat (mc_setup c))
    (set_arriveTime (u32 (mc_clock c)) (new_Request g id (if R_W then DATA_READ else DATA_WRITE) size addr 0)) = Ok (r, oob) →
  (2 ≤ request_room (mc_setup c))%nat →
  queue_level (reqMap (mc_config (mc_setup c))) = None → requestQueues (requestScheduler c) = [q] → plain q →
  ∃ c' (p : ptr), addRequest g id addr R_W size c = Ok c' ∧ mc_heap c !! p = None ∧ mc_heap c' = <[p := r]> (mc_heap c) ∧
    requestScheduler c' = set_requestQueues [set_generalBuffer (generalBuffer q ++ [p]) q] (requestScheduler c) ∧
    pending (negb R_W) c' = pending (negb R_W) c ++ [p] ∧ pending R_W c' = pending R_W c.
Proof.
  intros Hm Hroom Hmap Eq [Hp Hw]. unfold addRequest. rewrite Hm. cbn [mbind res_bind].
  rewrite decide_True by (eapply Forall_impl; [by eapply addressMapping_writes|]; intros i Hi; simpl in Hi |- *; lia). cbn [mbind res_bind].
  destruct (alloc (mc_heap c) r) as [h p] eqn:Hal. apply alloc_fresh in Hal as [Hfresh ->].
  cbn [mc_setup set_mc_stats set_mc_heap requestScheduler]. unfold decodeQueue. rewrite Hmap.
  cbn [mbind res_bind]. change (Z.to_nat 0) with 0%nat. rewrite (single_queue _ _ Eq). cbn [mbind res_bind].
  unfold insertRequest, deref. rewrite lookup_insert_eq. cbn [mbind res_bind of_option]. rewrite Hw, Hp. cbn [andb mbind res_bind mret res_ret fst snd].
  do 2 eexists. split; [reflexivity|]. unfold set_request_queue. rewrite Eq.
  split_and!; [exact Hfresh|by destruct R_W..].
Qed.

Lemma add_phase h n c g id addr R_W size :
  steady h n c → request_fits id size →
  ∃ c', addRequest g id addr R_W size c = Ok c' ∧ steady h n c' ∧
    work c0 c' = (work c0 c + 2 + Z.to_nat (size / width))%nat.
Proof.
  intros [Hs Hb Hg] [Hid Hsz].
  destruct (decoded_good sp c0 start id addr R_W size (u32 (mc_clock c)) g Hid Hsz) as (r & oob & Hm & Hgood & Hkey & Hsize).
  destruct (sn_plain _ _ _ _ _ _ _ Hs) as (q & Eq & Hpl). pose proof (sn_setup _ _ _ _ _ _ _ Hs) as Esu.
  assert (waiting c = generalBuffer q) as Ew by (unfold waiting; rewrite Eq; simpl; apply app_nil_r).
  destruct (addRequest_plain c g id addr R_W size r oob q) as (c' & p & Ha & Hp & Eh & Ers & Ep1 & Ep2);
    rewrite ?Esu, ?(ps_mode _ _ start); try done; [apply start..|].
  assert (waiting c' = waiting c ++ [p]) as Ew' by (rewrite Ew; unfold waiting; rewrite Ers; simpl; apply app_nil_r).
  destruct (addRequest_ledger _ _ _ _ _ _ _ (sn_ledger _ _ _ _ _ _ _ Hs) Ha) as [Hled _].
  destruct (addRequest_frame _ _ _ _ _ _ _ Ha) as (F1 & F2 & F3 & F4 & F5 & F6).
  assert (p ∉ all_pending c) as Hnp.
  { rewrite (lo_live _ (sn_ledger _ _ _ _ _ _ _ Hs)), Hp. by intros [? ?]. }
  assert (all_pending c' ≡ₚ p :: all_pending c) as Epend.
  { rewrite (all_pending_split (negb R_W) c'), (all_pending_split (negb R_W) c), negb_involutive, Ep1, Ep2. solve_Permutation. }
  exists c'. split; [exact Ha|].
  assert (generated c' = generated c) as Eg by (unfold generated; by rewrite Ers).
  assert (all_commands c' = all_commands c) as Ec by (unfold all_commands; by rewrite F4).
  split; [split|].
  - destruct Hs as [S1 S2 S3 S4 S5 S6 S7 S8 S9 S10 S11 S12 S13 S14 S15 (pend & S16 & S17) S18].
    split; rewrite ?Eg, ?F4; try done; rewrite ?Ers; try done.
    + congruence.
    + unfold runs. by rewrite F4, F5.
    + eexists. split; [reflexivity|]. exact Hpl.
    + intros x. rewrite Ew', Epend, elem_of_app, list_elem_of_singleton, elem_of_cons. intros [Hx| ->]; [right; by apply S8|by left].
    + intros x r'. rewrite Eh, lookup_insert_Some. intros [[<- <-]|[_ Hx]]; [done|by eapply S11].
    + exists pend. split; [exact (sending_path n pend c c' F1 S16)|done].
  - unfold balanced, command_tokens, data_tokens. rewrite Eg, Ec, Ew', Eh, F4.
    unfold data_path in F1. injection F1 as _ ->.
    apply (account_add _ _ (λ w : bool, pending w c) _ _ p r (negb R_W)); [exact Hb|done| | | | |].
    + intros w Hw. apply Hnp. by eapply pending_all.
    + intros Hw. by apply Hnp, (sn_waiting _ _ _ _ _ _ _ Hs).
    + rewrite Hkey. by destruct R_W.
    + exact Ep1.
    + intros w' Hne. assert (w' = R_W) as -> by (by destruct w', R_W). exact Ep2.
  - by rewrite Eg.
  - unfold work. rewrite Eg, Ec, Ew', Eh, sum_list_with_app. simpl. unfold cost at 2. rewrite lookup_insert_eq, Hsize.
    rewrite (sum_list_with_same (cost c0 (<[p:=r]> (mc_heap c))) (cost c0 (mc_heap c)) (waiting c)); [lia|].
    intros x Hx. unfold cost. rewrite lookup_insert_ne; [done|]. intros ->. by apply Hnp, (sn_waiting _ _ _ _ _ _ _ Hs).
Qed.

(** [flushWrite] sets a flag that only a write queue asks for. *)
Lemma flush_phase h n sw c :
  steady h n c → steady h n (mc_flushWrite sw c) ∧ work c0 (mc_flushWrite sw c) = work c0 c.
Proof.
  intros Hst. unfold mc_flushWrite. destruct (writeQueueEnabled _); [|done]. set (s := flushWriteReq sw (requestScheduler c)).
  destruct Hst as [Hs Hb Hg]. split; [|done].
  assert (set_requestScheduler s c = set_requestState (requestState c) (set_requestScheduler s c)) as E by (by destruct c).
  split; [|exact Hb|exact Hg]. rewrite E. destruct (sn_plain _ _ _ _ _ _ _ Hs) as (q & Eq & Hpl).
  apply (sound_requests sp c0 false n h n c _ s q Hs Eq Hpl); [|apply Hs..].
  intros p Hp. apply (sn_waiting _ _ _ _ _ _ _ Hs). unfold waiting. rewrite Eq. simpl. by rewrite app_nil_r.
Qed.

(** ** The start *)
Lemma start_empty : generated c0 = [] ∧ waiting c0 = [] ∧ all_commands c0 = [].
Proof.
  split_and!; [unfold generated; by rewrite (ps_generator _ _ start)|unfold waiting; by rewrite (ps_request_queue _ _ start)|].
  unfold all_commands. pose proof (ps_command_queues _ _ start) as Hq. induction Hq as [|q l <- _ IH]; [done|]. simpl. exact IH.
Qed.

Lemma steady_start : steady [] 0 c0.
Proof.
  destruct (made sp c0 start) as (Hf & Hpost & Hclk). destruct start_empty as (Eg & Ew & Ec).
  assert (ledger_ok c0) as Hled by (apply ledger_ok_empty; apply start).
  destruct (ps_data _ _ start) as [Es Eb].
  assert (dataCycles d0 = [] ∧ pendingReadData d0 = []) as [Edc Epd].
  { pose proof (ps_device _ _ start) as Hd. unfold Ramulator_ctor in Hd. apply bind_Ok in Hd as (ch & _ & Hd). injection Hd as <-. done. }
  split; [split|..]; rewrite ?Eg, ?Ew, ?(ps_generator _ _ start); try done.
  - constructor.
  - by intros ? ? ? ?%not_elem_of_nil.
  - by intros ? ? ? ?%not_elem_of_nil.
  - eexists. split; [apply start|done].
  - intros p. by intros ?%not_elem_of_nil.
  - intros p r. rewrite (ps_heap _ _ start), lookup_empty. done.
  - eapply Forall_impl; [apply start|]. intros q <-. by split.
  - exists []. split; [|by intros ? ?%not_elem_of_nil]. split; try done; constructor.
  - exists []. split; [|by intros ? ?%not_elem_of_nil]. split; try done; [constructor|]. by intros ? ?%not_elem_of_nil.
  - unfold balanced. rewrite Ew. unfold command_tokens, data_tokens. rewrite Eg, Ec, Epd, Eb.
    apply account_start. intros []; simpl; apply start.
Qed.
Lemma work_start : work c0 c0 = 0%nat.
Proof. unfold work. by destruct start_empty as (-> & -> & ->). Qed.

(** ** Runs *)
Definition good_op (o : op) : Prop :=
  match o with
  | Add _ id _ _ size => request_fits id size
  | _ => True
  end.

Abbreviation MC st := (memoryController st.2).

Lemma run_ops_steady ops : ∀ h n st,
  steady h n (MC st) → Forall good_op ops → n + updates ops < 2 ^ 32 →
  ∃ st' h', run_ops ops st = Ok st' ∧ steady h' (n + updates ops) (MC st') ∧
    (work c0 (MC st') ≤ work c0 (MC st) + load width ops)%nat.
Proof.
  induction ops as [|o ops IH]; intros h n st Hst Hall Hn.
  - exists st, h. rewrite Z.add_0_r. split_and!; [done|done|simpl; lia].
  - apply Forall_cons in Hall as [Ho Hall]. pose proof (updates_nonneg ops). unfold run_ops. simpl.
    destruct o as [g id addr R_W size|sw|]; simpl in *.
    + destruct (add_phase h n (MC st) g id addr R_W size Hst Ho) as (c' & Ha & Hst' & Hk). unfold ms_addRequest. rewrite Ha. simpl.
      destruct (IH h n (Added (if R_W then DATA_READ else DATA_WRITE, id, addr) :: st.1, mkSystem c' (ms_clock st.2)))
        as (st' & h' & H1 & H2 & H3); [done..|].
      exists st', h'. split_and!; [exact H1|done|]. simpl in H3. lia.
    + destruct (flush_phase h n sw (MC st) Hst) as [Hst' Hk].
      destruct (IH h n (st.1, ms_flushWrite sw st.2)) as (st' & h' & H1 & H2 & H3); [done..|].
      exists st', h'. split_and!; [exact H1|done|]. simpl in H3. lia.
    + destruct (cycle_total h n st.2 Hst) as (o & r & m' & Hu & h1 & Hst' & _ & Hk & _); [lia|]. rewrite Hu. simpl.
      destruct (IH h1 (n + 1) (Cycle o r :: st.1, m')) as (st' & h' & H1 & H2 & H3); [done..|lia|].
      exists st', h'. replace (n + (updates ops + 1)) with (n + 1 + updates ops) by lia. split_and!; [exact H1|done|]. simpl in H3. lia.
Qed.

(** The request queue runs empty. *)
Lemma served_after k : ∀ h n st,
  steady h n (MC st) → (length (waiting (MC st)) ≤ k)%nat → n + Z.of_nat k < 2 ^ 32 →
  ∃ st' h', cycles_to k st st' ∧ steady h' (n + Z.of_nat k) (MC st') ∧ waiting (MC st') = [] ∧
    (work c0 (MC st') ≤ work c0 (MC st))%nat.
Proof.
  induction k as [|k IH]; intros h n st Hst Hw Hn.
  - exists st, h. rewrite Z.add_0_r. split_and!; try done. by destruct (waiting _); simpl in Hw; [|lia].
  - destruct (cycle_total h n st.2 Hst) as (o & r & m' & Hu & h1 & Hst' & Hw' & Hk & _); [lia|].
    destruct (IH h1 (n + 1) (Cycle o r :: st.1, m')) as (st' & h' & H1 & H2 & H3 & H4); [done|simpl; lia|lia|].
    exists st', h'. replace (n + Z.of_nat (S k)) with (n + 1 + Z.of_nat k) by lia.
    split_and!; [|done|done|simpl in H4; lia]. eapply (cycles_to_trans 1 k); [by apply cycles_to_one|exact H1].
Qed.

(** The next command is sent when the last one is old enough. *)
Lemma sent_after j : ∀ h n st,
  steady h n (MC st) → waiting (MC st) = [] → (∀ i p t, (i, p, t) ∈ h → t + W ≤ n + Z.of_nat j) →
  n + Z.of_nat j + 1 < 2 ^ 32 →
  ∃ k st' h', (k ≤ S j)%nat ∧ cycles_to k st st' ∧ steady h' (n + Z.of_nat k) (MC st') ∧ waiting (MC st') = [] ∧
    (work c0 (MC st') ≤ work c0 (MC st) - 1)%nat.
Proof.
  induction j as [|j IH]; intros h n st Hst Hw Hage Hn;
    destruct (cycle_total h n st.2 Hst) as (o & r & m' & Hu & h1 & Hst' & Hw' & Hk & Hadv); try lia;
    (assert (waiting (memoryController m') = []) as Hw1 by (rewrite Hw in Hw'; by destruct (waiting (memoryController m'))));
    (assert (cycles_to 1 st (Cycle o r :: st.1, m')) as Hone by (by apply cycles_to_one));
    destruct (Hadv Hw) as [(i & p & _ & Hk')|(-> & Hk' & Hwhy)].
  1, 3: exists 1%nat, (Cycle o r :: st.1, m'), h1; split_and!; [lia|done|done|done|simpl; lia].
  - exists 1%nat, (Cycle o r :: st.1, m'), h. destruct Hwhy as [E|(i & p & t & Hin & Hlt)].
    + split_and!; [lia|done|done|done|simpl; lia].
    + apply Hage in Hin. lia.
  - destruct (IH h (n + 1) (Cycle o r :: st.1, m')) as (k & st' & h' & H1 & H2 & H3 & H4 & H5); [done|done| |lia|].
    { intros i p t Hin. apply Hage in Hin. lia. }
    exists (S k), st', h'. replace (n + Z.of_nat (S k)) with (n + 1 + Z.of_nat k) by lia.
    split_and!; [lia| |done|done|simpl in H5; lia]. by eapply (cycles_to_trans 1 k).
Qed.
Lemma longest_wait_nonneg (e : DDR3.SpeedEntry) : 0 ≤ longest_wait e.
Proof. unfold longest_wait. induction (_ ++ _) as [|x l IH]; simpl; lia. Qed.

Lemma sound_age h n c i p t : sound sp c0 false n h n c → (i, p, t) ∈ h → t < n.
Proof. intros Hs Hin. pose proof (sn_times _ _ _ _ _ _ _ Hs i p t Hin) as Ht. simpl in Ht. lia. Qed.

(** All commands are sent. *)
Lemma all_sent_after w : ∀ h n st,
  steady h n (MC st) → waiting (MC st) = [] → (work c0 (MC st) ≤ w)%nat →
  n + Z.of_nat (w * S (Z.to_nat W)) < 2 ^ 32 →
  ∃ k st' h', (k ≤ w * S (Z.to_nat W))%nat ∧ cycles_to k st st' ∧ steady h' (n + Z.of_nat k) (MC st') ∧
    waiting (MC st') = [] ∧ work c0 (MC st') = 0%nat.
Proof.
  pose proof (longest_wait_nonneg (DDR3.speed_entry (dev_spec d0))) as HW.
  induction w as [|w IH]; intros h n st Hst Hw Hk Hn.
  - exists 0%nat, st, h. rewrite Z.add_0_r. split_and!; [lia|done|done|done|lia].
  - destruct (sent_after (Z.to_nat W) h n st Hst Hw) as (k & st1 & h1 & Hk1 & Hc & Hst1 & Hw1 & Hle); [|lia|].
    { intros i p t Hin. pose proof (sound_age _ _ _ _ _ _ (st_sound _ _ _ Hst) Hin). lia. }
    destruct (IH h1 (n + Z.of_nat k) st1 Hst1 Hw1) as (k' & st' & h' & Hk' & Hc' & Hst' & Hw' & E'); [lia|lia|].
    exists (k + k')%nat, st', h'. replace (n + Z.of_nat (k + k')) with (n + Z.of_nat k + Z.of_nat k') by lia.
    split_and!; [lia|by eapply cycles_to_trans|done|done|done].
Qed.

(** Nothing more is sent. *)
Lemma quiet_after k : ∀ h n st,
  steady h n (MC st) → waiting (MC st) = [] → work c0 (MC st) = 0%nat → n + Z.of_nat k < 2 ^ 32 →
  ∃ st', cycles_to k st st' ∧ steady h (n + Z.of_nat k) (MC st') ∧ waiting (MC st') = [] ∧ work c0 (MC st') = 0%nat.
Proof.
  induction k as [|k IH]; intros h n st Hst Hw Hk Hn.
  - exists st. rewrite Z.add_0_r. by split_and!.
  - destruct (cycle_total h n st.2 Hst) as (o & r & m' & Hu & h1 & Hst' & Hw' & Hk' & Hadv); [lia|].
    assert (h1 = h) as -> by (destruct (Hadv Hw) as [(? & ? & _ & ?)|(-> & _)]; [lia|done]).
    destruct (IH h (n + 1) (Cycle o r :: st.1, m')) as (st' & H1 & H2 & H3 & H4); [done| |cbn [snd]; lia|lia|].
    { rewrite Hw in Hw'. cbn [snd]. by destruct (waiting (memoryController m')). }
    exists st'. replace (n + Z.of_nat (S k)) with (n + 1 + Z.of_nat k) by lia.
    split_and!; [|done..]. eapply (cycles_to_trans 1 k); [by apply cycles_to_one|exact H1].
Qed.

(** All data have arrived: every request was answered. *)
Lemma all_answered h n c :
  steady h n c → waiting c = [] → work c0 c = 0%nat → (∀ i p t, (i, p, t) ∈ h → t + Z.max L Lr < n) → all_pending c = [].
Proof.
  intros [Hs Hb Hg] Hw Hk Hold.
  assert (all_commands c = []) as Ec by (apply length_zero_iff_nil; unfold work in Hk; lia).
  destruct (sn_writes _ _ _ _ _ _ _ Hs) as (wp & Hwp & Hwd). destruct (sn_reads _ _ _ _ _ _ _ Hs) as (rp & Hrp & Hrd).
  assert (wp = []) as ->.
  { destruct wp as [|x wp]; [done|]. pose proof (Forall_inv (sd_range _ _ _ Hwp)) as Hx. simpl in Hx.
    destruct (Hwd x) as (i & p & t & Hin & E); [left|]. apply Hold in Hin. lia. }
  assert (rp = []) as ->.
  { destruct rp as [|x rp]; [done|]. pose proof (if_due _ _ _ _ _ Hrp x ltac:(left)) as Hx.
    destruct (Hrd x) as (i & p & t & Hin & E); [left|]. apply Hold in Hin. lia. }
  unfold balanced, command_tokens, data_tokens in Hb.
  rewrite Hw, Hg, Ec, (sd_buffer _ _ _ Hwp), (if_data _ _ _ _ _ Hrp) in Hb. simpl in Hb.
  destruct (all_pending c) as [|p l] eqn:Ep; [done|]. exfalso.
  assert (p ∈ all_pending c) as Hp by (rewrite Ep; left).
  destruct (proj1 (lo_live _ (sn_ledger _ _ _ _ _ _ _ Hs) p) Hp) as [r Hr].
  destruct (Hb (key r)) as (S & ES & Hbytes). simpl in ES. rewrite app_nil_r in ES. rewrite count_key_nil in Hbytes.
  assert (p ∈ S) as HpS.
  { rewrite <- ES. apply of_key_elem. rewrite Hr. split; [|done]. unfold all_pending in Hp.
    assert (∃ w, p ∈ pending w c) as [w Hpw] by (apply elem_of_app in Hp as [Hp|Hp]; [by exists false|by exists true]).
    pose proof (lo_type _ (sn_ledger _ _ _ _ _ _ _ Hs) w p r Hpw Hr) as Ht.
    replace (is_write_key (key r)) with w; [done|]. unfold is_write_key, key. simpl. rewrite Ht. by destruct w. }
  assert (∀ x y, mc_heap c !! x = Some y → 0 < requestSize y) as Hpos.
  { intros x y Hx. destruct (gd_size _ _ _ (sn_live _ _ _ _ _ _ _ Hs x y Hx)) as (k & Hk1 & E & _).
    pose proof (ps_width _ _ start). nia. }
  pose proof (Hpos p r Hr). assert (requestSize r ≤ bytes (mc_heap c) S); [|lia].
  apply (bytes_ge _ _ p); [|done..]. intros x y Hx. apply Hpos in Hx. lia.
Qed.
Lemma waiting_work h n c : steady h n c → (length (waiting c) ≤ work c0 c)%nat.
Proof.
  intros [Hs _ _]. unfold work.
  assert (∀ l, (∀ p, p ∈ l → p ∈ all_pending c) → length l ≤ sum_list_with (cost c0 (mc_heap c)) l)%nat as Hl.
  { induction l as [|p l IH]; intros Hl; simpl; [done|]. assert (1 ≤ cost c0 (mc_heap c) p)%nat; [|specialize (IH (λ q Hq, Hl q (list_elem_of_further _ _ _ Hq))); lia].
    unfold cost. destruct (proj1 (lo_live _ (sn_ledger _ _ _ _ _ _ _ Hs) p) (Hl p ltac:(left))) as [r ->]. lia. }
  specialize (Hl (waiting c) (sn_waiting _ _ _ _ _ _ _ Hs)). lia.
Qed.

(** The cycles in which a load of commands is sent and the last data arrive. *)
Definition enough (w : nat) : nat := w * (Z.to_nat W + 2) + Z.to_nat (Z.max L Lr).

Lemma answered_after h n st :
  steady h n (MC st) → n + Z.of_nat (enough (work c0 (MC st))) < 2 ^ 32 →
  ∃ k st' h', (k ≤ enough (work c0 (MC st)))%nat ∧ cycles_to k st st' ∧ steady h' (n + Z.of_nat k) (MC st') ∧ all_pending (MC st') = [].
Proof.
  intros Hst Hn. unfold enough in *. set (w := work c0 (MC st)) in *. pose proof (waiting_work _ _ _ Hst) as Hw. fold w in Hw.
  destruct (served_after (length (waiting (MC st))) h n st Hst) as (st1 & h1 & Hc1 & Hst1 & Hw1 & Hk1); [done|lia|].
  fold w in Hk1. set (k0 := length (waiting (MC st))) in *.
  destruct (all_sent_after w h1 _ st1 Hst1 Hw1) as (k & st2 & h2 & Hk & Hc2 & Hst2 & Hw2 & E2); [lia|lia|].
  destruct (quiet_after (Z.to_nat (Z.max L Lr)) h2 _ st2 Hst2 Hw2 E2) as (st3 & Hc3 & Hst3 & Hw3 & E3); [lia|].
  exists (k0 + k + Z.to_nat (Z.max L Lr))%nat, st3, h2. split_and!; [lia|by do 2 (eapply cycles_to_trans; [|done])| |].
  { replace (n + _) with (n + Z.of_nat k0 + Z.of_nat k + Z.of_nat (Z.to_nat (Z.max L Lr))) by lia. exact Hst3. }
  eapply all_answered; [done..|]. intros i p t Hin. pose proof (sound_age _ _ _ _ _ _ (st_sound _ _ _ Hst2) Hin).
  pose proof (u32_range 0). lia.
Qed.

Lemma answered_eventually m0 ops n :
  memoryController m0 = c0 → Forall good_op ops → (enough (load width ops) ≤ n)%nat → updates ops + Z.of_nat n < 2 ^ 32 →
  ∃ evs m, run_ops (ops ++ replicate n Update) ([], m0) = Ok (evs, m) ∧
    answered evs ≡ₚ asked ops ∧ all_pending (memoryController m) = [].
Proof.
  intros E Hall Hn Hlt. assert (ledger_ok c0) as Hok by (apply ledger_ok_empty; apply start).
  assert (ledger c0 = []) as Hnil by (unfold ledger, all_pending; by rewrite (ps_reads _ _ start), (ps_writes _ _ start)).
  rewrite <- E in Hok, Hnil. destruct (run_ops_steady ops [] 0 ([], m0)) as (st1 & h1 & Hr1 & Hst1 & Hk); [|done|lia|].
  { simpl. rewrite E. exact steady_start. }
  assert (work c0 (MC ([] : list event, m0)) = 0%nat) as E0.
  { simpl. rewrite E. exact work_start. }
  rewrite E0 in Hk. assert (enough (work c0 (MC st1)) ≤ n)%nat as Hen by (unfold enough in *; nia).
  destruct (answered_after h1 _ st1 Hst1) as (k & st2 & h2 & Hk2 & Hc2 & Hst2 & Hp2); [lia|].
  destruct (run_ops_steady (replicate (n - k) Update) h2 _ st2 Hst2) as ([evs m] & h3 & Hc3 & Hst3 & _);
    [by apply Forall_replicate|rewrite updates_cycles; lia|].
  assert (run_ops (ops ++ replicate n Update) ([], m0) = Ok (evs, m)) as Hrun.
  { rewrite (run_ops_app _ _ _ _ Hr1). replace n with (k + (n - k))%nat by lia. by apply (cycles_to_trans k (n - k) st1 st2). }
  assert (sys_run m0 st2.1 st2.2) as Hs2.
  { apply (run_ops_sys_run m0 (ops ++ replicate k Update) ([], m0)); [constructor|]. by rewrite (run_ops_app _ _ _ _ Hr1). }
  assert (ledger (memoryController m) = []) as Hl.
  { apply (cycles_to_empty (n - k) m0 st2 (evs, m)); try done. unfold ledger. by rewrite Hp2. }
  exists evs, m. split; [exact Hrun|].
  assert (sys_run m0 evs m) as Hs by (by apply (run_ops_sys_run m0 _ ([], m0) (evs, m) ltac:(constructor) Hrun)).
  destruct (sys_run_ledger m0 evs m Hok Hnil Hs) as [Hok' Hadd]. rewrite Hl, app_nil_r in Hadd.
  destruct (run_ops_events _ _ _ Hrun) as [Ea _]. simpl in Ea. rewrite app_nil_r, asked_app in Ea. split.
  - rewrite <- Hadd, Ea. symmetry. apply Permutation_rev.
  - by apply ledger_nil.
Qed.

End answers.

(** ** Witnesses *)
#[local] Existing Instance CmdAlgos.FRFCFS.scheduling.
#[local] Existing Instance CmdAlgos.FRFCFS.algorithm.
#[local] Existing Instance Progress.FRFCFS.work_conserving.
#[local] Existing Instance ReqSched.FRFCFS.

(** The system of DDR3System.v with two critical requestors. *)
Definition wit_live : Controller unit unit Device :=
  setRequestor 1 true (setRequestor 0 true (memoryController wit_m0)).

Lemma wit_live_queues : commandQueues (commandScheduler wit_live) = replicate 8 (CommandQueue_ctor false).
Proof. vm_compute. reflexivity. Qed.

Lemma wit_live_format :
  addressFormat (mc_setup wit_live) = [(Rank, 0); (BankGroup, 0); (Bank, 3); (SubArray, 0); (Row, 15); (Column, 10)].
Proof. vm_compute. reflexivity. Qed.

Lemma wit_live_initial : initial (commandState wit_live) (commandScheduler wit_live).
Proof.
  destruct wit_sys_initial as [H1 H2 H3 H4 H5]. by split.
Qed.

(** A command queue per bank. *)
Lemma bank_queue banks mt bk sa :
  mt !! 2%nat = Some banks → 0 ≤ bk < banks → banks < 2 ^ 32 → decodeQueue mt [0; 0; bk; sa] [0; 0; 1; 0] = Ok bk.
Proof.
  intros Hmt Hbk Hlt. unfold decodeQueue, vec_at. simpl. rewrite Hmt. simpl. f_equal. rewrite Z.mul_0_l, (u32_small 0), u32_small; lia.
Qed.

Lemma wit_live_start : plain_system DDR3.wit_ddr3 wit_live.
Proof.
  split; rewrite ?wit_live_queues, ?wit_live_format.
  - exact wit_dev0_made.
  - vm_compute. split; [reflexivity|discriminate].
  - vm_compute. reflexivity.
  - vm_compute. reflexivity.
  - vm_compute. reflexivity.
  - vm_compute. reflexivity.
  - split; [repeat constructor; set_solver|repeat constructor; vm_compute; (reflexivity || discriminate)].
  - intros m. assert (forallb (λ m, bool_decide (m ∈ [Rank; BankGroup; Bank; SubArray; Row; Column])) [m] = true) as H by (by destruct m).
    simpl in H. rewrite andb_true_r in H. by apply bool_decide_eq_true in H.
  - intros k Hk. set_solver.
  - intros k Hk. assert (k = 3) as -> by set_solver. vm_compute. discriminate.
  - vm_compute. repeat constructor.
  - vm_compute. reflexivity.
  - intros bk sa Hbk. assert (banks_of DDR3.wit_ddr3 = 8) as E by (vm_compute; reflexivity). rewrite E in Hbk.
    exists bk. assert (cmdMap (mc_config (mc_setup wit_live)) = [0; 0; 1; 0]) as -> by (vm_compute; reflexivity).
    rewrite (bank_queue 8); [|vm_compute; reflexivity|lia..].
    split; [done|]. rewrite length_replicate. lia.
  - intros t p i _. exact I.
  - vm_compute. reflexivity.
  - vm_compute. reflexivity.
  - apply Forall_replicate. done.
  - intros i Hi. rewrite length_replicate in Hi.
    assert (reqCmdQueueTimer (commandScheduler wit_live) = replicate 8 ∅) as -> by (vm_compute; reflexivity).
    rewrite lookup_replicate_2 by done. by eexists.
  - exact wit_live_initial.
  - left. unfold kinds. by repeat constructor.
  - vm_compute. reflexivity.
  - vm_compute. reflexivity.
  - vm_compute. reflexivity.
  - vm_compute. split; reflexivity.
  - vm_compute. reflexivity.
Qed.

(** A read, a flush, a cycle and a write of two data. *)
Definition wit_ops : list op := [Add 0 0 0x4b40 true 64; Flush true; Update; Add 0 1 0x34b00 false 128].

Lemma wit_ops_good : Forall (good_op wit_live) wit_ops.
Proof.
  assert (busWidth (mc_setup wit_live) = 64) as E by (vm_compute; reflexivity).
  assert (critical wit_live 0 ∧ critical wit_live 1) as [H0 H1] by (split; vm_compute; reflexivity).
  repeat constructor; unfold request_fits; rewrite E; try done; [exists 1|exists 2]; lia.
Qed.


