(* ===== verification/Channels.v ===== *)
(** * Several channels

    [MultiChannelMemorySystem] (src/src/MultiChannelMemorySystem.cpp,
    MultiChannelMemorySystem.h): a memory system per channel; a request goes to
    the channel of its requestor, [requestorID % numberChannels]; [update] lets the
    clock crosser (ClockDomain.v) update all channels the right number of times.

    Main result: the channels do not interact. The events of every channel are a
    run of a memory system of its own, with the requests of its requestors, so
    that all theorems on one memory system hold of each channel. Left out:
    [setCPUClockSpeed] and [getClk] (floating point), the log files and the
    printing. *)
From S2P Require Import Prelude Types AddrMap ReqQueue CmdQueue CmdGen ReqSched DRAM DDR3 Device Refresh CmdSched CmdAlg CmdAlgos Config Controller Ledger System DDR3System ClockDomain.
#[local] Open Scope Z_scope.

Section channels.
Context {A B Dev : Type} {Gen : CommandGenerator} {ReqA : RequestScheduling A}
  {DevI : MemoryDevice Dev} {CmdS : CommandScheduling Dev B}.

Record MultiChannel := mkMultiChannel {
  channels : list (MemorySystem A B Dev);
  clockDomainCrosser : ClockDomainCrosser;
  mch_clock : Z;
}.

(** The constructor, with the channels it makes; the crosser is the 1:1 one. *)
Definition MultiChannel_ctor (l : list (MemorySystem A B Dev)) : res MultiChannel :=
  if bool_decide (l = []) then Err Abort else Ok (mkMultiChannel l (ClockDomainCrosser_ctor 1 1) 0).

Definition findChannelNumber (requestorID : Z) (x : MultiChannel) : res nat :=
  let n := Z.of_nat (length (channels x)) in
  if bool_decide (n = 1) then Ok 0%nat
  else if bool_decide (n = 0) then Err Undefined
  else
    let channelNumber := requestorID `mod` n in
    if bool_decide (n ≤ channelNumber) then Err Abort else Ok (Z.to_nat channelNumber).

Definition mch_addRequest (g id addr : Z) (R_W : bool) (size : Z) (x : MultiChannel) : res MultiChannel :=
  n ← findChannelNumber id x;
  m ← vec_at (channels x) n;
  m ← ms_addRequest g id addr R_W size m;
  Ok (mkMultiChannel (<[n := m]> (channels x)) (clockDomainCrosser x) (mch_clock x)).

Definition mch_isWriteModeFromController (x : MultiChannel) : res bool :=
  m ← vec_at (channels x) 0; ms_isWriteModeFromController m.
Definition mch_generalBufferSize (x : MultiChannel) : res nat :=
  m ← vec_at (channels x) 0; ms_generalBufferSize m.

(** [flushWrite] reaches the first channel only. *)
Definition mch_flushWrite (sw : bool) (x : MultiChannel) : res MultiChannel :=
  m ← vec_at (channels x) 0;
  Ok (mkMultiChannel (<[0%nat := ms_flushWrite sw m]> (channels x)) (clockDomainCrosser x) (mch_clock x)).

(** [actual_update]: every channel in turn, with what they did. *)
Fixpoint update_channels (l : list (MemorySystem A B Dev)) : res (list (Output * option Request) * list (MemorySystem A B Dev)) :=
  match l with
  | [] => Ok ([], [])
  | m :: l =>
      om ← ms_update m;
      ol ← update_channels l;
      Ok (om.1 :: ol.1, om.2 :: ol.2)
  end.
Definition actual_update (x : MultiChannel) : res (list (Output * option Request) * MultiChannel) :=
  ol ← update_channels (channels x);
  Ok (ol.1, mkMultiChannel ol.2 (clockDomainCrosser x) (u64 (mch_clock x + 1))).

Fixpoint actual_updates (k : nat) (x : MultiChannel) : res (list (list (Output * option Request)) * MultiChannel) :=
  match k with
  | O => Ok ([], x)
  | S k => ox ← actual_update x; oy ← actual_updates k ox.2; Ok (ox.1 :: oy.1, oy.2)
  end.

(** [update]: what the channels did in each of the updates the crosser made. The
    crosser is the only one to read and change its counters. *)
Definition mch_update (fuel : nat) (x : MultiChannel) : res (list (list (Output * option Request)) * MultiChannel) :=
  kc ← of_option Undefined (crosser_update fuel (clockDomainCrosser x));
  ox ← actual_updates kc.1 x;
  Ok (ox.1, mkMultiChannel (channels ox.2) kc.2 (mch_clock ox.2)).

(** ** Runs *)
Inductive mch_event :=
| MAdded (k : RequestType * Z * Z)
| MCycle (outs : list (Output * option Request)).

Inductive mch_run (x0 : MultiChannel) : list mch_event → MultiChannel → Prop :=
| mr_init : mch_run x0 [] x0
| mr_add evs x g id addr R_W size x' :
    mch_run x0 evs x → mch_addRequest g id addr R_W size x = Ok x' →
    mch_run x0 (MAdded (if R_W then DATA_READ else DATA_WRITE, id, addr) :: evs) x'
| mr_flush evs x sw x' : mch_run x0 evs x → mch_flushWrite sw x = Ok x' → mch_run x0 evs x'
| mr_update evs x fuel outs x' :
    mch_run x0 evs x → mch_update fuel x = Ok (outs, x') → mch_run x0 (reverse (MCycle <$> outs) ++ evs) x'.

(** The channel of a requestor. *)
Definition channel_of (n : nat) (id : Z) : nat := if bool_decide (n = 1%nat) then 0%nat else Z.to_nat (id `mod` Z.of_nat n).

(** The events of channel [i] among [n]. *)
Fixpoint events_of (n i : nat) (evs : list mch_event) : list event :=
  match evs with
  | [] => []
  | MAdded k :: evs => if bool_decide (channel_of n k.1.2 = i) then Added k :: events_of n i evs else events_of n i evs
  | MCycle outs :: evs =>
      match outs !! i with Some (o, r) => Cycle o r :: events_of n i evs | None => events_of n i evs end
  end.

Lemma events_of_app n i e1 e2 : events_of n i (e1 ++ e2) = events_of n i e1 ++ events_of n i e2.
Proof.
  induction e1 as [|[k|outs] e1 IH]; simpl; [done|..].
  - case_bool_decide; by rewrite IH.
  - destruct (outs !! i) as [[o r]|]; by rewrite IH.
Qed.

(** The number of a channel is in range. *)
Lemma findChannelNumber_Ok id x n :
  findChannelNumber id x = Ok n → n = channel_of (length (channels x)) id ∧ (n < length (channels x))%nat.
Proof.
  unfold findChannelNumber, channel_of. case_bool_decide as H1.
  { intros [= <-]. rewrite bool_decide_true by lia. lia. }
  case_bool_decide as H0; [done|]. case_bool_decide as H2; [done|]. intros [= <-]. rewrite bool_decide_false by lia.
  split; [done|]. pose proof (Z.mod_pos_bound id (Z.of_nat (length (channels x)))). lia.
Qed.

Lemma update_channels_lookup l outs l' :
  update_channels l = Ok (outs, l') →
  length l' = length l ∧
  ∀ i m, l !! i = Some m → ∃ o r m', outs !! i = Some (o, r) ∧ l' !! i = Some m' ∧ ms_update m = Ok (o, r, m').
Proof.
  revert outs l'. induction l as [|m l IH]; intros outs l' Hu; simpl in Hu.
  - injection Hu as <- <-. split; [done|]. intros i m Hi. done.
  - apply bind_Ok in Hu as ([[o r] m'] & Hm & Hu). apply bind_Ok in Hu as ([os ms] & Hl & Hu). injection Hu as <- <-.
    destruct (IH _ _ Hl) as [E Hi]. split; [simpl; by rewrite E|]. intros [|i] m1 H1; simpl in *; [|by apply Hi].
    injection H1 as <-. by exists o, r, m'.
Qed.

(** One channel over a series of updates. *)
Lemma actual_updates_run k x outs x' :
  actual_updates k x = Ok (outs, x') →
  length (channels x') = length (channels x) ∧
  ∀ i m0 evs m, channels x !! i = Some m → sys_run m0 evs m →
    ∃ m', channels x' !! i = Some m' ∧
      sys_run m0 (events_of (length (channels x)) i (reverse (MCycle <$> outs)) ++ evs) m'.
Proof.
  revert x outs. induction k as [|k IH]; intros x outs Hu; simpl in Hu.
  - injection Hu as <- <-. split; [done|]. intros i m0 evs m Hm Hrun. by exists m.
  - apply bind_Ok in Hu as ([o x1] & H1 & Hu). apply bind_Ok in Hu as ([os x2] & H2 & Hu). injection Hu as <- <-.
    unfold actual_update in H1. apply bind_Ok in H1 as ([o1 l1] & H1 & E). injection E as <- <-.
    apply update_channels_lookup in H1 as [E1 Hl]. destruct (IH _ _ H2) as [E2 Hi]. simpl in *.
    split; [congruence|]. intros i m0 evs m Hm Hrun. destruct (Hl i m Hm) as (c & r & m' & Ho & Hm' & Hu).
    destruct (Hi i m0 (Cycle c r :: evs) m' Hm') as (m2 & Hm2 & Hrun2); [by eapply sr_update|].
    exists m2. split; [done|]. rewrite reverse_cons, events_of_app, <- app_assoc. simpl. rewrite Ho. simpl.
    by rewrite <- E1.
Qed.

Lemma mch_run_channels x0 evs x :
  mch_run x0 evs x →
  length (channels x) = length (channels x0) ∧
  ∀ i m0, channels x0 !! i = Some m0 →
    ∃ m, channels x !! i = Some m ∧ sys_run m0 (events_of (length (channels x0)) i evs) m.
Proof.
  induction 1 as [|evs x g id addr R_W size x' _ [IHl IH] Ha|evs x sw x' _ [IHl IH] Hf|evs x fuel outs x' _ [IHl IH] Hu].
  - split; [done|]. intros i m0 Hm. exists m0. split; [done|constructor].
  - unfold mch_addRequest in Ha. apply bind_Ok in Ha as (n & [En Hn]%findChannelNumber_Ok & Ha).
    apply bind_Ok in Ha as (m1 & Hm1%vec_at_Ok & Ha). apply bind_Ok in Ha as (m2 & Hm2 & Ha). injection Ha as <-.
    simpl. rewrite length_insert. split; [done|]. intros i m0 Hm0. destruct (IH i m0 Hm0) as (m & Hm & Hrun).
    rewrite IHl in En. case_bool_decide as Hi.
    + rewrite <- En in Hi. subst i. exists m2. rewrite list_lookup_insert_eq by lia. split; [done|].
      assert (m = m1) as -> by congruence. by eapply sr_add.
    + exists m. rewrite list_lookup_insert_ne by congruence. done.
  - unfold mch_flushWrite in Hf. apply bind_Ok in Hf as (m1 & Hm1%vec_at_Ok & Hf). injection Hf as <-.
    simpl. rewrite length_insert. split; [done|]. intros i m0 Hm0. destruct (IH i m0 Hm0) as (m & Hm & Hrun).
    destruct (decide (i = 0%nat)) as [->|Hne].
    + exists (ms_flushWrite sw m1). rewrite list_lookup_insert_eq by (by eapply lookup_lt_Some). split; [done|].
      assert (m = m1) as -> by congruence. by apply sr_flush.
    + exists m. rewrite list_lookup_insert_ne by done. done.
  - unfold mch_update in Hu. apply bind_Ok in Hu as ([k c] & _ & Hu). apply bind_Ok in Hu as ([os x1] & Hu & E).
    injection E as <- <-. simpl. apply actual_updates_run in Hu as [E1 Hi]. split; [congruence|].
    intros i m0 Hm0. destruct (IH i m0 Hm0) as (m & Hm & Hrun). rewrite <- IHl in Hrun.
    destruct (Hi i m0 _ m Hm Hrun) as (m' & Hm' & Hrun'). exists m'. split; [done|].
    rewrite events_of_app. by rewrite <- IHl.
Qed.

(** C34. The channels are independent: in every run of the multi-channel system,
    whatever the clock ratio, each channel makes a run of a memory system of its
    own; its requests are those of the requestors with its number modulo the
    number of channels, and no request goes to two channels or to none. *)
Theorem channels_are_systems x0 evs x i m0 :
  mch_run x0 evs x → channels x0 !! i = Some m0 →
  ∃ m, channels x !! i = Some m ∧ sys_run m0 (events_of (length (channels x0)) i evs) m.
Proof. intros Hrun. by apply mch_run_channels. Qed.
End channels.
Arguments MultiChannel A B Dev : clear implicits.

(** ** Witness: two channels and a request of requestor 1 *)
#[local] Existing Instance Open_generator.
#[local] Existing Instance CmdAlgos.FRFCFS.scheduling.
#[local] Existing Instance CmdAlgos.FRFCFS.algorithm.
#[local] Existing Instance ReqSched.FRFCFS.

Definition wit_x0 : MultiChannel unit unit Device := mkMultiChannel [wit_m0; wit_m0] (ClockDomainCrosser_ctor 1 1) 0.
Definition wit_x1 : MultiChannel unit unit Device :=
  match mch_addRequest 0 1 0x4b40 true 64 wit_x0 with Ok x => x | Err _ => wit_x0 end.
Definition wit_x2 : list (list (Output * option Request)) * MultiChannel unit unit Device :=
  match mch_update 1 wit_x1 with Ok x => x | Err _ => ([], wit_x1) end.

Lemma wit_mch_run : mch_run wit_x0 (reverse (MCycle <$> wit_x2.1) ++ [MAdded (DATA_READ, 1, 0x4b40)]) wit_x2.2.
Proof.
  eapply mr_update with (fuel := 1%nat).
  - apply (mr_add wit_x0 [] wit_x0 0 1 0x4b40 true 64 wit_x1); [constructor|]. unfold wit_x1.
    destruct (mch_addRequest 0 1 0x4b40 true 64 wit_x0) eqn:E; [done|].
    assert (is_Ok (mch_addRequest 0 1 0x4b40 true 64 wit_x0) = true) as H by (vm_compute; reflexivity).
    rewrite E in H. discriminate H.
  - unfold wit_x2. destruct (mch_update 1 wit_x1) as [[o x]|] eqn:E; [done|].
    assert (is_Ok (mch_update 1 wit_x1) = true) as H by (vm_compute; reflexivity). rewrite E in H. discriminate H.
Qed.

Lemma channels_are_systems_witness :
  ∃ m, channels wit_x2.2 !! 1%nat = Some m ∧
    sys_run wit_m0 (events_of 2 1 (reverse (MCycle <$> wit_x2.1) ++ [MAdded (DATA_READ, 1, 0x4b40)])) m.
Proof. exact (channels_are_systems wit_x0 _ wit_x2.2 1 wit_m0 wit_mch_run eq_refl). Defined.
