(* ===== verification/Requestor.v ===== *)
(** * Requestors

    [Requestor] (src/src/Requestor.cpp, Requestor.h): a core that reads the requests of
    a trace file, sends each one to the memory system when its time has come, and waits
    for the answers. [long_l], [waitingRequest], the cache and the members for row hits
    are written and never read: they are left out, as are the printed results.

    The memory system is an instance of [Memory]: the operations a requestor and the
    main loop call, and the law that it answers what it was asked, once.

    Main results: a line of a trace reads back as printed; a requestor never has more
    requests in flight than its buffer admits, one when it works in order. *)
From Stdlib Require Import String Ascii QArith.
From S2P Require Import Prelude Types Config Ledger.
#[local] Open Scope Z_scope.

(** ** The memory system, as its clients see it *)
Class Memory (M : Type) := {
  mem_add : Z → Z → bool → Z → M → res M;
  mem_isWriteMode : M → res bool;
  mem_bufferSize : M → res nat;
  mem_flush : bool → M → res M;
  mem_update : M → res (list Request * M);
}.

(** [mem_ledger] are the requests that were added and not answered yet. *)
Class MemoryLaws (M : Type) `{Memory M} := {
  mem_inv : M → Prop;
  mem_ledger : M → list (RequestType * Z * Z);
  mem_add_ledger id addr R_W size m m' :
    mem_inv m → mem_add id addr R_W size m = Ok m' →
    mem_inv m' ∧ mem_ledger m' ≡ₚ (if R_W then DATA_READ else DATA_WRITE, id, addr) :: mem_ledger m;
  mem_flush_ledger sw m m' :
    mem_inv m → mem_flush sw m = Ok m' → mem_inv m' ∧ mem_ledger m' = mem_ledger m;
  mem_update_ledger m ans m' :
    mem_inv m → mem_update m = Ok (ans, m') →
    mem_inv m' ∧ mem_ledger m ≡ₚ (key <$> ans) ++ mem_ledger m';
}.

(** ** Reading numbers

    [stream >> n] on a string: blanks are skipped, then a sign and, in base 16, one
    [0x] are read, then the digits; too large a number gives the largest value. When
    nothing is left behind the blanks, [n] is not written: it has no value. *)
Definition is_space (c : ascii) : bool :=
  bool_decide (c = " "%char) || bool_decide (9 ≤ nat_of_ascii c ≤ 13)%nat.

Definition hex_value (c : ascii) : option Z :=
  let n := Z.of_nat (nat_of_ascii c) in
  if bool_decide (48 ≤ n ≤ 57) then Some (n - 48)
  else if bool_decide (97 ≤ n ≤ 102) then Some (n - 87)
  else if bool_decide (65 ≤ n ≤ 70) then Some (n - 55) else None.
Definition digit (b : Z) (c : ascii) : option Z :=
  d ← hex_value c; if bool_decide (d < b) then Some d else None.

Fixpoint skip_space (s : string) : string :=
  match s with String c t => if is_space c then skip_space t else s | EmptyString => s end.

Fixpoint digits (b : Z) (s : string) : list Z :=
  match s with
  | String c t => match digit b c with Some d => d :: digits b t | None => [] end
  | EmptyString => []
  end.

Definition number (b : Z) (l : list Z) : Z := foldl (λ n d, b * n + d) 0 l.

Definition skip_prefix (s : string) : string :=
  match s with
  | String z (String x t) => if bool_decide (z = "0"%char) && bool_decide (x ∈ ["x"; "X"]%char) then t else s
  | _ => s
  end.

Definition read_number (b : Z) (s : string) : res Z :=
  let s := skip_space s in
  if bool_decide (s = EmptyString) then Err Undefined else
  let '(negative, s) :=
    match s with
    | String c t => if bool_decide (c = "-"%char) then (true, t) else if bool_decide (c = "+"%char) then (false, t) else (false, s)
    | EmptyString => (false, s)
    end in
  let s := if bool_decide (b = 16) then skip_prefix s else s in
  let n := number b (digits b s) in
  Ok (if bool_decide (2 ^ 64 ≤ n) then 2 ^ 64 - 1 else if negative : bool then u64 (- n) else n).

(** ** Lines of a trace *)

(** [find_first_of] and [find_first_not_of] from a position; [None] is [npos]. *)
Fixpoint find_char (p : ascii → bool) (s : string) : option nat :=
  match s with
  | EmptyString => None
  | String c s => if p c then Some 0%nat else S <$> find_char p s
  end.
Definition find_from (p : ascii → bool) (pos : option nat) (s : string) : option nat :=
  i ← pos; Nat.add i <$> find_char p (substring i (String.length s - i) s).

Arguments find_from : simpl never.

Definition is_blank (c : ascii) : bool := Ascii.eqb c " ".

(** The next field of the line, and where it ends; [substr] of [npos] throws. *)
Definition next_field (pos : option nat) (line : string) : res (string * option nat) :=
  match find_from (λ c, negb (is_blank c)) pos line with
  | None => Err OutOfRange
  | Some i =>
      let stop := find_from is_blank (Some i) line in
      Ok (substring i (match stop with Some j => j - i | None => String.length line - i end) line, stop)
  end.

(** The address, the type and the delay, before its conversion to the clock of the
    memory. A command other than the two ends the program. *)
Definition parseTraceFileLine (line : string) : res (Z * RequestType * Z) :=
  f ← next_field (Some 0%nat) line;
  let '(addressStr, p) := f in
  addr ← (if (String.length addressStr <? 2)%nat then Err OutOfRange
          else read_number 16 (substring 2 (String.length addressStr - 2) addressStr));
  f ← next_field p line;
  let '(cmdStr, p) := f in
  t ← (if bool_decide (cmdStr = "WRITE"%string) then Ok DATA_WRITE
       else if bool_decide (cmdStr = "READ"%string) then Ok DATA_READ else Err Exit);
  f ← next_field p line;
  compDelay ← read_number 10 f.1;
  Ok (addr, t, compDelay).

(** *** Fields *)
Definition all_chars (p : ascii → bool) (s : string) : bool := forallb p (list_ascii_of_string s).

Lemma find_char_app p a b :
  all_chars (λ c, negb (p c)) a = true → find_char p (a +:+ b) = Nat.add (String.length a) <$> find_char p b.
Proof.
  induction a as [|x a IH]; rewrite ?string_app_empty, ?string_app_cons; simpl; [by destruct (find_char p b)|].
  unfold all_chars. simpl. intros [Hx Ha]%andb_true_iff. apply negb_true_iff in Hx. rewrite Hx, IH by done.
  by destruct (find_char p b).
Qed.

Lemma find_from_app p a b : find_from p (Some (String.length a)) (a +:+ b) = Nat.add (String.length a) <$> find_char p b.
Proof. unfold find_from. simpl. rewrite substring_suffix; [done|]. rewrite length_string_app. lia. Qed.

Lemma substring_from a b n : substring (String.length a) n (a +:+ b) = substring 0 n b.
Proof. induction a as [|x a IH]; rewrite ?string_app_empty, ?string_app_cons; simpl; done. Qed.

Lemma all_chars_weaken (p q : ascii → bool) s : (∀ c, p c = true → q c = true) → all_chars p s = true → all_chars q s = true.
Proof.
  intros Hpq. unfold all_chars. induction (list_ascii_of_string s) as [|c l IH]; [done|]. simpl.
  intros [Hc Hl]%andb_true_iff. by rewrite (Hpq _ Hc), IH.
Qed.

(** A field after blanks, at the end of the line or before a blank. *)
Lemma next_field_app a g w rest :
  all_chars is_blank g = true → all_chars (λ c, negb (is_blank c)) w = true → w ≠ EmptyString →
  (rest = EmptyString ∨ ∃ t, rest = String " " t) →
  next_field (Some (String.length a)) (a +:+ (g +:+ (w +:+ rest))) =
    Ok (w, match rest with EmptyString => None | _ => Some (String.length ((a +:+ g) +:+ w)) end).
Proof.
  intros Hg Hw Hne Hrest. unfold next_field. rewrite find_from_app, find_char_app; [|by eapply all_chars_weaken; [|exact Hg]; intros c ->].
  destruct w as [|x w]; [done|]. change (String x w +:+ rest) with (String x (w +:+ rest)). unfold all_chars in Hw. simpl in Hw.
  apply andb_true_iff in Hw as [Hx Hw]. cbn [find_char]. rewrite Hx. simpl. rewrite Nat.add_0_r.
  rewrite <- length_string_app, string_app_assoc', find_from_app.
  change (String x (w +:+ rest)) with (String x w +:+ rest). rewrite find_char_app by (unfold all_chars; simpl; by rewrite Hx, Hw).
  destruct Hrest as [->|(t & ->)].
  - cbn [find_char fmap option_fmap option_map]. f_equal. f_equal. rewrite string_app_nil.
    apply (substring_suffix (a +:+ g) (String x w)). rewrite (length_string_app (a +:+ g)). lia.
  - cbn [find_char fmap option_fmap option_map]. change (is_blank " ") with true. cbn iota. cbn [fmap option_fmap option_map].
    rewrite Nat.add_0_r, (length_string_app (a +:+ g)). f_equal. f_equal.
    replace (String.length (a +:+ g) + String.length (String x w) - String.length (a +:+ g))%nat with (String.length (String x w)) by lia.
    rewrite substring_from. apply (substring_prefix (String x w)).
Qed.

(** *** Printing *)
Definition digit_char (d : Z) : ascii := ascii_of_nat (Z.to_nat (if bool_decide (d < 10) then 48 + d else 87 + d)).

Fixpoint print_digits (b : Z) (fuel : nat) (n : Z) : list Z :=
  match fuel with
  | O => []
  | S fuel => if bool_decide (n < b) then [n] else print_digits b fuel (n / b) ++ [n `mod` b]
  end.
Fixpoint string_of_digits (l : list Z) : string :=
  match l with [] => EmptyString | d :: l => String (digit_char d) (string_of_digits l) end.

(** A number below [2 ^ 64] has at most 64 digits. *)
Definition print_number (b n : Z) : string := string_of_digits (print_digits b 64 n).

Lemma print_digits_spec b fuel n :
  2 ≤ b → 0 ≤ n < 2 ^ Z.of_nat fuel →
  number b (print_digits b fuel n) = n ∧ Forall (λ d, 0 ≤ d < b) (print_digits b fuel n) ∧
  (fuel ≠ 0%nat → print_digits b fuel n ≠ []).
Proof.
  intros Hb. revert n. induction fuel as [|fuel IH]; intros n Hn; [simpl in *; split_and!; [unfold number; simpl; lia|constructor|done]|].
  rewrite Nat2Z.inj_succ, Z.pow_succ_r in Hn by lia. simpl. case_bool_decide as Hlt.
  - split_and!; [unfold number; simpl; lia|repeat constructor; lia|done].
  - assert (0 ≤ n / b < 2 ^ Z.of_nat fuel) as Hd.
    { split; [apply Z.div_pos; lia|]. apply Z.div_lt_upper_bound; [lia|]. nia. }
    destruct (IH _ Hd) as (Hv & Hf & _). pose proof (Z.mod_pos_bound n b). split_and!.
    + unfold number in *. rewrite foldl_app. simpl. rewrite Hv. pose proof (Z_div_mod_eq_full n b). lia.
    + apply Forall_app. split; [done|]. repeat constructor; lia.
    + by intros _ [_ ?]%app_nil.
Qed.

(** What reading has to know about a printed digit. *)
Record printed_digit (c : ascii) (d : Z) : Prop := {
  pd_value : hex_value c = Some d;
  pd_space : is_space c = false;
  pd_blank : is_blank c = false;
  pd_sign : bool_decide (c = "-"%char) = false ∧ bool_decide (c = "+"%char) = false;
  pd_prefix : bool_decide (c ∈ ["x"; "X"]%char) = false;
}.

Lemma digit_char_spec d : 0 ≤ d < 16 → printed_digit (digit_char d) d.
Proof.
  intros Hd. assert (d ∈ seqZ 0 16) as Hin by (apply elem_of_seqZ; lia). revert Hin. clear Hd. revert d. apply Forall_forall.
  repeat constructor.
Qed.

Lemma digits_print b l :
  b ≤ 16 → Forall (λ d, 0 ≤ d < b) l → digits b (string_of_digits l) = l.
Proof.
  intros Hb. induction 1 as [|d l Hd _ IH]; [done|]. simpl. unfold digit.
  rewrite (pd_value _ _ (digit_char_spec d ltac:(lia))). simpl. rewrite bool_decide_eq_true_2 by lia. by rewrite IH.
Qed.

Lemma read_number_print b l :
  b ≤ 16 → l ≠ [] → Forall (λ d, 0 ≤ d < b) l → number b l < 2 ^ 64 →
  read_number b (string_of_digits l) = Ok (number b l).
Proof.
  intros Hb Hne Hl Hlt. unfold read_number.
  assert (skip_space (string_of_digits l) = string_of_digits l) as ->.
  { destruct Hl as [|d l Hd _]; [done|]. simpl. by rewrite (pd_space _ _ (digit_char_spec d ltac:(lia))). }
  assert (skip_prefix (string_of_digits l) = string_of_digits l) as Hp.
  { destruct Hl as [|d l Hd [|d' l' Hd' _]]; [done|done|]. simpl.
    by rewrite (pd_prefix _ _ (digit_char_spec d' ltac:(lia))), andb_false_r. }
  assert (digits b (string_of_digits l) = l) as Hdig by by apply digits_print.
  destruct Hl as [|d l Hd Hl]; [done|]. destruct (pd_sign _ _ (digit_char_spec d ltac:(lia))) as [E1 E2].
  cbn [string_of_digits] in *. rewrite bool_decide_eq_false_2 by done. cbn iota. rewrite E1, E2. cbn iota. rewrite Hp. destruct (bool_decide (b = 16)); rewrite Hdig, bool_decide_eq_false_2 by lia; done.
Qed.

Lemma all_digits (p : ascii → bool) b l :
  b ≤ 16 → Forall (λ d, 0 ≤ d < b) l → (∀ d, 0 ≤ d < 16 → p (digit_char d) = true) →
  all_chars p (string_of_digits l) = true.
Proof.
  intros Hb Hl Hp. unfold all_chars. induction Hl as [|d l Hd _ IH]; [done|]. simpl. by rewrite Hp, IH by lia.
Qed.

Definition type_string (t : RequestType) : string := match t with DATA_READ => "READ" | DATA_WRITE => "WRITE" end.

(** A line with any blanks in front of its fields, and nothing or more fields behind. *)
Definition print_line (g0 g1 g2 : string) (addr : Z) (t : RequestType) (delay : Z) (rest : string) : string :=
  g0 +:+ ((String "0" (String "x" (print_number 16 addr))) +:+ (g1 +:+ (type_string t +:+ (g2 +:+ (print_number 10 delay +:+ rest))))).

(** C35. A line of a trace - an address in hexadecimal, a type, a delay, with blanks
    between them - reads back as what it was printed from. *)
Theorem parseTraceFileLine_roundtrip g0 g1 g2 addr t delay rest :
  all_chars is_blank g0 = true → all_chars is_blank g1 = true → all_chars is_blank g2 = true →
  g1 ≠ EmptyString → g2 ≠ EmptyString → (rest = EmptyString ∨ ∃ u, rest = String " " u) →
  0 ≤ addr < 2 ^ 64 → 0 ≤ delay < 2 ^ 64 →
  parseTraceFileLine (print_line g0 g1 g2 addr t delay rest) = Ok (addr, t, delay).
Proof.
  intros H0 H1 H2 N1 N2 Hrest Ha Hd.
  destruct (print_digits_spec 16 64 addr) as (Va & Fa & Na); [lia|done|].
  destruct (print_digits_spec 10 64 delay) as (Vd & Fd & Nd); [lia|done|]. specialize (Na ltac:(done)). specialize (Nd ltac:(done)).
  assert (∀ b l, b ≤ 16 → Forall (λ d, 0 ≤ d < b) l → all_chars (λ c, negb (is_blank c)) (string_of_digits l) = true) as Hblank.
  { intros b l Hb Hl. apply (all_digits _ b); [done|done|]. intros d Hd'. by rewrite (pd_blank _ _ (digit_char_spec d Hd')). }
  assert (∀ g s, g ≠ EmptyString → all_chars is_blank g = true → ∃ u, g +:+ s = String " " u) as Hstart.
  { intros [|c g] s Hg Hb; [done|]. unfold all_chars in Hb. simpl in Hb. apply andb_true_iff in Hb as [Hc _].
    apply Ascii.eqb_eq in Hc as ->. by exists (g +:+ s). }
  assert (∀ l, l ≠ [] → string_of_digits l ≠ EmptyString) as Hprint by (intros []; done).
  unfold parseTraceFileLine, print_line. set (w0 := String "0" _). set (s3 := print_number 10 delay +:+ rest).
  set (s2 := type_string t +:+ (g2 +:+ s3)).
  assert (all_chars (λ c, negb (is_blank c)) w0 = true) as Hw0 by (apply (Hblank 16); [lia|exact Fa]).
  destruct (Hstart g1 s2 N1 H1) as [u1 E1]. destruct (Hstart g2 s3 N2 H2) as [u2 E2].
  pose proof (next_field_app EmptyString g0 w0 (g1 +:+ s2) H0 Hw0 ltac:(done) ltac:(right; by exists u1)) as F1.
  rewrite E1 in F1 at 2. change (next_field (Some 0%nat) (g0 +:+ (w0 +:+ (g1 +:+ s2))) = Ok (w0, Some (String.length (g0 +:+ w0)))) in F1.
  rewrite F1. cbn [mbind res_bind].
  assert (read_number 16 (substring 2 (String.length w0 - 2) w0) = Ok addr) as Haddr.
  { assert (substring 2 (String.length w0 - 2) w0 = print_number 16 addr) as ->.
    { unfold w0. simpl. rewrite Nat.sub_0_r. by apply substring_all. }
    unfold print_number. rewrite read_number_print; [by rewrite Va|lia|exact Na|exact Fa|lia]. }
  change (String.length w0 <? 2)%nat with false. cbn iota. rewrite Haddr. cbn [mbind res_bind].
  assert (all_chars (λ c, negb (is_blank c)) (type_string t) = true) as Ht by by destruct t.
  pose proof (next_field_app (g0 +:+ w0) g1 (type_string t) (g2 +:+ s3) H1 Ht ltac:(by destruct t) ltac:(right; by exists u2)) as F2.
  rewrite E2 in F2 at 2. fold s2 in F2. rewrite (string_app_assoc' g0 w0), F2. cbn [mbind res_bind].
  assert (bool_decide (type_string t = "WRITE"%string) = bool_decide (t = DATA_WRITE) ∧
          bool_decide (type_string t = "READ"%string) = bool_decide (t = DATA_READ)) as [-> ->] by by destruct t.
  assert ((if bool_decide (t = DATA_WRITE) then Ok DATA_WRITE else if bool_decide (t = DATA_READ) then Ok DATA_READ else Err Exit) = Ok t)
    as -> by by destruct t. cbn [mbind res_bind].
  pose proof (next_field_app ((g0 +:+ w0) +:+ g1 +:+ type_string t) g2 (print_number 10 delay) rest H2
    ltac:(apply (Hblank 10); [lia|exact Fd]) ltac:(by apply Hprint) Hrest) as F3.
  unfold s2. fold s3 in F3. rewrite <- !string_app_assoc' in F3. rewrite <- !string_app_assoc'.
  rewrite F3. cbn [mbind res_bind fst]. unfold print_number. rewrite read_number_print; [|lia|exact Nd|exact Fd|lia].
  cbn [mbind res_bind]. by rewrite Vd.
Qed.

Lemma parseTraceFileLine_roundtrip_witness : parseTraceFileLine "0x4b40 READ  12 #7" = Ok (0x4b40, DATA_READ, 12).
Proof.
  change "0x4b40 READ  12 #7"%string with (print_line "" " " "  " 0x4b40 DATA_READ 12 " #7").
  apply (parseTraceFileLine_roundtrip "" " " "  " 0x4b40 DATA_READ 12 " #7"); try reflexivity; try discriminate; try lia.
  right. by exists "#7"%string.
Defined.

(** ** Requestors *)
Record Requestor := mkRequestor {
  rq_id : Z;
  inOrder : bool;
  RequestSize : Z;
  transFile : option (list string);
  bypass_read : bool;
  sim_done : bool;
  currentClockCycle : Z;
  prevArrive : Z;
  prevComplete : Z;
  latency : Z;
  wcLatency : Z;
  compTime : Z;
  requestRequest : Z;
  completeRequest : Z;
  pendingRequest : option Request;
  corePendingData : list Request;
}.

Definition RequestBufferSize : Z := 32.

(** [transFile] has the lines that [getline] returns until the end of the file, and is
    [None] for a file that was not opened, whose end never comes. *)
Definition Requestor_ctor (id : Z) (order : bool) (size : Z) (file : option string) : Requestor :=
  mkRequestor id order size (lines <$> file) false false 1 1 0 0 0 0 0 0 None [].

Definition set_trace (f : option (list string)) (bypass : bool) (p : option Request) (q : Requestor) : Requestor :=
  mkRequestor (rq_id q) (inOrder q) (RequestSize q) f bypass (sim_done q) (currentClockCycle q) (prevArrive q)
    (prevComplete q) (latency q) (wcLatency q) (compTime q) (requestRequest q) (completeRequest q) p (corePendingData q).
Definition set_arrival (arrive comp : Z) (q : Requestor) : Requestor :=
  mkRequestor (rq_id q) (inOrder q) (RequestSize q) (transFile q) (bypass_read q) (sim_done q) (currentClockCycle q) arrive
    (prevComplete q) (latency q) (wcLatency q) comp (requestRequest q) (completeRequest q) (pendingRequest q) (corePendingData q).
Definition set_clock (done_ : bool) (clock late : Z) (q : Requestor) : Requestor :=
  mkRequestor (rq_id q) (inOrder q) (RequestSize q) (transFile q) (bypass_read q) done_ clock (prevArrive q)
    (prevComplete q) late (wcLatency q) (compTime q) (requestRequest q) (completeRequest q) (pendingRequest q) (corePendingData q).
Definition set_core (requested completed : Z) (p : option Request) (l : list Request) (q : Requestor) : Requestor :=
  mkRequestor (rq_id q) (inOrder q) (RequestSize q) (transFile q) (bypass_read q) (sim_done q) (currentClockCycle q) (prevArrive q)
    (prevComplete q) (latency q) (wcLatency q) (compTime q) requested completed p l.
Definition set_complete (complete late wc : Z) (q : Requestor) : Requestor :=
  mkRequestor (rq_id q) (inOrder q) (RequestSize q) (transFile q) (bypass_read q) (sim_done q) (currentClockCycle q) (prevArrive q)
    complete late wc (compTime q) (requestRequest q) (completeRequest q) (pendingRequest q) (corePendingData q).

Section Requestor.
Context {M : Type} `{Memory M}.

(** [scale x] is [(long)(x / memoryClock)], with the clock period of the memory; [g] is
    the memory of the members of a [Request] its constructor leaves unset. *)
Variable scale : Z → Z.
Variable g : Z.

(** The cycle in which a request arrives, at the end of [parseTraceFileLine]. *)
Definition arrival (delay : Z) (q : Requestor) : Z * Requestor :=
  let d := scale delay in
  if inOrder q then (u64 (d + prevComplete q), set_arrival (prevArrive q) (u64 (compTime q + d)) q)
  else if bool_decide (d = 0) && negb (bool_decide (currentClockCycle q = 1)) then
    let n := u32 (prevArrive q + 1) in (n, set_arrival n (compTime q) q)
  else let n := u64 (d + prevArrive q) in (n, set_arrival (u32 n) (compTime q) q).

(** [readingTraceFile]: whether the trace is at its end. An empty line starts
    [bypass_read]. *)
Definition readingTraceFile (q : Requestor) : res (bool * Requestor) :=
  if inOrder q && negb (bool_decide (corePendingData q = [])) then Ok (false, q)
  else match pendingRequest q, transFile q with
       | Some _, _ => Ok (false, q)
       | None, Some [] => Ok (true, q)
       | None, None => Ok (false, set_trace None true None q)
       | None, Some (EmptyString :: f) => Ok (false, set_trace (Some f) true None q)
       | None, Some (line :: f) =>
           x ← parseTraceFileLine line;
           let '(addr, t, delay) := x in
           let '(clockCycle, q) := arrival delay q in
           let r := set_arriveTime (u32 clockCycle) (new_Request g (rq_id q) t (RequestSize q) addr 0) in
           Ok (false, set_trace (Some f) (bypass_read q) (Some r) q)
       end.

Definition sendRequest (r : Request) (q : Requestor) (m : M) : res (Requestor * M) :=
  m ← mem_add (requestorID r) (address r) (bool_decide (requestType r ≠ DATA_WRITE)) (requestSize r) m;
  let q := set_clock (sim_done q) (currentClockCycle q) 0 q in
  Ok (set_core (u64 (requestRequest q + 1)) (completeRequest q) (pendingRequest q)
        (corePendingData q ++ [set_arriveTime (currentClockCycle q) r]) q, m).

(** [returnData]: the answer belongs to the first request with its address. One that
    is not found aborts unless [latency] is 0. *)
Definition returnData (ret : Request) (q : Requestor) : res Requestor :=
  if bool_decide (corePendingData q = []) then Ok q
  else match list_find (λ r, address r = address ret) (corePendingData q) with
       | Some (k, r) =>
           let wait := u32 (currentClockCycle q - arriveTime r) in
           Ok (set_core (requestRequest q) (u64 (completeRequest q + 1)) (pendingRequest q) (delete k (corePendingData q))
                 (set_complete (currentClockCycle q) 0 (Z.max wait (wcLatency q)) q))
       | None => if bool_decide (latency q = 0) then Ok q else Err Abort
       end.

(** [update]: with the requests of the channel-0 controller as the measure of room. *)
Definition rq_update (q : Requestor) (m : M) : res (Requestor * M) :=
  let q := set_clock (sim_done q) (currentClockCycle q) (u64 (latency q + 1)) q in
  dq ← readingTraceFile q;
  let q := set_clock dq.1 (currentClockCycle dq.2) (latency dq.2) dq.2 in
  qm ← (match pendingRequest q with
        | Some r =>
            w ← mem_isWriteMode m;
            if w : bool then Ok (q, m)
            else if bool_decide (arriveTime r ≤ currentClockCycle q) then
              n ← mem_bufferSize m;
              if bool_decide (Z.of_nat n ≤ RequestBufferSize) &&
                 bool_decide (Z.of_nat (length (corePendingData q)) ≤ RequestBufferSize) then
                qm ← sendRequest r q m;
                Ok (set_core (requestRequest qm.1) (completeRequest qm.1) None (corePendingData qm.1) qm.1, qm.2)
              else Ok (q, m)
            else Ok (q, m)
        | None => if bypass_read q then m ← mem_flush true m; Ok (q, m) else Ok (q, m)
        end);
  let '(q, m) := qm in
  Ok (set_clock (if bool_decide (corePendingData q = []) then sim_done q else false) (u32 (currentClockCycle q + 1))
        (latency q) q, m).

(** *** What never changes, and what is counted *)

(** Requests in flight, and their number; in order, there is one at most, and the next
    one is read when it was answered. *)
Record rq_ok (q : Requestor) : Prop := {
  ro_bound : (length (corePendingData q) ≤ 33)%nat;
  ro_inOrder : inOrder q = true → corePendingData q = [] ∨ pendingRequest q = None ∧ length (corePendingData q) = 1%nat;
  ro_count : requestRequest q = u64 (completeRequest q + Z.of_nat (length (corePendingData q)));
  ro_own r : pendingRequest q = Some r ∨ r ∈ corePendingData q → requestorID r = rq_id q;
}.

Lemma rq_ok_ctor id order size file : rq_ok (Requestor_ctor id order size file).
Proof. split; simpl; [lia|by left|done|]. by intros r [?|?%not_elem_of_nil]. Qed.

(** The members of [rq_ok] other than [pendingRequest] are those of [q]. *)
Definition same_core (q q' : Requestor) : Prop :=
  corePendingData q' = corePendingData q ∧ requestRequest q' = requestRequest q ∧
  completeRequest q' = completeRequest q ∧ rq_id q' = rq_id q ∧ inOrder q' = inOrder q.

Lemma rq_ok_same q q' : same_core q q' → pendingRequest q' = pendingRequest q → rq_ok q → rq_ok q'.
Proof. intros (E1 & E2 & E3 & E4 & E5) Ep [H1 H2 H3 H4]. split; rewrite ?E1, ?E2, ?E3, ?E4, ?E5, ?Ep; done. Qed.

Lemma arrival_same d q : same_core q (arrival d q).2.
Proof. unfold arrival. destruct (inOrder q); [done|]. case_bool_decide; [by destruct (negb _)|done]. Qed.

Lemma readingTraceFile_ok q d q' :
  rq_ok q → readingTraceFile q = Ok (d, q') → rq_ok q' ∧ same_core q q'.
Proof.
  intros Hok Hr. unfold readingTraceFile in Hr.
  destruct (inOrder q && negb (bool_decide (corePendingData q = []))) eqn:Ein; [by injection Hr as _ <-|].
  destruct (pendingRequest q) as [r|] eqn:Ep; [by injection Hr as _ <-|].
  assert (∀ f, rq_ok (set_trace f true None q) ∧ same_core q (set_trace f true None q)) as Hset
    by (intros f; split; [by apply (rq_ok_same q)|done]).
  destruct (transFile q) as [[|line f]|]; [by injection Hr as _ <-| |by injection Hr as _ <-].
  destruct line as [|x line]; [by injection Hr as _ <-|].
  apply bind_Ok in Hr as ([[addr t] delay] & _ & Hr). pose proof (arrival_same delay q) as Hs.
  destruct (arrival delay q) as [c q1] eqn:Ea. simpl in Hs. injection Hr as _ <-.
  split; [|exact Hs]. destruct Hs as (E1 & E2 & E3 & E4 & E5). destruct Hok as [H1 H2 H3 H4].
  split; simpl; rewrite ?E1, ?E2, ?E3, ?E4, ?E5; [done| |done|].
  - intros Hin. left. rewrite Hin in Ein. simpl in Ein. apply negb_false_iff, bool_decide_eq_true in Ein. done.
  - intros r [[= <-]|Hr]; [done|]. apply H4. by right.
Qed.

(** An update adds at most one request to those in flight, and to the account of the
    memory system. *)
Lemma rq_update_ok `{!MemoryLaws M} q m q' m' :
  rq_ok q → mem_inv m → rq_update q m = Ok (q', m') →
  rq_ok q' ∧ rq_id q' = rq_id q ∧ mem_inv m' ∧
  ∃ new, corePendingData q' = corePendingData q ++ new ∧ mem_ledger m' ≡ₚ (key <$> new) ++ mem_ledger m.
Proof.
  intros Hok Hm Hu. unfold rq_update in Hu. set (q0 := set_clock _ _ _ q) in Hu.
  apply bind_Ok in Hu as ([d q1] & Hr & Hu). assert (rq_ok q0) as Hok0 by by apply (rq_ok_same q).
  destruct (readingTraceFile_ok _ _ _ Hok0 Hr) as [Hok1 (C1 & _ & _ & I1 & _)]. cbn [fst snd] in Hu.
  set (q2 := set_clock d _ _ q1) in Hu. assert (rq_ok q2) as Hok2 by by apply (rq_ok_same q1).
  apply bind_Ok in Hu as ([q3 m3] & H3 & Hu).
  cut (rq_ok q3 ∧ rq_id q3 = rq_id q2 ∧ mem_inv m3 ∧
    ∃ new, corePendingData q3 = corePendingData q2 ++ new ∧ mem_ledger m3 ≡ₚ (key <$> new) ++ mem_ledger m).
  { intros (A1 & A2 & A3 & new & A4 & A5). injection Hu as <- <-. split; [by apply (rq_ok_same q3)|]. simpl in *.
    split; [by rewrite A2, I1|]. split; [done|]. exists new. by rewrite A4, C1. }
  clear Hu Hok1. assert (∀ q m, rq_ok q → mem_inv m → rq_ok q ∧ rq_id q = rq_id q ∧ mem_inv m ∧
    ∃ new, corePendingData q = corePendingData q ++ new ∧ mem_ledger m ≡ₚ (key <$> new) ++ mem_ledger m) as Hid.
  { intros. split_and!; [done..|]. exists []. by rewrite app_nil_r. }
  destruct (pendingRequest q2) as [r|] eqn:Ep.
  - apply bind_Ok in H3 as ([] & _ & H3); [injection H3 as <- <-; by apply Hid|].
    case_bool_decide; [|injection H3 as <- <-; by apply Hid]. apply bind_Ok in H3 as (n & _ & H3).
    destruct (bool_decide (Z.of_nat n ≤ RequestBufferSize) && _) eqn:Eroom; [|injection H3 as <- <-; by apply Hid].
    apply andb_true_iff in Eroom as [_ Eroom%bool_decide_eq_true].
    apply bind_Ok in H3 as ([q4 m4] & Hs & H3). unfold sendRequest in Hs. apply bind_Ok in Hs as (m5 & Ha & Hs).
    injection Hs as <- <-. injection H3 as <- <-. destruct (mem_add_ledger _ _ _ _ _ _ Hm Ha) as [Hm' Hl].
    destruct Hok2 as [B1 B2 B3 B4]. set (r' := set_arriveTime _ r).
    assert (key r' = (if bool_decide (requestType r ≠ DATA_WRITE) then DATA_READ else DATA_WRITE, requestorID r, address r)) as Ek.
    { unfold key. simpl. by destruct (requestType r). }
    split_and!; [|done|done|exists [r']; split; [done|]; simpl; rewrite Ek; exact Hl]. split.
    + simpl. rewrite length_app. unfold RequestBufferSize in Eroom. simpl in *. lia.
    + intros Hin. right. split; [done|]. destruct (B2 Hin) as [Hnil|[Hp _]]; [|simpl in *; congruence].
      simpl in *. by rewrite Hnil.
    + simpl in *. rewrite length_app, B3. simpl. unfold u64. rewrite Zplus_mod_idemp_l. f_equal. lia.
    + simpl. intros x [?|[Hx|Hx%list_elem_of_singleton]%elem_of_app]; [done|by apply B4; right|].
      subst x. simpl. apply B4. by left.
  - destruct (bypass_read q2); [|injection H3 as <- <-; by apply Hid].
    apply bind_Ok in H3 as (m4 & Hf & H3). injection H3 as <- <-. destruct (mem_flush_ledger _ _ _ Hm Hf) as [Hm' El].
    destruct (Hid q2 m Hok2 Hm) as (? & ? & _ & new & ? & ?). split_and!; [done..|]. exists new. by rewrite El.
Qed.

(** An answer takes a request with its address out of those in flight; when there is
    one the call does not fail. *)
Lemma returnData_ok a q :
  rq_ok q → address a ∈ address <$> corePendingData q →
  ∃ q', returnData a q = Ok q' ∧ rq_ok q' ∧ rq_id q' = rq_id q ∧
    address <$> corePendingData q ≡ₚ address a :: (address <$> corePendingData q').
Proof.
  intros Hok (r & Er & Hr)%list_elem_of_fmap. unfold returnData. rewrite bool_decide_eq_false_2 by (intros E; rewrite E in Hr; by apply not_elem_of_nil in Hr).
  destruct (list_find _ _) as [[k r1]|] eqn:Ef.
  2:{ apply list_find_None in Ef. rewrite Forall_forall in Ef. by destruct (Ef r Hr). }
  apply list_find_Some in Ef as (Hk & E1 & _). eexists. split; [done|].
  pose proof (delete_Permutation _ _ _ Hk) as Hp. split; [|split; [done|]].
  - destruct Hok as [B1 B2 B3 B4]. assert (length (corePendingData q) = S (length (delete k (corePendingData q)))) as El
      by (rewrite Hp at 1; done). split; simpl.
    + lia.
    + intros Hin. left. destruct (B2 Hin) as [Hn|[_ Hn]]; [rewrite Hn in Hk; done|]. apply length_zero_iff_nil. lia.
    + rewrite B3, El. unfold u64. rewrite Zplus_mod_idemp_l. f_equal. lia.
    + intros x Hx. apply B4. destruct Hx as [Hx|Hx]; [by left|right]. rewrite Hp. by right.
  - simpl. rewrite Hp at 1. simpl. by rewrite E1.
Qed.
End Requestor.
