(* ===== verification/Simulation.v ===== *)
(** * The whole simulation

    The main loop (src/src/main.cpp): in every cycle all requestors are updated, then
    the memory system, whose answers go back to the requestors by the callback. The
    command line, the opening of the files and the printing are left out.

    Main results: the requests a requestor has in flight are those the memory system
    has of it, in every state of a simulation, so that every answer finds the request
    it belongs to, and the abort for an answer without a request is never reached; a
    requestor in order has at most one request in flight. *)
From Stdlib Require Import String QArith.
From S2P Require Import Prelude Types CmdGen ReqSched DRAM DDR3 Device CmdSched CmdAlg CmdAlgos Config Controller Ledger System DDR3System ClockDomain Channels Requestor.
#[local] Open Scope Z_scope.

(** ** The multi-channel system as a memory system *)
Section memory.
Context {A B Dev : Type} {Gen : CommandGenerator} {ReqA : RequestScheduling A}
  {DevI : MemoryDevice Dev} {CmdS : CommandScheduling Dev B}.
(** The unset members of a new request, and the fuel of the clock crosser. *)
Variables (g : Z) (fuel : nat).

(** The calls of the callback in an update, in their order: of every channel the write
    it answered, then the read. *)
Definition channel_answers (or : Output * option Request) : list Request :=
  option_list (out_answer or.1) ++ option_list or.2.
Definition answers (outs : list (list (Output * option Request))) : list Request :=
  concat ((λ os, concat (channel_answers <$> os)) <$> outs).

#[export] Instance MultiChannel_memory : Memory (MultiChannel A B Dev) := {|
  mem_add := mch_addRequest g;
  mem_isWriteMode := mch_isWriteModeFromController;
  mem_bufferSize := mch_generalBufferSize;
  mem_flush := mch_flushWrite;
  mem_update := λ x, ox ← mch_update fuel x; Ok (answers ox.1, ox.2);
|}.

Definition channels_ok (l : list (MemorySystem A B Dev)) : Prop := Forall (λ m, ledger_ok (memoryController m)) l.
Definition channels_ledger (l : list (MemorySystem A B Dev)) : list (RequestType * Z * Z) :=
  concat ((λ m, ledger (memoryController m)) <$> l).

Lemma channels_replace l n m m' ks :
  l !! n = Some m → channels_ok l → ledger_ok (memoryController m') →
  ledger (memoryController m') ≡ₚ ks ++ ledger (memoryController m) →
  channels_ok (<[n := m']> l) ∧ channels_ledger (<[n := m']> l) ≡ₚ ks ++ channels_ledger l.
Proof.
  intros Hn Hok Hm E. split; [by apply Forall_insert|]. unfold channels_ledger.
  revert n Hn. clear Hok. induction l as [|x l IH]; intros [|n] Hn; simplify_eq/=.
  - rewrite E. by rewrite app_assoc.
  - rewrite (IH n Hn). solve_Permutation.
Qed.

Lemma update_channels_ledger l os l' :
  channels_ok l → update_channels l = Ok (os, l') →
  channels_ok l' ∧ channels_ledger l ≡ₚ (key <$> concat (channel_answers <$> os)) ++ channels_ledger l'.
Proof.
  revert os l'. induction l as [|m l IH]; intros os l' Hok Hu; simpl in Hu; [by injection Hu as <- <-|].
  apply Forall_cons in Hok as [Hm Hok]. apply bind_Ok in Hu as ([[o r] m'] & H1 & Hu).
  apply bind_Ok in Hu as ([os' ms] & H2 & Hu). injection Hu as <- <-.
  destruct (IH _ _ Hok H2) as [Hok' E2]. destruct (ms_update_ledger _ _ _ _ Hm H1) as [Hm' E1].
  split; [by constructor|]. unfold channels_ledger in *. simpl. rewrite E1, E2. unfold channel_answers at 2. simpl.
  rewrite !fmap_app. destruct (out_answer o), r; simpl; solve_Permutation.
Qed.

Lemma actual_updates_ledger k x outs x' :
  channels_ok (channels x) → actual_updates k x = Ok (outs, x') →
  channels_ok (channels x') ∧ channels_ledger (channels x) ≡ₚ (key <$> answers outs) ++ channels_ledger (channels x').
Proof.
  revert x outs. induction k as [|k IH]; intros x outs Hok Hu; simpl in Hu; [by injection Hu as <- <-|].
  apply bind_Ok in Hu as ([os x1] & H1 & Hu). apply bind_Ok in Hu as ([outs' x2] & H2 & Hu). injection Hu as <- <-.
  unfold actual_update in H1. apply bind_Ok in H1 as ([os1 l1] & H1 & E). injection E as <- <-.
  destruct (update_channels_ledger _ _ _ Hok H1) as [Hok1 E1]. destruct (IH (mkMultiChannel l1 (clockDomainCrosser x) (u64 (mch_clock x + 1))) outs' Hok1 H2) as [Hok2 E2].
  split; [done|]. simpl in *. rewrite E1, E2. unfold answers. simpl. rewrite fmap_app. by rewrite app_assoc.
Qed.

#[export] Program Instance MultiChannel_laws : MemoryLaws (MultiChannel A B Dev) := {|
  mem_inv := λ x, channels_ok (channels x);
  mem_ledger := λ x, channels_ledger (channels x);
|}.
Next Obligation.
  intros id addr R_W size x x' Hok Ha. simpl in Ha. unfold mch_addRequest in Ha. apply bind_Ok in Ha as (n & _ & Ha).
  apply bind_Ok in Ha as (m & Hm%vec_at_Ok & Ha). apply bind_Ok in Ha as (m' & Hm' & Ha). injection Ha as <-. simpl.
  destruct (ms_addRequest_ledger _ _ _ _ _ _ _ (Forall_lookup_1 _ _ _ _ Hok Hm) Hm') as [H1 H2].
  by apply (channels_replace _ _ _ _ [(if R_W then DATA_READ else DATA_WRITE, id, addr)] Hm Hok H1).
Qed.
Next Obligation.
  intros sw x x' Hok Hf. simpl in Hf. unfold mch_flushWrite in Hf. apply bind_Ok in Hf as (m & Hm%vec_at_Ok & Hf).
  injection Hf as <-. simpl. destruct (ms_flushWrite_ledger sw m (Forall_lookup_1 _ _ _ _ Hok Hm)) as [H1 H2].
  split; [by apply Forall_insert|]. unfold channels_ledger. rewrite list_fmap_insert, H2. f_equal.
  apply list_insert_id. by rewrite list_lookup_fmap, Hm.
Qed.
Next Obligation.
  intros x ans x' Hok Hu. simpl in Hu. apply bind_Ok in Hu as ([outs x1] & H1 & Hu). injection Hu as <- <-. simpl.
  unfold mch_update in H1. apply bind_Ok in H1 as ([k c] & _ & H1). apply bind_Ok in H1 as ([o x2] & H1 & E).
  injection E as <- <-. simpl. by apply actual_updates_ledger in H1.
Qed.
End memory.

(** ** The main loop *)
Section simulation.
Context {M : Type} `{Memory M}.
Variable scale : Z → Z.
Variable g : Z.

(** [requestors !! i] is [requestorsMap[i]]. *)
Record Sim := mkSim {
  requestors : list Requestor;
  memory : M;
  sim_clock : Z;
}.

(** The requestors of main.cpp: the first eight work in order, and so do those after
    them, since the variable keeps its value; each has a trace file. *)
Definition sim_start (files : list (option string)) (m : M) : Sim :=
  mkSim (imap (λ i f, Requestor_ctor (Z.of_nat i) true 64 f) files) m 1.

Definition update_requestor (i : nat) (st : list Requestor * M) : res (list Requestor * M) :=
  q ← vec_at st.1 i;
  qm ← rq_update scale g q st.2;
  Ok (<[i := qm.1]> st.1, qm.2).
Definition requestor_phase (st : Sim) : res Sim :=
  rm ← foldM (seq 0 (length (requestors st))) (requestors st, memory st) update_requestor;
  Ok (mkSim rm.1 rm.2 (sim_clock st)).

(** The callback: [requestorsMap[r.requestorID]->returnData(&r)]; a number without a
    requestor gives a null pointer. *)
Definition callback (a : Request) (rs : list Requestor) : res (list Requestor) :=
  let i := Z.to_nat (requestorID a) in
  q ← vec_at rs i;
  q ← returnData a q;
  Ok (<[i := q]> rs).
Definition deliver (ans : list Request) (rs : list Requestor) : res (list Requestor) := foldM ans rs callback.

Definition memory_phase (st : Sim) : res Sim :=
  am ← mem_update (memory st);
  rs ← deliver am.1 (requestors st);
  Ok (mkSim rs am.2 (u64 (sim_clock st + 1))).

(** A cycle, and whether it is the last one: the limit is reached, or some requestor is
    done. *)
Definition sim_cycle (cycles : Z) (st : Sim) : res (bool * Sim) :=
  st1 ← requestor_phase st;
  st2 ← memory_phase st1;
  Ok (negb (bool_decide (cycles = 0)) && bool_decide (sim_clock st = cycles) || existsb sim_done (requestors st1), st2).

Fixpoint simulate (fuel : nat) (cycles : Z) (st : Sim) : res (bool * Sim) :=
  match fuel with
  | O => Ok (false, st)
  | S fuel =>
      '(last, st) ← sim_cycle cycles st;
      if last : bool then Ok (true, st) else simulate fuel cycles st
  end.

(** ** The account of a requestor *)
Context `{!MemoryLaws M}.

(** The addresses of one requestor in an account. *)
Definition of_requestor (i : nat) (l : list (RequestType * Z * Z)) : list Z :=
  snd <$> filter (λ k, k.1.2 = Z.of_nat i) l.

#[export] Instance of_requestor_Permutation i : Proper (Permutation ==> Permutation) (of_requestor i).
Proof. intros l l' E. unfold of_requestor. by rewrite E. Qed.

Lemma of_requestor_app i l l' : of_requestor i (l ++ l') = of_requestor i l ++ of_requestor i l'.
Proof. unfold of_requestor. by rewrite filter_app, fmap_app. Qed.

(** Requestor [i] has in flight what the account [l] has of it. *)
Record accounts (rs : list Requestor) (l : list (RequestType * Z * Z)) : Prop := {
  ac_requestor i q : rs !! i = Some q →
    rq_id q = Z.of_nat i ∧ rq_ok q ∧ address <$> corePendingData q ≡ₚ of_requestor i l;
  ac_range k : k ∈ l → 0 ≤ k.1.2 < Z.of_nat (length rs);
}.

Definition sim_ok (st : Sim) : Prop := mem_inv (memory st) ∧ accounts (requestors st) (mem_ledger (memory st)).

Lemma of_requestor_keys i (new : list Request) id :
  (∀ r, r ∈ new → requestorID r = id) →
  of_requestor i (key <$> new) = if bool_decide (id = Z.of_nat i) then address <$> new else [].
Proof.
  intros Hid. unfold of_requestor. induction new as [|r new IH]; [by case_bool_decide|].
  assert (requestorID r = id) as Er by (apply Hid; left).
  assert (∀ x, x ∈ new → requestorID x = id) as Hid' by (intros; apply Hid; by right).
  specialize (IH Hid'). rewrite fmap_cons. case_bool_decide as Hi.
  - rewrite filter_cons_True by (simpl; congruence). by rewrite fmap_cons, IH.
  - rewrite filter_cons_False by (simpl; congruence). exact IH.
Qed.

Lemma update_requestor_ok i rs m rs' m' :
  mem_inv m → accounts rs (mem_ledger m) → update_requestor i (rs, m) = Ok (rs', m') →
  mem_inv m' ∧ accounts rs' (mem_ledger m') ∧ length rs' = length rs.
Proof.
  intros Hm [Hr Hk] Hu. unfold update_requestor in Hu. apply bind_Ok in Hu as (q & Hq%vec_at_Ok & Hu). simpl in Hq, Hu.
  apply bind_Ok in Hu as ([q' m1] & Hu1 & Hu). injection Hu as <- <-. destruct (Hr _ _ Hq) as (Hid & Hok & Hacc).
  destruct (rq_update_ok _ _ _ _ _ _ Hok Hm Hu1) as (Hok' & Hid' & Hm' & new & Ecore & El). simpl.
  assert (∀ r, r ∈ new → requestorID r = Z.of_nat i) as Hnew.
  { intros r Hin. rewrite <- Hid, <- Hid'. apply (ro_own _ Hok'). right. rewrite Ecore. apply elem_of_app. by right. }
  split; [done|]. rewrite length_insert. split; [|done]. split.
  - intros j qj Hj. rewrite El, of_requestor_app, (of_requestor_keys _ _ _ Hnew). destruct (decide (j = i)) as [->|Hne].
    + rewrite list_lookup_insert_eq in Hj by (by eapply lookup_lt_Some). injection Hj as <-. split; [congruence|].
      split; [done|]. rewrite bool_decide_eq_true_2 by done. rewrite Ecore, fmap_app, Hacc. by rewrite Permutation_app_comm.
    + rewrite list_lookup_insert_ne in Hj by done. rewrite bool_decide_eq_false_2 by lia. by apply Hr.
  - intros k. rewrite El, length_insert. intros [(r & -> & Hin)%list_elem_of_fmap|Hin]%elem_of_app; [|by apply Hk].
    simpl. rewrite (Hnew _ Hin). apply lookup_lt_Some in Hq. lia.
Qed.

Lemma requestor_phase_ok st st' : sim_ok st → requestor_phase st = Ok st' → sim_ok st'.
Proof.
  intros [Hm Ha] Hp. unfold requestor_phase in Hp. apply bind_Ok in Hp as ([rs m] & Hf & Hp). injection Hp as <-.
  apply (foldM_inv (λ rm, mem_inv rm.2 ∧ accounts rm.1 (mem_ledger rm.2))) in Hf; [done|done|].
  intros i [rs1 m1] [rs2 m2] _ [H1 H2] Hu. by destruct (update_requestor_ok _ _ _ _ _ H1 H2 Hu) as (? & ? & _).
Qed.

(** Requestor [q] has the request answer [a] is for, the [k]-th it has in flight, and the
    callback takes that one out and counts it. *)
Definition finds (a : Request) (rs : list Requestor) (q : Requestor) (k : nat) : Prop :=
  rs !! Z.to_nat (requestorID a) = Some q ∧ rq_id q = requestorID a ∧
  (∃ r, corePendingData q !! k = Some r ∧ address r = address a) ∧
  ∃ q', callback a rs = Ok (<[Z.to_nat (requestorID a) := q']> rs) ∧ corePendingData q' = delete k (corePendingData q) ∧
    completeRequest q' = u64 (completeRequest q + 1).

Lemma account_finds a rs l : accounts rs (key a :: l) → ∃ q k, finds a rs q k.
Proof.
  intros [Hr Hk]. destruct (Hk (key a)) as [H0 Hlt]; [left|]. simpl in H0, Hlt.
  destruct (lookup_lt_is_Some_2 rs (Z.to_nat (requestorID a)) ltac:(lia)) as [q Hq].
  destruct (Hr _ _ Hq) as (Hid & _ & Hacc).
  assert (address a ∈ address <$> corePendingData q) as Hin.
  { rewrite Hacc. unfold of_requestor. rewrite filter_cons_True by (simpl; lia). by left. }
  apply list_elem_of_fmap in Hin as (r & Ea & Hin).
  destruct (list_find_elem_of (λ r, address r = address a) _ r Hin (eq_sym Ea)) as [[k r1] Hf].
  apply list_find_Some in Hf as Hf'. destruct Hf' as (Hk1 & Ea1 & _).
  exists q, k. split; [done|]. split; [lia|]. split; [by exists r1|].
  unfold callback, vec_at. rewrite Hq. cbn [of_option mbind res_bind]. unfold returnData. rewrite bool_decide_eq_false_2 by (intros E; by rewrite E in Hk1).
  rewrite Hf. eexists. split; [done|]. done.
Qed.

(** Every answer that is in the account finds its request. *)
Lemma deliver_ok ans rs l :
  accounts rs ((key <$> ans) ++ l) → ∃ rs', deliver ans rs = Ok rs' ∧ accounts rs' l.
Proof.
  revert rs. induction ans as [|a ans IH]; intros rs Ha; [by exists rs|]. unfold deliver. cbn [foldM].
  change ((key <$> a :: ans) ++ l) with (key a :: ((key <$> ans) ++ l)) in Ha. destruct Ha as [Hr Hk]. destruct (Hk (key a)) as [H0 Hlt]; [left|]. simpl in H0, Hlt.
  set (i := Z.to_nat (requestorID a)). destruct (lookup_lt_is_Some_2 rs i ltac:(lia)) as [q Hq].
  destruct (Hr _ _ Hq) as (Hid & Hok & Hacc). assert (requestorID a = Z.of_nat i) as Ei by lia.
  assert (of_requestor i (key a :: ((key <$> ans) ++ l)) = address a :: of_requestor i ((key <$> ans) ++ l)) as Eo.
  { unfold of_requestor. by rewrite filter_cons_True. }
  rewrite Eo in Hacc. destruct (returnData_ok a q Hok) as (q' & Hret & Hok' & Hid' & Hp); [rewrite Hacc; left|].
  assert (callback a rs = Ok (<[i := q']> rs)) as Hcb by (unfold callback, vec_at, i in *; rewrite Hq; simpl; by rewrite Hret).
  rewrite Hcb. cbn [mbind res_bind].
  apply IH. split.
  - intros j qj Hj. destruct (decide (j = i)) as [->|Hne].
    + rewrite list_lookup_insert_eq in Hj by (by eapply lookup_lt_Some). injection Hj as <-. split; [congruence|]. split; [done|].
      rewrite Hp in Hacc. by apply Permutation_cons_inv in Hacc.
    + rewrite list_lookup_insert_ne in Hj by done. destruct (Hr _ _ Hj) as (? & ? & Hj'). split_and!; [done|done|]. rewrite Hj'.
      unfold of_requestor. rewrite filter_cons_False; [done|]. simpl. lia.
  - intros k Hin. rewrite length_insert. apply Hk. by right.
Qed.

Lemma memory_phase_ok st st' : sim_ok st → memory_phase st = Ok st' → sim_ok st'.
Proof.
  intros [Hm Ha] Hp. unfold memory_phase in Hp. apply bind_Ok in Hp as ([ans m] & Hu & Hp).
  apply bind_Ok in Hp as (rs & Hd & Hp). injection Hp as <-. destruct (mem_update_ledger _ _ _ Hm Hu) as [Hm' El].
  split; [done|]. simpl. destruct (deliver_ok ans (requestors st) (mem_ledger m)) as (rs' & Hd' & Ha').
  - destruct Ha as [H1 H2]. split; [intros i q Hi; rewrite <- El; by apply H1|intros k; rewrite <- El; apply H2].
  - simpl in Hd. congruence.
Qed.

Lemma sim_start_ok files m : mem_inv m → mem_ledger m = [] → sim_ok (sim_start files m).
Proof.
  intros Hm El. split; [done|]. simpl. rewrite El. split; [|by intros k ?%not_elem_of_nil].
  intros i q. rewrite list_lookup_imap. intros (f & _ & ->)%fmap_Some. split; [done|]. split; [apply rq_ok_ctor|done].
Qed.

(** The states a simulation goes through, whether it would stop or not. *)
Inductive sim_reach (st0 : Sim) : Sim → Prop :=
| sreach_start : sim_reach st0 st0
| sreach_cycle st cycles d st' : sim_reach st0 st → sim_cycle cycles st = Ok (d, st') → sim_reach st0 st'.

Lemma sim_reach_ok st0 st : sim_ok st0 → sim_reach st0 st → sim_ok st.
Proof.
  intros H0. induction 1 as [|st cycles d st' _ IH Hc]; [done|]. unfold sim_cycle in Hc.
  apply bind_Ok in Hc as (st1 & H1 & Hc). apply bind_Ok in Hc as (st2 & H2 & Hc). injection Hc as _ <-.
  eapply memory_phase_ok; [|exact H2]. by eapply requestor_phase_ok.
Qed.

Lemma simulate_reach fuel cycles st0 st d st' :
  sim_reach st0 st → simulate fuel cycles st = Ok (d, st') → sim_reach st0 st'.
Proof.
  revert st. induction fuel as [|fuel IH]; intros st Hr Hs; simpl in Hs; [by injection Hs as _ <-|].
  apply bind_Ok in Hs as ([d1 st1] & Hc & Hs). assert (sim_reach st0 st1) by by eapply sreach_cycle.
  destruct d1; simpl in Hs; [by injection Hs as _ <-|by eapply IH].
Qed.

(** C9. In every state of a simulation, the requests a requestor has in flight are
    exactly those of it the memory system has not answered, by their addresses; they
    are as many as it sent and did not get back, at most 33, and at most one when it
    works in order. *)
Theorem simulation_accounts files m st i q :
  mem_inv m → mem_ledger m = [] → sim_reach (sim_start files m) st → requestors st !! i = Some q →
  address <$> corePendingData q ≡ₚ of_requestor i (mem_ledger (memory st)) ∧
  requestRequest q = u64 (completeRequest q + Z.of_nat (length (corePendingData q))) ∧
  (length (corePendingData q) ≤ if inOrder q then 1 else 33)%nat.
Proof.
  intros Hm El Hr Hq. destruct (sim_reach_ok _ _ (sim_start_ok files m Hm El) Hr) as [_ [Ha _]].
  destruct (Ha _ _ Hq) as (_ & [B1 B2 B3 _] & Hacc). split_and!; [done|done|].
  destruct (inOrder q); [|done]. destruct (B2 eq_refl) as [->|[_ ->]]; simpl; lia.
Qed.

(** C8. The callbacks never fail and never miss: whatever the memory system answers in a cycle of
    a simulation, when an answer is delivered, after those in front of it, its requestor exists and has
    a request for its address in flight, which the callback takes out and counts. So the
    abort with "REQUEST NOT FOUND", the null pointer of an unknown requestor and the
    silent return without a request are never reached. *)
Theorem answers_find_requests files m st st1 ans m' :
  mem_inv m → mem_ledger m = [] → sim_reach (sim_start files m) st →
  requestor_phase st = Ok st1 → mem_update (memory st1) = Ok (ans, m') →
  (∃ st2, memory_phase st1 = Ok st2) ∧
  ∀ ans1 a ans2, ans = ans1 ++ a :: ans2 → ∃ rs q k, deliver ans1 (requestors st1) = Ok rs ∧ finds a rs q k.
Proof.
  intros Hm El Hr Hp Hu. pose proof (sim_reach_ok _ _ (sim_start_ok files m Hm El) Hr) as Hok.
  destruct (requestor_phase_ok _ _ Hok Hp) as [Hm1 [H1 H2]]. destruct (mem_update_ledger _ _ _ Hm1 Hu) as [_ El1].
  assert (accounts (requestors st1) ((key <$> ans) ++ mem_ledger m')) as Hacc.
  { split; [intros i q Hi; rewrite <- El1; by apply H1|intros k; rewrite <- El1; apply H2]. }
  split.
  - destruct (deliver_ok _ _ _ Hacc) as (rs & Hd & _). eexists. unfold memory_phase. rewrite Hu. cbn [mbind res_bind fst snd].
    rewrite Hd. reflexivity.
  - intros ans1 a ans2 ->. rewrite fmap_app, <- app_assoc in Hacc. destruct (deliver_ok _ _ _ Hacc) as (rs & Hd & Hrs).
    destruct (account_finds a rs _ Hrs) as (q & k & Hf). by exists rs, q, k.
Qed.
End simulation.

(** ** Witnesses: a read and a write of requestor 0 in front of two DDR3 channels *)
#[local] Existing Instance Open_generator.
#[local] Existing Instance CmdAlgos.FRFCFS.scheduling.
#[local] Existing Instance CmdAlgos.FRFCFS.algorithm.
#[local] Existing Instance ReqSched.FRFCFS.
#[local] Instance wit_memory : Memory (MultiChannel unit unit Device) := MultiChannel_memory 0 1.
#[local] Instance wit_memory_laws : MemoryLaws (MultiChannel unit unit Device) := MultiChannel_laws 0 1.

Definition wit_files : list (option string) := [Some ("0x4b40 READ 0" +:+ String newline "0x4b40 WRITE 5")%string; None].
Definition wit_sim0 : Sim := sim_start wit_files wit_x0.
Abbreviation wit_cycle := (sim_cycle (λ x : Z, x) 0 0).
Definition wit_sim (k : nat) : Sim :=
  Nat.iter k (λ st, match wit_cycle st with Ok (_, st') => st' | Err _ => st end) wit_sim0.

Lemma wit_sim_reach k :
  forallb (λ j, is_Ok (wit_cycle (wit_sim j))) (seq 0 k) = true → sim_reach (λ x, x) 0 wit_sim0 (wit_sim k).
Proof.
  induction k as [|k IH]; intros Hk; [constructor|]. rewrite seq_S, forallb_app in Hk.
  apply andb_true_iff in Hk as [Hk Hl]. specialize (IH Hk). simpl in Hl. rewrite andb_true_r in Hl.
  change (wit_sim (S k)) with (match wit_cycle (wit_sim k) with Ok (_, st') => st' | Err _ => wit_sim k end).
  destruct (wit_cycle (wit_sim k)) as [[d st']|] eqn:E; [by eapply sreach_cycle|done].
Qed.

Lemma wit_memory_empty : mem_inv wit_x0 ∧ mem_ledger wit_x0 = [].
Proof.
  split; [|vm_compute; reflexivity].
  assert (ledger_ok (memoryController wit_m0)) as Hok by (by apply ledger_ok_empty).
  constructor; [exact Hok|constructor; [exact Hok|constructor]].
Qed.

(** A single request in flight at an index, from the computed list. *)
Lemma one_in_flight (rs : list Requestor) i a :
  match rs !! i with Some q => bool_decide (address <$> corePendingData q = [a]) | None => false end = true →
  ∃ q, rs !! i = Some q ∧ address <$> corePendingData q = [a].
Proof. destruct (rs !! i) as [q|]; [intros ?%bool_decide_eq_true_1; by exists q|done]. Qed.

Lemma simulation_accounts_witness :
  [0x4b40] ≡ₚ of_requestor 0 (mem_ledger (memory (wit_sim 10))).
Proof.
  destruct (one_in_flight (requestors (wit_sim 10)) 0 0x4b40) as (q & Hq & E); [vm_compute; reflexivity|].
  rewrite <- E. apply (simulation_accounts (λ x, x) 0 wit_files wit_x0 (wit_sim 10) 0 q).
  - exact (proj1 wit_memory_empty).
  - exact (proj2 wit_memory_empty).
  - apply wit_sim_reach. vm_compute. reflexivity.
  - exact Hq.
Defined.

(** In the 26th cycle the read is answered. *)
Lemma one_answer (r : res (Sim (M := MultiChannel unit unit Device))) :
  match (st1 ← r; mem_update (memory st1)) with Ok ([a], _) => true | _ => false end = true →
  ∃ st1 a m', r = Ok st1 ∧ mem_update (memory st1) = Ok ([a], m').
Proof.
  destruct r as [st1|e]; cbn [mbind res_bind]; [|discriminate].
  destruct (mem_update (memory st1)) as [[[|a [|b l]] m']|e] eqn:E; intros Hone; try discriminate Hone.
  by exists st1, a, m'.
Qed.

Lemma answers_find_requests_witness :
  ∃ st1 a m', requestor_phase (λ x, x) 0 (wit_sim 25) = Ok st1 ∧ mem_update (memory st1) = Ok ([a], m') ∧
  ∃ rs q k, deliver [] (requestors st1) = Ok rs ∧ finds a rs q k.
Proof.
  destruct (one_answer (requestor_phase (λ x, x) 0 (wit_sim 25))) as (st1 & a & m' & H1 & H2);
    [vm_compute; reflexivity|].
  exists st1, a, m'. split; [exact H1|]. split; [exact H2|].
  apply (answers_find_requests (λ x, x) 0 wit_files wit_x0 (wit_sim 25) st1 [a] m') with (ans2 := []).
  - exact (proj1 wit_memory_empty).
  - exact (proj2 wit_memory_empty).
  - apply wit_sim_reach. vm_compute. reflexivity.
  - exact H1.
  - exact H2.
  - reflexivity.
Defined.
