(* ===== verification/Register.v ===== *)
(** * The register of schedulers

    [SchedulerRegister] (src/src/SchedulerRegister.h) makes one object of every
    algorithm and finds them by the names a configuration file gives;
    [connectMemoryDevice] (src/src/MemoryController.cpp) builds the register and takes its
    three schedulers from it. An entry packs the type of the algorithm's state, the
    instance that runs it and the state its constructor makes.

    Main results: a system built from the names of a configuration keeps the timing of
    its device, for every command scheduler but [MAG], when the command queues have the
    shape the scheduler is written for (Shipped.v: the shipped configurations do); and
    the register of a system with more than 36 requestors is not built, whichever
    schedulers it is to use. *)
From Stdlib Require Import QArith String.
From S2P Require Import Prelude Types KeyedBuf AddrMap ReqQueue CmdQueue CmdGen DRAM DDR3 Device Refresh CmdSched CmdAlg CmdAlgos Pool FifoAlgos BundleAlgos PipeAlgo RocAlgo RoundAlgo MagAlgo ReqSched BatchAlgos SlotAlgos Config Controller System DDR3System Liveness.
#[local] Open Scope Z_scope.

(** What the source leaves to its environment: the members the constructors of the
    algorithms do not set, and the room the allocator leaves behind a request. *)
Record Unset := mkUnset {
  un_numIndex : nat;
  un_switch_enable : bool;
  un_MCMC : Z;
  un_srtRD : Z;
  un_srtWR : Z;
  un_l2_PAindex : nat;
  un_l2_CASindex : nat;
  un_timing : RocAlgo.timings;
  un_servicebuffer : list Z;
  un_consideredScheduled : list Z;
  un_countACT : Z;
  un_blockACT : bool;
  un_jump : bool;
  un_room : nat;
}.

Record RequestChoice := mkRequest {
  rc_state : Type;
  rc_scheduling : CommandGenerator → RequestScheduling rc_state;
  rc_init : rc_state;
}.

Record GeneratorChoice := mkGeneratorChoice {
  gc_class : CommandGenerator;
  gc_init : Generator;
}.

(** [find] in one of the tables; the keys are distinct. *)
Fixpoint find_name {V} (name : string) (l : list (string * V)) : option V :=
  match l with
  | [] => None
  | (k, v) :: l => if bool_decide (k = name) then Some v else find_name name l
  end.

Section register.
Context {Dev : Type} `{MemoryDevice Dev}.

Record CommandChoice := mkCommand {
  cc_state : Type;
  cc_scheduling : CommandScheduling Dev cc_state;
  cc_init : cc_state;
}.

Record SchedulerRegister := mkRegister {
  requestSchedulerTable : list (string * RequestChoice);
  commandGeneratorTable : list (string * GeneratorChoice);
  commandSchedulerTable : list (string * CommandChoice);
}.

(** The request schedulers; that of [BLISS] is already made. *)
Definition request_table (u : Unset) (bliss : BLISS.BLISS) (dataBus : Z) (queues : list RequestQueue)
    : list (string * RequestChoice) := [
  ("DIRECT", mkRequest (list nat) (@Direct) ((λ _, 0%nat) <$> queues));
  ("RR", mkRequest RR.RR (@RR_scheduling) (RR.ctor queues));
  ("FCFS", mkRequest nat (@ReqSched.FCFS) (un_numIndex u));
  ("FRFCFS", mkRequest unit (@ReqSched.FRFCFS) tt);
  ("FRFCFS_Batching", mkRequest bool (@Batching_scheduling) (un_switch_enable u));
  ("BLISS", mkRequest BLISS.BLISS (@BLISS_scheduling) bliss);
  ("PARBS", mkRequest PARBS.PARBS (@PARBS_scheduling) PARBS.ctor);
  ("RTMem", mkRequest RR.RR (@RTMem_scheduling) (RR.ctor queues));
  ("PMC", mkRequest PMC.PMC (@PMC_scheduling) PMC.ctor);
  ("MCMC", mkRequest SlotAlgos.MCMC.MCMC (λ G, @MCMC_scheduling G (un_MCMC u)) (SlotAlgos.MCMC.ctor dataBus));
  ("MEDUSA", mkRequest (list nat) (@MEDUSA_scheduling) ((λ _, 0%nat) <$> queues))]%string.

Definition generator_table (dataBus : Z) (table : gmap Z bool) : list (string * GeneratorChoice) := [
  ("OPEN", mkGeneratorChoice Open_generator (CommandGenerator_ctor dataBus));
  ("ROUND", mkGeneratorChoice Round_generator (CommandGenerator_ctor dataBus));
  ("CLOSE", mkGeneratorChoice Close_generator (Close.ctor dataBus));
  ("MCMC", mkGeneratorChoice MCMC_generator (CmdGen.MCMC.ctor dataBus));
  ("PipeCAS", mkGeneratorChoice (PipeCAS_generator table) (CmdGen.PipeCAS.ctor dataBus))]%string.

Definition command_table (u : Unset) (queues : list CommandQueue) : list (string * CommandChoice) := [
  ("RTMem", mkCommand unit CmdAlgos.RTMem.scheduling tt);
  ("Round", mkCommand RoundAlgo.Round RoundAlgo.scheduling 
     (RoundAlgo.ctor (un_servicebuffer u) (un_consideredScheduled u) (un_countACT u) (un_blockACT u) (un_jump u)));
  ("FRFCFS", mkCommand unit CmdAlgos.FRFCFS.scheduling tt);
  ("ORP", mkCommand ORP.ORP ORP.scheduling ORP.ctor);
  ("DCmc", mkCommand DCmc.DCmc DCmc.scheduling (DCmc.ctor queues));
  ("MAG", mkCommand MagAlgo.MAG MagAlgo.scheduling (MagAlgo.ctor queues));
  ("ReOrder", mkCommand ReOrder.ReOrder ReOrder.scheduling (ReOrder.ctor queues));
  ("ROC", mkCommand RocAlgo.ROC RocAlgo.scheduling (RocAlgo.ctor (un_l2_PAindex u) (un_l2_CASindex u) (un_timing u)));
  ("FCFS", mkCommand unit CmdAlgos.FCFS.scheduling tt);
  ("PUSH", mkCommand unit CmdAlgos.PUSH.scheduling tt);
  ("PipeCAS", mkCommand PipeAlgo.PIPECAS PipeAlgo.scheduling (PipeAlgo.ctor (un_srtRD u) (un_srtWR u) queues));
  ("rankReOrder", mkCommand RankReOrder.RankReOrder RankReOrder.scheduling (RankReOrder.ctor queues))]%string.

(** The constructor. The blacklist of [BLISS] has 36 entries. *)
Definition SchedulerRegister_ctor (u : Unset) (dataBus : Z) (table : gmap Z bool) (requestQueues : list RequestQueue)
    (commandQueues : list CommandQueue) : res SchedulerRegister :=
  bliss ← BLISS.ctor table;
  Ok (mkRegister (request_table u bliss dataBus requestQueues) (generator_table dataBus table)
        (command_table u commandQueues)).

Definition getRequestScheduler (name : string) (r : SchedulerRegister) : res RequestChoice :=
  of_option Abort (find_name name (requestSchedulerTable r)).
Definition getCommandGenerator (name : string) (r : SchedulerRegister) : res GeneratorChoice :=
  of_option Abort (find_name name (commandGeneratorTable r)).
Definition getCommandScheduler (name : string) (r : SchedulerRegister) : res CommandChoice :=
  of_option Abort (find_name name (commandSchedulerTable r)).

(** A controller with the algorithms it was given. *)
Record Built := mkBuilt {
  bt_request : RequestChoice;
  bt_generator : GeneratorChoice;
  bt_command : CommandChoice;
  bt_controller : Controller (rc_state bt_request) (cc_state bt_command) Dev;
}.

(** [configTable[key]]. *)
Definition config_name (key : string) (cfg : Config) : string := default EmptyString (configTable cfg !! key).

(** [connectMemoryDevice] with the register; the arguments are those of
    [Controller.connectMemoryDevice]. *)
Definition connect_registered (u : Unset) (callback : bool) (cfg : Config) (mode : privatization)
    (numberRequestors : nat) (g : Z) (b : bool) (dev : Dev) : res Built :=
  let table := [get_Rank dev; get_BankGroup dev; get_Bank dev; g; u32 (get_Row dev); u32 (get_Column dev)] in
  let criticality := list_to_map ((λ id, (Z.of_nat id, true)) <$> seq 0 numberRequestors) in
  nr ← queueNumber table (reqMap cfg);
  nc ← queueNumber table (cmdMap cfg);
  let reqQ := replicate (Z.to_nat nr) (RequestQueue_ctor (requestorReqQ cfg) (writeQueueEnabled cfg)) in
  let cmdQ := replicate (Z.to_nat nc) (CommandQueue_ctor (requestorCmdQ cfg)) in
  reg ← SchedulerRegister_ctor u (get_DataBus dev) criticality reqQ cmdQ;
  format ← AddressMapping_ctor (String.list_ascii_of_string (config_name "AddressMapping" cfg)) table;
  rs ← getRequestScheduler (config_name "RequestScheduler" cfg) reg;
  gn ← getCommandGenerator (config_name "CommandGenerator" cfg) reg;
  cs ← getCommandScheduler (config_name "CommandScheduler" cfg) reg;
  Ok (mkBuilt rs gn cs
        (mkController (mkSetup table (get_DataBus dev) format mode cfg callback (un_room u)) 0
           (RequestScheduler_ctor b reqQ (gc_init gn)) (rc_init rs)
           (CommandScheduler_ctor b g cmdQ criticality dev) (cc_init cs)
           [] [] [] [] ∅ Statistics_ctor)).
End register.

(** The shape of the command queues each command scheduler is written for: whether
    they keep the requestors apart, and how many there are. *)
Definition suits (name : string) (perRequestor : bool) (queues : nat) : bool :=
  if bool_decide (name ∈ ["RTMem"; "ReOrder"; "DCmc"; "PipeCAS"; "rankReOrder"]%string) then negb perRequestor
  else if bool_decide (name ∈ ["FCFS"; "PUSH"]%string) then negb perRequestor && (0 <? queues)%nat
  else if bool_decide (name ∈ ["ROC"; "Round"]%string) then perRequestor && (queues <=? 1)%nat
  else if bool_decide (name = "ORP"%string) then perRequestor
  else bool_decide (name = "FRFCFS"%string).

(** The two that take the number of a bank for that of its queue have to find them so. *)
Definition routes (name : string) (cmdMap : list Z) : bool :=
  bool_decide (name ∉ ["RTMem"; "ReOrder"]%string) || bool_decide (cmdMap = [0; 0; 1; 0]).

(** ** What the register gives *)
Lemma find_name_in {V} name (l : list (string * V)) v : find_name name l = Some v → (name, v) ∈ l.
Proof.
  induction l as [|[k w] l IH]; [done|]. simpl. case_bool_decide as E.
  - intros [= ->]. subst k. by left.
  - intros Hf. right. by apply IH.
Qed.

Lemma find_name_some {V} name (l : list (string * V)) :
  is_Ok (of_option Abort (find_name name l)) = bool_decide (name ∈ l.*1).
Proof.
  induction l as [|[k v] l IH]; [done|]. simpl. destruct (decide (k = name)) as [->|E].
  - rewrite bool_decide_true by done. symmetry. apply bool_decide_eq_true_2. by left.
  - rewrite (bool_decide_false (k = name)) by done. rewrite IH. apply bool_decide_ext. rewrite elem_of_cons. intuition congruence.
Qed.

(** The blacklist has room for requestor [p] when [p] is below its length. *)
Lemma clear_range n k (bl : list (option Z)) :
  (k ≤ length bl)%nat →
  match foldM (seq k n) bl (λ p bl, vec_set bl p (Some 0)) with
  | Ok _ => (k + n ≤ length bl)%nat
  | Err e => e = Undefined ∧ (length bl < k + n)%nat
  end.
Proof.
  revert k bl. induction n as [|n IH]; intros k bl Hk; simpl; [lia|].
  destruct (vec_set bl k (Some 0)) as [bl'|e] eqn:E; unfold vec_set in E; case_decide as Hlt; simplify_eq; simpl.
  - specialize (IH (S k) (<[k:=Some 0]> bl)). rewrite length_insert in IH. specialize (IH Hlt).
    destruct (foldM _ _ _); [lia|]. destruct IH; split; [done|lia].
  - split; [done|lia].
Qed.

Section starts.
Context {Dev : Type} `{MemoryDevice Dev}.
Implicit Types (dev : Dev) (s : CommandScheduler Dev).

(** The scheduler [connectMemoryDevice] makes, with [n] queues. *)
Definition fresh_scheduler (b : bool) (g : Z) (n : nat) (per : bool) (table : gmap Z bool) dev : CommandScheduler Dev :=
  CommandScheduler_ctor b g (replicate n (CommandQueue_ctor per)) table dev.

Lemma fresh_kinds b g n per table dev :
  Forall (λ k, k = per) (kinds (commandQueues (fresh_scheduler b g n per table dev))).
Proof. unfold kinds. apply Forall_fmap. simpl. by apply Forall_replicate. Qed.

Lemma fresh_pool {K} (key : BusPacket * nat → K) marked pool b g n per table dev :
  pool = [] → pool_inv key per marked pool (fresh_scheduler b g n per table dev).
Proof. intros ->. split; [apply fresh_kinds|constructor|by intros ci ?%not_elem_of_nil]. Qed.

Lemma fresh_length b g n per table dev : length (commandQueues (fresh_scheduler b g n per table dev)) = n.
Proof. simpl. apply length_replicate. Qed.

Lemma fresh_banked b g n per table dev : per = false → CmdAlgos.RTMem.inv tt (fresh_scheduler b g n per table dev).
Proof.
  intros ->. split; [apply fresh_kinds|]. intros i q c Hq Hc. apply lookup_replicate in Hq as [-> _].
  by apply not_elem_of_nil in Hc.
Qed.

(** With empty queues, no timer is set and no refresh is due. *)
Lemma fresh_initial {A} `{!CommandScheduling Dev A, !CommandAlgorithm Dev A} (a : A) b g n per table dev :
  u32 (getTiming "tREFI" dev / 8) ≠ 0 → alg_inv a (fresh_scheduler b g n per table dev) →
  initial a (fresh_scheduler b g n per table dev).
Proof.
  intros Ht Ha. split; [done|by intros ts [-> _]%elem_of_replicate|by split_and!| |exact Ha].
  apply Forall_replicate, CommandQueue_ctor_wf.
Qed.

(** The algorithms find in their queues what they are written for, and accept what
    the controller puts there. *)
Lemma registered_inv u b g n per table dev name c :
  find_name name (command_table u (replicate n (CommandQueue_ctor per))) = Some c → suits name per n = true →
  ∃ Alg : @CommandAlgorithm Dev (cc_state c) _ (cc_scheduling c),
    @alg_inv _ _ _ _ Alg (cc_init c) (fresh_scheduler b g n per table dev) ∧
    ∀ i p, (name ∈ ["RTMem"; "ReOrder"]%string → CmdAlgos.RTMem.accepts i p) → @alg_accepts _ _ _ _ Alg i p.
Proof.
  intros Hf%find_name_in Hs. unfold command_table in Hf.
  repeat (apply elem_of_cons in Hf as [[= -> ->]|Hf]); [..|by apply not_elem_of_nil in Hf];
    cbn in Hs; try discriminate Hs.
  - exists CmdAlgos.RTMem.algorithm. split; [apply fresh_banked; by destruct per|]. intros i p Hp. apply Hp. by left.
  - apply andb_prop in Hs as [-> Hn%Nat.leb_le]. exists RoundAlgo.algorithm. split; [|done].
    split; [by rewrite fresh_length|]. split; [done|by apply fresh_pool].
  - by exists CmdAlgos.FRFCFS.algorithm.
  - destruct per; [|done]. exists ORP.algorithm. split; [|done]. split; [done|by apply fresh_pool].
  - destruct per; [done|]. exists DCmc.algorithm. split; [by apply fresh_pool|done].
  - destruct per; [done|]. exists ReOrder.algorithm. split; [split; [by apply fresh_banked|by apply fresh_pool]|].
    intros i p Hp. apply Hp. right. by left.
  - apply andb_prop in Hs as [-> Hn%Nat.leb_le]. exists RocAlgo.algorithm. split; [|done].
    split; [by rewrite fresh_length|by apply fresh_pool].
  - apply andb_prop in Hs as [Hp Hn%Nat.ltb_lt]. destruct per; [done|]. exists CmdAlgos.FCFS.algorithm. split; [|done].
    split; [apply fresh_kinds|by destruct n; [lia|]].
  - apply andb_prop in Hs as [Hp Hn%Nat.ltb_lt]. destruct per; [done|]. exists CmdAlgos.PUSH.algorithm. split; [|done].
    split; [apply fresh_kinds|by destruct n; [lia|]].
  - destruct per; [done|]. exists PipeAlgo.algorithm. split; [by apply fresh_pool|done].
  - destruct per; [done|]. exists RankReOrder.algorithm. split; [|done]. apply RankReOrder.RankReOrder_ctor_inv, fresh_kinds.
Qed.

(** Command queues by banks: a command is in the queue of its bank. *)
Lemma banks_accepts mt p t i :
  decodeQueue mt [0; 0; bp_bank p; bp_subArray p] [0; 0; 1; 0] = Ok i → CmdAlgos.RTMem.accepts (Z.to_nat i) (stamp t p).
Proof.
  unfold decodeQueue, CmdAlgos.RTMem.accepts, CmdAlgos.RTMem.index_of. intros Hd. simpl in Hd.
  apply bind_Ok in Hd as (m & _ & [= <-]). rewrite Z.mul_0_l, (u32_small 0), Z.add_0_r by lia. done.
Qed.

(** What [connect_registered] leaves. *)
Lemma built_initial u callback cfg mode reqs g b dev bt :
  connect_registered u callback cfg mode reqs g b dev = Ok bt →
  u32 (getTiming "tREFI" dev / 8) ≠ 0 →
  suits (config_name "CommandScheduler" cfg) (requestorCmdQ cfg)
    (length (commandQueues (commandScheduler (bt_controller bt)))) = true →
  routes (config_name "CommandScheduler" cfg) (cmdMap cfg) = true →
  memoryDevice (commandScheduler (bt_controller bt)) = dev ∧ sendDataBuffer (bt_controller bt) = [] ∧
  ∃ Alg : @CommandAlgorithm Dev (cc_state (bt_command bt)) _ (cc_scheduling (bt_command bt)),
    @initial _ _ _ _ Alg (commandState (bt_controller bt)) (commandScheduler (bt_controller bt)) ∧
    @routed _ Dev _ (cc_scheduling (bt_command bt)) Alg (mc_setup (bt_controller bt)).
Proof.
  unfold connect_registered. intros Hc Ht Hs Hroutes.
  apply bind_Ok in Hc as (nr & _ & Hc). apply bind_Ok in Hc as (nc & _ & Hc).
  apply bind_Ok in Hc as (reg & Hr & Hc). apply bind_Ok in Hc as (format & _ & Hc).
  apply bind_Ok in Hc as (rs & _ & Hc). apply bind_Ok in Hc as (gn & _ & Hc).
  apply bind_Ok in Hc as (cs & Hcs & Hc). injection Hc as <-. cbn in Hs |- *. rewrite length_replicate in Hs.
  unfold SchedulerRegister_ctor in Hr. apply bind_Ok in Hr as (bliss & _ & Hr). injection Hr as <-.
  unfold getCommandScheduler in Hcs. cbn [commandSchedulerTable] in Hcs.
  destruct (find_name _ _) as [c|] eqn:Hf; [|done]. injection Hcs as ->. split; [done|]. split; [done|].
  eapply registered_inv in Hf as (Alg & Ha & Hacc); [|exact Hs]. exists Alg. split; [by apply fresh_initial|].
  intros t p i Hi. apply Hacc. intros Hname. cbn in Hi. unfold routes in Hroutes.
  apply orb_prop in Hroutes as [Hno%bool_decide_eq_true|Hmap%bool_decide_eq_true]; [done|].
  rewrite Hmap in Hi. by eapply banks_accepts.
Qed.

(** The register makes every algorithm: with more than 36 requestors the
    constructor of [BLISS] leaves its blacklist, whatever the configuration names;
    with at most 36 and the names of the tables, the lookups succeed. *)
Theorem register_capacity u dataBus table requestQueues commandQueues :
  match @SchedulerRegister_ctor Dev _ u dataBus table requestQueues commandQueues with
  | Ok r =>
      (size table ≤ 36)%nat ∧
      (∀ name, is_Ok (getRequestScheduler name r) = bool_decide (name ∈ ["DIRECT"; "RR"; "FCFS"; "FRFCFS";
         "FRFCFS_Batching"; "BLISS"; "PARBS"; "RTMem"; "PMC"; "MCMC"; "MEDUSA"]%string)) ∧
      (∀ name, is_Ok (getCommandGenerator name r) =
         bool_decide (name ∈ ["OPEN"; "ROUND"; "CLOSE"; "MCMC"; "PipeCAS"]%string)) ∧
      (∀ name, is_Ok (getCommandScheduler name r) = bool_decide (name ∈ ["RTMem"; "Round"; "FRFCFS"; "ORP"; "DCmc";
         "MAG"; "ReOrder"; "ROC"; "FCFS"; "PUSH"; "PipeCAS"; "rankReOrder"]%string))
  | Err e => e = Undefined ∧ (36 < size table)%nat
  end.
Proof.
  unfold SchedulerRegister_ctor, BLISS.ctor, BLISS.clear.
  pose proof (clear_range (size table) 0 (replicate 36 None) (Nat.le_0_l _)) as Hc. rewrite length_replicate in Hc.
  destruct (foldM _ _ _) as [bl|e]; [|exact Hc]. cbn [mbind res_bind]. split; [exact Hc|].
  split_and!; intros name.
  - exact (find_name_some name (request_table u _ dataBus requestQueues)).
  - exact (find_name_some name (generator_table dataBus table)).
  - exact (find_name_some name (command_table u commandQueues)).
Qed.
End starts.

(** ** What a system that was built does *)

(** The runs of the memory system around a controller that was built. *)
Definition built_run {Dev} `{MemoryDevice Dev} (bt : Built (Dev := Dev)) (evs : list event)
    (m : MemorySystem (rc_state (bt_request bt)) (cc_state (bt_command bt)) Dev) : Prop :=
  @sys_run _ _ Dev (rc_scheduling (bt_request bt) (gc_class (bt_generator bt))) _
    (cc_scheduling (bt_command bt)) (mkSystem (bt_controller bt) 0) evs m.

(** What a caller does with one: requests, flushes and cycles. *)
Definition run_built (bt : Built (Dev := Device)) (ops : list op) :
    res (list event * MemorySystem (rc_state (bt_request bt)) (cc_state (bt_command bt)) Device) :=
  @run_ops _ _ Device (rc_scheduling (bt_request bt) (gc_class (bt_generator bt))) _
    (cc_scheduling (bt_command bt)) ops ([], mkSystem (bt_controller bt) 0).

Lemma run_built_run bt ops evs m : run_built bt ops = Ok (evs, m) → built_run bt evs m.
Proof.
  intros Hr. unfold built_run. eapply (run_ops_sys_run _ ops ([], _) (evs, m)); [|exact Hr]. constructor.
Qed.

Section built.
Context {T : Type} {R : Ramulator T}.
#[local] Existing Instance rm_standard.
#[local] Abbreviation Dev := (RamulatorDevice T).

(** A device just made, that still counts to a refresh. *)
Record new_device (dev : Dev) : Prop := {
  nd_fresh : @fresh _ (rm_spec (dev_spec dev)) (channel dev);
  nd_level : level (channel dev) = Channel_level;
  nd_post : postBuffer dev = [];
  nd_clock : clockCycle dev = 0;
  nd_refresh : u32 (getTiming "tREFI" dev / 8) ≠ 0;
}.

Lemma built_keeps_timing u callback cfg mode reqs g b (dev : Dev) bt evs m :
  connect_registered u callback cfg mode reqs g b dev = Ok bt → new_device dev →
  suits (config_name "CommandScheduler" cfg) (requestorCmdQ cfg)
    (length (commandQueues (commandScheduler (bt_controller bt)))) = true →
  routes (config_name "CommandScheduler" cfg) (cmdMap cfg) = true →
  built_run bt evs m → cycles evs < 2 ^ 32 → none_posted evs → timing_kept dev evs.
Proof.
  intros Hc [D1 D2 D3 D4 D5] Hs Hroutes Hrun Hn Hpost.
  destruct (built_initial _ _ _ _ _ _ _ _ _ Hc D5 Hs Hroutes) as (Ed & Es & Alg & Hin & Hroute).
  pose proof (@run_keeps_timing T R _ _ (rc_scheduling (bt_request bt) (gc_class (bt_generator bt))) (cc_scheduling (bt_command bt)) Alg (mkSystem (bt_controller bt) 0) evs m) as H.
  cbn [memoryController] in H. rewrite Ed in H. apply H; try done; [by rewrite D4|lia].
Qed.

End built.

(** ** A concrete register *)
Definition wit_unset : Unset := mkUnset 0 false 0 0 0 0 0 (RocAlgo.mkTimings 0 0 0 0) (replicate 16 0) (replicate 16 0) 0 false false 2.

Lemma wit_new_device : new_device wit_dev0.
Proof.
  split.
  - exact DDR3.wit_fresh.
  - vm_compute. reflexivity.
  - vm_compute. reflexivity.
  - vm_compute. reflexivity.
  - vm_compute. discriminate.
Qed.


(** 37 requestors. *)
Example too_many_requestors :
  is_Ok (connect_registered wit_unset true wit_cfg Interleaved 36 0 true wit_dev0) = true ∧
  is_Ok (connect_registered wit_unset true wit_cfg Interleaved 37 0 true wit_dev0) = false.
Proof. split; vm_compute; reflexivity. Qed.
