(* ===== verification/Configured.v ===== *)
(** * Every request of a configured system is answered

    The theorems of Liveness.v for the systems the simulator makes from names: the
    device of [MemorySystem] (src/src/MemorySystem.cpp, DeviceChoice.v) and the
    controller of [connectMemoryDevice] (src/src/MemoryController.cpp, Register.v). Every
    device of one rank of DDR3 is a [plain_device], whatever the names, and a
    configuration like FCFS.ini or FRFCFS.ini is a [plain_config]; of these two the
    register makes a [Phases.plain_system].

    Not covered: posted commands, several ranks, queues by requestors and write
    queues, and the schedulers that wait for slots, batches or rounds. *)
From Stdlib Require Import QArith String Ascii.
From S2P Require Import Prelude Types KeyedBuf AddrMap ReqQueue CmdQueue CmdGen ReqSched Prompt DRAM DDR3 Device DeviceChoice Refresh CmdSched CmdAlg CmdAlgos Progress BatchAlgos Config Controller Ledger Flow Leaves System DDR3System Phases Liveness Register.
#[local] Open Scope Z_scope.

(** ** The devices *)

(** One rank of a device with eight banks. *)
Record plain_device (sp : DDR3.t) (d : Device) : Prop := {
  pd_made : Ramulator_ctor sp 1 = Ok d;
  pd_banks : banks_of sp = 8;
  pd_levels : get_Rank d = 1 ∧ get_BankGroup d = 1 ∧ get_Bank d = 8;
  pd_rows : u32 (get_Row d) ≤ 2 ^ 31;
  pd_columns : u32 (get_Column d) ≤ 2 ^ 31;
  pd_latency : 0 < latency d;
  pd_bus : 0 < get_DataBus d;
  pd_refresh : u32 (getTiming "tREFI" d / 8) ≠ 0;
}.

Definition device_test (org : DDR3.Org) (speed : DDR3.Speed) : bool :=
  match DDR3.ctor org speed with
  | Ok sp =>
      match Ramulator_ctor sp 1 with
      | Ok d => (banks_of sp =? 8) && (get_Rank d =? 1) && (get_BankGroup d =? 1) && (get_Bank d =? 8) &&
          (u32 (get_Row d) <=? 2 ^ 31) && (u32 (get_Column d) <=? 2 ^ 31) && (0 <? latency d) && (0 <? get_DataBus d) &&
          negb (u32 (getTiming "tREFI" d / 8) =? 0)
      | Err _ => false
      end
  | Err _ => false
  end.

Lemma device_test_all org speed : device_test org speed = true.
Proof. destruct org, speed; vm_compute; reflexivity. Qed.

Lemma device_test_plain org speed :
  ∃ sp d, DDR3.ctor org speed = Ok sp ∧ Ramulator_ctor sp 1 = Ok d ∧ plain_device sp d.
Proof.
  pose proof (device_test_all org speed) as H. unfold device_test in H.
  destruct (DDR3.ctor org speed) as [sp|]; [|done]. destruct (Ramulator_ctor sp 1) as [d|] eqn:Hd; [|done].
  rewrite !andb_true_iff, negb_true_iff, !Z.eqb_eq, !Z.leb_le, !Z.ltb_lt, Z.eqb_neq in H.
  exists sp, d. split_and!; [done|done|]. destruct H as [[[[[[[[? ?] ?] ?] ?] ?] ?] ?] ?]. by split.
Qed.

(** Whatever names are asked for. *)
Lemma made_plain speed size : ∃ sp d, make_device "DDR3" speed size 1 = Ok (device_DDR3 d) ∧ plain_device sp d.
Proof.
  unfold make_device, DDR3_of_names. rewrite bool_decide_true by done. cbv zeta.
  destruct (device_test_plain (index_map DDR3.DDR3_512Mb_x4 DDR3_org_map ("DDR3_" +:+ size)%string)
    (index_map DDR3.DDR3_800D DDR3_speed_map ("DDR3_" +:+ speed)%string)) as (sp & d & Hs & Hd & Hp).
  exists sp, d. split; [|done]. change ("DDR3" +:+ "_" +:+ size)%string with ("DDR3_" +:+ size)%string.
  change ("DDR3" +:+ "_" +:+ speed)%string with ("DDR3_" +:+ speed)%string. rewrite Hs. cbn [mbind res_bind]. rewrite Hd. done.
Qed.

(** ** The configurations *)

(** One request queue, a command queue per bank, none of them by requestors or for
    writes, an address format with every level once, and schedulers that do not wait. *)
Record plain_config (cfg : Config) : Prop := {
  pc_format : ∃ ms, NoDup ms ∧ (∀ m, m ∈ ms) ∧ list_ascii_of_string (config_name "AddressMapping" cfg) = level_digit <$> ms;
  pc_requests : queue_level (reqMap cfg) = None ∧ requestorReqQ cfg = false ∧ writeQueueEnabled cfg = false;
  pc_commands : cmdMap cfg = [0; 0; 1; 0] ∧ requestorCmdQ cfg = false;
  pc_request : config_name "RequestScheduler" cfg ∈ ["DIRECT"; "FCFS"; "FRFCFS"]%string;
  pc_generator : config_name "CommandGenerator" cfg = "OPEN"%string;
  pc_command : config_name "CommandScheduler" cfg ∈ ["FRFCFS"; "PUSH"]%string;
}.

(** The operations of a caller: requestors that are connected ask for as many bytes as
    a number of data. *)
Definition op_fits (reqs : nat) (d : Device) (o : op) : Prop :=
  match o with
  | Add _ id _ _ size => 0 ≤ id < Z.of_nat reqs ∧ ∃ k, 1 ≤ k ∧ size = get_DataBus d * k ∧ size < 2 ^ 32
  | _ => True
  end.

(** The cycles after which the answers have come. *)
Definition answer_bound (d : Device) (ops : list op) : nat :=
  load (get_DataBus d) ops * (Z.to_nat (longest_wait (DDR3.speed_entry (dev_spec d))) + 2) +
  Z.to_nat (Z.max (write_latency d) (latency d)).

(** The organisation [memTable] holds, with the entry that is not set. *)
Definition table_of (d : Device) (g : Z) : list Z :=
  [get_Rank d; get_BankGroup d; get_Bank d; g; u32 (get_Row d); u32 (get_Column d)].
Definition level_size (d : Device) (g : Z) (m : memOrg) : Z :=
  match m with
  | Rank => get_Rank d | BankGroup => get_BankGroup d | Bank => get_Bank d
  | SubArray => g | Row => u32 (get_Row d) | Column => u32 (get_Column d)
  end.

Lemma criticality_keys reqs : NoDup ((λ id, (Z.of_nat id, true)) <$> seq 0 reqs).*1.
Proof. rewrite <- list_fmap_compose. apply NoDup_fmap_2; [|apply NoDup_seq]. intros x y. simpl. lia. Qed.

Section connected.
#[local] Existing Instance Open_generator.
Context {A B : Type} {ReqA : RequestScheduling A} {ReqP : PromptAlgorithm A}
  {CmdS : CommandScheduling Device B} {CmdA : CommandAlgorithm Device B} {CmdW : WorkConserving Device B}
  {CmdH : OffersHeads B}.
Variables (a : A) (b : B) (cfg : Config) (mode_unset : bool) (g : Z) (reqs : nat) (sp : DDR3.t) (d : Device) (ms : list memOrg)
  (room : nat).

Definition format_of : list (memOrg * Z) := (λ m, (m, log2 (level_size d g m))) <$> ms.
Definition criticality_of : gmap Z bool := list_to_map ((λ id, (Z.of_nat id, true)) <$> seq 0 reqs).

(** What [connect_registered] makes. *)
Definition connected : Controller A B Device :=
  mkController (mkSetup (table_of d g) (get_DataBus d) format_of Interleaved cfg true room) 0
    (RequestScheduler_ctor mode_unset [RequestQueue_ctor false false] (CommandGenerator_ctor (get_DataBus d))) a
    (fresh_scheduler mode_unset g 8 false criticality_of d) b
    [] [] [] [] ∅ Statistics_ctor.

Lemma connected_plain :
  plain_device sp d → plain_config cfg → NoDup ms → (∀ m, m ∈ ms) → 0 ≤ g ≤ 2 ^ 31 → (2 ≤ room)%nat →
  (∀ i p, alg_accepts i p) → alg_inv b (fresh_scheduler mode_unset g 8 false criticality_of d) →
  offers_kinds (replicate 8 false) →
  plain_system sp connected.
Proof.
  intros [P1 P2 (P3 & P4 & P5) P6 P7 P8 P9 P10] [C1 (C2 & C3 & C4) [C5 C6] C7 C8 C9] Hnd Hall Hg Hroom Hacc Hinv Hkinds.
  assert (∀ m k, (m, k) ∈ format_of → k = log2 (level_size d g m)) as Hformat.
  { intros m k. unfold format_of. rewrite list_elem_of_fmap. by intros (m' & [= -> ->] & _). }
  split; try done.
  - rewrite P2. lia.
  - unfold format_ok. change (addressFormat (mc_setup connected)) with format_of. unfold format_of. rewrite <- list_fmap_compose. split; [by rewrite list_fmap_id|].
    apply Forall_fmap, Forall_forall. intros m _. change (0 ≤ log2 (level_size d g m) < 32). apply log2_range.
    pose proof (u32_range (get_Row d)). pose proof (u32_range (get_Column d)). destruct m; unfold level_size; lia.
  - intros m. change (addressFormat (mc_setup connected)) with format_of. unfold format_of. rewrite <- list_fmap_compose. apply list_elem_of_fmap. exists m. done.
  - intros k ->%Hformat. change (level_size d g Rank) with (get_Rank d). rewrite P3. done.
  - intros k ->%Hformat. change (level_size d g Bank) with (get_Bank d). rewrite P5, P2. vm_compute. discriminate.
  - intros bk sa Hbk. exists bk. rewrite P2 in Hbk. change (commandQueues (commandScheduler connected)) with (replicate 8 (CommandQueue_ctor false)).
    rewrite length_replicate. split; [|lia]. change (cmdMap (mc_config (mc_setup connected))) with (cmdMap cfg). rewrite C5. apply (bank_queue 8); [|lia..]. change (Some (get_Bank d) = Some 8). by rewrite P5.
  - intros t p i _. apply Hacc.
  - repeat constructor.
  - intros i Hi. change (i < 8)%nat in Hi. change (is_Some (replicate 8 (∅ : gmap Z timers) !! i)). rewrite lookup_replicate_2 by done. by eexists.
  - by apply fresh_initial.
Qed.

Lemma criticality_connected (id : Z) : 0 ≤ id < Z.of_nat reqs → criticality_of !! id = Some true.
Proof.
  intros Hid. unfold criticality_of. apply elem_of_list_to_map_1.
  - apply criticality_keys.
  - apply list_elem_of_fmap. exists (Z.to_nat id). rewrite Z2Nat.id by lia. split; [done|]. apply elem_of_seq. lia.
Qed.

Lemma connected_answers :
  plain_device sp d → plain_config cfg → NoDup ms → (∀ m, m ∈ ms) → 0 ≤ g ≤ 2 ^ 31 → (2 ≤ room)%nat →
  (∀ i p, alg_accepts i p) → alg_inv b (fresh_scheduler mode_unset g 8 false criticality_of d) →
  offers_kinds (replicate 8 false) →
  ∀ ops n, Forall (op_fits reqs d) ops → (answer_bound d ops ≤ n)%nat → updates ops + Z.of_nat n < 2 ^ 32 →
  ∃ evs m, run_ops (ops ++ replicate n Update) ([], mkSystem connected 0) = Ok (evs, m) ∧
    answered evs ≡ₚ asked ops ∧ all_pending (memoryController m) = [].
Proof.
  intros P1 P2 P3 P4 P5 Pr P6 P7 P8 ops n Hops Hn Hlt.
  apply (answered_eventually sp connected (connected_plain P1 P2 P3 P4 P5 Pr P6 P7 P8) (mkSystem connected 0)); [done| |done|done].
  eapply Forall_impl; [exact Hops|]. intros [gr id addr R_W size|sw|]; [|done..]. intros [Hid Hsize].
  split; [by apply criticality_connected|exact Hsize].
Qed.
End connected.

Lemma criticality_size reqs : size (criticality_of reqs) = reqs.
Proof.
  unfold criticality_of. rewrite map_size_list_to_map; [|apply criticality_keys]. by rewrite length_fmap, length_seq.
Qed.

(** The register answers for the names. *)
Lemma connect_plain u cfg reqs g b sp d :
  plain_device sp d → plain_config cfg → (reqs ≤ 36)%nat →
  ∃ ms bl, NoDup ms ∧ (∀ m, m ∈ ms) ∧ ∀ rs cs,
    let queues := [RequestQueue_ctor false false] in
    find_name (config_name "RequestScheduler" cfg) (request_table u bl (get_DataBus d) queues) = Some rs →
    find_name (config_name "CommandScheduler" cfg) (command_table u (replicate 8 (CommandQueue_ctor false))) = Some cs →
    connect_registered u true cfg Interleaved reqs g b d =
      Ok (mkBuilt rs (mkGeneratorChoice Open_generator (CommandGenerator_ctor (get_DataBus d))) cs
        (connected (rc_init rs) (cc_init cs) cfg b g reqs d ms (un_room u))).
Proof.
  intros [P1 P2 (P3 & P4 & P5) P6 P7 P8 P9 P10] [(ms & M1 & M2 & M3) (C2 & C3 & C4) [C5 C6] _ C8 _] Hreqs.
  assert (∃ bl, BLISS.ctor (criticality_of reqs) = Ok bl) as [bl Hbl].
  { unfold BLISS.ctor, BLISS.clear.
    pose proof (clear_range (size (criticality_of reqs)) 0 (replicate 36 None) (Nat.le_0_l _)) as Hc. rewrite length_replicate in Hc.
    destruct (foldM _ _ _) as [bl|e]; [by eexists|]. destruct Hc as [_ Hc]. exfalso.
    rewrite criticality_size in Hc. lia. }
  exists ms, bl. split_and!; [done|done|]. intros rs cs queues Hrs Hcs.
  unfold connect_registered. change (list_to_map ((λ id, (Z.of_nat id, true)) <$> seq 0 reqs)) with (criticality_of reqs).
  fold (table_of d g). set (table := table_of d g).
  assert (queueNumber table (reqMap cfg) = Ok 1) as -> by (unfold queueNumber; by rewrite C2).
  assert (queueNumber table (cmdMap cfg) = Ok 8) as ->.
  { rewrite C5. unfold queueNumber, table, table_of. rewrite P3, P4, P5. vm_compute. reflexivity. }
  rewrite C3, C4, C6. unfold SchedulerRegister_ctor. rewrite Hbl. cbn [mbind res_bind].
  rewrite M3, (AddressMapping_ctor_levels ms table (level_size d g)) by (by intros []).
  cbn [mbind res_bind]. unfold getRequestScheduler, getCommandGenerator, getCommandScheduler.
  cbn [requestSchedulerTable commandGeneratorTable commandSchedulerTable].
  change (Z.to_nat 1) with 1%nat. change (Z.to_nat 8) with 8%nat. change (replicate 1 (RequestQueue_ctor false false)) with queues. rewrite Hrs, Hcs, C8. reflexivity.
Qed.

(** ** The theorem *)

Lemma fresh_frfcfs m g reqs d :
  @alg_inv Device unit _ CmdAlgos.FRFCFS.scheduling CmdAlgos.FRFCFS.algorithm tt (fresh_scheduler m g 8 false (criticality_of reqs) d).
Proof. exact I. Qed.

Lemma fresh_push m g reqs d :
  @alg_inv Device unit _ CmdAlgos.PUSH.scheduling CmdAlgos.PUSH.algorithm tt (fresh_scheduler m g 8 false (criticality_of reqs) d).
Proof. split; [apply fresh_kinds|done]. Qed.


(** ** Witness: FRFCFS.ini *)
Lemma wit_cfg_plain : plain_config wit_cfg.
Proof.
  split.
  - exists [Rank; BankGroup; Bank; SubArray; Row; Column]. split_and!; [repeat constructor; set_solver| |vm_compute; reflexivity].
    intros m. assert (bool_decide (m ∈ [Rank; BankGroup; Bank; SubArray; Row; Column]) = true) as H by (by destruct m).
    by apply bool_decide_eq_true in H.
  - vm_compute. split_and!; reflexivity.
  - vm_compute. split; reflexivity.
  - assert (config_name "RequestScheduler" wit_cfg = "FRFCFS"%string) as -> by (vm_compute; reflexivity). set_solver.
  - vm_compute. reflexivity.
  - assert (config_name "CommandScheduler" wit_cfg = "PUSH"%string) as -> by (vm_compute; reflexivity). set_solver.
Qed.

Definition wit_bound (d : AnyDevice) : bool :=
  match d with device_DDR3 d => (get_DataBus d =? 64) && (answer_bound d wit_ops <=? 1000)%nat | _ => false end.

