(* ===== verification/Shipped.v ===== *)
(** * The shipped systems

    The configuration files of src/system, each in full. Every one but that of MAG gives
    a system the theorem of Register.v applies to, with any DDR3 device and up
    to 36 requestors: it is read, its controller is built, and it keeps the timing of
    the device. *)
From Stdlib Require Import QArith String Ascii.
From S2P Require Import Prelude Types KeyedBuf AddrMap ReqQueue CmdQueue CmdGen ReqSched DRAM DDR3 Device DeviceChoice Refresh CmdSched CmdAlg CmdAlgos BatchAlgos Config Controller System DDR3System Liveness Register Configured.
#[local] Open Scope Z_scope.

Definition shipped : list (string * string) := [
  ("AMC.ini",
"; Rank[0], BankGroup[1], Bank[2], SubArray[3], Row[4], Col[5]
AddressMapping=012345

; Channel, Rank, BankGroup, Bank, SubArray
RequestQueue=0000
WriteQueue=0
ReqPerREQ=1
CommandQueue=0010
CmdPerREQ=0

; Scheduler Based on Names
RequestScheduler=RR
CommandGenerator=CLOSE
CommandScheduler=FCFS");
  ("BLISS.ini",
"; Rank[0], BankGroup[1], Bank[2], SubArray[3], Row[4], Col[5]
; Must be modified accordingly
;AddressMapping=012345
AddressMapping=425 ; For the verification purpose

; Channel, Rank, BankGroup, Bank, SubArray
RequestQueue=0000
WriteQueue=0
ReqPerREQ=0
CommandQueue=0010
CmdPerREQ=0

; Scheduler Based on Names
RequestScheduler=BLISS
CommandGenerator=OPEN
CommandScheduler=FRFCFS
");
  ("DCmc.ini",
"; Rank[0], BankGroup[1], Bank[2], SubArray[3], Row[4], Col[5]
AddressMapping=012345

; Channel, Rank, BankGroup, Bank, SubArray
RequestQueue=0010
WriteQueue=0
ReqPerREQ=1
CommandQueue=0010
CmdPerREQ=0

; Scheduler Based on Names
RequestScheduler=DIRECT
CommandGenerator=OPEN
CommandScheduler=DCmc");
  ("FCFS.ini",
"; Rank[0], BankGroup[1], Bank[2], SubArray[3], Row[4], Col[5]
AddressMapping=012345
;AddressMapping=425 ; For the verification purpose
; Channel, Rank, BankGroup, Bank, SubArray
RequestQueue=0000
WriteQueue=0
ReqPerREQ=0
CommandQueue=0010
CmdPerREQ=0

; Scheduler Based on Names
RequestScheduler=FCFS
CommandGenerator=OPEN
; Command scheduler can be any regular algorithm 
CommandScheduler=FRFCFS
");
  ("FRFCFS.ini",
"; Rank[0], BankGroup[1], Bank[2], SubArray[3], Row[4], Col[5]
;AddressMapping=425 ; For the verification purpose
AddressMapping=012345
; Channel, Rank, BankGroup, Bank, SubArray
RequestQueue=0000
WriteQueue=0
ReqPerREQ=0
CommandQueue=0010
CmdPerREQ=0

; Scheduler Based on Names
RequestScheduler=FRFCFS
CommandGenerator=OPEN
CommandScheduler=PUSH
; Note that the command scheduler for the FRFCFS could be much simpler. 
; As using one global queue for the command queue do not require any arbitration and etc (similar to device simulators.)");
  ("FRFCFS_BATCH.ini",
"; Rank[0], BankGroup[1], Bank[2], SubArray[3], Row[4], Col[5]
AddressMapping=425 ; For the verification purpose
;AddressMapping=012345
; Channel, Rank, BankGroup, Bank, SubArray
RequestQueue=0000
WriteQueue=1
ReqPerREQ=0
CommandQueue=0010
CmdPerREQ=0

; Scheduler Based on Names
RequestScheduler=FRFCFS_Batching
CommandGenerator=OPEN
CommandScheduler=FRFCFS
");
  ("MAG.ini",
"; Rank[0], BankGroup[1], Bank[2], SubArray[3], Row[4], Col[5]
AddressMapping=012345

; Channel, Rank, BankGroup, Bank, SubArray
RequestQueue=0000
WriteQueue=0
ReqPerREQ=1
CommandQueue=0010
CmdPerREQ=0

; Scheduler Based on Names
RequestScheduler=DIRECT
CommandGenerator=OPEN
CommandScheduler=MAG");
  ("MCMC.ini",
"; Rank[0], BankGroup[1], Bank[2], SubArray[3], Row[4], Col[5]
AddressMapping=012345

; Rank, BankGroup, Bank, SubArray
RequestQueue=0000
WriteQueue=0
ReqPerREQ=1
CommandQueue=0010
CmdPerREQ=0

; Scheduler Based on Names
RequestScheduler=MCMC
CommandGenerator=MCMC
CommandScheduler=FCFS");
  ("MEDUSA.ini",
"; Rank[0], BankGroup[1], Bank[2], SubArray[3], Row[4], Col[5]
AddressMapping=012345

; Rank, BankGroup, Bank, SubArray
RequestQueue=0000
WriteQueue=1
ReqPerREQ=1
CommandQueue=0010
CmdPerREQ=0

; Scheduler Based on Names
RequestScheduler=MEDUSA
CommandGenerator=OPEN
CommandScheduler=FCFS");
  ("ORP.ini",
"; ORP
; Rank[0], BankGroup[1], Bank[2], SubArray[3], Row[4], Col[5]
AddressMapping=012345

; Channel, Rank, BankGroup, Bank, SubArray
RequestQueue=0000
WriteQueue=0
ReqPerREQ=1
CommandQueue=0000
CmdPerREQ=1

; Scheduler Based on Names
RequestScheduler=DIRECT
CommandGenerator=OPEN
CommandScheduler=ORP");
  ("PAR-BS.ini",
"; Rank[0], BankGroup[1], Bank[2], SubArray[3], Row[4], Col[5]
; Must be modified accordingly
;AddressMapping=012345
AddressMapping=425

; Channel, Rank, BankGroup, Bank, SubArray
RequestQueue=0000
WriteQueue=0
ReqPerREQ=0
CommandQueue=0010
CmdPerREQ=0

; Scheduler Based on Names
RequestScheduler=PARBS
CommandGenerator=OPEN
CommandScheduler=FRFCFS
");
  ("PMC.ini",
"; Rank[0], BankGroup[1], Bank[2], SubArray[3], Row[4], Col[5]
AddressMapping=012345

; Rank, BankGroup, Bank, SubArray
RequestQueue=0000
WriteQueue=0
ReqPerREQ=1
CommandQueue=0010
CmdPerREQ=0

; Scheduler Based on Names
RequestScheduler=PMC
CommandGenerator=CLOSE
CommandScheduler=FCFS");
  ("PipeCAS.ini",
"; Rank[0], BankGroup[1], Bank[2], SubArray[3], Row[4], Col[5]
AddressMapping=012345

; Rank, BankGroup, Bank, SubArray
RequestQueue=0000
WriteQueue=0
ReqPerREQ=1
CommandQueue=0010
CmdPerREQ=0

; Scheduler Based on Names
RequestScheduler=DIRECT
CommandGenerator=PipeCAS
CommandScheduler=PipeCAS");
  ("ROC.ini",
"; Rank[0], BankGroup[1], Bank[2], SubArray[3], Row[4], Col[5]
AddressMapping=012345

; Channel, Rank, BankGroup, Bank, SubArray
RequestQueue=0000
WriteQueue=0
ReqPerREQ=1
CommandQueue=0000
CmdPerREQ=1

; Scheduler Based on Names
RequestScheduler=DIRECT
CommandGenerator=OPEN
CommandScheduler=ROC");
  ("RTMem.ini",
"; Rank[0], BankGroup[1], Bank[2], SubArray[3], Row[4], Col[5]
AddressMapping=012345

; Channel, Rank, BankGroup, Bank, SubArray
RequestQueue=0000
WriteQueue=0
ReqPerREQ=1
CommandQueue=0010
CmdPerREQ=0

; Scheduler Based on Names
RequestScheduler=RTMem
CommandGenerator=CLOSE
CommandScheduler=RTMem");
  ("RankReOrder.ini",
"; RankReOrder
; Rank[0], BankGroup[1], Bank[2], SubArray[3], Row[4], Col[5]
AddressMapping=012345

; Channel, Rank, BankGroup, Bank, SubArray
RequestQueue=0000
WriteQueue=0
ReqPerREQ=1
CommandQueue=0010
CmdPerREQ=0

; Scheduler Based on Names
RequestScheduler=DIRECT
CommandGenerator=OPEN
CommandScheduler=rankReOrder");
  ("ReOrder.ini",
"; Rank[0], BankGroup[1], Bank[2], SubArray[3], Row[4], Col[5]
AddressMapping=012345

; Channel, Rank, BankGroup, Bank, SubArray
RequestQueue=0000
WriteQueue=0
ReqPerREQ=1
CommandQueue=0010
CmdPerREQ=0

; Scheduler Based on Names
RequestScheduler=DIRECT
CommandGenerator=OPEN
CommandScheduler=ReOrder");
  ("Round.ini",
"; Rank[0], BankGroup[1], Bank[2], SubArray[3], Row[4], Col[5]
AddressMapping=012345

; Channel, Rank, BankGroup, Bank, SubArray
RequestQueue=0000
WriteQueue=0
ReqPerREQ=1
CommandQueue=0000
CmdPerREQ=1

; Scheduler Based on Names
RequestScheduler=DIRECT
CommandGenerator=ROUND
CommandScheduler=Round
")]%string.

(** ** What their lines give *)

(** The number of queues for the two maps that occur, with eight banks. *)
Definition map_queues (queueMap : list Z) : option nat :=
  if bool_decide (queueMap = [0; 0; 0; 0]) then Some 1%nat
  else if bool_decide (queueMap = [0; 0; 1; 0]) then Some 8%nat else None.

Lemma map_queues_number d g qm n :
  get_Rank d = 1 ∧ get_BankGroup d = 1 ∧ get_Bank d = 8 → map_queues qm = Some n →
  queueNumber (table_of d g) qm = Ok (Z.of_nat n).
Proof.
  intros (E1 & E2 & E3) Hn. unfold map_queues, table_of in *. rewrite E1, E2, E3.
  destruct (decide (qm = [0; 0; 0; 0])) as [->|N1]; [simpl in Hn; by simplify_eq|]. rewrite bool_decide_false in Hn by done.
  destruct (decide (qm = [0; 0; 1; 0])) as [->|N2]; [simpl in Hn; by simplify_eq|]. by rewrite bool_decide_false in Hn by done.
Qed.

Record shipped_config (cfg : Config) : Prop := {
  sc_format : config_name "AddressMapping" cfg ∈ ["012345"; "425"]%string;
  sc_requests : is_Some (map_queues (reqMap cfg));
  sc_commands : ∃ n, map_queues (cmdMap cfg) = Some n ∧
    suits (config_name "CommandScheduler" cfg) (requestorCmdQ cfg) n = true;
  sc_routes : routes (config_name "CommandScheduler" cfg) (cmdMap cfg) = true;
  sc_request : config_name "RequestScheduler" cfg ∈ ["DIRECT"; "RR"; "FCFS"; "FRFCFS"; "FRFCFS_Batching"; "BLISS";
    "PARBS"; "RTMem"; "PMC"; "MCMC"; "MEDUSA"]%string;
  sc_generator : config_name "CommandGenerator" cfg ∈ ["OPEN"; "ROUND"; "CLOSE"; "MCMC"; "PipeCAS"]%string;
}.

Definition config_test (cfg : Config) : bool :=
  bool_decide (config_name "AddressMapping" cfg ∈ ["012345"; "425"]%string) &&
  bool_decide (is_Some (map_queues (reqMap cfg))) &&
  match map_queues (cmdMap cfg) with
  | Some n => suits (config_name "CommandScheduler" cfg) (requestorCmdQ cfg) n
  | None => false
  end &&
  routes (config_name "CommandScheduler" cfg) (cmdMap cfg) &&
  bool_decide (config_name "RequestScheduler" cfg ∈ ["DIRECT"; "RR"; "FCFS"; "FRFCFS"; "FRFCFS_Batching"; "BLISS";
    "PARBS"; "RTMem"; "PMC"; "MCMC"; "MEDUSA"]%string) &&
  bool_decide (config_name "CommandGenerator" cfg ∈ ["OPEN"; "ROUND"; "CLOSE"; "MCMC"; "PipeCAS"]%string).

Lemma config_test_true cfg : config_test cfg = true → shipped_config cfg.
Proof.
  unfold config_test. rewrite !andb_true_iff, !bool_decide_eq_true. intros [[[[[H1 H2] H3] H4] H5] H6].
  destruct (map_queues (cmdMap cfg)) as [n|] eqn:E; [|done]. split; try done. by exists n.
Qed.

Lemma suits_known name per n : suits name per n = true →
  name ∈ ["RTMem"; "Round"; "FRFCFS"; "ORP"; "DCmc"; "MAG"; "ReOrder"; "ROC"; "FCFS"; "PUSH"; "PipeCAS"; "rankReOrder"]%string.
Proof.
  unfold suits. repeat case_bool_decide; try done; intros _; set_solver.
Qed.

Definition file_test (b : bool) (text : string) : bool :=
  match readConfigFile (Some text) (Config_ctor b) with Ok cfg => config_test cfg | Err _ => false end.

Lemma shipped_test b : Forall (λ ft, ft.1 = "MAG.ini"%string ∨ file_test b ft.2 = true) shipped.
Proof.
  assert (forallb (λ ft, bool_decide (ft.1 = "MAG.ini"%string) || file_test b ft.2) shipped = true) as H
    by (destruct b; vm_compute; reflexivity).
  apply Forall_forall. intros ft Hin. rewrite forallb_forall in H. apply list_elem_of_In in Hin.
  apply H, orb_prop in Hin as [Hm%bool_decide_eq_true|Ht]; auto.
Qed.

(** ** They are built *)

Lemma is_Ok_Ok {X} (r : res X) : is_Ok r = true → ∃ x, r = Ok x.
Proof. destruct r as [x|]; [by exists x|done]. Qed.

Lemma shipped_connects u cfg reqs g b sp d :
  plain_device sp d → shipped_config cfg → (reqs ≤ 36)%nat →
  ∃ bt, connect_registered u true cfg Interleaved reqs g b d = Ok bt ∧
    map_queues (cmdMap cfg) = Some (length (commandQueues (commandScheduler (bt_controller bt)))).
Proof.
  intros Hp Hcfg Hreqs. pose proof (pd_levels _ _ Hp) as Hlv.
  destruct (sc_requests _ Hcfg) as [nr Hnr]. destruct (sc_commands _ Hcfg) as (nc & Hnc & Hsuits).
  assert (∃ ms, list_ascii_of_string (config_name "AddressMapping" cfg) = level_digit <$> ms) as [ms Hms].
  { pose proof (sc_format _ Hcfg) as Hf. rewrite !elem_of_cons in Hf. destruct Hf as [->|[->|[]%not_elem_of_nil]].
    - by exists [Rank; BankGroup; Bank; SubArray; Row; Column].
    - by exists [Row; Bank; Column]. }
  unfold connect_registered. fold (table_of d g). fold (criticality_of reqs).
  rewrite (map_queues_number d g _ nr Hlv Hnr), (map_queues_number d g _ nc Hlv Hnc). cbn [mbind res_bind]. rewrite !Nat2Z.id.
  rewrite Hms, (AddressMapping_ctor_levels ms (table_of d g) (level_size d g)) by (by intros []). cbn [mbind res_bind].
  set (rq := replicate nr _). set (cq := replicate nc _).
  pose proof (register_capacity (Dev := Device) u (get_DataBus d) (criticality_of reqs) rq cq) as Hreg.
  destruct (SchedulerRegister_ctor (Dev := Device) u _ _ rq cq) as [reg|e]; cbn [mbind res_bind].
  - destruct Hreg as (_ & Hr & Hg & Hc).
    destruct (is_Ok_Ok (getRequestScheduler (config_name "RequestScheduler" cfg) reg)
      (eq_trans (Hr _) (bool_decide_eq_true_2 _ (sc_request _ Hcfg)))) as [rs Ers]. rewrite Ers. cbn [mbind res_bind].
    destruct (is_Ok_Ok (getCommandGenerator (config_name "CommandGenerator" cfg) reg)
      (eq_trans (Hg _) (bool_decide_eq_true_2 _ (sc_generator _ Hcfg)))) as [gn Egn]. rewrite Egn. cbn [mbind res_bind].
    destruct (is_Ok_Ok (getCommandScheduler (config_name "CommandScheduler" cfg) reg)
      (eq_trans (Hc _) (bool_decide_eq_true_2 _ (suits_known _ _ _ Hsuits)))) as [cs Ecs]. rewrite Ecs. cbn [mbind res_bind].
    eexists. split; [reflexivity|]. rewrite Hnc. simpl. unfold cq. by rewrite length_replicate.
  - destruct Hreg as [_ Hlt]. rewrite criticality_size in Hlt. lia.
Qed.

(** The device is new. *)
Lemma plain_new_device sp d : plain_device sp d → new_device d.
Proof.
  intros Hp. destruct (Ramulator_ctor_made sp 1) as (d' & Hd & (_ & Hk & Hpost & _ & Hf & Hl & _)).
  - intros k Hk. by repeat (destruct k as [|k]; [by eexists|]); simpl in Hk; lia.
  - simpl. lia.
  - rewrite (pd_made _ _ Hp) in Hd. injection Hd as <-. split; try done. apply (pd_refresh _ _ Hp).
Qed.


(** ** RTMem.ini *)
Definition wit_text : string := default EmptyString (snd <$> shipped !! 14%nat).

Definition wit_ops80 : list op := Add 0 0 0x4b40 true 64 :: Add 0 1 0x34b00 false 64 :: replicate 80 Update.

