(* ===== verification/MacDram.v ===== *)
(** * The memory controller of MacSim

    [dram_controller_c] and [dc_frfcfs_c] (src/IntegrationWithMacSim/src/dram.cc, dram.h),
    the controller with banks and channels of its own that MacSim is built with when
    it does not use MCsim. Request [p] is a pointer into the memory hierarchy's store. *)
From S2P Require Import Prelude Types.
#[local] Open Scope Z_scope.

(** ** Requests of MacSim (memreq_info.h) *)
Inductive Mem_Req_Type :=
| MRT_IFETCH | MRT_DFETCH | MRT_DSTORE | MRT_IPRF | MRT_DPRF | MRT_WB
| MRT_SW_DPRF | MRT_SW_DPRF_NTA | MRT_SW_DPRF_T0 | MRT_SW_DPRF_T1 | MRT_SW_DPRF_T2 | MAX_MEM_REQ_TYPE.

#[export] Instance Mem_Req_Type_eq_dec : EqDecision Mem_Req_Type.
Proof. solve_decision. Defined.

Inductive Mem_Req_State :=
| MEM_INV | MEM_NEW | MEM_MERGED | MEM_OUTQUEUE_NEW | MEM_IN_NOC | MEM_OUT_FILL | MEM_OUT_WB | MEM_FILL_NEW
| MEM_FILL_WAIT_DONE | MEM_FILL_WAIT_FILL | MEM_DRAM_START | MEM_DRAM_CMD | MEM_DRAM_DATA | MEM_DRAM_DONE
| MEM_NOC_START | MEM_NOC_DONE | MEM_STATE_MAX.

(** The members the controller uses; [mr_node] is [m_cache_id[MEM_L3]]. *)
Record mem_req_s := mkMemReq {
  mr_appl_id : Z;
  mr_core_id : Z;
  mr_thread_id : Z;
  mr_state : Mem_Req_State;
  mr_type : Mem_Req_Type;
  mr_addr : Z;
  mr_size : Z;
  mr_rdy_cycle : Z;
  mr_ptx : bool;
  mr_node : Z;
  mr_msg_type : Z;
  mr_msg_src : Z;
  mr_msg_dst : Z;
}.

Definition set_mr_state (s : Mem_Req_State) (r : mem_req_s) : mem_req_s :=
  mkMemReq (mr_appl_id r) (mr_core_id r) (mr_thread_id r) s (mr_type r) (mr_addr r) (mr_size r)
    (mr_rdy_cycle r) (mr_ptx r) (mr_node r) (mr_msg_type r) (mr_msg_src r) (mr_msg_dst r).
Definition set_mr_rdy (n : Z) (r : mem_req_s) : mem_req_s :=
  mkMemReq (mr_appl_id r) (mr_core_id r) (mr_thread_id r) (mr_state r) (mr_type r) (mr_addr r) (mr_size r)
    n (mr_ptx r) (mr_node r) (mr_msg_type r) (mr_msg_src r) (mr_msg_dst r).
Definition set_mr_msg (type src dst : Z) (r : mem_req_s) : mem_req_s :=
  mkMemReq (mr_appl_id r) (mr_core_id r) (mr_thread_id r) (mr_state r) (mr_type r) (mr_addr r) (mr_size r)
    (mr_rdy_cycle r) (mr_ptx r) (mr_node r) type src dst.

(** An [int]. *)
Definition int (z : Z) : Z := if bool_decide (u32 z < 2 ^ 31) then u32 z else u32 z - 2 ^ 32.

Lemma int_small z : 0 ≤ z < 2 ^ 31 → int z = z.
Proof. intros Hz. unfold int. rewrite u32_small by lia. by rewrite bool_decide_true by lia. Qed.

(** ** Entries of the request buffer *)
Inductive DRAM_STATE := DRAM_INIT | DRAM_CMD | DRAM_CMD_WAIT | DRAM_DATA | DRAM_DATA_WAIT.

#[export] Instance DRAM_STATE_eq_dec : EqDecision DRAM_STATE.
Proof. solve_decision. Defined.

(** [drb_entry_s]. An entry is in one list of one bank at a time, so it is a value
    that moves from list to list. *)
Record drb_entry_s := mkEntry {
  en_id : Z;
  en_state : DRAM_STATE;
  en_addr : Z;
  en_bid : Z;
  en_rid : Z;
  en_cid : Z;
  en_core_id : Z;
  en_thread_id : Z;
  en_appl_id : Z;
  en_read : bool;
  en_req : option ptr;
  en_priority : Z;
  en_size : Z;
  en_timestamp : Z;
  en_scheduled : Z;
}.

(** [reset()], for every entry the same. *)
Definition entry_reset : drb_entry_s := mkEntry (-1) DRAM_INIT 0 (-1) (-1) (-1) (-1) (-1) (-1) false None 0 0 0 0.

Definition dram_req_priority : list Z := replicate 12 0.

Definition type_int (t : Mem_Req_Type) : nat :=
  match t with
  | MRT_IFETCH => 0 | MRT_DFETCH => 1 | MRT_DSTORE => 2 | MRT_IPRF => 3 | MRT_DPRF => 4 | MRT_WB => 5
  | MRT_SW_DPRF => 6 | MRT_SW_DPRF_NTA => 7 | MRT_SW_DPRF_T0 => 8 | MRT_SW_DPRF_T1 => 9 | MRT_SW_DPRF_T2 => 10
  | MAX_MEM_REQ_TYPE => 11
  end.

(** [set()]; [unique_id] is the static counter. The state and the cycles stay. *)
Definition entry_set (unique_id : Z) (p : ptr) (r : mem_req_s) (bid rid cid : Z) (e : drb_entry_s) : res drb_entry_s :=
  prio ← vec_at dram_req_priority (type_int (mr_type r));
  _ ← assert_ (bool_decide (0 ≤ rid));
  Ok (mkEntry unique_id (en_state e) (mr_addr r) bid rid cid (mr_core_id r) (mr_thread_id r) (mr_appl_id r)
        (bool_decide (mr_type r ≠ MRT_WB)) (Some p) prio (int (mr_size r)) (en_timestamp e) (en_scheduled e)).

Definition set_en_state (s : DRAM_STATE) (e : drb_entry_s) : drb_entry_s :=
  mkEntry (en_id e) s (en_addr e) (en_bid e) (en_rid e) (en_cid e) (en_core_id e) (en_thread_id e) (en_appl_id e)
    (en_read e) (en_req e) (en_priority e) (en_size e) (en_timestamp e) (en_scheduled e).
Definition set_en_timestamp (n : Z) (e : drb_entry_s) : drb_entry_s :=
  mkEntry (en_id e) (en_state e) (en_addr e) (en_bid e) (en_rid e) (en_cid e) (en_core_id e) (en_thread_id e) (en_appl_id e)
    (en_read e) (en_req e) (en_priority e) (en_size e) n (en_scheduled e).
Definition set_en_scheduled (n : Z) (e : drb_entry_s) : drb_entry_s :=
  mkEntry (en_id e) (en_state e) (en_addr e) (en_bid e) (en_rid e) (en_cid e) (en_core_id e) (en_thread_id e) (en_appl_id e)
    (en_read e) (en_req e) (en_priority e) (en_size e) (en_timestamp e) n.

(** ** The controller *)

(** The arrays with an element per bank, and those with one per channel. *)
Record Bank_t := mkBank {
  m_buffer : list drb_entry_s;
  m_buffer_free_list : list drb_entry_s;
  m_current_list : option drb_entry_s;
  m_current_rid : Z;
  m_data_ready : Z;
  m_data_avail : Z;
  m_bank_ready : Z;
  m_bank_timestamp : Z;
}.
Record Channel_t := mkChannel {
  m_byte_avail : Z;
  m_dbus_ready : Z;
}.

(** The knobs and what the constructor computes from them. *)
Record Knobs := mkKnobs {
  num_bank : Z;
  num_channel : Z;
  bus_width : Z;
  buffer_size : nat;
  merge_requests : bool;
  bank_xor_index : bool;
  additional_latency : Z;
  num_mc : Z;
  rowbuffer_size : Z;
  default_interleaving : bool;
  new_interleaving : bool;
  l3_line_size : Z;
  num_l3 : Z;
  l3_num_set : Z;
  activate_latency : Z;
  precharge_latency : Z;
  column_latency : Z;
  noc_vc_partition : bool;
  enable_new_noc : bool;
}.
Record Mapping := mkMapping {
  m_cid_mask : Z;
  m_bid_mask : Z;
  m_bid_shift : Z;
  m_rid_shift : Z;
  m_bid_xor_shift : Z;
}.

(** [m_pending_request], the requests MCsim has, is of the build with MCsim.
    [dc_freed] are the requests given to [free_req] and [dc_sent] those given to the
    network, the last one first: the traces of these calls. *)
Record dram_controller_c := mkDC {
  dc_knobs : Knobs;
  dc_mapping : Mapping;
  m_noc_id : Z;
  banks_ : list Bank_t;
  channels_ : list Channel_t;
  m_num_completed_in_last_cycle : Z;
  m_starvation_cycle : Z;
  m_total_req : Z;
  m_cycle : Z;
  m_output_buffer : list ptr;
  m_tmp_output_buffer : option (list ptr);
  m_pending_request : list ptr;
  m_unique_id : Z;
  dc_heap : gmap ptr mem_req_s;
  dc_freed : list ptr;
  dc_sent : list ptr;
}.

Definition set_banks (l : list Bank_t) (c : dram_controller_c) : dram_controller_c :=
  mkDC (dc_knobs c) (dc_mapping c) (m_noc_id c) l (channels_ c) (m_num_completed_in_last_cycle c) (m_starvation_cycle c)
    (m_total_req c) (m_cycle c) (m_output_buffer c) (m_tmp_output_buffer c) (m_pending_request c) (m_unique_id c) (dc_heap c) (dc_freed c) (dc_sent c).
Definition set_channels (l : list Channel_t) (c : dram_controller_c) : dram_controller_c :=
  mkDC (dc_knobs c) (dc_mapping c) (m_noc_id c) (banks_ c) l (m_num_completed_in_last_cycle c) (m_starvation_cycle c)
    (m_total_req c) (m_cycle c) (m_output_buffer c) (m_tmp_output_buffer c) (m_pending_request c) (m_unique_id c) (dc_heap c) (dc_freed c) (dc_sent c).
Definition set_counts (completed starvation total : Z) (c : dram_controller_c) : dram_controller_c :=
  mkDC (dc_knobs c) (dc_mapping c) (m_noc_id c) (banks_ c) (channels_ c) completed starvation
    total (m_cycle c) (m_output_buffer c) (m_tmp_output_buffer c) (m_pending_request c) (m_unique_id c) (dc_heap c) (dc_freed c) (dc_sent c).
Definition set_cycle (n : Z) (c : dram_controller_c) : dram_controller_c :=
  mkDC (dc_knobs c) (dc_mapping c) (m_noc_id c) (banks_ c) (channels_ c) (m_num_completed_in_last_cycle c) (m_starvation_cycle c)
    (m_total_req c) n (m_output_buffer c) (m_tmp_output_buffer c) (m_pending_request c) (m_unique_id c) (dc_heap c) (dc_freed c) (dc_sent c).
Definition set_outputs (out : list ptr) (tmp : option (list ptr)) (c : dram_controller_c) : dram_controller_c :=
  mkDC (dc_knobs c) (dc_mapping c) (m_noc_id c) (banks_ c) (channels_ c) (m_num_completed_in_last_cycle c) (m_starvation_cycle c)
    (m_total_req c) (m_cycle c) out tmp (m_pending_request c) (m_unique_id c) (dc_heap c) (dc_freed c) (dc_sent c).
Definition set_pending (l : list ptr) (c : dram_controller_c) : dram_controller_c :=
  mkDC (dc_knobs c) (dc_mapping c) (m_noc_id c) (banks_ c) (channels_ c) (m_num_completed_in_last_cycle c) (m_starvation_cycle c)
    (m_total_req c) (m_cycle c) (m_output_buffer c) (m_tmp_output_buffer c) l (m_unique_id c) (dc_heap c) (dc_freed c) (dc_sent c).
Definition set_unique_id (n : Z) (c : dram_controller_c) : dram_controller_c :=
  mkDC (dc_knobs c) (dc_mapping c) (m_noc_id c) (banks_ c) (channels_ c) (m_num_completed_in_last_cycle c) (m_starvation_cycle c)
    (m_total_req c) (m_cycle c) (m_output_buffer c) (m_tmp_output_buffer c) (m_pending_request c) n (dc_heap c) (dc_freed c) (dc_sent c).
Definition set_heap (h : gmap ptr mem_req_s) (freed sent : list ptr) (c : dram_controller_c) : dram_controller_c :=
  mkDC (dc_knobs c) (dc_mapping c) (m_noc_id c) (banks_ c) (channels_ c) (m_num_completed_in_last_cycle c) (m_starvation_cycle c)
    (m_total_req c) (m_cycle c) (m_output_buffer c) (m_tmp_output_buffer c) (m_pending_request c) (m_unique_id c) h freed sent.

Definition set_lists (buffer free : list drb_entry_s) (current : option drb_entry_s) (b : Bank_t) : Bank_t :=
  mkBank buffer free current (m_current_rid b) (m_data_ready b) (m_data_avail b) (m_bank_ready b) (m_bank_timestamp b).
Definition set_times (rid data_ready data_avail bank_ready timestamp : Z) (b : Bank_t) : Bank_t :=
  mkBank (m_buffer b) (m_buffer_free_list b) (m_current_list b) rid data_ready data_avail bank_ready timestamp.

Definition set_bank (i : nat) (b : Bank_t) (c : dram_controller_c) : dram_controller_c := set_banks (<[i := b]> (banks_ c)) c.
Definition bank_at (i : nat) (c : dram_controller_c) : res Bank_t := vec_at (banks_ c) i.

Definition ULLONG_MAX : Z := 2 ^ 64 - 1.

(** [*p], and a write to a member of it. *)
Definition req_at (p : ptr) (c : dram_controller_c) : res mem_req_s := of_option Undefined (dc_heap c !! p).
Definition on_req (p : ptr) (f : mem_req_s → mem_req_s) (c : dram_controller_c) : res dram_controller_c :=
  r ← req_at p c; Ok (set_heap (<[p := f r]> (dc_heap c)) (dc_freed c) (dc_sent c) c).

(** [m_req] of an entry. *)
Definition entry_req (e : drb_entry_s) : res ptr := of_option Undefined (en_req e).
Definition entry_type (c : dram_controller_c) (e : drb_entry_s) : res Mem_Req_Type :=
  p ← entry_req e; r ← req_at p c; Ok (mr_type r).

(** [m_memory->free_req]: the request is deleted or becomes a free entry of the MSHR. *)
Definition free_req (p : ptr) (c : dram_controller_c) : res dram_controller_c :=
  r ← req_at p c; Ok (set_heap (delete p (dc_heap c)) (p :: dc_freed c) (dc_sent c) c).

(** ** Construction *)

(** [log2_int] (utils.cc); an [unsigned] has 32 bits. *)
Fixpoint log2_loop (fuel : nat) (n power : Z) : Z :=
  match fuel with
  | O => power
  | S fuel => let n := Z.shiftr n 1 in if bool_decide (n = 0) then power else log2_loop fuel n (power + 1)
  end.
Definition log2_int (n : Z) : Z := log2_loop 32 (u32 n) 0.

Definition N_BIT_MASK (n : Z) : Z := u32 (Z.shiftl 1 n - 1).

(** [num_mc & (num_mc - 1) == 0]: [==] binds tighter than [&]. *)
Definition mc_test (num_mc : Z) : bool :=
  bool_decide (Z.land num_mc (if bool_decide (num_mc - 1 = 0) then 1 else 0) ≠ 0).

(** The masks and shifts; [unset] is what they are without either interleaving. *)
Definition make_mapping (k : Knobs) (unset : Mapping) : Mapping :=
  let row := log2_int (rowbuffer_size k) in
  let bank := log2_int (num_bank k) in
  if default_interleaving k then
    mkMapping (N_BIT_MASK row) (N_BIT_MASK bank) row bank (u32 (log2_int (l3_line_size k) + log2_int 512))
  else if new_interleaving k then
    mkMapping (N_BIT_MASK row) (N_BIT_MASK bank)
      (if mc_test (num_mc k) then u32 (row + int (log2_int (num_mc k))) else row) bank
      (u32 (log2_int (l3_line_size k) + log2_int (num_l3 k) + log2_int (l3_num_set k) + 5))
  else unset.

(** The constructor and [init]; [counts] are the three counters that are not set. *)
Definition dram_controller_ctor (k : Knobs) (unset : Mapping) (counts : Z * Z * Z) (noc_id unique_id : Z)
    (heap : gmap ptr mem_req_s) : res dram_controller_c :=
  if bool_decide (num_channel k = 0) then Err Undefined else
  Ok (mkDC k (make_mapping k unset) noc_id
    (replicate (Z.to_nat (num_bank k))
       (mkBank [] (replicate (buffer_size k) entry_reset) None (-1) ULLONG_MAX ULLONG_MAX ULLONG_MAX 0))
    (replicate (Z.to_nat (num_channel k)) (mkChannel (int (bus_width k)) 0))
    counts.1.1 counts.1.2 counts.2 0 [] (if bool_decide (additional_latency k = 0) then None else Some []) [] unique_id heap [] []).

(** ** Requests enter *)

(** [addr >> n] and [addr / n] of an [Addr]. *)
Definition shr64 (a n : Z) : res Z := if bool_decide (n < 64) then Ok (Z.shiftr a n) else Err Undefined.
Definition div64 (a n : Z) : res Z := if bool_decide (u64 n = 0) then Err Undefined else Ok (a / u64 n).

(** The bank, the row and the column of an address. *)
Definition parse_address (k : Knobs) (mp : Mapping) (addr : Z) : res (Z * Z * Z) :=
  x ← shr64 addr (m_bid_xor_shift mp);
  let bid_xor := int (Z.land x (m_bid_mask mp)) in
  let cid := int (Z.land addr (m_cid_mask mp)) in
  a ← shr64 addr (m_bid_shift mp);
  a ← (if mc_test (num_mc k) then Ok a else div64 a (num_mc k));
  let bid := int (Z.land a (m_bid_mask mp)) in
  a ← shr64 a (m_rid_shift mp);
  let rid := int a in
  _ ← assert_ (bool_decide (0 ≤ rid));
  Ok (if bank_xor_index k then Z.lxor bid bid_xor else bid, rid, cid).

(** The entries of a list a test holds of, and the others. *)
Fixpoint splitM {A} (test : A → res bool) (l : list A) : res (list A * list A) :=
  match l with
  | [] => Ok ([], [])
  | x :: l =>
      b ← test x;
      yn ← splitM test l;
      Ok (if b : bool then (x :: yn.1, yn.2) else (yn.1, x :: yn.2))
  end.

(** [flush_prefetch]: the first loop looks for prefetches, the second frees them. *)
Definition flush_prefetch (bid : nat) (c : dram_controller_c) : res dram_controller_c :=
  b ← bank_at bid c;
  yn ← splitM (λ e, t ← entry_type c e; Ok (bool_decide (t = MRT_DPRF))) (m_buffer b);
  c ← foldM yn.1 c (λ e c, p ← entry_req e; free_req p c);
  let c := set_counts (m_num_completed_in_last_cycle c) (m_starvation_cycle c) (int (m_total_req c - Z.of_nat (length yn.1))) c in
  Ok (set_bank bid (set_lists yn.2 (m_buffer_free_list b ++ yn.1) (m_current_list b) b) c).

Definition insert_req_in_drb (p : ptr) (bid : nat) (rid cid : Z) (c : dram_controller_c) : res dram_controller_c :=
  b ← bank_at bid c;
  e ← vec_front (m_buffer_free_list b);
  r ← req_at p c;
  e ← entry_set (m_unique_id c) p r (Z.of_nat bid) rid cid e;
  let e := set_en_timestamp (m_cycle c) e in
  Ok (set_unique_id (int (m_unique_id c + 1))
        (set_bank bid (set_lists (m_buffer b ++ [e]) (tail (m_buffer_free_list b)) (m_current_list b) b) c)).

(** [insert_new_req]: [false] when the buffer of the bank is full of demands. *)
Definition insert_new_req (p : ptr) (c : dram_controller_c) : res (bool * dram_controller_c) :=
  r ← req_at p c;
  brc ← parse_address (dc_knobs c) (dc_mapping c) (mr_addr r);
  let '(bid, rid, cid) := brc in
  let i := Z.to_nat bid in
  b ← bank_at i c;
  c ← (if bool_decide (m_buffer_free_list b = []) then flush_prefetch i c else Ok c);
  b ← bank_at i c;
  if bool_decide (m_buffer_free_list b = []) then Ok (false, c)
  else
    c ← insert_req_in_drb p i rid cid c;
    let c := set_counts (m_num_completed_in_last_cycle c) (m_starvation_cycle c) (int (m_total_req c + 1)) c in
    c ← on_req p (set_mr_state MEM_DRAM_START) c;
    Ok (true, c).

(** ** The banks *)

(** The request scheduler: the entry it picks and what it leaves in the buffer.
    [rid i] is [m_current_rid[i]], [type] the type of an entry's request. *)
Class Schedule := {
  schedule : (Z → res Z) → (drb_entry_s → res Mem_Req_Type) → list drb_entry_s → res (drb_entry_s * list drb_entry_s);
}.

(** First come, first served: [buffer->front()], then [remove]. *)
#[export] Instance FCFS_schedule : Schedule := {|
  schedule rid type buffer :=
    match buffer with
    | [] => Err Abort
    | e :: buffer => Ok (e, buffer)
    end;
|}.

(** [list::sort]: a stable sort by [less]. *)
Fixpoint sort_insert {A} (less : A → A → bool) (x : A) (l : list A) : list A :=
  match l with
  | [] => [x]
  | y :: l' => if less y x then y :: sort_insert less x l' else x :: l
  end.
Definition list_sort {A} (less : A → A → bool) (l : list A) : list A := foldr (sort_insert less) [] l.

(** [sort_func::operator()], on entries with the type of their request and whether
    their row is the open one. *)
Record sort_key := mkKey { sk_prefetch : bool; sk_hit : bool; sk_timestamp : Z }.
Definition sort_less (a b : sort_key) : bool :=
  if negb (sk_prefetch a) && sk_prefetch b then true
  else if sk_prefetch a && negb (sk_prefetch b) then false
  else if sk_hit a && negb (sk_hit b) then true
  else if negb (sk_hit a) && sk_hit b then false
  else bool_decide (sk_timestamp a < sk_timestamp b).

(** The comparison looks up the open row of the bank of its first argument; the
    entries of a buffer are of one bank, [rid]. *)
Definition entry_key (t : Mem_Req_Type) (rid : Z) (e : drb_entry_s) : sort_key :=
  mkKey (bool_decide (t = MRT_DPRF)) (bool_decide (en_rid e = rid)) (en_timestamp e).

Fixpoint mapM_ {A B} (f : A → res B) (l : list A) : res (list B) :=
  match l with
  | [] => Ok []
  | x :: l => y ← f x; ys ← mapM_ f l; Ok (y :: ys)
  end.

(** [dc_frfcfs_c::schedule]: the buffer stays sorted; [remove] takes the front. *)
#[export] Instance FRFCFS_schedule : Schedule := {|
  schedule rid type buffer :=
    keyed ← mapM_ (λ e, t ← type e; r ← rid (en_bid e); Ok (entry_key t r e, e)) buffer;
    match list_sort (λ a b, sort_less a.1 b.1) keyed with
    | [] => Err Undefined
    | (_, e) :: l => Ok (e, l.*2)
    end;
|}.
#[global] Remove Hints FCFS_schedule FRFCFS_schedule : typeclass_instances.

Section controller.
Context {Sch : Schedule}.
Implicit Types c : dram_controller_c.

(** A served request goes to [free_req] when it is a write back, else to the output. *)
Definition finish_req (p : ptr) c : res dram_controller_c :=
  r ← req_at p c;
  if bool_decide (mr_type r = MRT_WB) then free_req p c
  else
    c ← (match m_tmp_output_buffer c with
         | Some tmp =>
             c ← on_req p (set_mr_rdy (u64 (m_cycle c + additional_latency (dc_knobs c)))) c;
             Ok (set_outputs (m_output_buffer c) (Some (tmp ++ [p])) c)
         | None => Ok (set_outputs (m_output_buffer c ++ [p]) None c)
         end);
    on_req p (set_mr_state MEM_DRAM_DONE) c.

(** The requests of the buffer with the address of the one that is served are served
    with it. [m_num_completed_in_last_cycle] is set to the cycle. *)
Definition merge_same (i : nat) (e : drb_entry_s) c : res dram_controller_c :=
  b ← bank_at i c;
  let same := filter (λ x, en_addr x = en_addr e) (m_buffer b) in
  c ← foldM same c (λ x c,
    p ← entry_req x; c ← finish_req p c;
    Ok (set_counts (int (m_cycle c)) (m_starvation_cycle c) (m_total_req c) c));
  let c := set_counts (m_num_completed_in_last_cycle c) (m_starvation_cycle c) (int (m_total_req c - Z.of_nat (length same))) c in
  Ok (set_bank i (set_lists (filter (λ x, en_addr x ≠ en_addr e) (m_buffer b))
        (m_buffer_free_list b ++ ((λ _, entry_reset) <$> same)) (m_current_list b) b) c).

(** One bank of [bank_schedule_complete]. *)
Definition complete_bank (i : nat) c : res dram_controller_c :=
  b ← bank_at i c;
  match m_current_list b with
  | None => Ok c
  | Some e =>
      if bool_decide (m_data_ready b ≤ m_cycle c) then
        _ ← assert_ (bool_decide (en_state e = DRAM_DATA_WAIT));
        c ← (if merge_requests (dc_knobs c) then merge_same i e c else Ok c);
        p ← entry_req e;
        c ← finish_req p c;
        b ← bank_at i c;
        let b := set_lists (m_buffer b) (m_buffer_free_list b ++ [entry_reset]) None b in
        let b := set_times (m_current_rid b) ULLONG_MAX (m_data_avail b) (m_bank_ready b) (m_bank_timestamp b) b in
        Ok (set_counts (int (m_num_completed_in_last_cycle c + 1)) (m_starvation_cycle c) (int (m_total_req c - 1)) (set_bank i b c))
      else Ok c
  end.

Definition bank_indices c : list nat := seq 0 (Z.to_nat (num_bank (dc_knobs c))).

Definition bank_schedule_complete c : res dram_controller_c :=
  foldM (bank_indices c) (set_counts 0 (m_starvation_cycle c) (m_total_req c) c) complete_bank.

(** One bank of [bank_schedule_new]. *)
Definition new_bank (i : nat) c : res dram_controller_c :=
  b ← bank_at i c;
  match m_current_list b with
  | None =>
      if bool_decide (m_buffer b = []) then Ok c
      else
        el ← schedule (λ j, b ← bank_at (Z.to_nat j) c; Ok (m_current_rid b)) (entry_type c) (m_buffer b);
        let e := set_en_scheduled (m_cycle c) (set_en_state DRAM_CMD el.1) in
        Ok (set_bank i (set_times (m_current_rid b) (m_data_ready b) (m_data_avail b) ULLONG_MAX (m_cycle c)
              (set_lists el.2 (m_buffer_free_list b) (Some e) b)) c)
  | Some e =>
      if bool_decide (m_bank_ready b ≤ m_cycle c ∧ en_state e = DRAM_CMD_WAIT) then
        Ok (set_bank i (set_times (m_current_rid b) (m_data_ready b) (m_data_avail b) ULLONG_MAX (m_cycle c)
              (set_lists (m_buffer b) (m_buffer_free_list b) (Some (set_en_state DRAM_CMD e)) b)) c)
      else Ok c
  end.

Definition bank_schedule_new c : res dram_controller_c := foldM (bank_indices c) c new_bank.
Definition bank_schedule c : res dram_controller_c := c ← bank_schedule_complete c; bank_schedule_new c.

(** ** The channels *)
Definition bank_range (ch : nat) c : list nat :=
  let n := Z.to_nat (Z.quot (num_bank (dc_knobs c)) (num_channel (dc_knobs c))) in seq (ch * n) n.
Definition channel_indices c : list nat := seq 0 (Z.to_nat (num_channel (dc_knobs c))).

(** The loop for the oldest bank of a channel whose entry passes [test]. *)
Definition oldest_bank (test : Bank_t → drb_entry_s → bool) (ch : nat) c : res (option nat) :=
  ob ← foldM (bank_range ch c) (ULLONG_MAX, None) (λ j ob,
    b ← bank_at j c;
    Ok (match m_current_list b with
        | Some e => if test b e && bool_decide (m_bank_timestamp b < ob.1) then (m_bank_timestamp b, Some j) else ob
        | None => ob
        end));
  Ok ob.2.

(** The next command of a bank: activate, column access or precharge. *)
Definition next_command (k : Knobs) (cycle : Z) (e : drb_entry_s) (b : Bank_t) : Bank_t :=
  if bool_decide (m_current_rid b = -1) then
    set_times (en_rid e) (m_data_ready b) ULLONG_MAX (u64 (cycle + activate_latency k)) (m_bank_timestamp b)
      (set_lists (m_buffer b) (m_buffer_free_list b) (Some (set_en_state DRAM_CMD_WAIT e)) b)
  else if bool_decide (en_rid e = m_current_rid b) then
    set_times (m_current_rid b) (m_data_ready b) (u64 (cycle + column_latency k)) (u64 (cycle + column_latency k)) (m_bank_timestamp b)
      (set_lists (m_buffer b) (m_buffer_free_list b) (Some (set_en_state DRAM_DATA e)) b)
  else
    set_times (-1) (m_data_ready b) ULLONG_MAX (u64 (cycle + precharge_latency k)) (m_bank_timestamp b)
      (set_lists (m_buffer b) (m_buffer_free_list b) (Some (set_en_state DRAM_CMD_WAIT e)) b).

Definition schedule_cmd (ch : nat) c : res dram_controller_c :=
  o ← oldest_bank (λ _ e, bool_decide (en_state e = DRAM_CMD)) ch c;
  match o with
  | None => Ok c
  | Some j =>
      b ← bank_at j c;
      e ← of_option Undefined (m_current_list b);
      _ ← assert_ (bool_decide (en_state e = DRAM_CMD));
      p ← entry_req e;
      c ← on_req p (set_mr_state MEM_DRAM_CMD) c;
      Ok (set_bank j (next_command (dc_knobs c) (m_cycle c) e b) c)
  end.
Definition channel_schedule_cmd c : res dram_controller_c := foldM (channel_indices c) c schedule_cmd.

Definition avail_data_bus (ch : Channel_t) (cycle : Z) : bool := bool_decide (m_dbus_ready ch ≤ cycle).

(** [acquire_data_bus]: the cycle of the last data, and the bytes left in it. *)
Definition acquire_data_bus (width cycle req_size : Z) (ch : Channel_t) : res (Z * Channel_t) :=
  if bool_decide (req_size < m_byte_avail ch) then Ok (cycle, mkChannel (m_byte_avail ch - req_size) cycle)
  else if bool_decide (width = 0) then Err Undefined
  else
    let rest := req_size - m_byte_avail ch in
    let latency := u64 (cycle + Z.quot rest width + 1) in
    Ok (latency, mkChannel (width - Z.rem rest width) latency).

(** The loop ends when the bus is busy or no bank waits for it; every turn takes a
    bank, so the number of banks is fuel enough ([schedule_data_done]). *)
Fixpoint schedule_data (fuel ch : nat) c : res dram_controller_c :=
  x ← vec_at (channels_ c) ch;
  if avail_data_bus x (m_cycle c) then
    o ← oldest_bank (λ b e, bool_decide (en_state e = DRAM_DATA) && bool_decide (m_data_avail b ≤ m_cycle c)) ch c;
    match o, fuel with
    | None, _ => Ok c
    | Some j, O => Ok c
    | Some j, S fuel =>
        b ← bank_at j c;
        e ← of_option Undefined (m_current_list b);
        p ← entry_req e;
        c ← on_req p (set_mr_state MEM_DRAM_DATA) c;
        _ ← assert_ (bool_decide (en_state e = DRAM_DATA));
        r ← req_at p c;
        rx ← acquire_data_bus (int (bus_width (dc_knobs c))) (m_cycle c) (en_size e) x;
        let b := set_times (m_current_rid b) rx.1 ULLONG_MAX (m_bank_ready b) (m_bank_timestamp b)
          (set_lists (m_buffer b) (m_buffer_free_list b) (Some (set_en_state DRAM_DATA_WAIT e)) b) in
        schedule_data fuel ch (set_channels (<[ch := rx.2]> (channels_ c)) (set_bank j b c))
    end
  else Ok c.
Definition channel_schedule_data c : res dram_controller_c :=
  foldM (channel_indices c) c (λ ch c, schedule_data (length (banks_ c)) ch c).
Definition channel_schedule c : res dram_controller_c := c ← channel_schedule_cmd c; channel_schedule_data c.

(** Requests without an answer for 5000 cycles end the simulation. *)
Definition progress_check c : res dram_controller_c :=
  let n := if bool_decide (0 < m_total_req c ∧ m_num_completed_in_last_cycle c = 0) then int (m_starvation_cycle c + 1) else 0 in
  _ ← assert_ (bool_decide (n < 5000));
  Ok (set_counts (m_num_completed_in_last_cycle c) n (m_total_req c) c).
End controller.

(** ** The network *)

(** What the controller sees of it (noc.cc, router.cc): a packet is taken or refused,
    a packet that arrived is looked at and removed; and the number of a node. *)
Class Network (N : Type) := {
  net_id : N → Z;
  net_dst : Z → N → Z;
  net_send : ptr → N → bool * N;
  net_receive : N → option ptr;
  net_pop : N → N;
}.

Section network.
Context {Sch : Schedule} {N : Type} {Net : Network N}.
Implicit Types c : dram_controller_c.

(** The requests at the front whose time has come. *)
Fixpoint ready_packets (l : list ptr) c : res (list ptr) :=
  match l with
  | [] => Ok []
  | p :: l =>
      r ← req_at p c;
      if bool_decide (mr_rdy_cycle r ≤ m_cycle c) then ps ← ready_packets l c; Ok (p :: ps) else Ok []
  end.

Definition delay_packet c : res dram_controller_c :=
  match m_tmp_output_buffer c with
  | None => Ok c
  | Some tmp =>
      ps ← ready_packets tmp c;
      Ok (set_outputs (m_output_buffer c ++ ps) (Some (filter (λ p, p ∉ ps) tmp)) c)
  end.

Definition NOC_FILL : Z := 0.

(** The state of [send_packet]: which types of requests, of the CPU and the GPU, were
    looked at, the requests that were sent, the network, the controller. *)
Record Sending := mkSending {
  sg_checked : bool * bool;
  sg_sent : list ptr;
  sg_net : N;
  sg_dc : dram_controller_c;
}.

Definition of_type (ptx : bool) (x : bool * bool) : bool := if ptx then x.2 else x.1.
Definition set_type (ptx : bool) (x : bool * bool) : bool * bool := if ptx then (x.1, true) else (true, x.2).

(** The inner loop; a refused packet ends it. *)
Fixpoint send_loop (allowed : bool * bool) (l : list ptr) (st : Sending) : res Sending :=
  match l with
  | [] => Ok st
  | p :: l =>
      r ← req_at p (sg_dc st);
      if of_type (mr_ptx r) allowed then
        let k := dc_knobs (sg_dc st) in
        let src := if enable_new_noc k then net_id (sg_net st) else m_noc_id (sg_dc st) in
        let dst := if enable_new_noc k then net_dst (mr_node r) (sg_net st) else mr_msg_dst r in
        c ← on_req p (set_mr_msg NOC_FILL src dst) (sg_dc st);
        _ ← assert_ (bool_decide (src ≠ -1 ∧ dst ≠ -1));
        let bn := net_send p (sg_net st) in
        let st' := mkSending (set_type (mr_ptx r) (sg_checked st)) (sg_sent st ++ (if bn.1 then [p] else [])) bn.2 c in
        if bn.1 then send_loop allowed l st' else Ok st'
      else send_loop allowed l st
  end.

Definition send_turn (_ : nat) (st : Sending) : res Sending :=
  if (sg_checked st).1 && (sg_checked st).2 then Ok st
  else send_loop (negb (sg_checked st).1, negb (sg_checked st).2) (m_output_buffer (sg_dc st)) st.

Definition send_packet (cn : dram_controller_c * N) : res (dram_controller_c * N) :=
  let turns := if noc_vc_partition (dc_knobs cn.1) then 2%nat else 1%nat in
  st ← foldM (seq 0 turns) (mkSending (false, false) [] cn.2 cn.1) send_turn;
  let c := sg_dc st in
  let c := set_outputs (filter (λ p, p ∉ sg_sent st) (m_output_buffer c)) (m_tmp_output_buffer c) c in
  Ok (set_heap (dc_heap c) (dc_freed c) (rev (sg_sent st) ++ dc_sent c) c, sg_net st).

Definition receive_packet (cn : dram_controller_c * N) : res (dram_controller_c * N) :=
  if enable_new_noc (dc_knobs cn.1) then
    match net_receive cn.2 with
    | None => Ok cn
    | Some p =>
        bc ← insert_new_req p cn.1;
        Ok (bc.2, if bc.1 : bool then net_pop cn.2 else cn.2)
    end
  else Ok cn.

(** [run_a_cycle] without MCsim. *)
Definition run_a_cycle (cn : dram_controller_c * N) : res (dram_controller_c * N) :=
  cn ← send_packet cn;
  c ← delay_packet cn.1;
  c ← channel_schedule c;
  c ← bank_schedule c;
  cn ← receive_packet (c, cn.2);
  c ← progress_check cn.1;
  Ok (set_cycle (u64 (m_cycle c + 1)) c, cn.2).
End network.
