(* ===== verification/MacDramLaws.v ===== *)
(** * What the memory controller of MacSim keeps

    Theorems on MacDram.v. *)
From S2P Require Import Prelude Types MacDram.
#[local] Open Scope Z_scope.

(** ** Where the requests are *)
Definition bank_entries (b : Bank_t) : list drb_entry_s := m_buffer b ++ option_list (m_current_list b).
Definition bank_reqs (b : Bank_t) : list ptr := omap en_req (bank_entries b).
Definition dc_outputs (c : dram_controller_c) : list ptr :=
  m_pending_request c ++ default [] (m_tmp_output_buffer c) ++ m_output_buffer c.
Definition dc_held (c : dram_controller_c) : list ptr := concat (bank_reqs <$> banks_ c) ++ dc_outputs c.

(** The requests the controller holds are live, and none is held twice. *)
Record heap_ok (c : dram_controller_c) : Prop := {
  ho_nodup : NoDup (dc_held c);
  ho_live p : p ∈ dc_held c → is_Some (dc_heap c !! p);
}.

(** A request lives on, with its type, its address and its size. *)
Definition static (r : mem_req_s) : Mem_Req_Type * Z * Z * bool * Z * Z :=
  (mr_type r, mr_addr r, mr_size r, mr_ptx r, mr_node r, mr_core_id r).
Definition kept (p : ptr) (h h' : gmap ptr mem_req_s) : Prop :=
  ∀ r, h !! p = Some r → ∃ r', h' !! p = Some r' ∧ static r' = static r.

Lemma kept_refl p h : kept p h h.
Proof. intros r Hr. by exists r. Qed.
Lemma kept_then p h1 h2 h3 : kept p h1 h2 → kept p h2 h3 → kept p h1 h3.
Proof. intros H1 H2 r Hr. destruct (H1 r Hr) as (r1 & Hr1 & E1). destruct (H2 r1 Hr1) as (r2 & ? & ?). exists r2. split; [done|congruence]. Qed.
Lemma kept_live p h h' : kept p h h' → is_Some (h !! p) → is_Some (h' !! p).
Proof. intros H1 [r Hr]. destruct (H1 r Hr) as (r' & ? & _). by exists r'. Qed.
Lemma kept_update p q h r r' : h !! q = Some r → static r' = static r → kept p h (<[q := r']> h).
Proof.
  intros Hq Hs x Hx. destruct (decide (p = q)) as [->|Hn]; [|rewrite lookup_insert_ne by done; by exists x].
  exists r'. rewrite lookup_insert_eq. split; [done|congruence].
Qed.
Lemma kept_delete p q h : p ≠ q → kept p h (delete q h).
Proof. intros Hn r Hr. exists r. by rewrite lookup_delete_ne. Qed.
#[local] Hint Extern 0 (kept _ _ _) => exact (kept_refl _ _) : core.
#[local] Hint Extern 0 => match goal with H : _ ∈ [] |- _ => by apply not_elem_of_nil in H end : core.

(** Only write backs and prefetches may be dropped. *)
Definition droppable (p : ptr) (h : gmap ptr mem_req_s) : Prop :=
  ∀ r, h !! p = Some r → mr_type r = MRT_WB ∨ mr_type r = MRT_DPRF.

Lemma droppable_kept p h h' : kept p h h' → droppable p h' → droppable p h.
Proof. intros Hk Hd r Hr. destruct (Hk r Hr) as (r' & Hr' & [= E _ _ _ _ _]). rewrite <- E. by apply Hd. Qed.

(** From [c] to [c'] requests were freed and sent, and the others are still held. *)
Record moved (F S : list ptr) (c c' : dram_controller_c) : Prop := {
  mv_held : dc_held c ≡ₚ dc_held c' ++ F ++ S;
  mv_freed : dc_freed c' ≡ₚ F ++ dc_freed c;
  mv_sent : dc_sent c' ≡ₚ S ++ dc_sent c;
  mv_live p : p ∉ F → kept p (dc_heap c) (dc_heap c');
  mv_why p : p ∈ F → droppable p (dc_heap c);
}.
Definition conserves (c c' : dram_controller_c) : Prop := ∃ F S, moved F S c c'.

#[export] Instance conserves_preorder : PreOrder conserves.
Proof.
  split.
  - intros c. exists [], []. split; try done. by rewrite !app_nil_r.
  - intros c1 c2 c3 (F & S & [H1 H2 H3 H4 H5]) (F' & S' & [K1 K2 K3 K4 K5]). exists (F ++ F'), (S ++ S'). split.
    + rewrite H1, K1. solve_Permutation.
    + rewrite K2, H2. solve_Permutation.
    + rewrite K3, H3. solve_Permutation.
    + intros p. rewrite not_elem_of_app. intros [? ?]. eapply kept_then; [by apply H4|by apply K4].
    + intros p [Hp|Hp]%elem_of_app; [by apply H5|]. destruct (decide (p ∈ F)); [by apply H5|].
      eapply droppable_kept; [by apply H4|by apply K5].
Qed.

Lemma conserves_heap c c' : conserves c c' → heap_ok c → heap_ok c'.
Proof.
  intros (F & S & [H1 H2 H3 H4 _]) [Hnd Hl]. rewrite H1, NoDup_app in Hnd. destruct Hnd as (Hnd & Hd & _). split; [done|].
  intros p Hp. apply (kept_live p (dc_heap c)); [apply H4|].
  - intros HF. apply (Hd p Hp). apply elem_of_app. by left.
  - apply Hl. rewrite H1. apply elem_of_app. by left.
Qed.

(** Freed, sent or held: the account. *)
Definition dc_account (c : dram_controller_c) : list ptr := dc_held c ++ dc_freed c ++ dc_sent c.

Lemma conserves_account c c' : conserves c c' → dc_account c' ≡ₚ dc_account c.
Proof. intros (F & S & [H1 H2 H3 _ _]). unfold dc_account. rewrite H1, H2, H3. solve_Permutation. Qed.

Lemma bank_split c i b :
  banks_ c !! i = Some b →
  ∃ rest, concat (bank_reqs <$> banks_ c) ≡ₚ bank_reqs b ++ rest ∧
    ∀ b', concat (bank_reqs <$> <[i := b']> (banks_ c)) ≡ₚ bank_reqs b' ++ rest.
Proof.
  generalize (banks_ c). intros l Hi. exists (concat (bank_reqs <$> take i l) ++ concat (bank_reqs <$> drop (S i) l)). split.
  - rewrite <- (take_drop_middle l i b Hi) at 1. rewrite fmap_app, concat_app. simpl. solve_Permutation.
  - intros b'. rewrite insert_take_drop by (by eapply lookup_lt_Some). rewrite fmap_app, concat_app. simpl. solve_Permutation.
Qed.

(** ** The shape of the state *)

(** Bank [i]: its entries are as many as were made; those in use are of this bank and
    have a request; only data that are on the bus have a time. *)
Record bank_ok (k : Knobs) (i : nat) (b : Bank_t) : Prop := {
  bo_entries : (length (bank_entries b) + length (m_buffer_free_list b) = buffer_size k)%nat;
  bo_entry e : e ∈ bank_entries b → is_Some (en_req e) ∧ en_bid e = Z.of_nat i;
  bo_data : m_data_ready b = ULLONG_MAX ∨ ∃ e, m_current_list b = Some e ∧ en_state e = DRAM_DATA_WAIT;
}.

Record struct_ok (c : dram_controller_c) : Prop := {
  so_banks : length (banks_ c) = Z.to_nat (num_bank (dc_knobs c));
  so_channels : length (channels_ c) = Z.to_nat (num_channel (dc_knobs c));
  so_numbers : 0 ≤ num_bank (dc_knobs c) ∧ 0 < num_channel (dc_knobs c);
  so_width : int (bus_width (dc_knobs c)) ≠ 0;
  so_bank i b : banks_ c !! i = Some b → bank_ok (dc_knobs c) i b;
  so_cycle : m_cycle c < ULLONG_MAX;
}.

Definition good (c : dram_controller_c) : Prop := struct_ok c ∧ heap_ok c.

(** What the parts of a cycle do not touch. *)
Definition params (c : dram_controller_c) : Knobs * Mapping * Z * Z * Z :=
  (dc_knobs c, dc_mapping c, m_noc_id c, m_cycle c, m_starvation_cycle c).

Lemma params_cycle c c' : params c' = params c → m_cycle c' = m_cycle c ∧ dc_knobs c' = dc_knobs c.
Proof. unfold params. by intros [= -> _ _ -> _]. Qed.

Record goes (c c' : dram_controller_c) : Prop := {
  go_struct : struct_ok c';
  go_conserves : conserves c c';
  go_params : params c' = params c;
}.

Lemma goes_refl c : good c → goes c c.
Proof. intros [H _]. by split. Qed.
Lemma goes_trans c1 c2 c3 : goes c1 c2 → goes c2 c3 → goes c1 c3.
Proof. intros [H1 H2 H3] [K1 K2 K3]. split; [done|by etrans|congruence]. Qed.
Lemma goes_good c c' : good c → goes c c' → good c'.
Proof. intros [_ Hh] [H1 H2 _]. split; [done|]. by eapply conserves_heap. Qed.

(** A loop of steps. *)
Lemma loop_goes {X} (l : list X) (f : X → dram_controller_c → res dram_controller_c) c :
  good c → (∀ x c1, x ∈ l → params c1 = params c → good c1 → ∃ c2, f x c1 = Ok c2 ∧ goes c1 c2) →
  ∃ c', foldM l c f = Ok c' ∧ goes c c'.
Proof.
  intros Hg Hf. destruct (foldM_total (λ c1, good c1 ∧ goes c c1) l c f) as (c' & Hr & _ & Hc'); [by split; [|apply goes_refl]| |eauto].
  intros x c1 Hx [Hg1 H1]. destruct (Hf x c1 Hx (go_params _ _ H1) Hg1) as (c2 & E & H2). exists c2.
  split; [done|]. split; [by eapply goes_good|by eapply goes_trans].
Qed.

Lemma bank_in c i : struct_ok c → (i < length (banks_ c))%nat → ∃ b, bank_at i c = Ok b ∧ banks_ c !! i = Some b ∧ bank_ok (dc_knobs c) i b.
Proof.
  intros Hs Hi. destruct (lookup_lt_is_Some_2 _ _ Hi) as [b Hb]. exists b. unfold bank_at, vec_at. rewrite Hb.
  split_and!; [done|done|]. by apply (so_bank _ Hs).
Qed.

(** Only a bank changes, and it keeps its requests. *)
Lemma set_bank_goes c i b b' :
  good c → banks_ c !! i = Some b → bank_ok (dc_knobs c) i b' → bank_reqs b' ≡ₚ bank_reqs b → goes c (set_bank i b' c).
Proof.
  intros [Hs _] Hi Hb' Hp. destruct (bank_split c i b Hi) as (rest & E1 & E2). split; [| |done].
  - destruct Hs as [H1 H2 H3 H4 H5 H6]. split; try done; simpl.
    + by rewrite length_insert.
    + intros j bj Hj. destruct (decide (j = i)) as [->|Hne].
      * rewrite list_lookup_insert_eq in Hj by (by eapply lookup_lt_Some). by injection Hj as <-.
      * rewrite list_lookup_insert_ne in Hj by done. by apply H5.
  - exists [], []. split; try done. unfold dc_held. rewrite !app_nil_r. simpl. rewrite E1, E2, Hp. done.
Qed.

Lemma on_req_goes p f c :
  (∀ r, static (f r) = static r) → good c → is_Some (dc_heap c !! p) →
  ∃ c', on_req p f c = Ok c' ∧ goes c c' ∧ banks_ c' = banks_ c ∧ channels_ c' = channels_ c.
Proof.
  intros Hst [Hs Hh] [r Hr]. unfold on_req, req_at. rewrite Hr. simpl. eexists. split; [done|]. split; [|done]. split; [| |done].
  - destruct Hs as [H1 H2 H3 H4 H5 H6]. by split.
  - exists [], []. split; try done; [by rewrite !app_nil_r|]. intros q _. by apply (kept_update q p _ r).
Qed.

Lemma entry_live c i b e :
  good c → banks_ c !! i = Some b → e ∈ bank_entries b →
  ∃ p, entry_req e = Ok p ∧ en_req e = Some p ∧ p ∈ dc_held c ∧ is_Some (dc_heap c !! p) ∧ en_bid e = Z.of_nat i.
Proof.
  intros [Hs Hh] Hi He. destruct (bo_entry _ _ _ (so_bank _ Hs i b Hi) e He) as [[p Hp] Hb].
  assert (p ∈ dc_held c) as Hin.
  { unfold dc_held. destruct (bank_split c i b Hi) as (rest & -> & _). rewrite !elem_of_app. left. left.
    apply list_elem_of_omap. by exists e. }
  exists p. unfold entry_req. rewrite Hp. split_and!; try done. by apply Hh.
Qed.

(** ** Requests are served *)

(** The requests [ps] went to the outputs or, [F], were freed; the banks are as they were. *)
Record finished (ps F : list ptr) (c c' : dram_controller_c) : Prop := {
  fi_banks : banks_ c' = banks_ c ∧ channels_ c' = channels_ c ∧ params c' = params c;
  fi_outputs : ps ++ dc_outputs c ≡ₚ dc_outputs c' ++ F;
  fi_freed : dc_freed c' ≡ₚ F ++ dc_freed c;
  fi_sent : dc_sent c' = dc_sent c;
  fi_live p : p ∉ F → kept p (dc_heap c) (dc_heap c');
  fi_some p : p ∈ F → p ∈ ps;
  fi_why p : p ∈ F → droppable p (dc_heap c);
}.

Lemma finished_nil c : finished [] [] c c.
Proof. split; try done. by rewrite app_nil_r. Qed.

Lemma finished_app ps ps' F F' c c1 c2 : finished ps F c c1 → finished ps' F' c1 c2 → finished (ps ++ ps') (F ++ F') c c2.
Proof.
  intros [(A1 & A2 & A3) A4 A5 A6 A7 A8 A9] [(B1 & B2 & B3) B4 B5 B6 B7 B8 B9]. split.
  - split_and!; congruence.
  - transitivity (ps' ++ (dc_outputs c1 ++ F)); [rewrite <- A4; solve_Permutation|]. rewrite app_assoc, B4. solve_Permutation.
  - rewrite B5, A5. solve_Permutation.
  - by rewrite B6.
  - intros p. rewrite not_elem_of_app. intros [? ?]. eapply kept_then; [by apply A7|by apply B7].
  - intros p. rewrite !elem_of_app. naive_solver.
  - intros p [Hp|Hp]%elem_of_app; [by apply A9|]. destruct (decide (p ∈ F)); [by apply A9|].
    eapply droppable_kept; [by apply A7|by apply B9].
Qed.

Lemma finish_req_finished p c :
  is_Some (dc_heap c !! p) → ∃ F c', finish_req p c = Ok c' ∧ finished [p] F c c'.
Proof.
  intros [r Hr]. unfold finish_req, free_req, on_req, req_at. rewrite Hr. simpl. case_bool_decide as Ht.
  - exists [p]. eexists. split; [done|]. split; simpl; try done.
    + unfold dc_outputs. simpl. solve_Permutation.
    + intros q [Hq _]%not_elem_of_cons. by apply kept_delete.
    + intros q ->%list_elem_of_singleton x Hx. left. congruence.
  - exists []. destruct (m_tmp_output_buffer c) as [tmp|] eqn:Et; simpl; rewrite ?Hr; simpl; rewrite ?lookup_insert_eq; simpl; rewrite ?Hr; simpl;
      (eexists; split; [done|]); (split; simpl; try done).
    + unfold dc_outputs. simpl. rewrite Et. simpl. solve_Permutation.
    + intros q _. rewrite ?insert_insert_eq. by apply (kept_update q p _ r).
    + unfold dc_outputs. simpl. rewrite Et. simpl. solve_Permutation.
    + intros q _. rewrite ?insert_insert_eq. by apply (kept_update q p _ r).
Qed.

Lemma finished_counts x z ps F c c' : finished ps F c c' → finished ps F c (set_counts x (m_starvation_cycle c') z c').
Proof. by intros [H1 H2 H3 H4 H5 H6 H7]. Qed.

(** A list of entries is served. *)
Lemma finish_entries (f : dram_controller_c → Z * Z) es c :
  Forall (λ e, is_Some (en_req e)) es → NoDup (omap en_req es) → (∀ p, p ∈ omap en_req es → is_Some (dc_heap c !! p)) →
  ∃ F c', foldM es c (λ e c, p ← entry_req e; c ← finish_req p c; Ok (set_counts (f c).1 (m_starvation_cycle c) (f c).2 c)) = Ok c' ∧
    finished (omap en_req es) F c c'.
Proof.
  revert c. induction es as [|e es IH]; intros c Hall Hnd Hl.
  - exists [], c. split; [done|apply finished_nil].
  - apply Forall_cons in Hall as [[p Hp] Hall]. simpl in Hnd, Hl |- *. rewrite Hp in Hnd, Hl |- *. apply NoDup_cons in Hnd as [Hnp Hnd].
    assert (entry_req e = Ok p) as -> by (unfold entry_req; by rewrite Hp). cbn [mbind res_bind].
    destruct (finish_req_finished p c) as (F1 & c1 & E1 & H1); [apply Hl; left|]. rewrite E1. cbn [mbind res_bind].
    apply (finished_counts (f c1).1 (f c1).2) in H1.
    destruct (IH (set_counts (f c1).1 (m_starvation_cycle c1) (f c1).2 c1) Hall Hnd) as (F2 & c' & E2 & H2).
    { intros q Hq. eapply kept_live; [apply (fi_live _ _ _ _ H1)|apply Hl; by right].
      intros HF. apply (fi_some _ _ _ _ H1), list_elem_of_singleton in HF as ->. done. }
    exists (F1 ++ F2), c'. split; [exact E2|]. exact (finished_app _ _ _ _ _ _ _ H1 H2).
Qed.

(** The requests of a bank that were served leave the bank. *)
Lemma finish_bank_goes x z c c1 i b b' ps F :
  good c → banks_ c !! i = Some b → finished ps F c c1 → bank_reqs b ≡ₚ ps ++ bank_reqs b' → bank_ok (dc_knobs c) i b' →
  goes c (set_counts x (m_starvation_cycle c1) z (set_bank i b' c1)).
Proof.
  intros [Hs _] Hi [(A1 & A2 & A3) A4 A5 A6 A7 A8 A9] Hp Hb. destruct (bank_split c i b Hi) as (rest & E1 & E2).
  unfold params in A3. injection A3 as P1 P2 P3 P4 P5. split.
  - destruct Hs as [H1 H2 H3 H4 H5 H6]. split; simpl; rewrite ?P1, ?P4, ?A1, ?A2; try done.
    + by rewrite length_insert.
    + intros j bj Hj. destruct (decide (j = i)) as [->|Hne].
      * rewrite list_lookup_insert_eq in Hj by (by eapply lookup_lt_Some). by injection Hj as <-.
      * rewrite list_lookup_insert_ne in Hj by done. by apply H5.
  - exists F, []. split; simpl; [|exact A5|by rewrite A6|exact A7|exact A9].
    unfold dc_held. simpl. change (dc_outputs (set_counts x (m_starvation_cycle c1) z (set_bank i b' c1))) with (dc_outputs c1).
    rewrite A1, E1, E2, Hp, app_nil_r. transitivity (bank_reqs b' ++ rest ++ (ps ++ dc_outputs c)); [solve_Permutation|].
    rewrite A4. solve_Permutation.
  - unfold params. simpl. congruence.
Qed.

Lemma filter_split {A} (P : A → Prop) `{∀ x, Decision (P x)} (l : list A) : l ≡ₚ filter P l ++ filter (λ x, ¬ P x) l.
Proof.
  induction l as [|x l IH]; [done|]. rewrite !filter_cons. destruct (decide (P x)), (decide (¬ P x)); try done.
  - simpl. by rewrite <- IH.
  - rewrite <- Permutation_middle. by rewrite <- IH.
Qed.

Lemma omap_Permutation {A B} (f : A → option B) l l' : l ≡ₚ l' → omap f l ≡ₚ omap f l'.
Proof. induction 1; simpl; repeat case_match; try done; [by constructor|by constructor|by etrans]. Qed.

Lemma merge_same_goes c i b e :
  good c → banks_ c !! i = Some b →
  ∃ c' b', merge_same i e c = Ok c' ∧ goes c c' ∧ banks_ c' !! i = Some b' ∧ m_current_list b' = m_current_list b ∧
    m_data_ready b' = m_data_ready b.
Proof.
  intros Hg Hi. pose proof (so_bank _ (proj1 Hg) i b Hi) as Hb. unfold merge_same, bank_at, vec_at. rewrite Hi. cbn [mbind res_bind of_option].
  set (same := filter (λ x, en_addr x = en_addr e) (m_buffer b)). set (rest := filter (λ x, en_addr x ≠ en_addr e) (m_buffer b)).
  assert (m_buffer b ≡ₚ same ++ rest) as Hsplit by apply (filter_split (λ x, en_addr x = en_addr e)).
  assert (∀ x, x ∈ same → x ∈ bank_entries b) as Hsame.
  { intros x [_ Hx]%list_elem_of_filter. unfold bank_entries. apply elem_of_app. by left. }
  assert (bank_reqs b ≡ₚ omap en_req same ++ omap en_req (rest ++ option_list (m_current_list b))) as Hreqs.
  { unfold bank_reqs, bank_entries. rewrite <- omap_app. apply omap_Permutation. rewrite app_assoc. by rewrite <- Hsplit. }
  assert (∀ p, p ∈ omap en_req same → p ∈ dc_held c) as Hheld.
  { intros p (x & Hx & Hxp)%list_elem_of_omap. destruct (entry_live c i b x Hg Hi (Hsame x Hx)) as (p' & _ & E & ? & _).
    rewrite E in Hxp. by injection Hxp as <-. }
  edestruct (finish_entries (λ c, (int (m_cycle c), m_total_req c)) same c) as (F & c1 & E & Hf).
  - apply Forall_forall. intros x Hx. apply (bo_entry _ _ _ Hb x (Hsame x Hx)).
  - destruct Hg as [_ [Hnd _]]. unfold dc_held in Hnd. destruct (bank_split c i b Hi) as (r & Er & _).
    rewrite Er, Hreqs, !NoDup_app in Hnd. apply Hnd.
  - intros p Hp. apply (ho_live _ (proj2 Hg)), Hheld, Hp.
  - cbn [fst snd] in E. rewrite E. cbn [mbind res_bind]. set (b' := set_lists rest _ _ b).
    assert (bank_ok (dc_knobs c) i b') as Hb'.
    { destruct Hb as [B1 B2 B3]. split; simpl; [|intros x Hx; apply B2|exact B3].
      - rewrite <- B1. unfold bank_entries. simpl. rewrite !length_app, length_fmap. rewrite (Permutation_length Hsplit), length_app. lia.
      - unfold bank_entries in *. rewrite elem_of_app in Hx |- *. simpl in Hx. destruct Hx as [Hx|Hx]; [|by right].
        left. by apply list_elem_of_filter in Hx as [_ Hx]. }
    eexists _, b'. split; [done|]. split; [|split; [|done]].
    + exact (finish_bank_goes _ _ c c1 i b b' (omap en_req same) F Hg Hi Hf Hreqs Hb').
    + simpl. rewrite (proj1 (fi_banks _ _ _ _ Hf)). apply list_lookup_insert_eq. by eapply lookup_lt_Some.
Qed.

(** No assertion of [bank_schedule_complete] fails. *)
Lemma complete_bank_goes c i :
  good c → (i < length (banks_ c))%nat → ∃ c', complete_bank i c = Ok c' ∧ goes c c'.
Proof.
  intros Hg Hlt. destruct (bank_in c i (proj1 Hg) Hlt) as (b & E & Hi & Hb). unfold complete_bank. rewrite E. cbn [mbind res_bind].
  destruct (m_current_list b) as [e|] eqn:Ec; [|exists c; split; [done|by apply goes_refl]].
  case_bool_decide as Hdue; [|exists c; split; [done|by apply goes_refl]].
  rewrite bool_decide_true; [|destruct (bo_data _ _ _ Hb) as [E'|(e' & Ee & ?)]; [pose proof (so_cycle _ (proj1 Hg)); lia|congruence]].
  cbn [assert_ mbind res_bind].
  assert (∃ c1 b1, (if merge_requests (dc_knobs c) then merge_same i e c else Ok c) = Ok c1 ∧ goes c c1 ∧
    banks_ c1 !! i = Some b1 ∧ m_current_list b1 = Some e ∧ m_data_ready b1 = m_data_ready b) as (c1 & b1 & E1 & H1 & Hi1 & Ec1 & Ed1).
  { destruct (merge_requests _).
    - destruct (merge_same_goes c i b e Hg Hi) as (c1 & b1 & ? & ? & ? & Ec' & ?). rewrite Ec in Ec'. eauto 10.
    - exists c, b. split_and!; try done. by apply goes_refl. }
  rewrite E1. cbn [mbind res_bind]. pose proof (goes_good _ _ Hg H1) as Hg1. pose proof (so_bank _ (proj1 Hg1) i b1 Hi1) as Hb1.
  assert (e ∈ bank_entries b1) as Hin by (unfold bank_entries; rewrite Ec1; apply elem_of_app; right; left).
  destruct (entry_live c1 i b1 e Hg1 Hi1 Hin) as (p & Ep & Ep' & _ & Hl & _). rewrite Ep. cbn [mbind res_bind].
  destruct (finish_req_finished p c1 Hl) as (F & c2 & E2 & Hf). rewrite E2. cbn [mbind res_bind].
  unfold bank_at, vec_at. rewrite (proj1 (fi_banks _ _ _ _ Hf)), Hi1. cbn [mbind res_bind of_option].
  eexists. split; [done|]. eapply goes_trans; [exact H1|].
  apply (finish_bank_goes _ _ c1 c2 i b1 _ [p] F Hg1 Hi1 Hf).
  - unfold bank_reqs, bank_entries. rewrite Ec1. simpl. rewrite !omap_app. simpl. rewrite Ep', !app_nil_r. by rewrite Permutation_app_comm.
  - destruct Hb1 as [B1 B2 B3]. split; simpl; [| |by left].
    + rewrite <- B1. unfold bank_entries. rewrite Ec1. simpl. rewrite !length_app. simpl. lia.
    + intros x. unfold bank_entries. simpl. rewrite app_nil_r. intros Hx. apply B2. unfold bank_entries. apply elem_of_app. by left.
Qed.

Lemma bank_index c i : struct_ok c → i ∈ bank_indices c → (i < length (banks_ c))%nat.
Proof. intros Hs Hi%elem_of_seq. rewrite (so_banks _ Hs). lia. Qed.

Lemma params_banks c c' : struct_ok c → struct_ok c' → params c' = params c → length (banks_ c') = length (banks_ c).
Proof. unfold params. intros H H' [= E1 E2 E3 E4 E5]. rewrite (so_banks _ H), (so_banks _ H'), E1. done. Qed.

Lemma counts_goes x z c : good c → goes c (set_counts x (m_starvation_cycle c) z c).
Proof.
  intros [[H1 H2 H3 H4 H5 H6] _]. split; [by split| |done]. exists [], []. split; try done. by rewrite !app_nil_r.
Qed.

Lemma bank_schedule_complete_goes c : good c → ∃ c', bank_schedule_complete c = Ok c' ∧ goes c c'.
Proof.
  intros Hg. unfold bank_schedule_complete. pose proof (counts_goes 0 (m_total_req c) c Hg) as H0.
  set (c0 := set_counts 0 _ _ c) in *. pose proof (goes_good _ _ Hg H0) as Hg0.
  destruct (loop_goes (bank_indices c) complete_bank c0 Hg0) as (c' & E & H').
  - intros i c1 Hi Hpar Hg1. apply complete_bank_goes; [done|].
    rewrite (params_banks c0 c1 (proj1 Hg0) (proj1 Hg1) Hpar). by apply (bank_index c0 i (proj1 Hg0)).
  - exists c'. split; [exact E|]. by eapply goes_trans.
Qed.

(** ** New requests *)

(** What a request scheduler of MacSim promises: it takes one entry of a buffer. *)
Class TakesOne `{Sch : Schedule} := {
  takes_one rid type buffer :
    buffer ≠ [] → (∀ e, e ∈ buffer → ∃ r, rid (en_bid e) = Ok r) → (∀ e, e ∈ buffer → ∃ t, type e = Ok t) →
    ∃ e rest, schedule rid type buffer = Ok (e, rest) ∧ buffer ≡ₚ e :: rest;
}.

#[export] Instance FCFS_takes_one : @TakesOne FCFS_schedule.
Proof. split. intros rid type [|e l] Hne _ _; [done|]. by exists e, l. Qed.

Lemma sort_insert_perm {A} (less : A → A → bool) x l : sort_insert less x l ≡ₚ x :: l.
Proof.
  induction l as [|y l IH]; [done|]. simpl. destruct (less y x); [|done]. rewrite IH. apply Permutation_swap.
Qed.
Lemma list_sort_perm {A} (less : A → A → bool) l : list_sort less l ≡ₚ l.
Proof. induction l as [|x l IH]; [done|]. simpl. by rewrite sort_insert_perm, IH. Qed.

Lemma mapM_total {A B} (f : A → res B) l : (∀ x, x ∈ l → ∃ y, f x = Ok y) → ∃ ys, mapM_ f l = Ok ys ∧ Forall2 (λ x y, f x = Ok y) l ys.
Proof.
  induction l as [|x l IH]; intros Hl; [by exists []|]. destruct (Hl x ltac:(left)) as [y Hy].
  destruct IH as (ys & E & H2); [intros; apply Hl; by right|]. exists (y :: ys). simpl. rewrite Hy. simpl. rewrite E. split; [done|by constructor].
Qed.

Section keyed.
Variables (rid : Z → res Z) (type : drb_entry_s → res Mem_Req_Type) (buffer : list drb_entry_s).
Hypothesis rid_ok : ∀ e, e ∈ buffer → ∃ r, rid (en_bid e) = Ok r.
Hypothesis type_ok : ∀ e, e ∈ buffer → ∃ t, type e = Ok t.

Lemma keyed_total :
  ∃ ks, mapM_ (λ e, t ← type e; r ← rid (en_bid e); Ok (entry_key t r e, e)) buffer = Ok ks ∧ ks.*2 = buffer ∧
    ∀ k e, (k, e) ∈ ks → ∃ t r, type e = Ok t ∧ rid (en_bid e) = Ok r ∧ k = entry_key t r e.
Proof.
  destruct (mapM_total (λ e, t ← type e; r ← rid (en_bid e); Ok (entry_key t r e, e)) buffer) as (ks & E & H2).
  - intros e He. destruct (type_ok e He) as [t Ht], (rid_ok e He) as [r Hr]. rewrite Ht. simpl. rewrite Hr. simpl. by eexists.
  - exists ks. split; [exact E|]. clear E rid_ok type_ok. induction H2 as [|e y l ys Hy _ IH]; [split; [done|by intros ? ? ?%not_elem_of_nil]|].
    apply bind_Ok in Hy as (t & Ht & Hy). apply bind_Ok in Hy as (r & Hr & [= <-]). destruct IH as [E IH]. split; [rewrite fmap_cons; by rewrite E|].
    intros k x [[= -> ->]|Hx]%elem_of_cons; [|by apply IH]. by exists t, r.
Qed.
End keyed.

#[export] Instance FRFCFS_takes_one : @TakesOne FRFCFS_schedule.
Proof.
  split. intros rid type buffer Hne Hr Ht. destruct (keyed_total rid type buffer Hr Ht) as (ks & E & E2 & _).
  simpl. rewrite E. cbn [mbind res_bind]. pose proof (list_sort_perm (λ a b : sort_key * drb_entry_s, sort_less a.1 b.1) ks) as Hp.
  destruct (list_sort _ ks) as [|[k e] l].
  - apply Permutation_nil in Hp as ->. by simplify_eq/=.
  - exists e, (l.*2). split; [done|]. rewrite <- E2, <- Hp. done.
Qed.

(** The entry that is served changes its state, and the times of its bank change. *)
Lemma current_goes c i b e s rid dr da br ts :
  good c → banks_ c !! i = Some b → m_current_list b = Some e → dr = ULLONG_MAX ∨ s = DRAM_DATA_WAIT →
  goes c (set_bank i (set_times rid dr da br ts (set_lists (m_buffer b) (m_buffer_free_list b) (Some (set_en_state s e)) b)) c).
Proof.
  intros Hg Hi Ec Hd. pose proof (so_bank _ (proj1 Hg) i b Hi) as [B1 B2 B3]. apply (set_bank_goes c i b _ Hg Hi).
  - unfold bank_entries in B1, B2. rewrite Ec in B1, B2. rewrite length_app in B1. split; unfold bank_entries; simpl.
    + by rewrite length_app.
    + intros x Hx. rewrite elem_of_app, list_elem_of_singleton in Hx. destruct Hx as [Hx| ->]; [apply B2, elem_of_app; by left|].
      simpl. apply B2, elem_of_app. right. left.
    + destruct Hd as [->| ->]; [by left|right; by eexists].
  - unfold bank_reqs, bank_entries. simpl. rewrite Ec, !omap_app. done.
Qed.

(** ** The channels *)
Lemma bank_range_in c ch j : struct_ok c → ch ∈ channel_indices c → j ∈ bank_range ch c → (j < length (banks_ c))%nat.
Proof.
  intros Hs Hch%elem_of_seq Hj. unfold bank_range in Hj. apply elem_of_seq in Hj. destruct (so_numbers _ Hs) as [Hb Hc].
  rewrite (so_banks _ Hs). rewrite Z.quot_div_nonneg in Hj by lia.
  set (n := num_bank (dc_knobs c) `div` num_channel (dc_knobs c)) in *.
  assert (num_channel (dc_knobs c) * n ≤ num_bank (dc_knobs c)) by (apply Z.mul_div_le; lia).
  assert (0 ≤ n) by (apply Z.div_pos; lia). nia.
Qed.

(** The bank the loop finds passes the test, and no bank of the channel that does has
    waited for longer. *)
Lemma oldest_bank_spec test ch c :
  struct_ok c → ch ∈ channel_indices c →
  ∃ o, oldest_bank test ch c = Ok o ∧
    match o with
    | Some j => ∃ b e, banks_ c !! j = Some b ∧ m_current_list b = Some e ∧ test b e = true ∧ j ∈ bank_range ch c ∧
        ∀ k b' e', k ∈ bank_range ch c → banks_ c !! k = Some b' → m_current_list b' = Some e' → test b' e' = true →
          m_bank_timestamp b ≤ m_bank_timestamp b'
    | None => ∀ k b' e', k ∈ bank_range ch c → banks_ c !! k = Some b' → m_current_list b' = Some e' → test b' e' = true →
          ULLONG_MAX ≤ m_bank_timestamp b'
    end.
Proof.
  intros Hs Hch. unfold oldest_bank.
  set (f := λ (j : nat) (ob : Z * option nat), b ← bank_at j c;
    Ok (match m_current_list b with
        | Some e => if test b e && bool_decide (m_bank_timestamp b < ob.1) then (m_bank_timestamp b, Some j) else ob
        | None => ob
        end)).
  set (best := λ (seen : list nat) (ob : Z * option nat),
    (∀ k b e, k ∈ seen → banks_ c !! k = Some b → m_current_list b = Some e → test b e = true → ob.1 ≤ m_bank_timestamp b) ∧
    match ob.2 with
    | Some j => ∃ b e, banks_ c !! j = Some b ∧ m_current_list b = Some e ∧ test b e = true ∧ j ∈ bank_range ch c ∧ m_bank_timestamp b = ob.1
    | None => ob.1 = ULLONG_MAX
    end).
  assert (∀ l seen ob, (∀ j, j ∈ l → j ∈ bank_range ch c) → best seen ob → ∃ ob', foldM l ob f = Ok ob' ∧ best (seen ++ l) ob') as Hloop.
  { induction l as [|j l IH]; intros seen ob Hl Hbest; [exists ob; by rewrite app_nil_r|].
    destruct (bank_in c j Hs) as (b & E & Hj & _); [eapply bank_range_in; [done..|apply Hl; left]|].
    cbn [foldM]. assert (f j ob = Ok (match m_current_list b with
        | Some e => if test b e && bool_decide (m_bank_timestamp b < ob.1) then (m_bank_timestamp b, Some j) else ob
        | None => ob
        end)) as -> by (unfold f; by rewrite E). cbn [mbind res_bind].
    match goal with |- context [foldM l ?o f] => destruct (IH (seen ++ [j]) o) as (ob' & E' & H') end.
    - intros k Hk. apply Hl. by right.
    - destruct Hbest as [H1 H2]. destruct (m_current_list b) as [e|] eqn:Ec.
      2: { split; [|done]. intros k b' e' [Hk|Hk]%elem_of_app Hb'; [by apply (H1 k)|]. apply list_elem_of_singleton in Hk as ->. intros. congruence. }
      destruct (test b e && bool_decide (m_bank_timestamp b < ob.1)) eqn:Et.
      + apply andb_prop in Et as [Et Hlt%bool_decide_eq_true]. split; simpl.
        * intros k b' e' [Hk|Hk]%elem_of_app Hb' Hc Ht; [pose proof (H1 k b' e' Hk Hb' Hc Ht); lia|].
          apply list_elem_of_singleton in Hk as ->. assert (b' = b) as -> by congruence. lia.
        * exists b, e. split_and!; try done. apply Hl. by left.
      + split; [|done]. intros k b' e' [Hk|Hk]%elem_of_app Hb' Hc Ht; [by eapply H1|].
        apply list_elem_of_singleton in Hk as ->. assert (b' = b) as -> by congruence. assert (e' = e) as -> by congruence.
        rewrite Ht in Et. simpl in Et. apply bool_decide_eq_false in Et. lia.
    - exists ob'. split; [exact E'|]. by rewrite <- app_assoc in H'. }
  destruct (Hloop (bank_range ch c) [] (ULLONG_MAX, None)) as ([t o] & E & [H1 H2]); [done|split; [by intros ? ? ? ?%not_elem_of_nil|done]|].
  rewrite E. cbn [mbind res_bind snd]. exists o. split; [done|]. simpl in H1, H2. destruct o as [j|].
  - destruct H2 as (b & e & Hj & Hc & Ht & Hin & <-). exists b, e. by split_and!.
  - intros k b' e' Hk Hb' Hc' Ht'. rewrite <- H2. by eapply H1.
Qed.

Lemma schedule_cmd_goes c ch : good c → ch ∈ channel_indices c → ∃ c', schedule_cmd ch c = Ok c' ∧ goes c c'.
Proof.
  intros Hg Hch. unfold schedule_cmd.
  destruct (oldest_bank_spec (λ _ e, bool_decide (en_state e = DRAM_CMD)) ch c (proj1 Hg) Hch) as (o & -> & Ho). cbn [mbind res_bind].
  destruct o as [j|]; [|exists c; split; [done|by apply goes_refl]].
  destruct Ho as (b & e & Hj & Ec & Hst & _). apply bool_decide_eq_true in Hst.
  unfold bank_at, vec_at. rewrite Hj. cbn [mbind res_bind of_option]. rewrite Ec. cbn [mbind res_bind of_option].
  rewrite bool_decide_true by done. cbn [assert_ mbind res_bind].
  destruct (entry_live c j b e Hg Hj) as (p & Ep & _ & _ & Hl & _); [unfold bank_entries; rewrite Ec; apply elem_of_app; right; left|].
  rewrite Ep. cbn [mbind res_bind]. destruct (on_req_goes p (set_mr_state MEM_DRAM_CMD) c ltac:(done) Hg Hl) as (c1 & E1 & H1 & Eb & _).
  rewrite E1. cbn [mbind res_bind]. eexists. split; [done|]. eapply goes_trans; [exact H1|].
  pose proof (goes_good _ _ Hg H1) as Hg1. rewrite <- Eb in Hj.
  assert (m_data_ready b = ULLONG_MAX) as Hd.
  { destruct (bo_data _ _ _ (so_bank _ (proj1 Hg1) j b Hj)) as [?|(x & Hx & ?)]; [done|congruence]. }
  unfold next_command. repeat case_bool_decide; apply current_goes; auto.
Qed.

Lemma set_channel_goes c ch x : good c → goes c (set_channels (<[ch := x]> (channels_ c)) c).
Proof.
  intros [[H1 H2 H3 H4 H5 H6] _]. split; [|exists [], []|done].
  - split; try done. simpl. by rewrite length_insert.
  - split; try done. by rewrite app_nil_r.
Qed.

(** A bank with data to send. *)
Definition has_data (b : Bank_t) : bool :=
  match m_current_list b with Some e => bool_decide (en_state e = DRAM_DATA) | None => false end.
Definition data_banks (c : dram_controller_c) : nat := length (filter (λ b, has_data b = true) (banks_ c)).

Lemma count_insert {A} (P : A → Prop) `{∀ x, Decision (P x)} (l : list A) i x y :
  l !! i = Some x → P x → ¬ P y → S (length (filter P (<[i := y]> l))) = length (filter P l).
Proof.
  revert i. induction l as [|z l IH]; intros [|i] Hi Hx Hy; simplify_eq/=; rewrite !filter_cons.
  - destruct (decide (P y)), (decide (P x)); done.
  - destruct (decide (P z)); simpl; by rewrite (IH i Hi Hx Hy).
Qed.

(** The channel has no bus or no bank for it. *)
Definition data_done (ch : nat) (c : dram_controller_c) : Prop :=
  (∃ x, channels_ c !! ch = Some x ∧ avail_data_bus x (m_cycle c) = false) ∨
  oldest_bank (λ b e, bool_decide (en_state e = DRAM_DATA) && bool_decide (m_data_avail b ≤ m_cycle c)) ch c = Ok None.

Lemma acquire_total width cycle n x : width ≠ 0 → ∃ r, acquire_data_bus width cycle n x = Ok r.
Proof. intros Hw. unfold acquire_data_bus. case_bool_decide; [by eexists|]. rewrite bool_decide_false by done. by eexists. Qed.

Lemma schedule_data_spec fuel : ∀ ch c,
  good c → ch ∈ channel_indices c → (data_banks c ≤ fuel)%nat →
  ∃ c', schedule_data fuel ch c = Ok c' ∧ goes c c' ∧ data_done ch c'.
Proof.
  induction fuel as [|fuel IH]; intros ch c Hg Hch Hfuel;
    (assert (ch < length (channels_ c))%nat as Hlt by (apply elem_of_seq in Hch; rewrite (so_channels _ (proj1 Hg)); lia));
    destruct (lookup_lt_is_Some_2 _ _ Hlt) as [x Hx]; unfold schedule_data; fold schedule_data; unfold vec_at at 1;
    rewrite Hx; cbn [mbind res_bind of_option];
    (destruct (avail_data_bus x (m_cycle c)) eqn:Ea; [|exists c; split_and!; [done|by apply goes_refl|left; by exists x]]);
    destruct (oldest_bank_spec (λ b e, bool_decide (en_state e = DRAM_DATA) && bool_decide (m_data_avail b ≤ m_cycle c)) ch c (proj1 Hg) Hch)
      as (o & Eo & Ho); rewrite Eo; cbn [mbind res_bind];
    (destruct o as [j|]; [|exists c; split_and!; [done|by apply goes_refl|by right]]);
    destruct Ho as (b & e & Hj & Ec & Hst & _); apply andb_prop in Hst as [Hst%bool_decide_eq_true _].
  - exfalso. unfold data_banks in Hfuel. assert (b ∈ filter (λ b, has_data b = true) (banks_ c)) as Hb.
    { apply list_elem_of_filter. split; [|by eapply list_elem_of_lookup_2]. unfold has_data. rewrite Ec. by apply bool_decide_eq_true. }
    destruct (filter _ (banks_ c)); [by apply not_elem_of_nil in Hb|simpl in Hfuel; lia].
  - unfold bank_at, vec_at. rewrite Hj. cbn [mbind res_bind of_option]. rewrite Ec. cbn [mbind res_bind of_option].
    destruct (entry_live c j b e Hg Hj) as (p & Ep & _ & _ & Hl & _); [unfold bank_entries; rewrite Ec; apply elem_of_app; right; left|].
    rewrite Ep. cbn [mbind res_bind]. destruct (on_req_goes p (set_mr_state MEM_DRAM_DATA) c ltac:(done) Hg Hl) as (c1 & E1 & H1 & Eb & Ech).
    rewrite E1. cbn [mbind res_bind]. rewrite bool_decide_true by done. cbn [assert_ mbind res_bind].
    pose proof (goes_good _ _ Hg H1) as Hg1. rewrite <- Eb in Hj.
    destruct (entry_live c1 j b e Hg1 Hj) as (p' & Ep' & _ & _ & [r Hr] & _); [unfold bank_entries; rewrite Ec; apply elem_of_app; right; left|].
    assert (p' = p) as -> by congruence. unfold req_at. rewrite Hr. cbn [mbind res_bind of_option].
    destruct (acquire_total (int (bus_width (dc_knobs c1))) (m_cycle c1) (en_size e) x (so_width _ (proj1 Hg1))) as [[lat x'] E2].
    rewrite E2. cbn [mbind res_bind fst snd].
    pose proof (current_goes c1 j b e DRAM_DATA_WAIT (m_current_rid b) lat ULLONG_MAX (m_bank_ready b) (m_bank_timestamp b) Hg1 Hj Ec ltac:(by right)) as H2.
    match goal with |- context [schedule_data fuel ch (set_channels ?l (set_bank j ?b' c1))] => set (b2 := b') in *; set (c2 := set_bank j b2 c1) in *; set (c3 := set_channels l c2) end.
    pose proof (goes_good _ _ Hg1 H2) as Hg2. assert (channels_ c2 = channels_ c1) as Ech2 by done.
    assert (goes c2 c3) as H3 by (unfold c3; rewrite <- Ech2; by apply set_channel_goes).
    pose proof (goes_trans _ _ _ H1 (goes_trans _ _ _ H2 H3)) as H13. assert (dc_knobs c3 = dc_knobs c) as Ek by (pose proof (go_params _ _ H13) as Epar; by injection Epar).
    destruct (IH ch c3) as (c' & E' & H' & Hdone).
    + by eapply goes_good.
    + unfold channel_indices. rewrite Ek. exact Hch.
    + assert (S (data_banks c3) = data_banks c) as Hcount; [|lia]. unfold data_banks, c3, c2. simpl. rewrite <- Eb. apply (count_insert _ _ j b); [done| |].
      * unfold has_data. rewrite Ec. by apply bool_decide_eq_true.
      * unfold b2, has_data. simpl. done.
    + exists c'. split_and!; [exact E'|by eapply goes_trans|exact Hdone].
Qed.

Section cycle.
Context `{TakesOne}.

Lemma new_bank_goes c i :
  good c → (i < length (banks_ c))%nat → ∃ c', new_bank i c = Ok c' ∧ goes c c'.
Proof.
  intros Hg Hlt. destruct (bank_in c i (proj1 Hg) Hlt) as (b & E & Hi & Hb). unfold new_bank. rewrite E. cbn [mbind res_bind].
  destruct (m_current_list b) as [e|] eqn:Ec.
  - case_bool_decide as Hd; [|exists c; split; [done|by apply goes_refl]]. destruct Hd as [_ Hst].
    eexists. split; [done|]. apply current_goes; try done. left.
    destruct (bo_data _ _ _ Hb) as [?|(x & Hx & ?)]; [done|congruence].
  - case_bool_decide as Hnil; [exists c; split; [done|by apply goes_refl]|].
    destruct (takes_one (λ j, b ← bank_at (Z.to_nat j) c; Ok (m_current_rid b)) (entry_type c) (m_buffer b) Hnil) as (e & rest & Es & Hp).
    + intros e He. destruct (bo_entry _ _ _ Hb e) as [_ Hbid]; [apply elem_of_app; by left|]. rewrite Hbid, Nat2Z.id, E. by eexists.
    + intros e He. destruct (entry_live c i b e Hg Hi) as (p & Hp & _ & _ & [r Hr] & _); [apply elem_of_app; by left|].
      unfold entry_type, req_at. rewrite Hp. simpl. rewrite Hr. by eexists.
    + rewrite Es. cbn [mbind res_bind]. eexists. split; [done|]. apply (set_bank_goes c i b _ Hg Hi).
      * destruct Hb as [B1 B2 B3]. unfold bank_entries in B1, B2. rewrite Ec in B1, B2. simpl in B1, B2. rewrite app_nil_r in B1, B2.
        split; unfold bank_entries; simpl; [| |destruct B3 as [?|(x & Hx & ?)]; [by left|congruence]].
        -- rewrite <- B1, (Permutation_length Hp), length_app. simpl. lia.
        -- intros x Hx. rewrite elem_of_app, list_elem_of_singleton in Hx. destruct Hx as [Hx| ->].
           ++ apply B2. rewrite Hp. by right.
           ++ simpl. apply B2. rewrite Hp. by left.
      * unfold bank_reqs, bank_entries. simpl. rewrite Ec. simpl. rewrite app_nil_r, (omap_Permutation en_req _ _ Hp), omap_app.
        simpl. destruct (en_req e); simpl; [|by rewrite app_nil_r]. by rewrite Permutation_app_comm.
Qed.
End cycle.

(** ** The parts of a cycle *)
Lemma channel_index_eq c c' : params c' = params c → channel_indices c' = channel_indices c.
Proof. unfold params, channel_indices. by intros [= -> _ _ _ _]. Qed.

Lemma channel_schedule_goes c : good c → ∃ c', channel_schedule c = Ok c' ∧ goes c c'.
Proof.
  intros Hg. unfold channel_schedule.
  destruct (loop_goes (channel_indices c) schedule_cmd c Hg) as (c1 & E1 & H1).
  { intros ch c1 Hch Hpar Hg1. apply schedule_cmd_goes; [done|]. by rewrite (channel_index_eq _ _ Hpar). }
  unfold channel_schedule_cmd. rewrite E1. cbn [mbind res_bind]. pose proof (goes_good _ _ Hg H1) as Hg1.
  destruct (loop_goes (channel_indices c1) (λ ch c, schedule_data (length (banks_ c)) ch c) c1 Hg1) as (c2 & E2 & H2).
  { intros ch c2 Hch Hpar Hg2. destruct (schedule_data_spec (length (banks_ c2)) ch c2 Hg2) as (c3 & ? & ? & _); [|apply length_filter|by eexists].
    by rewrite (channel_index_eq _ _ Hpar). }
  exists c2. split; [exact E2|by eapply goes_trans].
Qed.

Section cycle2.
Context `{TakesOne}.

Lemma bank_schedule_goes c : good c → ∃ c', bank_schedule c = Ok c' ∧ goes c c'.
Proof.
  intros Hg. unfold bank_schedule. destruct (bank_schedule_complete_goes c Hg) as (c1 & -> & H1). cbn [mbind res_bind].
  pose proof (goes_good _ _ Hg H1) as Hg1. destruct (loop_goes (bank_indices c1) new_bank c1 Hg1) as (c2 & E2 & H2).
  { intros i c2 Hi Hpar Hg2. apply new_bank_goes; [done|]. rewrite (params_banks c1 c2 (proj1 Hg1) (proj1 Hg2) Hpar).
    by apply (bank_index c1 i (proj1 Hg1)). }
  exists c2. split; [exact E2|by eapply goes_trans].
Qed.
End cycle2.

(** ** Requests enter *)
Lemma splitM_spec {A} (test : A → res bool) l :
  (∀ x, x ∈ l → ∃ b, test x = Ok b) →
  ∃ yes no, splitM test l = Ok (yes, no) ∧ l ≡ₚ yes ++ no ∧ (∀ x, x ∈ yes → test x = Ok true) ∧ (∀ x, x ∈ no → test x = Ok false).
Proof.
  induction l as [|x l IH]; intros Hl.
  - exists [], []. split_and!; [done|done|by intros ? ?%not_elem_of_nil..].
  - destruct (Hl x ltac:(left)) as [b Hb]. destruct IH as (yes & no & E & Hp & H1 & H2); [intros; apply Hl; by right|].
    simpl. rewrite Hb. cbn [mbind res_bind]. rewrite E. cbn [mbind res_bind fst snd]. destruct b.
    + exists (x :: yes), no. split_and!; [done|by rewrite Hp| |done]. intros y [->|Hy]%elem_of_cons; [done|by apply H1].
    + exists yes, (x :: no). split_and!; [done|rewrite Hp; apply Permutation_middle|done|]. intros y [->|Hy]%elem_of_cons; [done|by apply H2].
Qed.

Lemma free_entries es c :
  Forall (λ e, is_Some (en_req e)) es → NoDup (omap en_req es) → (∀ p, p ∈ omap en_req es → is_Some (dc_heap c !! p) ∧ droppable p (dc_heap c)) →
  ∃ c', foldM es c (λ e c, p ← entry_req e; free_req p c) = Ok c' ∧ finished (omap en_req es) (omap en_req es) c c'.
Proof.
  revert c. induction es as [|e es IH]; intros c Hall Hnd Hl.
  - exists c. split; [done|apply finished_nil].
  - apply Forall_cons in Hall as [[p Hp] Hall]. simpl in Hnd, Hl |- *. rewrite Hp in Hnd, Hl |- *. apply NoDup_cons in Hnd as [Hnp Hnd].
    assert (entry_req e = Ok p) as -> by (unfold entry_req; by rewrite Hp). cbn [mbind res_bind].
    destruct (Hl p ltac:(left)) as [[r Hr] Hd]. assert (free_req p c = Ok (set_heap (delete p (dc_heap c)) (p :: dc_freed c) (dc_sent c) c)) as ->
      by (unfold free_req, req_at; by rewrite Hr).
    cbn [mbind res_bind]. set (c1 := set_heap _ _ _ c). assert (finished [p] [p] c c1) as H1.
    { split; try done.
      - unfold dc_outputs. simpl. solve_Permutation.
      - intros q [Hq _]%not_elem_of_cons. by apply kept_delete.
      - by intros q ->%list_elem_of_singleton. }
    destruct (IH c1 Hall Hnd) as (c' & E2 & H2).
    { intros q Hq. destruct (Hl q ltac:(by right)) as [Hlq Hdq]. assert (kept q (dc_heap c) (dc_heap c1)) as Hk.
      { apply (fi_live _ _ _ _ H1). by intros ->%list_elem_of_singleton. }
      split; [by eapply kept_live|]. intros x Hx. apply (Hdq x). revert Hx. simpl. intros Hx.
      by apply lookup_delete_Some in Hx as [_ ?]. }
    exists c'. split; [exact E2|]. exact (finished_app _ _ _ _ _ _ _ H1 H2).
Qed.

(** No prefetch is left, and as many entries are free as there were prefetches. *)
Lemma flush_prefetch_goes c i b :
  good c → banks_ c !! i = Some b →
  ∃ c' b', flush_prefetch i c = Ok c' ∧ goes c c' ∧ banks_ c' !! i = Some b' ∧
    (m_buffer_free_list b' = [] ↔ m_buffer_free_list b = [] ∧ ∀ e, e ∈ m_buffer b → entry_type c e ≠ Ok MRT_DPRF).
Proof.
  intros Hg Hi. pose proof (so_bank _ (proj1 Hg) i b Hi) as Hb. unfold flush_prefetch, bank_at, vec_at. rewrite Hi. cbn [mbind res_bind of_option].
  assert (∀ e, e ∈ m_buffer b → ∃ t, entry_type c e = Ok t) as Htype.
  { intros e He. destruct (entry_live c i b e Hg Hi) as (p & Hp & _ & _ & [r Hr] & _); [apply elem_of_app; by left|].
    unfold entry_type, req_at. rewrite Hp. simpl. rewrite Hr. by eexists. }
  destruct (splitM_spec (λ e, t ← entry_type c e; Ok (bool_decide (t = MRT_DPRF))) (m_buffer b)) as (yes & no & E & Hp & H1 & H2).
  { intros e He. destruct (Htype e He) as [t Ht]. rewrite Ht. by eexists. }
  rewrite E. cbn [mbind res_bind fst snd].
  assert (∀ x, x ∈ yes → x ∈ bank_entries b) as Hyes by (intros x Hx; apply elem_of_app; left; rewrite Hp; apply elem_of_app; by left).
  assert (bank_reqs b ≡ₚ omap en_req yes ++ omap en_req (no ++ option_list (m_current_list b))) as Hreqs.
  { unfold bank_reqs, bank_entries. rewrite <- omap_app. apply omap_Permutation. rewrite app_assoc. by rewrite <- Hp. }
  destruct (free_entries yes c) as (c1 & E1 & Hf).
  - apply Forall_forall. intros x Hx. apply (bo_entry _ _ _ Hb x (Hyes x Hx)).
  - destruct Hg as [_ [Hnd _]]. unfold dc_held in Hnd. destruct (bank_split c i b Hi) as (r & Er & _).
    rewrite Er, Hreqs, !NoDup_app in Hnd. apply Hnd.
  - intros p (x & Hx & Hxp)%list_elem_of_omap. destruct (entry_live c i b x Hg Hi (Hyes x Hx)) as (p' & Hp' & Ep & _ & Hl & _).
    rewrite Ep in Hxp. injection Hxp as <-. split; [done|]. intros r Hr. right. specialize (H1 x Hx). unfold entry_type, req_at in H1.
    rewrite Hp' in H1. cbn [mbind res_bind] in H1. rewrite Hr in H1. cbn [mbind res_bind of_option] in H1.
    injection H1 as H1. by apply bool_decide_eq_true in H1.
  - rewrite E1. cbn [mbind res_bind]. set (b' := set_lists no _ _ b).
    assert (bank_ok (dc_knobs c) i b') as Hb'.
    { destruct Hb as [B1 B2 B3]. split; [| |exact B3].
      - rewrite <- B1. unfold bank_entries. simpl. rewrite !length_app, (Permutation_length Hp), length_app. lia.
      - intros x. unfold bank_entries. simpl. rewrite elem_of_app. intros [Hx|Hx]; apply B2; unfold bank_entries; apply elem_of_app; [|by right].
        left. rewrite Hp. apply elem_of_app. by right. }
    eexists _, b'. split; [done|]. split; [|split].
    + exact (finish_bank_goes _ _ c c1 i b b' (omap en_req yes) _ Hg Hi Hf Hreqs Hb').
    + simpl. rewrite (proj1 (fi_banks _ _ _ _ Hf)). apply list_lookup_insert_eq. by eapply lookup_lt_Some.
    + simpl. rewrite app_nil. split; intros [Hnil Hno]; split; try done.
      * intros e He Ht. rewrite Hno in Hp. simpl in Hp. rewrite Hp in He. specialize (H2 e He). rewrite Ht in H2. done.
      * destruct yes as [|x yes]; [done|]. exfalso. specialize (H1 x ltac:(left)). apply bind_Ok in H1 as (t & Ht & Hd).
        injection Hd as Hd. apply bool_decide_eq_true in Hd as ->. apply (Hno x); [|done]. rewrite Hp. left.
Qed.

(** The bank of an address exists when the masks are those of the constructor. *)
Definition mapping_ok (k : Knobs) (mp : Mapping) : Prop :=
  0 ≤ m_bid_shift mp < 64 ∧ 0 ≤ m_rid_shift mp < 64 ∧ 0 ≤ m_bid_xor_shift mp < 64 ∧
  (∃ n, 0 ≤ n < 31 ∧ m_bid_mask mp = 2 ^ n - 1 ∧ 2 ^ n ≤ num_bank k) ∧ u64 (num_mc k) ≠ 0.

Lemma land_mask a n : 0 ≤ n → Z.land a (2 ^ n - 1) = a `mod` 2 ^ n.
Proof. intros Hn. rewrite <- Z.land_ones by done. by rewrite Z.ones_equiv, Z.sub_1_r. Qed.

Lemma lxor_range a b n : 0 ≤ n → 0 ≤ a < 2 ^ n → 0 ≤ b < 2 ^ n → 0 ≤ Z.lxor a b < 2 ^ n.
Proof.
  intros Hn Ha Hb. assert (0 ≤ Z.lxor a b) as H0 by (apply Z.lxor_nonneg; lia). split; [done|].
  destruct (decide (Z.lxor a b = 0)) as [->|]; [apply Z.pow_pos_nonneg; lia|]. apply Z.log2_lt_pow2; [lia|].
  eapply Z.le_lt_trans; [apply Z.log2_lxor; lia|]. apply Z.max_lub_lt.
  - destruct (decide (a = 0)) as [->|]; [|apply Z.log2_lt_pow2; lia]. destruct (decide (n = 0)) as [->|]; [|simpl; lia].
    exfalso. assert (b = 0) as -> by (simpl in Hb; lia). done.
  - destruct (decide (b = 0)) as [->|]; [|apply Z.log2_lt_pow2; lia]. destruct (decide (n = 0)) as [->|]; [|simpl; lia].
    exfalso. assert (a = 0) as -> by (simpl in Ha; lia). done.
Qed.

(** The row of an address, which must fit an [int]. *)
Definition row_of (k : Knobs) (mp : Mapping) (addr : Z) : Z :=
  let a := Z.shiftr addr (m_bid_shift mp) in
  Z.shiftr (if mc_test (num_mc k) then a else a / u64 (num_mc k)) (m_rid_shift mp).

Lemma parse_address_spec k mp addr :
  mapping_ok k mp → 0 ≤ addr →  row_of k mp addr < 2 ^ 31 →
  ∃ bid rid cid, parse_address k mp addr = Ok (bid, rid, cid) ∧ 0 ≤ bid < num_bank k ∧ rid = row_of k mp addr ∧ 0 ≤ rid.
Proof.
  intros (H1 & H2 & H3 & (n & Hn & Hmask & Hle) & Hmc) Ha Hrow. unfold parse_address, shr64, div64.
  rewrite !(bool_decide_true (_ < 64)) by lia. cbn [mbind res_bind].
  set (a := Z.shiftr addr (m_bid_shift mp)) in *.
  assert ((if mc_test (num_mc k) then Ok a else if bool_decide (u64 (num_mc k) = 0) then Err Undefined else Ok (a / u64 (num_mc k))) =
    Ok (if mc_test (num_mc k) then a else a / u64 (num_mc k))) as ->
    by (destruct (mc_test _); [done|by rewrite bool_decide_false]).
  cbn [mbind res_bind]. fold (row_of k mp addr).
  assert (0 ≤ row_of k mp addr) as Hpos.
  { unfold row_of. rewrite Z.shiftr_nonneg. destruct (mc_test _); [by apply Z.shiftr_nonneg|].
    apply Z.div_pos; [by apply Z.shiftr_nonneg|]. pose proof (Z.mod_pos_bound (num_mc k) (2 ^ 64) ltac:(lia)). unfold u64 in *. lia. }
  assert (2 ^ n < 2 ^ 31) as Hlt by (apply Z.pow_lt_mono_r; lia).
  assert (∀ z, 0 ≤ Z.land z (m_bid_mask mp) < 2 ^ n) as Hland.
  { intros z. rewrite Hmask, land_mask by lia. apply Z.mod_pos_bound, Z.pow_pos_nonneg; lia. }
  assert (∀ z, 0 ≤ int (Z.land z (m_bid_mask mp)) < 2 ^ n) as Hint.
  { intros z. specialize (Hland z). rewrite int_small; lia. }
  unfold row_of in *. fold a in Hpos, Hrow |- *.
  rewrite (int_small (Z.shiftr (if mc_test (num_mc k) then a else a / u64 (num_mc k)) (m_rid_shift mp))) by lia.
  rewrite bool_decide_true by done. cbn [assert_ mbind res_bind]. do 3 eexists. split; [done|]. split; [|split; done].
  destruct (bank_xor_index k).
  - pose proof (lxor_range _ _ n ltac:(lia) (Hint (if mc_test (num_mc k) then a else a / u64 (num_mc k)))
      (Hint (Z.shiftr addr (m_bid_xor_shift mp)))). lia.
  - specialize (Hint (if mc_test (num_mc k) then a else a / u64 (num_mc k))). lia.
Qed.

(** Request [p] is handed to the controller: as if it were pending. *)
Definition hold (p : ptr) (c : dram_controller_c) : dram_controller_c := set_pending (p :: m_pending_request c) c.

Lemma hold_held p c : dc_held (hold p c) ≡ₚ p :: dc_held c.
Proof. unfold dc_held, dc_outputs, hold. simpl. by rewrite <- Permutation_middle. Qed.

Lemma hold_good p c : good c → p ∉ dc_held c → is_Some (dc_heap c !! p) → good (hold p c).
Proof.
  intros [[H1 H2 H3 H4 H5 H6] [Hnd Hl]] Hp Hlp. split; [by split|]. split; [rewrite hold_held; by constructor|].
  intros q. rewrite hold_held. intros [->|Hq]%elem_of_cons; [done|]. by apply (Hl q).
Qed.

Lemma hold_goes p c c' : goes c c' → goes (hold p c) (hold p c').
Proof.
  intros [[H1 H2 H3 H4 H5 H6] (F & S & [K1 K2 K3 K4 K5]) Hpar]. split; [by split| |done]. exists F, S. split; try done.
  by rewrite !hold_held, K1.
Qed.

Lemma goes_outside c c' p : goes c c' → p ∉ dc_held c → is_Some (dc_heap c !! p) → p ∉ dc_held c' ∧ is_Some (dc_heap c' !! p).
Proof.
  intros [_ (F & S & [H1 _ _ H4 _]) _] Hp Hl. rewrite H1, !not_elem_of_app in Hp. destruct Hp as (? & ? & _). split; [done|]. by eapply kept_live; [apply H4|].
Qed.

Lemma insert_req_goes p c i b rid cid :
  good c → p ∉ dc_held c → is_Some (dc_heap c !! p) → banks_ c !! i = Some b → m_buffer_free_list b ≠ [] → 0 ≤ rid →
  ∃ c', insert_req_in_drb p i rid cid c = Ok c' ∧ goes (hold p c) c' ∧ is_Some (dc_heap c' !! p).
Proof.
  intros Hg Hp [r Hr] Hi Hne Hrid. pose proof (so_bank _ (proj1 Hg) i b Hi) as [B1 B2 B3].
  unfold insert_req_in_drb, bank_at, vec_at, vec_front, req_at. rewrite Hi. cbn [mbind res_bind of_option].
  destruct (m_buffer_free_list b) as [|e free] eqn:Ef; [done|]. cbn [vec_at lookup list_lookup of_option mbind res_bind]. rewrite Hr. cbn [mbind res_bind of_option].
  unfold entry_set. assert (vec_at dram_req_priority (type_int (mr_type r)) = Ok 0) as -> by (by destruct (mr_type r)).
  cbn [mbind res_bind]. rewrite (bool_decide_true (0 ≤ rid)) by done. cbn [assert_ mbind res_bind tail].
  eexists. split; [done|]. match goal with |- context [set_bank i ?x c] => set (b' := x) end.
  assert (bank_ok (dc_knobs c) i b') as Hb'.
  { unfold bank_entries in B1, B2. rewrite length_app in B1. simpl in B1. split; [| |exact B3]; unfold bank_entries; simpl.
    - rewrite <- B1, !length_app. simpl. lia.
    - intros x. rewrite !elem_of_app, list_elem_of_singleton. intros [[Hx| ->]|Hx]; [apply B2, elem_of_app; by left|by split; [eexists|]|].
      apply B2, elem_of_app. by right. }
  assert (bank_reqs b' ≡ₚ p :: bank_reqs b) as Hreqs.
  { unfold bank_reqs, bank_entries. simpl. rewrite !omap_app. simpl. solve_Permutation. }
  destruct (bank_split c i b Hi) as (rest & E1 & E2).
  assert (dc_held (set_bank i b' c) ≡ₚ p :: dc_held c) as Hheld.
  { unfold dc_held. simpl. rewrite E1, E2, Hreqs. done. }
  split; [|by exists r]. destruct Hg as [Hs _]. split; [| |done].
  - destruct Hs as [H1 H2 H3 H4 H5 H6]. split; try done; simpl.
    + by rewrite length_insert.
    + intros j bj Hj. destruct (decide (j = i)) as [->|Hn].
      * rewrite list_lookup_insert_eq in Hj by (by eapply lookup_lt_Some). by injection Hj as <-.
      * rewrite list_lookup_insert_ne in Hj by done. by apply H5.
  - exists [], []. split; try done. rewrite hold_held, !app_nil_r. symmetry. exact Hheld.
Qed.

(** The bank of a request is full of demands. *)
Definition bank_full (i : nat) (c : dram_controller_c) : Prop :=
  ∃ b, banks_ c !! i = Some b ∧ m_buffer_free_list b = [] ∧ ∀ e, e ∈ m_buffer b → entry_type c e ≠ Ok MRT_DPRF.

Lemma insert_new_req_goes p c r :
  good c → mapping_ok (dc_knobs c) (dc_mapping c) → p ∉ dc_held c → dc_heap c !! p = Some r →
  0 ≤ mr_addr r → row_of (dc_knobs c) (dc_mapping c) (mr_addr r) < 2 ^ 31 →
  ∃ i ok c', insert_new_req p c = Ok (ok, c') ∧ (ok = false ↔ bank_full i c) ∧
    if ok : bool then goes (hold p c) c' else goes c c'.
Proof.
  intros Hg Hmap Hp Hr Ha Hrow. destruct (parse_address_spec _ _ _ Hmap Ha Hrow) as (bid & rid & cid & Hparse & Hbid & _ & Hrid).
  exists (Z.to_nat bid). unfold insert_new_req, req_at. rewrite Hr. cbn [mbind res_bind of_option]. rewrite Hparse. cbn [mbind res_bind].
  set (i := Z.to_nat bid). destruct (bank_in c i (proj1 Hg)) as (b & Eb & Hi & Hb); [rewrite (so_banks _ (proj1 Hg)); lia|].
  rewrite Eb. cbn [mbind res_bind].
  assert (∃ c1 b1, (if bool_decide (m_buffer_free_list b = []) then flush_prefetch i c else Ok c) = Ok c1 ∧ goes c c1 ∧
    banks_ c1 !! i = Some b1 ∧ (m_buffer_free_list b1 = [] ↔ bank_full i c)) as (c1 & b1 & E1 & H1 & Hi1 & Hfull).
  { case_bool_decide as Hf.
    - destruct (flush_prefetch_goes c i b Hg Hi) as (c1 & b1 & ? & ? & ? & Hiff). exists c1, b1. split_and!; try done.
      rewrite Hiff. unfold bank_full. split; [by exists b|]. intros (b2 & Hb2 & ? & Hno). assert (b2 = b) as -> by congruence. done.
    - exists c, b. split_and!; try done; [by apply goes_refl|]. unfold bank_full. split; [done|].
      intros (b2 & Hb2 & ? & _). assert (b2 = b) as -> by congruence. done. }
  rewrite E1. cbn [mbind res_bind]. unfold bank_at, vec_at. rewrite Hi1. cbn [mbind res_bind of_option].
  clear E1. case_bool_decide as Hnil; [exists false, c1; split; [done|]; split; [by rewrite <- Hfull|done]|].
  pose proof (goes_good _ _ Hg H1) as Hg1. destruct (goes_outside c c1 p H1 Hp ltac:(by eexists)) as [Hp1 Hl1].
  destruct (insert_req_goes p c1 i b1 rid cid Hg1 Hp1 Hl1 Hi1 Hnil Hrid) as (c2 & E2 & H2 & Hl2). rewrite E2. cbn [mbind res_bind].
  pose proof (goes_good _ _ (hold_good p c1 Hg1 Hp1 Hl1) H2) as Hg2.
  pose proof (counts_goes (m_num_completed_in_last_cycle c2) (int (m_total_req c2 + 1)) c2 Hg2) as H3.
  set (c3 := set_counts _ _ _ c2) in *. destruct (on_req_goes p (set_mr_state MEM_DRAM_START) c3 ltac:(done)) as (c4 & E4 & H4 & _);
    [by eapply goes_good|exact Hl2|].
  rewrite E4. cbn [mbind res_bind]. exists true, c4. split; [done|]. split; [split; [done|by rewrite <- Hfull]|].
  eapply goes_trans; [by apply hold_goes|]. eapply goes_trans; [exact H2|]. by eapply goes_trans.
Qed.
