(* ===== verification/MacDramRun.v ===== *)
(** * Cycles of the memory controller of MacSim

    The packets it sends and receives, whole cycles, runs with requests that arrive
    through the network, and the bandwidth of its data buses (MacDram.v). *)
From S2P Require Import Prelude Types MacDram MacDramLaws.
#[local] Open Scope Z_scope.

(** ** Packets *)

(** What the network promises: the packets that have arrived are a queue, and nodes
    have numbers. *)
Class NetworkLaws (N : Type) `{Network N} := {
  net_arrived : N → list ptr;
  net_receive_head n : net_receive n = head (net_arrived n);
  net_pop_tail n : net_arrived (net_pop n) = tail (net_arrived n);
  net_send_arrived p n : net_arrived (net_send p n).2 = net_arrived n;
  net_id_valid n : net_id n ≠ -1;
  net_dst_valid i n : net_dst i n ≠ -1;
}.

Lemma remove_perm (ps l : list ptr) : NoDup l → NoDup ps → ps ⊆ l → l ≡ₚ ps ++ filter (λ p, p ∉ ps) l.
Proof.
  intros Hl Hps Hsub. apply NoDup_Permutation; [done| |].
  - apply NoDup_app. split; [done|]. split; [|by apply NoDup_filter]. by intros p Hp [? _]%list_elem_of_filter.
  - intros p. rewrite elem_of_app, list_elem_of_filter. split; [|intros [?|[_ ?]]; [by apply Hsub|done]].
    intros Hp. destruct (decide (p ∈ ps)); [by left|by right].
Qed.

Lemma heap_goes h c :
  good c → (∀ p, kept p (dc_heap c) h) → goes c (set_heap h (dc_freed c) (dc_sent c) c).
Proof.
  intros [[H1 H2 H3 H4 H5 H6] _] Hk. split; [by split| |done]. exists [], []. split; try done; [by rewrite !app_nil_r|].
  by intros p ?%not_elem_of_nil.
Qed.

(** Some requests leave the outputs: [S] of them are sent. *)
Lemma outputs_goes S out tmp c :
  good c → dc_outputs c ≡ₚ m_pending_request c ++ default [] tmp ++ out ++ S →
  goes c (set_heap (dc_heap c) (dc_freed c) (S ++ dc_sent c) (set_outputs out tmp c)).
Proof.
  intros [[H1 H2 H3 H4 H5 H6] _] Hp. split; [by split| |done]. exists [], S. split; try done; simpl.
  - unfold dc_held. rewrite Hp. unfold dc_outputs. simpl. solve_Permutation.
  - intros p _ r Hr. by exists r.
  - by intros p ?%not_elem_of_nil.
Qed.

Lemma outputs_nodup c : good c → NoDup (dc_outputs c) ∧ ∀ p, p ∈ dc_outputs c → is_Some (dc_heap c !! p).
Proof.
  intros [_ [Hnd Hl]]. unfold dc_held in *. apply NoDup_app in Hnd as (_ & _ & Hnd). split; [done|]. intros p Hp. apply Hl, elem_of_app. by right.
Qed.

Lemma ready_packets_total l c :
  (∀ p, p ∈ l → is_Some (dc_heap c !! p)) →
  ∃ ps rest, ready_packets l c = Ok ps ∧ l = ps ++ rest ∧
    (∀ p r, p ∈ ps → dc_heap c !! p = Some r → mr_rdy_cycle r ≤ m_cycle c) ∧
    (∀ p r, head rest = Some p → dc_heap c !! p = Some r → m_cycle c < mr_rdy_cycle r).
Proof.
  induction l as [|p l IH]; intros Hl.
  - exists [], []. split_and!; [done|done|by intros ? ? ?%not_elem_of_nil|done].
  - destruct (Hl p ltac:(left)) as [r Hr]. simpl. unfold req_at. rewrite Hr. cbn [mbind res_bind of_option]. case_bool_decide as Hc.
    + destruct IH as (ps & rest & E & -> & H1 & H2); [intros; apply Hl; by right|]. rewrite E. exists (p :: ps), rest. split_and!; try done.
      intros q x [->|Hq]%elem_of_cons Hx; [congruence|by eapply H1].
    + exists [], (p :: l). split_and!; [done|done|by intros ? ? ?%not_elem_of_nil|]. intros q x [= <-] Hx. assert (x = r) as -> by congruence. lia.
Qed.

(** Packets leave the pending and the freed requests alone, and what requests ask for. *)
Definition frame (c c' : dram_controller_c) : Prop :=
  m_pending_request c' = m_pending_request c ∧ dc_freed c' = dc_freed c ∧ ∀ p, kept p (dc_heap c) (dc_heap c').

Lemma frame_trans c1 c2 c3 : frame c1 c2 → frame c2 c3 → frame c1 c3.
Proof. intros (A1 & A2 & A3) (B1 & B2 & B3). split_and!; [congruence|congruence|]. intros p. by eapply kept_then. Qed.

Lemma delay_packet_goes c : good c → ∃ c', delay_packet c = Ok c' ∧ goes c c' ∧ frame c c'.
Proof.
  intros Hg. unfold delay_packet. destruct (m_tmp_output_buffer c) as [tmp|] eqn:Et; [|exists c; split; [done|]; split; [by apply goes_refl|]; split; [done|]; split; [done|]; intros p; apply kept_refl].
  destruct (outputs_nodup c Hg) as [Hnd Hl]. unfold dc_outputs in Hnd, Hl. rewrite Et in Hnd, Hl. simpl in Hnd, Hl.
  destruct (ready_packets_total tmp c) as (ps & rest & E & Etmp & _); [intros p Hp; apply Hl; rewrite !elem_of_app; auto|].
  rewrite E. cbn [mbind res_bind]. eexists. split; [done|]. split; [|split; [done|]; split; [done|]; intros p; apply kept_refl].
  pose proof (outputs_goes [] (m_output_buffer c ++ ps) (Some (filter (λ p, p ∉ ps) tmp)) c Hg) as H.
  destruct c. simpl in *. apply H. unfold dc_outputs. simpl. subst m_tmp_output_buffer. simpl. rewrite app_nil_r.
  assert (tmp ≡ₚ ps ++ filter (λ p, p ∉ ps) tmp) as Hperm.
  { apply NoDup_app in Hnd as (_ & _ & (Hnd & _)%NoDup_app). apply remove_perm; [done| |].
    - rewrite Etmp in Hnd. by apply NoDup_app in Hnd as [? _].
    - rewrite Etmp. intros p Hp. apply elem_of_app. by left. }
  rewrite Hperm at 1. solve_Permutation.
Qed.

Section network.
Context {N : Type} `{NL : NetworkLaws N}.

(** What [send_packet] keeps, from controller [c0] and network [n0]: no packet is sent
    twice, and a packet that was sent has a type that was looked at. *)
Record sending_ok (c0 : dram_controller_c) (n0 : N) (st : Sending (N := N)) : Prop := {
  sn_dc : ∃ h, sg_dc st = set_heap h (dc_freed c0) (dc_sent c0) c0 ∧ ∀ p, kept p (dc_heap c0) h;
  sn_sent : NoDup (sg_sent st) ∧ sg_sent st ⊆ m_output_buffer c0;
  sn_types p r : p ∈ sg_sent st → dc_heap c0 !! p = Some r → of_type (mr_ptx r) (sg_checked st) = true;
  sn_arrived : net_arrived (sg_net st) = net_arrived n0;
}.

Lemma set_type_mono a b x : of_type a x = true → of_type a (set_type b x) = true.
Proof. by destruct a, b, x as [[] []]. Qed.
Lemma set_type_same a x : of_type a (set_type a x) = true.
Proof. by destruct a, x as [[] []]. Qed.

Lemma send_loop_ok c0 n0 allowed l : ∀ st,
  good c0 → enable_new_noc (dc_knobs c0) = true → sending_ok c0 n0 st → NoDup l → l ⊆ m_output_buffer c0 →
  (∀ p r, p ∈ l → dc_heap c0 !! p = Some r → of_type (mr_ptx r) allowed = true → p ∉ sg_sent st) →
  ∃ st', send_loop allowed l st = Ok st' ∧ sending_ok c0 n0 st'.
Proof.
  induction l as [|p l IH]; intros st Hg Hnoc Hst Hnd Hsub Hfresh; [by exists st|]. apply NoDup_cons in Hnd as [Hpl Hnd].
  assert (l ⊆ m_output_buffer c0) as Hsub' by (intros q Hq; apply Hsub; by right).
  assert (p ∈ m_output_buffer c0) as Hout by (apply Hsub; left).
  destruct (outputs_nodup c0 Hg) as [_ Hlive]. destruct (Hlive p) as [r0 Hr0]; [unfold dc_outputs; rewrite !elem_of_app; auto|].
  destruct (sn_dc _ _ _ Hst) as (h & Edc & Hk). destruct (Hk p r0 Hr0) as (r & Hr & Er).
  assert (mr_ptx r = mr_ptx r0) as Ept by (by injection Er). cbn [send_loop]. unfold req_at at 1.
  assert (dc_heap (sg_dc st) !! p = Some r) as Hrd by (by rewrite Edc). rewrite Hrd. cbn [mbind res_bind of_option].
  destruct (of_type (mr_ptx r) allowed) eqn:Eal.
  2: { apply IH; try done. intros q x Hq. apply Hfresh. by right. }
  assert (enable_new_noc (dc_knobs (sg_dc st)) = true) as -> by (by rewrite Edc).
  unfold on_req, req_at. rewrite Hrd. cbn [mbind res_bind of_option]. rewrite bool_decide_true by (split; [apply net_id_valid|apply net_dst_valid]).
  cbn [assert_ mbind res_bind]. rewrite Ept in *. pose proof (Hfresh p r0 ltac:(left) Hr0 Eal) as Hnot.
  match goal with |- context [set_mr_msg ?a ?b ?d] => set (f := set_mr_msg a b d) end.
  set (st' := mkSending _ _ _ _). assert (sending_ok c0 n0 st') as Hst'.
  { destruct Hst as [_ [Hs1 Hs2] Hs3 Hs4]. split; simpl.
    - exists (<[p := f r]> h). split; [by rewrite Edc|]. intros q. eapply kept_then; [apply Hk|]. by apply (kept_update q p _ r).
    - destruct (net_send p (sg_net st)).1; [|by rewrite app_nil_r]. split.
      + apply NoDup_app. split_and!; [done| |apply NoDup_singleton]. by intros q Hq ->%list_elem_of_singleton.
      + intros q [Hq| ->%list_elem_of_singleton]%elem_of_app; [by apply Hs2|done].
    - intros q x Hq Hx. destruct (net_send p (sg_net st)).1; [|rewrite app_nil_r in Hq; by apply set_type_mono, (Hs3 q x)].
      apply elem_of_app in Hq as [Hq| ->%list_elem_of_singleton]; [by apply set_type_mono, (Hs3 q x)|].
      assert (x = r0) as -> by congruence. apply set_type_same.
    - by rewrite net_send_arrived. }
  destruct (net_send p (sg_net st)).1 eqn:Esend; [|by exists st'].
  apply IH; try done. intros q x Hq Hx Hal. unfold st'. simpl. rewrite not_elem_of_app, list_elem_of_singleton. split.
  - apply (Hfresh q x); [by right|done|done].
  - intros ->. done.
Qed.

Lemma send_turn_ok c0 n0 i st :
  good c0 → enable_new_noc (dc_knobs c0) = true → sending_ok c0 n0 st → ∃ st', send_turn i st = Ok st' ∧ sending_ok c0 n0 st'.
Proof.
  intros Hg Hnoc Hst. unfold send_turn. destruct (_ && _); [by exists st|]. destruct (outputs_nodup c0 Hg) as [Hnd _].
  unfold dc_outputs in Hnd. apply NoDup_app in Hnd as (_ & _ & (_ & _ & Hnd)%NoDup_app).
  assert (m_output_buffer (sg_dc st) = m_output_buffer c0) as -> by (destruct (sn_dc _ _ _ Hst) as (h & -> & _); done).
  apply (send_loop_ok c0 n0); try done. intros p r _ Hr Hal Hin. pose proof (sn_types _ _ _ Hst p r Hin Hr) as Ht.
  by destruct (mr_ptx r), (sg_checked st) as [[] []].
Qed.

(** No packet is lost in [send_packet], and none is sent twice. *)
Lemma send_packet_goes c n :
  good c → enable_new_noc (dc_knobs c) = true →
  ∃ c' n', send_packet (c, n) = Ok (c', n') ∧ goes c c' ∧ net_arrived n' = net_arrived n ∧ frame c c'.
Proof.
  intros Hg Hnoc. unfold send_packet. cbn [fst snd].
  destruct (foldM_total (sending_ok c n) (seq 0 (if noc_vc_partition (dc_knobs c) then 2 else 1))%nat (mkSending (false, false) [] n c) send_turn)
    as (st & E & Hst).
  - split; simpl; try done; [|split; [apply NoDup_nil_2|by intros ? ?%not_elem_of_nil]|by intros ? ? ?%not_elem_of_nil].
    exists (dc_heap c). split; [by destruct c|]. intros p. apply kept_refl.
  - intros i st _ Hst. by apply (send_turn_ok c n).
  - rewrite E. cbn [mbind res_bind]. eexists _, _. split; [done|]. destruct (sn_dc _ _ _ Hst) as (h & Edc & Hk).
    split; [|split; [apply (sn_arrived _ _ _ Hst)|simpl; rewrite Edc; by split_and!]].
    pose proof (heap_goes h c Hg Hk) as H1. rewrite <- Edc in H1.
    eapply goes_trans; [exact H1|]. refine (outputs_goes (rev (sg_sent st)) _ _ (sg_dc st) _ _); [by eapply goes_good|].
    destruct (sn_sent _ _ _ Hst) as [Hs1 Hs2]. destruct (outputs_nodup c Hg) as [Hnd _]. unfold dc_outputs in Hnd.
    apply NoDup_app in Hnd as (_ & _ & (_ & _ & Hnd)%NoDup_app). rewrite Edc. unfold dc_outputs. simpl.
    rewrite (remove_perm _ _ Hnd Hs1 Hs2) at 1. rewrite <- (Permutation_rev (sg_sent st)). solve_Permutation.
Qed.
End network.

(** ** A cycle *)

(** The requests [l] are handed to the controller. *)
Definition hold_all (l : list ptr) (c : dram_controller_c) : dram_controller_c := set_pending (l ++ m_pending_request c) c.

Lemma hold_all_held l c : dc_held (hold_all l c) ≡ₚ l ++ dc_held c.
Proof. unfold dc_held, dc_outputs, hold_all. simpl. solve_Permutation. Qed.

Lemma hold_all_goes l c c' : goes c c' → goes (hold_all l c) (hold_all l c').
Proof.
  intros [[H1 H2 H3 H4 H5 H6] (F & S & [K1 K2 K3 K4 K5]) Hpar]. split; [by split| |done]. exists F, S. split; try done.
  rewrite !hold_all_held, K1. solve_Permutation.
Qed.

Lemma hold_all_app l l' c : hold_all l (hold_all l' c) = hold_all (l ++ l') c.
Proof. unfold hold_all. destruct c. simpl. by rewrite <- app_assoc. Qed.

Lemma hold_all_good l c : good (hold_all l c) → good c ∧ ∀ p, p ∈ l → p ∉ dc_held c ∧ is_Some (dc_heap c !! p).
Proof.
  intros [[H1 H2 H3 H4 H5 H6] [Hnd Hl]]. rewrite hold_all_held in Hnd. apply NoDup_app in Hnd as (_ & Hd & Hnd). split.
  - split; [by split|]. split; [done|]. intros p Hp. apply (Hl p). rewrite hold_all_held. apply elem_of_app. by right.
  - intros p Hp. split; [by apply Hd|]. apply (Hl p). rewrite hold_all_held. apply elem_of_app. by left.
Qed.

(** The row of the address of a request fits an [int]. *)
Definition addr_ok (c : dram_controller_c) (r : mem_req_s) : Prop :=
  0 ≤ mr_addr r ∧ row_of (dc_knobs c) (dc_mapping c) (mr_addr r) < 2 ^ 31.

Section cycle.
Context {N : Type} `{NL : NetworkLaws N} `{Tk : TakesOne}.

(** The controller, with the packets that wait for it in the network. *)
Definition whole (c : dram_controller_c) (n : N) : dram_controller_c := hold_all (net_arrived n) c.

Record sys_ok (c : dram_controller_c) (n : N) : Prop := {
  sy_good : good (whole c n);
  sy_mapping : mapping_ok (dc_knobs c) (dc_mapping c);
  sy_noc : enable_new_noc (dc_knobs c) = true;
  sy_starving : 0 ≤ m_starvation_cycle c < 5000;
  sy_addr p r : p ∈ net_arrived n → dc_heap c !! p = Some r → addr_ok c r;
}.

Lemma whole_goes c c' n n' : goes c c' → net_arrived n' = net_arrived n → goes (whole c n) (whole c' n').
Proof. intros Hgo E. unfold whole. rewrite E. by apply hold_all_goes. Qed.

Lemma goes_kept_outside c c' p : goes c c' → p ∉ dc_held c → kept p (dc_heap c) (dc_heap c').
Proof. intros [_ (F & S & [H1 _ _ H4 _]) _] Hp. rewrite H1, !not_elem_of_app in Hp. destruct Hp as (_ & ? & _). by apply H4. Qed.

(** The parts of a cycle keep the invariant of the system. *)
Lemma goes_sys c c' n n' : sys_ok c n → goes c c' → net_arrived n' = net_arrived n → sys_ok c' n'.
Proof.
  intros [H1 H2 H3 H4 H5] Hgo E. pose proof (go_params _ _ Hgo) as Hpar. injection Hpar as P1 P2 P3 P4 P5. split.
  - eapply goes_good; [exact H1|]. by apply whole_goes.
  - by rewrite P1, P2.
  - by rewrite P1.
  - by rewrite P5.
  - intros p r Hp Hr. rewrite E in Hp. destruct (hold_all_good _ _ H1) as [Hg Hout]. destruct (Hout p Hp) as [Hnp [r0 Hr0]].
    destruct (goes_kept_outside _ _ p Hgo Hnp r0 Hr0) as (r' & Hr' & Est). assert (r' = r) as -> by congruence.
    unfold addr_ok. rewrite P1, P2. injection Est as _ -> _ _ _ _. by apply (H5 p).
Qed.

(** A packet is taken from the network when there is room for it. *)
Lemma receive_packet_goes c n :
  sys_ok c n → ∃ c' n', receive_packet (c, n) = Ok (c', n') ∧ sys_ok c' n' ∧ goes (whole c n) (whole c' n').
Proof.
  intros Hsys. pose proof Hsys as [H1 H2 H3 H4 H5]. unfold receive_packet. cbn [fst snd]. rewrite H3, net_receive_head.
  destruct (net_arrived n) as [|p l] eqn:El.
  { exists c, n. split_and!; [done|done|]. by apply goes_refl. }
  destruct (hold_all_good _ _ H1) as [Hg Hout]. rewrite El in Hout. destruct (Hout p ltac:(left)) as [Hnp [r Hr]].
  destruct (H5 p r ltac:(left) Hr) as [Ha Hrow]. cbn [head].
  destruct (insert_new_req_goes p c r Hg H2 Hnp Hr Ha Hrow) as (i & ok & c' & E & _ & Hgo). rewrite E. cbn [mbind res_bind fst snd].
  destruct ok; eexists _, _; (split; [done|]); [|split; [by eapply goes_sys|by apply whole_goes]].
  assert (net_arrived (net_pop n) = l) as Epop by (by rewrite net_pop_tail, El).
  assert (goes (whole c n) (whole c' (net_pop n))) as Hw.
  { unfold whole. rewrite Epop, El. pose proof (hold_all_goes l _ _ Hgo) as Hl. eapply goes_trans; [|exact Hl].
    change (hold p c) with (hold_all [p] c). rewrite hold_all_app. split.
    - destruct H1 as [[A1 A2 A3 A4 A5 A6] _]. by split.
    - exists [], []. split; try done; [rewrite !hold_all_held; solve_Permutation|intros q _; apply kept_refl|by intros q ?%not_elem_of_nil].
    - done. }
  split; [|exact Hw]. pose proof (go_params _ _ Hgo) as Hpar. injection Hpar as P1 P2 P3 P4 P5. simpl in P1, P2, P5. split.
  - exact (goes_good _ _ H1 Hw).
  - by rewrite P1, P2.
  - by rewrite P1.
  - by rewrite P5.
  - intros q x Hq Hx. rewrite Epop in Hq. assert (q ∉ dc_held (hold p c)) as Hnq.
    { rewrite hold_held, not_elem_of_cons. split; [|by apply Hout; right]. intros ->. destruct H1 as [_ [Hnd _]].
      unfold whole in Hnd. rewrite hold_all_held, El in Hnd. simpl in Hnd. apply NoDup_cons in Hnd as [Hnd _]. apply Hnd, elem_of_app. by left. }
    destruct (Hout q ltac:(by right)) as [_ [r0 Hr0]]. destruct (goes_kept_outside _ _ q Hgo Hnq r0 Hr0) as (r' & Hr' & Est).
    assert (r' = x) as -> by congruence. unfold addr_ok. rewrite P1, P2. injection Est as _ -> _ _ _ _. apply (H5 q); [by right|done].
Qed.

(** [progress_check] ends the simulation in the 5000th cycle without an answer. *)
Lemma progress_check_spec c :
  0 ≤ m_starvation_cycle c < 5000 →
  (progress_check c = Err Abort ∧ m_starvation_cycle c = 4999 ∧ m_num_completed_in_last_cycle c = 0 ∧ 0 < m_total_req c) ∨
  ∃ k, progress_check c = Ok (set_counts (m_num_completed_in_last_cycle c) k (m_total_req c) c) ∧ 0 ≤ k < 5000.
Proof.
  intros Hs. unfold progress_check. rewrite int_small by lia. case_bool_decide as Hb.
  - case_bool_decide as Hlt; [right; eexists; split; [done|lia]|]. left. split_and!; [done|lia|apply Hb|apply Hb].
  - right. exists 0. split; [done|lia].
Qed.

Lemma tick_sys k c n :
  sys_ok c n → 0 ≤ k < 5000 → 0 ≤ m_cycle c → m_cycle c + 1 < ULLONG_MAX →
  let c' := set_cycle (u64 (m_cycle c + 1)) (set_counts (m_num_completed_in_last_cycle c) k (m_total_req c) c) in
  sys_ok c' n ∧ conserves (whole c n) (whole c' n) ∧ m_cycle c' = m_cycle c + 1.
Proof.
  intros [[[A1 A2 A3 A4 A5 A6] [B1 B2]] H2 H3 H4 H5] Hk H0 Hc c'. unfold ULLONG_MAX in Hc.
  assert (m_cycle c' = m_cycle c + 1) as Ec by (unfold c'; simpl; apply u64_small; lia). split; [|split; [|done]].
  - split; try done. split; [split; try done|by split].
    change (m_cycle (whole c' n)) with (m_cycle c'). rewrite Ec. unfold ULLONG_MAX. lia.
  - exists [], []. split; try done; [by rewrite app_nil_r|intros p _; apply kept_refl|by intros p ?%not_elem_of_nil].
Qed.

(** No assertion of a cycle fails but the one for starvation. *)
Lemma run_a_cycle_spec c n :
  sys_ok c n → 0 ≤ m_cycle c → m_cycle c + 1 < ULLONG_MAX →
  (run_a_cycle (c, n) = Err Abort ∧ m_starvation_cycle c = 4999) ∨
  ∃ c' n', run_a_cycle (c, n) = Ok (c', n') ∧ sys_ok c' n' ∧ conserves (whole c n) (whole c' n') ∧ m_cycle c' = m_cycle c + 1 ∧
    dc_knobs c' = dc_knobs c ∧ dc_mapping c' = dc_mapping c.
Proof.
  intros Hsys H0 Hc. destruct (hold_all_good _ _ (sy_good _ _ Hsys)) as [Hg _]. unfold run_a_cycle.
  destruct (send_packet_goes c n Hg (sy_noc _ _ Hsys)) as (c1 & n1 & -> & H1 & En & _). cbn [mbind res_bind fst snd].
  pose proof (goes_good _ _ Hg H1) as Hg1. destruct (delay_packet_goes c1 Hg1) as (c2 & -> & H2 & _). cbn [mbind res_bind fst snd].
  pose proof (goes_good _ _ Hg1 H2) as Hg2. destruct (channel_schedule_goes c2 Hg2) as (c3 & -> & H3). cbn [mbind res_bind fst snd].
  pose proof (goes_good _ _ Hg2 H3) as Hg3. destruct (bank_schedule_goes c3 Hg3) as (c4 & -> & H4). cbn [mbind res_bind fst snd].
  pose proof (goes_trans _ _ _ H1 (goes_trans _ _ _ H2 (goes_trans _ _ _ H3 H4))) as H14.
  pose proof (goes_sys c c4 n n1 Hsys H14 En) as Hsys4.
  destruct (receive_packet_goes c4 n1 Hsys4) as (c5 & n5 & -> & Hsys5 & H5). cbn [mbind res_bind fst snd].
  pose proof (go_params _ _ (goes_trans _ _ _ (whole_goes c c4 n n1 H14 En) H5)) as Hpar. injection Hpar as P1 P2 P3 P4 P5. simpl in *.
  destruct (progress_check_spec c5 (sy_starving _ _ Hsys5)) as [(E & Hst & _)|(k & E & Hk)]; rewrite E; cbn [mbind res_bind].
  { left. split; [done|congruence]. }
  right. destruct (tick_sys k c5 n5 Hsys5 Hk) as (Hsys' & Hcons & Ecyc); [by rewrite P4|by rewrite P4|].
  eexists _, _. split; [done|]. split; [exact Hsys'|]. split; [|split; [rewrite <- P4; exact Ecyc|by split]].
  etrans; [|exact Hcons]. etrans; [apply (go_conserves _ _ (whole_goes c c4 n n1 H14 En))|apply (go_conserves _ _ H5)].
Qed.
End cycle.

(** ** Runs *)

(** [log2_int] is the logarithm, rounded down. *)
Lemma log2_loop_exact fuel : ∀ n power,
  0 < n < 2 ^ Z.of_nat fuel → log2_loop fuel n power = power + Z.log2 n.
Proof.
  induction fuel as [|fuel IH]; intros n power Hn; [simpl in Hn; lia|]. rewrite Nat2Z.inj_succ, Z.pow_succ_r in Hn by lia.
  cbn [log2_loop]. rewrite Z.shiftr_div_pow2 by lia. change (2 ^ 1) with 2. pose proof (Z_div_mod_eq_full n 2). pose proof (Z.mod_pos_bound n 2 ltac:(lia)).
  case_bool_decide as Hz.
  - assert (n = 1) as -> by lia. simpl. lia.
  - rewrite IH by (split; [lia|]; apply Z.div_lt_upper_bound; lia).
    assert (0 < n / 2) by lia. destruct (decide (n `mod` 2 = 0)) as [E|E].
    + assert (n = 2 * (n / 2)) as En by lia. rewrite En at 2. rewrite Z.log2_double by lia. lia.
    + assert (n = 2 * (n / 2) + 1) as En by lia. rewrite En at 2. rewrite Z.log2_succ_double by lia. lia.
Qed.

Lemma log2_int_spec n : 0 < n < 2 ^ 32 → log2_int n = Z.log2 n ∧ 0 ≤ Z.log2 n < 32.
Proof.
  intros Hn. unfold log2_int. rewrite u32_small by lia. rewrite (log2_loop_exact 32) by (simpl; lia). split; [lia|].
  split; [apply Z.log2_nonneg|apply Z.log2_lt_pow2; lia].
Qed.

(** What the knobs must be. The sum of the logarithms is below the width of an address
    in every configuration of MacSim. *)
Record knobs_ok (k : Knobs) : Prop := {
  ko_bank : 0 < num_bank k < 2 ^ 31;
  ko_channel : 0 < num_channel k;
  ko_width : int (bus_width k) ≠ 0;
  ko_row : 0 < rowbuffer_size k < 2 ^ 32;
  ko_mc : 0 < num_mc k < 2 ^ 31;
  ko_l3 : 0 < l3_line_size k < 2 ^ 32 ∧ 0 < num_l3 k < 2 ^ 32 ∧ 0 < l3_num_set k < 2 ^ 32;
  ko_interleaving : default_interleaving k = true ∨ new_interleaving k = true;
  ko_xor : Z.log2 (l3_line_size k) + Z.log2 (num_l3 k) + Z.log2 (l3_num_set k) + 5 < 64;
  ko_noc : enable_new_noc k = true;
}.

Lemma make_mapping_ok k unset : knobs_ok k → mapping_ok k (make_mapping k unset).
Proof.
  intros [[K1 K1'] _ _ K4 K5 (K6 & K7 & K8) K9 K10 _].
  destruct (log2_int_spec (num_bank k)) as [Eb Hb]; [lia|]. destruct (log2_int_spec (rowbuffer_size k) K4) as [Er Hr].
  destruct (log2_int_spec (l3_line_size k) K6) as [El Hl]. destruct (log2_int_spec (num_l3 k) K7) as [E3 H3].
  destruct (log2_int_spec (l3_num_set k) K8) as [Es Hs]. destruct (log2_int_spec (num_mc k)) as [Em Hm]; [lia|].
  assert (log2_int 512 = 9) as E512 by reflexivity.
  assert (Z.log2 (num_bank k) < 31) as Hb31 by (apply Z.log2_lt_pow2; lia).
  assert (∃ n, 0 ≤ n < 31 ∧ N_BIT_MASK (log2_int (num_bank k)) = 2 ^ n - 1 ∧ 2 ^ n ≤ num_bank k) as Hmask.
  { exists (Z.log2 (num_bank k)). rewrite Eb. split; [lia|]. pose proof (Z.log2_spec (num_bank k) K1) as [Hpow _]. split; [|exact Hpow].
    unfold N_BIT_MASK. rewrite Z.shiftl_1_l, u32_small; [done|]. pose proof (Z.pow_pos_nonneg 2 (Z.log2 (num_bank k)) ltac:(lia) ltac:(lia)). lia. }
  assert (u64 (num_mc k) ≠ 0) as Hu by (rewrite u64_small; lia).
  assert (∀ a b c d, 0 ≤ a < 32 → 0 ≤ b < 32 → 0 ≤ c < 32 → 0 ≤ d < 32 → u32 (a + b + c + d) = a + b + c + d) as Hu32
    by (intros; apply u32_small; lia).
  assert (int (Z.log2 (num_mc k)) = Z.log2 (num_mc k)) as Ei by (apply int_small; lia).
  assert (u32 (Z.log2 (rowbuffer_size k) + Z.log2 (num_mc k)) = Z.log2 (rowbuffer_size k) + Z.log2 (num_mc k)) as Erm by (apply u32_small; lia).
  assert (u32 (Z.log2 (l3_line_size k) + 9) = Z.log2 (l3_line_size k) + 9) as El9 by (apply u32_small; lia).
  unfold make_mapping, mapping_ok. destruct (default_interleaving k).
  - simpl. rewrite El, E512, El9, Er, Eb in *. split_and!; try done; lia.
  - destruct K9 as [?| ->]; [done|]. simpl. rewrite El, E3, Es, Em, Ei, Er, Erm, Eb, Hu32 in * by lia.
    destruct (mc_test _); split_and!; try done; lia.
Qed.

(** From a new controller, cycles and requests that arrive: [ps] are these, with what
    they asked for. A request arrives under a pointer of its own. *)
Section run.
Context {N : Type} `{NL : NetworkLaws N} `{Tk : TakesOne}.
Variables (c0 : dram_controller_c) (n0 : N).

Inductive mac_run : list (ptr * mem_req_s) → dram_controller_c → N → Prop :=
| mac_start : mac_run [] c0 n0
| mac_arrive ps c n n' p r :
    mac_run ps c n → net_arrived n' = net_arrived n ++ [p] → p ∉ ps.*1 → addr_ok c r →
    mac_run ((p, r) :: ps) (set_heap (<[p := r]> (dc_heap c)) (dc_freed c) (dc_sent c) c) n'
| mac_turn ps c n c' n' :
    mac_run ps c n → m_cycle c + 1 < ULLONG_MAX → run_a_cycle (c, n) = Ok (c', n') → mac_run ps c' n'.

(** A request that arrives is a new one. *)
Lemma arrive_whole c n n' p (r : mem_req_s) (ps : list (ptr * mem_req_s)) :
  good (whole c n) → ps.*1 ≡ₚ dc_account (whole c n) → net_arrived n' = net_arrived n ++ [p] → p ∉ ps.*1 →
  let c' := set_heap (<[p := r]> (dc_heap c)) (dc_freed c) (dc_sent c) c in
  good (whole c' n') ∧ dc_account (whole c' n') ≡ₚ p :: dc_account (whole c n) ∧ p ∉ dc_held (whole c n).
Proof.
  intros [[A1 A2 A3 A4 A5 A6] [B1 B2]] Hacc En Hp c'.
  assert (dc_held (whole c' n') ≡ₚ p :: dc_held (whole c n)) as Hheld.
  { unfold whole. rewrite !hold_all_held, En. change (dc_held c') with (dc_held c). solve_Permutation. }
  assert (p ∉ dc_held (whole c n)) as Hnew.
  { intros Hin. apply Hp. rewrite Hacc. unfold dc_account. apply elem_of_app. by left. }
  split; [|split; [|done]].
  - split; [by split|]. split; [rewrite Hheld; by constructor|]. intros q. rewrite Hheld. simpl.
    intros [->|Hq]%elem_of_cons; [rewrite lookup_insert_eq; by eexists|]. rewrite lookup_insert_ne by (by intros ->). by apply (B2 q).
  - unfold dc_account. by rewrite Hheld.
Qed.

(** Every request is where it should be. *)
Record run_ok (ps : list (ptr * mem_req_s)) (c : dram_controller_c) (n : N) : Prop := {
  ro_sys : sys_ok c n;
  ro_cycle : 0 ≤ m_cycle c;
  ro_account : ps.*1 ≡ₚ dc_account (whole c n);
  ro_nodup : NoDup ps.*1;
  ro_kept p r : (p, r) ∈ ps → p ∉ dc_freed c → ∃ r', dc_heap c !! p = Some r' ∧ static r' = static r;
  ro_freed p r : (p, r) ∈ ps → p ∈ dc_freed c → mr_type r = MRT_WB ∨ mr_type r = MRT_DPRF;
}.

Lemma run_ok_arrive ps c n n' p r :
  run_ok ps c n → net_arrived n' = net_arrived n ++ [p] → p ∉ ps.*1 → addr_ok c r →
  run_ok ((p, r) :: ps) (set_heap (<[p := r]> (dc_heap c)) (dc_freed c) (dc_sent c) c) n'.
Proof.
  intros [[H1 H2 H3 H4 H5] Hcyc Hacc Hnd Hk Hf] En Hp Ha. destruct (arrive_whole c n n' p r ps H1 Hacc En Hp) as (Hw & Hacc' & Hnew).
  set (c' := set_heap _ _ _ c) in *. assert (p ∉ dc_freed c) as Hnf.
  { intros Hin. apply Hp. rewrite Hacc. unfold dc_account. rewrite !elem_of_app. auto. }
  assert (∀ q, q ∈ ps.*1 → q ≠ p) as Hne by (by intros q Hq ->).
  split; [split| | | | |]; try done.
  - intros q x. rewrite En. simpl. intros [Hq| ->%list_elem_of_singleton]%elem_of_app Hx; [|by rewrite lookup_insert_eq in Hx; simplify_eq].
    rewrite lookup_insert_ne in Hx; [by apply (H5 q)|]. intros ->. apply Hnew. unfold whole. rewrite hold_all_held. apply elem_of_app. by left.
  - rewrite Hacc'. simpl. by constructor.
  - simpl. by constructor.
  - intros q x [[= -> ->]|Hq]%elem_of_cons Hq'; simpl in *; [rewrite lookup_insert_eq; by eexists|].
    rewrite lookup_insert_ne by (apply not_eq_sym, Hne; exact (list_elem_of_fmap_2 fst ps _ Hq)). by apply Hk.
  - intros q x [[= -> ->]|Hq]%elem_of_cons Hq'; simpl in *; [done|by eapply Hf].
Qed.

Lemma run_ok_turn ps c n c' n' :
  run_ok ps c n → m_cycle c + 1 < ULLONG_MAX → run_a_cycle (c, n) = Ok (c', n') → run_ok ps c' n'.
Proof.
  intros [Hsys Hcyc Hacc Hnd Hk Hf] Hlt E.
  destruct (run_a_cycle_spec c n Hsys Hcyc Hlt) as [[E' _]|(c1 & n1 & E' & Hsys' & Hcons & Ec & _)]; [congruence|].
  assert (c1 = c' ∧ n1 = n') as [-> ->] by (split; congruence). pose proof (conserves_account _ _ Hcons) as Ha.
  split; try done; [lia|by rewrite Ha| |]; destruct Hcons as (F & S & [K1 K2 K3 K4 K5]); change (dc_freed (whole c' n')) with (dc_freed c') in K2;
    change (dc_freed (whole c n)) with (dc_freed c) in K2.
  - intros p r Hp Hnf. rewrite K2, not_elem_of_app in Hnf. destruct Hnf as [HF Hnf]. destruct (Hk p r Hp Hnf) as (r1 & Hr1 & E1).
    destruct (K4 p HF r1 Hr1) as (r2 & Hr2 & E2). exists r2. split; [exact Hr2|congruence].
  - intros p r Hp. rewrite K2, elem_of_app. intros [HF|Hq]; [|by eapply Hf].
    destruct (decide (p ∈ dc_freed c)) as [|Hnf]; [by eapply Hf|]. destruct (Hk p r Hp Hnf) as (r1 & Hr1 & [= <- _ _ _ _ _]).
    by apply (K5 p HF r1).
Qed.
End run.

Section start.
Context {N : Type} `{NL : NetworkLaws N} `{Tk : TakesOne}.
Variables (k : Knobs) (unset : Mapping) (counts : Z * Z * Z) (noc_id unique_id : Z) (c0 : dram_controller_c) (n0 : N).
Hypothesis Hk : knobs_ok k.
Hypothesis Hstart : dram_controller_ctor k unset counts noc_id unique_id ∅ = Ok c0.
Hypothesis Hcounts : 0 ≤ counts.1.2 < 5000.
Hypothesis Hempty : net_arrived n0 = [].

Lemma ctor_run_ok : run_ok [] c0 n0.
Proof.
  unfold dram_controller_ctor in Hstart. rewrite bool_decide_false in Hstart by (pose proof (ko_channel _ Hk); lia).
  injection Hstart as <-. set (c := mkDC _ _ _ _ _ _ _ _ _ _ _ _ _ _ _ _).
  assert (dc_held c = []) as Eheld.
  { assert (∀ m b, bank_reqs b = [] → concat (bank_reqs <$> replicate m b) = []) as Hnone.
    { intros m b Hb. induction m as [|m IH]; [done|]. simpl. by rewrite Hb. }
    unfold dc_held, dc_outputs, c. simpl. rewrite Hnone by done. simpl. by case_bool_decide. }
  assert (dc_held (whole c n0) ≡ₚ []) as Hw by (unfold whole; rewrite hold_all_held, Hempty, Eheld; done).
  split; [split| | | | |]; try done.
  - split.
    + split; unfold c; simpl; try done.
      * by rewrite length_replicate.
      * by rewrite length_replicate.
      * pose proof (ko_bank _ Hk). pose proof (ko_channel _ Hk). lia.
      * apply Hk.
      * intros i b [-> _]%lookup_replicate. split; [|intros e ?%not_elem_of_nil; done|by left].
        unfold bank_entries. simpl. apply length_replicate.
    + split; [rewrite Hw; apply NoDup_nil_2|]. intros p. rewrite Hw. by intros ?%not_elem_of_nil.
  - by apply make_mapping_ok.
  - apply Hk.
  - unfold dc_account. by rewrite Hw.
  - apply NoDup_nil_2.
  - by intros p r ?%not_elem_of_nil.
  - by intros p r ?%not_elem_of_nil.
Qed.

Lemma mac_run_ok ps c n : mac_run c0 n0 ps c n → run_ok ps c n.
Proof. induction 1; [apply ctor_run_ok|by eapply run_ok_arrive|by eapply run_ok_turn]. Qed.

(** C14. In every run of MacSim's controller with the knobs of [knobs_ok] (an interleaving is
    chosen, banks, channels, bus width, row buffer and controllers are positive and fit their
    types), whose starvation counter starts below 5000 and that gets only requests whose row
    number fits its type, every request that has arrived is, exactly once, in the
    network, with the controller, sent back or freed; only write backs and prefetches
    are freed; what a request asks for is not changed. *)
Theorem mac_requests_accounted ps c n :
  mac_run c0 n0 ps c n →
  ps.*1 ≡ₚ net_arrived n ++ dc_held c ++ dc_freed c ++ dc_sent c ∧ NoDup ps.*1 ∧
  (∀ p r, (p, r) ∈ ps → p ∈ dc_freed c → mr_type r = MRT_WB ∨ mr_type r = MRT_DPRF) ∧
  (∀ p r, (p, r) ∈ ps → p ∉ dc_freed c → ∃ r', dc_heap c !! p = Some r' ∧ static r' = static r).
Proof.
  intros [Hsys Hcyc Hacc Hnd Hkept Hf]%mac_run_ok. split_and!; try done. rewrite Hacc. unfold dc_account, whole. rewrite hold_all_held.
  change (dc_freed (hold_all _ c)) with (dc_freed c). change (dc_sent (hold_all _ c)) with (dc_sent c). solve_Permutation.
Qed.

(** In a run of MacSim's controller no memory is misused and no assertion fails, but
    the one that ends the simulation in the 5000th cycle without an answer. *)
Theorem mac_cycle_never_fails ps c n :
  mac_run c0 n0 ps c n → m_cycle c + 1 < ULLONG_MAX →
  (∃ c' n', run_a_cycle (c, n) = Ok (c', n') ∧ m_cycle c' = m_cycle c + 1) ∨
  (run_a_cycle (c, n) = Err Abort ∧ m_starvation_cycle c = 4999).
Proof.
  intros [Hsys Hcyc _ _ _ _]%mac_run_ok Hlt. destruct (run_a_cycle_spec c n Hsys Hcyc Hlt) as [?|(c' & n' & ? & _ & _ & ? & _)]; [by right|left; eauto].
Qed.
End start.
