(* ===== verification/MacDramBus.v ===== *)
(** * What the schedulers of MacSim pick, and what its data buses carry

    The first-ready scheduler takes the best entry of a buffer; a data bus never
    carries more than its width in a cycle (MacDram.v). *)
From Stdlib Require Import Sorted.
From S2P Require Import Prelude Types MacDram MacDramLaws.
#[local] Open Scope Z_scope.

(** ** Sorting *)
Section sort.
Context {A : Type} (less : A → A → bool).
Hypothesis less_asym : ∀ a b, less a b = true → less b a = false.
Hypothesis less_trans : ∀ a b c, less b a = false → less c b = false → less c a = false.

Definition not_after (a b : A) : Prop := less b a = false.

Lemma sort_insert_sorted x l : StronglySorted not_after l → StronglySorted not_after (sort_insert less x l).
Proof.
  induction 1 as [|y l Hl IH Hy]; [by repeat constructor|]. simpl. destruct (less y x) eqn:E.
  - constructor; [done|]. apply Forall_forall. intros z Hz. rewrite sort_insert_perm in Hz.
    apply elem_of_cons in Hz as [->|Hz]; [by apply less_asym|]. by apply (proj1 (Forall_forall _ _) Hy).
  - constructor; [by constructor|]. constructor; [done|]. apply Forall_forall. intros z Hz.
    eapply less_trans; [exact E|]. by apply (proj1 (Forall_forall _ _) Hy).
Qed.

Lemma list_sort_sorted l : StronglySorted not_after (list_sort less l).
Proof. induction l as [|x l IH]; [constructor|]. simpl. by apply sort_insert_sorted. Qed.

(** The head of the sorted list: no element is before it. *)
Lemma list_sort_head l x rest : list_sort less l = x :: rest → ∀ y, y ∈ l → y = x ∨ less y x = false.
Proof.
  intros E y Hy. rewrite <- (list_sort_perm less l), E in Hy. apply elem_of_cons in Hy as [->|Hy]; [by left|right].
  pose proof (list_sort_sorted l) as Hs. rewrite E in Hs. apply StronglySorted_inv in Hs as [_ Hx]. by apply (proj1 (Forall_forall _ _) Hx).
Qed.
End sort.

(** [a] is not worse than [b]: a demand before a prefetch, then a row hit before a
    conflict, then the older one. *)
Definition as_good_as (a b : sort_key) : Prop :=
  (sk_prefetch a = true → sk_prefetch b = true) ∧
  (sk_prefetch a = sk_prefetch b → sk_hit b = true → sk_hit a = true) ∧
  (sk_prefetch a = sk_prefetch b → sk_hit a = sk_hit b → sk_timestamp a ≤ sk_timestamp b).

Lemma sort_less_as_good a b : sort_less b a = false ↔ as_good_as a b.
Proof.
  unfold sort_less, as_good_as. destruct a as [pa ha ta], b as [pb hb tb]. simpl.
  destruct pa, pb, ha, hb; simpl; rewrite ?bool_decide_eq_false; naive_solver lia.
Qed.

Lemma sort_less_asym a b : sort_less a b = true → sort_less b a = false.
Proof.
  unfold sort_less. destruct a as [pa ha ta], b as [pb hb tb]. simpl.
  destruct pa, pb, ha, hb; simpl; rewrite ?bool_decide_eq_false, ?bool_decide_eq_true; naive_solver lia.
Qed.

Lemma sort_less_trans a b c : sort_less b a = false → sort_less c b = false → sort_less c a = false.
Proof.
  unfold sort_less. destruct a as [pa ha ta], b as [pb hb tb], c as [pc hc tc]. simpl.
  destruct pa, pb, pc, ha, hb, hc; simpl; rewrite ?bool_decide_eq_false; naive_solver lia.
Qed.

(** The key of an entry, from the type of its request and the open row of its bank. *)
Definition key_of (rid : Z → res Z) (type : drb_entry_s → res Mem_Req_Type) (e : drb_entry_s) : res sort_key :=
  t ← type e; r ← rid (en_bid e); Ok (entry_key t r e).

(** C27. The first-ready scheduler takes one entry out of the buffer, and no entry of the
    buffer is better: demands come before prefetches, hits in the open row before other
    rows, older entries before younger ones. *)
Theorem frfcfs_takes_the_best rid type buffer :
  buffer ≠ [] → (∀ e, e ∈ buffer → ∃ k, key_of rid type e = Ok k) →
  ∃ e rest ke, @schedule FRFCFS_schedule rid type buffer = Ok (e, rest) ∧ buffer ≡ₚ e :: rest ∧ key_of rid type e = Ok ke ∧
    ∀ x kx, x ∈ buffer → key_of rid type x = Ok kx → as_good_as ke kx.
Proof.
  intros Hne Hkey.
  destruct (keyed_total rid type buffer) as (ks & E & E2 & Hks).
  1, 2: intros e He; destruct (Hkey e He) as [k Hk]; unfold key_of in Hk; apply bind_Ok in Hk as (t & Ht & Hk);
    apply bind_Ok in Hk as (r & Hr & _); eauto.
  simpl. rewrite E. cbn [mbind res_bind]. set (less := λ a b : sort_key * drb_entry_s, sort_less a.1 b.1).
  pose proof (list_sort_perm less ks) as Hp. destruct (list_sort less ks) as [|[ke e] l] eqn:El.
  { apply Permutation_nil in Hp as ->. by simplify_eq/=. }
  assert (∀ k x, (k, x) ∈ ks → key_of rid type x = Ok k) as Hof.
  { intros k x Hx. destruct (Hks k x Hx) as (t & r & Ht & Hr & ->). unfold key_of. rewrite Ht. simpl. by rewrite Hr. }
  exists e, (l.*2), ke. split; [done|]. split; [|split].
  - rewrite <- E2, <- Hp. done.
  - apply Hof. rewrite <- Hp. left.
  - intros x kx Hx Hkx. rewrite <- E2 in Hx. apply list_elem_of_fmap in Hx as ([k y] & -> & Hy). simpl in Hkx.
    assert (k = kx) as -> by (pose proof (Hof k y Hy); congruence). apply sort_less_as_good.
    destruct (list_sort_head less ltac:(intros a b; apply sort_less_asym) ltac:(intros a b c; apply sort_less_trans) ks (ke, e) l El (kx, y) Hy) as [[= -> ->]|?]; [|done].
    apply sort_less_as_good. by split_and!.
Qed.

(** ** The data bus *)

(** The bytes a bus has had room for: its width for every cycle it was in use. *)
Definition bus_room (width : Z) (ch : Channel_t) : Z := width * m_dbus_ready ch - m_byte_avail ch.

Definition bus_ok (width : Z) (ch : Channel_t) : Prop := 0 < m_byte_avail ch ≤ width.

Lemma acquire_data_bus_spec width cycle n ch t ch' :
  bus_ok width ch → 0 < n → 0 ≤ cycle → cycle + n < 2 ^ 64 →
  acquire_data_bus width cycle n ch = Ok (t, ch') →
  bus_ok width ch' ∧ t = m_dbus_ready ch' ∧ cycle ≤ t ≤ cycle + (n - 1) `div` width + 1 ∧
  bus_room width ch' = width * cycle - m_byte_avail ch + n.
Proof.
  unfold bus_ok, bus_room, acquire_data_bus. intros Hok Hn Hcyc Hlt. case_bool_decide as Hb.
  - intros [= <- <-]. simpl. pose proof (Z.div_pos (n - 1) width ltac:(lia) ltac:(lia)). split_and!; try done; lia.
  - rewrite bool_decide_false by lia. rewrite Z.quot_div_nonneg, Z.rem_mod_nonneg by lia. intros [= <- <-]. simpl.
    set (rest := n - m_byte_avail ch) in *. pose proof (Z_div_mod_eq_full rest width). pose proof (Z.mod_pos_bound rest width ltac:(lia)).
    assert (0 ≤ rest / width) by (apply Z.div_pos; lia).
    assert (rest / width ≤ (n - 1) / width) by (apply Z.div_le_mono; lia).
    assert ((n - 1) / width ≤ n - 1) by (apply Z.div_le_upper_bound; nia).
    rewrite u64_small by lia. split_and!; try done; try lia.
Qed.

(** The transfers of a bus: the size of each, in cycles that find the bus free. *)
Inductive bus_run (width : Z) : Channel_t → list Z → Channel_t → Prop :=
| bus_idle ch : bus_run width ch [] ch
| bus_transfer ch cycle n t ch1 l ch' :
    avail_data_bus ch cycle = true → 0 ≤ cycle → cycle + n < 2 ^ 64 → 0 < n →
    acquire_data_bus width cycle n ch = Ok (t, ch1) → bus_run width ch1 l ch' → bus_run width ch (n :: l) ch'.

(** C28. A data bus never carries more than its width in a cycle: between two states of
    the bus it carried at most the room of the cycles between them. *)
Theorem bus_bandwidth width ch l ch' :
  bus_run width ch l ch' → bus_ok width ch →
  bus_ok width ch' ∧ m_dbus_ready ch ≤ m_dbus_ready ch' ∧
  foldr Z.add 0 l ≤ width * (m_dbus_ready ch' - m_dbus_ready ch) + m_byte_avail ch - m_byte_avail ch'.
Proof.
  induction 1 as [ch|ch cycle n t ch1 l ch' Hav Hc Hlt Hn Ha _ IH]; intros Hok; [split; [done|]; simpl; lia|].
  unfold avail_data_bus in Hav. apply bool_decide_eq_true in Hav.
  destruct (acquire_data_bus_spec width cycle n ch t ch1 Hok Hn Hc Hlt Ha) as (Hok1 & -> & Ht & Hroom).
  destruct (IH Hok1) as (Hok' & Hle & Hsum). unfold bus_room in Hroom. unfold bus_ok in Hok1.
  split; [done|]. simpl. nia.
Qed.
