(* ===== verification/MacDramLive.v ===== *)
(** * The memory controller of MacSim makes progress

    While the controller holds requests some bank gets nearer to its answer in every
    cycle. The distance of a bank is its _weight_; the sum of the weights bounds the
    cycles without an answer, so [progress_check] never ends the simulation. *)
From S2P Require Import Prelude Types MacDram MacDramLaws MacDramBus MacDramRun.
#[local] Open Scope Z_scope.

(** ** Weights *)

(** The longest latency of a command, the longest transfer of [size] bytes. *)
Definition max_latency (k : Knobs) : Z := Z.max (activate_latency k) (Z.max (precharge_latency k) (column_latency k)).
Definition max_transfer (k : Knobs) (size : Z) : Z := (size - 1) `div` int (bus_width k) + 1.

(** What the weight of a bank depends on. *)
Definition core (b : Bank_t) : bool + (DRAM_STATE * Z * Z * Z * Z * Z) :=
  match m_current_list b with
  | None => inl (bool_decide (m_buffer b = []))
  | Some e => inr (en_state e, en_rid e, m_current_rid b, m_data_ready b, m_data_avail b, m_bank_ready b)
  end.

(** The commands before the data of an entry of row [rid]. *)
Definition commands_left (rid open : Z) : Z := if bool_decide (open = -1) then 2 else if bool_decide (rid = open) then 1 else 3.

(** The entries of the banks, and the counter of them. *)
Definition entries (l : list Bank_t) : Z := foldr Z.add 0 ((λ b, Z.of_nat (length (bank_entries b))) <$> l).
Definition total_ok (c : dram_controller_c) : Prop := m_total_req c = entries (banks_ c).

Lemma entries_insert l i b b' :
  l !! i = Some b → entries (<[i := b']> l) = entries l + Z.of_nat (length (bank_entries b')) - Z.of_nat (length (bank_entries b)).
Proof.
  unfold entries. revert i. induction l as [|x l IH]; intros [|i] Hi; simplify_eq/=.
  - lia.
  - cbn [list_insert insert list_fmap fmap foldr] in *. rewrite (IH i Hi). lia.
Qed.

Lemma entries_nonneg l : 0 ≤ entries l.
Proof. unfold entries. induction l as [|b l IH]; [done|]. rewrite fmap_cons. cbn [foldr]. lia. Qed.

Lemma entries_replicate m b : bank_entries b = [] → entries (replicate m b) = 0.
Proof. intros E. unfold entries. induction m as [|m IH]; [done|]. cbn [replicate]. rewrite fmap_cons. cbn [foldr]. by rewrite E, IH. Qed.

Lemma entries_bound l n : (∀ b, b ∈ l → (length (bank_entries b) ≤ n)%nat) → entries l ≤ Z.of_nat (length l) * Z.of_nat n.
Proof.
  induction l as [|b l IH]; intros Hl; [done|]. unfold entries in *. rewrite fmap_cons. cbn [foldr length].
  pose proof (Hl b ltac:(left)). specialize (IH ltac:(intros; apply Hl; by right)). nia.
Qed.

Section weight.
Variables (k : Knobs) (size : Z).

Definition max_weight : Z := 3 * (max_latency k + 2) + max_transfer k size + 3.

Definition core_weight (t : Z) (x : bool + (DRAM_STATE * Z * Z * Z * Z * Z)) : Z :=
  match x with
  | inl _ => max_weight
  | inr (s, rid, open, data_ready, data_avail, bank_ready) =>
      match s with
      | DRAM_INIT => max_weight
      | DRAM_CMD => commands_left rid open * (max_latency k + 2) + max_transfer k size + 2
      | DRAM_CMD_WAIT => commands_left rid open * (max_latency k + 2) + max_transfer k size + 3 + Z.max 0 (bank_ready - t)
      | DRAM_DATA => max_transfer k size + 2 + Z.max 0 (data_avail - t)
      | DRAM_DATA_WAIT => Z.max 0 (data_ready - t)
      end
  end.
Definition weight (t : Z) (b : Bank_t) : Z := core_weight t (core b).

(** A bank is as it was, or it is nearer to its answer. *)
Definition calm (t : Z) (b b' : Bank_t) : Prop := core b' = core b ∨ weight t b' < weight t b.

Lemma calm_refl t b : calm t b b.
Proof. by left. Qed.
Lemma calm_trans t b1 b2 b3 : calm t b1 b2 → calm t b2 b3 → calm t b1 b3.
Proof. unfold calm, weight. intros [E|H] [E'|H']; [left; congruence|right; congruence|right; by rewrite E'|right; lia]. Qed.
Lemma calm_weight t b b' : calm t b b' → weight t b' ≤ weight t b.
Proof. unfold calm, weight. intros [->|?]; lia. Qed.

Lemma weight_tick t b : weight (t + 1) b ≤ weight t b.
Proof. unfold weight, core_weight. destruct (core b) as [?|[[[[[[] ?] ?] ?] ?] ?]]; lia. Qed.

(** ** The invariant *)
Record bank_live (t : Z) (b : Bank_t) : Prop := {
  bl_entry e : e ∈ bank_entries b → 0 ≤ en_rid e ∧ 0 < en_size e ≤ size;
  bl_state e : m_current_list b = Some e → en_state e ≠ DRAM_INIT;
  bl_stamp : m_bank_timestamp b ≤ t;
  bl_weight : weight t b ≤ max_weight;
}.

(** A bus that is busy sends the data of a bank. *)
Definition holder (ch : nat) (d : Z) (c : dram_controller_c) : Prop :=
  ∃ j b e, j ∈ bank_range ch c ∧ banks_ c !! j = Some b ∧ m_current_list b = Some e ∧ en_state e = DRAM_DATA_WAIT ∧ m_data_ready b = d.

Definition chan_live (c : dram_controller_c) : Prop :=
  ∀ ch x, channels_ c !! ch = Some x → bus_ok (int (bus_width k)) x ∧ (m_dbus_ready x ≤ m_cycle c ∨ holder ch (m_dbus_ready x) c).

Definition banks_live (c : dram_controller_c) : Prop := ∀ i b, banks_ c !! i = Some b → bank_live (m_cycle c) b.

Definition potential (t : Z) (l : list Bank_t) : Z := foldr Z.add 0 (weight t <$> l).

(** The steps that answer nothing. *)
Record quiet (c c' : dram_controller_c) : Prop := {
  qu_params : params c' = params c;
  qu_counts : m_num_completed_in_last_cycle c' = m_num_completed_in_last_cycle c ∧ m_total_req c' = m_total_req c;
  qu_banks : Forall2 (λ b b', calm (m_cycle c) b b' ∧ length (bank_entries b') = length (bank_entries b) ∧
    (bank_live (m_cycle c) b → bank_live (m_cycle c) b')) (banks_ c) (banks_ c');
  qu_chan : chan_live c → chan_live c';
}.

Lemma quiet_refl c : quiet c c.
Proof. split; try done. apply Forall2_same_length_lookup_2; [done|]. intros i b b' H1 H2. assert (b' = b) as -> by congruence. split_and!; [apply calm_refl|done|done]. Qed.

Lemma quiet_trans c1 c2 c3 : quiet c1 c2 → quiet c2 c3 → quiet c1 c3.
Proof.
  intros [P1 [N1 T1] B1 L1] [P2 [N2 T2] B2 L2]. destruct (params_cycle _ _ P1) as [E _]. rewrite E in B2.
  split; [congruence|split; congruence| |tauto]. eapply Forall2_trans; [|exact B1|exact B2].
  intros x y z (A1 & A2 & A3) (A4 & A5 & A6). split_and!; [by eapply calm_trans|congruence|tauto].
Qed.

(** ** The steps *)

(** Only the requests and the outputs changed. *)
Definition aside (c c' : dram_controller_c) : Prop :=
  banks_ c' = banks_ c ∧ channels_ c' = channels_ c ∧ params c' = params c ∧
  m_num_completed_in_last_cycle c' = m_num_completed_in_last_cycle c ∧ m_total_req c' = m_total_req c.

Lemma on_req_aside p f c c' : on_req p f c = Ok c' → aside c c'.
Proof. unfold on_req. intros (r & _ & [= <-])%bind_Ok. by split_and!. Qed.

Lemma holder_insert ch d c c1 j b b' :
  banks_ c1 = banks_ c → dc_knobs c1 = dc_knobs c → banks_ c !! j = Some b →
  (∀ e, m_current_list b = Some e → en_state e = DRAM_DATA_WAIT → m_data_ready b ≠ d) → holder ch d c → holder ch d (set_bank j b' c1).
Proof.
  intros Eb Ek Hj Hn (i & bi & e & Hi & Hbi & Hc & Hs & Hd). destruct (decide (i = j)) as [->|Hne].
  - assert (bi = b) as -> by congruence. by destruct (Hn e Hc Hs).
  - exists i, bi, e. unfold bank_range in *. simpl. rewrite Ek, Eb. split_and!; try done. by rewrite list_lookup_insert_ne.
Qed.

Lemma quiet_bank c c1 j b b' :
  aside c c1 → banks_ c !! j = Some b → calm (m_cycle c) b b' → length (bank_entries b') = length (bank_entries b) →
  (bank_live (m_cycle c) b → bank_live (m_cycle c) b') → (∀ e, m_current_list b = Some e → en_state e ≠ DRAM_DATA_WAIT) →
  quiet c (set_bank j b' c1).
Proof.
  intros (E1 & E2 & E3 & E4 & E5) Hj Hcalm Hlen Hlive Hst. destruct (params_cycle _ _ E3) as [E6 E7]. split; try done.
  - simpl. rewrite E1. apply Forall2_same_length_lookup. split; [by rewrite length_insert|]. intros i x y Hx Hy.
    destruct (decide (i = j)) as [->|Hn].
    + rewrite list_lookup_insert_eq in Hy by (by eapply lookup_lt_Some). simplify_eq. by split_and!.
    + rewrite list_lookup_insert_ne in Hy by done. simplify_eq. split_and!; [apply calm_refl|done|done].
  - intros Hch ch x Hx. simpl in Hx. rewrite E2 in Hx. destruct (Hch ch x Hx) as [Hok [Hd|Hh]]; (split; [done|]); [left; simpl; by rewrite E6|].
    right. eapply holder_insert; try done. intros e He Hw. by destruct (Hst e He).
Qed.

Hypothesis Hsize : 0 < size.
Hypothesis Hwidth : 0 < int (bus_width k).
Hypothesis Hlat : 0 ≤ activate_latency k ∧ 0 ≤ precharge_latency k ∧ 0 ≤ column_latency k.
Hypothesis Hshort : max_latency k < 2 ^ 31 ∧ size < 2 ^ 31.

Lemma max_transfer_pos : 0 < max_transfer k size.
Proof. unfold max_transfer. pose proof (Z.div_pos (size - 1) (int (bus_width k)) ltac:(lia) Hwidth). lia. Qed.
Lemma max_latency_spec : activate_latency k ≤ max_latency k ∧ precharge_latency k ≤ max_latency k ∧ column_latency k ≤ max_latency k.
Proof. unfold max_latency. lia. Qed.

(** A command brings a bank nearer. *)
Lemma next_command_weight t e b :
  0 ≤ t < 2 ^ 63 → m_current_list b = Some e → en_state e = DRAM_CMD → 0 ≤ en_rid e → weight t (next_command k t e b) < weight t b.
Proof.
  intros Ht Hc Hs Hr. pose proof max_transfer_pos. pose proof max_latency_spec as (L1 & L2 & L3). destruct Hlat as (L4 & L5 & L6). destruct Hshort as [L7 _].
  unfold weight, core. rewrite Hc. simpl. rewrite Hs. unfold next_command, commands_left.
  case_bool_decide as B1; [|case_bool_decide as B2]; simpl; rewrite !u64_small by lia.
  all: unfold commands_left; repeat case_bool_decide; lia.
Qed.

(** The entry in service goes on. *)
Definition with_current (s : DRAM_STATE) (rid dr da br ts : Z) (e : drb_entry_s) (b : Bank_t) : Bank_t :=
  set_times rid dr da br ts (set_lists (m_buffer b) (m_buffer_free_list b) (Some (set_en_state s e)) b).

Lemma current_live t s rid dr da br ts e b :
  m_current_list b = Some e → s ≠ DRAM_INIT → ts ≤ t → weight t (with_current s rid dr da br ts e b) ≤ max_weight →
  bank_live t b → bank_live t (with_current s rid dr da br ts e b).
Proof.
  intros Hc Hs Hts Hw [H1 H2 H3 H4]. unfold bank_entries in H1. rewrite Hc in H1. split; [|by intros x [= <-]|done|done].
  intros x Hx. unfold bank_entries in Hx. simpl in Hx. rewrite elem_of_app, list_elem_of_singleton in Hx.
  destruct Hx as [Hx| ->]; [apply H1, elem_of_app; by left|]. simpl. apply H1, elem_of_app. right. left.
Qed.

Lemma quiet_current c c1 j b e s rid dr da br ts :
  aside c c1 → banks_ c !! j = Some b → m_current_list b = Some e → en_state e ≠ DRAM_DATA_WAIT → s ≠ DRAM_INIT →
  (bank_live (m_cycle c) b → ts ≤ m_cycle c) → bank_live (m_cycle c) b →
  weight (m_cycle c) (with_current s rid dr da br ts e b) < weight (m_cycle c) b →
  quiet c (set_bank j (with_current s rid dr da br ts e b) c1).
Proof.
  intros Ha Hj Hc Hst Hs Hts Hl Hw. apply (quiet_bank c c1 j b); try done.
  - by right.
  - unfold bank_entries. simpl. by rewrite Hc, !length_app.
  - intros _. apply current_live; try done; [by apply Hts|]. pose proof (bl_weight _ _ Hl). lia.
  - intros x Hx. by assert (x = e) as -> by congruence.
Qed.

(** ** Invariant and steps *)
Record fit (c : dram_controller_c) : Prop := {
  ft_good : good c;
  ft_banks : banks_live c;
  ft_chan : chan_live c;
  ft_knobs : dc_knobs c = k;
  ft_cycle : 0 ≤ m_cycle c < 2 ^ 31;
}.

Definition good_step (c c' : dram_controller_c) : Prop := goes c c' ∧ quiet c c'.

Lemma good_step_refl c : good c → good_step c c.
Proof. intros Hg. split; [by apply goes_refl|apply quiet_refl]. Qed.
Lemma good_step_trans c1 c2 c3 : good_step c1 c2 → good_step c2 c3 → good_step c1 c3.
Proof. intros [A1 A2] [B1 B2]. split; [by eapply goes_trans|by eapply quiet_trans]. Qed.

Lemma quiet_bank_at c c' i b' : quiet c c' → banks_ c' !! i = Some b' → ∃ b, banks_ c !! i = Some b ∧ calm (m_cycle c) b b' ∧
  length (bank_entries b') = length (bank_entries b) ∧ (bank_live (m_cycle c) b → bank_live (m_cycle c) b').
Proof. intros Hq Hi. destruct (Forall2_lookup_r _ _ _ _ _ (qu_banks _ _ Hq) Hi) as (b & Hb & ? & ? & ?). eauto. Qed.

Lemma fit_step c c' : fit c → good_step c c' → fit c'.
Proof.
  intros [F1 F2 F3 F4 F5] [Hgo Hq]. destruct (params_cycle _ _ (qu_params _ _ Hq)) as [E1 E2]. split; rewrite ?E1, ?E2; try done.
  - by eapply goes_good.
  - intros i b' Hb'. rewrite E1. destruct (quiet_bank_at _ _ _ _ Hq Hb') as (b & Hb & _ & _ & Hl). by apply Hl, (F2 i).
  - by apply (qu_chan _ _ Hq).
Qed.

(** A loop of such steps, and what it went through. *)
Lemma loop_good {X} (l : list X) (f : X → dram_controller_c → res dram_controller_c) : ∀ c c',
  fit c → (∀ x c1 c2, x ∈ l → params c1 = params c → fit c1 → f x c1 = Ok c2 → good_step c1 c2) → foldM l c f = Ok c' →
  good_step c c' ∧ ∀ x, x ∈ l → ∃ c1 c2, good_step c c1 ∧ fit c1 ∧ f x c1 = Ok c2 ∧ good_step c1 c2 ∧ good_step c2 c'.
Proof.
  induction l as [|x l IH]; intros c c' Hf Hstep E; simpl in E.
  - injection E as <-. split; [apply good_step_refl, Hf|by intros x ?%not_elem_of_nil].
  - apply bind_Ok in E as (c1 & E1 & E). pose proof (Hstep x c c1 ltac:(left) eq_refl Hf E1) as H1. pose proof (fit_step _ _ Hf H1) as Hf1.
    destruct (IH c1 c' Hf1) as [Hall Hx]; [|exact E|].
    + intros y c2 c3 Hy Hp. apply Hstep; [by right|]. rewrite Hp. apply (qu_params _ _ (proj2 H1)).
    + split; [by eapply good_step_trans|]. intros y [->|Hy]%elem_of_cons.
      * exists c, c1. split_and!; try done. apply good_step_refl, Hf.
      * destruct (Hx y Hy) as (c2 & c3 & A1 & A2 & A3 & A4 & A5). exists c2, c3. split_and!; try done. by eapply good_step_trans.
Qed.

(** Either a bank is nearer, or all are as they were. *)
Lemma quiet_potential c c' :
  quiet c c' → potential (m_cycle c) (banks_ c') < potential (m_cycle c) (banks_ c) ∨
    (potential (m_cycle c) (banks_ c') = potential (m_cycle c) (banks_ c) ∧ Forall2 (λ b b', core b' = core b) (banks_ c) (banks_ c')).
Proof.
  intros Hq. pose proof (qu_banks _ _ Hq) as HF. unfold potential.
  induction HF as [|b b' l l' (Hc & _ & _) HF IH]; [by right|]. rewrite !fmap_cons. cbn [foldr]. destruct Hc as [Hc|Hlt].
  - assert (weight (m_cycle c) b' = weight (m_cycle c) b) as -> by (unfold weight; by rewrite Hc).
    destruct IH as [?|[? ?]]; [left; lia|right]. split; [lia|by constructor].
  - left. destruct IH as [?|[? ?]]; lia.
Qed.

Lemma schedule_cmd_step ch c c' :
  fit c → ch ∈ channel_indices c → schedule_cmd ch c = Ok c' →
  good_step c c' ∧ ∀ j b e, j ∈ bank_range ch c → banks_ c !! j = Some b → m_current_list b = Some e → en_state e = DRAM_CMD →
    potential (m_cycle c) (banks_ c') < potential (m_cycle c) (banks_ c).
Proof.
  intros Hf Hch E. pose proof (ft_good _ Hf) as Hg. destruct (schedule_cmd_goes c ch Hg Hch) as (c2 & E2 & Hgo).
  assert (c2 = c') as -> by congruence. clear E2. unfold schedule_cmd in E.
  destruct (oldest_bank_spec (λ _ e, bool_decide (en_state e = DRAM_CMD)) ch c (proj1 Hg) Hch) as (o & Eo & Ho). rewrite Eo in E.
  cbn [mbind res_bind] in E. destruct o as [j|].
  - destruct Ho as (b & e & Hj & Hc & Hst & _). apply bool_decide_eq_true in Hst. pose proof (ft_banks _ Hf j b Hj) as Hl.
    unfold bank_at, vec_at in E. rewrite Hj in E. cbn [mbind res_bind of_option] in E. rewrite Hc in E. cbn [mbind res_bind of_option] in E.
    rewrite bool_decide_true in E by done. cbn [assert_ mbind res_bind] in E.
    apply bind_Ok in E as (p & _ & E). apply bind_Ok in E as (c1 & E1 & E). pose proof (on_req_aside _ _ _ _ E1) as Ha.
    assert (dc_knobs c1 = k ∧ m_cycle c1 = m_cycle c) as [Ek Ecyc].
    { destruct Ha as (_ & _ & Hp & _). destruct (params_cycle _ _ Hp) as [-> ->]. split; [apply Hf|done]. }
    rewrite Ek, Ecyc in E. injection E as <-.
    assert (weight (m_cycle c) (next_command k (m_cycle c) e b) < weight (m_cycle c) b) as Hw.
    { apply next_command_weight; [pose proof (ft_cycle _ Hf); lia|done|done|]. apply (bl_entry _ _ Hl). unfold bank_entries. rewrite Hc. apply elem_of_app. right. left. }
    assert (quiet c (set_bank j (next_command k (m_cycle c) e b) c1)) as Hq.
    { unfold next_command in *. repeat case_bool_decide; apply quiet_current; try done; intros; rewrite ?Hst; try done; apply Hl. }
    split; [by split|]. intros _ _ _ _ _ _ _. destruct (quiet_potential _ _ Hq) as [?|[_ Hsame]]; [done|]. exfalso.
    simpl in Hsame. destruct Ha as (Eb & _). rewrite Eb in Hsame.
    pose proof (Forall2_lookup_lr _ _ _ j b (next_command k (m_cycle c) e b) Hsame Hj) as Hcore.
    rewrite list_lookup_insert_eq in Hcore by (by eapply lookup_lt_Some). specialize (Hcore eq_refl). simpl in Hcore.
    unfold weight in Hw. rewrite Hcore in Hw. lia.
  - injection E as <-. split; [by apply good_step_refl|]. intros j b e Hj Hb Hc Hst. exfalso.
    pose proof (Ho j b e Hj Hb Hc (bool_decide_eq_true_2 _ Hst)). pose proof (bl_stamp _ _ (ft_banks _ Hf j b Hb)). pose proof (ft_cycle _ Hf). unfold ULLONG_MAX in *. lia.
Qed.

(** The bus takes the data of a bank. *)
Lemma quiet_bus c ch x x' j b e :
  channels_ c !! ch = Some x → bus_ok (int (bus_width k)) x' → j ∈ bank_range ch c → banks_ c !! j = Some b → m_current_list b = Some e →
  en_state e = DRAM_DATA_WAIT → m_data_ready b = m_dbus_ready x' → quiet c (set_channels (<[ch := x']> (channels_ c)) c).
Proof.
  intros Hx Hok Hj Hb Hc Hst Hd. split; try done; [exact (qu_banks _ _ (quiet_refl c))|]. intros Hch i y Hy. simpl in Hy.
  destruct (decide (i = ch)) as [->|Hn].
  - rewrite list_lookup_insert_eq in Hy by (by eapply lookup_lt_Some). injection Hy as <-. split; [done|]. right. by exists j, b, e.
  - rewrite list_lookup_insert_ne in Hy by done. apply (Hch i y Hy).
Qed.

Lemma acquire_weight c ch x j b e t x' :
  fit c → channels_ c !! ch = Some x → banks_ c !! j = Some b → m_current_list b = Some e → en_state e = DRAM_DATA →
  m_data_avail b ≤ m_cycle c → acquire_data_bus (int (bus_width k)) (m_cycle c) (en_size e) x = Ok (t, x') →
  bus_ok (int (bus_width k)) x' ∧ t = m_dbus_ready x' ∧
  ∀ br ts, weight (m_cycle c) (with_current DRAM_DATA_WAIT (m_current_rid b) t ULLONG_MAX br ts e b) < weight (m_cycle c) b.
Proof.
  intros Hf Hx Hj Hc Hst Hav Ha. destruct (ft_chan _ Hf ch x Hx) as [Hok _]. pose proof (ft_cycle _ Hf). destruct Hshort as [_ Hs].
  destruct (bl_entry _ _ (ft_banks _ Hf j b Hj) e) as [_ He]; [unfold bank_entries; rewrite Hc; apply elem_of_app; right; left|].
  destruct (acquire_data_bus_spec _ (m_cycle c) (en_size e) x t x' Hok ltac:(lia) ltac:(lia) ltac:(lia) Ha) as (Hok' & Et & Hle & _). split; [done|]. split; [done|].
  intros br ts. unfold weight, core. rewrite Hc. simpl. rewrite Hst. unfold max_transfer.
  assert ((en_size e - 1) `div` int (bus_width k) ≤ (size - 1) `div` int (bus_width k)) by (apply Z.div_le_mono; lia).
  assert (0 ≤ (size - 1) `div` int (bus_width k)) by (apply Z.div_pos; lia). lia.
Qed.

Lemma schedule_data_quiet fuel : ∀ ch c c',
  fit c → ch ∈ channel_indices c → schedule_data fuel ch c = Ok c' → quiet c c'.
Proof.
  induction fuel as [|fuel IH]; intros ch c c' Hf Hch E; pose proof (ft_good _ Hf) as Hg;
    unfold schedule_data in E; fold schedule_data in E; apply bind_Ok in E as (x & Hx & E);
    (destruct (avail_data_bus x (m_cycle c)); [|injection E as <-; apply quiet_refl]);
    destruct (oldest_bank_spec (λ b e, bool_decide (en_state e = DRAM_DATA) && bool_decide (m_data_avail b ≤ m_cycle c)) ch c (proj1 Hg) Hch)
      as (o & Eo & Ho); rewrite Eo in E; cbn [mbind res_bind] in E; (destruct o as [j|]; [|injection E as <-; apply quiet_refl]).
  - injection E as <-. apply quiet_refl.
  - destruct Ho as (b & e & Hj & Hc & Ht & Hin & _). apply andb_prop in Ht as [Hst%bool_decide_eq_true Hav%bool_decide_eq_true].
    unfold vec_at in Hx. destruct (channels_ c !! ch) as [x0|] eqn:Ex; [|done]. injection Hx as ->.
    unfold bank_at, vec_at in E. rewrite Hj in E. cbn [mbind res_bind of_option] in E. rewrite Hc in E. cbn [mbind res_bind of_option] in E.
    assert (e ∈ bank_entries b) as Hin' by (unfold bank_entries; rewrite Hc; apply elem_of_app; right; left).
    destruct (entry_live c j b e Hg Hj Hin') as (p & Ep & _ & _ & Hl & _). rewrite Ep in E. cbn [mbind res_bind] in E.
    destruct (on_req_goes p (set_mr_state MEM_DRAM_DATA) c ltac:(done) Hg Hl) as (c1 & E1 & H1 & Eb & Ech). rewrite E1 in E. cbn [mbind res_bind] in E.
    rewrite bool_decide_true in E by done. cbn [assert_ mbind res_bind] in E. apply bind_Ok in E as (r & _ & E).
    pose proof (on_req_aside _ _ _ _ E1) as Ha. assert (dc_knobs c1 = k ∧ m_cycle c1 = m_cycle c) as [Ek Ecyc].
    { destruct (params_cycle _ _ (go_params _ _ H1)) as [-> ->]. split; [apply Hf|done]. }
    rewrite Ek, Ecyc in E. apply bind_Ok in E as ([t x'] & Eacq & E). cbn [fst snd] in E.
    destruct (acquire_weight c ch x j b e t x' Hf Ex Hj Hc Hst Hav Eacq) as (Hok & Et & Hw).
    set (b' := set_times _ _ _ _ _ _) in E. set (c2 := set_bank j b' c1) in E.
    assert (quiet c c2) as Hq2 by (apply (quiet_current c c1 j b e); try done; [by rewrite Hst|by intros []|exact (ft_banks _ Hf j b Hj)]).
    assert (goes c c2) as Hg2.
    { eapply goes_trans; [exact H1|]. apply current_goes; [by eapply goes_good|by rewrite Eb|done|by right]. }
    assert (fit c2) as Hf2 by (by eapply fit_step).
    assert (banks_ c2 !! j = Some b') as Hj2 by (unfold c2; simpl; rewrite Eb; apply list_lookup_insert_eq; by eapply lookup_lt_Some).
    assert (bank_range ch c2 = bank_range ch c) as Er by (unfold bank_range; by rewrite (ft_knobs _ Hf2), (ft_knobs _ Hf)).
    assert (quiet c2 (set_channels (<[ch := x']> (channels_ c2)) c2)) as Hq3.
    { apply (quiet_bus c2 ch x x' j b' (set_en_state DRAM_DATA_WAIT e)); try done; [unfold c2; simpl; by rewrite Ech|by rewrite Er]. }
    assert (goes c2 (set_channels (<[ch := x']> (channels_ c2)) c2)) as Hg3 by (apply set_channel_goes, (ft_good _ Hf2)).
    eapply quiet_trans; [exact Hq2|]. eapply quiet_trans; [exact Hq3|]. apply (IH ch); [by eapply fit_step| |exact E].
    by rewrite (channel_index_eq c _ (go_params _ _ (goes_trans _ _ _ Hg2 Hg3))).
Qed.

Lemma schedule_data_step ch c c' :
  fit c → ch ∈ channel_indices c → schedule_data (length (banks_ c)) ch c = Ok c' → good_step c c' ∧ data_done ch c'.
Proof.
  intros Hf Hch E. destruct (schedule_data_spec (length (banks_ c)) ch c (ft_good _ Hf) Hch) as (c2 & E2 & Hgo & Hd); [apply length_filter|].
  assert (c2 = c') as -> by congruence. split; [|done]. split; [done|]. by eapply schedule_data_quiet.
Qed.

(** ** Banks start on new requests *)
Section fresh.
Context `{Tk : TakesOne}.

Lemma new_bank_step i c c' :
  fit c → (i < length (banks_ c))%nat → new_bank i c = Ok c' →
  good_step c c' ∧ ∀ b, banks_ c !! i = Some b →
    (m_current_list b = None ∧ m_buffer b ≠ []) ∨ (∃ e, m_current_list b = Some e ∧ en_state e = DRAM_CMD_WAIT ∧ m_bank_ready b ≤ m_cycle c) →
    potential (m_cycle c) (banks_ c') < potential (m_cycle c) (banks_ c).
Proof.
  intros Hf Hlt E. pose proof (ft_good _ Hf) as Hg. destruct (new_bank_goes c i Hg Hlt) as (c2 & E2 & Hgo).
  assert (c2 = c') as -> by congruence. clear E2. destruct (bank_in c i (proj1 Hg) Hlt) as (b & Eb & Hi & Hb).
  pose proof (ft_banks _ Hf i b Hi) as Hl. pose proof max_transfer_pos as HT.
  assert (∀ b', quiet c (set_bank i b' c) → weight (m_cycle c) b' < weight (m_cycle c) b →
    potential (m_cycle c) (banks_ (set_bank i b' c)) < potential (m_cycle c) (banks_ c)) as Hdown.
  { intros b' Hq Hw. destruct (quiet_potential _ _ Hq) as [?|[_ Hsame]]; [done|]. exfalso.
    pose proof (Forall2_lookup_lr _ _ _ i b b' Hsame Hi) as Hcore. simpl in Hcore.
    rewrite list_lookup_insert_eq in Hcore by (by eapply lookup_lt_Some). specialize (Hcore eq_refl).
    unfold weight in Hw. rewrite Hcore in Hw. lia. }
  unfold new_bank in E. rewrite Eb in E. cbn [mbind res_bind] in E. destruct (m_current_list b) as [e|] eqn:Ec.
  - case_bool_decide as Hd.
    + destruct Hd as [Hr Hst]. injection E as <-.
      change (set_times _ _ _ _ _ _) with (with_current DRAM_CMD (m_current_rid b) (m_data_ready b) (m_data_avail b) ULLONG_MAX (m_cycle c) e b) in *.
      assert (weight (m_cycle c) (with_current DRAM_CMD (m_current_rid b) (m_data_ready b) (m_data_avail b) ULLONG_MAX (m_cycle c) e b) < weight (m_cycle c) b) as Hw.
      { unfold weight, core. rewrite Ec. simpl. rewrite Hst. lia. }
      assert (quiet c (set_bank i (with_current DRAM_CMD (m_current_rid b) (m_data_ready b) (m_data_avail b) ULLONG_MAX (m_cycle c) e b) c)) as Hq.
      { apply (quiet_current c c i b e); try done. by rewrite Hst. }
      split; [by split|]. intros b2 Hb2 _. by apply Hdown.
    + injection E as <-. split; [by apply good_step_refl|]. intros b2 Hb2 Hcase. assert (b2 = b) as -> by congruence.
      exfalso. destruct Hcase as [[? _]|(e' & Ee & ? & ?)]; [congruence|]. assert (e' = e) as -> by congruence. by apply Hd.
  - case_bool_decide as Hnil.
    + injection E as <-. split; [by apply good_step_refl|]. intros b2 Hb2 Hcase. assert (b2 = b) as -> by congruence.
      exfalso. destruct Hcase as [[_ ?]|(e' & Ee & _)]; [done|congruence].
    + destruct (takes_one (λ j, b ← bank_at (Z.to_nat j) c; Ok (m_current_rid b)) (entry_type c) (m_buffer b) Hnil) as (e & rest & Es & Hp).
      { intros e He. destruct (bo_entry _ _ _ Hb e) as [_ Hbid]; [apply elem_of_app; by left|]. rewrite Hbid, Nat2Z.id, Eb. by eexists. }
      { intros e He. destruct (entry_live c i b e Hg Hi) as (p & Hp & _ & _ & [r Hr] & _); [apply elem_of_app; by left|].
        unfold entry_type, req_at. rewrite Hp. simpl. rewrite Hr. by eexists. }
      rewrite Es in E. cbn [mbind res_bind fst snd] in E. injection E as <-. set (b' := set_times _ _ _ _ _ _) in *.
      assert (weight (m_cycle c) b' < weight (m_cycle c) b) as Hw.
      { unfold weight, core. rewrite Ec. simpl. unfold max_weight, commands_left. destruct Hlat. pose proof max_latency_spec. repeat case_bool_decide; lia. }
      assert (quiet c (set_bank i b' c)) as Hq.
      { apply (quiet_bank c c i b); try done; [by right| | |intros x Hx; congruence].
        - unfold bank_entries. simpl. rewrite Ec, !length_app, (Permutation_length Hp). simpl. lia.
        - intros [L1 L2 L3 L4]. split; [|by intros x [= <-]|simpl; lia|lia]. intros x Hx. unfold bank_entries in Hx. simpl in Hx.
          rewrite elem_of_app, list_elem_of_singleton in Hx. unfold bank_entries in L1. destruct Hx as [Hx| ->].
          + apply L1, elem_of_app. left. rewrite Hp. by right.
          + simpl. apply L1, elem_of_app. left. rewrite Hp. by left. }
      split; [by split|]. intros b2 Hb2 _. by apply Hdown.
Qed.
End fresh.

(** ** Answers *)
Lemma free_req_aside p c c' : free_req p c = Ok c' → aside c c'.
Proof. unfold free_req. intros (r & _ & [= <-])%bind_Ok. by split_and!. Qed.

Lemma aside_trans c1 c2 c3 : aside c1 c2 → aside c2 c3 → aside c1 c3.
Proof. intros (A1 & A2 & A3 & A4 & A5) (B1 & B2 & B3 & B4 & B5). split_and!; congruence. Qed.

Lemma finish_req_aside p c c' : finish_req p c = Ok c' → aside c c'.
Proof.
  unfold finish_req. intros (r & _ & E)%bind_Ok. case_bool_decide; [by eapply free_req_aside|]. apply bind_Ok in E as (c1 & E1 & E).
  eapply aside_trans; [|by eapply on_req_aside]. destruct (m_tmp_output_buffer c); [|injection E1 as <-; by split_and!].
  apply bind_Ok in E1 as (c2 & E2 & [= <-]). eapply aside_trans; [by eapply on_req_aside|by split_and!].
Qed.

(** The requests of the buffer that are answered with one. *)
Lemma merge_fold es : ∀ c c',
  foldM es c (λ x c, p ← entry_req x; c ← finish_req p c; Ok (set_counts (int (m_cycle c)) (m_starvation_cycle c) (m_total_req c) c)) = Ok c' →
  banks_ c' = banks_ c ∧ channels_ c' = channels_ c ∧ params c' = params c ∧ m_total_req c' = m_total_req c ∧
  (m_num_completed_in_last_cycle c' = m_num_completed_in_last_cycle c ∨ m_num_completed_in_last_cycle c' = int (m_cycle c)).
Proof.
  induction es as [|e es IH]; intros c c' E; simpl in E; [injection E as <-; split_and!; try done; by left|].
  apply bind_Ok in E as (c2 & E2 & E). apply bind_Ok in E2 as (p & _ & E2). apply bind_Ok in E2 as (c3 & E3 & [= <-]).
  destruct (finish_req_aside _ _ _ E3) as (A1 & A2 & A3 & A4 & A5). destruct (params_cycle _ _ A3) as [Ecyc _].
  destruct (IH _ _ E) as (B1 & B2 & B3 & B4 & B5). simpl in *. rewrite Ecyc in B5. split_and!; try congruence.
  - rewrite B3, <- A3. done.
  - right. by destruct B5.
Qed.

Record answered (i : nat) (b : Bank_t) (c c' : dram_controller_c) : Prop := {
  an_bank : ∃ b', banks_ c' = <[i := b']> (banks_ c) ∧ m_current_list b' = None ∧ (∀ x, x ∈ m_buffer b' → x ∈ m_buffer b) ∧
    m_bank_timestamp b' = m_bank_timestamp b ∧ (length (m_buffer b') ≤ length (m_buffer b))%nat ∧
    ∃ x, m_total_req c' = int (x - 1) ∧
      (x = m_total_req c ∧ m_buffer b' = m_buffer b ∨ x = int (m_total_req c - Z.of_nat (length (m_buffer b) - length (m_buffer b'))));
  an_same : channels_ c' = channels_ c ∧ params c' = params c;
  an_count : ∃ n, m_num_completed_in_last_cycle c' = int (n + 1) ∧ (n = m_num_completed_in_last_cycle c ∨ n = int (m_cycle c));
}.

Lemma complete_bank_form i c c' b :
  banks_ c !! i = Some b → complete_bank i c = Ok c' →
  (c' = c ∧ ∀ e, m_current_list b = Some e → m_cycle c < m_data_ready b) ∨
  (m_data_ready b ≤ m_cycle c ∧ (∃ e, m_current_list b = Some e) ∧ answered i b c c').
Proof.
  intros Hi E. unfold complete_bank, bank_at, vec_at in E. rewrite Hi in E. cbn [mbind res_bind of_option] in E.
  pose proof (lookup_lt_Some _ _ _ Hi) as Hlt.
  destruct (m_current_list b) as [e|] eqn:Ec; [|injection E as <-; by left].
  case_bool_decide as Hd; [right|injection E as <-; left; split; [done|]; intros; lia]. split; [done|]. split; [by eexists|].
  apply bind_Ok in E as (_ & _ & E). apply bind_Ok in E as (c1 & E1 & E). apply bind_Ok in E as (p & _ & E). apply bind_Ok in E as (c2 & E2 & E).
  destruct (finish_req_aside _ _ _ E2) as (A1 & A2 & A3 & A4 & A5).
  destruct (merge_requests (dc_knobs c)).
  - unfold merge_same, bank_at, vec_at in E1. rewrite Hi in E1. cbn [mbind res_bind of_option] in E1. apply bind_Ok in E1 as (c0 & E0 & [= <-]).
    destruct (merge_fold _ _ _ E0) as (B1 & B2 & B3 & B4 & B5). simpl in *. rewrite B1 in A1. rewrite A1 in E.
    rewrite list_lookup_insert_eq in E by done. cbn [mbind res_bind of_option] in E. injection E as <-. split; simpl.
    + eexists. split; [by rewrite A1, list_insert_insert_eq|]. simpl. split_and!; try done.
      * intros x Hx. by apply list_elem_of_filter in Hx as [_ ?].
      * apply length_filter.
      * exists (int (m_total_req c0 - Z.of_nat (length (filter (λ x, en_addr x = en_addr e) (m_buffer b))))). split; [by rewrite A5|right].
        rewrite B4. f_equal. f_equal. f_equal. pose proof (Permutation_length (filter_split (λ x, en_addr x = en_addr e) (m_buffer b))) as Hp.
        rewrite length_app in Hp. lia.
    + split; [congruence|]. exact (eq_trans A3 B3).
    + exists (m_num_completed_in_last_cycle c2). split; [done|]. by rewrite A4.
  - injection E1 as <-. rewrite A1, Hi in E. cbn [mbind res_bind of_option] in E. injection E as <-. split; simpl.
    + eexists. split; [by rewrite A1|]. simpl. split_and!; try done. exists (m_total_req c2). split; [done|]. left. by rewrite A5.
    + split; [done|]. exact A3.
    + exists (m_num_completed_in_last_cycle c2). split; [done|]. left. by rewrite A4.
Qed.

(** ** The requests are counted *)
Hypothesis Hbuffers : num_bank k * Z.of_nat (buffer_size k) < 2 ^ 31.

Lemma good_entries c : good c → dc_knobs c = k → 0 ≤ entries (banks_ c) < 2 ^ 31.
Proof.
  intros [Hs _] Ek. split; [apply entries_nonneg|]. eapply Z.le_lt_trans; [apply (entries_bound _ (buffer_size k))|].
  - intros b (i & Hi)%list_elem_of_lookup. pose proof (bo_entries _ _ _ (so_bank _ Hs i b Hi)) as E. rewrite Ek in E. lia.
  - pose proof (so_banks _ Hs) as E. pose proof (so_numbers _ Hs). rewrite Ek in *. rewrite E, Z2Nat.id by lia. done.
Qed.

Lemma entries_quiet c c' : quiet c c' → entries (banks_ c') = entries (banks_ c).
Proof.
  intros Hq. pose proof (qu_banks _ _ Hq) as HF. unfold entries. induction HF as [|b b' l l' (_ & Hl & _) HF IH]; [done|].
  rewrite !fmap_cons. cbn [foldr]. by rewrite Hl, IH.
Qed.

Lemma total_quiet c c' : quiet c c' → total_ok c → total_ok c'.
Proof. unfold total_ok. intros Hq Ht. rewrite (entries_quiet _ _ Hq). by rewrite (proj2 (qu_counts _ _ Hq)). Qed.

(** An answer frees a bank. *)
Lemma answered_fit i b e c c' :
  fit c → total_ok c → good c' → banks_ c !! i = Some b → m_current_list b = Some e → m_data_ready b ≤ m_cycle c → answered i b c c' →
  fit c' ∧ total_ok c'.
Proof.
  intros Hf Ht Hg' Hi Hc Hd [(b' & Eb & Hc' & Hsub & Hst & Hlen & x & Etot & Hx) [Ech Ep] _]. destruct (params_cycle _ _ Ep) as [Ecyc Ek].
  pose proof (lookup_lt_Some _ _ _ Hi) as Hlt. split; [split|].
  - done.
  - intros j bj Hj. rewrite Ecyc. rewrite Eb in Hj. destruct (decide (j = i)) as [->|Hn]; [|rewrite list_lookup_insert_ne in Hj by done; by apply (ft_banks _ Hf j)].
    rewrite list_lookup_insert_eq in Hj by done. injection Hj as <-. destruct (ft_banks _ Hf i b Hi) as [L1 _ L3 _]. split.
    + intros y. unfold bank_entries in *. rewrite Hc'. simpl. rewrite app_nil_r. intros Hy. apply L1, elem_of_app. left. by apply Hsub.
    + intros y Hy. congruence.
    + by rewrite Hst.
    + unfold weight, core. rewrite Hc'. simpl. lia.
  - intros ch y Hy. rewrite Ech in Hy. destruct (ft_chan _ Hf ch y Hy) as [Hok Hh]. split; [done|]. rewrite Ecyc.
    destruct (decide (m_dbus_ready y ≤ m_cycle c)) as [|Hbusy]; [by left|right]. destruct Hh as [?|(j & bj & ej & A1 & A2 & A3 & A4 & A5)]; [done|].
    exists j, bj, ej. unfold bank_range in *. rewrite Ek, Eb. split_and!; try done. rewrite list_lookup_insert_ne; [done|]. intros ->.
    assert (bj = b) as -> by congruence. lia.
  - rewrite Ek. apply Hf.
  - rewrite Ecyc. apply Hf.
  - unfold total_ok in *. rewrite Etot, Eb, (entries_insert _ i b b' Hi). unfold bank_entries. rewrite Hc, Hc', !length_app. simpl.
    pose proof (good_entries c (ft_good _ Hf) (ft_knobs _ Hf)) as Hb.
    assert (entries (<[i := b']> (banks_ c)) < 2 ^ 31 ∧ 0 ≤ entries (<[i := b']> (banks_ c))) as Hb'.
    { split; [|apply entries_nonneg]. rewrite <- Eb. apply (good_entries c' Hg'). rewrite Ek. apply Hf. }
    rewrite (entries_insert _ i b b' Hi) in Hb'. unfold bank_entries in Hb'. rewrite Hc, Hc', !length_app in Hb'. simpl in Hb'.
    destruct Hx as [[-> Hbuf]| ->].
    + rewrite Hbuf in *. rewrite int_small by lia. lia.
    + rewrite (int_small (m_total_req c - _)) by lia. rewrite int_small by lia. lia.
Qed.

(** The loop over the banks: when it answered nothing it did nothing. *)
Lemma complete_loop l : ∀ c c' m,
  fit c → total_ok c → (∀ i, i ∈ l → (i < length (banks_ c))%nat) → 0 ≤ m_num_completed_in_last_cycle c ≤ m → m_cycle c ≤ m →
  m + Z.of_nat (length l) < 2 ^ 31 → foldM l c complete_bank = Ok c' →
  fit c' ∧ total_ok c' ∧ 0 ≤ m_num_completed_in_last_cycle c' ∧ params c' = params c ∧
  (m_num_completed_in_last_cycle c' = 0 → c' = c ∧ ∀ i b e, i ∈ l → banks_ c !! i = Some b → m_current_list b = Some e → m_cycle c < m_data_ready b).
Proof.
  induction l as [|i l IH]; intros c c' m Hf Ht Hl Hn Hm Hlen E.
  - injection E as <-. split_and!; try done; [lia|]. intros _. split; [done|]. by intros ? ? ? ?%not_elem_of_nil.
  - cbn [foldM] in E. apply bind_Ok in E as (c1 & E1 & E). pose proof (Hl i ltac:(left)) as Hi. destruct (lookup_lt_is_Some_2 _ _ Hi) as [b Hb].
    destruct (complete_bank_goes c i (ft_good _ Hf) Hi) as (c2 & E2 & Hgo). assert (c2 = c1) as -> by congruence. clear E2.
    pose proof (goes_good _ _ (ft_good _ Hf) Hgo) as Hg1. cbn [length] in Hlen.
    destruct (complete_bank_form i c c1 b Hb E1) as [[-> Hnot]|(Hd & [e He] & Hans)].
    + destruct (IH c c' m Hf Ht) as (F1 & F2 & F3 & F4 & F5); try done; [intros j Hj; apply Hl; by right|lia|]. split_and!; try done.
      intros H0. destruct (F5 H0) as [-> Hall]. split; [done|]. intros j bj ej [->|Hj]%elem_of_cons Hbj Hej; [|by eapply Hall].
      assert (bj = b) as -> by congruence. by apply (Hnot ej).
    + destruct (answered_fit i b e c c1 Hf Ht Hg1 Hb He Hd Hans) as [Hf1 Ht1]. destruct Hans as [(b' & Eb & _) [_ Ep] (n & En & Hn')].
      destruct (params_cycle _ _ Ep) as [Ecyc _]. pose proof (ft_cycle _ Hf).
      assert (1 ≤ m_num_completed_in_last_cycle c1 ≤ m + 1) as Hn1.
      { rewrite En. destruct Hn' as [->| ->]; [rewrite int_small; lia|]. rewrite (int_small (m_cycle c)), int_small; lia. }
      destruct (IH c1 c' (m + 1) Hf1 Ht1) as (F1 & F2 & F3 & F4 & F5); try done; try lia.
      { intros j Hj. rewrite Eb, length_insert. apply Hl. by right. }
      split_and!; try done; [congruence|]. intros H0. destruct (F5 H0) as [-> _]. lia.
Qed.

(** ** Something always moves *)

(** The number of a channel of a bank. *)
Lemma bank_channel c i :
  good c → (num_channel (dc_knobs c) | num_bank (dc_knobs c)) → (i < length (banks_ c))%nat → ∃ ch, ch ∈ channel_indices c ∧ i ∈ bank_range ch c.
Proof.
  intros [Hs _] [q Hq] Hi. rewrite (so_banks _ Hs) in Hi. destruct (so_numbers _ Hs) as [Hb Hc]. unfold channel_indices, bank_range.
  rewrite Hq, Z.quot_mul by lia. assert (0 < q) by nia. exists (i / Z.to_nat q)%nat. rewrite !elem_of_seq.
  pose proof (Nat.div_mod_eq i (Z.to_nat q)). pose proof (Nat.mod_upper_bound i (Z.to_nat q) ltac:(lia)). split; [|nia]. split; [lia|].
  simpl. apply Nat.Div0.div_lt_upper_bound. rewrite <- Z2Nat.inj_mul by lia. lia.
Qed.

Lemma potential_tick t l : potential (t + 1) l ≤ potential t l.
Proof. unfold potential. induction l as [|b l IH]; [done|]. rewrite !fmap_cons. cbn [foldr]. pose proof (weight_tick t b). lia. Qed.

Lemma potential_tick_lt t l i b : l !! i = Some b → weight (t + 1) b < weight t b → potential (t + 1) l < potential t l.
Proof.
  unfold potential. revert i. induction l as [|x l IH]; intros [|i] Hi Hw; simplify_eq/=; rewrite ?fmap_cons; cbn [foldr].
  - pose proof (potential_tick t l) as H. unfold potential in H. cbn [fmap list_fmap] in *. lia.
  - pose proof (weight_tick t x). specialize (IH i Hi Hw). cbn [fmap list_fmap] in *. lia.
Qed.

Lemma quiet_le c c' : quiet c c' → potential (m_cycle c) (banks_ c') ≤ potential (m_cycle c) (banks_ c).
Proof. intros [?|[? _]]%quiet_potential; lia. Qed.

Definition same_cores (c c' : dram_controller_c) : Prop := Forall2 (λ b b', core b' = core b) (banks_ c) (banks_ c').

Lemma same_cores_lookup c c' i b : same_cores c c' → banks_ c !! i = Some b → ∃ b', banks_ c' !! i = Some b' ∧ core b' = core b.
Proof. intros HF Hi. destruct (Forall2_lookup_l _ _ _ _ _ HF Hi) as (b' & ? & ?). eauto. Qed.

(** In a stretch that brought nothing nearer, every part did not either. *)
Lemma still c c1 c2 c' :
  quiet c c1 → quiet c1 c2 → quiet c2 c' → ¬ potential (m_cycle c) (banks_ c') < potential (m_cycle c) (banks_ c) →
  same_cores c c1 ∧ same_cores c c2 ∧ same_cores c c' ∧ ¬ potential (m_cycle c1) (banks_ c2) < potential (m_cycle c1) (banks_ c1).
Proof.
  intros H1 H2 H3 Hn. destruct (params_cycle _ _ (qu_params _ _ H1)) as [E1 _]. destruct (params_cycle _ _ (qu_params _ _ H2)) as [E2 _].
  pose proof (quiet_le _ _ H1). pose proof (quiet_le _ _ H2) as L2. pose proof (quiet_le _ _ H3) as L3. rewrite E2, E1 in L3. rewrite E1 in *.
  destruct (quiet_potential c c1 H1) as [?|[_ S1]]; [lia|]. destruct (quiet_potential c c2 (quiet_trans _ _ _ H1 H2)) as [?|[_ S2]]; [lia|].
  destruct (quiet_potential c c' (quiet_trans _ _ _ H1 (quiet_trans _ _ _ H2 H3))) as [?|[_ S3]]; [done|]. split_and!; try done. lia.
Qed.

Section stuck.
Context `{Tk : TakesOne}.
Hypothesis Hdiv : (num_channel k | num_bank k).

Definition busy (b : Bank_t) : Prop := bank_entries b ≠ [].

Lemma fit_counts x z c : fit c → fit (set_counts x (m_starvation_cycle c) z c).
Proof. intros [F1 F2 F3 F4 F5]. split; try done. eapply goes_good; [exact F1|by apply counts_goes]. Qed.

Lemma cmd_loop c c1 :
  fit c → channel_schedule_cmd c = Ok c1 → good_step c c1 ∧
  ∀ ch, ch ∈ channel_indices c → ∃ ca cb, good_step c ca ∧ fit ca ∧ schedule_cmd ch ca = Ok cb ∧ good_step ca cb ∧ good_step cb c1.
Proof.
  intros Hf E. apply (loop_good (channel_indices c) schedule_cmd c c1 Hf); [|exact E].
  intros ch ca cb Hch Hp Hfa Ea. eapply schedule_cmd_step; [done|by rewrite (channel_index_eq _ _ Hp)|done].
Qed.

Lemma data_loop c c1 :
  fit c → channel_schedule_data c = Ok c1 → good_step c c1 ∧
  ∀ ch, ch ∈ channel_indices c → ∃ ca cb, good_step c ca ∧ fit ca ∧ schedule_data (length (banks_ ca)) ch ca = Ok cb ∧ good_step ca cb ∧ good_step cb c1.
Proof.
  intros Hf E. apply (loop_good (channel_indices c) (λ ch c, schedule_data (length (banks_ c)) ch c) c c1 Hf); [|exact E].
  intros ch ca cb Hch Hp Hfa Ea. eapply schedule_data_step; [done|by rewrite (channel_index_eq _ _ Hp)|done].
Qed.

Lemma new_loop c c1 :
  fit c → bank_schedule_new c = Ok c1 → good_step c c1 ∧
  ∀ i, i ∈ bank_indices c → ∃ ca cb, good_step c ca ∧ fit ca ∧ new_bank i ca = Ok cb ∧ good_step ca cb ∧ good_step cb c1.
Proof.
  intros Hf E. apply (loop_good (bank_indices c) new_bank c c1 Hf); [|exact E].
  intros i ca cb Hi Hp Hfa Ea. eapply new_bank_step; [done| |done].
  rewrite (params_banks c ca (proj1 (ft_good _ Hf)) (proj1 (ft_good _ Hfa)) Hp). by apply (bank_index c i (proj1 (ft_good _ Hf))).
Qed.

Lemma bank_range_eq ch c c' : dc_knobs c' = dc_knobs c → bank_range ch c' = bank_range ch c.
Proof. unfold bank_range. by intros ->. Qed.

(** A loop brings something nearer when one of its steps does, or would have. *)
Lemma through_moves c ca cb c' :
  quiet c ca → quiet ca cb → quiet cb c' → (same_cores c ca → potential (m_cycle ca) (banks_ cb) < potential (m_cycle ca) (banks_ ca)) →
  potential (m_cycle c) (banks_ c') < potential (m_cycle c) (banks_ c).
Proof.
  intros H1 H2 H3 Hm. destruct (decide (potential (m_cycle c) (banks_ c') < potential (m_cycle c) (banks_ c))) as [|Hn]; [done|exfalso].
  destruct (still c ca cb c' H1 H2 H3 Hn) as (Sa & _ & _ & Na). by apply Na, Hm.
Qed.

(** A bank with a command, *)
Lemma cmd_moves c c1 i b e :
  fit c → channel_schedule_cmd c = Ok c1 → banks_ c !! i = Some b → m_current_list b = Some e → en_state e = DRAM_CMD →
  potential (m_cycle c) (banks_ c1) < potential (m_cycle c) (banks_ c).
Proof.
  intros Hf E Hi Hc Hst. destruct (cmd_loop c c1 Hf E) as [_ Hloop].
  destruct (bank_channel c i (ft_good _ Hf)) as (ch & Hch & Hrange); [by rewrite (ft_knobs _ Hf)|by eapply lookup_lt_Some|].
  destruct (Hloop ch Hch) as (ca & cb & [_ Qa] & Hfa & Ea & [_ Qb] & [_ Qc]). apply (through_moves c ca cb c1 Qa Qb Qc). intros Sa.
  destruct (same_cores_lookup _ _ _ _ Sa Hi) as (ba & Hba & Eba). unfold core in Eba. rewrite Hc in Eba.
  destruct (m_current_list ba) as [ea|] eqn:Hca; [|done]. injection Eba as B1 _ _ _ _ _. destruct (params_cycle _ _ (qu_params _ _ Qa)) as [_ Ka].
  destruct (schedule_cmd_step ch ca cb Hfa) as [_ Hm]; [by rewrite (channel_index_eq _ _ (qu_params _ _ Qa))|done|].
  apply (Hm i ba ea); [by rewrite (bank_range_eq _ _ _ Ka)|done|done|congruence].
Qed.

(** one that waits for the request scheduler or for its last command, *)
Definition waiting (t : Z) (b : Bank_t) : Prop :=
  (m_current_list b = None ∧ m_buffer b ≠ []) ∨ (∃ e, m_current_list b = Some e ∧ en_state e = DRAM_CMD_WAIT ∧ m_bank_ready b ≤ t).

Lemma waiting_core t b b' : core b' = core b → waiting t b → waiting t b'.
Proof.
  unfold waiting, core. intros E [[Hc Hn]|(e & Hc & Hst & Hr)]; rewrite Hc in E; destruct (m_current_list b') as [e'|]; try done.
  - left. split; [done|]. intros Hn'. injection E as E. rewrite Hn', bool_decide_true in E by done. symmetry in E. by apply bool_decide_eq_true in E.
  - right. injection E as A1 A2 A3 A4 A5 A6. exists e'. split_and!; [done|congruence|lia].
Qed.

Lemma new_moves c c1 i b :
  fit c → bank_schedule_new c = Ok c1 → banks_ c !! i = Some b → waiting (m_cycle c) b →
  potential (m_cycle c) (banks_ c1) < potential (m_cycle c) (banks_ c).
Proof.
  intros Hf E Hi Hw. destruct (new_loop c c1 Hf E) as [_ Hloop]. pose proof (lookup_lt_Some _ _ _ Hi) as Hlt.
  destruct (Hloop i) as (ca & cb & [_ Qa] & Hfa & Ea & [_ Qb] & [_ Qc]).
  { apply elem_of_seq. rewrite (so_banks _ (proj1 (ft_good _ Hf))) in Hlt. lia. }
  apply (through_moves c ca cb c1 Qa Qb Qc). intros Sa. destruct (same_cores_lookup _ _ _ _ Sa Hi) as (ba & Hba & Eba).
  destruct (params_cycle _ _ (qu_params _ _ Qa)) as [Ca _]. destruct (new_bank_step i ca cb Hfa) as [_ Hm]; [by eapply lookup_lt_Some|done|].
  apply (Hm ba Hba). rewrite Ca. by apply (waiting_core _ b).
Qed.

(** one with data: if the bus is busy another bank sends. *)
Lemma data_moves c c1 i b e :
  fit c → channel_schedule_data c = Ok c1 → banks_ c !! i = Some b → m_current_list b = Some e → en_state e = DRAM_DATA → m_data_avail b ≤ m_cycle c →
  potential (m_cycle c) (banks_ c1) < potential (m_cycle c) (banks_ c) ∨
  ∃ j bj, banks_ c1 !! j = Some bj ∧ weight (m_cycle c + 1) bj < weight (m_cycle c) bj.
Proof.
  intros Hf E Hi Hc Hst Hav. destruct (decide (potential (m_cycle c) (banks_ c1) < potential (m_cycle c) (banks_ c))) as [|Hn]; [by left|right].
  destruct (data_loop c c1 Hf E) as [_ Hloop].
  destruct (bank_channel c i (ft_good _ Hf)) as (ch & Hch & Hrange); [by rewrite (ft_knobs _ Hf)|by eapply lookup_lt_Some|].
  destruct (Hloop ch Hch) as (ca & cb & Ga & Hfa & Ea & Gb & [_ Qc]). destruct (still c ca cb c1 (proj2 Ga) (proj2 Gb) Qc Hn) as (_ & Sb & _ & _).
  pose proof (good_step_trans _ _ _ Ga Gb) as Gab. pose proof (fit_step _ _ Hf Gab) as Hfb. destruct (params_cycle _ _ (qu_params _ _ (proj2 Gab))) as [Cb Kb].
  destruct (schedule_data_step ch ca cb Hfa) as [_ Hdone]; [by rewrite (channel_index_eq _ _ (qu_params _ _ (proj2 Ga)))|done|].
  destruct Hdone as [(x & Hx & Hbus)|Hnone].
  - unfold avail_data_bus in Hbus. apply bool_decide_eq_false in Hbus. destruct (ft_chan _ Hfb ch x Hx) as [_ [?|(j & bj & ej & D1 & D2 & D3 & D4 & D5)]]; [lia|].
    destruct (quiet_potential cb c1 Qc) as [Hlt|[_ Sc]]; [exfalso; rewrite Cb in Hlt; pose proof (quiet_le _ _ (proj2 Gab)); lia|].
    destruct (same_cores_lookup _ _ _ _ Sc D2) as (b1 & Hb1 & Eb1). exists j, b1. split; [done|].
    unfold weight. rewrite Eb1. unfold core. rewrite D3. simpl. rewrite D4, D5. rewrite Cb in Hbus. lia.
  - exfalso. destruct (same_cores_lookup _ _ _ _ Sb Hi) as (bb & Hbb & Ebb). unfold core in Ebb. rewrite Hc in Ebb.
    destruct (m_current_list bb) as [eb|] eqn:Hcb; [|done]. injection Ebb as B1 B2 B3 B4 B5 B6.
    assert (ch ∈ channel_indices cb) as Hchb by (by rewrite (channel_index_eq _ _ (qu_params _ _ (proj2 Gab)))).
    destruct (oldest_bank_spec (λ b e, bool_decide (en_state e = DRAM_DATA) && bool_decide (m_data_avail b ≤ m_cycle cb)) ch cb (proj1 (ft_good _ Hfb)) Hchb) as (o & Eo & Ho).
    rewrite Hnone in Eo. injection Eo as <-. specialize (Ho i bb eb). assert (ULLONG_MAX ≤ m_bank_timestamp bb) as Hmax.
    { apply Ho; try done; [by rewrite (bank_range_eq _ _ _ Kb)|]. rewrite !bool_decide_true; [done|lia|congruence]. }
    pose proof (bl_stamp _ _ (ft_banks _ Hfb i bb Hbb)). pose proof (ft_cycle _ Hfb). unfold ULLONG_MAX in *. lia.
Qed.

(** The part of a cycle between the packets, when it answers nothing: something is
    nearer at the end of the cycle if a bank is busy. *)
Lemma middle_moves c c1 c2 c4 i b :
  fit c → channel_schedule_cmd c = Ok c1 → channel_schedule_data c1 = Ok c2 →
  (∀ i b e, banks_ c2 !! i = Some b → m_current_list b = Some e → m_cycle c2 < m_data_ready b) →
  bank_schedule_new (set_counts 0 (m_starvation_cycle c2) (m_total_req c2) c2) = Ok c4 → banks_ c !! i = Some b → busy b →
  potential (m_cycle c + 1) (banks_ c4) < potential (m_cycle c) (banks_ c).
Proof.
  intros Hf E1 E2 Hdue E4 Hi Hbusy. destruct (cmd_loop c c1 Hf E1) as [G1 _]. pose proof (fit_step _ _ Hf G1) as Hf1.
  destruct (data_loop c1 c2 Hf1 E2) as [G2 _]. pose proof (fit_step _ _ Hf1 G2) as Hf2. pose proof (fit_counts 0 (m_total_req c2) c2 Hf2) as Hf3.
  set (c3 := set_counts 0 _ _ c2) in *. destruct (new_loop c3 c4 Hf3 E4) as [G4 _].
  destruct (params_cycle _ _ (qu_params _ _ (proj2 G1))) as [C1 _]. destruct (params_cycle _ _ (qu_params _ _ (proj2 G2))) as [C2 _].
  assert (m_cycle c3 = m_cycle c) as C3 by (unfold c3; simpl; congruence). rewrite C2, C1 in Hdue.
  pose proof (quiet_le _ _ (proj2 G1)) as P1. pose proof (quiet_le _ _ (proj2 G2)) as P2. pose proof (quiet_le _ _ (proj2 G4)) as P4. rewrite C1 in P2. rewrite C3 in P4.
  change (banks_ c3) with (banks_ c2) in P4. pose proof (potential_tick (m_cycle c) (banks_ c4)) as Ptick.
  destruct (quiet_potential _ _ (proj2 G1)) as [|[_ S1]]; [lia|]. destruct (quiet_potential _ _ (proj2 G2)) as [L2|[_ S2]]; [rewrite C1 in L2; lia|].
  destruct (quiet_potential _ _ (proj2 G4)) as [L4|[_ S4]]; [rewrite C3 in L4; change (banks_ c3) with (banks_ c2) in L4; lia|].
  change (banks_ c3) with (banks_ c2) in S4.
  assert (∀ j x, banks_ c2 !! j = Some x → weight (m_cycle c + 1) x < weight (m_cycle c) x →
    potential (m_cycle c + 1) (banks_ c4) < potential (m_cycle c) (banks_ c)) as Htick.
  { intros j x Hx Hw. destruct (same_cores_lookup c2 c4 _ _ S4 Hx) as (y & Hy & Ey).
    pose proof (potential_tick_lt (m_cycle c) (banks_ c4) j y Hy) as Hp. unfold weight in Hp, Hw. rewrite Ey in Hp. specialize (Hp Hw). lia. }
  destruct (same_cores_lookup c c1 _ _ S1 Hi) as (b1 & Hb1 & Eb1). destruct (same_cores_lookup c1 c2 _ _ S2 Hb1) as (b2 & Hb2 & Eb2).
  destruct (decide (potential (m_cycle c3) (banks_ c4) < potential (m_cycle c3) (banks_ c3))) as [L4|N4]; [rewrite C3 in L4; change (banks_ c3) with (banks_ c2) in L4; lia|].
  assert (¬ waiting (m_cycle c) b) as Hnw.
  { intros Hw. apply N4, (new_moves c3 c4 i b2); try done. rewrite C3. apply (waiting_core _ b); [congruence|done]. }
  assert (core b2 = core b) as Ecore by congruence. unfold core in Ecore.
  destruct (m_current_list b) as [e|] eqn:Hc.
  2: { exfalso. apply Hnw. left. split; [done|]. intros Hn. apply Hbusy. unfold bank_entries. by rewrite Hc, Hn. }
  destruct (m_current_list b2) as [e2|] eqn:Hc2; [|done]. injection Ecore as A1 A2 A3 A4 A5 A6. destruct (en_state e) eqn:Hst.
  - exfalso. by destruct (bl_state _ _ (ft_banks _ Hf i b Hi) e Hc).
  - pose proof (cmd_moves c c1 i b e Hf E1 Hi Hc Hst). lia.
  - destruct (decide (m_bank_ready b ≤ m_cycle c)) as [Hr|Hr]; [exfalso; apply Hnw; right; by exists e|].
    apply (Htick i b2); [done|]. unfold weight, core. rewrite Hc2. simpl. rewrite A1, A6. lia.
  - destruct (decide (m_data_avail b ≤ m_cycle c)) as [Hav|Hav].
    + unfold core in Eb1. rewrite Hc in Eb1. destruct (m_current_list b1) as [e1|] eqn:Hc1; [|done]. injection Eb1 as B1 B2 B3 B4 B5 B6.
      destruct (data_moves c1 c2 i b1 e1 Hf1 E2 Hb1 Hc1) as [L|(j & bj & Hj & Hw)]; [congruence|lia|rewrite C1 in L; lia|].
      rewrite C1 in Hw. by apply (Htick j bj).
    + apply (Htick i b2); [done|]. unfold weight, core. rewrite Hc2. simpl. rewrite A1, A5. lia.
  - apply (Htick i b2); [done|]. pose proof (Hdue i b2 e2 Hb2 Hc2). unfold weight, core. rewrite Hc2. simpl. rewrite A1. lia.
Qed.
End stuck.

(** ** Requests arrive *)
Record filled (c c' : dram_controller_c) : Prop := {
  fl_banks : Forall2 (λ b b', m_current_list b' = m_current_list b ∧ m_current_rid b' = m_current_rid b ∧ m_data_ready b' = m_data_ready b ∧
    m_data_avail b' = m_data_avail b ∧ m_bank_ready b' = m_bank_ready b ∧ m_bank_timestamp b' = m_bank_timestamp b ∧
    ∀ e, e ∈ m_buffer b' → e ∈ m_buffer b ∨ (0 ≤ en_rid e ∧ 0 < en_size e ≤ size)) (banks_ c) (banks_ c');
  fl_same : channels_ c' = channels_ c ∧ params c' = params c ∧ m_num_completed_in_last_cycle c' = m_num_completed_in_last_cycle c;
  fl_total : entries (banks_ c') < 2 ^ 31 → total_ok c → total_ok c';
}.

Lemma filled_aside c c' : aside c c' → filled c c'.
Proof.
  intros (E1 & E2 & E3 & E4 & E5). split; [|done|unfold total_ok; intros _; congruence]. rewrite E1. apply Forall2_same_length_lookup.
  split; [done|]. intros i x y Hx Hy. simplify_eq. split_and!; try done. by left.
Qed.

(** One bank has another buffer: [d] entries more. *)
Lemma filled_bank c c1 c' i b buffer free :
  aside c c1 → banks_ c !! i = Some b → (∀ e, e ∈ buffer → e ∈ m_buffer b ∨ (0 ≤ en_rid e ∧ 0 < en_size e ≤ size)) →
  banks_ c' = <[i := set_lists buffer free (m_current_list b) b]> (banks_ c1) → channels_ c' = channels_ c1 → params c' = params c1 →
  m_num_completed_in_last_cycle c' = m_num_completed_in_last_cycle c1 →
  m_total_req c' = int (m_total_req c1 + Z.of_nat (length buffer) - Z.of_nat (length (m_buffer b))) → filled c c'.
Proof.
  intros (A1 & A2 & A3 & A4 & A5) Hi Hnew E1 E2 E3 E4 E5. split; [|split_and!; congruence|].
  - rewrite E1, A1. apply Forall2_same_length_lookup. split; [by rewrite length_insert|]. intros j x y Hx Hy. destruct (decide (j = i)) as [->|Hn].
    + rewrite list_lookup_insert_eq in Hy by (by eapply lookup_lt_Some). simplify_eq. by split_and!.
    + rewrite list_lookup_insert_ne in Hy by done. simplify_eq. split_and!; try done. by left.
  - intros Hb Ht. unfold total_ok in *. pose proof (entries_nonneg (banks_ c')) as H0. rewrite E1, A1, (entries_insert _ i b _ Hi) in Hb, H0.
    rewrite E5, A5, Ht, E1, A1, (entries_insert _ i b _ Hi). unfold bank_entries in *. simpl in *. rewrite !length_app in *.
    rewrite int_small by lia. lia.
Qed.

Lemma splitM_perm {A} (test : A → res bool) l y n : splitM test l = Ok (y, n) → l ≡ₚ y ++ n.
Proof.
  revert y n. induction l as [|x l IH]; intros y n E; [by injection E as <- <-|]. simpl in E. apply bind_Ok in E as (b & _ & E).
  apply bind_Ok in E as ([y' n'] & E' & E). destruct b; injection E as <- <-; simpl; rewrite (IH _ _ E'); [done|]. apply Permutation_middle.
Qed.

Lemma free_fold es : ∀ c c', foldM es c (λ e c, p ← entry_req e; free_req p c) = Ok c' → aside c c'.
Proof.
  induction es as [|e es IH]; intros c c' E; simpl in E; [injection E as <-; by split_and!|]. apply bind_Ok in E as (c1 & E1 & E).
  apply bind_Ok in E1 as (p & _ & E1). eapply aside_trans; [by eapply free_req_aside|by apply IH].
Qed.

Lemma flush_filled i c c' : flush_prefetch i c = Ok c' → filled c c'.
Proof.
  unfold flush_prefetch, bank_at, vec_at. destruct (banks_ c !! i) as [b|] eqn:Hi; [|done]. cbn [mbind res_bind of_option].
  intros ([y n] & Es & E)%bind_Ok. apply bind_Ok in E as (c1 & E1 & [= <-]). cbn [fst snd] in *. pose proof (splitM_perm _ _ _ _ Es) as Hp.
  apply (filled_bank c c1 _ i b n (m_buffer_free_list b ++ y)); try done; [by eapply free_fold| |].
  - intros e He. left. rewrite Hp. apply elem_of_app. by right.
  - simpl. f_equal. rewrite (Permutation_length Hp), length_app. lia.
Qed.

Lemma filled_trans c1 c2 c3 : entries (banks_ c2) < 2 ^ 31 → filled c1 c2 → filled c2 c3 → filled c1 c3.
Proof.
  intros Hg2 [B1 (C1 & P1 & N1) T1] [B2 (C2 & P2 & N2) T2]. split; [|split_and!; congruence|].
  - eapply Forall2_trans; [|exact B1|exact B2]. intros x y z (A1 & A2 & A3 & A4 & A5 & A6 & A7) (D1 & D2 & D3 & D4 & D5 & D6 & D7).
    split_and!; try congruence. intros e He. destruct (D7 e He); [by apply A7|by right].
  - intros Hb Ht. apply T2; [done|]. by apply T1.
Qed.

Lemma insert_req_filled p i rid cid c c' r :
  dc_heap c !! p = Some r → 0 < mr_size r ≤ size → 0 ≤ rid → insert_req_in_drb p i rid cid c = Ok c' →
  ∃ c1, c1 = set_counts (m_num_completed_in_last_cycle c') (m_starvation_cycle c') (int (m_total_req c' + 1)) c' ∧ filled c c1.
Proof.
  intros Hr Hs Hrid E. eexists. split; [done|]. unfold insert_req_in_drb, bank_at, vec_at, req_at in E.
  destruct (banks_ c !! i) as [b|] eqn:Hi; [|done]. cbn [mbind res_bind of_option] in E. apply bind_Ok in E as (e0 & _ & E). rewrite Hr in E.
  cbn [mbind res_bind of_option] in E. apply bind_Ok in E as (e & Ee & [= <-]). unfold entry_set in Ee. apply bind_Ok in Ee as (prio & _ & Ee).
  apply bind_Ok in Ee as (_ & _ & [= <-]). assert (aside c c) as Ha by (by split_and!).
  match goal with |- context [m_buffer b ++ [?x]] => apply (filled_bank c c _ i b (m_buffer b ++ [x]) (tail (m_buffer_free_list b)) Ha Hi) end; try done.
  - intros e [He| ->%list_elem_of_singleton]%elem_of_app; [by left|right]. simpl. rewrite int_small by lia. lia.
  - simpl. f_equal. rewrite length_app. simpl. lia.
Qed.

Lemma parse_address_row mp addr bid rid cid : parse_address k mp addr = Ok (bid, rid, cid) → 0 ≤ rid.
Proof.
  unfold parse_address. intros (x & _ & E)%bind_Ok. apply bind_Ok in E as (a1 & _ & E). apply bind_Ok in E as (a2 & _ & E). apply bind_Ok in E as (a3 & _ & E).
  apply bind_Ok in E as (u & Ha & E). injection E as _ <- _. unfold assert_ in Ha. case_bool_decide; [done|by destruct u].
Qed.

Lemma insert_filled p c r ok c' :
  good c → dc_knobs c = k → p ∉ dc_held c → dc_heap c !! p = Some r → 0 < mr_size r ≤ size → insert_new_req p c = Ok (ok, c') → filled c c'.
Proof.
  intros Hg Ek Hp Hr Hs E. unfold insert_new_req, req_at in E. rewrite Hr in E. cbn [mbind res_bind of_option] in E. rewrite Ek in E.
  apply bind_Ok in E as ([[bid rid] cid] & Ea & E). pose proof (parse_address_row _ _ _ _ _ Ea) as Hrid. apply bind_Ok in E as (b & Eb & E).
  apply bind_Ok in E as (c1 & E1 & E). apply bind_Ok in E as (b1 & _ & E). set (i := Z.to_nat bid) in *.
  assert (goes c c1 ∧ filled c c1) as [Hgo Hfl].
  { destruct (bool_decide (m_buffer_free_list b = [])); [|injection E1 as <-; split; [by apply goes_refl|apply filled_aside; by split_and!]].
    unfold bank_at, vec_at in Eb. destruct (banks_ c !! i) as [b'|] eqn:Hi; [|done].
    destruct (flush_prefetch_goes c i b' Hg Hi) as (c2 & b2 & E2 & Hgo & _). assert (c2 = c1) as -> by congruence. split; [done|]. by eapply flush_filled. }
  destruct (bool_decide (m_buffer_free_list b1 = [])); [by injection E as <- <-|]. apply bind_Ok in E as (c2 & E2 & E). apply bind_Ok in E as (c3 & E3 & E). injection E as <- <-.
  destruct (goes_kept_outside c c1 p Hgo Hp r Hr) as (r1 & Hr1 & Est). assert (0 < mr_size r1 ≤ size) as Hs1 by (injection Est as _ _ -> _ _ _; done).
  destruct (insert_req_filled p i rid cid c1 c2 r1 Hr1 Hs1 Hrid E2) as (c4 & -> & Hf2).
  assert (entries (banks_ c1) < 2 ^ 31) as Hb1.
  { apply good_entries; [by eapply goes_good|]. destruct (params_cycle _ _ (go_params _ _ Hgo)) as [_ ->]. done. }
  eapply filled_trans; [exact Hb1|exact Hfl|]. pose proof (on_req_aside _ _ _ _ E3) as (A1 & A2 & A3 & A4 & A5).
  destruct Hf2 as [B1 (B2 & B3 & B4) B5]. split; [by rewrite A1|split_and!; congruence|]. intros Hb Ht. unfold total_ok. rewrite A5, A1. apply B5; [by rewrite <- A1|done].
Qed.
End weight.
