(* ===== verification/MacDramProgress.v ===== *)
(** * The simulation with MacSim's memory controller is never ended

    The weights of MacDramLive.v through whole cycles and runs (MacDramRun.v). *)
From S2P Require Import Prelude Types MacDram MacDramLaws MacDramBus MacDramRun MacDramLive.
#[local] Open Scope Z_scope.

Section progress.
Context {N : Type} `{NL : NetworkLaws N} `{Tk : TakesOne}.
Variables (k : Knobs) (size : Z).

(** Knobs with which no request starves: all banks together are soon enough done. *)
Record knobs_live : Prop := {
  kl_knobs : knobs_ok k;
  kl_size : 0 < size < 2 ^ 31;
  kl_width : 0 < int (bus_width k);
  kl_latency : 0 ≤ activate_latency k ∧ 0 ≤ precharge_latency k ∧ 0 ≤ column_latency k;
  kl_channels : (num_channel k | num_bank k);
  kl_buffers : num_bank k * Z.of_nat (buffer_size k) < 2 ^ 31;
  kl_bound : num_bank k * max_weight k size + 1 < 5000;
}.
Hypothesis HL : knobs_live.

#[local] Abbreviation weight := (weight k size).
#[local] Abbreviation potential := (potential k size).
#[local] Abbreviation max_weight := (max_weight k size).
#[local] Abbreviation fit := (fit k size).
#[local] Abbreviation quiet := (quiet k size).
#[local] Abbreviation good_step := (good_step k size).

Lemma live_short : max_latency k < 2 ^ 31 ∧ size < 2 ^ 31.
Proof.
  split; [|apply (kl_size HL)]. pose proof (kl_bound HL) as Hb. pose proof (ko_bank _ (kl_knobs HL)). unfold MacDramLive.max_weight in Hb.
  pose proof (max_transfer_pos k size (proj1 (kl_size HL)) (kl_width HL)). pose proof (max_latency_spec k) as (? & _ & _). destruct (kl_latency HL). nia.
Qed.

Lemma aside_good_step c c' : goes c c' → aside c c' → good_step c c'.
Proof.
  intros Hgo (E1 & E2 & E3 & E4 & E5). destruct (params_cycle _ _ E3) as [Ec Ek]. split; [done|]. split; [done|done| |].
  - rewrite E1. apply (qu_banks _ _ _ _ (quiet_refl k size c)).
  - intros Hch ch x Hx. rewrite E2 in Hx. destruct (Hch ch x Hx) as [Hok Hd]. split; [done|]. rewrite Ec.
    destruct Hd as [?|(j & b & e & A1 & A2)]; [by left|right]. exists j, b, e. unfold bank_range in *. by rewrite Ek, E1.
Qed.

(** *** Packets *)
Lemma send_loop_aside allowed l : ∀ st st' : Sending (N := N), send_loop allowed l st = Ok st' → aside (sg_dc st) (sg_dc st').
Proof.
  induction l as [|p l IH]; intros st st' E; cbn [send_loop] in E; [injection E as <-; by split_and!|]. apply bind_Ok in E as (r & _ & E).
  destruct (of_type _ _); [|by apply IH]. apply bind_Ok in E as (c1 & E1 & E). apply bind_Ok in E as (_ & _ & E).
  pose proof (on_req_aside _ _ _ _ E1) as Ha. destruct (net_send p (sg_net st)).1; [|injection E as <-; exact Ha].
  eapply aside_trans; [exact Ha|]. apply (IH _ _ E).
Qed.

Lemma send_packet_aside c n c' n' : send_packet (c, n) = Ok (c', n') → aside c c'.
Proof.
  unfold send_packet. intros (st & E & [= <- _])%bind_Ok. cbn [fst snd] in E.
  eapply (aside_trans _ (sg_dc st)); [|by split_and!].
  assert (∀ l (st1 st2 : Sending (N := N)), foldM l st1 send_turn = Ok st2 → aside (sg_dc st1) (sg_dc st2)) as Hloop.
  { induction l as [|i l IH]; intros st1 st2 E'; cbn [foldM] in E'; [injection E' as <-; by split_and!|]. apply bind_Ok in E' as (st3 & E3 & E').
    eapply aside_trans; [|by apply IH]. unfold send_turn in E3. destruct (_ && _); [injection E3 as <-; by split_and!|]. by eapply send_loop_aside. }
  apply (Hloop _ _ _ E).
Qed.

Lemma delay_packet_aside c c' : delay_packet c = Ok c' → aside c c'.
Proof.
  unfold delay_packet. destruct (m_tmp_output_buffer c); [|intros [= <-]; by split_and!]. intros (ps & _ & [= <-])%bind_Ok. by split_and!.
Qed.

(** *** A cycle *)
Lemma filled_fit c c' : fit c → filled size c c' → good c' → fit c'.
Proof.
  intros [F1 F2 F3 F4 F5] [B1 (B2 & B3 & B4) _] Hg. destruct (params_cycle _ _ B3) as [Ec Ek]. split; rewrite ?Ec, ?Ek; try done.
  - intros i b' Hb'. rewrite Ec. destruct (Forall2_lookup_r _ _ _ _ _ B1 Hb') as (b & Hb & A1 & A2 & A3 & A4 & A5 & A6 & A7).
    destruct (F2 i b Hb) as [L1 L2 L3 L4]. split; [|by rewrite A1|by rewrite A6|].
    + intros e [He|He]%elem_of_app; [destruct (A7 e He) as [He'|?]; [apply L1, elem_of_app; by left|done]|].
      rewrite A1 in He. apply L1, elem_of_app. by right.
    + unfold MacDramLive.weight, core in *. rewrite A1, A2, A3, A4, A5. by destruct (m_current_list b).
  - intros ch x Hx. rewrite B2 in Hx. destruct (F3 ch x Hx) as [Hok Hd]. split; [done|]. rewrite Ec.
    destruct Hd as [?|(j & b & e & D1 & D2 & D3 & D4 & D5)]; [by left|right].
    destruct (Forall2_lookup_l _ _ _ _ _ B1 D2) as (b' & Hb' & A1 & _ & A3 & _). exists j, b', e. unfold bank_range in *. rewrite Ek.
    split_and!; try done; congruence.
Qed.

Lemma filled_potential t c c' : filled size c c' → potential t (banks_ c') = potential t (banks_ c).
Proof.
  intros [B1 _ _]. unfold MacDramLive.potential. induction B1 as [|b b' l l' (A1 & A2 & A3 & A4 & A5 & _ & _) _ IH]; [done|].
  rewrite !fmap_cons. cbn [foldr]. rewrite IH. f_equal. unfold MacDramLive.weight, core. rewrite A1, A2, A3, A4, A5. by destruct (m_current_list b).
Qed.

Lemma tick_fit x c :
  fit c → m_cycle c + 1 < 2 ^ 31 →
  fit (set_cycle (u64 (m_cycle c + 1)) (set_counts (m_num_completed_in_last_cycle c) x (m_total_req c) c)).
Proof.
  intros [[[A1 A2 A3 A4 A5 A6] A7] F2 F3 F4 F5] Hc. rewrite u64_small by lia. split; simpl; try done; [| | |lia].
  - split; [split; try done; simpl; unfold ULLONG_MAX; lia|by destruct A7].
  - intros i b Hb. simpl. destruct (F2 i b Hb) as [L1 L2 L3 L4]. split; try done; [lia|]. pose proof (weight_tick k size (m_cycle c) b). lia.
  - intros ch y Hy. destruct (F3 ch y Hy) as [Hok [Hd|Hd]]; (split; [done|]); [left; simpl; lia|by right].
Qed.

Lemma potential_bounds c : fit c → 0 ≤ potential (m_cycle c) (banks_ c) ≤ num_bank k * max_weight.
Proof.
  intros Hf. destruct live_short as [_ Hs]. pose proof (max_transfer_pos k size (proj1 (kl_size HL)) (kl_width HL)) as HT.
  destruct (kl_latency HL) as (L1 & L2 & L3). pose proof (max_latency_spec k) as (M1 & _ & _).
  assert (∀ l, (∀ b, b ∈ l → weight (m_cycle c) b ≤ max_weight) → 0 ≤ potential (m_cycle c) l ≤ Z.of_nat (length l) * max_weight) as Hl.
  { unfold MacDramLive.potential. induction l as [|b l IH]; intros Hb; [simpl; lia|]. rewrite fmap_cons. cbn [foldr length].
    specialize (IH ltac:(intros; apply Hb; by right)). pose proof (Hb b ltac:(left)) as Hw.
    assert (0 ≤ weight (m_cycle c) b); [|nia]. unfold MacDramLive.weight, core_weight, MacDramLive.max_weight, commands_left.
    destruct (core b) as [?|[[[[[[] ?] ?] ?] ?] ?]]; repeat case_bool_decide; lia. }
  destruct (Hl (banks_ c)) as [H1 H2].
  - intros b (i & Hi)%list_elem_of_lookup. apply (bl_weight _ _ _ _ (ft_banks _ _ _ Hf i b Hi)).
  - split; [done|]. pose proof (so_banks _ (proj1 (ft_good _ _ _ Hf))) as E. rewrite (ft_knobs _ _ _ Hf) in E.
    pose proof (ko_bank _ (kl_knobs HL)). rewrite E, Z2Nat.id in H2 by lia. done.
Qed.

Lemma entries_busy l : 0 < entries l → ∃ i b, l !! i = Some b ∧ busy b.
Proof.
  unfold entries. induction l as [|b l IH]; [simpl; lia|]. rewrite fmap_cons. cbn [foldr]. intros Hpos.
  destruct (decide (bank_entries b = [])) as [E|E]; [|by exists 0%nat, b]. rewrite E in Hpos. simpl in Hpos.
  destruct IH as (i & b' & Hi & Hb); [lia|]. by exists (S i), b'.
Qed.

(** The answers of a cycle and the new requests of the banks. *)
Lemma bank_schedule_live c c' :
  fit c → total_ok c → m_cycle c + num_bank k < 2 ^ 31 → bank_schedule c = Ok c' →
  fit c' ∧ total_ok c' ∧ params c' = params c ∧ 0 ≤ m_num_completed_in_last_cycle c' ∧
  (m_num_completed_in_last_cycle c' = 0 →
    (∀ i b e, banks_ c !! i = Some b → m_current_list b = Some e → m_cycle c < m_data_ready b) ∧
    bank_schedule_new (set_counts 0 (m_starvation_cycle c) (m_total_req c) c) = Ok c').
Proof.
  intros Hf Ht Hc E. destruct live_short as [Hs1 Hs2]. unfold bank_schedule in E. apply bind_Ok in E as (c1 & E1 & E2). unfold bank_schedule_complete in E1.
  pose proof (fit_counts k size 0 (m_total_req c) c Hf) as Hf0. set (c0 := set_counts 0 _ _ c) in *.
  pose proof (ko_bank _ (kl_knobs HL)) as Hbank. pose proof (ft_cycle _ _ _ Hf) as Hcyc.
  destruct (complete_loop k size (kl_buffers HL) (bank_indices c) c0 c1 (m_cycle c) Hf0) as (Hf1 & Ht1 & Hn1 & Hp1 & Hstill); try done.
  - intros i Hi. apply (bank_index c i (proj1 (ft_good _ _ _ Hf)) Hi).
  - unfold c0. simpl. lia.
  - unfold bank_indices. rewrite length_seq, (ft_knobs _ _ _ Hf). lia.
  - destruct (new_loop k size (proj1 (kl_size HL)) (kl_width HL) (kl_latency HL) c1 c' Hf1 E2) as [G2 _].
    pose proof (qu_params _ _ _ _ (proj2 G2)) as Hp2. destruct (qu_counts _ _ _ _ (proj2 G2)) as [Hn2 _].
    split; [by eapply fit_step|]. split; [by apply (total_quiet k size c1 c' (proj2 G2))|]. split; [rewrite Hp2, Hp1; done|]. rewrite Hn2. split; [done|].
    intros H0. destruct (Hstill H0) as [-> Hdue]. split; [|done]. intros i b e Hi. apply (Hdue i b e); [|exact Hi].
    apply elem_of_seq. pose proof (lookup_lt_Some _ _ _ Hi) as Hlt. rewrite (so_banks _ (proj1 (ft_good _ _ _ Hf))) in Hlt. simpl. lia.
Qed.

(** The first half of a cycle does not touch the banks. *)
Lemma packets_step c n c1 n1 c2 :
  fit c → goes c c1 → goes c1 c2 → send_packet (c, n) = Ok (c1, n1) → delay_packet c1 = Ok c2 → fit c2 ∧ aside c c2.
Proof.
  intros Hf G1 G2 E1 E2. pose proof (aside_trans _ _ _ (send_packet_aside _ _ _ _ E1) (delay_packet_aside _ _ E2)) as Ha.
  split; [|done]. apply (fit_step k size c c2 Hf). by apply aside_good_step; [eapply goes_trans|].
Qed.

(** [m_starvation_cycle] is bounded by what the banks have got nearer. *)
Record live_sys (c : dram_controller_c) (n : N) : Prop := {
  ls_sys : sys_ok c n;
  ls_fit : fit c;
  ls_total : total_ok c;
  ls_size p r : p ∈ net_arrived n → dc_heap c !! p = Some r → 0 < mr_size r ≤ size;
  ls_starving : m_starvation_cycle c ≤ num_bank k * max_weight - potential (m_cycle c) (banks_ c) + 1;
  ls_idle : m_total_req c = 0 → m_starvation_cycle c = 0;
}.

Lemma arrived_size c c' n n' :
  sys_ok c n → goes c c' → net_arrived n' = net_arrived n → (∀ p r, p ∈ net_arrived n → dc_heap c !! p = Some r → 0 < mr_size r ≤ size) →
  ∀ p r, p ∈ net_arrived n' → dc_heap c' !! p = Some r → 0 < mr_size r ≤ size.
Proof.
  intros Hsys Hgo En Hs p r Hp Hr. rewrite En in Hp. destruct (hold_all_good _ _ (sy_good _ _ Hsys)) as [_ Hout].
  destruct (Hout p Hp) as [Hnp [r0 Hr0]]. destruct (goes_kept_outside _ _ p Hgo Hnp r0 Hr0) as (r' & Hr' & Est).
  assert (r' = r) as -> by congruence. injection Est as _ _ -> _ _ _. by apply (Hs p).
Qed.

Lemma receive_live c n c' n' :
  sys_ok c n → fit c → total_ok c → (∀ p r, p ∈ net_arrived n → dc_heap c !! p = Some r → 0 < mr_size r ≤ size) →
  receive_packet (c, n) = Ok (c', n') →
  fit c' ∧ total_ok c' ∧ filled size c c' ∧ sys_ok c' n' ∧ goes (whole c n) (whole c' n') ∧
  ∀ p r, p ∈ net_arrived n' → dc_heap c' !! p = Some r → 0 < mr_size r ≤ size.
Proof.
  intros Hsys Hf Ht Hs E. destruct (receive_packet_goes c n Hsys) as (c2 & n2 & E2 & Hsys' & Hgo). assert (c2 = c' ∧ n2 = n') as [-> ->] by (split; congruence).
  destruct (hold_all_good _ _ (sy_good _ _ Hsys')) as [Hg' Hout']. destruct (hold_all_good _ _ (sy_good _ _ Hsys)) as [Hg Hout].
  assert (filled size c c' ∧ (net_arrived n' ⊆ net_arrived n)) as [Hfl Hsub].
  { unfold receive_packet in E. cbn [fst snd] in E. rewrite (sy_noc _ _ Hsys) in E. rewrite net_receive_head in E.
    destruct (net_arrived n) as [|p l] eqn:El; cbn [head] in E.
    { injection E as <- <-. split; [apply filled_aside; by split_and!|by rewrite El]. }
    apply bind_Ok in E as ([ok c3] & Ei & E). cbn [fst snd] in E. injection E as <- <-. destruct (Hout p ltac:(left)) as [Hnp [r Hr]]. split.
    - apply (insert_filled k size live_short (kl_buffers HL) p c r ok c3 Hg (ft_knobs _ _ _ Hf) Hnp Hr); [|done]. by apply (Hs p r); [left|].
    - destruct ok; [rewrite net_pop_tail, El; simpl; intros q Hq; by right|by rewrite El]. }
  pose proof (filled_fit c c' Hf Hfl Hg') as Hf'. split; [done|]. split; [|split_and!; try done].
  - apply (fl_total _ _ _ Hfl); [|done]. apply (good_entries k (kl_buffers HL) c' Hg' (ft_knobs _ _ _ Hf')).
  - intros p r Hp Hr. destruct Hgo as [_ (F & S & [K1 _ _ K4 _]) _]. destruct (Hout p (Hsub p Hp)) as [_ [r0 Hr0]].
    assert (p ∉ F) as HF.
    { intros HF. destruct (sy_good _ _ Hsys) as [_ [Hnd _]]. rewrite K1 in Hnd. apply NoDup_app in Hnd as (_ & Hd & _). apply (Hd p).
      - unfold whole. rewrite hold_all_held. apply elem_of_app. by left.
      - apply elem_of_app. by left. }
    destruct (K4 p HF r0 Hr0) as (r' & Hr' & Est). assert (r' = r) as -> by (change (dc_heap (whole c' n')) with (dc_heap c') in Hr'; congruence).
    injection Est as _ _ -> _ _ _. apply (Hs p r0); [by apply Hsub|done].
Qed.

(** A cycle up to the check for starvation. *)
Definition half_cycle (cn : dram_controller_c * N) : res (dram_controller_c * N) :=
  cn ← send_packet cn; c ← delay_packet cn.1; c ← channel_schedule c; c ← bank_schedule c; receive_packet (c, cn.2).

Lemma run_a_cycle_half cn :
  run_a_cycle cn = (cn ← half_cycle cn; c ← progress_check cn.1; Ok (set_cycle (u64 (m_cycle c + 1)) c, cn.2)).
Proof.
  unfold run_a_cycle, half_cycle. destruct (send_packet cn) as [[c1 n1]|]; [|done]. cbn [mbind res_bind fst snd].
  destruct (delay_packet c1) as [c2|]; [|done]. cbn [mbind res_bind]. destruct (channel_schedule c2) as [c3|]; [|done]. cbn [mbind res_bind].
  by destruct (bank_schedule c3).
Qed.

(** The banks in a cycle: when nothing is answered and a request is held, something is nearer. *)
Lemma banks_move c c1 c2 :
  fit c → total_ok c → m_cycle c + num_bank k < 2 ^ 31 → channel_schedule c = Ok c1 → bank_schedule c1 = Ok c2 →
  fit c2 ∧ total_ok c2 ∧ 0 ≤ m_num_completed_in_last_cycle c2 ∧
  (m_num_completed_in_last_cycle c2 = 0 → 0 < m_total_req c → potential (m_cycle c + 1) (banks_ c2) < potential (m_cycle c) (banks_ c)).
Proof.
  intros Hf Ht Hc E1 E2. pose proof live_short as Hs. unfold channel_schedule in E1. apply bind_Ok in E1 as (c0 & Ecmd & Edata).
  destruct (cmd_loop k size (proj1 (kl_size HL)) (kl_width HL) (kl_latency HL) Hs c c0 Hf Ecmd) as [[G0 Q0] _]. pose proof (fit_step _ _ _ _ Hf (conj G0 Q0)) as Hf0.
  destruct (data_loop k size (proj1 (kl_size HL)) (kl_width HL) Hs c0 c1 Hf0 Edata) as [[G1 Q1] _]. pose proof (fit_step _ _ _ _ Hf0 (conj G1 Q1)) as Hf1.
  pose proof (total_quiet _ _ _ _ Q1 (total_quiet _ _ _ _ Q0 Ht)) as Ht1.
  destruct (params_cycle _ _ (qu_params _ _ _ _ Q0)) as [C0 _]. destruct (params_cycle _ _ (qu_params _ _ _ _ Q1)) as [C1 _].
  destruct (bank_schedule_live c1 c2 Hf1 Ht1) as (Hf2 & Ht2 & _ & Hn & Hstill); [lia|done|]. split_and!; try done. intros H0 Hpos.
  destruct (Hstill H0) as [Hdue Enew]. rewrite Ht in Hpos. destruct (entries_busy _ Hpos) as (i & b & Hi & Hb).
  exact (middle_moves k size (proj1 (kl_size HL)) (kl_width HL) (kl_latency HL) Hs (kl_channels HL) c c0 c1 c2 i b Hf Ecmd Edata Hdue Enew Hi Hb).
Qed.

Lemma half_cycle_live c n :
  live_sys c n → m_cycle c + num_bank k < 2 ^ 31 →
  ∃ c' n', half_cycle (c, n) = Ok (c', n') ∧ sys_ok c' n' ∧ fit c' ∧ total_ok c' ∧
    (∀ p r, p ∈ net_arrived n' → dc_heap c' !! p = Some r → 0 < mr_size r ≤ size) ∧
    m_cycle c' = m_cycle c ∧ m_starvation_cycle c' = m_starvation_cycle c ∧ 0 ≤ m_num_completed_in_last_cycle c' ∧
    (m_num_completed_in_last_cycle c' = 0 → 0 < m_total_req c → potential (m_cycle c + 1) (banks_ c') < potential (m_cycle c) (banks_ c)).
Proof.
  intros [Hsys Hf Ht Hsz _ _] Hcyc. pose proof (ft_good _ _ _ Hf) as Hg. unfold half_cycle.
  destruct (send_packet_goes c n Hg (sy_noc _ _ Hsys)) as (c1 & n1 & E1 & G1 & En & _). rewrite E1. cbn [mbind res_bind fst snd].
  destruct (delay_packet_goes c1 (goes_good _ _ Hg G1)) as (c2 & E2 & G2 & _). rewrite E2. cbn [mbind res_bind fst snd].
  destruct (packets_step c n c1 n1 c2 Hf G1 G2 E1 E2) as [Hf2 (A1 & A2 & A3 & A4 & A5)]. destruct (params_cycle _ _ A3) as [C2 _].
  pose proof (ft_good _ _ _ Hf2) as Hg2. destruct (channel_schedule_goes c2 Hg2) as (c3 & E3 & G3). rewrite E3. cbn [mbind res_bind].
  destruct (bank_schedule_goes c3 (goes_good _ _ Hg2 G3)) as (c4 & E4 & G4). rewrite E4. cbn [mbind res_bind].
  assert (total_ok c2) as Ht2 by (unfold total_ok in *; by rewrite A5, A1).
  destruct (banks_move c2 c3 c4 Hf2 Ht2) as (Hf4 & Ht4 & Hn4 & Hmove); try done; [lia|].
  pose proof (goes_trans _ _ _ G1 (goes_trans _ _ _ G2 (goes_trans _ _ _ G3 G4))) as G14. pose proof (goes_sys c c4 n n1 Hsys G14 En) as Hsys4.
  pose proof (arrived_size c c4 n n1 Hsys G14 En Hsz) as Hsz4.
  destruct (receive_packet_goes c4 n1 Hsys4) as (c5 & n5 & E5 & _ & _). exists c5, n5. split; [exact E5|].
  destruct (receive_live c4 n1 c5 n5 Hsys4 Hf4 Ht4 Hsz4 E5) as (Hf5 & Ht5 & Hfl & Hsys5 & _ & Hsz5).
  destruct (fl_same _ _ _ Hfl) as (_ & P5 & N5). pose proof (go_params _ _ G14) as P14. unfold params in P5, P14. injection P5 as _ _ _ Q4 Q5. injection P14 as _ _ _ R4 R5.
  split_and!; try done; [congruence|congruence|by rewrite N5|]. rewrite N5, (filled_potential _ _ _ Hfl). rewrite A5, C2, A1 in Hmove. exact Hmove.
Qed.

(** A cycle of the simulation is not ended, and the invariant holds after it. *)
Lemma live_cycle c n :
  live_sys c n → m_cycle c + num_bank k + 1 < 2 ^ 31 → ∃ c' n', run_a_cycle (c, n) = Ok (c', n') ∧ live_sys c' n'.
Proof.
  intros Hls Hcyc. destruct (half_cycle_live c n Hls) as (c5 & n5 & E & Hsys5 & Hf5 & Ht5 & Hsz5 & C5 & S5 & Hn5 & Hmove); [lia|].
  destruct Hls as [Hsys Hf Ht Hsz Hst Hidle]. rewrite run_a_cycle_half, E. cbn [mbind res_bind fst snd].
  pose proof (potential_bounds c Hf) as Hb. pose proof (kl_bound HL) as Hbound. pose proof (ko_bank _ (kl_knobs HL)) as Hbank. pose proof (ft_cycle _ _ _ Hf) as H0.
  assert (∀ x, fit (set_cycle (u64 (m_cycle c5 + 1)) (set_counts (m_num_completed_in_last_cycle c5) x (m_total_req c5) c5))) as Hf' by (intros x; apply tick_fit; [done|lia]).
  pose proof (potential_bounds _ (Hf' 0)) as Hb'. simpl in Hb'. rewrite u64_small, C5 in Hb' by lia.
  set (x := if bool_decide (0 < m_total_req c5 ∧ m_num_completed_in_last_cycle c5 = 0) then m_starvation_cycle c5 + 1 else 0).
  pose proof (sy_starving _ _ Hsys5) as Hrange.
  assert (x ≤ num_bank k * max_weight - potential (m_cycle c + 1) (banks_ c5) + 1 ∧ 0 ≤ x ∧ (m_total_req c5 = 0 → x = 0)) as (Hx & Hx0 & Hxidle).
  { unfold x. case_bool_decide as Hstarve; [|split_and!; [lia|lia|done]]. destruct Hstarve as [Hpos Hzero]. split_and!; [|lia|lia].
    destruct (decide (0 < m_total_req c)) as [Hbusy|Hno]; [specialize (Hmove Hzero Hbusy); lia|].
    assert (m_total_req c = 0) as Hz by (pose proof (entries_nonneg (banks_ c)); unfold total_ok in Ht; lia). specialize (Hidle Hz). lia. }
  assert (progress_check c5 = Ok (set_counts (m_num_completed_in_last_cycle c5) x (m_total_req c5) c5)) as ->.
  { unfold progress_check. assert (int (m_starvation_cycle c5 + 1) = m_starvation_cycle c5 + 1) as -> by (apply int_small; lia). fold x.
    rewrite bool_decide_true by lia. done. }
  cbn [mbind res_bind]. eexists _, _. split; [done|].
  destruct (tick_sys x c5 n5 Hsys5) as (Hsys' & _ & _); [lia|lia|unfold ULLONG_MAX; lia|].
  split; [exact Hsys'|apply Hf'|exact Ht5|exact Hsz5| |exact Hxidle]. simpl. rewrite u64_small, C5 by lia. exact Hx.
Qed.

Lemma live_arrive c n n' p r :
  live_sys c n → net_arrived n' = net_arrived n ++ [p] → p ∉ dc_account (whole c n) → addr_ok c r → 0 < mr_size r ≤ size →
  sys_ok (set_heap (<[p := r]> (dc_heap c)) (dc_freed c) (dc_sent c) c) n' →
  live_sys (set_heap (<[p := r]> (dc_heap c)) (dc_freed c) (dc_sent c) c) n'.
Proof.
  intros [Hsys Hf Ht Hsz Hst Hidle] En Hp Ha Hr Hsys'. split; try done.
  - destruct Hf as [F1 F2 F3 F4 F5]. split; try done. apply (hold_all_good _ _ (sy_good _ _ Hsys')).
  - intros q x. rewrite En. simpl. unfold dc_account in Hp. rewrite !not_elem_of_app in Hp. destruct Hp as (Hp & _).
    intros [Hq| ->%list_elem_of_singleton]%elem_of_app Hx; [|rewrite lookup_insert_eq in Hx; by injection Hx as <-].
    rewrite lookup_insert_ne in Hx; [by apply (Hsz q)|]. intros <-. apply Hp. unfold whole. rewrite hold_all_held. apply elem_of_app. by left.
Qed.

(** ** Runs *)
Section start.
Variables (unset : Mapping) (counts : Z * Z * Z) (noc_id unique_id : Z) (c0 : dram_controller_c) (n0 : N).
Hypothesis Hstart : dram_controller_ctor k unset counts noc_id unique_id ∅ = Ok c0.
Hypothesis Hcounts : counts.1.2 = 0 ∧ counts.2 = 0.
Hypothesis Hempty : net_arrived n0 = [].

Lemma ctor_live : live_sys c0 n0.
Proof.
  assert (sys_ok c0 n0) as Hsys.
  { apply (ro_sys _ _ _ (ctor_run_ok k unset counts noc_id unique_id c0 n0 (kl_knobs HL) Hstart ltac:(lia) Hempty)). }
  unfold dram_controller_ctor in Hstart. rewrite bool_decide_false in Hstart by (pose proof (ko_channel _ (kl_knobs HL)); lia).
  destruct (hold_all_good _ _ (sy_good _ _ Hsys)) as [Hg _]. injection Hstart as Ec.
  set (b0 := mkBank _ _ _ _ _ _ _ _) in Ec.
  assert (fit c0) as Hf.
  { split; [done| | |by rewrite <- Ec|by rewrite <- Ec]; rewrite <- Ec.
    - intros i b [-> _]%lookup_replicate. split; simpl; [by intros e ?%not_elem_of_nil|done|done|]. unfold MacDramLive.weight, core. simpl. lia.
    - intros ch x [-> _]%lookup_replicate. split; [|by left]. unfold bus_ok. simpl. pose proof (kl_width HL). lia. }
  assert (total_ok c0) as Ht.
  { unfold total_ok. rewrite <- Ec. simpl. rewrite (proj2 Hcounts). by rewrite entries_replicate. }
  pose proof (potential_bounds c0 Hf) as Hb. split; try done.
  - intros p r. rewrite Hempty. by intros ?%not_elem_of_nil.
  - assert (m_starvation_cycle c0 = 0) as -> by (rewrite <- Ec; apply Hcounts). lia.
  - intros _. rewrite <- Ec. apply Hcounts.
Qed.

Lemma mac_run_live ps c n :
  mac_run c0 n0 ps c n → Forall (λ pr, 0 < mr_size pr.2 ≤ size) ps → m_cycle c + num_bank k < 2 ^ 31 → live_sys c n.
Proof.
  intros Hrun. pose proof (mac_run_ok k unset counts noc_id unique_id c0 n0 (kl_knobs HL) Hstart ltac:(lia) Hempty) as Hok.
  induction Hrun as [|ps c n n' p r Hrun IH En Hp Ha|ps c n c' n' Hrun IH Hlt E]; intros Hall Hcyc; [apply ctor_live| |].
  - apply Forall_cons in Hall as [Hr Hall]. specialize (IH Hall Hcyc). apply (live_arrive c n n'); try done.
    + by rewrite <- (ro_account _ _ _ (Hok _ _ _ Hrun)).
    + apply (ro_sys _ _ _ (Hok _ _ _ (mac_arrive c0 n0 ps c n n' p r Hrun En Hp Ha))).
  - destruct (run_a_cycle_spec c n (ro_sys _ _ _ (Hok _ _ _ Hrun)) (ro_cycle _ _ _ (Hok _ _ _ Hrun)) Hlt) as [[E' _]|(c1 & n1 & E' & _ & _ & Ec & _)]; [congruence|].
    assert (c1 = c') as -> by congruence. destruct (live_cycle c n) as (c2 & n2 & E2 & Hl); [apply IH; [done|lia]|lia|].
    assert (c2 = c' ∧ n2 = n') as [-> ->] by (split; congruence). done.
Qed.

End start.
End progress.
