(* ===== verification/MacMCsim.v ===== *)
(** * MacSim with MCsim as its memory

    The build of [dram_controller_c] (src/IntegrationWithMacSim/src/dram.cc) in which
    requests go to a memory system of MCsim: [receive_packet] adds them there and keeps
    them as pending, the callbacks of MCsim find the pending ones of an address. The
    memory system is an instance of [Memory] (Requestor.v), the network of [Network]. *)
From S2P Require Import Prelude Types Ledger Requestor MacDram MacDramLaws MacDramRun.
#[local] Open Scope Z_scope.

Section glue.
Context {M : Type} `{Mem : Memory M} {N : Type} `{Net : Network N}.

(** [mc_mem] is [*mcsim_instance], [mc_net] the router. *)
Record mcsim_controller := mkGlue {
  mc_dc : dram_controller_c;
  mc_mem : M;
  mc_net : N;
}.

(** A pending request of the address goes to the output. *)
Definition answer_pending (p : ptr) (c : dram_controller_c) : res dram_controller_c :=
  c ← (match m_tmp_output_buffer c with
       | Some tmp =>
           c ← on_req p (set_mr_rdy (u64 (m_cycle c + additional_latency (dc_knobs c)))) c;
           Ok (set_outputs (m_output_buffer c) (Some (tmp ++ [p])) c)
       | None => Ok (set_outputs (m_output_buffer c ++ [p]) None c)
       end);
  Ok (set_pending (filter (λ q, q ≠ p) (m_pending_request c)) c).

(** The callback for reads: the loop steps on before it removes a request. *)
Definition read_callback (address : Z) (c : dram_controller_c) : res dram_controller_c :=
  foldM (m_pending_request c) c (λ p c,
    r ← req_at p c;
    if bool_decide (mr_addr r = address) then answer_pending p c else Ok c).

(** The callback for writes has the same code. *)
Definition write_callback (address : Z) (c : dram_controller_c) : res dram_controller_c := read_callback address c.

(** MCsim calls one of them with the address of each request it is done with. *)
Definition mc_callback (a : Request) (c : dram_controller_c) : res dram_controller_c :=
  match requestType a with
  | DATA_READ => read_callback (address a) c
  | _ => write_callback (address a) c
  end.

(** Write backs and stores are writes. *)
Definition mc_READ (r : mem_req_s) : bool := negb (bool_decide (mr_type r = MRT_WB ∨ mr_type r = MRT_DSTORE)).

(** [receive_packet]; [addRequest] of MCsim always returns [true]. *)
Definition mc_receive_packet (x : mcsim_controller) : res mcsim_controller :=
  if enable_new_noc (dc_knobs (mc_dc x)) then
    match net_receive (mc_net x) with
    | None => Ok x
    | Some p =>
        r ← req_at p (mc_dc x);
        m ← mem_add (u32 (mr_core_id r)) (mr_addr r) (mc_READ r) 64 (mc_mem x);
        Ok (mkGlue (set_pending (m_pending_request (mc_dc x) ++ [p]) (mc_dc x)) m (net_pop (mc_net x)))
    end
  else Ok x.

(** [run_a_cycle] with MCsim. *)
Definition mc_run_a_cycle (x : mcsim_controller) : res mcsim_controller :=
  am ← mem_update (mc_mem x);
  c ← foldM am.1 (mc_dc x) mc_callback;
  cn ← send_packet (c, mc_net x);
  c ← delay_packet cn.1;
  x ← mc_receive_packet (mkGlue c am.2 cn.2);
  Ok (mkGlue (set_cycle (u64 (m_cycle (mc_dc x) + 1)) (mc_dc x)) (mc_mem x) (mc_net x)).
End glue.

(** ** Callbacks *)

(** What MCsim was asked for a request. *)
Definition mc_key (r : mem_req_s) : RequestType * Z * Z :=
  (if mc_READ r then DATA_READ else DATA_WRITE, u32 (mr_core_id r), mr_addr r).
Definition pending_keys (c : dram_controller_c) : list (RequestType * Z * Z) :=
  omap (λ p, mc_key <$> dc_heap c !! p) (m_pending_request c).

Lemma mc_key_static r r' : static r' = static r → mc_key r' = mc_key r.
Proof. intros [= E1 E2 _ _ _ E3]. unfold mc_key, mc_READ. by rewrite E1, E2, E3. Qed.

Lemma kept_keys h h' (l : list ptr) :
  (∀ p, p ∈ l → is_Some (h !! p) ∧ kept p h h') → omap (λ p, mc_key <$> h' !! p) l = omap (λ p, mc_key <$> h !! p) l.
Proof.
  induction l as [|p l IH]; intros Hl; [done|]. destruct (Hl p ltac:(left)) as [[r Hr] Hk]. destruct (Hk r Hr) as (r' & Hr' & E).
  simpl. rewrite Hr, Hr'. simpl. rewrite (mc_key_static _ _ E). f_equal. apply IH. intros q Hq. apply Hl. by right.
Qed.

(** Requests move from the pending ones to the outputs. *)
Lemma move_goes l out tmp c :
  good c → dc_outputs c ≡ₚ l ++ default [] tmp ++ out → goes c (set_pending l (set_outputs out tmp c)).
Proof.
  intros [[H1 H2 H3 H4 H5 H6] _] Hp. split; [by split| |done]. exists [], []. split; try done; simpl.
  - unfold dc_held. rewrite Hp. unfold dc_outputs. simpl. by rewrite !app_nil_r.
  - intros p _. apply kept_refl.
  - by intros p ?%not_elem_of_nil.
Qed.

Lemma filter_ne_perm (p : ptr) l : NoDup l → p ∈ l → l ≡ₚ p :: filter (λ q, q ≠ p) l.
Proof.
  intros Hnd Hp. rewrite (remove_perm [p] l Hnd (NoDup_singleton p)) at 1.
  - simpl. constructor. rewrite (list_filter_iff (λ q, q ∉ [p]) (λ q, q ≠ p)); [done|]. intros q. by rewrite list_elem_of_singleton.
  - by intros q ->%list_elem_of_singleton.
Qed.

(** Only the outputs and the pending requests change, the requests live on. *)
Record steps_aside (l : list ptr) (c c' : dram_controller_c) : Prop := {
  sa_goes : goes c c';
  sa_pending : m_pending_request c' = l;
  sa_freed : dc_freed c' = dc_freed c ∧ dc_sent c' = dc_sent c;
  sa_kept p : kept p (dc_heap c) (dc_heap c');
}.

Lemma answer_pending_steps p c :
  good c → p ∈ m_pending_request c →
  ∃ c', answer_pending p c = Ok c' ∧ steps_aside (filter (λ q, q ≠ p) (m_pending_request c)) c c'.
Proof.
  intros Hg Hp. destruct (outputs_nodup c Hg) as [Hnd Hl]. unfold dc_outputs in Hnd, Hl.
  pose proof (proj1 (proj1 (NoDup_app _ _) Hnd)) as Hndp. pose proof (filter_ne_perm p _ Hndp Hp) as Hperm.
  destruct (Hl p) as [r Hr]; [apply elem_of_app; by left|]. unfold answer_pending. destruct (m_tmp_output_buffer c) as [tmp|] eqn:Et.
  - set (f := set_mr_rdy _). destruct (on_req_goes p f c ltac:(done) Hg ltac:(by eexists)) as (c1 & E1 & G1 & _). rewrite E1. cbn [mbind res_bind].
    unfold on_req, req_at in E1. rewrite Hr in E1. injection E1 as <-. eexists. split; [done|]. split; [|done|done|].
    + eapply goes_trans; [exact G1|]. refine (move_goes (filter (λ q, q ≠ p) (m_pending_request c)) (m_output_buffer c) (Some (tmp ++ [p])) _ (goes_good _ _ Hg G1) _).
      unfold dc_outputs. simpl. rewrite Et. simpl. rewrite Hperm at 1. solve_Permutation.
    + intros q. simpl. by apply (kept_update q p _ r).
  - cbn [mbind res_bind]. eexists. split; [done|]. split; [|done|done|intros q; apply kept_refl].
    refine (move_goes (filter (λ q, q ≠ p) (m_pending_request c)) (m_output_buffer c ++ [p]) None c Hg _).
    unfold dc_outputs. simpl. rewrite Et. simpl. rewrite Hperm at 1. solve_Permutation.
Qed.

Lemma filter_ext_in {A} (P Q : A → Prop) `{∀ x, Decision (P x), ∀ x, Decision (Q x)} (l : list A) :
  (∀ x, x ∈ l → P x ↔ Q x) → filter P l = filter Q l.
Proof.
  induction l as [|x l IH]; intros Hl; [done|]. rewrite !filter_cons, IH by (intros; apply Hl; by right).
  pose proof (Hl x ltac:(left)). destruct (decide (P x)), (decide (Q x)); tauto || done.
Qed.

Lemma filter_all_in {A} (P : A → Prop) `{∀ x, Decision (P x)} (l : list A) : (∀ x, x ∈ l → P x) → filter P l = l.
Proof.
  induction l as [|x l IH]; intros Hl; [done|]. rewrite filter_cons, IH by (intros; apply Hl; by right).
  by rewrite decide_True by (apply Hl; left).
Qed.

(** The request of [p] is for the address. *)
Definition at_addr (a : Z) (h : gmap ptr mem_req_s) (p : ptr) : Prop := (mr_addr <$> h !! p) = Some a.
#[local] Instance at_addr_dec a h p : Decision (at_addr a h p) := ltac:(unfold at_addr; apply _).

Lemma callback_loop a h0 (l : list ptr) : ∀ c,
  good c → NoDup l → l ⊆ m_pending_request c → (∀ q, q ∈ l → is_Some (h0 !! q)) → (∀ q, kept q h0 (dc_heap c)) →
  ∃ c', foldM l c (λ p c, r ← req_at p c; if bool_decide (mr_addr r = a) then answer_pending p c else Ok c) = Ok c' ∧
    steps_aside (filter (λ q, ¬ (q ∈ l ∧ at_addr a h0 q)) (m_pending_request c)) c c'.
Proof.
  induction l as [|p l IH]; intros c Hg Hnd Hsub Hlive Hk.
  - exists c. split; [done|]. split; [by apply goes_refl| |done|intros q; apply kept_refl].
    rewrite filter_all_in; [done|]. intros q _ [Hq _]. by apply not_elem_of_nil in Hq.
  - apply NoDup_cons in Hnd as [Hpl Hnd]. destruct (Hlive p ltac:(left)) as [r0 Hr0]. destruct (Hk p r0 Hr0) as (r & Hr & Est).
    assert (mr_addr r = mr_addr r0) as Ea by (by injection Est). cbn [foldM].
    assert (req_at p c = Ok r) as -> by (unfold req_at; by rewrite Hr). cbn [mbind res_bind]. case_bool_decide as Ha.
    + destruct (answer_pending_steps p c Hg (Hsub p ltac:(left))) as (c1 & E1 & [G1 P1 F1 K1]). rewrite E1. cbn [mbind res_bind].
      destruct (IH c1) as (c2 & E2 & [G2 P2 F2 K2]); [by eapply goes_good|done| |intros; apply Hlive; by right|intros q; eapply kept_then; [apply Hk|apply K1]|].
      { intros q Hq. rewrite P1. apply list_elem_of_filter. split; [by intros ->|apply Hsub; by right]. }
      exists c2. split; [done|]. split; [by eapply goes_trans| |destruct F1, F2; split; congruence|intros q; eapply kept_then; [apply K1|apply K2]].
      rewrite P2, P1, list_filter_filter. apply list_filter_iff. intros q. rewrite elem_of_cons. unfold at_addr.
      split; [intros [H1 H2] [[->|?] ?]; [done|by apply H1]|intros Hn]. split; [intros [? ?]; apply Hn; by split; [right|]|].
      intros ->. apply Hn. split; [by left|]. rewrite Hr0. simpl. congruence.
    + destruct (IH c Hg Hnd) as (c2 & E2 & [G2 P2 F2 K2]); [intros q Hq; apply Hsub; by right|intros; apply Hlive; by right|done|].
      exists c2. split; [exact E2|]. split; [done| |done|done]. rewrite P2. apply list_filter_iff. intros q. rewrite elem_of_cons.
      split; [intros Hn [[->|?] Hat]; [|by apply Hn]|intros Hn [? ?]; apply Hn; by split; [right|]].
      unfold at_addr in Hat. rewrite Hr0 in Hat. simpl in Hat. injection Hat as Hat. congruence.
Qed.

(** All pending requests of the address are answered, and no other. *)
Lemma read_callback_steps a c :
  good c → ∃ c', read_callback a c = Ok c' ∧ steps_aside (filter (λ q, ¬ at_addr a (dc_heap c) q) (m_pending_request c)) c c'.
Proof.
  intros Hg. destruct (outputs_nodup c Hg) as [Hnd Hl]. unfold dc_outputs in Hnd, Hl.
  destruct (callback_loop a (dc_heap c) (m_pending_request c) c Hg) as (c' & E & [G P F K]); try done.
  - by apply NoDup_app in Hnd as [? _].
  - intros q Hq. apply Hl, elem_of_app. by left.
  - intros q. apply kept_refl.
  - exists c'. split; [exact E|]. split; [done| |done|done]. rewrite P. apply filter_ext_in. intros q Hq. split; [intros Hn Hat; by apply Hn|by intros Hn [_ ?]].
Qed.

(** *** The pending requests and those MCsim has *)
Lemma pending_keys_filter a h (l : list ptr) :
  (∀ p, p ∈ l → is_Some (h !! p)) →
  omap (λ p, mc_key <$> h !! p) (filter (λ q, ¬ at_addr a h q) l) = filter (λ k, k.2 ≠ a) (omap (λ p, mc_key <$> h !! p) l).
Proof.
  induction l as [|p l IH]; intros Hl; [done|]. destruct (Hl p ltac:(left)) as [r Hr]. specialize (IH ltac:(intros; apply Hl; by right)).
  assert (at_addr a h p ↔ mr_addr r = a) as Hat by (unfold at_addr; rewrite Hr; simpl; split; congruence).
  rewrite (filter_cons (λ q, ¬ at_addr a h q)). cbn [omap list_omap]. rewrite Hr. cbn [fmap option_fmap option_map]. rewrite filter_cons. simpl.
  destruct (decide (mr_addr r = a)) as [Ha|Hn].
  - rewrite !decide_False by tauto. exact IH.
  - rewrite !decide_True by tauto. cbn [omap list_omap]. rewrite Hr. cbn [fmap option_fmap option_map]. f_equal. exact IH.
Qed.

Lemma filter_submseteq {A} (P : A → Prop) `{∀ x, Decision (P x)} (l k : list A) : l ⊆+ k → filter P l ⊆+ filter P k.
Proof.
  intros [m Hm]%submseteq_Permutation. rewrite Hm, filter_app. by apply submseteq_inserts_r.
Qed.

(** The key of an answer leaves the ledger; the pending requests of its address leave with it. *)
Lemma answer_submseteq (k : RequestType * Z * Z) l L : l ⊆+ k :: L → filter (λ x, x.2 ≠ k.2) l ⊆+ L.
Proof.
  intros Hs. etrans; [by apply (filter_submseteq (λ x : RequestType * Z * Z, x.2 ≠ k.2))|]. rewrite filter_cons, decide_False by (intros Hc; by apply Hc).
  apply sublist_submseteq, sublist_filter.
Qed.

Lemma pending_live c : good c → ∀ p, p ∈ m_pending_request c → is_Some (dc_heap c !! p).
Proof. intros Hg p Hp. apply (proj2 (outputs_nodup c Hg)). unfold dc_outputs. apply elem_of_app. by left. Qed.

Lemma frame_keys c c' : good c → frame c c' → pending_keys c' = pending_keys c.
Proof.
  intros Hg (E & _ & K). unfold pending_keys. rewrite E. apply kept_keys. intros p Hp. split; [by apply pending_live|apply K].
Qed.

Lemma steps_keys a c c' :
  good c → steps_aside (filter (λ q, ¬ at_addr a (dc_heap c) q) (m_pending_request c)) c c' →
  pending_keys c' = filter (λ k, k.2 ≠ a) (pending_keys c).
Proof.
  intros Hg [_ P _ K]. unfold pending_keys. rewrite P, (kept_keys (dc_heap c)).
  - apply pending_keys_filter. by apply pending_live.
  - intros p [_ Hp]%list_elem_of_filter. split; [by apply pending_live|apply K].
Qed.

Lemma mc_callback_read a c : mc_callback a c = read_callback (address a) c.
Proof. unfold mc_callback, write_callback. by destruct (requestType a). Qed.

(** All answers of an update are taken to MacSim's requests. *)
Lemma deliver_steps ans : ∀ c L,
  good c → pending_keys c ⊆+ (key <$> ans) ++ L →
  ∃ c', foldM ans c mc_callback = Ok c' ∧ goes c c' ∧ dc_freed c' = dc_freed c ∧ (∀ p, kept p (dc_heap c) (dc_heap c')) ∧ pending_keys c' ⊆+ L.
Proof.
  induction ans as [|a ans IH]; intros c L Hg Hsub.
  - exists c. split_and!; try done; [by apply goes_refl|intros p; apply kept_refl].
  - cbn [foldM]. rewrite mc_callback_read. destruct (read_callback_steps (address a) c Hg) as (c1 & -> & S1). cbn [mbind res_bind].
    pose proof (steps_keys _ _ _ Hg S1) as Ek. destruct S1 as [G1 _ [F1 _] K1].
    destruct (IH c1 L (goes_good _ _ Hg G1)) as (c2 & E2 & G2 & F2 & K2 & H2).
    + rewrite Ek. rewrite fmap_cons in Hsub. exact (answer_submseteq (key a) _ _ Hsub).
    + exists c2. split_and!; try done; [by eapply goes_trans|congruence|]. intros p. by eapply kept_then.
Qed.

Section run.
Context {M : Type} `{ML : MemoryLaws M} {N : Type} `{NL : NetworkLaws N}.
Implicit Types x : mcsim_controller (M := M) (N := N).

(** The invariant: MCsim has every request that is pending. *)
Record glue_ok x : Prop := {
  go_good : good (whole (mc_dc x) (mc_net x));
  go_noc : enable_new_noc (dc_knobs (mc_dc x)) = true;
  go_mem : mem_inv (mc_mem x);
  go_pending : pending_keys (mc_dc x) ⊆+ mem_ledger (mc_mem x);
}.

Lemma receive_glue x x' :
  glue_ok x → mc_receive_packet x = Ok x' →
  glue_ok x' ∧ goes (whole (mc_dc x) (mc_net x)) (whole (mc_dc x') (mc_net x')) ∧ dc_freed (mc_dc x') = dc_freed (mc_dc x) ∧
  dc_heap (mc_dc x') = dc_heap (mc_dc x).
Proof.
  intros [Hw Hnoc Hm Hp]. unfold mc_receive_packet. rewrite Hnoc, net_receive_head. destruct (net_arrived (mc_net x)) as [|p l] eqn:El; cbn [head].
  - intros [= <-]. split_and!; try done. by apply goes_refl.
  - intros (r & Hr & E)%bind_Ok. apply bind_Ok in E as (m & Ea & [= <-]). cbn [mc_dc mc_mem mc_net].
    unfold req_at in Hr. destruct (dc_heap (mc_dc x) !! p) as [r'|] eqn:Hrp; [|done]. injection Hr as ->.
    destruct (mem_add_ledger _ _ _ _ _ _ Hm Ea) as [Hm' Hled].
    assert (goes (whole (mc_dc x) (mc_net x)) (whole (set_pending (m_pending_request (mc_dc x) ++ [p]) (mc_dc x)) (net_pop (mc_net x)))) as Hgo.
    { destruct Hw as [[A1 A2 A3 A4 A5 A6] _]. split; [by split| |done]. exists [], []. split; try done.
      - unfold whole. rewrite !hold_all_held, El, net_pop_tail, El, !app_nil_r. unfold dc_held, dc_outputs. simpl. solve_Permutation.
      - intros q _. apply kept_refl.
      - by intros q ?%not_elem_of_nil. }
    split; [|split_and!; done]. split; [by eapply goes_good|done|done|]. rewrite Hled. unfold pending_keys in *. simpl. rewrite omap_app. simpl. rewrite Hrp. simpl.
    rewrite (Permutation_app_comm _ [_]). simpl. unfold mc_key. destruct (mc_READ r); by apply submseteq_skip.
Qed.

(** A cycle answers, sends, receives. *)
Lemma mc_cycle_glue x x' :
  glue_ok x → 0 ≤ m_cycle (mc_dc x) → m_cycle (mc_dc x) + 1 < ULLONG_MAX → mc_run_a_cycle x = Ok x' →
  glue_ok x' ∧ conserves (whole (mc_dc x) (mc_net x)) (whole (mc_dc x') (mc_net x')) ∧ dc_freed (mc_dc x') = dc_freed (mc_dc x) ∧
  (∀ p, kept p (dc_heap (mc_dc x)) (dc_heap (mc_dc x'))) ∧ m_cycle (mc_dc x') = m_cycle (mc_dc x) + 1.
Proof.
  intros [Hw Hnoc Hm Hp] Hcyc Hlt E. destruct (hold_all_good _ _ Hw) as [Hg _]. unfold mc_run_a_cycle in E.
  apply bind_Ok in E as ([ans m] & Eu & E). destruct (mem_update_ledger _ _ _ Hm Eu) as [Hm' Hled]. cbn [fst snd] in E.
  destruct (deliver_steps ans (mc_dc x) (mem_ledger m) Hg) as (c1 & E1 & G1 & F1 & K1 & Hp1); [by rewrite <- Hled|]. rewrite E1 in E. cbn [mbind res_bind] in E.
  assert (enable_new_noc (dc_knobs c1) = true) as Hnoc1 by (by destruct (params_cycle _ _ (go_params _ _ G1)) as [_ ->]).
  pose proof (goes_good _ _ Hg G1) as Hg1.
  destruct (send_packet_goes c1 (mc_net x) Hg1 Hnoc1) as (c2 & n2 & E2 & G2 & En & R2). rewrite E2 in E. cbn [mbind res_bind fst snd] in E.
  pose proof (goes_good _ _ Hg1 G2) as Hg2. destruct (delay_packet_goes c2 Hg2) as (c3 & E3 & G3 & R3). rewrite E3 in E. cbn [mbind res_bind] in E.
  apply bind_Ok in E as (x4 & E4 & [= <-]). pose proof (goes_trans _ _ _ G1 (goes_trans _ _ _ G2 G3)) as G13.
  pose proof (whole_goes _ _ (mc_net x) n2 G13 En) as Gw. pose proof (go_params _ _ G13) as Hpar. unfold params in Hpar. injection Hpar as P1 P2 P3 P4 P5.
  destruct (receive_glue (mkGlue c3 m n2) x4) as ([W4 N4 M4 L4] & G4 & F4 & H4); [split; simpl| |].
  - exact (goes_good _ _ Hw Gw).
  - by rewrite P1.
  - done.
  - by rewrite (frame_keys c2 c3 Hg2 R3), (frame_keys c1 c2 Hg1 R2).
  - exact E4.
  - cbn [mc_dc mc_mem mc_net] in *. pose proof (go_params _ _ (goes_trans _ _ _ Gw G4)) as Hpar. unfold params in Hpar. injection Hpar as Q1 Q2 Q3 Q4 Q5. simpl in Q4.
    destruct R2 as (_ & F2 & K2), R3 as (_ & F3 & K3). simpl. rewrite u64_small by (unfold ULLONG_MAX in Hlt; lia). split_and!; try done.
    + split; try done. destruct W4 as [[A1 A2 A3 A4 A5 A6] [B1 B2]]. split; [split; try done; simpl; lia|by split].
    + etrans; [apply (go_conserves _ _ Gw)|]. etrans; [apply (go_conserves _ _ G4)|]. exists [], []. split; try done; [by rewrite app_nil_r|intros p _; apply kept_refl|by intros p ?%not_elem_of_nil].
    + congruence.
    + intros p. rewrite H4. eapply kept_then; [apply K1|]. eapply kept_then; [apply K2|apply K3].
    + lia.
Qed.

(** *** Runs: as those of MacDramRun.v, with cycles of this build *)
Inductive mc_run (x0 : mcsim_controller (M := M) (N := N)) : list (ptr * mem_req_s) → mcsim_controller (M := M) (N := N) → Prop :=
| mc_start : mc_run x0 [] x0
| mc_arrive ps c m n n' p r :
    mc_run x0 ps (mkGlue c m n) → net_arrived n' = net_arrived n ++ [p] → p ∉ ps.*1 →
    mc_run x0 ((p, r) :: ps) (mkGlue (set_heap (<[p := r]> (dc_heap c)) (dc_freed c) (dc_sent c) c) m n')
| mc_turn ps x x' :
    mc_run x0 ps x → m_cycle (mc_dc x) + 1 < ULLONG_MAX → mc_run_a_cycle x = Ok x' → mc_run x0 ps x'.

Record mc_run_ok (ps : list (ptr * mem_req_s)) x : Prop := {
  mo_glue : glue_ok x;
  mo_cycle : 0 ≤ m_cycle (mc_dc x);
  mo_account : ps.*1 ≡ₚ dc_account (whole (mc_dc x) (mc_net x));
  mo_nodup : NoDup ps.*1;
  mo_freed : dc_freed (mc_dc x) = [];
  mo_kept p r : (p, r) ∈ ps → ∃ r', dc_heap (mc_dc x) !! p = Some r' ∧ static r' = static r;
}.

Lemma mc_arrive_ok ps c m n n' p r :
  mc_run_ok ps (mkGlue c m n) → net_arrived n' = net_arrived n ++ [p] → p ∉ ps.*1 →
  mc_run_ok ((p, r) :: ps) (mkGlue (set_heap (<[p := r]> (dc_heap c)) (dc_freed c) (dc_sent c) c) m n').
Proof.
  intros [[Hw Hnoc Hm Hsub] Hcyc Hacc Hnd Hfr Hk] En Hp. cbn [mc_dc mc_mem mc_net] in *.
  destruct (arrive_whole c n n' p r ps Hw Hacc En Hp) as (Hw' & Hacc' & Hnew). split; try done; cbn [mc_dc mc_mem mc_net].
  - split; try done. cbn [mc_dc mc_mem mc_net]. destruct (hold_all_good _ _ Hw) as [Hg _].
    assert (∀ q, q ∈ m_pending_request c → q ≠ p) as Hne.
    { intros q Hq ->. apply Hnew. unfold whole. rewrite hold_all_held. apply elem_of_app. right. unfold dc_held, dc_outputs. rewrite !elem_of_app. auto. }
    unfold pending_keys in *. simpl. rewrite (kept_keys (dc_heap c)); [done|]. intros q Hq. split; [by apply pending_live|].
    intros x Hx. exists x. by rewrite lookup_insert_ne by (by apply not_eq_sym, Hne).
  - rewrite Hacc'. simpl. by constructor.
  - simpl. by constructor.
  - intros q x [[= -> ->]|Hq]%elem_of_cons; simpl; [rewrite lookup_insert_eq; by eexists|].
    rewrite lookup_insert_ne; [by apply Hk|]. intros ->. apply Hp. exact (list_elem_of_fmap_2 fst _ _ Hq).
Qed.

Lemma mc_turn_ok ps x x' :
  mc_run_ok ps x → m_cycle (mc_dc x) + 1 < ULLONG_MAX → mc_run_a_cycle x = Ok x' → mc_run_ok ps x'.
Proof.
  intros [Hgl Hcyc Hacc Hnd Hfr Hk] Hlt E. destruct (mc_cycle_glue x x' Hgl Hcyc Hlt E) as (Hgl' & Hcons & F & K & C).
  split; try done; [lia|by rewrite (conserves_account _ _ Hcons)|congruence|].
  intros p r Hp. destruct (Hk p r Hp) as (r1 & Hr1 & E1). destruct (K p r1 Hr1) as (r2 & Hr2 & E2). exists r2. split; [done|congruence].
Qed.

Section start.
Context `{Tk : TakesOne}.
Variables (k : Knobs) (unset : Mapping) (counts : Z * Z * Z) (noc_id unique_id : Z) (x0 : mcsim_controller (M := M) (N := N)).
Hypothesis Hk : knobs_ok k.
Hypothesis Hstart : dram_controller_ctor k unset counts noc_id unique_id ∅ = Ok (mc_dc x0).
Hypothesis Hcounts : 0 ≤ counts.1.2 < 5000.
Hypothesis Hempty : net_arrived (mc_net x0) = [].
Hypothesis Hmem : mem_inv (mc_mem x0).

Lemma mc_ctor_ok : mc_run_ok [] x0.
Proof.
  destruct (ctor_run_ok k unset counts noc_id unique_id (mc_dc x0) (mc_net x0) Hk Hstart Hcounts Hempty) as [[H1 H2 H3 H4 H5] Hcyc Hacc Hnd _ _].
  unfold dram_controller_ctor in Hstart. rewrite bool_decide_false in Hstart by (pose proof (ko_channel _ Hk); lia). injection Hstart as Ec.
  split; try done; [split; try done|by rewrite <- Ec|by intros p r ?%not_elem_of_nil]. rewrite <- Ec. apply submseteq_nil_l.
Qed.

(** C15. With MCsim as its memory MacSim waits for no request that MCsim does not have:
    the pending requests are among those MCsim was asked for and has not answered; and
    every request is, exactly once, in the network, pending, in an output or sent. *)
Theorem mcsim_has_what_is_pending ps x :
  mc_run x0 ps x →
  pending_keys (mc_dc x) ⊆+ mem_ledger (mc_mem x) ∧
  ps.*1 ≡ₚ net_arrived (mc_net x) ++ dc_held (mc_dc x) ++ dc_sent (mc_dc x) ∧ NoDup ps.*1.
Proof.
  intros Hrun. assert (mc_run_ok ps x) as [[_ _ _ Hp] _ Hacc Hnd Hfr _].
  { induction Hrun; [apply mc_ctor_ok|by eapply mc_arrive_ok|by eapply mc_turn_ok]. }
  split; [done|]. split; [|done]. rewrite Hacc. unfold dc_account, whole. rewrite hold_all_held.
  change (dc_freed (hold_all _ (mc_dc x))) with (dc_freed (mc_dc x)). change (dc_sent (hold_all _ (mc_dc x))) with (dc_sent (mc_dc x)).
  rewrite Hfr. solve_Permutation.
Qed.
End start.
End run.
