(* ===== verification/MacWitness.v ===== *)
(** * MacSim's controller on concrete inputs

    The knobs of MacSim's parameter files, a network that takes every packet, and the
    theorems of MacDramRun.v, MacDramBus.v, MacDramProgress.v and MacMCsim.v on them. *)
From S2P Require Import Prelude Types Ledger Requestor Device Channels CmdGen CmdAlgos ReqSched Simulation MacDram MacDramLaws MacDramRun MacDramBus MacDramLive MacDramProgress MacMCsim.
#[local] Open Scope Z_scope.

(** *** A network: the packets that have arrived, and those it took *)
#[local] Instance wit_network : Network (list ptr * list ptr) := {|
  net_id n := 7;
  net_dst i n := Z.abs i;
  net_send p n := (true, (n.1, p :: n.2));
  net_receive n := head n.1;
  net_pop n := (tail n.1, n.2);
|}.
#[local] Program Instance wit_network_laws : NetworkLaws (list ptr * list ptr) := {| net_arrived n := n.1 |}.
Next Obligation. done. Qed.
Next Obligation. done. Qed.
Next Obligation. done. Qed.
Next Obligation. done. Qed.
Next Obligation. intros i n. simpl. lia. Qed.

(** *** Knobs *)

(** The defaults of def/memory.param.def and def/network.param.def with what the
    parameter files set. *)
Definition shipped (banks channels width mc l3 act pre col : Z) : Knobs := {|
  num_bank := banks; num_channel := channels; bus_width := width; buffer_size := 128; merge_requests := true; bank_xor_index := true;
  additional_latency := 0; num_mc := mc; rowbuffer_size := 2048; default_interleaving := true; new_interleaving := false;
  l3_line_size := 64; num_l3 := l3; l3_num_set := 8192; activate_latency := act; precharge_latency := pre; column_latency := col;
  noc_vc_partition := false; enable_new_noc := true |}.
Definition default_knobs : Knobs := shipped 8 1 8 1 1 6 6 6.
Definition knobs_8800gt : Knobs := shipped 16 8 4 1 14 25 10 11.
Definition knobs_gtx580 : Knobs := shipped 16 1 8 6 6 25 10 11.

(** The shipped parameters meet the conditions, for lines of up to 128 bytes. *)
Lemma shipped_knobs_live : Forall (λ k, knobs_live k 128) [default_knobs; knobs_8800gt; knobs_gtx580].
Proof.
  repeat apply Forall_cons_2; try apply Forall_nil_2; (split; [split|..]); try (vm_compute; intuition congruence); simpl; try lia; try by left.
  - by exists 8.
  - by exists 2.
  - by exists 16.
Qed.

(** *** Requests through the controller *)
#[local] Existing Instance FRFCFS_schedule.
#[local] Existing Instance FRFCFS_takes_one.

Definition wit_unset : Mapping := mkMapping 0 0 0 0 0.
Definition wit_dc0 : dram_controller_c :=
  mkDC default_knobs (make_mapping default_knobs wit_unset) 0
    (replicate 8 (mkBank [] (replicate 128 entry_reset) None (-1) ULLONG_MAX ULLONG_MAX ULLONG_MAX 0))
    (replicate 1 (mkChannel 8 0)) 0 0 0 0 [] None [] 0 ∅ [] [].
Definition wit_req (type : Mem_Req_Type) (addr : Z) : mem_req_s := mkMemReq 0 0 0 MEM_NEW type addr 64 0 false 3 0 0 0.

Lemma wit_dc0_start : dram_controller_ctor default_knobs wit_unset (0, 0, 0) 0 0 ∅ = Ok wit_dc0.
Proof. vm_compute. reflexivity. Qed.

(** A load, a write back of another row of its bank and a prefetch. *)
Definition wit_requests : list (ptr * mem_req_s) :=
  [(3%positive, wit_req MRT_DPRF 0x1040); (2%positive, wit_req MRT_WB 0x24000); (1%positive, wit_req MRT_DFETCH 0x1000)].
Definition wit_dc1 : dram_controller_c :=
  foldr (λ pr c, set_heap (<[pr.1 := pr.2]> (dc_heap c)) (dc_freed c) (dc_sent c) c) wit_dc0 wit_requests.
Definition wit_net1 : list ptr * list ptr := ([1%positive; 2%positive; 3%positive], []).

Definition wit_state (n : nat) : dram_controller_c * (list ptr * list ptr) :=
  Nat.iter n (λ cn, match run_a_cycle cn with Ok cn' => cn' | Err _ => cn end) (wit_dc1, wit_net1).

Lemma wit_net_empty : net_arrived (([], []) : list ptr * list ptr) = [].
Proof. done. Qed.

Lemma wit_run n :
  forallb (λ j, is_Ok (run_a_cycle (wit_state j)) && bool_decide (m_cycle (wit_state j).1 + 1 < ULLONG_MAX)) (seq 0 n) = true →
  mac_run wit_dc0 ([], []) wit_requests (wit_state n).1 (wit_state n).2.
Proof.
  induction n as [|n IH]; intros Hn.
  - unfold wit_state, wit_requests, wit_dc1, wit_net1. cbn [Nat.iter nat_rect fst snd foldr].
    apply (mac_arrive _ _ _ _ ([1%positive; 2%positive], [])); [|done|by apply (bool_decide_eq_true_1 _)|vm_compute; split; congruence].
    apply (mac_arrive _ _ _ _ ([1%positive], [])); [|done|by apply (bool_decide_eq_true_1 _)|vm_compute; split; congruence].
    apply (mac_arrive _ _ _ _ ([], [])); [|done|by apply not_elem_of_nil|vm_compute; split; congruence]. apply mac_start.
  - rewrite seq_S, forallb_app in Hn. apply andb_true_iff in Hn as [Hn Hl]. specialize (IH Hn). simpl in Hl. rewrite andb_true_r in Hl.
    apply andb_true_iff in Hl as [Hok Hcyc%bool_decide_eq_true].
    change (wit_state (S n)) with (match run_a_cycle (wit_state n) with Ok cn' => cn' | Err _ => wit_state n end).
    destruct (run_a_cycle (wit_state n)) as [cn'|] eqn:E; [|done]. eapply mac_turn; [exact IH|done|]. rewrite <- surjective_pairing. by rewrite E, <- surjective_pairing.
Qed.

Lemma wit_run_60 : mac_run wit_dc0 ([], []) wit_requests (wit_state 60).1 (wit_state 60).2.
Proof. apply wit_run. vm_compute. reflexivity. Qed.

Lemma mac_requests_accounted_witness :
  let s := wit_state 60 in wit_requests.*1 ≡ₚ net_arrived s.2 ++ dc_held s.1 ++ dc_freed s.1 ++ dc_sent s.1.
Proof.
  apply (mac_requests_accounted default_knobs wit_unset (0, 0, 0) 0 0 wit_dc0 ([], [])).
  - apply (Forall_inv shipped_knobs_live).
  - exact wit_dc0_start.
  - simpl. lia.
  - done.
  - exact wit_run_60.
Defined.


(** *** With MCsim *)
#[local] Existing Instance Open_generator.
#[local] Existing Instance CmdAlgos.FRFCFS.scheduling.
#[local] Existing Instance CmdAlgos.FRFCFS.algorithm.
#[local] Existing Instance ReqSched.FRFCFS.
#[local] Existing Instance wit_memory.
#[local] Existing Instance wit_memory_laws.

Definition wit_glue0 : mcsim_controller := mkGlue wit_dc0 wit_x0 ([] : list ptr, [] : list ptr).
Definition glue_cycles (n : nat) (x : mcsim_controller) : mcsim_controller :=
  Nat.iter n (λ x, match mc_run_a_cycle x with Ok x' => x' | Err _ => x end) x.
Definition wit_glue (n : nat) : mcsim_controller := glue_cycles n (mkGlue wit_dc1 wit_x0 wit_net1).

Lemma wit_glue_run n :
  forallb (λ j, is_Ok (mc_run_a_cycle (wit_glue j)) && bool_decide (m_cycle (mc_dc (wit_glue j)) + 1 < ULLONG_MAX)) (seq 0 n) = true →
  mc_run wit_glue0 wit_requests (wit_glue n).
Proof.
  induction n as [|n IH]; intros Hn.
  - unfold wit_glue, glue_cycles, wit_requests, wit_dc1, wit_net1. cbn [Nat.iter nat_rect fst snd foldr].
    apply (mc_arrive _ _ _ _ ([1%positive; 2%positive], [])); [|done|by apply (bool_decide_eq_true_1 _)].
    apply (mc_arrive _ _ _ _ ([1%positive], [])); [|done|by apply (bool_decide_eq_true_1 _)].
    apply (mc_arrive _ _ _ _ ([], [])); [|done|by apply not_elem_of_nil]. apply mc_start.
  - rewrite seq_S, forallb_app in Hn. apply andb_true_iff in Hn as [Hn Hl]. specialize (IH Hn). simpl in Hl. rewrite andb_true_r in Hl.
    apply andb_true_iff in Hl as [Hok Hcyc%bool_decide_eq_true].
    change (wit_glue (S n)) with (match mc_run_a_cycle (wit_glue n) with Ok x' => x' | Err _ => wit_glue n end).
    destruct (mc_run_a_cycle (wit_glue n)) as [x'|] eqn:E; [|done]. by eapply mc_turn.
Qed.

(** The load is answered, the others are on their way. *)
Lemma mcsim_has_what_is_pending_witness :
  let x := wit_glue 40 in
  pending_keys (mc_dc x) ⊆+ mem_ledger (mc_mem x) ∧
  wit_requests.*1 ≡ₚ net_arrived (mc_net x) ++ dc_held (mc_dc x) ++ dc_sent (mc_dc x) ∧ NoDup wit_requests.*1.
Proof.
  apply (mcsim_has_what_is_pending default_knobs wit_unset (0, 0, 0) 0 0 wit_glue0).
  - apply (Forall_inv shipped_knobs_live).
  - exact wit_dc0_start.
  - simpl. lia.
  - exact wit_net_empty.
  - exact (proj1 wit_memory_empty).
  - apply wit_glue_run. vm_compute. reflexivity.
Defined.

(** Two loads of one address: the answer to the first is taken for both. When it has
    come nothing is pending while MCsim still has the second. *)
Definition wit_twice : mcsim_controller :=
  let c := foldr (λ pr c, set_heap (<[pr.1 := pr.2]> (dc_heap c)) (dc_freed c) (dc_sent c) c) wit_dc0
    [(2%positive, wit_req MRT_DFETCH 0x1000); (1%positive, wit_req MRT_DFETCH 0x1000)] in
  glue_cycles 30 (mkGlue c wit_x0 ([1%positive; 2%positive], [])).

Lemma one_answer_for_two : (m_pending_request (mc_dc wit_twice), dc_sent (mc_dc wit_twice), mem_ledger (mc_mem wit_twice)) =
  ([], [2%positive; 1%positive], [(DATA_READ, 0, 0x1000)]).
Proof. vm_compute. reflexivity. Qed.

(** *** The request scheduler and the bus *)

(** A prefetch, an old load of a closed row and a young load of the open row. *)
Definition wit_entries : list drb_entry_s :=
  [mkEntry 0 DRAM_INIT 0 0 5 0 0 0 0 true (Some 1%positive) 0 64 1 0; mkEntry 1 DRAM_INIT 0 0 6 0 0 0 0 true (Some 2%positive) 0 64 2 0;
   mkEntry 2 DRAM_INIT 0 0 5 0 0 0 0 true (Some 3%positive) 0 64 3 0].
Definition wit_type (e : drb_entry_s) : res Mem_Req_Type := Ok (if bool_decide (en_id e = 0) then MRT_DPRF else MRT_DFETCH).

Lemma frfcfs_takes_the_best_witness :
  ∃ e rest ke, @schedule FRFCFS_schedule (λ _, Ok 5) wit_type wit_entries = Ok (e, rest) ∧ wit_entries ≡ₚ e :: rest ∧
    key_of (λ _, Ok 5) wit_type e = Ok ke ∧ ∀ x kx, x ∈ wit_entries → key_of (λ _, Ok 5) wit_type x = Ok kx → as_good_as ke kx.
Proof. apply (frfcfs_takes_the_best (λ _, Ok 5) wit_type wit_entries); [done|]. intros e _. by eexists. Defined.

(** Two requests of 64 bytes on a bus of 8. *)
Lemma bus_bandwidth_witness :
  bus_ok 8 (mkChannel 8 17) ∧ 0 ≤ 17 ∧ foldr Z.add 0 [64; 64] ≤ 8 * (17 - 0) + 8 - 8.
Proof.
  apply (bus_bandwidth 8 (mkChannel 8 0) [64; 64] (mkChannel 8 17)); [|by vm_compute].
  apply (bus_transfer 8 _ 0 64 8 (mkChannel 8 8)); try (reflexivity || lia).
  apply (bus_transfer 8 _ 9 64 17 (mkChannel 8 17)); try (reflexivity || lia). constructor.
Defined.
