(* ===== verification/MacRouter.v ===== *)
(** * The network of MacSim

    [router_c] and [router_wrapper_c] (src/IntegrationWithMacSim/src/router.cc, router.h)
    in the topologies [ring] and [mesh]: routers with input and output buffers for
    each port and virtual channel, a pipeline of five stages, and credits for the
    room of the buffers at the other end of a link. A router is known by its index in
    [m_router]; a link is such an index. A flit is in one buffer at a time, so it is a
    value that moves; packets are the requests of the store of MacDram.v. *)
From S2P Require Import Prelude Types MacDram.
#[local] Open Scope Z_scope.

(** ** Flits and credits *)
Inductive Topology := ring | mesh.
Inductive Flit_State := INIT | IB | RC | VCA | SA | ST.

#[export] Instance Topology_eq_dec : EqDecision Topology.
Proof. solve_decision. Defined.
#[export] Instance Flit_State_eq_dec : EqDecision Flit_State.
Proof. solve_decision. Defined.

(** Ports. *)
Definition LOCAL : nat := 0.
Definition LEFT : nat := 1.
Definition RIGHT : nat := 2.
Definition UP : nat := 3.
Definition DOWN : nat := 4.

(** [m_opposite_dir]; a port that is no key is added with 0. *)
Definition opposite_dir (dir : nat) : nat :=
  match dir with 1 => RIGHT | 2 => LEFT | 3 => DOWN | 4 => UP | _ => LOCAL end%nat.

(** [flit_c]; the members that are never read ([m_rc_changed], [m_vc_batch],
    [m_sw_batch]) left out. *)
Record flit_c := mkFlit {
  f_src : Z;
  f_dst : Z;
  f_dir : Z;
  f_head : bool;
  f_tail : bool;
  f_req : ptr;
  f_state : Flit_State;
  f_timestamp : Z;
  f_rdy_cycle : Z;
  f_id : Z;
}.

Definition set_f_state (s : Flit_State) (f : flit_c) : flit_c :=
  mkFlit (f_src f) (f_dst f) (f_dir f) (f_head f) (f_tail f) (f_req f) s (f_timestamp f) (f_rdy_cycle f) (f_id f).
Definition set_f_rdy (c : Z) (f : flit_c) : flit_c :=
  mkFlit (f_src f) (f_dst f) (f_dir f) (f_head f) (f_tail f) (f_req f) (f_state f) (f_timestamp f) c (f_id f).
Definition set_f_dir (d : Z) (f : flit_c) : flit_c :=
  mkFlit (f_src f) (f_dst f) d (f_head f) (f_tail f) (f_req f) (f_state f) (f_timestamp f) (f_rdy_cycle f) (f_id f).

Record credit_c := mkCredit {
  cr_rdy_cycle : Z;
  cr_port : nat;
  cr_vc : nat;
}.

(** ** Routers

    The arrays [m_input_buffer], [m_route], [m_route_fixed], [m_output_port_id],
    [m_output_vc_id], [m_output_buffer], [m_output_vc_avail] and [m_credit] have an
    element for each port and virtual channel: [vc_t] is one of each. *)
Record vc_t := mkVc {
  v_input : list flit_c;
  v_route : list (list bool);
  v_route_fixed : Z;
  v_output_port_id : Z;
  v_output_vc_id : Z;
  v_output : list flit_c;
  v_avail : bool;
  v_credit : Z;
}.

Definition set_input (l : list flit_c) (x : vc_t) : vc_t :=
  mkVc l (v_route x) (v_route_fixed x) (v_output_port_id x) (v_output_vc_id x) (v_output x) (v_avail x) (v_credit x).
Definition set_route (l : list (list bool)) (x : vc_t) : vc_t :=
  mkVc (v_input x) l (v_route_fixed x) (v_output_port_id x) (v_output_vc_id x) (v_output x) (v_avail x) (v_credit x).
Definition set_alloc (fixed port vc : Z) (x : vc_t) : vc_t :=
  mkVc (v_input x) (v_route x) fixed port vc (v_output x) (v_avail x) (v_credit x).
Definition set_output (l : list flit_c) (x : vc_t) : vc_t :=
  mkVc (v_input x) (v_route x) (v_route_fixed x) (v_output_port_id x) (v_output_vc_id x) l (v_avail x) (v_credit x).
Definition set_avail (b : bool) (x : vc_t) : vc_t :=
  mkVc (v_input x) (v_route x) (v_route_fixed x) (v_output_port_id x) (v_output_vc_id x) (v_output x) b (v_credit x).
Definition set_credit (n : Z) (x : vc_t) : vc_t :=
  mkVc (v_input x) (v_route x) (v_route_fixed x) (v_output_port_id x) (v_output_vc_id x) (v_output x) (v_avail x) n.

Record router_c := mkRouter {
  r_id : Z;
  r_link : list (option nat);
  r_injection : list ptr;
  r_req : list ptr;
  r_sw_avail : list Z;
  r_link_avail : list Z;
  r_pending : list credit_c;
  r_cycle : Z;
  r_next_vc : Z;
}.

Definition set_id (id : Z) (r : router_c) : router_c :=
  mkRouter id (r_link r) (r_injection r) (r_req r) (r_sw_avail r) (r_link_avail r) (r_pending r) (r_cycle r) (r_next_vc r).
Definition set_links (l : list (option nat)) (r : router_c) : router_c :=
  mkRouter (r_id r) l (r_injection r) (r_req r) (r_sw_avail r) (r_link_avail r) (r_pending r) (r_cycle r) (r_next_vc r).
Definition set_injection (l : list ptr) (r : router_c) : router_c :=
  mkRouter (r_id r) (r_link r) l (r_req r) (r_sw_avail r) (r_link_avail r) (r_pending r) (r_cycle r) (r_next_vc r).
Definition set_req (l : list ptr) (r : router_c) : router_c :=
  mkRouter (r_id r) (r_link r) (r_injection r) l (r_sw_avail r) (r_link_avail r) (r_pending r) (r_cycle r) (r_next_vc r).
Definition set_switch (sw link : list Z) (r : router_c) : router_c :=
  mkRouter (r_id r) (r_link r) (r_injection r) (r_req r) sw link (r_pending r) (r_cycle r) (r_next_vc r).
Definition set_credits (l : list credit_c) (r : router_c) : router_c :=
  mkRouter (r_id r) (r_link r) (r_injection r) (r_req r) (r_sw_avail r) (r_link_avail r) l (r_cycle r) (r_next_vc r).
Definition set_clock (c next : Z) (r : router_c) : router_c :=
  mkRouter (r_id r) (r_link r) (r_injection r) (r_req r) (r_sw_avail r) (r_link_avail r) (r_pending r) c next.

(** The routers, and the [vc_t] of each router, port and virtual channel. *)
Record router_wrapper_c := mkNet {
  n_routers : list router_c;
  n_vcs : gmap (nat * nat * nat) vc_t;
}.

Definition router_at (i : nat) (n : router_wrapper_c) : res router_c := vec_at (n_routers n) i.
Definition set_router (i : nat) (r : router_c) (n : router_wrapper_c) : router_wrapper_c :=
  mkNet (<[i := r]> (n_routers n)) (n_vcs n).
Definition vc_at (i port vc : nat) (n : router_wrapper_c) : res vc_t := of_option Undefined (n_vcs n !! (i, port, vc)).
Definition on_vc (i port vc : nat) (f : vc_t → vc_t) (n : router_wrapper_c) : res router_wrapper_c :=
  x ← vc_at i port vc n;
  Ok (mkNet (n_routers n) (<[(i, port, vc) := f x]> (n_vcs n))).
Definition on_router (i : nat) (f : router_c → router_c) (n : router_wrapper_c) : res router_wrapper_c :=
  r ← router_at i n;
  Ok (set_router i (f r) n).

(** [m_link[port]], dereferenced. *)
Definition link_at (i port : nat) (n : router_wrapper_c) : res nat :=
  r ← router_at i n;
  o ← vec_at (r_link r) port;
  of_option Undefined o.

(** The knobs of network.param.def the routers read; [num_vc] as a count, and whether
    the build has GPU_VALIDATION. *)
Record Noc_Knobs := mkNoc {
  noc_topology : Topology;
  noc_dimension : Z;
  num_vc : nat;
  link_latency : Z;
  link_width : Z;
  arbitration_policy : Z;
  ideal_noc : bool;
  ideal_noc_latency : Z;
  use_zero_latency_noc : bool;
  gpu_validation : bool;
  use_rr_for_noc_insertion : bool;
}.

Definition NOC_NEW_WITH_DATA : Z := 3.
Definition OLDEST_FIRST : Z := 0.
Definition injection_buffer_max_size : nat := 32.
Definition buffer_max_size : Z := 10.

Definition num_port (k : Noc_Knobs) : nat := match noc_topology k with ring => 3 | mesh => 5 end.
Definition ports (k : Noc_Knobs) : list nat := seq 0 (num_port k).
Definition vcs (k : Noc_Knobs) : list nat := seq 0 (num_vc k).

(** ** Construction *)

(** A [vc_t] of a new router. *)
Definition new_vc (k : Noc_Knobs) : vc_t :=
  mkVc [] (replicate 2 (replicate (num_port k) false)) (-1) (-1) (-1) [] true 10.

(** [router_c::router_c]. [m_cycle] is not set: [unset] is what the memory holds. *)
Definition router_ctor (k : Noc_Knobs) (unset : Z) (id : Z) : res router_c :=
  _ ← assert_ (match noc_topology k with
               | ring => bool_decide (noc_dimension k = 1 ∧ (2 ≤ num_vc k)%nat)
               | mesh => bool_decide (noc_dimension k = 2 ∧ (1 ≤ num_vc k)%nat)
               end);
  Ok (mkRouter id (replicate 5 None) [] [] (replicate (num_port k) 0) (replicate (num_port k) 0) [] unset 0).

(** The indices of the arrays of router [i]. *)
Definition vc_keys (k : Noc_Knobs) (i : nat) : list (nat * nat * nat) :=
  port ← ports k; vc ← vcs k; [(i, port, vc)].

(** [router_wrapper_c::create_router]; [init] creates the dummy routers likewise. [unset i]
    is what the memory of router [i] holds where its clock is. *)
Definition create_router (k : Noc_Knobs) (unset : nat → Z) (n : router_wrapper_c) : res router_wrapper_c :=
  let i := length (n_routers n) in
  r ← router_ctor k (unset i) (Z.of_nat i);
  Ok (mkNet (n_routers n ++ [r]) (foldr (λ key, <[key := new_vc k]>) (n_vcs n) (vc_keys k i))).

Definition set_link (i dir : nat) (link : nat) (n : router_wrapper_c) : res router_wrapper_c :=
  r ← router_at i n;
  l ← vec_set (r_link r) dir (Some link);
  Ok (set_router i (set_links l r) n).

(** [init_ring]; the map that is printed to a string and read back is the identity; of
    no routers it is read back as that of one. The remainders are those of [int]. *)
Definition init_ring (n : router_wrapper_c) : res router_wrapper_c :=
  let num := length (n_routers n) in
  _ ← assert_ (bool_decide (num ≠ 0%nat));
  foldM (seq 0 num) n (λ i n,
    n ← set_link i LEFT ((i + num - 1) mod num) n;
    n ← set_link i RIGHT ((i + 1) mod num) n;
    on_router i (set_id (Z.of_nat i)) n).

(** The places of the routers in the mesh: the array [mapping], filled from the
    front; there is no room for more than [m_num_router]. *)
Definition mesh_mapping (large small l3 mc num : nat) : res (list nat) :=
  let start_index := (large + small)%nat in
  let end_index := (start_index + l3 + mc)%nat in
  let m := seq 0 large ++ (if bool_decide (large = 0%nat) then seq large small else [])
    ++ seq start_index (l3 + mc) ++ (if bool_decide (large ≠ 0%nat) then seq large small else [])
    ++ seq end_index (num - end_index) in
  if decide (length m ≤ num)%nat then Ok m else Err Undefined.

(** [init_mesh]. *)
Definition init_mesh (mapping : list nat) (n : router_wrapper_c) : res router_wrapper_c :=
  let num := length (n_routers n) in
  let width := Nat.sqrt num in
  let link dir i j n := a ← vec_at mapping i; b ← vec_at mapping j; set_link a dir b n in
  foldM (seq 0 num) n (λ i n,
    n ← (if decide (0 < i / width)%nat then link UP i (i - width)%nat n else Ok n);
    n ← (if decide (i / width + 1 < width)%nat then link DOWN i (i + width)%nat n else Ok n);
    n ← (if decide (i mod width ≠ 0)%nat then link LEFT i (i - 1)%nat n else Ok n);
    n ← (if decide (i mod width ≠ width - 1)%nat then link RIGHT i (i + 1)%nat n else Ok n);
    a ← vec_at mapping i;
    on_router a (set_id (Z.of_nat i)) n).

(** [init] adds routers until a mesh is square. *)
Definition square_up (k : Noc_Knobs) (unset : nat → Z) (n : router_wrapper_c) : res router_wrapper_c :=
  let num := length (n_routers n) in
  let width := Nat.sqrt num in
  if decide (width * width = num)%nat then Ok n
  else foldM (seq 0 ((width + 1) * (width + 1) - num)) n (λ _, create_router k unset).

(** [router_wrapper_c::init]; [large], [small], [l3] and [mc] are the knobs of the mapping. *)
Definition net_init (k : Noc_Knobs) (large small l3 mc : nat) (unset : nat → Z) (n : router_wrapper_c) : res router_wrapper_c :=
  match noc_topology k with
  | ring => init_ring n
  | mesh =>
      n ← square_up k unset n;
      m ← mesh_mapping large small l3 mc (length (n_routers n));
      init_mesh m n
  end.

(** ** The network interface *)

(** [inject_packet], with [insert_into_router_req_buffer] of the network without latency. *)
Definition inject_packet (k : Noc_Knobs) (h : gmap ptr mem_req_s) (i : nat) (p : ptr) (n : router_wrapper_c) : res (bool * router_wrapper_c) :=
  if use_zero_latency_noc k then
    r ← of_option Undefined (h !! p);
    _ ← (if decide (mr_msg_dst r < 0) then Err Undefined else Ok tt);
    n ← on_router (Z.to_nat (mr_msg_dst r)) (λ t, set_req (r_req t ++ [p]) t) n;
    Ok (true, n)
  else
    t ← router_at i n;
    if decide (length (r_injection t) < injection_buffer_max_size)%nat
    then Ok (true, set_router i (set_injection (r_injection t ++ [p]) t) n)
    else Ok (false, n).

Definition receive_req (i : nat) (n : router_wrapper_c) : res (option ptr) :=
  t ← router_at i n; Ok (head (r_req t)).

Definition pop_req (i : nat) (n : router_wrapper_c) : res router_wrapper_c :=
  t ← router_at i n;
  if decide (r_req t = []) then Err Undefined else Ok (set_router i (set_req (tail (r_req t)) t) n).

(** [insert_packet] and [insert_credit], called on the router at the end of a link. *)
Definition insert_packet (f : flit_c) (port vc i : nat) : router_wrapper_c → res router_wrapper_c :=
  on_vc i port vc (λ x, set_input (v_input x ++ [set_f_state IB f]) x).
Definition insert_credit (c : credit_c) (i : nat) : router_wrapper_c → res router_wrapper_c :=
  on_router i (λ t, set_credits (r_pending t ++ [c]) t).

(** The flits of a packet. *)
Definition num_flits (k : Noc_Knobs) (r : mem_req_s) : res Z :=
  if bool_decide (mr_msg_type r = NOC_NEW_WITH_DATA ∨ mr_msg_type r = NOC_FILL) then
    if decide (u32 (link_width k) = 0) then Err Undefined else Ok (int (1 + mr_size r / u32 (link_width k)))
  else Ok 1.

Definition make_flits (r : mem_req_s) (p : ptr) (cycle : Z) (num : Z) : list flit_c :=
  (λ j, mkFlit (mr_msg_src r) (mr_msg_dst r) (-1) (bool_decide (j = 0%nat)) (bool_decide (Z.of_nat j = num - 1)) p IB cycle cycle (Z.of_nat j))
    <$> seq 0 (Z.to_nat num).

(** The channel that is tried as the [ii]th; in the build for validation the first
    one changes ([m_next_vc]). *)
Definition insertion_vc (k : Noc_Knobs) (t : router_c) (ii : nat) : nat :=
  if gpu_validation k then ((Z.to_nat (r_next_vc t) + ii) mod num_vc k)%nat else ii.
Definition advance_vc (k : Noc_Knobs) (last : nat) (t : router_c) : router_c :=
  if gpu_validation k && use_rr_for_noc_insertion k
  then set_clock (r_cycle t) (Z.of_nat ((insertion_vc k t last + 1) mod num_vc k)%nat) t else t.

(** One turn of the loop of [local_packet_injection]: whether a request went in. *)
Definition inject_one (k : Noc_Knobs) (h : gmap ptr mem_req_s) (i : nat) (n : router_wrapper_c) : res (bool * router_wrapper_c) :=
  t ← router_at i n;
  p ← vec_front (r_injection t);
  r ← of_option Undefined (h !! p);
  num ← num_flits k r;
  let num := if ideal_noc k then 1 else num in
  o ← forM (vcs k) tt (λ ii _,
    x ← vc_at i LOCAL (insertion_vc k t ii) n;
    Ok (if bool_decide (u64 (Z.of_nat (length (v_input x)) + num) ≤ buffer_max_size) then Stop tt ii else Next tt));
  match o with
  | Stop _ ii =>
      n ← on_vc i LOCAL (insertion_vc k t ii) (λ x, set_input (v_input x ++ make_flits r p (r_cycle t) num) x) n;
      n ← on_router i (λ t, advance_vc k ii (set_injection (tail (r_injection t)) t)) n;
      Ok (true, n)
  | Next _ =>
      n ← (if decide (num_vc k = 0%nat) then Ok n else on_router i (advance_vc k (num_vc k - 1)%nat) n);
      Ok (false, n)
  end.

(** Each turn that does not end the loop takes a request out of the buffer. *)
Fixpoint inject_loop (k : Noc_Knobs) (h : gmap ptr mem_req_s) (i : nat) (fuel : nat) (n : router_wrapper_c) : res router_wrapper_c :=
  match fuel with
  | 0%nat => Ok n
  | S fuel =>
      t ← router_at i n;
      if decide (r_injection t = []) then Ok n
      else
        bn ← inject_one k h i n;
        if bn.1 : bool then inject_loop k h i fuel bn.2 else Ok bn.2
  end.

Definition local_packet_injection (k : Noc_Knobs) (h : gmap ptr mem_req_s) (i : nat) (n : router_wrapper_c) : res router_wrapper_c :=
  t ← router_at i n;
  inject_loop k h i (length (r_injection t)) n.

(** ** RC: route calculation *)
Definition set_bit (port : nat) (l : list bool) : res (list bool) := vec_set l port true.

(** The ports that lead to [dst] in the mesh: of the adaptive and of the escape routing. *)
Definition mesh_ports (width id dst : Z) : list nat * list nat :=
  let x_src := Z.rem id width in let y_src := Z.quot id width in
  let x_dst := Z.rem dst width in let y_dst := Z.quot dst width in
  let x := if bool_decide (x_dst < x_src) then [LEFT] else if bool_decide (x_src < x_dst) then [RIGHT] else [] in
  let y := if bool_decide (y_dst < y_src) then [UP] else if bool_decide (y_src < y_dst) then [DOWN] else [] in
  (x ++ y, match x with [] => y | _ => x end).

(** The direction of the shorter way round the ring. *)
Definition ring_dir (total id dst : Z) : nat :=
  let '(to_left, to_right) := if bool_decide (dst < id) then (id - dst, dst - id + total) else (id - dst + total, dst - id) in
  if bool_decide (to_left < to_right) then LEFT else RIGHT.

(** The route of a header and its new direction, [None] for the routes that stay. *)
Definition route_of (k : Noc_Knobs) (total id : Z) (f : flit_c) : res (list nat * option (list nat) * Z) :=
  match noc_topology k with
  | mesh =>
      if bool_decide (f_dst f = id) then Ok ([LOCAL], Some [LOCAL], f_dir f)
      else if bool_decide (total ≤ 0) then Err Undefined
      else let ps := mesh_ports (Z.sqrt total) id (f_dst f) in Ok (ps.1, Some ps.2, f_dir f)
  | ring =>
      if bool_decide (f_dst f = id) then Ok ([LOCAL], None, f_dir f)
      else if bool_decide (f_dir f ≠ -1) then Ok ([Z.to_nat (f_dir f)], None, f_dir f)
      else let d := ring_dir total id (f_dst f) in Ok ([d], None, Z.of_nat d)
  end.

(** [rc_mesh] and [rc_ring] for one input buffer. *)
Definition rc_one (k : Noc_Knobs) (i port vc : nat) (n : router_wrapper_c) : res router_wrapper_c :=
  t ← router_at i n;
  x ← vc_at i port vc n;
  if bool_decide (noc_topology k = ring ∧ v_route_fixed x ≠ -1) then Ok n
  else
    match v_input x with
    | [] => Ok n
    | f :: l =>
        if f_head f && bool_decide (f_state f = IB) && bool_decide (f_rdy_cycle f ≤ r_cycle t) then
          r ← route_of k (Z.of_nat (length (n_routers n))) (r_id t) f;
          r0 ← foldM r.1.1 (replicate (num_port k) false) set_bit;
          r1 ← (match r.1.2 with
                | Some ps => foldM ps (replicate (num_port k) false) set_bit
                | None => vec_at (v_route x) 1
                end);
          on_vc i port vc (λ x, set_route [r0; r1] (set_input (set_f_dir r.2 (set_f_state RC f) :: l) x)) n
        else Ok n
    end.

Definition stage_rc (k : Noc_Knobs) (i : nat) (n : router_wrapper_c) : res router_wrapper_c :=
  foldM (ports k) n (λ port n, foldM (vcs k) n (λ vc n, rc_one k i port vc n)).

(** ** Arbitration: the oldest of the flits that pass a test

    The loops over ports, but for [op], and virtual channels. *)
Definition oldest_flit (k : Noc_Knobs) (i op : nat) (test : nat → nat → vc_t → flit_c → res bool) (n : router_wrapper_c)
    : res (option (nat * nat)) :=
  best ← foldM (ports k) (ULLONG_MAX, None) (λ ii best,
    if bool_decide (ii = op) then Ok best
    else foldM (vcs k) best (λ jj best,
      x ← vc_at i ii jj n;
      match v_input x with
      | [] => Ok best
      | f :: _ =>
          b ← test ii jj x f;
          Ok (if (b : bool) && bool_decide (f_timestamp f < best.1) then (f_timestamp f, Some (ii, jj)) else best)
      end));
  Ok best.2.

(** ** VCA: allocation of a virtual channel *)

(** The test of [stage_vca_pick_winner]. The last two channels of a ring are for one
    direction of the identifiers each. *)
Definition vca_test (k : Noc_Knobs) (id : Z) (oport ovc rc_index : nat) (x : vc_t) (f : flit_c) : res bool :=
  row ← vec_at (v_route x) rc_index;
  b ← vec_at row oport;
  let skip := bool_decide (noc_topology k = ring) &&
    ((bool_decide (Z.of_nat ovc = Z.of_nat (num_vc k) - 2) && bool_decide (f_dst f < id)) ||
     (bool_decide (Z.of_nat ovc = Z.of_nat (num_vc k) - 1) && bool_decide (id < f_dst f))) in
  Ok ((b : bool) && negb skip && f_head f && bool_decide (f_state f = RC)).

Definition stage_vca_pick_winner (k : Noc_Knobs) (i oport ovc : nat) (n : router_wrapper_c) : res (option (nat * nat)) :=
  if decide (num_vc k = 1%nat) then Err Undefined
  else
    let rc_index := match noc_topology k with ring => 0 | mesh => ovc / (num_vc k - 1) end%nat in
    _ ← assert_ (bool_decide (arbitration_policy k = OLDEST_FIRST));
    t ← router_at i n;
    oldest_flit k i oport (λ _ _, vca_test k (r_id t) oport ovc rc_index) n.

(** The winner of an output channel. *)
Definition vca_grant (i oport ovc ip ivc : nat) (n : router_wrapper_c) : res router_wrapper_c :=
  x ← vc_at i ip ivc n;
  f ← vec_front (v_input x);
  n ← on_vc i ip ivc (λ x, set_alloc (Z.of_nat oport) (Z.of_nat oport) (Z.of_nat ovc) (set_input (set_f_state VCA f :: tail (v_input x)) x)) n;
  on_vc i oport ovc (set_avail false) n.

Definition vca_one (k : Noc_Knobs) (i oport ovc : nat) (n : router_wrapper_c) : res router_wrapper_c :=
  x ← vc_at i oport ovc n;
  if v_avail x then
    w ← stage_vca_pick_winner k i oport ovc n;
    match w with
    | Some (ip, ivc) => vca_grant i oport ovc ip ivc n
    | None => Ok n
    end
  else Ok n.

(** The network without contention: the front flit goes on at once. *)
Definition ideal_one (k : Noc_Knobs) (i ip ivc : nat) (n : router_wrapper_c) : res router_wrapper_c :=
  t ← router_at i n;
  x ← vc_at i ip ivc n;
  match v_input x with
  | [] => Ok n
  | f :: l =>
      if bool_decide (f_state f ≠ RC) || bool_decide (r_cycle t < u64 (f_timestamp f + ideal_noc_latency k)) then Ok n
      else
        row ← vec_at (v_route x) 0;
        match list_find (λ b, b = true) row with
        | None => Err Abort
        | Some (port, _) =>
            n ← (if bool_decide (port = LOCAL) then Ok n
                 else
                   j ← link_at i port n;
                   insert_packet (set_f_rdy (u64 (r_cycle t + 1)) f) (opposite_dir port) ivc j n);
            n ← on_vc i ip ivc (λ x, set_input (tail (v_input x)) x) n;
            if f_tail f && bool_decide (port = LOCAL) then on_router i (λ t, set_req (r_req t ++ [f_req f]) t) n else Ok n
        end
  end.

Definition stage_vca (k : Noc_Knobs) (i : nat) (n : router_wrapper_c) : res router_wrapper_c :=
  foldM (ports k) n (λ port n, foldM (vcs k) n (λ vc n,
    if ideal_noc k then ideal_one k i port vc n else vca_one k i port vc n)).

(** ** SA: allocation of the switch *)
Definition sa_test (op : nat) (x : vc_t) (f : flit_c) : res bool :=
  Ok (bool_decide (v_route_fixed x = Z.of_nat op) && bool_decide (v_output_port_id x = Z.of_nat op) &&
      ((f_head f && bool_decide (f_state f = VCA)) || (negb (f_head f) && bool_decide (f_state f = IB)))).

(** Without the policy that is known the winner is not set. *)
Definition stage_sa_pick_winner (k : Noc_Knobs) (i op : nat) (n : router_wrapper_c) : res (option (nat * nat)) :=
  if bool_decide (arbitration_policy k = OLDEST_FIRST) then oldest_flit k i op (λ _ _, sa_test op) n else Err Undefined.

Definition sa_one (k : Noc_Knobs) (i op : nat) (n : router_wrapper_c) : res router_wrapper_c :=
  t ← router_at i n;
  sw ← vec_at (r_sw_avail t) op;
  if bool_decide (sw ≤ r_cycle t) then
    w ← stage_sa_pick_winner k i op n;
    match w with
    | Some (ip, ivc) =>
        x ← vc_at i ip ivc n;
        f ← vec_front (v_input x);
        n ← on_vc i ip ivc (λ x, set_input (set_f_state SA f :: tail (v_input x)) x) n;
        sw ← vec_set (r_sw_avail t) op (u64 (r_cycle t + 1));
        on_router i (λ t, set_switch sw (r_link_avail t) t) n
    | None => Ok n
    end
  else Ok n.

Definition stage_sa (k : Noc_Knobs) (i : nat) (n : router_wrapper_c) : res router_wrapper_c :=
  foldM (ports k) n (sa_one k i).

(** ** ST: traversal of the switch *)
Definition st_ready (op : nat) (x : vc_t) : bool :=
  bool_decide (v_route_fixed x = Z.of_nat op) && bool_decide (v_output_port_id x = Z.of_nat op) &&
  match v_input x with [] => false | f :: _ => bool_decide (f_state f = SA) end.

(** The first channel of the last port with a flit for [op]: [break] leaves the inner loop only. *)
Definition st_pick (k : Noc_Knobs) (i op : nat) (n : router_wrapper_c) : res (option (nat * nat)) :=
  foldM (ports k) None (λ ii w,
    if bool_decide (ii = op) then Ok w
    else
      o ← forM (vcs k) tt (λ jj _, x ← vc_at i ii jj n; Ok (if st_ready op x then Stop tt jj else Next tt));
      Ok (match o with Stop _ jj => Some (ii, jj) | Next _ => w end)).

Definition st_move (i op ip ivc : nat) (n : router_wrapper_c) : res router_wrapper_c :=
  t ← router_at i n;
  x ← vc_at i ip ivc n;
  f ← vec_front (v_input x);
  _ ← (if decide (v_output_vc_id x < 0) then Err Undefined else Ok tt);
  n ← on_vc i op (Z.to_nat (v_output_vc_id x)) (λ y, set_output (v_output y ++ [set_f_state ST f]) y) n;
  n ← on_vc i ip ivc (λ x, set_input (tail (v_input x)) x) n;
  n ← (if f_tail f then on_vc i ip ivc (set_alloc (-1) (-1) (-1)) n else Ok n);
  if bool_decide (ip = LOCAL) then Ok n
  else
    j ← link_at i ip n;
    insert_credit (mkCredit (u64 (r_cycle t + 1)) (opposite_dir ip) ivc) j n.

Definition st_one (k : Noc_Knobs) (i op : nat) (n : router_wrapper_c) : res router_wrapper_c :=
  w ← st_pick k i op n;
  match w with
  | Some (ip, ivc) => st_move i op ip ivc n
  | None => Ok n
  end.

Definition stage_st (k : Noc_Knobs) (i : nat) (n : router_wrapper_c) : res router_wrapper_c :=
  foldM (ports k) n (st_one k i).

(** ** LT: traversal of the link *)

(** The first output channel, from one that changes with the cycle, that has a flit and a credit. *)
Definition lt_pick (k : Noc_Knobs) (i port : nat) (n : router_wrapper_c) : res (option (nat * flit_c)) :=
  t ← router_at i n;
  o ← forM (vcs k) tt (λ d _,
    let ii := Z.to_nat (u64 (Z.of_nat d + r_cycle t) `mod` Z.of_nat (num_vc k)) in
    x ← vc_at i port ii n;
    match v_output x with
    | [] => Ok (Next tt)
    | f :: _ =>
        if bool_decide (v_credit x = 0) then Ok (Next tt)
        else
          _ ← assert_ (bool_decide (f_state f = ST));
          Ok (if bool_decide (f_timestamp f < ULLONG_MAX) then Stop tt (ii, f) else Next tt)
    end);
  Ok (match o with Stop _ vf => Some vf | Next _ => None end).

Definition lt_move (k : Noc_Knobs) (i port vc : nat) (f : flit_c) (n : router_wrapper_c) : res router_wrapper_c :=
  t ← router_at i n;
  n ← (if bool_decide (port = LOCAL) then Ok n
       else
         j ← link_at i port n;
         n ← insert_packet (set_f_rdy (u64 (r_cycle t + link_latency k + 1)) f) (opposite_dir port) vc j n;
         la ← vec_set (r_link_avail t) port (u64 (r_cycle t + link_latency k));
         on_router i (λ t, set_switch (r_sw_avail t) la t) n);
  n ← on_vc i port vc (λ x, set_output (tail (v_output x)) x) n;
  n ← (if bool_decide (port = LOCAL) then Ok n else on_vc i port vc (λ x, set_credit (int (v_credit x - 1)) x) n);
  if f_tail f then
    n ← on_vc i port vc (set_avail true) n;
    if bool_decide (port = LOCAL) then on_router i (λ t, set_req (r_req t ++ [f_req f]) t) n else Ok n
  else Ok n.

(** A link that is busy ends the loop, in the build for validation it is passed over. *)
Definition lt_one (k : Noc_Knobs) (i port : nat) (n : router_wrapper_c) : res (flow router_wrapper_c unit) :=
  t ← router_at i n;
  la ← vec_at (r_link_avail t) port;
  if bool_decide (r_cycle t < la) then Ok (if gpu_validation k then Next n else Stop n tt)
  else
    w ← lt_pick k i port n;
    match w with
    | Some (vc, f) => n ← lt_move k i port vc f n; Ok (Next n)
    | None => Ok (Next n)
    end.

Definition stage_lt (k : Noc_Knobs) (i : nat) (n : router_wrapper_c) : res router_wrapper_c :=
  o ← forM (ports k) n (lt_one k i);
  Ok (match o with Next n => n | Stop n _ => n end).

(** ** A cycle *)

(** [process_pending_credit]; [CYCLE] is the clock of the simulation, not the router's. *)
Definition process_pending_credit (CYCLE : Z) (i : nat) (n : router_wrapper_c) : res router_wrapper_c :=
  t ← router_at i n;
  n ← foldM (filter (λ c, cr_rdy_cycle c ≤ CYCLE) (r_pending t)) n (λ c,
    on_vc i (cr_port c) (cr_vc c) (λ x, set_credit (int (v_credit x + 1)) x));
  on_router i (set_credits (filter (λ c, CYCLE < cr_rdy_cycle c) (r_pending t))) n.

(** [router_c::run_a_cycle]. *)
Definition router_cycle (k : Noc_Knobs) (h : gmap ptr mem_req_s) (CYCLE : Z) (i : nat) (n : router_wrapper_c) : res router_wrapper_c :=
  n ← (if ideal_noc k then n ← stage_vca k i n; n ← stage_rc k i n; local_packet_injection k h i n
       else
         n ← process_pending_credit CYCLE i n;
         n ← stage_lt k i n;
         n ← stage_st k i n;
         n ← stage_sa k i n;
         n ← stage_vca k i n;
         n ← stage_rc k i n;
         local_packet_injection k h i n);
  on_router i (λ t, set_clock (u64 (r_cycle t + 1)) (r_next_vc t) t) n.

(** [router_wrapper_c::run_a_cycle]: every router once, from one that changes with the cycle. *)
Definition net_cycle (k : Noc_Knobs) (h : gmap ptr mem_req_s) (CYCLE : Z) (n : router_wrapper_c) : res router_wrapper_c :=
  let num := length (n_routers n) in
  if decide (num = 0%nat) then Err Undefined
  else
    let index := Z.to_nat (CYCLE `mod` Z.of_nat num) in
    foldM (seq index num) n (λ ii, router_cycle k h CYCLE (ii mod num)%nat).
