(* ===== verification/MacRouterLaws.v ===== *)
(** * Invariants of MacSim's network

    The state of a network in which packets travel flit by flit (MacRouter.v): which
    packet each virtual channel is in the middle of, who has allocated it, and how
    many flits a buffer may still get. [wired] is what the topologies give; every
    step of a router keeps [net_inv]. *)
From S2P Require Import Prelude Types MacDram MacRouter.
#[local] Open Scope Z_scope.

Abbreviation key := (nat * nat * nat)%type.

(** ** Streams of flits

    What a channel carries is a sequence of packets, each a header, other flits with
    the same destination and a last flit. [chain c l] reads [l] when the packet to [c]
    is under way, and gives what is under way after it. *)
Definition after (f : flit_c) : option Z := if f_tail f then None else Some (f_dst f).
Definition follows (c : option Z) (f : flit_c) : bool :=
  match c with None => f_head f | Some d => negb (f_head f) && bool_decide (f_dst f = d) end.
Fixpoint chain (c : option Z) (l : list flit_c) : option (option Z) :=
  match l with
  | [] => Some c
  | f :: l => if follows c f then chain (after f) l else None
  end.

Lemma chain_app c l l' : chain c (l ++ l') = chain c l ≫= λ c', chain c' l'.
Proof. revert c. induction l as [|f l IH]; intros c; simpl; [done|]. destruct (follows c f); [apply IH|done]. Qed.

(** The state of a flit does not matter for this. *)
Definition shape (f : flit_c) : bool * bool * Z * ptr := (f_head f, f_tail f, f_dst f, f_req f).

Lemma chain_shape c l l' : shape <$> l = shape <$> l' → chain c l = chain c l'.
Proof.
  revert c l'. induction l as [|f l IH]; intros c [|f' l'] E; [done|done|done|]. cbn in E. injection E as Eh Et Ed _ E. simpl.
  assert (follows c f = follows c f') as -> by (unfold follows; by rewrite Eh, Ed).
  assert (after f = after f') as -> by (unfold after; by rewrite Et, Ed). destruct (follows c f'); [by apply IH|done].
Qed.

(** A packet as the interface makes it. *)
Lemma chain_make_flits r p cycle num :
  1 ≤ num → chain None (make_flits r p cycle num) = Some None.
Proof.
  intros Hn. unfold make_flits. set (mk := λ j, mkFlit _ _ _ _ _ _ _ _ _ _).
  assert (∀ m j, (Z.of_nat j + Z.of_nat m + 1 = num) → chain (if decide (j = 0%nat) then None else Some (mr_msg_dst r)) (mk <$> seq j (S m)) = Some None) as H.
  { induction m as [|m IH]; intros j Hj; cbn [seq fmap list_fmap chain].
    - assert (follows _ (mk j) = true) as -> by (unfold follows, mk; simpl; destruct (decide (j = 0%nat)) as [->|?]; simpl; [done|rewrite !bool_decide_false, bool_decide_true by done; done]).
      unfold after, mk. simpl. by rewrite bool_decide_true by lia.
    - assert (follows _ (mk j) = true) as -> by (unfold follows, mk; simpl; destruct (decide (j = 0%nat)) as [->|?]; simpl; [done|rewrite !bool_decide_false, bool_decide_true by done; done]).
      assert (after (mk j) = Some (mr_msg_dst r)) as -> by (unfold after, mk; simpl; by rewrite bool_decide_false by lia).
      specialize (IH (S j) ltac:(lia)). by rewrite decide_False in IH by lia. }
  replace (Z.to_nat num) with (S (Z.to_nat num - 1)) by lia. apply (H _ 0%nat). lia.
Qed.

(** ** The wiring *)
Definition statics := list (Z * list (option nat)).
Definition static_of (R : list router_c) : statics := (λ t, (r_id t, r_link t)) <$> R.

Definition link_of (W : statics) (i port : nat) : option nat := s ← W !! i; mjoin (s.2 !! port).
Definition id_of (W : statics) (i : nat) : option Z := fst <$> W !! i.

(** [port] is a way out of router [i] for [d]: the end for its own, a link for others. *)
Definition goes_to (W : statics) (i port : nat) (d : Z) : Prop :=
  if decide (port = LOCAL) then id_of W i = Some d else is_Some (link_of W i port).

Definition flit_ok (W : statics) (f : flit_c) : Prop :=
  0 ≤ f_dst f < Z.of_nat (length W) ∧ (f_dir f = -1 ∨ f_dir f = Z.of_nat LEFT ∨ f_dir f = Z.of_nat RIGHT).

(** Links go both ways and not in a circle of one; every route that is found leads on. *)
Record wired (k : Noc_Knobs) (W : statics) : Prop := {
  wi_links i s : W !! i = Some s → length s.2 = 5%nat;
  wi_both i port j : link_of W i port = Some j →
    port ≠ LOCAL ∧ (port < num_port k)%nat ∧ j ≠ i ∧ (j < length W)%nat ∧ (opposite_dir port < num_port k)%nat ∧
    opposite_dir port ≠ LOCAL ∧ opposite_dir (opposite_dir port) = port ∧ link_of W j (opposite_dir port) = Some i;
  wi_route i id f : id_of W i = Some id → flit_ok W f →
    ∃ ps ps' d, route_of k (Z.of_nat (length W)) id f = Ok (ps, ps', d) ∧
      Forall (λ p, (p < num_port k)%nat ∧ goes_to W i p (f_dst f)) (ps ++ default [] ps') ∧
      (ps' = None → noc_topology k = ring) ∧
      (d = -1 ∨ d = Z.of_nat LEFT ∨ d = Z.of_nat RIGHT);
}.

(** The knobs of a network with its pipeline. *)
Record noc_ok (k : Noc_Knobs) : Prop := {
  no_vcs : (2 ≤ num_vc k)%nat;
  no_policy : arbitration_policy k = OLDEST_FIRST;
  no_ideal : ideal_noc k = false;
  no_latency : use_zero_latency_noc k = false;
  no_width : u32 (link_width k) ≠ 0;
}.

(** ** The invariant *)
Section inv.
Context (k : Noc_Knobs) (W : statics).

Definition input_of (V : gmap key vc_t) (x : key) : list flit_c := default [] (v_input <$> V !! x).
Definition output_of (V : gmap key vc_t) (x : key) : list flit_c := default [] (v_output <$> V !! x).

(** The output channel at the other end of the link to an input channel. *)
Definition source_of (x : key) : option key :=
  u ← link_of W x.1.1 x.1.2; Some (u, opposite_dir x.1.2, x.2).
(** What is on its way into an input channel, in the order it gets there. *)
Definition stream (V : gmap key vc_t) (x : key) : list flit_c :=
  input_of V x ++ default [] (output_of V <$> source_of x).
(** The credits that wait at router [i]. *)
Definition waiting (R : list router_c) (i port vc : nat) : Z :=
  Z.of_nat (length (filter (λ c, cr_port c = port ∧ cr_vc c = vc) (default [] (r_pending <$> R !! i)))).

(** An input channel has no packet under way and nothing allocated; or it has an
    output channel for a header that did not move, or for the rest of the packet. *)
Definition idle (i : nat) (x : vc_t) : Prop :=
  v_route_fixed x = -1 ∧ v_output_port_id x = -1 ∧ v_output_vc_id x = -1 ∧
  ∀ f, head (v_input x) = Some f → f_state f = IB ∨
    f_state f = RC ∧ ∀ row o, row ∈ v_route x → row !! o = Some true → (o < num_port k)%nat ∧ goes_to W i o (f_dst f).
Definition allocated (i port : nat) (x : vc_t) (o ov : nat) (c : option Z) : Prop :=
  v_route_fixed x = Z.of_nat o ∧ v_output_port_id x = Z.of_nat o ∧ v_output_vc_id x = Z.of_nat ov ∧
  (o < num_port k)%nat ∧ (ov < num_vc k)%nat ∧ o ≠ port ∧
  match c with
  | None => ∃ f l, v_input x = f :: l ∧ f_head f = true ∧ (f_state f = VCA ∨ f_state f = SA) ∧ goes_to W i o (f_dst f)
  | Some d => goes_to W i o d ∧ ∀ f, head (v_input x) = Some f → f_state f = IB ∨ f_state f = SA
  end.

Record vc_ok (i port : nat) (x : vc_t) (c : option Z) : Prop := {
  vo_edge : link_of W i port = None → port = LOCAL ∨ v_input x = [];
  vo_credit : 0 ≤ v_credit x ≤ 10;
  vo_route : length (v_route x) = 2%nat ∧ Forall (λ row, length row = num_port k) (v_route x);
  vo_ring row o : noc_topology k = ring → v_route x !! 1%nat = Some row → row !! o ≠ Some true;
  vo_input : Forall (flit_ok W) (v_input x);
  vo_behind : Forall (λ f, f_state f = IB) (tail (v_input x));
  vo_alloc : (idle i x ∧ c = None) ∨ ∃ o ov, allocated i port x o ov c;
}.

(** An output channel that is not taken is empty; one that is has the flits of one
    packet, and the last of them once the packet has left its input channel. *)
Record out_ok (i port : nat) (x : vc_t) (q : option key) : Prop := {
  oo_flits : Forall (λ f, f_state f = ST ∧ flit_ok W f ∧ goes_to W i port (f_dst f)) (v_output x);
  oo_free : v_avail x = true → v_output x = [] ∧ q = None;
  oo_taken : v_avail x = false →
    (is_Some q ∧ Forall (λ f, f_tail f = false) (v_output x)) ∨
    (q = None ∧ ∃ l t, v_output x = l ++ [t] ∧ f_tail t = true ∧ Forall (λ f, f_tail f = false) l);
}.

Definition owns (V : gmap key vc_t) (x : key) (o v : nat) : Prop :=
  ∃ y, V !! x = Some y ∧ v_route_fixed y = Z.of_nat o ∧ v_output_vc_id y = Z.of_nat v.

(** What is under way into an input channel, seen from the other end. *)
Definition under_way (c : key → option Z) (q : key → option key) (x : key) : option Z :=
  u ← source_of x; y ← q u; c y.

(** [c]: the packet under way in each input channel. [q]: who has each output channel. *)
Record vcs_inv (c : key → option Z) (q : key → option key) (V : gmap key vc_t) : Prop := {
  vi_keys i p v : is_Some (V !! (i, p, v)) ↔ (i < length W ∧ p < num_port k ∧ v < num_vc k)%nat;
  vi_vc i p v x : V !! (i, p, v) = Some x → vc_ok i p x (c (i, p, v));
  vi_out i p v x : V !! (i, p, v) = Some x → out_ok i p x (q (i, p, v));
  vi_owner i o v y : q (i, o, v) = Some y ↔ y.1.1 = i ∧ owns V y o v;
  vi_chain x : chain (c x) (stream V x) = Some (under_way c q x);
  vi_local i v : (length (input_of V (i, LOCAL, v)) ≤ 10)%nat;
}.

Record credits_inv (V : gmap key vc_t) (R : list router_c) : Prop := {
  ci_sum i o v j x : link_of W i o = Some j → V !! (i, o, v) = Some x →
    v_credit x + Z.of_nat (length (input_of V (j, opposite_dir o, v))) + waiting R i o v = 10;
  ci_port i t c : R !! i = Some t → c ∈ r_pending t → (cr_vc c < num_vc k)%nat ∧ is_Some (link_of W i (cr_port c));
}.

Record routers_inv (R : list router_c) : Prop := {
  ri_static : static_of R = W;
  ri_arrays t : t ∈ R → length (r_sw_avail t) = num_port k ∧ length (r_link_avail t) = num_port k ∧ 0 ≤ r_next_vc t;
}.

Definition net_inv (n : router_wrapper_c) : Prop :=
  routers_inv (n_routers n) ∧ credits_inv (n_vcs n) (n_routers n) ∧ ∃ c q, vcs_inv c q (n_vcs n).

(** ** What is where

    The last flits of the packets in the network stand for them; [mail] is where they
    go, [home] who they have got to. *)
Definition mail_of (l : list flit_c) : list (ptr * Z) := (λ f, (f_req f, f_dst f)) <$> filter (λ f, f_tail f = true) l.
Definition mail (V : gmap key vc_t) : list (ptr * Z) :=
  (map_to_list V).*2 ≫= λ x, mail_of (v_input x) ++ mail_of (v_output x).
Definition home (R : list router_c) : list (ptr * Z) := R ≫= λ t, (λ p, (p, r_id t)) <$> r_req t.
Definition posted (h : gmap ptr mem_req_s) (R : list router_c) : list (ptr * Z) :=
  R ≫= λ t, (λ p, (p, default (-1) (mr_msg_dst <$> h !! p))) <$> r_injection t.

Lemma mail_of_app l l' : mail_of (l ++ l') = mail_of l ++ mail_of l'.
Proof. unfold mail_of. by rewrite filter_app, fmap_app. Qed.

Lemma mail_of_shape l l' : shape <$> l = shape <$> l' → mail_of l = mail_of l'.
Proof.
  revert l'. induction l as [|f l IH]; intros [|f' l'] E; [done|done|done|]. cbn in E. injection E as _ Et Ed Er E.
  unfold mail_of in *. rewrite !filter_cons. rewrite Et. destruct (decide (f_tail f' = true)); [|by apply IH]. cbn. rewrite Er, Ed. f_equal. by apply IH.
Qed.

Lemma mail_update V x y y' :
  V !! x = Some y →
  mail (<[x := y']> V) ++ (mail_of (v_input y) ++ mail_of (v_output y)) ≡ₚ mail V ++ (mail_of (v_input y') ++ mail_of (v_output y')).
Proof.
  intros Hx. unfold mail. rewrite <- (insert_delete_id V x y Hx) at 2. rewrite <- insert_delete_eq.
  rewrite !map_to_list_insert by apply lookup_delete_eq. simpl. solve_Permutation.
Qed.
End inv.
