(* ===== verification/MacRouterMoves.v ===== *)
(** * The moves of MacSim's network keep its invariant

    One lemma for each way the buffers of the network (MacRouter.v) change: a flit
    that changes its state, the grant of an output channel, a flit over the switch,
    over a link, out of the network, a packet into it. The invariants are those of
    MacRouterLaws.v. *)
From stdpp Require Import functions.
From S2P Require Import Prelude Types MacDram MacRouter MacRouterLaws.
#[local] Open Scope Z_scope.

Section moves.
Context (k : Noc_Knobs) (W : statics) (HW : wired k W).
Implicit Types (c : key → option Z) (q : key → option key) (V : gmap key vc_t).

(** ** Wiring *)
Lemma link_local i : link_of W i LOCAL = None.
Proof. destruct (link_of W i LOCAL) eqn:E; [|done]. by destruct (wi_both k W HW i LOCAL _ E) as [? _]. Qed.

Lemma source_far x u : source_of W x = Some u → u.1.1 ≠ x.1.1 ∧ u.1.2 ≠ LOCAL.
Proof.
  destruct x as [[i p] v]. unfold source_of. simpl. destruct (link_of W i p) as [j|] eqn:E; [|done]. intros [= <-]. simpl.
  destruct (wi_both k W HW i p j E) as (_ & _ & ? & _ & _ & ? & _). done.
Qed.

(** The input channel at the end of a link is fed by no other. *)
Lemma source_unique i o v j x :
  link_of W i o = Some j → source_of W x = Some (i, o, v) ↔ x = (j, opposite_dir o, v).
Proof.
  intros Hl. destruct (wi_both k W HW i o j Hl) as (_ & _ & _ & _ & _ & _ & Hopp & Hback). destruct x as [[a p] w]. unfold source_of. simpl. split.
  - destruct (link_of W a p) as [u|] eqn:E; [|done]. intros [= -> Ho ->].
    destruct (wi_both k W HW a p i E) as (_ & _ & _ & _ & _ & _ & Hopp' & Hback'). subst o. rewrite Hback' in Hl. injection Hl as <-. by rewrite Hopp'.
  - intros [= -> -> ->]. rewrite Hback. simpl. by rewrite Hopp.
Qed.

(** ** Lookups *)
Lemma input_insert V x y x' : input_of (<[x := y]> V) x' = if decide (x' = x) then v_input y else input_of V x'.
Proof. unfold input_of. case_decide; [subst; by rewrite lookup_insert_eq|by rewrite lookup_insert_ne]. Qed.
Lemma output_insert V x y x' : output_of (<[x := y]> V) x' = if decide (x' = x) then v_output y else output_of V x'.
Proof. unfold output_of. case_decide; [subst; by rewrite lookup_insert_eq|by rewrite lookup_insert_ne]. Qed.
Lemma input_at V x y : V !! x = Some y → input_of V x = v_input y.
Proof. unfold input_of. by intros ->. Qed.
Lemma output_at V x y : V !! x = Some y → output_of V x = v_output y.
Proof. unfold output_of. by intros ->. Qed.

Lemma keys_insert V x y y' x' : V !! x = Some y → is_Some (<[x := y']> V !! x') ↔ is_Some (V !! x').
Proof.
  intros Hx. destruct (decide (x' = x)) as [->|?]; [rewrite lookup_insert_eq, Hx; split; eauto|by rewrite lookup_insert_ne].
Qed.

(** What the parts of the invariant look at. *)
Lemma vc_ok_other i p x x' (d : option Z) :
  v_input x' = v_input x → v_route x' = v_route x → v_route_fixed x' = v_route_fixed x → v_output_port_id x' = v_output_port_id x →
  v_output_vc_id x' = v_output_vc_id x → 0 ≤ v_credit x' ≤ 10 → vc_ok k W i p x d → vc_ok k W i p x' d.
Proof.
  intros E1 E2 E3 E4 E5 Hc [H1 H2 H3 H4 H5 H6 H7].
  split; rewrite ?E1, ?E2; try done. destruct H7 as [[Hi ->]|(o & ov & Ha)]; [left|right; exists o, ov].
  - split; [|done]. unfold idle in *. by rewrite E1, E2, E3, E4, E5.
  - unfold allocated in *. by rewrite E1, E3, E4, E5.
Qed.

Lemma out_ok_other i p x x' (o : option key) : v_output x' = v_output x → v_avail x' = v_avail x → out_ok W i p x o → out_ok W i p x' o.
Proof. intros E1 E2 [H1 H2 H3]. split; by rewrite ?E1, ?E2. Qed.

(** An owner has one output channel. *)
Lemma owner_at c q V i p v x o ov y :
  vcs_inv k W c q V → V !! (i, p, v) = Some x → allocated k W i p x o ov y → q (i, o, ov) = Some (i, p, v).
Proof. intros HI Hx (E1 & _ & E3 & _). apply (vi_owner _ _ _ _ _ HI). split; [done|]. by exists x. Qed.

Lemma owns_insert V x y x' o v :
  owns (<[x := y]> V) x' o v ↔
  if decide (x' = x) then v_route_fixed y = Z.of_nat o ∧ v_output_vc_id y = Z.of_nat v else owns V x' o v.
Proof.
  unfold owns. case_decide as E; [subst; rewrite lookup_insert_eq|by rewrite lookup_insert_ne].
  split; [by intros (z & [= <-] & ?)|intros ?; by exists y].
Qed.

Lemma owns_same V x y y' x' o v :
  V !! x = Some y → v_route_fixed y' = v_route_fixed y → v_output_vc_id y' = v_output_vc_id y →
  owns (<[x := y']> V) x' o v ↔ owns V x' o v.
Proof.
  intros Hx E1 E2. rewrite owns_insert. case_decide as E; [subst|done]. unfold owns. rewrite Hx, E1, E2.
  split; [intros ?; by exists y|by intros (z & [= <-] & ?)].
Qed.

Lemma owns_one V x y o v o' v' :
  V !! x = Some y → v_route_fixed y = Z.of_nat o → v_output_vc_id y = Z.of_nat v → owns V x o' v' → o' = o ∧ v' = v.
Proof. intros Hx E1 E2 (z & Hz & F1 & F2). assert (z = y) as -> by congruence. lia. Qed.

(** ** A channel that changes within *)
Lemma vcs_touch c q V i p v y y' :
  vcs_inv k W c q V → V !! (i, p, v) = Some y →
  shape <$> v_input y' = shape <$> v_input y → v_route_fixed y' = v_route_fixed y → v_output_vc_id y' = v_output_vc_id y →
  v_output y' = v_output y → v_avail y' = v_avail y → vc_ok k W i p y' (c (i, p, v)) →
  vcs_inv k W c q (<[(i, p, v) := y']> V).
Proof.
  intros [K1 K2 K3 K4 K5 K6] Hy Es E1 E2 E3 E4 Hok.
  assert (∀ x, shape <$> input_of (<[(i, p, v) := y']> V) x = shape <$> input_of V x) as Hin.
  { intros x. rewrite input_insert. case_decide; [subst; by rewrite (input_at _ _ _ Hy)|done]. }
  assert (∀ x, output_of (<[(i, p, v) := y']> V) x = output_of V x) as Hout.
  { intros x. rewrite output_insert. case_decide; [subst; by rewrite (output_at _ _ _ Hy)|done]. }
  split.
  - intros a b w. rewrite (keys_insert _ _ _ _ _ Hy). apply K1.
  - intros a b w x [[E <-]|[_ Hx]]%lookup_insert_Some; [by injection E as <- <- <-|by apply K2].
  - intros a b w x [[E <-]|[_ Hx]]%lookup_insert_Some; [injection E as <- <- <-; apply (out_ok_other _ _ y); auto|by apply K3].
  - intros a o w x. rewrite K4. by rewrite (owns_same _ _ _ _ _ _ _ Hy E1 E2).
  - intros x. rewrite <- (K5 x). apply chain_shape. unfold stream. rewrite !fmap_app, Hin. f_equal. by destruct (source_of W x); simpl; rewrite ?Hout.
  - intros a w. rewrite <- (length_fmap shape), Hin, length_fmap. apply K6.
Qed.

(** ** VCA: an output channel for the header at the front *)
Lemma idle_header c q V i p v y f l :
  vcs_inv k W c q V → V !! (i, p, v) = Some y → v_input y = f :: l → f_head f = true → f_state f = RC →
  idle k W i y ∧ c (i, p, v) = None.
Proof.
  intros HI Hy El Hh Hs. destruct (vo_alloc _ _ _ _ _ _ (vi_vc _ _ _ _ _ HI _ _ _ _ Hy)) as [?|(o & ov & _ & _ & _ & _ & _ & _ & Ha)]; [done|].
  destruct (c (i, p, v)) as [d|].
  - destruct Ha as [_ Ha]. destruct (Ha f) as [?|?]; [by rewrite El|congruence..].
  - destruct Ha as (f' & l' & El' & _ & Hs' & _). rewrite El in El'. injection El' as <- <-. destruct Hs'; congruence.
Qed.

Lemma vcs_grant c q V i p v y f l o ov z :
  vcs_inv k W c q V → V !! (i, p, v) = Some y → V !! (i, o, ov) = Some z → o ≠ p →
  v_input y = f :: l → f_head f = true → f_state f = RC → v_avail z = true → goes_to W i o (f_dst f) →
  let y' := set_alloc (Z.of_nat o) (Z.of_nat o) (Z.of_nat ov) (set_input (set_f_state VCA f :: l) y) in
  vcs_inv k W c (<[(i, o, ov) := Some (i, p, v)]> q) (<[(i, o, ov) := set_avail false z]> (<[(i, p, v) := y']> V)).
Proof.
  intros HI Hy Hz Hop El Hh Hs Hav Hgo y'. destruct (idle_header _ _ _ _ _ _ _ _ _ HI Hy El Hh Hs) as [Hidle Hc].
  pose proof HI as [K1 K2 K3 K4 K5 K6]. destruct (proj1 (K1 i o ov) ltac:(eauto)) as (_ & Ho & Hov).
  destruct (oo_free _ _ _ _ _ (K3 _ _ _ _ Hz) Hav) as [Hempty Hfree].
  assert ((i, p, v) ≠ (i, o, ov)) as Hne by congruence.
  pose proof (K2 _ _ _ _ Hy) as [Y1 Y2 Y3 Y4 Y5 Y6 _].
  assert (∀ x, shape <$> input_of (<[(i, o, ov) := set_avail false z]> (<[(i, p, v) := y']> V)) x = shape <$> input_of V x) as Hin.
  { intros x. rewrite !input_insert. repeat case_decide; subst; rewrite ?(input_at _ _ _ Hz), ?(input_at _ _ _ Hy), ?El; done. }
  assert (∀ x, output_of (<[(i, o, ov) := set_avail false z]> (<[(i, p, v) := y']> V)) x = output_of V x) as Hout.
  { intros x. rewrite !output_insert. repeat case_decide; subst; rewrite ?(output_at _ _ _ Hz), ?(output_at _ _ _ Hy); done. }
  split.
  - intros a b w. rewrite (keys_insert _ _ z) by (by rewrite lookup_insert_ne). rewrite (keys_insert _ _ _ _ _ Hy). apply K1.
  - intros a b w x [[E <-]|[_ [[E <-]|[_ Hx]]%lookup_insert_Some]]%lookup_insert_Some; [injection E as <- <- <-..|by apply K2].
    + apply (vc_ok_other _ _ z); try done; [apply (vo_credit _ _ _ _ _ _ (K2 _ _ _ _ Hz))|by apply K2].
    + split; try done; simpl.
      * intros He. destruct (Y1 He) as [->|E]; [by left|congruence].
      * rewrite El in Y5. inversion Y5; subst. by constructor.
      * by rewrite El in Y6.
      * right. exists o, ov. unfold allocated. rewrite Hc. split_and!; try done. exists (set_f_state VCA f), l. split_and!; auto.
  - intros a b w x [[E <-]|[Hx0 [[E <-]|[_ Hx]]%lookup_insert_Some]]%lookup_insert_Some; [injection E as <- <- <-..|].
    + rewrite fn_lookup_insert. split; simpl.
      * apply (oo_flits _ _ _ _ _ (K3 _ _ _ _ Hz)).
      * done.
      * intros _. left. rewrite Hempty. split; [eauto|constructor].
    + rewrite fn_lookup_insert_ne by congruence. apply (out_ok_other _ _ y); [done..|by apply K3].
    + rewrite fn_lookup_insert_ne by congruence. by apply K3.
  - intros a b w x. rewrite (owns_same _ _ z) by (try done; by rewrite lookup_insert_ne). rewrite owns_insert.
    destruct (decide ((i, o, ov) = (a, b, w))) as [E|Hneq].
    + injection E as <- <- <-. rewrite fn_lookup_insert. case_decide as E; [subst; split; [done|intros _; done]|].
      split; [by intros [= <-]|]. intros Hx. apply K4 in Hx. congruence.
    + rewrite fn_lookup_insert_ne by done. rewrite K4. case_decide as E; [subst|done]. split; intros [<- Hx].
      * destruct Hidle as (F1 & _). destruct Hx as (z' & Hz' & F2 & _). assert (z' = y) as -> by congruence. lia.
      * simpl in Hx. exfalso. apply Hneq. destruct Hx. f_equal; [f_equal; lia|lia].
  - intros x. etransitivity; [|etransitivity; [apply (K5 x)|]].
    + apply chain_shape. unfold stream. rewrite !fmap_app, Hin. f_equal. by destruct (source_of W x); simpl; rewrite ?Hout.
    + unfold under_way. destruct (source_of W x) as [u|]; [simpl|done]. destruct (decide (u = (i, o, ov))) as [->|?].
      * rewrite fn_lookup_insert, Hfree. simpl. by rewrite Hc.
      * by rewrite fn_lookup_insert_ne.
  - intros a w. rewrite <- (length_fmap shape), Hin, length_fmap. apply K6.
Qed.

(** ** ST: the front flit goes over the switch to the output it was allocated *)
Lemma front_goes c q V i p v y f l :
  vcs_inv k W c q V → V !! (i, p, v) = Some y → v_input y = f :: l → f_state f = SA →
  ∃ o ov, allocated k W i p y o ov (c (i, p, v)) ∧ follows (c (i, p, v)) f = true ∧ goes_to W i o (f_dst f).
Proof.
  intros HI Hy El Hs. pose proof (vi_chain _ _ _ _ _ HI (i, p, v)) as Hch. unfold stream in Hch. rewrite (input_at _ _ _ Hy), El in Hch. simpl in Hch.
  destruct (follows (c (i, p, v)) f) eqn:Ef; [|done].
  destruct (vo_alloc _ _ _ _ _ _ (vi_vc _ _ _ _ _ HI _ _ _ _ Hy)) as [[(_ & _ & _ & Hf) _]|(o & ov & Ha)].
  - destruct (Hf f) as [?|[? _]]; [by rewrite El|congruence..].
  - exists o, ov. split; [done|]. split; [done|]. destruct Ha as (_ & _ & _ & _ & _ & _ & Ha). destruct (c (i, p, v)) as [d|].
    + destruct Ha as [Ha _]. unfold follows in Ef. apply andb_true_iff in Ef as [_ Ed%bool_decide_eq_true]. by rewrite Ed.
    + destruct Ha as (f' & l' & El' & _ & _ & Hgo). rewrite El in El'. by injection El' as <- <-.
Qed.

(** The input channel that lost its front flit. *)
Definition crossed (f : flit_c) (l : list flit_c) (y : vc_t) : vc_t :=
  let y := set_input l y in if f_tail f then set_alloc (-1) (-1) (-1) y else y.

Lemma vc_ok_crossed i p y f l o ov (d : option Z) :
  vc_ok k W i p y d → v_input y = f :: l → allocated k W i p y o ov d → goes_to W i o (f_dst f) → vc_ok k W i p (crossed f l y) (after f).
Proof.
  intros [Y1 Y2 Y3 Y4 Y5 Y6 _] El (A1 & A2 & A3 & A4 & A5 & A6 & _) Hgo. rewrite El in Y1, Y5, Y6. simpl in Y6.
  assert (∀ g, head l = Some g → f_state g = IB) as Hib.
  { destruct l as [|g l']; [done|]. intros ? [= <-]. by inversion Y6. }
  unfold crossed, after. split; destruct (f_tail f); simpl; try done.
  1, 2: intros He; destruct (Y1 He); [by left|done].
  1, 2: by inversion Y5.
  1, 2: destruct l; [constructor|by inversion Y6].
  - left. split; [|done]. unfold idle. simpl. split_and!; try done. intros g Hg. left. by apply Hib.
  - right. exists o, ov. unfold allocated. simpl. split_and!; try done. intros g Hg. left. by apply Hib.
Qed.

Lemma vcs_cross c q V i p v y f l o ov z :
  vcs_inv k W c q V → V !! (i, p, v) = Some y → v_input y = f :: l → f_state f = SA → allocated k W i p y o ov (c (i, p, v)) →
  V !! (i, o, ov) = Some z →
  vcs_inv k W (<[(i, p, v) := after f]> c) (if f_tail f then <[(i, o, ov) := None]> q else q)
    (<[(i, p, v) := crossed f l y]> (<[(i, o, ov) := set_output (v_output z ++ [set_f_state ST f]) z]> V)).
Proof.
  intros HI Hy El Hs Ha Hz. set (x := (i, p, v)) in *. set (m := (i, o, ov)) in *. set (z' := set_output _ z).
  destruct (front_goes _ _ _ _ _ _ _ _ _ HI Hy El Hs) as (o2 & ov2 & Ha2 & Hfol & Hgo).
  fold x in Hfol. assert (o2 = o) as -> by (destruct Ha as (A1 & _), Ha2 as (B1 & _); lia). clear Ha2.
  pose proof (owner_at _ _ _ _ _ _ _ _ _ _ HI Hy Ha) as Hq. fold x m in Hq.
  pose proof HI as [K1 K2 K3 K4 K5 K6]. pose proof Ha as (A1 & A2 & A3 & A4 & A5 & A6 & _).
  assert (x ≠ m) as Hne by (unfold x, m; congruence).
  set (V' := <[x := crossed f l y]> (<[m := z']> V)). set (c' := <[x := after f]> c). set (q' := if f_tail f then _ else q).
  assert (q' x = q x ∧ ∀ u, u ≠ m → q' u = q u) as [Hqx Hqu].
  { split; [|intros u Hu]; unfold q'; destruct (f_tail f); try done; by rewrite fn_lookup_insert_ne. }
  assert (∀ u, input_of V' u = if decide (u = x) then l else input_of V u) as Hin.
  { intros u. unfold V'. rewrite !input_insert. unfold crossed. repeat case_decide; subst; rewrite ?(input_at _ _ _ Hz); destruct (f_tail f); done. }
  assert (∀ u, output_of V' u = if decide (u = m) then v_output z ++ [set_f_state ST f] else output_of V u) as Hout.
  { intros u. unfold V'. rewrite !output_insert. unfold crossed. repeat case_decide; subst; rewrite ?(output_at _ _ _ Hy); destruct (f_tail f); done. }
  split.
  - intros a b w. unfold V'. rewrite (keys_insert _ _ y) by (by rewrite lookup_insert_ne). rewrite (keys_insert _ _ _ _ _ Hz). apply K1.
  - intros a b w t [[E <-]|[Hnx [[E <-]|[_ Ht]]%lookup_insert_Some]]%lookup_insert_Some.
    + unfold c'. injection E as <- <- <-. rewrite fn_lookup_insert. by eapply vc_ok_crossed; [apply K2|..].
    + injection E as <- <- <-. unfold c'. rewrite fn_lookup_insert_ne by done. apply (vc_ok_other _ _ z); try done; [apply (vo_credit _ _ _ _ _ _ (K2 _ _ _ _ Hz))|by apply K2].
    + unfold c'. rewrite fn_lookup_insert_ne by done. by apply K2.
  - intros a b w t [[E <-]|[Hnx [[E <-]|[Hnm Ht]]%lookup_insert_Some]]%lookup_insert_Some.
    + injection E as <- <- <-. fold x. rewrite Hqx. apply (out_ok_other _ _ y); [unfold crossed; by destruct (f_tail f)..|by apply K3].
    + injection E as <- <- <-. fold m. destruct (K3 _ _ _ _ Hz) as [Z1 Z2 Z3]. fold m in Z2, Z3. rewrite Hq in Z2, Z3.
      assert (v_avail z = false) as Hav by (destruct (v_avail z); [destruct (Z2 eq_refl); done|done]).
      destruct (Z3 Hav) as [[_ Hnt]|[? _]]; [|done]. split; simpl.
      * apply Forall_app. split; [done|]. apply Forall_singleton. split; [done|]. split; [|done].
        pose proof (vo_input _ _ _ _ _ _ (K2 _ _ _ _ Hy)) as Hok. rewrite El in Hok. by inversion Hok.
      * congruence.
      * intros _. unfold q'. destruct (f_tail f) eqn:Et.
        -- right. rewrite fn_lookup_insert. split; [done|]. by exists (v_output z), (set_f_state ST f).
        -- left. rewrite Hq. split; [by eexists|]. apply Forall_app. split; [done|]. by apply Forall_singleton.
    + rewrite Hqu by done. by apply K3.
  - intros a b w u. unfold V'. rewrite owns_insert. destruct (decide (u = x)) as [->|Hnx].
    + assert (q (a, b, w) = Some x → (a, b, w) = m) as Hone.
      { intros [<- Hx]%K4. by destruct (owns_one _ _ _ _ _ _ _ Hy A1 A3 Hx) as [-> ->]. }
      unfold q', crossed. destruct (f_tail f); simpl.
      * split; [|intros [_ ?]; lia]. destruct (decide (m = (a, b, w))) as [<-|Hnm]; [by rewrite fn_lookup_insert|].
        rewrite fn_lookup_insert_ne by done. intros Hx. by destruct (Hnm (eq_sym (Hone Hx))).
      * rewrite K4. unfold owns. rewrite Hy. split; [intros [<- (z0 & [= <-] & ?)]; done|intros [<- ?]; split; [done|by exists y]].
    + rewrite (owns_same _ _ z _ _ _ _ Hz) by done. destruct (decide ((a, b, w) = m)) as [E|?].
      * injection E as -> -> ->. unfold q'. destruct (f_tail f); [|apply K4]. rewrite fn_lookup_insert. split; [done|]. intros Hu. apply (K4 i o ov) in Hu. fold m in Hu. congruence.
      * rewrite Hqu by done. apply K4.
  - intros u. pose proof (K5 u) as Hch. unfold stream, under_way in *. rewrite Hin.
    assert (∀ y0, y0 ≠ x → c' y0 = c y0) as Hc by (intros; by apply fn_lookup_insert_ne).
    assert (∀ s y0, s ≠ m → q s = Some y0 → y0 ≠ x) as Hown.
    { intros [[a b] w] y0 Hs' Hy0 ->. apply Hs'. apply K4 in Hy0 as [<- Hx]. by destruct (owns_one _ _ _ _ _ _ _ Hy A1 A3 Hx) as [-> ->]. }
    destruct (source_of W u) as [s|] eqn:Es; simpl in *; [rewrite Hout; destruct (decide (s = m)) as [->|Hsm]|]; destruct (decide (u = x)) as [->|Hux].
    + exfalso. by destruct (source_far x m Es).
    + rewrite app_assoc, chain_app, Hc, <- (output_at _ _ _ Hz), Hch, Hq by done. simpl.
      change (follows (c x) (set_f_state ST f)) with (follows (c x) f). rewrite Hfol.
      unfold q', c'. destruct (f_tail f) eqn:Et; [|rewrite Hq; simpl]; rewrite fn_lookup_insert; unfold after; simpl; by rewrite Et.
    + rewrite (input_at _ _ _ Hy), El in Hch. simpl in Hch. rewrite Hfol in Hch. unfold c' at 1. rewrite fn_lookup_insert, Hch, Hqu by done.
      destruct (q s) as [y0|] eqn:Eq; [simpl|done]. by rewrite Hc by (by apply (Hown s)).
    + rewrite Hc, Hch, Hqu by done. destruct (q s) as [y0|] eqn:Eq; [simpl|done]. by rewrite Hc by (by apply (Hown s)).
    + rewrite (input_at _ _ _ Hy), El in Hch. simpl in Hch. rewrite Hfol in Hch. unfold c'. by rewrite fn_lookup_insert.
    + by rewrite Hc.
  - intros a w. rewrite Hin. case_decide as E; [|apply K6]. pose proof (K6 a w) as Hle. rewrite E in Hle. rewrite (input_at _ _ _ Hy), El in Hle. simpl in Hle. lia.
Qed.

(** ** LT: the front flit leaves an output channel *)

(** The output channel that lost its front flit and has [credit] left. *)
Definition sent (f : flit_c) (l : list flit_c) (credit : Z) (z : vc_t) : vc_t :=
  let z := set_credit credit (set_output l z) in if f_tail f then set_avail true z else z.

Lemma sent_fields f l n z :
  v_input (sent f l n z) = v_input z ∧ v_route (sent f l n z) = v_route z ∧ v_route_fixed (sent f l n z) = v_route_fixed z ∧
  v_output_port_id (sent f l n z) = v_output_port_id z ∧ v_output_vc_id (sent f l n z) = v_output_vc_id z ∧
  v_output (sent f l n z) = l ∧ v_credit (sent f l n z) = n.
Proof. unfold sent. by destruct (f_tail f). Qed.

Lemma out_ok_sent i p z (o : option key) f l n : out_ok W i p z o → v_output z = f :: l → out_ok W i p (sent f l n z) o.
Proof.
  intros [Z1 Z2 Z3] El. rewrite El in Z1, Z2, Z3. apply Forall_cons in Z1 as [_ Z1].
  assert (v_avail z = false) as Hav by (destruct (v_avail z); [by destruct (Z2 eq_refl)|done]).
  assert (f_tail f = true → l = [] ∧ o = None) as Htail.
  { intros Et. destruct (Z3 Hav) as [[_ Hnt]|(-> & l' & t & E & _ & Hnt)]; [apply Forall_cons in Hnt as [? _]; congruence|].
    destruct l' as [|g l']; [by injection E as _ ->|]. injection E as <- _. apply Forall_cons in Hnt as [? _]. congruence. }
  split; destruct (sent_fields f l n z) as (_ & _ & _ & _ & _ & El' & _); rewrite El'; clear El'; [done|..]; unfold sent; destruct (f_tail f) eqn:Et; simpl.
  - intros _. by apply Htail.
  - congruence.
  - done.
  - intros _. destruct (Z3 Hav) as [[Hq Hnt]|(-> & l' & t & E & Ht & Hnt)].
    + left. split; [done|]. by apply Forall_cons in Hnt as [_ ?].
    + right. split; [done|]. destruct l' as [|g l']; [injection E as <- ->; congruence|]. injection E as <- ->. exists l', t. by apply Forall_cons in Hnt as [_ ?].
Qed.

Lemma vcs_eject c q V i v z f l :
  vcs_inv k W c q V → V !! (i, LOCAL, v) = Some z → v_output z = f :: l →
  vcs_inv k W c q (<[(i, LOCAL, v) := sent f l (v_credit z) z]> V).
Proof.
  intros [K1 K2 K3 K4 K5 K6] Hz El. pose proof (sent_fields f l (v_credit z) z) as E. remember (sent f l (v_credit z) z) as z' eqn:Ez. destruct E as (E1 & E2 & E3 & E4 & E5 & E6 & E7).
  assert (∀ u, input_of (<[(i, LOCAL, v) := z']> V) u = input_of V u) as Hin.
  { intros u. rewrite input_insert. case_decide; [subst; by rewrite E1, (input_at _ _ _ Hz)|done]. }
  split.
  - intros a b w. rewrite (keys_insert _ _ _ _ _ Hz). apply K1.
  - intros a b w t [[E <-]|[_ Ht]]%lookup_insert_Some; [injection E as <- <- <-|by apply K2].
    apply (vc_ok_other _ _ z); try done; [rewrite E7; apply (vo_credit _ _ _ _ _ _ (K2 _ _ _ _ Hz))|by apply K2].
  - intros a b w t [[E <-]|[_ Ht]]%lookup_insert_Some; [injection E as <- <- <-|by apply K3]. rewrite Ez. by apply out_ok_sent; [apply K3|].
  - intros a b w y. rewrite (owns_same _ _ z _ _ _ _ Hz) by done. apply K4.
  - intros u. rewrite <- (K5 u). f_equal. unfold stream. rewrite Hin. f_equal. destruct (source_of W u) as [s|] eqn:Es; simpl; [|done].
    rewrite output_insert. case_decide; [subst|done]. by destruct (source_far _ _ Es).
  - intros a w. rewrite Hin. apply K6.
Qed.

(** A flit that comes in. *)
Lemma vc_ok_arrive i p y l (d : option Z) :
  vc_ok k W i p y d → (link_of W i p = None → p = LOCAL) → Forall (λ f, flit_ok W f ∧ f_state f = IB) l → vc_ok k W i p (set_input (v_input y ++ l) y) d.
Proof.
  intros [Y1 Y2 Y3 Y4 Y5 Y6 Y7] Hp Hl. assert (Forall (flit_ok W) l ∧ Forall (λ f, f_state f = IB) l) as [H1 H2] by (by apply Forall_and).
  assert (∀ f, head (v_input y ++ l) = Some f → head (v_input y) = Some f ∨ f_state f = IB) as Hhead.
  { intros f. destruct (v_input y); simpl; [|by left]. destruct l; [done|]. intros [= <-]. right. by apply Forall_inv in H2. }
  split; simpl; try done.
  - intros He. left. by apply Hp.
  - by apply Forall_app.
  - destruct (v_input y); simpl; [by apply Forall_tail|by apply Forall_app].
  - destruct Y7 as [[(I1 & I2 & I3 & I4) ->]|(o & ov & A1 & A2 & A3 & A4 & A5 & A6 & A7)]; [left|right; exists o, ov].
    + split; [|done]. unfold idle. simpl. split_and!; try done. intros f [Hf|Hf]%Hhead; [by apply I4|by left].
    + unfold allocated. simpl. split_and!; try done. destruct d as [d|].
      * destruct A7 as [Hgo Hf]. split; [done|]. intros f [?|?]%Hhead; [by apply Hf|by left].
      * destruct A7 as (f & l' & -> & ? & ? & ?). by exists f, (l' ++ l).
Qed.

Lemma vcs_link c q V i o v j z y f f' l n :
  vcs_inv k W c q V → link_of W i o = Some j → V !! (i, o, v) = Some z → V !! (j, opposite_dir o, v) = Some y →
  v_output z = f :: l → shape f' = shape f → flit_ok W f' → f_state f' = IB → 0 ≤ n ≤ 10 →
  vcs_inv k W c q (<[(i, o, v) := sent f l n z]> (<[(j, opposite_dir o, v) := set_input (v_input y ++ [f']) y]> V)).
Proof.
  intros [K1 K2 K3 K4 K5 K6] Hl Hz Hy El Hsh Hok Hib Hn.
  destruct (wi_both k W HW i o j Hl) as (_ & _ & Hji & _ & _ & Hol & _ & Hback).
  set (m := (i, o, v)) in *. set (d := (j, opposite_dir o, v)) in *. assert (d ≠ m) as Hdm by (unfold d, m; congruence).
  set (y' := set_input _ y). pose proof (sent_fields f l n z) as E. remember (sent f l n z) as z' eqn:Ez. destruct E as (E1 & E2 & E3 & E4 & E5 & E6 & E7).
  set (V' := <[m := z']> (<[d := y']> V)).
  assert (∀ u, input_of V' u = if decide (u = d) then v_input y ++ [f'] else input_of V u) as Hin.
  { intros u. unfold V'. rewrite !input_insert. destruct (decide (u = m)) as [->|?]; [|done]. rewrite decide_False by done. by rewrite E1, (input_at _ _ _ Hz). }
  assert (∀ u, output_of V' u = if decide (u = m) then l else output_of V u) as Hout.
  { intros u. unfold V'. rewrite !output_insert. destruct (decide (u = m)) as [->|?]; [done|]. destruct (decide (u = d)) as [->|?]; [by rewrite (output_at _ _ _ Hy)|done]. }
  split.
  - intros a b w. unfold V'. rewrite (keys_insert _ _ z) by (by rewrite lookup_insert_ne). rewrite (keys_insert _ _ _ _ _ Hy). apply K1.
  - intros a b w t [[E <-]|[_ [[E <-]|[_ Ht]]%lookup_insert_Some]]%lookup_insert_Some; [injection E as <- <- <-..|by apply K2].
    + apply (vc_ok_other _ _ z); try done; [lia|by apply K2].
    + apply vc_ok_arrive; [by apply K2|intros ?; congruence|by apply Forall_singleton].
  - intros a b w t [[E <-]|[_ [[E <-]|[_ Ht]]%lookup_insert_Some]]%lookup_insert_Some; [injection E as <- <- <-..|by apply K3].
    + rewrite Ez. apply out_ok_sent; [by apply K3|done].
    + apply (out_ok_other _ _ y); [done..|by apply K3].
  - intros a b w u. unfold V'. rewrite (owns_same _ _ z) by (try done; by rewrite lookup_insert_ne). rewrite (owns_same _ _ y _ _ _ _ Hy) by done. apply K4.
  - intros u. rewrite <- (K5 u). unfold stream. destruct (decide (u = d)) as [->|Hud].
    + apply chain_shape. rewrite (proj2 (source_unique i o v j d Hl)) by done. simpl. rewrite Hin, Hout, !decide_True by done. fold m.
      rewrite (input_at _ _ _ Hy), (output_at _ _ _ Hz), El, !fmap_app. simpl. rewrite Hsh. by rewrite <- app_assoc.
    + f_equal. rewrite Hin, decide_False by done. f_equal. destruct (source_of W u) as [s|] eqn:Es; simpl; [|done].
      rewrite Hout, decide_False; [done|]. intros ->. by apply (source_unique i o v j u Hl) in Es.
  - intros a w. rewrite Hin, decide_False; [apply K6|]. unfold d. congruence.
Qed.

(** ** A packet from the interface *)
Lemma vcs_inject c q V i v y l :
  vcs_inv k W c q V → V !! (i, LOCAL, v) = Some y →
  chain None l = Some None → Forall (λ f, flit_ok W f ∧ f_state f = IB) l → (length (v_input y) + length l ≤ 10)%nat →
  vcs_inv k W c q (<[(i, LOCAL, v) := set_input (v_input y ++ l) y]> V).
Proof.
  intros [K1 K2 K3 K4 K5 K6] Hy Hch Hl Hlen. set (y' := set_input _ y).
  assert (∀ u, input_of (<[(i, LOCAL, v) := y']> V) u = if decide (u = (i, LOCAL, v)) then v_input y ++ l else input_of V u) as Hin by (intros u; by rewrite input_insert).
  assert (∀ u, output_of (<[(i, LOCAL, v) := y']> V) u = output_of V u) as Hout.
  { intros u. rewrite output_insert. case_decide; [subst; by rewrite (output_at _ _ _ Hy)|done]. }
  split.
  - intros a b w. rewrite (keys_insert _ _ _ _ _ Hy). apply K1.
  - intros a b w t [[E <-]|[_ Ht]]%lookup_insert_Some; [injection E as <- <- <-|by apply K2]. apply vc_ok_arrive; [by apply K2|done|done].
  - intros a b w t [[E <-]|[_ Ht]]%lookup_insert_Some; [injection E as <- <- <-|by apply K3]. apply (out_ok_other _ _ y); [done..|by apply K3].
  - intros a b w u. rewrite (owns_same _ _ y _ _ _ _ Hy) by done. apply K4.
  - intros u. pose proof (K5 u) as Hu. unfold stream, under_way in *. rewrite Hin. destruct (source_of W u) as [s|] eqn:Es; simpl in *; rewrite ?Hout.
    + rewrite decide_False; [done|]. intros ->. unfold source_of in Es. simpl in Es. by rewrite link_local in Es.
    + case_decide; [subst u|done]. rewrite (input_at _ _ _ Hy) in Hu. rewrite app_nil_r in *. by rewrite chain_app, Hu.
  - intros a w. rewrite Hin. case_decide; [by rewrite length_app|apply K6].
Qed.
End moves.
