(* ===== verification/MacRouterRun.v ===== *)
(** * Runs of MacSim's network

    Every function of a router (MacRouter.v) returns, keeps the invariant of
    MacRouterLaws.v by the moves of MacRouterMoves.v, and loses and makes up no packet.
    In a run every packet that was accepted is in an interface, on its way, or with the
    router it was sent to. *)
From S2P Require Import Prelude Types MacDram MacRouter MacRouterLaws MacRouterMoves.
#[local] Open Scope Z_scope.

(** ** Lists of routers *)
Lemma bind_insert_perm {A B} (f : A → list B) (l : list A) i x y :
  l !! i = Some x → (<[i := y]> l ≫= f) ++ f x ≡ₚ (l ≫= f) ++ f y.
Proof.
  revert i. induction l as [|z l IH]; intros [|i] Hi; simplify_eq/=; [solve_Permutation|].
  rewrite <- !app_assoc. f_equiv. by apply IH.
Qed.

Lemma bind_insert_same {A B} (f : A → list B) (l : list A) i x y :
  l !! i = Some x → f y = f x → <[i := y]> l ≫= f = l ≫= f.
Proof.
  revert i. induction l as [|z l IH]; intros [|i] Hi E; simplify_eq/=; [by rewrite E|]. f_equal. by apply IH.
Qed.

Section run.
Context (k : Noc_Knobs) (W : statics) (HW : wired k W) (Hk : noc_ok k).
Implicit Types (V : gmap key vc_t) (R : list router_c) (n : router_wrapper_c) (h : gmap ptr mem_req_s).

(** ** Credits *)
Lemma waiting_insert R u t' i o v :
  (u < length R)%nat →
  waiting (<[u := t']> R) i o v =
  if decide (i = u) then Z.of_nat (length (filter (λ c, cr_port c = o ∧ cr_vc c = v) (r_pending t'))) else waiting R i o v.
Proof.
  intros Hu. unfold waiting. case_decide; [subst; by rewrite list_lookup_insert_eq|by rewrite list_lookup_insert_ne].
Qed.

Lemma credits_same V V' R R' :
  credits_inv k W V R →
  (∀ x, is_Some (V' !! x) → is_Some (V !! x) ∧ v_credit <$> V' !! x = v_credit <$> V !! x) →
  (∀ i p v, p ≠ LOCAL → length (input_of V' (i, p, v)) = length (input_of V (i, p, v))) →
  (∀ i, r_pending <$> R' !! i = r_pending <$> R !! i) →
  credits_inv k W V' R'.
Proof.
  intros [Hs Hp] HV Hin HR. split.
  - intros i o v j x Hl Hx. destruct (HV (i, o, v) ltac:(eauto)) as [[y Hy] E]. rewrite Hx, Hy in E. injection E as E.
    destruct (wi_both k W HW i o j Hl) as (_ & _ & _ & _ & _ & Hol & _). rewrite E, Hin by done. unfold waiting. rewrite HR. by apply Hs.
  - intros i t c Ht Hc. specialize (HR i). rewrite Ht in HR. destruct (R !! i) as [t0|] eqn:E; [|done]. injection HR as HR. apply (Hp i t0); [done|congruence].
Qed.

(** A flit that leaves an input channel sends a credit to the other end of its link. *)
Lemma credits_cross V V' R i p v j t cr :
  credits_inv k W V R → link_of W i p = Some j → (v < num_vc k)%nat → R !! j = Some t →
  cr_port cr = opposite_dir p → cr_vc cr = v →
  (∀ x, is_Some (V' !! x) → is_Some (V !! x) ∧ v_credit <$> V' !! x = v_credit <$> V !! x) →
  (∀ x, Z.of_nat (length (input_of V' x)) = Z.of_nat (length (input_of V x)) - if decide (x = (i, p, v)) then 1 else 0) →
  credits_inv k W V' (<[j := set_credits (r_pending t ++ [cr]) t]> R).
Proof.
  intros [Hs Hp] Hl Hv Ht Ep Ev HV Hin. pose proof (lookup_lt_Some _ _ _ Ht) as Hlt.
  destruct (wi_both k W HW i p j Hl) as (_ & _ & _ & _ & _ & _ & Hopp & Hback). split.
  - intros a o w b x Hl' Hx. destruct (HV (a, o, w) ltac:(eauto)) as [[y Hy] E]. rewrite Hx, Hy in E. injection E as E.
    rewrite E, Hin, waiting_insert by done. rewrite <- (Hs a o w b y Hl' Hy).
    destruct (wi_both k W HW a o b Hl') as (_ & _ & _ & _ & _ & _ & Hopp' & Hback').
    case_decide as Ex.
    + injection Ex as -> Eo ->. assert (o = opposite_dir p) as -> by (by rewrite <- Eo).
      assert (a = j) as -> by congruence. rewrite decide_True by done. simpl. rewrite filter_app, length_app.
      rewrite (filter_cons_True _ cr) by done. unfold waiting. rewrite Ht. simpl. lia.
    + case_decide as Ea; [subst a; simpl; rewrite filter_app, length_app|lia]. rewrite (filter_cons_False _ cr); [unfold waiting; rewrite Ht; simpl; lia|].
      rewrite Ep, Ev. intros [<- <-]. apply Ex. rewrite Hopp. congruence.
  - intros a t' c Ht' Hc. apply list_lookup_insert_Some in Ht' as [[<- [<- _]]|[_ Ht']]; [|by apply (Hp a t')].
    simpl in Hc. apply elem_of_app in Hc as [Hc| ->%list_elem_of_singleton]; [by apply (Hp j t)|]. rewrite Ep, Ev. split; [done|]. eauto.
Qed.

(** A flit over a link takes a credit. *)
Lemma credits_link V V' R i o v j z z' :
  credits_inv k W V R → link_of W i o = Some j → V !! (i, o, v) = Some z → V' !! (i, o, v) = Some z' → v_credit z' = v_credit z - 1 →
  (∀ x, x ≠ (i, o, v) → is_Some (V' !! x) → is_Some (V !! x) ∧ v_credit <$> V' !! x = v_credit <$> V !! x) →
  (∀ x, Z.of_nat (length (input_of V' x)) = Z.of_nat (length (input_of V x)) + if decide (x = (j, opposite_dir o, v)) then 1 else 0) →
  credits_inv k W V' R.
Proof.
  intros [Hs Hp] Hl Hz Hz' Ec HV Hin. destruct (wi_both k W HW i o j Hl) as (_ & _ & _ & _ & _ & _ & Hopp & Hback). split; [|done].
  intros a p w b x Hl' Hx. rewrite Hin. destruct (decide ((a, p, w) = (i, o, v))) as [E|Hne].
  - injection E as -> -> ->. assert (b = j) as -> by congruence. assert (x = z') as -> by congruence. rewrite Ec, decide_True by done.
    rewrite <- (Hs i o v j z Hl Hz). lia.
  - destruct (HV (a, p, w) Hne ltac:(eauto)) as [[y Hy] E]. rewrite Hx, Hy in E. injection E as E.
    rewrite E, decide_False, <- (Hs a p w b y Hl' Hy); [lia|]. intros Ex. apply Hne. injection Ex as -> Eo ->.
    destruct (wi_both k W HW a p j Hl') as (_ & _ & _ & _ & _ & _ & Hopp' & Hback'). rewrite Eo in Hopp', Hback'. congruence.
Qed.

(** ** Steps *)
Definition traffic h n : list (ptr * Z) := posted h (n_routers n) ++ mail (n_vcs n) ++ home (n_routers n).

(** A step keeps the invariant and all that is in the network; interfaces send, and get more. *)
Record moved h n n' : Prop := {
  mv_inv : net_inv k W n';
  mv_flow : traffic h n' ≡ₚ traffic h n;
  mv_routers i t' : n_routers n' !! i = Some t' →
    ∃ t, n_routers n !! i = Some t ∧ r_injection t' ⊆ r_injection t ∧ r_req t `prefix_of` r_req t';
}.

Lemma moved_refl h n : net_inv k W n → moved h n n.
Proof. intros H. split; [done|done|]. intros i t Ht. by exists t. Qed.

Lemma moved_trans h n1 n2 n3 : moved h n1 n2 → moved h n2 n3 → moved h n1 n3.
Proof.
  intros [_ F1 R1] [H2 F2 R2]. split; [done|by rewrite F2|]. intros i t' Ht'. destruct (R2 i t' Ht') as (t & Ht & ? & ?).
  destruct (R1 i t Ht) as (t0 & Ht0 & ? & ?). exists t0. split; [done|]. split; [set_solver|by etransitivity].
Qed.

Lemma static_lookup R i : static_of R !! i = (λ t, (r_id t, r_link t)) <$> R !! i.
Proof. apply list_lookup_fmap. Qed.

Lemma static_at R i t : routers_inv k W R → R !! i = Some t → W !! i = Some (r_id t, r_link t).
Proof. intros [<- _] Ht. by rewrite static_lookup, Ht. Qed.

Lemma router_in R i : routers_inv k W R → (i < length W)%nat → ∃ t, R !! i = Some t.
Proof. intros [E _] Hi. apply lookup_lt_is_Some. rewrite <- E in Hi. unfold static_of in Hi. by rewrite length_fmap in Hi. Qed.

Lemma router_there n i : net_inv k W n → (i < length W)%nat → ∃ t, n_routers n !! i = Some t.
Proof. intros [H _]. by apply router_in. Qed.

Lemma router_count n : net_inv k W n → length (n_routers n) = length W.
Proof. intros [[E _] _]. rewrite <- E. unfold static_of. by rewrite length_fmap. Qed.

Lemma vc_there n i p v : net_inv k W n → (i < length W)%nat → (p < num_port k)%nat → (v < num_vc k)%nat → ∃ x, n_vcs n !! (i, p, v) = Some x.
Proof. intros (_ & _ & c & q & HI) Hi Hp Hv. by apply (vi_keys _ _ _ _ _ HI). Qed.

Lemma link_at_ok n i p j : routers_inv k W (n_routers n) → link_of W i p = Some j → link_at i p n = Ok j.
Proof.
  intros Hn Hl. destruct (router_in _ i Hn) as [t Ht].
  { unfold link_of in Hl. destruct (W !! i) eqn:E; [by eapply lookup_lt_Some|done]. }
  unfold link_of in Hl. rewrite (static_at _ _ _ Hn Ht) in Hl. simpl in Hl. unfold link_at, router_at, vec_at. rewrite Ht. simpl.
  destruct (r_link t !! p) as [o|]; [|done]. simpl in *. by subst o.
Qed.

Lemma router_at_ok n i t : n_routers n !! i = Some t → router_at i n = Ok t.
Proof. unfold router_at, vec_at. by intros ->. Qed.
Lemma vc_at_ok n i p v x : n_vcs n !! (i, p, v) = Some x → vc_at i p v n = Ok x.
Proof. unfold vc_at. by intros ->. Qed.
Lemma on_vc_ok n i p v f x : n_vcs n !! (i, p, v) = Some x → on_vc i p v f n = Ok (mkNet (n_routers n) (<[(i, p, v) := f x]> (n_vcs n))).
Proof. intros Hx. unfold on_vc. by rewrite (vc_at_ok _ _ _ _ _ Hx). Qed.
Lemma on_router_ok n i f t : n_routers n !! i = Some t → on_router i f n = Ok (set_router i (f t) n).
Proof. intros Ht. unfold on_router. by rewrite (router_at_ok _ _ _ Ht). Qed.

(** Steps within the channels. *)
Lemma moved_vcs h n V c q :
  net_inv k W n → vcs_inv k W c q V → credits_inv k W V (n_routers n) → mail V ≡ₚ mail (n_vcs n) → moved h n (mkNet (n_routers n) V).
Proof.
  intros (H1 & H2 & _) HI HC Hm. split; [split; [done|]; split; [done|by exists c, q]| |intros i t Ht; by exists t].
  unfold traffic. simpl. by rewrite Hm.
Qed.

(** A change of a router that leaves its links and packets. *)
Lemma routers_insert R i t t' :
  routers_inv k W R → R !! i = Some t → r_id t' = r_id t → r_link t' = r_link t →
  length (r_sw_avail t') = length (r_sw_avail t) → length (r_link_avail t') = length (r_link_avail t) → 0 ≤ r_next_vc t' →
  routers_inv k W (<[i := t']> R).
Proof.
  intros [Hs Ha] Ht E1 E2 E3 E4 E5. split.
  - rewrite <- Hs. unfold static_of. rewrite list_fmap_insert. apply list_insert_id. rewrite list_lookup_fmap, Ht. simpl. by rewrite E1, E2.
  - intros t0 [j Hj]%list_elem_of_lookup. apply list_lookup_insert_Some in Hj as [(-> & <- & _)|[_ Hj]].
    + rewrite E3, E4. destruct (Ha t) as (? & ? & _); [by eapply list_elem_of_lookup_2|done].
    + apply Ha. by eapply list_elem_of_lookup_2.
Qed.

Lemma moved_router h n i t t' :
  net_inv k W n → n_routers n !! i = Some t → r_id t' = r_id t → r_link t' = r_link t → r_injection t' = r_injection t → r_req t' = r_req t →
  r_pending t' = r_pending t → length (r_sw_avail t') = length (r_sw_avail t) → length (r_link_avail t') = length (r_link_avail t) → 0 ≤ r_next_vc t' →
  moved h n (set_router i t' n).
Proof.
  intros (H1 & H2 & H3) Ht E1 E2 E3 E4 E5 E6 E7 E8. split.
  - split; [by eapply routers_insert|]. split; [|done]. simpl. apply (credits_same (n_vcs n) _ (n_routers n)); try done.
    intros j. destruct (decide (i = j)) as [<-|?]; [|by rewrite list_lookup_insert_ne].
    rewrite list_lookup_insert_eq by (by eapply lookup_lt_Some). rewrite Ht. simpl. by rewrite E5.
  - unfold traffic, home, posted. simpl. by rewrite !(bind_insert_same _ _ _ t) by (try done; by rewrite ?E1, ?E3, ?E4).
  - intros j t0 Hj. simpl in Hj. apply list_lookup_insert_Some in Hj as [(-> & <- & _)|[_ Hj]]; [exists t; by rewrite E3, E4|by exists t0].
Qed.

(** ** Credits that have come *)
Lemma credits_collect V R i t cr cs x :
  (i < length R)%nat → credits_inv k W V (<[i := set_credits (cr :: cs) t]> R) → V !! (i, cr_port cr, cr_vc cr) = Some x →
  credits_inv k W (<[(i, cr_port cr, cr_vc cr) := set_credit (v_credit x + 1) x]> V) (<[i := set_credits cs t]> R).
Proof.
  intros Hi [Hs Hp] Hx. assert (∀ y, input_of (<[(i, cr_port cr, cr_vc cr) := set_credit (v_credit x + 1) x]> V) y = input_of V y) as Hin.
  { intros y. rewrite input_insert. case_decide; [subst; by rewrite (input_at _ _ _ Hx)|done]. }
  split.
  - intros a o v j y Hl Hy. rewrite Hin, waiting_insert by done. apply lookup_insert_Some in Hy as [[E <-]|[Hne Hy]].
    + injection E as <- <- <-. specialize (Hs _ _ _ _ _ Hl Hx). rewrite waiting_insert, decide_True in Hs by done. rewrite decide_True by done. simpl in *.
      rewrite filter_cons_True in Hs by done. simpl in Hs. lia.
    + specialize (Hs _ _ _ _ _ Hl Hy). rewrite waiting_insert in Hs by done. case_decide as Ea; [subst a|done]. simpl in *.
      rewrite filter_cons_False in Hs; [done|]. intros [<- <-]. by apply Hne.
  - intros a t' c Ht Hc. apply list_lookup_insert_Some in Ht as [(<- & <- & _)|[Hne Ht]].
    + apply (Hp i (set_credits (cr :: cs) t)); [by rewrite list_lookup_insert_eq|by right].
    + apply (Hp a t'); [by rewrite list_lookup_insert_ne|done].
Qed.

Lemma collect_loop R i t c q cs later :
  R !! i = Some t → (i < length W)%nat → ∀ V,
  vcs_inv k W c q V → credits_inv k W V (<[i := set_credits (cs ++ later) t]> R) →
  ∃ V', foldM cs (mkNet R V) (λ c, on_vc i (cr_port c) (cr_vc c) (λ x, set_credit (int (v_credit x + 1)) x)) = Ok (mkNet R V') ∧
    vcs_inv k W c q V' ∧ credits_inv k W V' (<[i := set_credits later t]> R) ∧ mail V' ≡ₚ mail V.
Proof.
  intros Ht Hi. pose proof (lookup_lt_Some _ _ _ Ht) as Hlt. induction cs as [|cr cs IH]; intros V HI HC; [by exists V|].
  destruct (ci_port _ _ _ _ HC i (set_credits ((cr :: cs) ++ later) t) cr) as [Hv [j Hj]]; [by rewrite list_lookup_insert_eq|by left|].
  destruct (wi_both k W HW _ _ _ Hj) as (_ & Hp & _).
  destruct (proj2 (vi_keys _ _ _ _ _ HI i (cr_port cr) (cr_vc cr))) as [x Hx]; [done|].
  pose proof (vi_vc _ _ _ _ _ HI _ _ _ _ Hx) as Hok. pose proof (ci_sum _ _ _ _ HC _ _ _ _ _ Hj Hx) as Hsum.
  rewrite waiting_insert, decide_True in Hsum by done. simpl in Hsum. rewrite filter_cons_True in Hsum by done. simpl in Hsum.
  pose proof (vo_credit _ _ _ _ _ _ Hok). simpl. unfold on_vc at 2. rewrite (vc_at_ok (mkNet R V) _ _ _ x Hx). simpl. rewrite int_small by lia.
  destruct (IH (<[(i, cr_port cr, cr_vc cr) := set_credit (v_credit x + 1) x]> V)) as (V' & E & HI' & HC' & Hm).
  - apply (vcs_touch k W c q V i _ _ x); try done. apply (vc_ok_other k W _ _ x); try done. simpl. lia.
  - by apply credits_collect.
  - exists V'. split; [done|]. split; [done|]. split; [done|]. rewrite Hm. pose proof (mail_update V (i, cr_port cr, cr_vc cr) x (set_credit (v_credit x + 1) x) Hx) as Hmu.
    simpl in Hmu. by apply Permutation_app_inv_r in Hmu.
Qed.

Lemma process_pending_credit_ok h CYCLE i n :
  net_inv k W n → (i < length W)%nat → ∃ n', process_pending_credit CYCLE i n = Ok n' ∧ moved h n n'.
Proof.
  intros Hn Hi. destruct (router_there n i Hn Hi) as [t Ht]. pose proof Hn as (H1 & H2 & c & q & HI).
  unfold process_pending_credit. rewrite (router_at_ok _ _ _ Ht). simpl. pose proof (lookup_lt_Some _ _ _ Ht) as Hlt.
  set (cs := filter (λ c, cr_rdy_cycle c ≤ CYCLE) (r_pending t)). set (later := filter (λ c, CYCLE < cr_rdy_cycle c) (r_pending t)).
  assert (r_pending t ≡ₚ cs ++ later) as Hperm.
  { unfold cs, later. rewrite <- (filter_app_complement (λ c, cr_rdy_cycle c ≤ CYCLE) (r_pending t)) at 1. f_equiv.
    apply reflexive_eq, list_filter_iff. intros cr; simpl; lia. }
  destruct (collect_loop (n_routers n) i t c q cs later Ht Hi (n_vcs n) HI) as (V' & E & HI' & HC' & Hm).
  { split; [|].
    - intros a o v j x Hl Hx. rewrite waiting_insert by done. rewrite <- (ci_sum _ _ _ _ H2 a o v j x Hl Hx). f_equal.
      case_decide; [subst a|done]. unfold waiting. rewrite Ht. simpl. by rewrite Hperm.
    - intros a t' cr Ht' Hcr. apply list_lookup_insert_Some in Ht' as [(<- & <- & _)|[_ Ht']]; [|by apply (ci_port _ _ _ _ H2 a t')].
      apply (ci_port _ _ _ _ H2 i t); [done|]. simpl in Hcr. by rewrite Hperm. }
  destruct n as [R V]. simpl in *. rewrite E. simpl. rewrite (on_router_ok (mkNet R V') i _ t Ht). eexists. split; [done|].
  assert (0 ≤ r_next_vc t) by (apply (ri_arrays _ _ _ H1); by eapply list_elem_of_lookup_2).
  split; simpl.
  - split; [by eapply routers_insert|]. split; [done|]. by exists c, q.
  - unfold traffic, home, posted. simpl. by rewrite Hm, !(bind_insert_same _ _ _ t).
  - intros j t0 Hj. apply list_lookup_insert_Some in Hj as [(-> & <- & _)|[_ Hj]]; [by exists t|by exists t0].
Qed.

(** ** The mail of a change *)
Definition mail_in (y : vc_t) : list (ptr * Z) := mail_of (v_input y) ++ mail_of (v_output y).

Lemma mail_gain V x y y' e : V !! x = Some y → mail_in y' ≡ₚ mail_in y ++ e → mail (<[x := y']> V) ≡ₚ mail V ++ e.
Proof.
  intros Hx He. pose proof (mail_update V x y y' Hx) as Hm. fold (mail_in y) (mail_in y') in Hm. rewrite He in Hm.
  apply (Permutation_app_inv_r (mail_in y)). rewrite Hm. solve_Permutation.
Qed.
Lemma mail_lose V x y y' e : V !! x = Some y → mail_in y ≡ₚ mail_in y' ++ e → mail (<[x := y']> V) ++ e ≡ₚ mail V.
Proof.
  intros Hx He. pose proof (mail_update V x y y' Hx) as Hm. fold (mail_in y) (mail_in y') in Hm. rewrite He in Hm.
  apply (Permutation_app_inv_r (mail_in y')). rewrite <- Hm. solve_Permutation.
Qed.
Lemma mail_keep V x y y' : V !! x = Some y → mail_in y' ≡ₚ mail_in y → mail (<[x := y']> V) ≡ₚ mail V.
Proof. intros Hx He. rewrite (mail_gain V x y y' [] Hx); by rewrite app_nil_r. Qed.

Lemma mail_of_cons f l : mail_of (f :: l) = mail_of [f] ++ mail_of l.
Proof. apply (mail_of_app [f] l). Qed.
Lemma mail_of_one f f' : shape f' = shape f → mail_of [f'] = mail_of [f].
Proof. intros E. apply mail_of_shape. simpl. by rewrite E. Qed.

Lemma on_vc_again R V i p v f x : on_vc i p v f (mkNet R (<[(i, p, v) := x]> V)) = Ok (mkNet R (<[(i, p, v) := f x]> V)).
Proof. rewrite (on_vc_ok _ _ _ _ _ x) by apply lookup_insert_eq. simpl. by rewrite insert_insert_eq. Qed.

Lemma mail_in_sent f l m z : v_output z = f :: l → mail_in z ≡ₚ mail_in (sent f l m z) ++ mail_of [f].
Proof.
  intros El. destruct (sent_fields f l m z) as (E1 & _ & _ & _ & _ & E6 & _). unfold mail_in. rewrite E1, E6, El, (mail_of_cons f l). solve_Permutation.
Qed.

(** ** LT *)
Lemma lt_pick_ok n i port :
  net_inv k W n → (i < length W)%nat → (port < num_port k)%nat →
  ∃ o, lt_pick k i port n = Ok o ∧ ∀ v f, o = Some (v, f) →
    (v < num_vc k)%nat ∧ ∃ x l, n_vcs n !! (i, port, v) = Some x ∧ v_output x = f :: l ∧ v_credit x ≠ 0.
Proof.
  intros Hn Hi Hp. destruct (router_there n i Hn Hi) as [t Ht]. unfold lt_pick. rewrite (router_at_ok _ _ _ Ht). cbn [mbind res_bind].
  set (body := λ d (_ : unit), _).
  assert (∀ d s, d ∈ vcs k → ∃ o, body d s = Ok o ∧ ∀ s' vf, o = Stop s' vf →
    (vf.1 < num_vc k)%nat ∧ ∃ x l, n_vcs n !! (i, port, vf.1) = Some x ∧ v_output x = vf.2 :: l ∧ v_credit x ≠ 0) as Hbody.
  { intros d s Hd. unfold body. set (v := Z.to_nat _). pose proof (no_vcs k Hk).
    assert (v < num_vc k)%nat as Hv by (unfold v; pose proof (Z.mod_pos_bound (u64 (Z.of_nat d + r_cycle t)) (Z.of_nat (num_vc k)) ltac:(lia)); lia).
    destruct (vc_there n i port v Hn Hi Hp Hv) as [x Hx]. rewrite (vc_at_ok _ _ _ _ _ Hx). simpl.
    destruct (v_output x) as [|f l] eqn:El; [by eexists|]. case_bool_decide as Hc; [by eexists|].
    destruct Hn as (_ & _ & c & q & HI). pose proof (oo_flits _ _ _ _ _ (vi_out _ _ _ _ _ HI _ _ _ _ Hx)) as Hall. rewrite El in Hall.
    apply Forall_cons in Hall as [[-> _] _]. rewrite (bool_decide_true (ST = ST)) by done. simpl. eexists. split; [done|]. intros [] vf. case_bool_decide; [|done].
    intros [= <-]. simpl. eauto 10. }
  destruct (forM_total (λ _, True) (vcs k) tt body) as [o Ho]; [done| |].
  { intros d s Hd _. destruct (Hbody d s Hd) as (o & E & _). by eauto. }
  rewrite Ho. cbn [mbind res_bind]. eexists. split; [done|].
  pose proof (forM_inv (λ _, True) (λ _ vf, (vf.1 < num_vc k)%nat ∧ ∃ x l, n_vcs n !! (i, port, vf.1) = Some x ∧ v_output x = vf.2 :: l ∧ v_credit x ≠ 0)
    (vcs k) tt body o ltac:(done)) as H.
  specialize (H ltac:(intros d s o1 Hd _ E; destruct (Hbody d s Hd) as (o2 & E2 & Hs); assert (o1 = o2) as -> by congruence; destruct o2; [done|by eapply Hs]) Ho).
  intros v f. destruct o as [|s [v' f']]; [done|]. by intros [= -> ->].
Qed.

(** A request that has got to its router. *)
Lemma moved_home h n i t V c q f :
  net_inv k W n → n_routers n !! i = Some t → f_dst f = r_id t →
  vcs_inv k W c q V → credits_inv k W V (n_routers n) → mail V ++ [(f_req f, f_dst f)] ≡ₚ mail (n_vcs n) →
  moved h n (mkNet (<[i := set_req (r_req t ++ [f_req f]) t]> (n_routers n)) V).
Proof.
  intros (H1 & H2 & _) Ht Hd HI HC Hm.
  assert (0 ≤ r_next_vc t) by (apply (ri_arrays _ _ _ H1); by eapply list_elem_of_lookup_2). split; simpl.
  - split; [by eapply routers_insert|]. split; [|by exists c, q]. simpl. apply (credits_same V _ (n_routers n)); try done.
    intros j. destruct (decide (i = j)) as [<-|?]; [|by rewrite list_lookup_insert_ne].
    rewrite list_lookup_insert_eq by (by eapply lookup_lt_Some). by rewrite Ht.
  - unfold traffic, posted. simpl. rewrite (bind_insert_same _ _ _ t) by done. f_equiv. rewrite <- Hm. unfold home.
    pose proof (bind_insert_perm (λ t, (λ p, (p, r_id t)) <$> r_req t) (n_routers n) i t (set_req (r_req t ++ [f_req f]) t) Ht) as Hh.
    simpl in Hh. rewrite fmap_app in Hh. simpl in Hh. rewrite <- Hd in Hh. rewrite Hd. rewrite Hd in Hh.
    apply (Permutation_app_inv_r ((λ p, (p, r_id t)) <$> r_req t)). rewrite <- app_assoc, Hh. solve_Permutation.
  - intros j t0 Hj. apply list_lookup_insert_Some in Hj as [(-> & <- & _)|[_ Hj]]; [|by exists t0]. exists t. split; [done|]. split; [done|]. simpl. by eexists.
Qed.

Lemma lt_move_local h R V c q i v f x l t :
  net_inv k W (mkNet R V) → R !! i = Some t → vcs_inv k W c q V → V !! (i, LOCAL, v) = Some x → v_output x = f :: l → f_dst f = r_id t →
  ∃ n', lt_move k i LOCAL v f (mkNet R V) = Ok n' ∧ moved h (mkNet R V) n'.
Proof.
  intros Hn Ht HI Hx El Hd. pose proof Hn as (H1 & H2 & _). simpl in H1, H2.
  unfold lt_move. rewrite (router_at_ok (mkNet R V) _ _ Ht). cbn [mbind res_bind].
  rewrite !bool_decide_true by done. cbn [mbind res_bind]. rewrite (on_vc_ok _ _ _ _ _ x) by done. cbn [mbind res_bind n_routers n_vcs].
  pose proof (vcs_eject k W HW c q V i v x f l HI Hx El) as HI'.
  pose proof (mail_lose V _ _ _ _ Hx (mail_in_sent f l (v_credit x) x El)) as Hm. destruct (sent_fields f l (v_credit x) x) as (E1 & _ & _ & _ & _ & _ & E7).
  assert (credits_inv k W (<[(i, LOCAL, v) := sent f l (v_credit x) x]> V) R) as HC.
  { apply (credits_same V _ R); try done.
    - intros y Hy. split; [by apply (keys_insert _ _ _ _ _ Hx) in Hy|]. destruct (decide (y = (i, LOCAL, v))) as [->|?].
      + by rewrite lookup_insert_eq, Hx; simpl; rewrite E7.
      + by rewrite lookup_insert_ne.
    - intros a p w Hp. rewrite input_insert, decide_False; [done|]. congruence. }
  rewrite El. simpl. destruct (f_tail f) eqn:Et.
  - rewrite on_vc_again. cbn [mbind res_bind]. rewrite (on_router_ok _ _ _ t) by done. eexists. split; [done|].
    assert (set_avail true (set_output l x) = sent f l (v_credit x) x) as -> by (unfold sent; rewrite Et; by destruct x).
    apply (moved_home h (mkNet R V) i t _ c q f); try done. by unfold mail_of in Hm; rewrite filter_cons_True in Hm by done.
  - eexists. split; [done|]. assert (set_output l x = sent f l (v_credit x) x) as -> by (unfold sent; rewrite Et; by destruct x).
    apply (moved_vcs h (mkNet R V) _ c q); try done. unfold mail_of in Hm. rewrite filter_cons_False in Hm by congruence. by rewrite app_nil_r in Hm.
Qed.

Lemma lt_move_link h R V c q i port v j f x l t :
  net_inv k W (mkNet R V) → R !! i = Some t → vcs_inv k W c q V → V !! (i, port, v) = Some x → v_output x = f :: l →
  port ≠ LOCAL → link_of W i port = Some j → flit_ok W f → 1 ≤ v_credit x ≤ 10 →
  ∃ n', lt_move k i port v f (mkNet R V) = Ok n' ∧ moved h (mkNet R V) n'.
Proof.
  intros Hn Ht HI Hx El Hp Hj Hok Hcredit. pose proof Hn as (H1 & H2 & _). simpl in H1, H2.
  unfold lt_move. rewrite (router_at_ok (mkNet R V) _ _ Ht). cbn [mbind res_bind].
  rewrite !bool_decide_false by done. destruct (wi_both k W HW i port j Hj) as (_ & Hpn & Hji & Hjn & Hopn & Hol & Hopp & Hback).
  rewrite (link_at_ok (mkNet R V) _ _ _ H1 Hj). cbn [mbind res_bind].
  destruct (proj1 (vi_keys _ _ _ _ _ HI i port v) ltac:(eauto)) as (_ & _ & Hv).
  destruct (vc_there _ j (opposite_dir port) v Hn Hjn Hopn Hv) as [y Hy]. simpl in Hy. unfold insert_packet. rewrite (on_vc_ok _ _ _ _ _ y) by done. cbn [mbind res_bind n_routers n_vcs].
  set (f' := set_f_state IB (set_f_rdy _ f)). set (y' := set_input _ y).
  destruct (ri_arrays _ _ _ H1 t) as (_ & Hla & Hnext); [by eapply list_elem_of_lookup_2|].
  rewrite vec_set_lt by lia. cbn [mbind res_bind]. rewrite (on_router_ok _ _ _ t) by done. cbn [mbind res_bind].
  set (t' := set_switch _ _ t). unfold set_router. cbn [n_routers n_vcs].
  assert ((i, port, v) ≠ (j, opposite_dir port, v)) as Hne by congruence.
  rewrite (on_vc_ok _ _ _ _ _ x) by (simpl; by rewrite lookup_insert_ne). cbn [mbind res_bind n_routers n_vcs]. rewrite on_vc_again. cbn [mbind res_bind].
  rewrite El. simpl. rewrite int_small by lia. set (z' := set_credit _ _).
  assert ((if f_tail f then n ← on_vc i port v (set_avail true) (mkNet (<[i:=t']> R) (<[(i, port, v):=z']> (<[(j, opposite_dir port, v):=y']> V))); Ok n
          else Ok (mkNet (<[i:=t']> R) (<[(i, port, v):=z']> (<[(j, opposite_dir port, v):=y']> V))))
    = Ok (mkNet (<[i:=t']> R) (<[(i, port, v):=sent f l (v_credit x - 1) x]> (<[(j, opposite_dir port, v):=y']> V)))) as ->.
  { unfold sent. destruct (f_tail f); [|done]. by rewrite on_vc_again. }
  eexists. split; [done|].
  set (V' := <[(i, port, v) := _]> _).
  assert (vcs_inv k W c q V') as HI' by (apply (vcs_link k W HW c q V i port v j x y f); try done; lia).
  destruct (sent_fields f l (v_credit x - 1) x) as (E1 & _ & _ & _ & _ & _ & E7).
  assert (credits_inv k W V' R) as HC.
  { apply (credits_link V V' R i port v j x (sent f l (v_credit x - 1) x)); try done; [by apply lookup_insert_eq|..].
    - intros u Hu Hsome. unfold V' in *. rewrite lookup_insert_ne in * by done. split; [by apply (keys_insert _ _ _ _ _ Hy) in Hsome|].
      destruct (decide (u = (j, opposite_dir port, v))) as [->|?]; [by rewrite lookup_insert_eq, Hy|by rewrite lookup_insert_ne].
    - intros u. unfold V'. rewrite !input_insert, E1. destruct (decide (u = (i, port, v))) as [->|?].
      + rewrite decide_False by done. rewrite (input_at _ _ _ Hx). lia.
      + case_decide; [subst u; rewrite (input_at _ _ _ Hy); simpl; rewrite length_app; simpl; lia|lia]. }
  assert (mail V' ≡ₚ mail V) as Hm.
  { apply (Permutation_app_inv_r (mail_of [f])). unfold V'. rewrite mail_lose; [|by rewrite lookup_insert_ne|by apply mail_in_sent].
    apply mail_gain with y; [done|]. unfold mail_in, y'. simpl. rewrite mail_of_app, (mail_of_one f f') by done. solve_Permutation. }
  eapply moved_trans; [apply (moved_vcs h (mkNet R V) V' c q Hn HI' HC Hm)|].
  apply (moved_router h (mkNet R V') i t); try done; [by split; [|split; [|exists c, q]]|simpl; by rewrite length_insert].
Qed.

Lemma lt_move_ok h n i port v f x l :
  net_inv k W n → (i < length W)%nat → n_vcs n !! (i, port, v) = Some x → v_output x = f :: l → v_credit x ≠ 0 →
  ∃ n', lt_move k i port v f n = Ok n' ∧ moved h n n'.
Proof.
  intros Hn Hi Hx El Hcr. destruct (router_there n i Hn Hi) as [t Ht]. pose proof Hn as (H1 & H2 & c & q & HI).
  pose proof (oo_flits _ _ _ _ _ (vi_out _ _ _ _ _ HI _ _ _ _ Hx)) as Hall. rewrite El in Hall. apply Forall_cons in Hall as [(Hst & Hok & Hgo) _].
  pose proof (vo_credit _ _ _ _ _ _ (vi_vc _ _ _ _ _ HI _ _ _ _ Hx)) as Hcredit.
  destruct n as [R V]. simpl in *. unfold goes_to in Hgo.
  destruct (decide (port = LOCAL)) as [->|Hp].
  - apply (lt_move_local h R V c q i v f x l t); try done. unfold id_of in Hgo. rewrite (static_at _ _ _ H1 Ht) in Hgo. by injection Hgo.
  - destruct Hgo as [j Hj]. apply (lt_move_link h R V c q i port v j f x l t); try done. lia.
Qed.

(** ** Loops of steps *)
Lemma foldM_moved {A} h (l : list A) body n :
  net_inv k W n → (∀ a n1, a ∈ l → net_inv k W n1 → ∃ n2, body a n1 = Ok n2 ∧ moved h n1 n2) →
  ∃ n', foldM l n body = Ok n' ∧ moved h n n'.
Proof.
  intros Hn Hb. apply (foldM_total (moved h n)); [by apply moved_refl|]. intros a n1 Ha Hm.
  destruct (Hb a n1 Ha (mv_inv _ _ _ Hm)) as (n2 & E & H2). exists n2. split; [done|]. by eapply moved_trans.
Qed.

Lemma in_ports p : p ∈ ports k → (p < num_port k)%nat.
Proof. unfold ports. rewrite elem_of_seq. lia. Qed.
Lemma in_vcs v : v ∈ vcs k → (v < num_vc k)%nat.
Proof. unfold vcs. rewrite elem_of_seq. lia. Qed.

Lemma arrays_at n i t : net_inv k W n → n_routers n !! i = Some t →
  length (r_sw_avail t) = num_port k ∧ length (r_link_avail t) = num_port k ∧ 0 ≤ r_next_vc t.
Proof. intros [H1 _] Ht. apply (ri_arrays _ _ _ H1). by eapply list_elem_of_lookup_2. Qed.

Lemma stage_lt_ok h i n : net_inv k W n → (i < length W)%nat → ∃ n', stage_lt k i n = Ok n' ∧ moved h n n'.
Proof.
  intros Hn Hi. unfold stage_lt.
  assert (∀ p n1, p ∈ ports k → net_inv k W n1 → ∃ o, lt_one k i p n1 = Ok o ∧
    match o with Next n2 => moved h n1 n2 | Stop n2 _ => moved h n1 n2 end) as Hone.
  { intros p n1 Hp%in_ports Hn1. destruct (router_there n1 i Hn1 Hi) as [t Ht]. unfold lt_one. rewrite (router_at_ok _ _ _ Ht). cbn [mbind res_bind].
    destruct (arrays_at n1 i t Hn1 Ht) as (_ & Hla & _). destruct (vec_at_lt (r_link_avail t) p ltac:(lia)) as [la ->]. cbn [mbind res_bind].
    case_bool_decide; [eexists; split; [done|]; destruct (gpu_validation k); by apply moved_refl|].
    destruct (lt_pick_ok n1 i p Hn1 Hi Hp) as ([[v f]|] & -> & Hw); cbn [mbind res_bind]; [|eexists; split; [done|]; by apply moved_refl].
    destruct (Hw v f eq_refl) as (_ & x & l & Hx & El & Hc). destruct (lt_move_ok h n1 i p v f x l Hn1 Hi Hx El Hc) as (n2 & -> & Hm).
    by eexists. }
  destruct (forM_total (moved h n) (ports k) n (lt_one k i)) as [o Ho]; [by apply moved_refl|..].
  { intros p n1 Hp Hm. destruct (Hone p n1 Hp (mv_inv _ _ _ Hm)) as (o & E & Hs). exists o. split; [done|]. intros n2 ->. by eapply moved_trans. }
  rewrite Ho. cbn [mbind res_bind]. eexists. split; [done|].
  pose proof (forM_inv (moved h n) (λ n' _, moved h n n') (ports k) n (lt_one k i) o) as H. destruct o; (apply H; [by apply moved_refl| |done]).
  all: intros p n1 o1 Hp Hm E; destruct (Hone p n1 Hp (mv_inv _ _ _ Hm)) as (o2 & E2 & Hs); assert (o1 = o2) as -> by congruence; destruct o2; by eapply moved_trans.
Qed.

(** ** ST *)
Lemma st_pick_ok n i op :
  net_inv k W n → (i < length W)%nat →
  ∃ o, st_pick k i op n = Ok o ∧ ∀ ip v, o = Some (ip, v) → ∃ x, n_vcs n !! (i, ip, v) = Some x ∧ st_ready op x = true.
Proof.
  intros Hn Hi. unfold st_pick.
  apply (foldM_total (λ o, ∀ ip v, o = Some (ip, v) → ∃ x, n_vcs n !! (i, ip, v) = Some x ∧ st_ready op x = true)); [done|].
  intros p w Hp%in_ports Hw. case_bool_decide; [by eexists|]. set (body := λ jj (_ : unit), _).
  assert (∀ v s, v ∈ vcs k → ∃ x, n_vcs n !! (i, p, v) = Some x ∧ body v s = Ok (if st_ready op x then Stop tt v else Next tt)) as Hbody.
  { intros v s Hv%in_vcs. destruct (vc_there n i p v Hn Hi Hp Hv) as [x Hx]. exists x. split; [done|]. unfold body. by rewrite (vc_at_ok _ _ _ _ _ Hx). }
  destruct (forM_total (λ _, True) (vcs k) tt body) as [o Ho]; [done|intros v s Hv _; destruct (Hbody v s Hv) as (x & _ & E); by eauto|].
  rewrite Ho. cbn [mbind res_bind]. eexists. split; [done|].
  pose proof (forM_inv (λ _, True) (λ _ v, ∃ x, n_vcs n !! (i, p, v) = Some x ∧ st_ready op x = true) (vcs k) tt body o ltac:(done)) as Hend.
  specialize (Hend ltac:(intros v s o1 Hv _ E; destruct (Hbody v s Hv) as (x & Hx & E2); rewrite E2 in E; injection E as <-; destruct (st_ready op x) eqn:Er; [by exists x|done]) Ho).
  destruct o as [|s v']; [by apply Hw|]. intros ip v [= <- <-]. done.
Qed.

Lemma crossed_fields f l y : v_input (crossed f l y) = l ∧ v_output (crossed f l y) = v_output y ∧ v_credit (crossed f l y) = v_credit y.
Proof. unfold crossed. by destruct (f_tail f). Qed.

(** The channels after a flit has crossed the switch. *)
Lemma crossed_vcs c q V i p v y f l o ov z :
  vcs_inv k W c q V → V !! (i, p, v) = Some y → v_input y = f :: l → f_state f = SA → allocated k W i p y o ov (c (i, p, v)) →
  V !! (i, o, ov) = Some z →
  let V' := <[(i, p, v) := crossed f l y]> (<[(i, o, ov) := set_output (v_output z ++ [set_f_state ST f]) z]> V) in
  (∃ c' q', vcs_inv k W c' q' V') ∧ mail V' ≡ₚ mail V ∧
  (∀ u, is_Some (V' !! u) → is_Some (V !! u) ∧ v_credit <$> V' !! u = v_credit <$> V !! u) ∧
  (∀ u, input_of V' u = if decide (u = (i, p, v)) then l else input_of V u).
Proof.
  intros HI Hy El Hs Ha Hz. set (z' := set_output _ z). intros V'. destruct (crossed_fields f l y) as (E1 & E2 & E3).
  assert ((i, p, v) ≠ (i, o, ov)) as Hne by (destruct Ha as (_ & _ & _ & _ & _ & ? & _); congruence).
  split; [eexists _, _; by apply (vcs_cross k W HW)|]. split; [|split].
  - apply (Permutation_app_inv_r (mail_of [f])). unfold V'. rewrite mail_lose; [|by rewrite lookup_insert_ne|].
    + apply mail_gain with z; [done|]. unfold mail_in, z'. simpl. rewrite mail_of_app, (mail_of_one f (set_f_state ST f)) by done. solve_Permutation.
    + unfold mail_in. rewrite E1, E2, El, (mail_of_cons f l). solve_Permutation.
  - intros u Hu. unfold V' in *. destruct (decide (u = (i, p, v))) as [->|?]; [rewrite lookup_insert_eq, Hy; simpl; by rewrite E3|].
    rewrite lookup_insert_ne in * by done. destruct (decide (u = (i, o, ov))) as [->|?]; [by rewrite lookup_insert_eq, Hz|by rewrite lookup_insert_ne in * by done].
  - intros u. unfold V'. rewrite !input_insert, E1. case_decide; [done|]. case_decide; [subst; by rewrite (input_at _ _ _ Hz)|done].
Qed.

(** A step that sends a credit. *)
Lemma moved_credit h R V V' j u cr c q :
  routers_inv k W R → R !! j = Some u → vcs_inv k W c q V' → credits_inv k W V' (<[j := set_credits (r_pending u ++ [cr]) u]> R) →
  mail V' ≡ₚ mail V → moved h (mkNet R V) (mkNet (<[j := set_credits (r_pending u ++ [cr]) u]> R) V').
Proof.
  intros H1 Hu HI HC Hm. assert (0 ≤ r_next_vc u) by (apply (ri_arrays _ _ _ H1); by eapply list_elem_of_lookup_2). split; simpl.
  - split; [by eapply routers_insert|]. split; [done|]. by exists c, q.
  - unfold traffic, home, posted. simpl. by rewrite Hm, !(bind_insert_same _ _ _ u).
  - intros a t0 Ha. apply list_lookup_insert_Some in Ha as [(-> & <- & _)|[_ Ha]]; [by exists u|by exists t0].
Qed.

Lemma st_move_ok h n i op ip v x :
  net_inv k W n → (i < length W)%nat → n_vcs n !! (i, ip, v) = Some x → st_ready op x = true →
  ∃ n', st_move i op ip v n = Ok n' ∧ moved h n n'.
Proof.
  intros Hn Hi Hx Hr. destruct (router_there n i Hn Hi) as [t Ht]. pose proof Hn as (H1 & H2 & c & q & HI).
  unfold st_ready in Hr. apply andb_true_iff in Hr as [[Hrf%bool_decide_eq_true _]%andb_true_iff Hr].
  destruct (v_input x) as [|f l] eqn:El; [done|]. apply bool_decide_eq_true in Hr.
  destruct (front_goes k W c q (n_vcs n) i ip v x f l HI Hx El Hr) as (o & ov & Ha & _ & _). pose proof Ha as (A1 & _ & A3 & A4 & A5 & A6 & _).
  assert (o = op) as -> by lia. destruct (vc_there n i op ov Hn Hi A4 A5) as [z Hz].
  destruct (crossed_vcs c q (n_vcs n) i ip v x f l op ov z HI Hx El Hr Ha Hz) as ((c' & q' & HI') & Hm & Hcr & Hin).
  destruct (proj1 (vi_keys _ _ _ _ _ HI i ip v) ltac:(eauto)) as (_ & Hip & Hv).
  pose proof (vo_edge _ _ _ _ _ _ (vi_vc _ _ _ _ _ HI _ _ _ _ Hx)) as Hedge. rewrite El in Hedge.
  destruct n as [R V]. simpl in *. set (V' := <[(i, ip, v) := _]> _) in *.
  unfold st_move. rewrite (router_at_ok (mkNet R V) _ _ Ht). cbn [mbind res_bind]. rewrite (vc_at_ok (mkNet R V) _ _ _ x Hx). cbn [mbind res_bind].
  rewrite El. cbn [vec_front vec_at]. simpl. rewrite A3, decide_False by lia. cbn [mbind res_bind]. rewrite Nat2Z.id.
  rewrite (on_vc_ok _ _ _ _ _ z) by done. cbn [mbind res_bind n_routers n_vcs].
  rewrite (on_vc_ok _ _ _ _ _ x) by (simpl; rewrite lookup_insert_ne by congruence; done). cbn [mbind res_bind n_routers n_vcs].
  rewrite El. simpl. match goal with |- context [if f_tail f then ?a else ?b] => assert ((if f_tail f then a else b) = Ok (mkNet R V')) as -> end.
  { unfold V', crossed. destruct (f_tail f); [by rewrite on_vc_again|done]. }
  cbn [mbind res_bind]. case_bool_decide as Hloc.
  - eexists. split; [done|]. apply (moved_vcs h (mkNet R V) V' c' q'); try done. apply (credits_same V _ R); try done.
    intros a b w Hb. rewrite Hin, decide_False; [done|]. congruence.
  - destruct (link_of W i ip) as [j|] eqn:Hj; [|by destruct (Hedge eq_refl)]. destruct (wi_both k W HW i ip j Hj) as (_ & _ & Hji & Hjn & _).
    rewrite (link_at_ok (mkNet R V') i ip j H1 Hj). cbn [mbind res_bind]. destruct (router_in R j H1 Hjn) as [u Hu].
    unfold insert_credit. set (cr := mkCredit _ _ _). rewrite (on_router_ok (mkNet R V') j _ u Hu). unfold set_router. simpl. eexists. split; [done|].
    apply (moved_credit h R V V' j u cr c' q'); try done. apply (credits_cross V V' R i ip v j u cr); try done.
    intros w. rewrite Hin. case_decide; [subst w; rewrite (input_at _ _ _ Hx), El; simpl; lia|lia].
Qed.

Lemma stage_st_ok h i n : net_inv k W n → (i < length W)%nat → ∃ n', stage_st k i n = Ok n' ∧ moved h n n'.
Proof.
  intros Hn Hi. apply foldM_moved; [done|]. intros op n1 _ Hn1. unfold st_one.
  destruct (st_pick_ok n1 i op Hn1 Hi) as ([[ip v]|] & -> & Hw); cbn [mbind res_bind]; [|eexists; split; [done|by apply moved_refl]].
  destruct (Hw ip v eq_refl) as (x & Hx & Hr). by apply (st_move_ok h n1 i op ip v x).
Qed.

(** ** Arbitration *)
Lemma oldest_flit_ok n i op test :
  net_inv k W n → (i < length W)%nat →
  (∀ p v x f l, n_vcs n !! (i, p, v) = Some x → v_input x = f :: l → ∃ b, test p v x f = Ok b) →
  ∃ o, oldest_flit k i op test n = Ok o ∧ ∀ p v, o = Some (p, v) →
    p ≠ op ∧ ∃ x f l, n_vcs n !! (i, p, v) = Some x ∧ v_input x = f :: l ∧ test p v x f = Ok true.
Proof.
  intros Hn Hi Htest. unfold oldest_flit.
  set (P := λ (b : Z * option (nat * nat)), ∀ p v, b.2 = Some (p, v) →
    p ≠ op ∧ ∃ x f l, n_vcs n !! (i, p, v) = Some x ∧ v_input x = f :: l ∧ test p v x f = Ok true).
  match goal with |- context [foldM (ports k) ?s ?g] => destruct (foldM_total P (ports k) s g) as (b & -> & Hb) end;
    [done| |cbn [mbind res_bind]; by exists b.2].
  intros p b Hp%in_ports Hb. case_bool_decide as Hop; [by exists b|]. apply (foldM_total P); [done|].
  intros v b1 Hv%in_vcs Hb1. destruct (vc_there n i p v Hn Hi Hp Hv) as [x Hx]. rewrite (vc_at_ok _ _ _ _ _ Hx). cbn [mbind res_bind].
  destruct (v_input x) as [|f l] eqn:El; [by exists b1|]. destruct (Htest p v x f l Hx El) as [t Et]. rewrite Et. cbn [mbind res_bind].
  eexists. split; [done|]. destruct t; simpl; [|done]. case_bool_decide; [|done]. intros p' v' [= <- <-]. split; [done|]. by exists x, f, l.
Qed.

(** ** SA *)

(** A channel whose front flit changed. *)
Lemma vc_ok_front i p x f f' l (d : option Z) :
  vc_ok k W i p x d → v_input x = f :: l → flit_ok W f' →
  (idle k W i (set_input (f' :: l) x) ∧ d = None ∨ ∃ o ov, allocated k W i p (set_input (f' :: l) x) o ov d) →
  vc_ok k W i p (set_input (f' :: l) x) d.
Proof.
  intros [Y1 Y2 Y3 Y4 Y5 Y6 _] El Hok Ha. rewrite El in Y1, Y5, Y6. split; simpl; try done.
  - intros He. destruct (Y1 He); [by left|done].
  - apply Forall_cons in Y5 as [_ ?]. by apply Forall_cons.
Qed.

Lemma moved_front h n i p v x x' f f' l c q :
  net_inv k W n → vcs_inv k W c q (n_vcs n) → n_vcs n !! (i, p, v) = Some x → v_input x = f :: l → v_input x' = f' :: l → shape f' = shape f →
  v_route_fixed x' = v_route_fixed x → v_output_vc_id x' = v_output_vc_id x → v_output x' = v_output x → v_avail x' = v_avail x → v_credit x' = v_credit x →
  vc_ok k W i p x' (c (i, p, v)) → moved h n (mkNet (n_routers n) (<[(i, p, v) := x']> (n_vcs n))).
Proof.
  intros Hn HI Hx El El' Es E1 E2 E3 E4 E5 Hok. apply (moved_vcs h n _ c q); try done.
  - apply (vcs_touch k W c q _ i p v x); try done. by rewrite El, El', !fmap_cons, Es.
  - apply (credits_same (n_vcs n) _ (n_routers n)); try done; [apply Hn|..].
    + intros u Hu. split; [by apply (keys_insert _ _ _ _ _ Hx) in Hu|].
      destruct (decide (u = (i, p, v))) as [->|?]; [rewrite lookup_insert_eq, Hx; simpl; by rewrite E5|by rewrite lookup_insert_ne].
    + intros a b w _. rewrite input_insert. case_decide as E; [|done]. rewrite E, (input_at _ _ _ Hx), El, El'. done.
  - apply mail_keep with x; [done|]. unfold mail_in. rewrite E3, El, El', (mail_of_cons _ l), (mail_of_cons f l), (mail_of_one f f') by done. done.
Qed.

Lemma stage_sa_ok h i n : net_inv k W n → (i < length W)%nat → ∃ n', stage_sa k i n = Ok n' ∧ moved h n n'.
Proof.
  intros Hn Hi. apply foldM_moved; [done|]. intros op n1 Hop%in_ports Hn1. unfold sa_one.
  destruct (router_there n1 i Hn1 Hi) as [t Ht]. rewrite (router_at_ok _ _ _ Ht). cbn [mbind res_bind].
  destruct (arrays_at n1 i t Hn1 Ht) as (Hsw & _ & Hnext). destruct (vec_at_lt (r_sw_avail t) op ltac:(lia)) as [sw ->]. cbn [mbind res_bind].
  case_bool_decide; [|eexists; split; [done|by apply moved_refl]]. unfold stage_sa_pick_winner. rewrite (no_policy k Hk). simpl.
  destruct (oldest_flit_ok n1 i op (λ _ _, sa_test op) Hn1 Hi) as ([[p v]|] & -> & Hw); [by eexists| |cbn [mbind res_bind]; eexists; split; [done|by apply moved_refl]].
  destruct (Hw p v eq_refl) as (Hne & x & f & l & Hx & El & Htest). injection Htest as Htest. rewrite !andb_true_iff, !bool_decide_eq_true in Htest. destruct Htest as [[Hrf _] _].
  cbn [mbind res_bind]. rewrite (vc_at_ok _ _ _ _ _ Hx). cbn [mbind res_bind]. rewrite El. cbn [vec_front vec_at]. simpl.
  rewrite (on_vc_ok _ _ _ _ _ x Hx). cbn [mbind res_bind]. rewrite El. simpl. rewrite vec_set_lt by lia. cbn [mbind res_bind].
  rewrite (on_router_ok _ _ _ t) by done. eexists. split; [done|]. set (x' := set_input _ x).
  pose proof Hn1 as (H1 & H2 & c & q & HI). pose proof (vi_vc _ _ _ _ _ HI _ _ _ _ Hx) as Y.
  assert (moved h n1 (mkNet (n_routers n1) (<[(i, p, v) := x']> (n_vcs n1)))) as Hmv.
  { apply (moved_front h n1 i p v x x' f (set_f_state SA f) l c q); try done.
    apply (vc_ok_front i p x f); try done; [pose proof (vo_input _ _ _ _ _ _ Y) as Hall; rewrite El in Hall; by apply Forall_cons in Hall as [? _]|].
    right. destruct (vo_alloc _ _ _ _ _ _ Y) as [[(? & _) _]|(o & ov & A1 & A2 & A3 & A4 & A5 & A6 & A7)]; [lia|].
    exists o, ov. unfold allocated. simpl. split_and!; try done. destruct (c (i, p, v)) as [d|].
    - destruct A7 as [Hgo _]. split; [done|]. intros g [= <-]. by right.
    - destruct A7 as (f' & l' & El' & Hh & _ & Hgo). rewrite El in El'. injection El' as <- <-. exists (set_f_state SA f), l. split_and!; auto. }
  eapply moved_trans; [exact Hmv|]. apply (moved_router h _ i t); try done; [apply Hmv|simpl; by rewrite length_insert].
Qed.

(** ** VCA *)
Lemma vca_test_ok n i p v x f l id op ov rc :
  net_inv k W n → n_vcs n !! (i, p, v) = Some x → v_input x = f :: l → (rc < 2)%nat → (op < num_port k)%nat →
  ∃ b, vca_test k id op ov rc x f = Ok b ∧
    (b = true → f_head f = true ∧ f_state f = RC ∧ ∃ row, row ∈ v_route x ∧ row !! op = Some true).
Proof.
  intros (_ & _ & c & q & HI) Hx El Hrc Hop. destruct (vo_route _ _ _ _ _ _ (vi_vc _ _ _ _ _ HI _ _ _ _ Hx)) as [Hlen Hrows]. unfold vca_test.
  destruct (lookup_lt_is_Some_2 (v_route x) rc ltac:(lia)) as [row Hrow]. rewrite (proj2 (vec_at_Ok _ _ _) Hrow). cbn [mbind res_bind].
  rewrite Forall_lookup in Hrows. specialize (Hrows _ _ Hrow).
  destruct (lookup_lt_is_Some_2 row op ltac:(lia)) as [b Hb]. rewrite (proj2 (vec_at_Ok _ _ _) Hb). cbn [mbind res_bind].
  eexists. split; [done|]. rewrite !andb_true_iff, bool_decide_eq_true. intros [[[-> _] ?] ?]. split; [done|]. split; [done|].
  exists row. split; [by eapply list_elem_of_lookup_2|done].
Qed.

Lemma vca_grant_ok h n i op ov p v x f l :
  net_inv k W n → n_vcs n !! (i, p, v) = Some x → v_input x = f :: l → f_head f = true → f_state f = RC →
  (∃ row, row ∈ v_route x ∧ row !! op = Some true) → p ≠ op →
  (∃ z, n_vcs n !! (i, op, ov) = Some z ∧ v_avail z = true) →
  ∃ n', vca_grant i op ov p v n = Ok n' ∧ moved h n n'.
Proof.
  intros Hn Hx El Hh Hs (row & Hrow & Hbit) Hne (z & Hz & Hav). pose proof Hn as (H1 & H2 & c & q & HI).
  destruct (idle_header k W c q _ i p v x f l HI Hx El Hh Hs) as [(_ & _ & _ & Hidle) _].
  destruct (Hidle f ltac:(by rewrite El)) as [?|[_ Hroute]]; [congruence|]. destruct (Hroute row op Hrow Hbit) as [_ Hgo].
  destruct n as [R V]. simpl in *. unfold vca_grant. rewrite (vc_at_ok (mkNet R V) _ _ _ x Hx). cbn [mbind res_bind]. rewrite El. cbn [vec_front vec_at]. simpl.
  rewrite (on_vc_ok (mkNet R V) _ _ _ _ x Hx). cbn [mbind res_bind n_routers n_vcs]. rewrite El. simpl. set (x' := set_alloc _ _ _ _).
  rewrite (on_vc_ok _ _ _ _ _ z) by (simpl; rewrite lookup_insert_ne by congruence; done). eexists. split; [done|]. cbn [n_routers n_vcs].
  apply (moved_vcs h (mkNet R V) _ c (<[(i, op, ov) := Some (i, p, v)]> q)); try done.
  - by apply (vcs_grant k W).
  - apply (credits_same V _ R); try done.
    + intros u Hu. split; [apply (keys_insert _ _ z) in Hu; [by apply (keys_insert _ _ _ _ _ Hx) in Hu|by rewrite lookup_insert_ne by congruence]|].
      destruct (decide (u = (i, op, ov))) as [->|?]; [by rewrite lookup_insert_eq, Hz|rewrite lookup_insert_ne by done].
      destruct (decide (u = (i, p, v))) as [->|?]; [by rewrite lookup_insert_eq, Hx|by rewrite lookup_insert_ne].
    + intros a b w _. rewrite !input_insert. repeat case_decide; simplify_eq; rewrite ?(input_at _ _ _ Hz), ?(input_at _ _ _ Hx), ?El; done.
  - rewrite mail_keep with (y := z); [|rewrite lookup_insert_ne by congruence; done|done].
    apply mail_keep with x; [done|]. unfold mail_in. simpl. rewrite El, (mail_of_cons _ l), (mail_of_cons f l), (mail_of_one f (set_f_state VCA f)) by done. done.
Qed.

Lemma stage_vca_ok h i n : net_inv k W n → (i < length W)%nat → ∃ n', stage_vca k i n = Ok n' ∧ moved h n n'.
Proof.
  intros Hn Hi. apply foldM_moved; [done|]. intros op n1 Hop%in_ports Hn1. apply foldM_moved; [done|]. intros ov n2 Hov%in_vcs Hn2.
  rewrite (no_ideal k Hk). unfold vca_one. destruct (vc_there n2 i op ov Hn2 Hi Hop Hov) as [z Hz]. rewrite (vc_at_ok _ _ _ _ _ Hz). cbn [mbind res_bind].
  destruct (v_avail z) eqn:Hav; [|eexists; split; [done|by apply moved_refl]]. unfold stage_vca_pick_winner. pose proof (no_vcs k Hk) as Hvcs.
  rewrite decide_False by lia. rewrite (no_policy k Hk). rewrite bool_decide_true by done. cbn [assert_ mbind res_bind].
  destruct (router_there n2 i Hn2 Hi) as [t Ht]. rewrite (router_at_ok _ _ _ Ht). cbn [mbind res_bind]. set (rc := match noc_topology k with ring => _ | mesh => _ end).
  assert (rc < 2)%nat as Hrc.
  { unfold rc. destruct (noc_topology k); [lia|]. apply Nat.Div0.div_lt_upper_bound. lia. }
  destruct (oldest_flit_ok n2 i op (λ _ _, vca_test k (r_id t) op ov rc) Hn2 Hi) as (o & -> & Hw).
  { intros p v x f l Hx El. destruct (vca_test_ok n2 i p v x f l (r_id t) op ov rc Hn2 Hx El Hrc Hop) as (b & -> & _). by exists b. }
  cbn [mbind res_bind]. destruct o as [[p v]|]; [|eexists; split; [done|by apply moved_refl]].
  destruct (Hw p v eq_refl) as (Hne & x & f & l & Hx & El & Htest).
  destruct (vca_test_ok n2 i p v x f l (r_id t) op ov rc Hn2 Hx El Hrc Hop) as (b & Eb & Hb). assert (b = true) as -> by congruence.
  destruct (Hb eq_refl) as (Hh & Hs & Hrow). apply (vca_grant_ok h n2 i op ov p v x f l); eauto.
Qed.

(** ** RC *)
Lemma set_bits_ok (ps : list nat) m row :
  length row = m → Forall (λ p, p < m)%nat ps →
  ∃ row', foldM ps row set_bit = Ok row' ∧ length row' = m ∧ ∀ o, row' !! o = Some true → row !! o = Some true ∨ o ∈ ps.
Proof.
  revert row. induction ps as [|p ps IH]; intros row Hlen Hps; [exists row; auto|]. apply Forall_cons in Hps as [Hp Hps].
  cbn [foldM]. assert (set_bit p row = Ok (<[p := true]> row)) as -> by (apply vec_set_lt; lia). cbn [mbind res_bind].
  destruct (IH (<[p := true]> row)) as (row' & -> & Hlen' & Hbits); [by rewrite length_insert|done|]. exists row'. split; [done|]. split; [done|].
  intros o Ho. destruct (Hbits o Ho) as [Hr|?]; [|right; by right]. destruct (decide (p = o)) as [->|?]; [right; left|left; by rewrite list_lookup_insert_ne in Hr].
Qed.

Lemma no_bits (m : nat) o : replicate m false !! o ≠ Some true.
Proof. intros [? _]%lookup_replicate. done. Qed.

(** A header that waits in the buffer has nothing allocated. *)
Lemma header_idle n i p v x f l c q :
  vcs_inv k W c q (n_vcs n) → n_vcs n !! (i, p, v) = Some x → v_input x = f :: l → f_head f = true → f_state f = IB →
  idle k W i x ∧ c (i, p, v) = None.
Proof.
  intros HI Hx El Hh Hs. destruct (vo_alloc _ _ _ _ _ _ (vi_vc _ _ _ _ _ HI _ _ _ _ Hx)) as [?|(o & ov & _ & _ & _ & _ & _ & _ & Ha)]; [done|].
  pose proof (vi_chain _ _ _ _ _ HI (i, p, v)) as Hch. unfold stream in Hch. rewrite (input_at _ _ _ Hx), El in Hch. simpl in Hch.
  destruct (c (i, p, v)) as [d|]; [unfold follows in Hch; by rewrite Hh in Hch|]. destruct Ha as (f' & l' & El' & _ & [?|?] & _); rewrite El in El'; injection El' as <- <-; congruence.
Qed.

(** The route of a header at the front. *)
Lemma routed_ok n i p v x f l c q t ps ps' d r0 r1 :
  vcs_inv k W c q (n_vcs n) → n_vcs n !! (i, p, v) = Some x → v_input x = f :: l → f_head f = true → f_state f = IB → routers_inv k W (n_routers n) → n_routers n !! i = Some t →
  Forall (λ p, (p < num_port k)%nat ∧ goes_to W i p (f_dst f)) (ps ++ default [] ps') → (ps' = None → noc_topology k = ring) → (ps' ≠ None → noc_topology k ≠ ring) →
  (d = -1 ∨ d = Z.of_nat LEFT ∨ d = Z.of_nat RIGHT) → length r0 = num_port k → length r1 = num_port k →
  (∀ o, r0 !! o = Some true → o ∈ ps) → (∀ o, r1 !! o = Some true → match ps' with Some ps' => o ∈ ps' | None => v_route x !! 1%nat = Some r1 end) →
  vc_ok k W i p (set_route [r0; r1] (set_input (set_f_dir d (set_f_state RC f) :: l) x)) (c (i, p, v)).
Proof.
  intros HI Hx El Hh Hs H1 Ht Hps Hnone Hsome Hd Hl0 Hl1 Hb0 Hb1. destruct (header_idle n i p v x f l c q HI Hx El Hh Hs) as [(I1 & I2 & I3 & _) Hc].
  pose proof (vi_vc _ _ _ _ _ HI _ _ _ _ Hx) as [Y1 Y2 Y3 Y4 Y5 Y6 _]. rewrite El in Y1, Y5, Y6. rewrite Forall_forall in Hps.
  assert (∀ o, noc_topology k = ring → r1 !! o ≠ Some true) as Hr1.
  { intros o Hring Ho. specialize (Hb1 o Ho). destruct ps' as [ps'|]; [by apply Hsome|]. by apply (Y4 r1 o). }
  split; simpl; try done.
  - intros He. destruct (Y1 He); [by left|done].
  - split; [done|]. by repeat constructor.
  - intros row o Hring [= <-]. by apply Hr1.
  - apply Forall_cons in Y5 as [[? _] ?]. apply Forall_cons. split; [by split|done].
  - left. split; [|done]. unfold idle. simpl. split_and!; try done. intros g [= <-]. right. split; [done|]. simpl. intros row o Hrow Ho.
    apply Hps. apply elem_of_app. apply elem_of_cons in Hrow as [->| ->%list_elem_of_singleton]; [left; by apply Hb0|right].
    specialize (Hb1 o Ho). destruct ps' as [ps'|]; [done|]. exfalso. by apply (Hr1 o (Hnone eq_refl)).
Qed.

Lemma route_of_ring_none id f ps ps' d total : route_of k total id f = Ok (ps, ps', d) → ps' ≠ None → noc_topology k ≠ ring.
Proof. unfold route_of. intros E Hps' Hring. rewrite Hring in E. repeat case_bool_decide; simplify_eq; done. Qed.

Lemma rc_one_ok h i p v n : net_inv k W n → (i < length W)%nat → (p < num_port k)%nat → (v < num_vc k)%nat →
  ∃ n', rc_one k i p v n = Ok n' ∧ moved h n n'.
Proof.
  intros Hn Hi Hp Hv. destruct (router_there n i Hn Hi) as [t Ht]. destruct (vc_there n i p v Hn Hi Hp Hv) as [x Hx]. unfold rc_one.
  rewrite (router_at_ok _ _ _ Ht). cbn [mbind res_bind]. rewrite (vc_at_ok _ _ _ _ _ Hx). cbn [mbind res_bind].
  case_bool_decide; [eexists; split; [done|by apply moved_refl]|]. destruct (v_input x) as [|f l] eqn:El; [eexists; split; [done|by apply moved_refl]|].
  destruct (f_head f) eqn:Hh; [|eexists; split; [done|by apply moved_refl]]. simpl. case_bool_decide as Hs; [|eexists; split; [done|by apply moved_refl]]. simpl.
  case_bool_decide; [|eexists; split; [done|by apply moved_refl]]. pose proof Hn as (H1 & H2 & c & q & HI). rewrite (router_count n Hn).
  pose proof (vi_vc _ _ _ _ _ HI _ _ _ _ Hx) as Y. pose proof (vo_input _ _ _ _ _ _ Y) as Hall. rewrite El in Hall. apply Forall_cons in Hall as [Hok _].
  destruct (wi_route k W HW i (r_id t) f) as (ps & ps' & d & E & Hps & Hnone & Hd); [unfold id_of; by rewrite (static_at _ _ _ H1 Ht)|done|].
  rewrite E. cbn [mbind res_bind fst snd]. assert (Forall (λ p, p < num_port k)%nat (ps ++ default [] ps')) as Hlt by (eapply Forall_impl; [exact Hps|]; by intros ? []).
  apply Forall_app in Hlt as [Hlt0 Hlt1]. destruct (set_bits_ok ps (num_port k) (replicate (num_port k) false)) as (r0 & -> & Hl0 & Hb0); [by rewrite length_replicate|done|].
  cbn [mbind res_bind]. destruct (vo_route _ _ _ _ _ _ Y) as [Hlen Hrows]. rewrite Forall_lookup in Hrows.
  assert (∃ r1, (match ps' with Some ps => foldM ps (replicate (num_port k) false) set_bit | None => vec_at (v_route x) 1 end) = Ok r1 ∧ length r1 = num_port k ∧
    ∀ o, r1 !! o = Some true → match ps' with Some ps' => o ∈ ps' | None => v_route x !! 1%nat = Some r1 end) as (r1 & -> & Hl1 & Hb1).
  { destruct ps' as [ps'|].
    - destruct (set_bits_ok ps' (num_port k) (replicate (num_port k) false)) as (r1 & -> & Hl1 & Hb1); [by rewrite length_replicate|done|].
      exists r1. split; [done|]. split; [done|]. intros o Ho. by destruct (Hb1 o Ho) as [?%no_bits|?].
    - destruct (lookup_lt_is_Some_2 (v_route x) 1 ltac:(lia)) as [r1 Hr1]. exists r1. rewrite (proj2 (vec_at_Ok _ _ _) Hr1). split; [done|]. split; [by eapply Hrows|done]. }
  cbn [mbind res_bind]. rewrite (on_vc_ok _ _ _ _ _ x Hx). eexists. split; [done|].
  apply (moved_front h n i p v x _ f (set_f_dir d (set_f_state RC f)) l c q); try done.
  apply (routed_ok n i p v x f l c q t ps ps' d r0 r1); try done; [by eapply route_of_ring_none|]. intros o Ho. by destruct (Hb0 o Ho) as [?%no_bits|?].
Qed.

Lemma stage_rc_ok h i n : net_inv k W n → (i < length W)%nat → ∃ n', stage_rc k i n = Ok n' ∧ moved h n n'.
Proof.
  intros Hn Hi. apply foldM_moved; [done|]. intros p n1 Hp%in_ports Hn1. apply foldM_moved; [done|]. intros v n2 Hv%in_vcs Hn2. by apply rc_one_ok.
Qed.

(** ** Packets from the interface *)

(** A request that can be sent: to a router, of a size that fits an [int]. *)
Definition packet_ok h (p : ptr) : Prop :=
  ∃ r, h !! p = Some r ∧ 0 ≤ mr_msg_dst r < Z.of_nat (length W) ∧ 0 ≤ mr_size r < 2 ^ 30.
Definition posts_ok h n : Prop := ∀ i t p, n_routers n !! i = Some t → p ∈ r_injection t → packet_ok h p.

Lemma posts_moved h n n' : moved h n n' → posts_ok h n → posts_ok h n'.
Proof. intros Hm Hp i t p Ht Hin. destruct (mv_routers _ _ _ Hm i t Ht) as (t0 & Ht0 & Hsub & _). apply (Hp i t0); [done|by apply Hsub]. Qed.

Lemma num_flits_ok r : 0 ≤ mr_size r < 2 ^ 30 → ∃ num, num_flits k r = Ok num ∧ 1 ≤ num < 2 ^ 31.
Proof.
  intros Hs. unfold num_flits. case_bool_decide; [|eexists; split; [done|lia]]. pose proof (no_width k Hk). rewrite decide_False by done.
  pose proof (u32_range (link_width k)). assert (0 ≤ mr_size r / u32 (link_width k) ≤ mr_size r) as Hq.
  { split; [apply Z.div_pos; lia|]. apply Z.div_le_upper_bound; nia. }
  eexists. split; [done|]. rewrite int_small by lia. lia.
Qed.

Lemma make_flits_ok r p cycle num :
  0 ≤ mr_msg_dst r < Z.of_nat (length W) → Forall (λ f, flit_ok W f ∧ f_state f = IB) (make_flits r p cycle num).
Proof.
  intros Hd. unfold make_flits. apply Forall_fmap, Forall_forall. intros j _. simpl. split; [|done]. split; [done|by left].
Qed.

Lemma make_flits_mail r p cycle num : 1 ≤ num → mail_of (make_flits r p cycle num) = [(p, mr_msg_dst r)].
Proof.
  intros Hn. unfold make_flits. replace (Z.to_nat num) with (Z.to_nat (num - 1) + 1)%nat by lia. rewrite seq_app, fmap_app, mail_of_app.
  assert (∀ mk : nat → flit_c, (∀ j, (j < Z.to_nat (num - 1))%nat → f_tail (mk j) = false) → mail_of (mk <$> seq 0 (Z.to_nat (num - 1))) = []) as ->.
  { intros mk Hmk. unfold mail_of. rewrite filter_none; [done|]. intros f (j & -> & Hj%elem_of_seq)%list_elem_of_fmap. rewrite Hmk by lia. done. }
  2: { intros j Hj. simpl. apply bool_decide_false. lia. }
  simpl. unfold mail_of. rewrite filter_cons_True; [done|]. simpl. apply bool_decide_true. lia.
Qed.

(** A request that leaves the interface. *)
Lemma moved_inject h n i t p rest v x l c q next r :
  net_inv k W n → n_routers n !! i = Some t → r_injection t = p :: rest → h !! p = Some r → 0 ≤ next →
  vcs_inv k W c q (n_vcs n) → n_vcs n !! (i, LOCAL, v) = Some x →
  chain None l = Some None → Forall (λ f, flit_ok W f ∧ f_state f = IB) l → (length (v_input x) + length l ≤ 10)%nat → mail_of l = [(p, mr_msg_dst r)] →
  moved h n (mkNet (<[i := set_clock (r_cycle t) next (set_injection rest t)]> (n_routers n)) (<[(i, LOCAL, v) := set_input (v_input x ++ l) x]> (n_vcs n))).
Proof.
  intros (H1 & H2 & _) Ht Ep Hr Hnext HI Hx Hch Hl Hlen Hmail. split; simpl.
  - split; [by eapply routers_insert|]. split; simpl.
    + apply (credits_same (n_vcs n) _ (n_routers n)); try done.
      * intros u Hu. split; [by apply (keys_insert _ _ _ _ _ Hx) in Hu|].
        destruct (decide (u = (i, LOCAL, v))) as [->|?]; [by rewrite lookup_insert_eq, Hx|by rewrite lookup_insert_ne].
      * intros a b w Hb. rewrite input_insert, decide_False; [done|]. congruence.
      * intros j. destruct (decide (i = j)) as [<-|?]; [|by rewrite list_lookup_insert_ne].
        rewrite list_lookup_insert_eq by (by eapply lookup_lt_Some). by rewrite Ht.
    + exists c, q. by apply (vcs_inject k W HW).
  - unfold traffic, home. simpl. rewrite (bind_insert_same _ _ _ t) by done.
    assert (mail (<[(i, LOCAL, v):=set_input (v_input x ++ l) x]> (n_vcs n)) ≡ₚ mail (n_vcs n) ++ [(p, mr_msg_dst r)]) as ->.
    { apply mail_gain with x; [done|]. unfold mail_in. simpl. rewrite mail_of_app, Hmail. solve_Permutation. }
    unfold posted. pose proof (bind_insert_perm (λ t, (λ p, (p, default (-1) (mr_msg_dst <$> h !! p))) <$> r_injection t) (n_routers n) i t
      (set_clock (r_cycle t) next (set_injection rest t)) Ht) as Hperm. simpl in Hperm. rewrite Ep in Hperm. simpl in Hperm. rewrite Hr in Hperm. simpl in Hperm.
    apply (Permutation_app_inv_r ((λ p, (p, default (-1) (mr_msg_dst <$> h !! p))) <$> rest)).
    match type of Hperm with ?A ++ ?e :: ?B ≡ₚ ?C ++ ?D => rewrite <- !app_assoc; transitivity ((A ++ e :: B) ++ mail (n_vcs n) ++ home (n_routers n)); [unfold home; solve_Permutation|rewrite Hperm; unfold home; solve_Permutation] end.
  - intros j t0 Hj. apply list_lookup_insert_Some in Hj as [(-> & <- & _)|[_ Hj]]; [|by exists t0]. exists t. split; [done|]. split; [|done]. simpl. rewrite Ep. set_solver.
Qed.

Lemma clock_same t : set_clock (r_cycle t) (r_next_vc t) t = t.
Proof. by destruct t. Qed.

Lemma inject_one_ok h i n t :
  net_inv k W n → posts_ok h n → n_routers n !! i = Some t → r_injection t ≠ [] →
  ∃ b n', inject_one k h i n = Ok (b, n') ∧ moved h n n' ∧
    (b = true → ∃ t', n_routers n' !! i = Some t' ∧ r_injection t' = tail (r_injection t)).
Proof.
  intros Hn Hposts Ht Hne. assert (i < length W)%nat as Hi by (rewrite <- (router_count n Hn); by eapply lookup_lt_Some).
  destruct (r_injection t) as [|p rest] eqn:Ep; [done|]. destruct (Hposts i t p Ht ltac:(rewrite Ep; left)) as (r & Hr & Hdst & Hsize).
  unfold inject_one. rewrite (router_at_ok _ _ _ Ht). cbn [mbind res_bind]. rewrite Ep. cbn [vec_front vec_at]. simpl. rewrite Hr. simpl.
  destruct (num_flits_ok r Hsize) as (num & -> & Hnum). cbn [mbind res_bind]. rewrite (no_ideal k Hk). pose proof (no_vcs k Hk) as Hvcs.
  pose proof (arrays_at n i t Hn Ht) as (_ & _ & Hnext).
  assert (∀ ii, (ii < num_vc k)%nat → (insertion_vc k t ii < num_vc k)%nat) as Hvc.
  { intros ii Hii. unfold insertion_vc. destruct (gpu_validation k); [apply Nat.mod_upper_bound; lia|done]. }
  match goal with |- context [forM (vcs k) tt ?g] => set (body := g) end.
  assert (∀ last t, ∃ next, (0 ≤ r_next_vc t → 0 ≤ next) ∧ advance_vc k last t = set_clock (r_cycle t) next t) as Hadv.
  { intros last t0. unfold advance_vc. destruct (_ && _); [eexists; split; [|done]; lia|]. exists (r_next_vc t0). by rewrite clock_same. }
  assert (∀ ii s, ii ∈ vcs k → ∃ x, n_vcs n !! (i, LOCAL, insertion_vc k t ii) = Some x ∧
    body ii s = Ok (if bool_decide (u64 (Z.of_nat (length (v_input x)) + num) ≤ buffer_max_size) then Stop tt ii else Next tt)) as Hbody.
  { intros ii s Hii%in_vcs%Hvc. assert (LOCAL < num_port k)%nat as Hloc by (unfold num_port, LOCAL; destruct (noc_topology k); lia).
    destruct (vc_there n i LOCAL _ Hn Hi Hloc Hii) as [x Hx]. exists x. split; [done|]. unfold body. by rewrite (vc_at_ok _ _ _ _ _ Hx). }
  destruct (forM_total (λ _, True) (vcs k) tt body) as [o Ho]; [done|intros ii s Hii _; destruct (Hbody ii s Hii) as (x & _ & ->); by eauto|].
  rewrite Ho. cbn [mbind res_bind].
  pose proof (forM_inv (λ _, True) (λ _ ii, ∃ x, n_vcs n !! (i, LOCAL, insertion_vc k t ii) = Some x ∧ u64 (Z.of_nat (length (v_input x)) + num) ≤ buffer_max_size) (vcs k) tt body o ltac:(done)) as Hend.
  specialize (Hend ltac:(intros ii s o1 Hii _ E; destruct (Hbody ii s Hii) as (x & Hx & E2); rewrite E2 in E; injection E as <-; case_bool_decide; [by exists x|done]) Ho).
  destruct o as [s|s ii].
  - rewrite decide_False by lia. rewrite (on_router_ok _ _ _ t Ht). cbn [mbind res_bind]. eexists false, _. split; [done|]. split; [|done].
    destruct (Hadv (num_vc k - 1)%nat t) as (next & Hnx & ->). apply (moved_router h n i t); try done. by apply Hnx.
  - destruct Hend as (x & Hx & Hfit). pose proof Hn as (H1 & H2 & c & q & HI).
    assert (length (v_input x) ≤ 10)%nat as Hlen by (rewrite <- (input_at _ _ _ Hx); apply (vi_local _ _ _ _ _ HI)).
    rewrite u64_small in Hfit by lia. unfold buffer_max_size in Hfit.
    rewrite (on_vc_ok _ _ _ _ _ x Hx). cbn [mbind res_bind]. rewrite (on_router_ok _ _ _ t) by done. cbn [mbind res_bind]. eexists true, _. split; [done|].
    destruct (Hadv ii (set_injection (tail (r_injection t)) t)) as (next & Hnx & ->). rewrite Ep. simpl. split.
    + apply (moved_inject h n i t p rest (insertion_vc k t ii) x _ c q next r); try done; [by apply Hnx|apply chain_make_flits; lia|by apply make_flits_ok| |apply make_flits_mail; lia].
      unfold make_flits. rewrite length_fmap, length_seq. lia.
    + intros _. eexists. split; [simpl; apply list_lookup_insert_eq; by eapply lookup_lt_Some|done].
Qed.

Lemma inject_loop_ok h i fuel n : net_inv k W n → posts_ok h n → (i < length W)%nat → ∃ n', inject_loop k h i fuel n = Ok n' ∧ moved h n n'.
Proof.
  revert n. induction fuel as [|fuel IH]; intros n Hn Hp Hi; [eexists; split; [done|by apply moved_refl]|]. simpl.
  destruct (router_there n i Hn Hi) as [t Ht]. rewrite (router_at_ok _ _ _ Ht). cbn [mbind res_bind].
  destruct (decide (r_injection t = [])); [eexists; split; [done|by apply moved_refl]|].
  destruct (inject_one_ok h i n t Hn Hp Ht) as (b & n1 & -> & Hm & _); [done|]. cbn [mbind res_bind fst snd]. destruct b; [|by exists n1].
  destruct (IH n1) as (n2 & E & Hm2); [apply Hm|by eapply posts_moved|done|]. exists n2. split; [done|]. by eapply moved_trans.
Qed.

(** The loop ends because the interface is empty or nothing fits, not for want of fuel. *)
Lemma inject_loop_fuel h i fuel n t n' :
  net_inv k W n → posts_ok h n → n_routers n !! i = Some t → (length (r_injection t) ≤ fuel)%nat →
  inject_loop k h i fuel n = Ok n' → ∀ more, inject_loop k h i (fuel + more) n = Ok n'.
Proof.
  revert n t. induction fuel as [|fuel IH]; intros n t Hn Hp Ht Hle E more.
  - simpl in *. injection E as <-. destruct more as [|more]; simpl; [done|]. rewrite (router_at_ok _ _ _ Ht). simpl.
    rewrite decide_True; [done|]. destruct (r_injection t); simpl in *; [done|lia].
  - simpl in *. rewrite (router_at_ok _ _ _ Ht) in *. cbn [mbind res_bind] in *. destruct (decide (r_injection t = [])) as [|Hne]; [done|].
    destruct (inject_one_ok h i n t Hn Hp Ht Hne) as (b & n1 & E1 & Hm & Hb). rewrite E1 in *. cbn [mbind res_bind fst snd] in *. destruct b; [|done].
    destruct (Hb eq_refl) as (t1 & Ht1 & Et1). apply (IH n1 t1); [apply Hm|by eapply posts_moved|done| |done].
    rewrite Et1. destruct (r_injection t); simpl in *; [done|lia].
Qed.

(** ** Cycles *)
Definition steps_ok h n n' : Prop := moved h n n' ∧ posts_ok h n'.

(** A function that moves, after others that did. *)
Lemma then_moves h n n1 (g : router_wrapper_c → res router_wrapper_c) :
  steps_ok h n n1 → (∃ n2, g n1 = Ok n2 ∧ moved h n1 n2) → ∃ n2, g n1 = Ok n2 ∧ steps_ok h n n2.
Proof. intros [Hm Hp] (n2 & E & H2). exists n2. split; [done|]. split; [by eapply moved_trans|by eapply posts_moved]. Qed.

Lemma router_cycle_ok h CYCLE i n :
  net_inv k W n → posts_ok h n → (i < length W)%nat → ∃ n', router_cycle k h CYCLE i n = Ok n' ∧ moved h n n'.
Proof.
  intros Hn Hp Hi. unfold router_cycle. rewrite (no_ideal k Hk).
  assert (steps_ok h n n) as H0 by (split; [by apply moved_refl|done]).
  assert (∀ n1, steps_ok h n n1 → net_inv k W n1) as Hinv by (intros n1 [Hm _]; apply Hm).
  destruct (then_moves h n n (process_pending_credit CYCLE i) H0 (process_pending_credit_ok h CYCLE i n Hn Hi)) as (n1 & -> & S1). cbn [mbind res_bind].
  destruct (then_moves h n n1 (stage_lt k i) S1 (stage_lt_ok h i n1 (Hinv _ S1) Hi)) as (n2 & -> & S2). cbn [mbind res_bind].
  destruct (then_moves h n n2 (stage_st k i) S2 (stage_st_ok h i n2 (Hinv _ S2) Hi)) as (n3 & -> & S3). cbn [mbind res_bind].
  destruct (then_moves h n n3 (stage_sa k i) S3 (stage_sa_ok h i n3 (Hinv _ S3) Hi)) as (n4 & -> & S4). cbn [mbind res_bind].
  destruct (then_moves h n n4 (stage_vca k i) S4 (stage_vca_ok h i n4 (Hinv _ S4) Hi)) as (n5 & -> & S5). cbn [mbind res_bind].
  destruct (then_moves h n n5 (stage_rc k i) S5 (stage_rc_ok h i n5 (Hinv _ S5) Hi)) as (n6 & -> & S6). cbn [mbind res_bind].
  destruct (router_there n6 i (Hinv _ S6) Hi) as [t Ht]. unfold local_packet_injection. rewrite (router_at_ok _ _ _ Ht). cbn [mbind res_bind].
  destruct (then_moves h n n6 (inject_loop k h i (length (r_injection t))) S6 (inject_loop_ok h i _ n6 (Hinv _ S6) (proj2 S6) Hi)) as (n7 & -> & S7). cbn [mbind res_bind].
  destruct (router_there n7 i (Hinv _ S7) Hi) as [t7 Ht7]. rewrite (on_router_ok _ _ _ t7 Ht7). eexists. split; [done|].
  eapply moved_trans; [apply S7|]. apply (moved_router h n7 i t7); try done; [apply S7|]. apply (arrays_at n7 i t7 (Hinv _ S7) Ht7).
Qed.

Lemma net_cycle_ok h CYCLE n : net_inv k W n → posts_ok h n → W ≠ [] → ∃ n', net_cycle k h CYCLE n = Ok n' ∧ moved h n n'.
Proof.
  intros Hn Hp HW0. unfold net_cycle. rewrite (router_count n Hn). assert (length W ≠ 0)%nat as Hlen by (by destruct W).
  rewrite decide_False by done. cbv zeta. match goal with |- context [foldM ?l n ?g] => destruct (foldM_total (steps_ok h n) l n g) as (n' & E & [Hm _]) end.
  - split; [by apply moved_refl|done].
  - intros ii n1 _ [Hm1 Hp1]. apply (then_moves h n n1 (router_cycle k h CYCLE (ii mod length W)%nat)); [by split|].
    apply router_cycle_ok; [apply Hm1|done|by apply Nat.mod_upper_bound].
  - by exists n'.
Qed.

(** ** The interface *)
Lemma inject_packet_ok h i p n r :
  net_inv k W n → posts_ok h n → (i < length W)%nat → h !! p = Some r → packet_ok h p →
  ∃ b n', inject_packet k h i p n = Ok (b, n') ∧ net_inv k W n' ∧ posts_ok h n' ∧
    if b then traffic h n' ≡ₚ (p, mr_msg_dst r) :: traffic h n else n' = n.
Proof.
  intros Hn Hp Hi Hr Hok. destruct (router_there n i Hn Hi) as [t Ht]. unfold inject_packet. rewrite (no_latency k Hk), (router_at_ok _ _ _ Ht). cbn [mbind res_bind].
  case_decide; [|by eexists false, _]. eexists true, _. split; [done|]. pose proof Hn as (H1 & H2 & H3). pose proof (arrays_at n i t Hn Ht) as (_ & _ & Hnext).
  split_and!; simpl.
  - split; [by eapply routers_insert|]. split; [|done]. simpl. apply (credits_same (n_vcs n) _ (n_routers n)); try done.
    intros j. destruct (decide (i = j)) as [<-|?]; [|by rewrite list_lookup_insert_ne].
    rewrite list_lookup_insert_eq by (by eapply lookup_lt_Some). by rewrite Ht.
  - intros j t0 p0 Hj Hin. apply list_lookup_insert_Some in Hj as [(-> & <- & _)|[_ Hj]]; [|by apply (Hp j t0)].
    simpl in Hin. apply elem_of_app in Hin as [?| ->%list_elem_of_singleton]; [by apply (Hp j t)|done].
  - unfold traffic, home. simpl. rewrite (bind_insert_same _ _ _ t) by done. unfold posted.
    pose proof (bind_insert_perm (λ t, (λ p, (p, default (-1) (mr_msg_dst <$> h !! p))) <$> r_injection t) (n_routers n) i t (set_injection (r_injection t ++ [p]) t) Ht) as Hperm.
    simpl in Hperm. rewrite fmap_app in Hperm. simpl in Hperm. rewrite Hr in Hperm. simpl in Hperm.
    apply (Permutation_app_inv_r ((λ p, (p, default (-1) (mr_msg_dst <$> h !! p))) <$> r_injection t)).
    rewrite <- !app_assoc. match type of Hperm with ?A ++ ?B ≡ₚ ?C ++ ?D => transitivity ((A ++ B) ++ mail (n_vcs n) ++ home (n_routers n)); [unfold home; solve_Permutation|rewrite Hperm; unfold home; solve_Permutation] end.
Qed.

Lemma pop_req_ok h i n p :
  net_inv k W n → posts_ok h n → receive_req i n = Ok (Some p) →
  ∃ n' id, pop_req i n = Ok n' ∧ id_of W i = Some id ∧ net_inv k W n' ∧ posts_ok h n' ∧ traffic h n ≡ₚ (p, id) :: traffic h n'.
Proof.
  intros Hn Hp Hrec. unfold receive_req, router_at in Hrec. apply bind_Ok in Hrec as (t & Ht%vec_at_Ok & Hhead). injection Hhead as Hhead.
  pose proof Hn as (H1 & H2 & H3). pose proof (arrays_at n i t Hn Ht) as (_ & _ & Hnext). destruct (r_req t) as [|p0 l] eqn:El; [done|]. injection Hhead as ->.
  unfold pop_req. rewrite (router_at_ok _ _ _ Ht). cbn [mbind res_bind]. rewrite El. simpl. eexists _, (r_id t). split; [done|].
  split; [unfold id_of; by rewrite (static_at _ _ _ H1 Ht)|]. split_and!; simpl.
  - split; [by eapply routers_insert|]. split; [|done]. simpl. apply (credits_same (n_vcs n) _ (n_routers n)); try done.
    intros j. destruct (decide (i = j)) as [<-|?]; [|by rewrite list_lookup_insert_ne].
    rewrite list_lookup_insert_eq by (by eapply lookup_lt_Some). by rewrite Ht.
  - intros j t0 p0 Hj Hin. apply list_lookup_insert_Some in Hj as [(-> & <- & _)|[_ Hj]]; [by apply (Hp j t)|by apply (Hp j t0)].
  - unfold traffic, posted. simpl. rewrite (bind_insert_same _ _ _ t) by done. unfold home.
    pose proof (bind_insert_perm (λ t, (λ p, (p, r_id t)) <$> r_req t) (n_routers n) i t (set_req l t) Ht) as Hperm. simpl in Hperm. rewrite El in Hperm. simpl in Hperm.
    apply (Permutation_app_inv_r ((λ p, (p, r_id t)) <$> l)).
    rewrite <- !app_assoc. match type of Hperm with ?A ++ ?e :: ?B ≡ₚ ?C ++ ?D => match goal with |- ?X ++ ?Y ++ ?Z ≡ₚ _ => transitivity (X ++ Y ++ (C ++ D)); [done|rewrite <- Hperm; solve_Permutation] end end.
Qed.
End run.
