(* ===== verification/MacRouterNet.v ===== *)
(** * Networks of MacSim: rings and meshes

    What [create_router] and [init] (MacRouter.v) build is wired, and the invariant
    holds; so the runs of MacRouterRun.v are runs of any ring and mesh. *)
From S2P Require Import Prelude Types MacDram MacRouter MacRouterLaws MacRouterMoves MacRouterRun.
#[local] Open Scope Z_scope.

(** ** Creation *)
Section create.
Context (k : Noc_Knobs) (unset : nat → Z).

Definition new_router (i : nat) : router_c :=
  mkRouter (Z.of_nat i) (replicate 5 None) [] [] (replicate (num_port k) 0) (replicate (num_port k) 0) [] (unset i) 0.

(** [m] routers, none of them with a link. *)
Definition fresh (m : nat) (n : router_wrapper_c) : Prop :=
  n_routers n = new_router <$> seq 0 m ∧
  ∀ i p v, n_vcs n !! (i, p, v) = if decide (i < m ∧ p < num_port k ∧ v < num_vc k)%nat then Some (new_vc k) else None.

Lemma new_vcs_lookup (V : gmap key vc_t) (l : list key) x :
  foldr (λ key, <[key := new_vc k]>) V l !! x = if decide (x ∈ l) then Some (new_vc k) else V !! x.
Proof.
  induction l as [|y l IH]; cbn [foldr]; [by rewrite decide_False by apply not_elem_of_nil|].
  destruct (decide (x = y)) as [->|?]; [rewrite lookup_insert_eq, decide_True by left; done|].
  rewrite lookup_insert_ne, IH by done. apply decide_ext. rewrite elem_of_cons. tauto.
Qed.

Lemma in_vc_keys i x : x ∈ vc_keys k i ↔ x.1.1 = i ∧ (x.1.2 < num_port k)%nat ∧ (x.2 < num_vc k)%nat.
Proof.
  unfold vc_keys, ports, vcs. destruct x as [[a p] v]. simpl. rewrite list_elem_of_bind. split.
  - intros (p' & Hx & Hp'). apply list_elem_of_bind in Hx as (v' & Hx & Hv'). apply list_elem_of_singleton in Hx as [= -> -> ->].
    rewrite elem_of_seq in Hp', Hv'. split; [done|]. lia.
  - intros (-> & Hp & Hv). exists p. rewrite elem_of_seq. split; [|lia]. apply list_elem_of_bind. exists v. rewrite elem_of_seq. split; [by left|lia].
Qed.

Definition ctor_ok : Prop :=
  match noc_topology k with ring => noc_dimension k = 1 ∧ (2 ≤ num_vc k)%nat | mesh => noc_dimension k = 2 ∧ (1 ≤ num_vc k)%nat end.

Lemma create_router_fresh m n : ctor_ok → fresh m n → ∃ n', create_router k unset n = Ok n' ∧ fresh (S m) n'.
Proof.
  intros Hk [HR HV]. unfold create_router, router_ctor.
  assert (match noc_topology k with
          | ring => bool_decide (noc_dimension k = 1 ∧ (2 ≤ num_vc k)%nat)
          | mesh => bool_decide (noc_dimension k = 2 ∧ (1 ≤ num_vc k)%nat) end = true) as ->.
  { unfold ctor_ok in Hk. destruct (noc_topology k); by apply bool_decide_true. }
  cbn [assert_ mbind res_bind]. eexists. split; [done|]. rewrite HR, length_fmap, length_seq. split.
  - cbn [n_routers]. by rewrite seq_S, fmap_app.
  - intros i p v. simpl. rewrite new_vcs_lookup, HV. destruct (decide ((i, p, v) ∈ vc_keys k m)) as [Hin|Hin]; rewrite in_vc_keys in Hin; simpl in Hin.
    + by rewrite decide_True by lia.
    + destruct (decide (i < m ∧ _)%nat); [rewrite decide_True by lia|rewrite decide_False by lia]; done.
Qed.

Lemma create_fresh (l : list nat) m n : ctor_ok → fresh m n → ∃ n', foldM l n (λ _, create_router k unset) = Ok n' ∧ fresh (m + length l) n'.
Proof.
  intros Hk. revert m n. induction l as [|a l IH]; intros m n Hn; simpl; [rewrite Nat.add_0_r; by exists n|].
  destruct (create_router_fresh m n Hk Hn) as (n1 & -> & H1). simpl. destruct (IH (S m) n1 H1) as (n2 & E & H2). exists n2. split; [done|].
  by rewrite Nat.add_succ_r.
Qed.

(** ** Wiring

    Each turn of the loops of [init_ring] and [init_mesh] changes one router. *)
Lemma wire_loop (mp : list nat) (g : nat → router_c → router_c) (body : nat → router_wrapper_c → res router_wrapper_c)
  (V : gmap key vc_t) (P : router_c → Prop) len :
  NoDup mp → len = length mp →
  (∀ i a t R, mp !! i = Some a → R !! a = Some t → P t → length R = len → body i (mkNet R V) = Ok (mkNet (<[a := g i t]> R) V)) →
  ∀ R, length R = len → (∀ a, (a < len)%nat → ∃ t, R !! a = Some t ∧ P t) → Forall (λ a, a < len)%nat mp →
  ∃ R', foldM (seq 0 len) (mkNet R V) body = Ok (mkNet R' V) ∧ length R' = len ∧
    ∀ i a, mp !! i = Some a → R' !! a = g i <$> R !! a.
Proof.
  intros Hnd Hlen Hbody R HR Hall Hmp. rewrite Forall_lookup in Hmp.
  assert (∀ d, (d ≤ len)%nat → ∃ R', foldM (seq 0 d) (mkNet R V) body = Ok (mkNet R' V) ∧ length R' = len ∧
    ∀ i a, mp !! i = Some a → R' !! a = if decide (i < d)%nat then g i <$> R !! a else R !! a) as H.
  { induction d as [|d IH]; intros Hd; [exists R; split; [done|]; split; [done|]; by intros|].
    destruct (IH ltac:(lia)) as (R1 & E1 & Hl1 & HR1). destruct (lookup_lt_is_Some_2 mp d ltac:(lia)) as [a Ha].
    destruct (Hall a (Hmp _ _ Ha)) as (t & Ht & Hlt). pose proof (HR1 d a Ha) as Hat. rewrite decide_False, Ht in Hat by lia.
    exists (<[a := g d t]> R1). rewrite seq_S. split; [|split; [by rewrite length_insert|]].
    - assert (∀ l (s : router_wrapper_c), foldM (l ++ [d]) s body = foldM l s body ≫= body d) as ->.
      { induction l as [|b l IHl]; intros s; simpl; [by destruct (body d s)|]. destruct (body b s); simpl; [apply IHl|done]. }
      rewrite E1. simpl. by apply Hbody.
    - intros i b Hb. destruct (decide (i = d)) as [->|Hne].
      + assert (b = a) as -> by congruence. rewrite list_lookup_insert_eq by (by eapply lookup_lt_Some). by rewrite decide_True, Ht by lia.
      + rewrite list_lookup_insert_ne by (intros ->; apply Hne; eapply (NoDup_lookup mp); eauto). rewrite (HR1 i b Hb).
        destruct (decide (i < d)%nat); [rewrite decide_True by lia|rewrite decide_False by lia]; done. }
  destruct (H len ltac:(lia)) as (R' & E & Hl & HR'). exists R'. split; [done|]. split; [done|].
  intros i a Ha. rewrite (HR' i a Ha), decide_True; [done|]. rewrite Hlen. by eapply lookup_lt_Some.
Qed.
End create.

(** ** The start *)
Section start.
Context (k : Noc_Knobs) (unset : nat → Z).

Definition bare (t : router_c) : Prop :=
  r_injection t = [] ∧ r_req t = [] ∧ r_pending t = [] ∧ length (r_sw_avail t) = num_port k ∧ length (r_link_avail t) = num_port k ∧ r_next_vc t = 0.

Lemma start_inv W R V :
  static_of R = W → Forall bare R →
  (∀ i p v, V !! (i, p, v) = if decide (i < length W ∧ p < num_port k ∧ v < num_vc k)%nat then Some (new_vc k) else None) →
  net_inv k W (mkNet R V).
Proof.
  intros Hs HR HV. assert (∀ x y, V !! x = Some y → y = new_vc k) as Hnew.
  { intros [[i p] v] y. rewrite HV. case_decide; [by intros [= <-]|done]. }
  assert (∀ x, input_of V x = [] ∧ output_of V x = []) as Hempty.
  { intros x. unfold input_of, output_of. destruct (V !! x) as [y|] eqn:E; [by rewrite (Hnew x y E)|done]. }
  rewrite Forall_lookup in HR. split; [|split].
  - split; [done|]. intros t [i Hi]%list_elem_of_lookup. destruct (HR i t Hi) as (_ & _ & _ & ? & ? & ?). simpl. split_and!; try done. lia.
  - split; simpl.
    + intros i o v j x Hl Hx. rewrite (Hnew _ _ Hx), (proj1 (Hempty _)). unfold waiting. destruct (R !! i) as [t|] eqn:Ht; [|done]. simpl.
      by destruct (HR i t Ht) as (_ & _ & -> & _).
    + intros i t cr Ht Hcr. destruct (HR i t Ht) as (_ & _ & E & _). rewrite E in Hcr. by apply not_elem_of_nil in Hcr.
  - exists (λ _, None), (λ _, None). split; simpl.
    + intros i p v. rewrite HV. case_decide; split; try done; by intros [].
    + intros i p v x Hx. rewrite (Hnew _ _ Hx). split; simpl; try done.
      * by right.
      * split; [done|]. repeat constructor; apply length_replicate.
      * intros row o _ [= <-] [? _]%lookup_replicate. done.
      * left. split; [|done]. by repeat split.
    + intros i p v x Hx. rewrite (Hnew _ _ Hx). split; simpl; [constructor|done|done].
    + intros i o v y. split; [done|]. intros [_ (x & Hx & Hf & _)]. rewrite (Hnew _ _ Hx) in Hf. simpl in Hf. lia.
    + intros x. unfold stream, under_way. destruct (source_of W x) as [u|]; simpl; by rewrite !(proj1 (Hempty _)), ?(proj2 (Hempty _)).
    + intros i v. rewrite (proj1 (Hempty _)). simpl. lia.
Qed.

(** ** Rings *)
Definition ring_links (m i : nat) : list (option nat) := [None; Some ((i + m - 1) mod m)%nat; Some ((i + 1) mod m)%nat; None; None].
Definition ring_wiring (m : nat) : statics := (λ i, (Z.of_nat i, ring_links m i)) <$> seq 0 m.

Lemma before_mod m i : (i < m)%nat → ((i + m - 1) mod m = if decide (i = 0) then m - 1 else i - 1)%nat.
Proof.
  intros Hi. case_decide as E; [subst; apply Nat.mod_small; lia|]. replace (i + m - 1)%nat with (i - 1 + 1 * m)%nat by lia.
  rewrite Nat.Div0.mod_add. apply Nat.mod_small. lia.
Qed.
Lemma after_mod m i : (i < m)%nat → ((i + 1) mod m = if decide (i + 1 = m) then 0 else i + 1)%nat.
Proof. intros Hi. case_decide as E; [rewrite E; apply Nat.Div0.mod_same|apply Nat.mod_small; lia]. Qed.

Lemma ring_wiring_at m i : ring_wiring m !! i = if decide (i < m)%nat then Some (Z.of_nat i, ring_links m i) else None.
Proof.
  unfold ring_wiring. case_decide; [|apply lookup_ge_None; rewrite length_fmap, length_seq; lia].
  change (((λ i, (Z.of_nat i, ring_links m i)) <$> seq 0 m) !! i = Some (Z.of_nat i, ring_links m i)).
  rewrite list_lookup_fmap, lookup_seq_lt by done. done.
Qed.

Lemma ring_link m i p j :
  link_of (ring_wiring m) i p = Some j ↔
  (i < m)%nat ∧ (p = LEFT ∧ j = (if decide (i = 0) then m - 1 else i - 1)%nat ∨ p = RIGHT ∧ j = (if decide (i + 1 = m) then 0 else i + 1)%nat).
Proof.
  unfold link_of. rewrite ring_wiring_at. case_decide as Hi; simpl; [|split; [done|intros [? _]; lia]].
  unfold ring_links. rewrite before_mod, after_mod by done.
  destruct p as [|[|[|[|[|p]]]]]; simpl; (split; [intros ?; simplify_eq|intros [_ [[? ->]|[? ->]]]; done]); split; try done; [by left|by right].
Qed.

Lemma ring_wired m : noc_topology k = ring → (2 ≤ m)%nat → wired k (ring_wiring m).
Proof.
  intros Hk Hm. assert (length (ring_wiring m) = m) as Hlen by (unfold ring_wiring; by rewrite length_fmap, length_seq). split.
  - intros i s. rewrite ring_wiring_at. case_decide; [|done]. by intros [= <-].
  - intros i p j Hl. rewrite Hlen. unfold num_port. rewrite Hk. apply ring_link in Hl as [Hi [[-> ->]|[-> ->]]]; simpl; rewrite ring_link;
      repeat case_decide; unfold LOCAL, LEFT, RIGHT; split_and!; try lia; (right + left); lia.
  - intros i id f Hid Hok. unfold id_of in Hid. rewrite ring_wiring_at in Hid. case_decide as Hi; [|done]. injection Hid as <-.
    unfold route_of. rewrite Hk, Hlen. assert (∀ d, d = LEFT ∨ d = RIGHT → (d < num_port k)%nat ∧ goes_to (ring_wiring m) i d (f_dst f)) as Hgo.
    { intros d Hd. unfold num_port, goes_to. rewrite Hk. destruct Hd as [-> | ->]; (split; [unfold LEFT, RIGHT; lia|]); simpl.
      - destruct (link_of (ring_wiring m) i LEFT) eqn:E; [by eexists|]. by rewrite (proj2 (ring_link m i LEFT _)) in E by (split; [done|by left]).
      - destruct (link_of (ring_wiring m) i RIGHT) eqn:E; [by eexists|]. by rewrite (proj2 (ring_link m i RIGHT _)) in E by (split; [done|by right]). }
    case_bool_decide as Hd; [|case_bool_decide as Hdir].
    + eexists _, _, _. split; [done|]. split; [|split; [done|by apply Hok]]. repeat constructor; [unfold num_port, LOCAL; rewrite Hk; lia|].
      unfold goes_to. simpl. unfold id_of. rewrite ring_wiring_at, decide_True by done. simpl. by f_equal.
    + eexists _, _, _. split; [done|]. split; [|split; [done|by apply Hok]]. apply Forall_singleton. apply Hgo. destruct (proj2 Hok) as [?|[->| ->]]; [done|by left|by right].
    + eexists _, _, _. split; [done|]. assert (ring_dir (Z.of_nat m) (Z.of_nat i) (f_dst f) = LEFT ∨ ring_dir (Z.of_nat m) (Z.of_nat i) (f_dst f) = RIGHT) as Hr.
      { unfold ring_dir. case_bool_decide; case_bool_decide; auto. }
      split; [apply Forall_singleton; by apply Hgo|]. split; [done|]. right. destruct Hr as [-> | ->]; [by left|by right].
Qed.

(** A loop that links the routers, each of them once. *)
Lemma wired_by (mp : list nat) (links : nat → list (option nat)) body m n :
  fresh k unset m n → mp ≡ₚ seq 0 m →
  (∀ i a t R, mp !! i = Some a → R !! a = Some t → r_link t = replicate 5 None → length R = m →
     body i (mkNet R (n_vcs n)) = Ok (mkNet (<[a := set_id (Z.of_nat i) (set_links (links i) t)]> R) (n_vcs n))) →
  ∃ n', foldM (seq 0 m) n body = Ok n' ∧ n_vcs n' = n_vcs n ∧ Forall bare (n_routers n') ∧ length (n_routers n') = m ∧
    ∀ i a, mp !! i = Some a → static_of (n_routers n') !! a = Some (Z.of_nat i, links i).
Proof.
  intros [HR HV] Hmp Hbody. assert (length mp = m) as Hlen by (by rewrite Hmp, length_seq).
  assert (∀ a, (a < m)%nat → n_routers n !! a = Some (new_router k unset a)) as Hat.
  { intros a Ha. rewrite HR, list_lookup_fmap, lookup_seq_lt by done. done. }
  destruct n as [R V]. simpl in *.
  destruct (wire_loop mp (λ i t, set_id (Z.of_nat i) (set_links (links i) t)) body V (λ t, r_link t = replicate 5 None) m) with (R := R) as (R' & E & Hl & HR').
  - rewrite Hmp. apply NoDup_seq.
  - done.
  - intros i a t R0 Ha Ht Hlinks HlR. by apply Hbody.
  - by rewrite HR, length_fmap, length_seq.
  - intros a Ha. rewrite Hat by done. by eexists.
  - rewrite Hmp. apply Forall_seq. lia.
  - exists (mkNet R' V). split; [done|]. split; [done|]. assert (∀ i a, mp !! i = Some a → (a < m)%nat) as Hlt.
    { intros i a Ha. assert (a ∈ seq 0 m) as Hin by (rewrite <- Hmp; by eapply list_elem_of_lookup_2). apply elem_of_seq in Hin. lia. }
    split; [|split; [done|]]; simpl.
    + apply Forall_lookup. intros a t Ht. assert (a ∈ mp) as [i Hi]%list_elem_of_lookup.
      { rewrite Hmp, elem_of_seq. apply lookup_lt_Some in Ht. lia. }
      rewrite (HR' i a Hi), Hat in Ht by (by eapply Hlt). injection Ht as <-. unfold bare. simpl. by rewrite !length_replicate.
    + intros i a Ha. rewrite static_lookup, (HR' i a Ha), Hat by (by eapply Hlt). done.
Qed.

Lemma set_link_ok i dir j R V t :
  R !! i = Some t → (dir < length (r_link t))%nat →
  set_link i dir j (mkNet R V) = Ok (mkNet (<[i := set_links (<[dir := Some j]> (r_link t)) t]> R) V).
Proof. intros Ht Hd. unfold set_link. rewrite (router_at_ok (mkNet R V) _ _ Ht). cbn [mbind res_bind]. by rewrite vec_set_lt by done. Qed.

Lemma set_link_again i dir j R V t :
  (i < length R)%nat → (dir < length (r_link t))%nat →
  set_link i dir j (mkNet (<[i := t]> R) V) = Ok (mkNet (<[i := set_links (<[dir := Some j]> (r_link t)) t]> R) V).
Proof. intros Hi Hd. rewrite (set_link_ok _ _ _ _ _ t) by (try done; by apply list_lookup_insert_eq). by rewrite list_insert_insert_eq. Qed.

Lemma set_id_again i id R V t : (i < length R)%nat → on_router i (set_id id) (mkNet (<[i := t]> R) V) = Ok (mkNet (<[i := set_id id t]> R) V).
Proof. intros Hi. rewrite (on_router_ok _ _ _ t) by (by apply list_lookup_insert_eq). unfold set_router. simpl. by rewrite list_insert_insert_eq. Qed.

Lemma init_ring_ok m n :
  noc_topology k = ring → (2 ≤ m)%nat → fresh k unset m n → ∃ n', init_ring n = Ok n' ∧ net_inv k (ring_wiring m) n' ∧ Forall bare (n_routers n') ∧ n_vcs n' = n_vcs n.
Proof.
  intros Hk Hm Hn. assert (length (n_routers n) = m) as Hlen by (by rewrite (proj1 Hn), length_fmap, length_seq). unfold init_ring. rewrite Hlen, bool_decide_true by lia. simpl.
  match goal with |- context [foldM _ n ?b] => destruct (wired_by (seq 0 m) (ring_links m) b m n Hn) as (n' & E & EV & Hb & Hl & HW); [done|..] end.
  - intros i a t R Ha Ht Hlinks HlR. apply lookup_seq in Ha as [-> Hi]. rewrite Nat.add_0_l in *.
    rewrite (set_link_ok _ _ _ _ _ t) by (try done; rewrite Hlinks; simpl; unfold LEFT; lia). cbn [mbind res_bind].
    rewrite set_link_again by (try lia; rewrite Hlinks; simpl; unfold RIGHT; lia). cbn [mbind res_bind]. rewrite set_id_again by lia.
    simpl. by rewrite Hlinks.
  - exists n'. split; [done|]. split; [|by split]. destruct n' as [R' V']. simpl in *. subst V'. apply start_inv; [|done|].
    + apply list_eq. intros i. unfold statics. rewrite ring_wiring_at. case_decide as Hi; [apply HW; by rewrite lookup_seq_lt|].
      apply lookup_ge_None. unfold static_of. rewrite length_fmap. lia.
    + intros i p v. rewrite (proj2 Hn). unfold ring_wiring. by rewrite length_fmap, length_seq.
Qed.

(** ** Meshes *)

(** The place next to place [i] of a mesh of width [w], in a direction. *)
Definition neighbour (w i port : nat) : option nat :=
  match port with
  | 1 => if decide (i mod w ≠ 0) then Some (i - 1) else None
  | 2 => if decide (i mod w ≠ w - 1) then Some (i + 1) else None
  | 3 => if decide (0 < i / w) then Some (i - w) else None
  | 4 => if decide (i / w + 1 < w) then Some (i + w) else None
  | _ => None
  end%nat.
Definition mesh_links (w : nat) (mp : list nat) (i : nat) : list (option nat) :=
  (λ p, j ← neighbour w i p; mp !! j) <$> seq 0 5.

Lemma place_of w i : (i < w * w)%nat → ∃ x y, i = (y * w + x)%nat ∧ (x < w)%nat ∧ (y < w)%nat.
Proof.
  intros Hi. assert (w ≠ 0)%nat as Hw by lia. exists (i mod w)%nat, (i / w)%nat. pose proof (Nat.div_mod_eq i w). pose proof (Nat.mod_upper_bound i w Hw).
  assert (i / w < w)%nat by (by apply Nat.Div0.div_lt_upper_bound). split_and!; [lia|done|done].
Qed.
Lemma place_mod w x y : (x < w)%nat → ((y * w + x) mod w = x ∧ (y * w + x) / w = y)%nat.
Proof. intros Hx. rewrite Nat.add_comm, Nat.Div0.mod_add, Nat.div_add, Nat.mod_small, Nat.div_small by lia. lia. Qed.

Lemma neighbour_at w x y port : (x < w)%nat →
  neighbour w (y * w + x) port =
  match port with
  | 1 => if decide (x = 0) then None else Some (y * w + (x - 1))
  | 2 => if decide (x + 1 = w) then None else Some (y * w + (x + 1))
  | 3 => if decide (y = 0) then None else Some ((y - 1) * w + x)
  | 4 => if decide (y + 1 < w) then Some ((y + 1) * w + x) else None
  | _ => None
  end%nat.
Proof.
  intros Hx. unfold neighbour. destruct (place_mod w x y Hx) as [-> ->].
  destruct port as [|[|[|[|[|port]]]]]; repeat case_decide; try lia; try done; f_equal; nia.
Qed.

Lemma neighbour_back w i port j :
  (i < w * w)%nat → neighbour w i port = Some j →
  (j < w * w)%nat ∧ j ≠ i ∧ port ≠ LOCAL ∧ (port < 5)%nat ∧ (opposite_dir port < 5)%nat ∧ opposite_dir port ≠ LOCAL ∧
  opposite_dir (opposite_dir port) = port ∧ neighbour w j (opposite_dir port) = Some i.
Proof.
  intros Hi Hj. destruct (place_of w i Hi) as (x & y & -> & Hx & Hy). rewrite neighbour_at in Hj by done.
  destruct port as [|[|[|[|[|port]]]]]; try done; case_decide; simplify_eq; cbn [opposite_dir]; unfold LOCAL, LEFT, RIGHT, UP, DOWN; cbn [opposite_dir]; unfold LOCAL, LEFT, RIGHT, UP, DOWN;
    (split; [nia|split; [nia|]]); (do 5 (split; [lia|])); rewrite neighbour_at by lia; repeat case_decide; try lia; f_equal; nia.
Qed.

(** The routers in the order of their places, and what is known at each place. *)
Definition meshed (w : nat) (mp : list nat) (W : statics) : Prop :=
  mp ≡ₚ seq 0 (w * w) ∧ length W = (w * w)%nat ∧ ∀ i a, mp !! i = Some a → W !! a = Some (Z.of_nat i, mesh_links w mp i).

Lemma meshed_at w mp W a s : meshed w mp W → W !! a = Some s → ∃ i, mp !! i = Some a ∧ (i < w * w)%nat ∧ s = (Z.of_nat i, mesh_links w mp i).
Proof.
  intros (Hp & Hl & HW) Ha. assert (a ∈ mp) as [i Hi]%list_elem_of_lookup by (rewrite Hp, elem_of_seq; apply lookup_lt_Some in Ha; lia).
  exists i. split; [done|]. split; [|rewrite (HW i a Hi) in Ha; by injection Ha]. apply lookup_lt_Some in Hi. by rewrite Hp, length_seq in Hi.
Qed.

Lemma mesh_link w mp W i a port : meshed w mp W → mp !! i = Some a → link_of W a port = (j ← neighbour w i port; mp !! j).
Proof.
  intros (_ & _ & HW) Hi. unfold link_of. rewrite (HW i a Hi). simpl. unfold mesh_links. rewrite list_lookup_fmap.
  destruct (decide (port < 5)%nat) as [Hp|Hp]; [by rewrite lookup_seq_lt by done|]. rewrite (proj2 (lookup_ge_None (seq 0 5) port)) by (rewrite length_seq; lia).
  simpl. destruct port as [|[|[|[|[|port]]]]]; simpl; try lia; done.
Qed.

Lemma place_Z w x y : (x < w)%nat → Z.rem (Z.of_nat (y * w + x)) (Z.of_nat w) = Z.of_nat x ∧ Z.quot (Z.of_nat (y * w + x)) (Z.of_nat w) = Z.of_nat y.
Proof. intros Hx. rewrite Z.rem_mod_nonneg, Z.quot_div_nonneg by lia. rewrite <- Nat2Z.inj_mod, <- Nat2Z.inj_div. by destruct (place_mod w x y Hx) as [-> ->]. Qed.

Lemma mesh_ports_at w x y x' y' : (x < w)%nat → (x' < w)%nat →
  mesh_ports (Z.of_nat w) (Z.of_nat (y * w + x)) (Z.of_nat (y' * w + x')) =
  let px := if decide (x' < x)%nat then [LEFT] else if decide (x < x')%nat then [RIGHT] else [] in
  let py := if decide (y' < y)%nat then [UP] else if decide (y < y')%nat then [DOWN] else [] in
  (px ++ py, match px with [] => py | _ => px end).
Proof.
  intros Hx Hx'. unfold mesh_ports. destruct (place_Z w x y Hx) as [-> ->], (place_Z w x' y' Hx') as [-> ->]. cbv zeta.
  assert (∀ a b : nat, bool_decide (Z.of_nat a < Z.of_nat b) = bool_decide (a < b)%nat) as E by (intros; apply bool_decide_ext; lia).
  rewrite !E. repeat case_bool_decide; repeat case_decide; try lia; done.
Qed.

Lemma mesh_wired w mp W : noc_topology k = mesh → meshed w mp W → wired k W.
Proof.
  intros Hk HM. pose proof HM as (Hp & Hl & HW). assert (∀ i, (i < w * w)%nat → ∃ a, mp !! i = Some a) as Hat.
  { intros i Hi. apply lookup_lt_is_Some. by rewrite Hp, length_seq. }
  assert (∀ i a, mp !! i = Some a → (i < w * w)%nat ∧ (a < w * w)%nat) as Hlt.
  { intros i a Hi. split; [apply lookup_lt_Some in Hi; by rewrite Hp, length_seq in Hi|].
    assert (a ∈ seq 0 (w * w)) as Ha by (rewrite <- Hp; by eapply list_elem_of_lookup_2). apply elem_of_seq in Ha. lia. }
  split.
  - intros a s Ha. destruct (meshed_at w mp W a s HM Ha) as (i & _ & _ & ->). done.
  - intros a port b Hlink. unfold link_of in Hlink. destruct (W !! a) as [s|] eqn:Ea; [|done].
    destruct (meshed_at w mp W a s HM Ea) as (i & Hi & Hiw & ->).
    assert (link_of W a port = Some b) as Hlink' by (unfold link_of; by rewrite Ea). rewrite (mesh_link w mp W i a port HM Hi) in Hlink'.
    destruct (neighbour w i port) as [j|] eqn:Ej; [|done]. simpl in Hlink'. destruct (neighbour_back w i port j Hiw Ej) as (Hjw & Hji & ? & ? & ? & ? & ? & Hback).
    unfold num_port. rewrite Hk, Hl. split_and!; try done.
    + intros ->. apply Hji. eapply (NoDup_lookup mp); [rewrite Hp; apply NoDup_seq|done|done].
    + by apply (Hlt j b).
    + rewrite (mesh_link w mp W j b _ HM Hlink'), Hback. done.
  - intros a id f Hid [Hd Hdir]. unfold id_of in Hid. destruct (W !! a) as [s|] eqn:Ea; [|done].
    destruct (meshed_at w mp W a s HM Ea) as (i & Hi & Hiw & ->). injection Hid as <-. unfold route_of. rewrite Hk, Hl in *.
    case_bool_decide as Hdst.
    + eexists _, _, _. split; [done|]. split; [|done]. assert ((LOCAL < num_port k)%nat ∧ goes_to W a LOCAL (f_dst f)) as Hgo.
      { unfold num_port, goes_to, LOCAL, id_of. rewrite Hk, decide_True, Ea by done. split; [lia|]. simpl. by f_equal. }
      simpl. apply Forall_cons. split; [done|]. by apply Forall_singleton.
    + rewrite bool_decide_false by lia. eexists _, _, _. split; [done|]. split; [|done].
      rewrite Nat2Z.inj_mul, Z.sqrt_square by lia. set (d := Z.to_nat (f_dst f)).
      destruct (place_of w i Hiw) as (x & y & -> & Hx & Hy), (place_of w d ltac:(lia)) as (x' & y' & Ed & Hx' & Hy').
      assert (f_dst f = Z.of_nat (y' * w + x')) as -> by lia. rewrite mesh_ports_at by done.
      assert (∀ port, is_Some (neighbour w (y * w + x) port) → (port < num_port k)%nat ∧ ∀ z, goes_to W a port z) as Hgo.
      { intros port [j Hj]. destruct (neighbour_back w _ port j Hiw Hj) as (Hjw & _ & Hp0 & Hp5 & _). unfold num_port. rewrite Hk. split; [done|]. intros z.
        unfold goes_to. rewrite decide_False by done. rewrite (mesh_link w mp W _ a port HM Hi), Hj. simpl. by apply Hat. }
      assert (Forall (λ p, (p < num_port k)%nat ∧ goes_to W a p (Z.of_nat (y' * w + x')))
        (let px := if decide (x' < x)%nat then [LEFT] else if decide (x < x')%nat then [RIGHT] else [] in
         let py := if decide (y' < y)%nat then [UP] else if decide (y < y')%nat then [DOWN] else [] in (px ++ py) ++ px ++ py)) as Hall.
      { cbv zeta. apply Forall_forall. intros port Hport.
        assert (is_Some (neighbour w (y * w + x) port)) as Hs.
        { rewrite neighbour_at by done. repeat case_decide; simpl in Hport; rewrite ?elem_of_cons, ?elem_of_nil in Hport; destruct_or?; subst; simpl;
            try done; try (eexists; reflexivity); repeat case_decide; try lia; by eexists. }
        destruct (Hgo port Hs) as [? Hz]. split; [done|apply Hz]. }
      cbv zeta in *. cbn [fst snd default]. rewrite Forall_app in Hall. destruct Hall as [H1 H2]. apply Forall_app. split; [done|]. simpl.
      rewrite Forall_app in H2. destruct H2 as [H2 H3]. by destruct (if decide (x' < x)%nat then _ else _).
Qed.

Lemma mesh_mapping_perm large small l3 mc num mp : mesh_mapping large small l3 mc num = Ok mp → mp ≡ₚ seq 0 num.
Proof.
  unfold mesh_mapping. case_decide as Hlen; [|done]. intros [= <-]. rewrite !length_app, !length_seq in Hlen.
  set (d := (l3 + mc)%nat) in *. assert (num = large + small + d + (num - (large + small + l3 + mc)))%nat as E.
  { destruct (bool_decide (large = 0%nat)) eqn:E1, (bool_decide (large ≠ 0%nat)) eqn:E2; rewrite ?length_seq in Hlen; simpl in Hlen;
      rewrite ?bool_decide_eq_true, ?bool_decide_eq_false in *; lia. }
  set (rest := (num - _)%nat) in *. rewrite E. rewrite !seq_app. simpl. rewrite <- Nat.add_assoc. fold d. repeat case_bool_decide; try done; rewrite ?app_nil_l; [|solve_Permutation].
  by rewrite <- !app_assoc.
Qed.

(** One link of [init_mesh], if there is a neighbour. *)
Lemma mesh_link_ok (P : Prop) `{Decision P} mp (R : list router_c) V a i j dir t :
  mp !! i = Some a → (P → is_Some (mp !! j)) → R !! a = Some t → length (r_link t) = 5%nat → (dir < 5)%nat →
  (if decide P then a0 ← vec_at mp i; b0 ← vec_at mp j; set_link a0 dir b0 (mkNet R V) else Ok (mkNet R V)) =
  Ok (mkNet (<[a := set_links (if decide P then <[dir := mp !! j]> (r_link t) else r_link t) t]> R) V).
Proof.
  intros Hi Hj Ha Hl Hd. destruct (decide P) as [HP|]; [|rewrite list_insert_id; [done|by destruct t]]. destruct (Hj HP) as [b0 Hb0].
  rewrite (proj2 (vec_at_Ok _ _ _) Hi), (proj2 (vec_at_Ok _ _ _) Hb0). cbn [mbind res_bind]. rewrite (set_link_ok _ _ _ _ _ t) by (done || lia). by rewrite Hb0.
Qed.

Lemma links_length (P : Prop) `{Decision P} dir x (l : list (option nat)) : length (if decide P then <[dir := x]> l else l) = length l.
Proof. case_decide; [apply length_insert|done]. Qed.

Lemma init_mesh_ok w mp n :
  noc_topology k = mesh → mp ≡ₚ seq 0 (w * w) → fresh k unset (w * w) n →
  ∃ n' W, init_mesh mp n = Ok n' ∧ meshed w mp W ∧ net_inv k W n' ∧ Forall bare (n_routers n') ∧ n_vcs n' = n_vcs n.
Proof.
  intros Hk Hmp Hn. assert (length (n_routers n) = (w * w)%nat) as Hlen by (by rewrite (proj1 Hn), length_fmap, length_seq).
  assert (length mp = (w * w)%nat) as Hml by (by rewrite Hmp, length_seq). unfold init_mesh. rewrite Hlen. cbv zeta. rewrite Nat.sqrt_square.
  match goal with |- context [foldM _ n ?b] => destruct (wired_by mp (mesh_links w mp) b (w * w) n Hn Hmp) as (n' & E & EV & Hb & Hl & HW) end.
  - intros i a t R Hi Ht Hlinks HlR. pose proof (lookup_lt_Some _ _ _ Hi) as Hiw. rewrite Hml in Hiw. pose proof (lookup_lt_Some _ _ _ Ht) as HaR.
    destruct (place_of w i Hiw) as (x & y & -> & Hx & Hy). destruct (place_mod w x y Hx) as [Em Ed].
    assert (∀ j, (j < w * w)%nat → is_Some (mp !! j)) as Hat by (intros; apply lookup_lt_is_Some; lia).
    unfold UP, DOWN, LEFT, RIGHT. rewrite !Em, !Ed.
    rewrite (mesh_link_ok _ mp R _ a _ _ _ t Hi) by (rewrite ?Hlinks; simpl; try lia; try done; intros; apply Hat; nia). cbn [mbind res_bind].
    do 3 (erewrite (mesh_link_ok _ mp _ _ a _ _ _ _ Hi); [|intros; apply Hat; nia|by apply list_lookup_insert_eq|simpl; by rewrite ?links_length, ?Hlinks|lia]; cbn [mbind res_bind]; rewrite list_insert_insert_eq).
    rewrite (proj2 (vec_at_Ok _ _ _) Hi). cbn [mbind res_bind]. rewrite set_id_again by lia. f_equal. f_equal. f_equal. unfold set_id, set_links. simpl. f_equal.
    rewrite Hlinks. unfold mesh_links. simpl. rewrite Em, Ed. by repeat case_decide.
  - exists n', (static_of (n_routers n')). split; [done|]. assert (meshed w mp (static_of (n_routers n'))) as HM.
    { split; [done|]. split; [unfold static_of; by rewrite length_fmap|]. done. }
    split; [done|]. split; [|by split]. destruct n' as [R' V']. simpl in *. subst V'. apply start_inv; [done|done|].
    intros i p v. rewrite (proj2 Hn). unfold static_of. by rewrite length_fmap, Hl.
Qed.

Lemma square_up_ok m n :
  noc_topology k = mesh → ctor_ok k → (2 ≤ m)%nat → fresh k unset m n →
  ∃ w n', (2 ≤ w)%nat ∧ (m ≤ w * w)%nat ∧ square_up k unset n = Ok n' ∧ fresh k unset (w * w) n'.
Proof.
  intros Hk Hc Hm Hn. unfold square_up. assert (length (n_routers n) = m) as -> by (by rewrite (proj1 Hn), length_fmap, length_seq).
  pose proof (Nat.sqrt_spec m ltac:(lia)) as [Hlo Hhi]. set (w := Nat.sqrt m) in *. case_decide as Hsq.
  - exists w, n. split; [|split; [lia|split; [done|by rewrite Hsq]]]. destruct (decide (w ≤ 1)%nat); [|lia]. assert (w = 0 ∨ w = 1)%nat as [E|E] by lia; rewrite E in Hsq; lia.
  - destruct (create_fresh k unset (seq 0 ((w + 1) * (w + 1) - m)) m n Hc Hn) as (n' & E & Hf). exists (w + 1)%nat, n'. split_and!; [|lia|done|].
    + assert (1 ≤ w)%nat; [|lia]. destruct w; [lia|lia].
    + rewrite length_seq in Hf. replace (m + ((w + 1) * (w + 1) - m))%nat with ((w + 1) * (w + 1))%nat in Hf by lia. done.
Qed.

(** ** What is built *)

(** [m] calls of [create_router], and [init]. *)
Definition build (m large small l3 mc : nat) : res router_wrapper_c :=
  n ← foldM (seq 0 m) (mkNet [] ∅) (λ _, create_router k unset);
  net_init k large small l3 mc unset n.

Lemma empty_fresh : fresh k unset 0 (mkNet [] ∅).
Proof. split; [done|]. intros i p v. rewrite decide_False by lia. apply lookup_empty. Qed.

(** Nothing in any buffer. *)
Definition still (n : router_wrapper_c) : Prop := Forall bare (n_routers n) ∧ ∀ x y, n_vcs n !! x = Some y → y = new_vc k.

Lemma fresh_new m n : fresh k unset m n → ∀ x y, n_vcs n !! x = Some y → y = new_vc k.
Proof. intros [_ HV] [[i p] v] y. rewrite HV. case_decide; [by intros [= <-]|done]. Qed.

Lemma still_traffic h n : still n → traffic h n = [].
Proof.
  intros [HR HV]. unfold traffic. assert (posted h (n_routers n) = [] ∧ home (n_routers n) = []) as [-> ->].
  { unfold posted, home. induction HR as [|t R (E1 & E2 & _) _ IH]; [done|]. simpl. rewrite E1, E2. done. }
  unfold mail. assert (∀ y, y ∈ (map_to_list (n_vcs n)).*2 → y = new_vc k) as Hall.
  { intros y ([x y'] & -> & Hx%elem_of_map_to_list)%list_elem_of_fmap. by apply (HV x). }
  simpl. rewrite app_nil_r. induction ((map_to_list (n_vcs n)).*2) as [|y l IH]; [done|]. simpl. rewrite (Hall y) by left. simpl. apply IH. intros; apply Hall; by right.
Qed.

(** Every network that is built starts with the invariant. *)
Lemma build_ok m large small l3 mc n :
  (2 ≤ m)%nat → build m large small l3 mc = Ok n → ∃ W, wired k W ∧ W ≠ [] ∧ net_inv k W n ∧ still n ∧
    match noc_topology k with ring => W = ring_wiring m | mesh => ∃ w mp, meshed w mp W end.
Proof.
  intros Hm Hb. unfold build in Hb. assert (ctor_ok k) as Hc.
  { unfold ctor_ok. destruct m as [|m]; [lia|]. simpl in Hb. apply bind_Ok in Hb as (n1 & Hb & _). apply bind_Ok in Hb as (n2 & Hb & _). unfold create_router in Hb. apply bind_Ok in Hb as (r & Hr & _).
    unfold router_ctor in Hr. apply bind_Ok in Hr as (u & Ha%assert_Ok & _). destruct (noc_topology k); by apply bool_decide_eq_true in Ha. }
  destruct (create_fresh k unset (seq 0 m) 0 _ Hc empty_fresh) as (n1 & E1 & Hf). rewrite E1 in Hb. cbn [mbind res_bind] in Hb. rewrite length_seq in Hf. simpl in Hf.
  unfold net_init in Hb. destruct (noc_topology k) eqn:Hk.
  - destruct (init_ring_ok m n1 Hk Hm Hf) as (n2 & E2 & Hinv & Hbare & EV). rewrite E2 in Hb. injection Hb as <-. exists (ring_wiring m).
    split; [by apply ring_wired|]. split; [|split; [done|split; [split; [done|rewrite EV; by eapply fresh_new]|done]]]. intros E. assert (length (ring_wiring m) = m) as Hl by (unfold ring_wiring; by rewrite length_fmap, length_seq).
    rewrite E in Hl. simpl in Hl. lia.
  - destruct (square_up_ok m n1 Hk Hc Hm Hf) as (w & n2 & Hw & Hmw & E2 & Hf2). rewrite E2 in Hb. cbn [mbind res_bind] in Hb.
    apply bind_Ok in Hb as (mp & Hmp%mesh_mapping_perm & Hb). rewrite (proj1 Hf2), length_fmap, length_seq in Hmp.
    destruct (init_mesh_ok w mp n2 Hk Hmp Hf2) as (n3 & W & E3 & HM & Hinv & Hbare & EV). rewrite E3 in Hb. injection Hb as <-. exists W.
    split; [by eapply mesh_wired|]. split; [|split; [done|split; [split; [done|rewrite EV; by eapply fresh_new]|by exists w, mp]]]. intros ->. destruct HM as (_ & Hl & _). simpl in Hl. nia.
Qed.
End start.
