(* ===== verification/MacNetwork.v ===== *)
(** * What MacSim's network does

    The runs of a ring or a mesh (MacRouter.v): packets are accepted from the
    interfaces, routers turn, interfaces take what has arrived. No cycle fails, no
    buffer overflows, and each packet that was accepted is waiting, under way, or with the
    router it was sent to; every hop of a route is one nearer to its end. *)
From S2P Require Import Prelude Types MacDram MacRouter MacRouterLaws MacRouterMoves MacRouterRun MacRouterNet.
#[local] Open Scope Z_scope.

Section network.
Context (k : Noc_Knobs) (unset : nat → Z) (m large small l3 mc : nat) (n0 : router_wrapper_c).
Context (Hk : noc_ok k) (Hm : (2 ≤ m)%nat) (Hbuild : build k unset m large small l3 mc = Ok n0).

(** A run. [sent]: the packets that were accepted, with where they are to go; [taken]:
    those that were taken, with the router that had them. The store of requests may
    change, but for what the waiting ones say of their packets. *)
Inductive net_run : gmap ptr mem_req_s → router_wrapper_c → list (ptr * Z) → list (ptr * Z) → Prop :=
| run_start h : net_run h n0 [] []
| run_store h h' n sent taken :
    net_run h n sent taken →
    (∀ i t p, n_routers n !! i = Some t → p ∈ r_injection t →
       mr_msg_dst <$> h' !! p = mr_msg_dst <$> h !! p ∧ mr_size <$> h' !! p = mr_size <$> h !! p) →
    net_run h' n sent taken
| run_inject h n sent taken i p r n' :
    net_run h n sent taken → (i < length (n_routers n))%nat → h !! p = Some r →
    0 ≤ mr_msg_dst r < Z.of_nat (length (n_routers n)) → 0 ≤ mr_size r < 2 ^ 30 →
    inject_packet k h i p n = Ok (true, n') → net_run h n' ((p, mr_msg_dst r) :: sent) taken
| run_cycle h n sent taken CYCLE n' :
    net_run h n sent taken → net_cycle k h CYCLE n = Ok n' → net_run h n' sent taken
| run_take h n sent taken i t p n' :
    net_run h n sent taken → n_routers n !! i = Some t → receive_req i n = Ok (Some p) → pop_req i n = Ok n' →
    net_run h n' sent ((p, r_id t) :: taken).

Record run_inv (W : statics) h n (sent taken : list (ptr * Z)) : Prop := {
  nv_inv : net_inv k W n;
  nv_posts : posts_ok W h n;
  nv_flow : sent ≡ₚ traffic h n ++ taken;
}.

Lemma posted_same h h' R :
  (∀ i t p, R !! i = Some t → p ∈ r_injection t → mr_msg_dst <$> h' !! p = mr_msg_dst <$> h !! p) → posted h' R = posted h R.
Proof.
  induction R as [|t R IH]; intros HR; [done|]. unfold posted in *. simpl. f_equal; [|apply IH; intros i; apply (HR (S i))].
  apply list_fmap_ext. intros j p Hp. by rewrite (HR 0%nat t p) by (done || by eapply list_elem_of_lookup_2).
Qed.

Lemma store_run W h h' n sent taken :
  run_inv W h n sent taken →
  (∀ i t p, n_routers n !! i = Some t → p ∈ r_injection t →
     mr_msg_dst <$> h' !! p = mr_msg_dst <$> h !! p ∧ mr_size <$> h' !! p = mr_size <$> h !! p) →
  run_inv W h' n sent taken.
Proof.
  intros [H1 H2 H3] Hh. split; [done| |].
  - intros i t p Ht Hp. destruct (H2 i t p Ht Hp) as (r & Hr & Hd & Hs). destruct (Hh i t p Ht Hp) as [Ed Es]. rewrite Hr in Ed, Es.
    destruct (h' !! p) as [r'|] eqn:Hr'; [|done]. injection Ed as Ed. injection Es as Es. exists r'. rewrite Ed, Es. done.
  - rewrite H3. unfold traffic. rewrite (posted_same h h'); [done|]. intros i t p Ht Hp. by apply (Hh i t p).
Qed.

Lemma inject_run W h n sent taken i p r n' :
  wired k W → run_inv W h n sent taken → (i < length (n_routers n))%nat → h !! p = Some r →
  0 ≤ mr_msg_dst r < Z.of_nat (length (n_routers n)) → 0 ≤ mr_size r < 2 ^ 30 →
  inject_packet k h i p n = Ok (true, n') → run_inv W h n' ((p, mr_msg_dst r) :: sent) taken.
Proof.
  intros HW [H1 H2 H3] Hi Hr Hd Hs E. rewrite (router_count k W n H1) in Hi, Hd.
  destruct (inject_packet_ok k W HW Hk h i p n r H1 H2 Hi Hr ltac:(by exists r)) as (b & n1 & E1 & Hn1 & Hp1 & Ht). rewrite E in E1. injection E1 as <- <-.
  split; [done|done|]. by rewrite Ht, H3.
Qed.

Lemma cycle_run W h n sent taken CYCLE n' :
  wired k W → W ≠ [] → run_inv W h n sent taken → net_cycle k h CYCLE n = Ok n' → run_inv W h n' sent taken.
Proof.
  intros HW HW0 [H1 H2 H3] E. destruct (net_cycle_ok k W HW Hk h CYCLE n H1 H2 HW0) as (n1 & E1 & Hmv). rewrite E in E1. injection E1 as <-.
  split; [apply Hmv|by eapply posts_moved|]. rewrite H3. by rewrite (mv_flow _ _ _ _ _ Hmv).
Qed.

Lemma take_run W h n sent taken i t p n' :
  wired k W → run_inv W h n sent taken → n_routers n !! i = Some t → receive_req i n = Ok (Some p) → pop_req i n = Ok n' → run_inv W h n' sent ((p, r_id t) :: taken).
Proof.
  intros HW [H1 H2 H3] Ht Hrec E. destruct (pop_req_ok k W HW h i n p H1 H2 Hrec) as (n1 & id & E1 & Hid & Hn1 & Hp1 & Htr). rewrite E in E1. injection E1 as <-.
  unfold id_of in Hid. rewrite (static_at k W HW _ _ _ (proj1 H1) Ht) in Hid. injection Hid as <-. split; [done|done|]. rewrite H3, Htr. solve_Permutation.
Qed.

Lemma runs_ok : ∃ W, wired k W ∧ W ≠ [] ∧ ∀ h n sent taken, net_run h n sent taken → run_inv W h n sent taken.
Proof.
  destruct (build_ok k unset m large small l3 mc n0 Hm Hbuild) as (W & HW & HW0 & Hinv & Hstill & _). exists W. split; [done|]. split; [done|].
  induction 1; [|by eapply store_run|by eapply inject_run|by eapply cycle_run|by eapply take_run].
  split; [done| |by rewrite (still_traffic k h n0 Hstill)].
  intros i t p Ht. destruct Hstill as [HR _]. rewrite Forall_lookup in HR. destruct (HR i t Ht) as (-> & _). by intros ?%not_elem_of_nil.
Qed.

(** C16. In every run of a ring or a mesh of MacSim's routers of at least two units, with the
    knobs of [noc_ok] (two virtual channels or more, the policy OLDEST_FIRST, a link width
    that is not 0, neither the ideal network nor the one without latency), each packet that was
    accepted is, once, waiting at an interface, on its way, or with the router it was sent
    to - which still has it or has handed it over. *)
Theorem network_delivers h n sent taken :
  net_run h n sent taken →
  sent ≡ₚ posted h (n_routers n) ++ mail (n_vcs n) ++ home (n_routers n) ++ taken.
Proof.
  destruct runs_ok as (W & _ & _ & H). intros Hrun. destruct (H _ _ _ _ Hrun) as [_ _ Hf]. rewrite Hf. unfold traffic. by rewrite <- !app_assoc.
Qed.

(** C17. In every run of such a ring or mesh ([noc_ok]: two virtual channels or more, the policy
    OLDEST_FIRST, a link width that is not 0, neither the ideal network nor the one without
    latency) no cycle of the network fails: no buffer that is empty is read, no
    link that is not there is followed, no assertion fails. *)
Theorem network_never_fails h n sent taken CYCLE :
  net_run h n sent taken → ∃ n', net_cycle k h CYCLE n = Ok n'.
Proof.
  destruct runs_ok as (W & HW & HW0 & H). intros Hrun. destruct (H _ _ _ _ Hrun) as [H1 H2 _].
  destruct (net_cycle_ok k W HW Hk h CYCLE n H1 H2 HW0) as (n' & E & _). by exists n'.
Qed.

(** C18. Credits are exact: in every run of a ring or a mesh with the knobs of [noc_ok] (two
    virtual channels or more, the policy OLDEST_FIRST, a link width that is not 0, neither the
    ideal network, which inserts flits without credits, nor the one without latency) those of an
    output channel, those on the way
    back and the flits in the buffer at the other end of the link are the ten places of
    that buffer. So no input buffer ever has more than its ten flits. *)
Theorem network_buffers_fit h n sent taken :
  net_run h n sent taken →
  (∀ i o v j t x y, n_routers n !! i = Some t → r_link t !! o = Some (Some j) →
     n_vcs n !! (i, o, v) = Some x → n_vcs n !! (j, opposite_dir o, v) = Some y →
     v_credit x + waiting (n_routers n) i o v + Z.of_nat (length (v_input y)) = 10) ∧
  (∀ key x, n_vcs n !! key = Some x → Z.of_nat (length (v_input x)) ≤ 10).
Proof.
  destruct runs_ok as (W & HW & _ & H). intros Hrun. destruct (H _ _ _ _ Hrun) as [(H1 & H2 & c & q & HI) _ _]. split.
  - intros i o v j t x y Ht Hl Hx Hy. rewrite <- (ci_sum k W _ _ H2 i o v j x) by (try done; unfold link_of; by rewrite (static_at k W HW _ _ _ H1 Ht); simpl; rewrite Hl).
    rewrite (input_at _ _ _ Hy). lia.
  - intros [[j p] v] y Hy. destruct (link_of W j p) as [i|] eqn:El.
    + destruct (wi_both k W HW j p i El) as (_ & Hpn & _ & Hin & Hon & _ & Hopp & Hback).
      destruct (proj1 (vi_keys _ _ _ _ _ HI j p v) ltac:(eauto)) as (_ & _ & Hv).
      destruct (proj2 (vi_keys _ _ _ _ _ HI i (opposite_dir p) v)) as [x Hx]; [done|].
      pose proof (ci_sum k W _ _ H2 _ _ _ _ _ Hback Hx) as Hsum. rewrite Hopp, (input_at _ _ _ Hy) in Hsum. unfold waiting in Hsum.
      pose proof (vo_credit _ _ _ _ _ _ (vi_vc _ _ _ _ _ HI _ _ _ _ Hx)). lia.
    + destruct (vo_edge _ _ _ _ _ _ (vi_vc _ _ _ _ _ HI _ _ _ _ Hy) El) as [->|E]; [|rewrite E; simpl; lia].
      pose proof (vi_local _ _ _ _ _ HI j v) as Hl. rewrite (input_at _ _ _ Hy) in Hl. lia.
Qed.

(** ** Routes *)

(** The hops that are left for a flit at router [id]. *)
Definition hops (total id : Z) (f : flit_c) : Z :=
  match noc_topology k with
  | ring =>
      let to_left := (id - f_dst f) `mod` total in let to_right := (f_dst f - id) `mod` total in
      if bool_decide (f_dir f = -1) then Z.min to_left to_right else if bool_decide (f_dir f = Z.of_nat LEFT) then to_left else to_right
  | mesh =>
      let w := Z.sqrt total in
      Z.abs (Z.rem id w - Z.rem (f_dst f) w) + Z.abs (Z.quot id w - Z.quot (f_dst f) w)
  end.

Lemma mod_wrap a t : - t ≤ a < t → a `mod` t = if decide (0 ≤ a) then a else a + t.
Proof.
  intros Ha. case_decide; [apply Z.mod_small; lia|]. rewrite <- (Z.mod_small (a + t) t) by lia. by rewrite <- Zplus_mod_idemp_r, Z.mod_same, Z.add_0_r by lia.
Qed.

(** A step to the left or to the right is one nearer on that side. *)
Lemma left_nearer t i d : 0 ≤ i < t → 0 ≤ d < t → d ≠ i →
  ((if decide (i = 0) then t - 1 else i - 1) - d) `mod` t = (i - d) `mod` t - 1.
Proof. intros Hi Hd Hne. destruct (decide (i = 0)); rewrite !mod_wrap by lia; repeat case_decide; lia. Qed.
Lemma right_nearer t i d : 0 ≤ i < t → 0 ≤ d < t → d ≠ i →
  (d - (if decide (i + 1 = t) then 0 else i + 1)) `mod` t = (d - i) `mod` t - 1.
Proof. intros Hi Hd Hne. destruct (decide (i + 1 = t)); rewrite !mod_wrap by lia; repeat case_decide; lia. Qed.

Lemma ring_dir_spec t i d : 0 ≤ i < t → 0 ≤ d < t → d ≠ i →
  ring_dir t i d = if decide ((i - d) `mod` t < (d - i) `mod` t) then LEFT else RIGHT.
Proof.
  intros Hi Hd Hne. unfold ring_dir. rewrite !mod_wrap by lia. destruct (bool_decide (d < i)) eqn:E; [apply bool_decide_eq_true in E|apply bool_decide_eq_false in E].
  - destruct (decide (0 ≤ i - d)); [|lia]. destruct (decide (0 ≤ d - i)); [lia|]. by case_bool_decide; case_decide.
  - destruct (decide (0 ≤ i - d)); [lia|]. destruct (decide (0 ≤ d - i)); [|lia]. by case_bool_decide; case_decide.
Qed.

Lemma ring_hop i j f port ps ps' d :
  noc_topology k = ring → (i < m)%nat → 0 ≤ f_dst f < Z.of_nat m → (f_dir f = -1 ∨ f_dir f = Z.of_nat LEFT ∨ f_dir f = Z.of_nat RIGHT) →
  f_dst f ≠ Z.of_nat i → route_of k (Z.of_nat m) (Z.of_nat i) f = Ok (ps, ps', d) → port ∈ ps ++ default [] ps' →
  link_of (ring_wiring m) i port = Some j → hops (Z.of_nat m) (Z.of_nat j) (set_f_dir d f) = hops (Z.of_nat m) (Z.of_nat i) f - 1.
Proof.
  intros Hr Hi Hd Hdir Hne E Hport Hl. unfold route_of in E. unfold hops. rewrite Hr in *. simpl. rewrite bool_decide_false in E by done.
  assert (port = LEFT → (Z.of_nat j - f_dst f) `mod` Z.of_nat m = (Z.of_nat i - f_dst f) `mod` Z.of_nat m - 1) as HL.
  { intros ->. rewrite <- left_nearer by lia. f_equal. f_equal. apply ring_link in Hl as [_ [[_ ->]|[? _]]]; [|done].
    destruct (decide (i = 0%nat)), (decide (Z.of_nat i = 0)); lia. }
  assert (port = RIGHT → (f_dst f - Z.of_nat j) `mod` Z.of_nat m = (f_dst f - Z.of_nat i) `mod` Z.of_nat m - 1) as HR.
  { intros ->. rewrite <- right_nearer by lia. f_equal. f_equal. apply ring_link in Hl as [_ [[? _]|[_ ->]]]; [done|].
    destruct (decide (i + 1 = m)%nat), (decide (Z.of_nat i + 1 = Z.of_nat m)); lia. }
  destruct Hdir as [E0|[E0|E0]]; rewrite E0 in *.
  - rewrite bool_decide_false in E by lia. injection E as <- <- <-. apply list_elem_of_singleton in Hport as ->. rewrite ring_dir_spec in * by lia.
    destruct (decide (_ < _)); simpl; [rewrite HL by done|rewrite HR by done]; lia.
  - injection E as <- <- <-. apply list_elem_of_singleton in Hport as ->. simpl. by apply HL.
  - injection E as <- <- <-. apply list_elem_of_singleton in Hport as ->. simpl. by apply HR.
Qed.

Lemma neighbour_place w x y port j : (x < w)%nat → neighbour w (y * w + x) port = Some j →
  ∃ x2 y2, j = (y2 * w + x2)%nat ∧ (x2 < w)%nat ∧
    ((port = LEFT ∧ x2 + 1 = x ∧ y2 = y) ∨ (port = RIGHT ∧ x2 = x + 1 ∧ y2 = y) ∨ (port = UP ∧ x2 = x ∧ y2 + 1 = y) ∨ (port = DOWN ∧ x2 = x ∧ y2 = y + 1))%nat.
Proof.
  intros Hx Hn. rewrite neighbour_at in Hn by done. unfold LEFT, RIGHT, UP, DOWN.
  destruct port as [|[|[|[|[|port]]]]]; try done; case_decide; try done; injection Hn as <-.
  - exists (x - 1)%nat, y. lia.
  - exists (x + 1)%nat, y. lia.
  - exists x, (y - 1)%nat. lia.
  - exists x, (y + 1)%nat. lia.
Qed.

Lemma towards x x' y y' port :
  port ∈ (if decide (x' < x)%nat then [LEFT] else if decide (x < x')%nat then [RIGHT] else []) ++
    (if decide (y' < y)%nat then [UP] else if decide (y < y')%nat then [DOWN] else []) →
  (port = LEFT ∧ (x' < x)%nat) ∨ (port = RIGHT ∧ (x < x')%nat) ∨ (port = UP ∧ (y' < y)%nat) ∨ (port = DOWN ∧ (y < y')%nat).
Proof. rewrite elem_of_app. repeat case_decide; rewrite ?elem_of_cons, ?elem_of_nil; tauto. Qed.

Lemma mesh_hop w mp W a i b j f port ps ps' d :
  noc_topology k = mesh → meshed w mp W → mp !! i = Some a → (i < w * w)%nat → W !! b = Some (Z.of_nat j, mesh_links w mp j) → mp !! j = Some b →
  0 ≤ f_dst f < Z.of_nat (w * w) → f_dst f ≠ Z.of_nat i → route_of k (Z.of_nat (w * w)) (Z.of_nat i) f = Ok (ps, ps', d) → port ∈ ps ++ default [] ps' →
  link_of W a port = Some b → hops (Z.of_nat (w * w)) (Z.of_nat j) (set_f_dir d f) = hops (Z.of_nat (w * w)) (Z.of_nat i) f - 1.
Proof.
  intros Hr HM Hi Hiw Hb Hj Hd Hne E Hport Hl. unfold route_of in E. unfold hops. rewrite Hr in *. simpl. rewrite bool_decide_false in E by done.
  rewrite bool_decide_false in E by lia. rewrite Nat2Z.inj_mul, Z.sqrt_square in * by lia.
  rewrite (mesh_link w mp W i a port HM Hi) in Hl. destruct (neighbour w i port) as [j'|] eqn:En; [|done]. simpl in Hl.
  assert (j' = j) as -> by (eapply (NoDup_lookup mp); [rewrite (proj1 HM); apply NoDup_seq|done|done]).
  destruct (place_of w i Hiw) as (x & y & -> & Hx & Hy), (place_of w (Z.to_nat (f_dst f)) ltac:(lia)) as (x' & y' & Ed & Hx' & Hy').
  assert (f_dst f = Z.of_nat (y' * w + x')) as Ef by lia. rewrite Ef in *. rewrite mesh_ports_at in E by done. injection E as <- <- <-.
  assert (port ∈ (if decide (x' < x)%nat then [LEFT] else if decide (x < x')%nat then [RIGHT] else []) ++ (if decide (y' < y)%nat then [UP] else if decide (y < y')%nat then [DOWN] else [])) as Hp.
  { simpl in Hport. apply elem_of_app in Hport as [?|Hp]; [done|]. apply elem_of_app. destruct (if decide (x' < x)%nat then _ else _); [by right|by left]. }
  destruct (neighbour_place w x y port _ Hx En) as (x2 & y2 & -> & Hx2 & Hn). apply towards in Hp.
  destruct (place_Z w x y Hx) as [-> ->], (place_Z w x' y' Hx') as [-> ->], (place_Z w x2 y2 Hx2) as [-> ->].
  unfold LEFT, RIGHT, UP, DOWN in *. lia.
Qed.

Lemma hops_zero total id f : 0 ≤ id < total → 0 ≤ f_dst f < total → (f_dir f = -1 ∨ f_dir f = Z.of_nat LEFT ∨ f_dir f = Z.of_nat RIGHT) →
  (noc_topology k = mesh → ∃ w, total = w * w ∧ 0 < w) → 0 ≤ hops total id f ∧ (hops total id f = 0 ↔ f_dst f = id).
Proof.
  intros Hid Hd Hdir Hw. unfold hops. destruct (noc_topology k).
  - rewrite !mod_wrap by lia. repeat case_decide; repeat case_bool_decide; lia.
  - destruct (Hw eq_refl) as (w & -> & Hpos). rewrite Z.sqrt_square by lia. pose proof (Z.quot_rem id w ltac:(lia)). pose proof (Z.quot_rem (f_dst f) w ltac:(lia)).
    split; [lia|]. split; [intros E; assert (Z.rem id w = Z.rem (f_dst f) w ∧ Z.quot id w = Z.quot (f_dst f) w) as [E1 E2] by lia; rewrite E1, E2 in *; lia|]. intros ->. lia.
Qed.

(** C29. In a ring or a mesh every port a route offers has a link, to a router that is one
    hop nearer; there are no hops left exactly at the end. So a packet takes as many
    hops as the shortest way has. *)
Theorem every_hop_is_nearer i t f ps ps' d port :
  let total := Z.of_nat (length (n_routers n0)) in
  n_routers n0 !! i = Some t → 0 ≤ f_dst f < total → (f_dir f = -1 ∨ f_dir f = Z.of_nat LEFT ∨ f_dir f = Z.of_nat RIGHT) →
  f_dst f ≠ r_id t → route_of k total (r_id t) f = Ok (ps, ps', d) → port ∈ ps ++ default [] ps' →
  ∃ j u, r_link t !! port = Some (Some j) ∧ n_routers n0 !! j = Some u ∧
    hops total (r_id u) (set_f_dir d f) = hops total (r_id t) f - 1 ∧ 0 ≤ hops total (r_id u) (set_f_dir d f) ∧
    (hops total (r_id u) (set_f_dir d f) = 0 ↔ f_dst f = r_id u).
Proof.
  intros total Ht Hd Hdir Hne E Hport. destruct (build_ok k unset m large small l3 mc n0 Hm Hbuild) as (W & HW & HW0 & Hinv & _ & Hshape).
  pose proof (static_at k W HW _ _ _ (proj1 Hinv) Ht) as Hs. pose proof (router_count k W n0 Hinv) as Hcount. unfold total in *. clear total. rewrite Hcount in *.
  destruct (wi_route k W HW i (r_id t) f) as (qs & qs' & d' & E' & Hall & _ & Hdir'); [unfold id_of; by rewrite Hs|by split|].
  rewrite E in E'. injection E' as <- <- <-. rewrite Forall_forall in Hall. destruct (Hall port Hport) as [_ Hgo].
  unfold goes_to in Hgo. case_decide as Hloc; [unfold id_of in Hgo; rewrite Hs in Hgo; injection Hgo as Hgo; congruence|]. destruct Hgo as [j Hl].
  destruct (wi_both k W HW i port j Hl) as (_ & _ & _ & Hj & _). destruct (router_there k W n0 j Hinv Hj) as [u Hu].
  pose proof (static_at k W HW _ _ _ (proj1 Hinv) Hu) as Hsu. exists j, u.
  split; [|split; [done|]].
  { unfold link_of in Hl. rewrite Hs in Hl. simpl in Hl. destruct (r_link t !! port) as [o|]; [|done]. simpl in Hl. by subst o. }
  assert (∀ a s, W !! a = Some s → 0 ≤ s.1 < Z.of_nat (length W)) as Hids.
  { intros a s Ha. destruct (noc_topology k).
    - subst W. rewrite ring_wiring_at in Ha. unfold ring_wiring in *. rewrite length_fmap, length_seq. case_decide; [|done]. injection Ha as <-. simpl. lia.
    - destruct Hshape as (w & mp & HM). destruct (meshed_at w mp W a s HM Ha) as (i' & _ & Hi' & ->). rewrite (proj1 (proj2 HM)). simpl. lia. }
  assert (hops (Z.of_nat (length W)) (r_id u) (set_f_dir d f) = hops (Z.of_nat (length W)) (r_id t) f - 1) as Hhop.
  { destruct (noc_topology k) eqn:Hk'.
    - subst W. assert (length (ring_wiring m) = m) as Hlm by (unfold ring_wiring; by rewrite length_fmap, length_seq). rewrite Hlm in *.
      rewrite ring_wiring_at in Hs, Hsu. do 2 (case_decide; [|done]). injection Hs as Hs _. injection Hsu as Hsu _. rewrite <- Hs, <- Hsu in *.
      by apply (ring_hop i j f port ps ps' d).
    - destruct Hshape as (w & mp & HM). rewrite (proj1 (proj2 HM)) in *.
      destruct (meshed_at w mp W i _ HM Hs) as (i' & Hi' & Hiw & [= Hid _]), (meshed_at w mp W j _ HM Hsu) as (j' & Hj' & Hjw & Hsj). injection Hsj as Hjd Hjl.
      rewrite Hid, Hjd in *. apply (mesh_hop w mp W i i' j j' f port ps ps' d); try done. by rewrite Hsu, Hjl. }
  split; [done|]. apply (hops_zero _ _ (set_f_dir d f)); try done; [by apply (Hids j _ Hsu)|].
  intros Hmesh. rewrite Hmesh in Hshape. destruct Hshape as (w & mp & HM). exists (Z.of_nat w). rewrite (proj1 (proj2 HM)) in *. split; [lia|nia].
Qed.
End network.

(** ** A ring of six *)

(** The defaults of def/network.param.def. *)
Definition wit_noc : Noc_Knobs := mkNoc ring 1 4 1 16 OLDEST_FIRST false 2 false false false.
Definition wit_ring : router_wrapper_c := match build wit_noc (λ _, 0) 6 2 1 1 2 with Ok n => n | Err _ => mkNet [] ∅ end.

Lemma wit_noc_ok : noc_ok wit_noc.
Proof. split; try done. simpl. lia. Qed.

Lemma wit_ring_built : build wit_noc (λ _, 0) 6 2 1 1 2 = Ok wit_ring.
Proof. vm_compute. reflexivity. Qed.

(** Two packets with data: from router 0 to router 3, and from router 4 to router 2. *)
Definition wit_packet (src dst : Z) : mem_req_s := mkMemReq 0 0 0 MEM_NEW MRT_DFETCH 0 128 0 false 0 NOC_NEW_WITH_DATA src dst.
Definition wit_store : gmap ptr mem_req_s := {[ 1%positive := wit_packet 0 3; 2%positive := wit_packet 4 2 ]}.
Definition wit_accept (i : nat) (p : ptr) (n : router_wrapper_c) : router_wrapper_c :=
  match inject_packet wit_noc wit_store i p n with Ok bn => bn.2 | Err _ => n end.
Fixpoint wit_turns (c : nat) : router_wrapper_c :=
  match c with
  | O => wit_accept 4 2 (wit_accept 0 1 wit_ring)
  | S c => match net_cycle wit_noc wit_store (Z.of_nat c) (wit_turns c) with Ok n => n | Err _ => wit_turns c end
  end.

Lemma wit_turns_run c :
  forallb (λ j, is_Ok (net_cycle wit_noc wit_store (Z.of_nat j) (wit_turns j))) (seq 0 c) = true →
  net_run wit_noc wit_ring wit_store (wit_turns c) [(2%positive, 2); (1%positive, 3)] [].
Proof.
  induction c as [|c IH]; intros Hc.
  - apply (run_inject _ _ _ (wit_accept 0 1 wit_ring) _ _ 4 2%positive (wit_packet 4 2)); [|vm_compute; lia|done|vm_compute; intuition congruence|vm_compute; intuition congruence|by vm_compute].
    apply (run_inject _ _ _ wit_ring _ _ 0 1%positive (wit_packet 0 3)); [apply run_start|vm_compute; lia|done|vm_compute; intuition congruence|vm_compute; intuition congruence|by vm_compute].
  - rewrite seq_S, forallb_app in Hc. apply andb_true_iff in Hc as [Hc Hl]. simpl in Hl. rewrite andb_true_r in Hl. specialize (IH Hc).
    cbn [wit_turns]. destruct (net_cycle wit_noc wit_store (Z.of_nat c) (wit_turns c)) as [n|] eqn:E; [|done]. by eapply run_cycle.
Qed.

Lemma wit_ring_run_60 : net_run wit_noc wit_ring wit_store (wit_turns 60) [(2%positive, 2); (1%positive, 3)] [].
Proof. apply wit_turns_run. vm_compute. reflexivity. Qed.

(** After sixty cycles both are there. *)
Lemma wit_arrived : (home (n_routers (wit_turns 60)), mail (n_vcs (wit_turns 60))) = ([(2%positive, 2); (1%positive, 3)], []).
Proof. vm_compute. reflexivity. Qed.

Lemma network_delivers_witness :
  [(2%positive, 2); (1%positive, 3)] ≡ₚ posted wit_store (n_routers (wit_turns 60)) ++ mail (n_vcs (wit_turns 60)) ++ home (n_routers (wit_turns 60)) ++ [].
Proof. exact (network_delivers wit_noc (λ _, 0) 6 2 1 1 2 wit_ring wit_noc_ok ltac:(lia) wit_ring_built _ _ _ _ wit_ring_run_60). Defined.

Lemma network_never_fails_witness : ∃ n', net_cycle wit_noc wit_store 60 (wit_turns 60) = Ok n'.
Proof. exact (network_never_fails wit_noc (λ _, 0) 6 2 1 1 2 wit_ring wit_noc_ok ltac:(lia) wit_ring_built _ _ _ _ 60 wit_ring_run_60). Defined.

(** In cycle 14 router 0 has four credits for the first channel to its right, one is on the
    way back, and five flits are in the buffer of router 1. *)
Definition wit_channel (key : nat * nat * nat) : vc_t := default (new_vc wit_noc) (n_vcs (wit_turns 14) !! key).
Definition wit_router (i : nat) : router_c := default (mkRouter 0 [] [] [] [] [] [] 0 0) (n_routers (wit_turns 14) !! i).
Lemma wit_ring_run_14 : net_run wit_noc wit_ring wit_store (wit_turns 14) [(2%positive, 2); (1%positive, 3)] [].
Proof. apply wit_turns_run. vm_compute. reflexivity. Qed.

Lemma network_buffers_fit_witness : 4 + waiting (n_routers (wit_turns 14)) 0 RIGHT 0 + Z.of_nat 5 = 10.
Proof.
  exact (proj1 (network_buffers_fit wit_noc (λ _, 0) 6 2 1 1 2 wit_ring wit_noc_ok ltac:(lia) wit_ring_built _ _ _ _ wit_ring_run_14)
    0%nat RIGHT 0%nat 1%nat (wit_router 0) (wit_channel (0, RIGHT, 0)%nat) (wit_channel (1, LEFT, 0)%nat)
    ltac:(vm_compute; reflexivity) ltac:(vm_compute; reflexivity) ltac:(vm_compute; reflexivity) ltac:(vm_compute; reflexivity)).
Defined.

(** A header at router 5 for router 1 goes to the right, to router 0. *)
Definition wit_header : flit_c := mkFlit 5 1 (-1) true false 1 IB 0 0 0.
Lemma every_hop_is_nearer_witness : ∃ j u, n_routers wit_ring !! j = Some u ∧ hops wit_noc 6 (r_id u) (set_f_dir 2 wit_header) = 2 - 1.
Proof.
  destruct (every_hop_is_nearer wit_noc (λ _, 0) 6 2 1 1 2 wit_ring ltac:(lia) wit_ring_built 5
    (mkRouter 5 [None; Some 4%nat; Some 0%nat; None; None] [] [] [0; 0; 0] [0; 0; 0] [] 0 0) wit_header [RIGHT] None 2 RIGHT)
    as (j & u & _ & Hu & Hh & _); [by vm_compute|vm_compute; intuition congruence|by left|by vm_compute|by vm_compute|left|].
  exists j, u. split; [exact Hu|]. exact Hh.
Defined.
