(* ===== verification/MacMemory.v ===== *)
(** * Where MacSim's requests go

    [memory_c] (src/IntegrationWithMacSim/src/memory.cc) as far as it decides where a
    request goes: which caches have a router, the caches and the memory controller of an
    address ([set_cache_id] of the kinds of memory), the routers of the network, and the
    map of destinations. The theorems put it together with the network (MacRouter.v) and the
    address parsing of the DRAM controller (MacDram.v). *)
From S2P Require Import Prelude Types MacDram MacDramLaws MacDramRun MacRouter MacRouterLaws MacRouterMoves MacRouterRun MacRouterNet.
#[local] Open Scope Z_scope.

(** ** The memory *)
Inductive Memory_Kind := l3_coupled_network | l3_decoupled_network | l2_coupled_local | no_cache | l2_decoupled_network | l2_decoupled_local.

#[export] Instance Memory_Kind_eq_dec : EqDecision Memory_Kind.
Proof. solve_decision. Defined.

(** Levels. *)
Definition MEM_L1 : Z := 1.
Definition MEM_L2 : Z := 2.
Definition MEM_L3 : Z := 3.
Definition MEM_MC : Z := 4.

(** The knobs beside those of the DRAM controller ([Knobs]); the numbers of cores as counts. *)
Record Mem_Knobs := mkMemKnobs {
  memory_type : Memory_Kind;
  num_sim_cores : nat;
  num_large_cores : nat;
  num_medium_cores : nat;
  num_small_cores : nat;
  dram_interleave_factor : Z;
  router_placement : Z;
}.

(** [pow(2, e)], converted to [int]. *)
Definition pow2_int (e : Z) : res Z := if bool_decide (e < 31) then Ok (2 ^ e) else Err Undefined.

(** The factors of [memory_c::memory_c] for the third level caches and for the memory; [diff]
    and [same] are the two knobs of the new interleaving. *)
Definition interleave_factors (k : Knobs) (diff same : bool) : res (Z * Z) :=
  if default_interleaving k then
    l3 ← pow2_int (int (u32 (log2_int (l3_num_set k) + log2_int (l3_line_size k))));
    dram ← pow2_int (int (u32 (log2_int (rowbuffer_size k) + log2_int (num_bank k))));
    Ok (l3, dram)
  else if diff then Ok (l3_line_size k, rowbuffer_size k)
  else if same then Ok (rowbuffer_size k, rowbuffer_size k)
  else Err Abort.

(** The assertions of the subclasses, and the caches they initialise: all cores must have
    theirs. *)
Definition check_cores (k : Knobs) (g : Mem_Knobs) : res unit :=
  _ ← (if decide (num_large_cores g + num_medium_cores g + num_small_cores g = num_sim_cores g)%nat then Ok tt else Err Undefined);
  assert_ (match memory_type g with
           | l3_coupled_network | l2_coupled_local | no_cache => bool_decide (Z.of_nat (num_sim_cores g) = num_l3 k)
           | _ => true
           end).

(** [m_has_router]: the last argument of [dcu_c::init]. *)
Definition has_router (m : Memory_Kind) (level : Z) : bool :=
  if bool_decide (level = MEM_L1) then match m with l2_coupled_local => true | _ => false end
  else if bool_decide (level = MEM_L2) then match m with l2_decoupled_local => false | _ => true end
  else true.

(** *** Component numbers: [m_noc_index_base], [get_dst_id], [get_level_id] *)
Definition noc_index_base (k : Knobs) (g : Mem_Knobs) (level : Z) : Z :=
  let cores := Z.of_nat (num_sim_cores g) in
  if bool_decide (level = MEM_L1) then 0
  else if bool_decide (level = MEM_L2) then cores
  else if bool_decide (level = MEM_L3) then int (cores * 2)
  else int (cores * 2 + num_l3 k).

Definition get_dst_id (k : Knobs) (g : Mem_Knobs) (level id : Z) : Z := int (noc_index_base k g level + id).

Definition get_level_id (k : Knobs) (g : Mem_Knobs) (noc_id : Z) : Z * Z :=
  let level :=
    if bool_decide (noc_id < noc_index_base k g MEM_L2) then MEM_L1
    else if bool_decide (noc_id < noc_index_base k g MEM_L3) then MEM_L2
    else if bool_decide (noc_id < noc_index_base k g MEM_MC) then MEM_L3
    else MEM_MC in
  (level, int (noc_id - noc_index_base k g level)).

(** *** The caches and the controller of an address *)

(** [BANK] (utils.h). *)
Definition BANK (a num factor : Z) : res Z :=
  a ← shr64 a (log2_int factor); Ok (int (Z.land a (N_BIT_MASK (log2_int num)))).

(** The choice of [l2_decoupled_network_c]; its test reads [num & ((num - 1) == 0)]. *)
Definition pick_unit (a num factor : Z) : res Z :=
  if mc_test num then BANK a num factor
  else
    a ← shr64 a (log2_int factor);
    if bool_decide (u64 num = 0) then Err Undefined else Ok (int (a `mod` u64 num)).

(** [set_cache_id] of the memory: the third level cache and the memory controller; those of the
    first and second level are the ones of the core. [factors]: [interleave_factors]. *)
Definition set_cache_id (k : Knobs) (g : Mem_Knobs) (factors : Z * Z) (core addr : Z) : res (Z * Z) :=
  match memory_type g with
  | l3_coupled_network | l3_decoupled_network | l2_decoupled_local =>
      l3 ← BANK addr (num_l3 k) factors.1;
      mc ← BANK addr (num_mc k) (dram_interleave_factor g);
      Ok (l3, mc)
  | l2_coupled_local | no_cache =>
      mc ← BANK addr (num_mc k) (dram_interleave_factor g);
      Ok (core, mc)
  | l2_decoupled_network =>
      l3 ← pick_unit addr (num_l3 k) factors.1;
      mc ← pick_unit addr (num_mc k) factors.2;
      Ok (l3, mc)
  end.

(** *** Routers and destinations: [memory_c::init] *)

(** The routers ([m_router]) of the caches of a level and of the memory controllers, by their
    index; [None] where there is none. *)
Definition Terminals := list (option nat).

(** [create_network_interface] of [n] components. *)
Definition interfaces (k : Noc_Knobs) (unset : nat → Z) (has : bool) (count : nat) (n : router_wrapper_c) : res (Terminals * router_wrapper_c) :=
  foldM (seq 0 count) ([], n) (λ _ '(l, n),
    if has then n' ← create_router k unset n; Ok (l ++ [Some (length (n_routers n))], n')
    else Ok (l ++ [None], n)).


Record Interfaces := mkInterfaces {
  i_l1 : Terminals;
  i_l2 : Terminals;
  i_l3 : Terminals;
  i_mc : Terminals;
}.

(** The assignments to [m_dst_map] of a loop. *)
Definition dst_range (level : Z) (from count : nat) (place : nat → Z) : list (Z * Z) :=
  (λ ii, (level * 100 + Z.of_nat (from + ii), place ii)) <$> seq 0 count.

Definition dst_entries (dimension : Z) (g : Mem_Knobs) (l3 mc : nat) : res (list (Z * Z)) :=
  let large := num_large_cores g in let small := num_small_cores g in let core := num_sim_cores g in
  let from (b : nat) := λ ii, Z.of_nat (b + ii) in
  if bool_decide (dimension = 2) then
    let start := if decide (large = 0%nat) then small else large in
    Ok (dst_range MEM_L2 0 large (from 0%nat)
      ++ (if decide (large = 0%nat) then dst_range MEM_L2 0 small (from 0%nat) else [])
      ++ dst_range MEM_L3 0 l3 (from start) ++ dst_range MEM_MC 0 mc (from (start + l3)%nat)
      ++ (if decide (large ≠ 0%nat) then dst_range MEM_L2 large small (from (large + l3 + mc)%nat) else []))
  else if bool_decide (dimension = 1) then
    let tail := dst_range MEM_L3 0 l3 (from core) ++ dst_range MEM_MC 0 mc (from (core + l3)%nat) in
    if bool_decide (router_placement g = 0) then Ok (dst_range MEM_L2 0 core (from 0%nat) ++ tail)
    else if bool_decide (router_placement g = 1) then
      Ok (dst_range MEM_L2 0 large (from small) ++ dst_range MEM_L2 large small (from 0%nat) ++ tail)
    else if bool_decide (router_placement g = 2) then
      let half := (mc / 2)%nat in
      Ok (dst_range MEM_L2 0 core (from 0%nat) ++ dst_range MEM_MC 0 half (from core) ++ dst_range MEM_L3 0 l3 (from (core + half)%nat)
        ++ dst_range MEM_MC half (mc - half) (from (core + half + l3)%nat))
    else if bool_decide (router_placement g = 3) then
      Ok (dst_range MEM_L2 0 large (λ ii, Z.of_nat (ii * 2)) ++ dst_range MEM_L2 large small (λ ii, Z.of_nat (ii * 2 + 1)) ++ tail)
    else Ok []
  else if bool_decide (dimension = 0) then
    Ok (dst_range MEM_L2 0 large (from 0%nat) ++ dst_range MEM_L2 large small (from large)
      ++ dst_range MEM_L3 0 l3 (from (large + small)%nat) ++ dst_range MEM_MC 0 mc (from (large + small + l3)%nat))
  else Err Abort.

Definition assign_all (l : list (Z * Z)) (m : gmap Z Z) : gmap Z Z := foldl (λ m e, <[e.1 := e.2]> m) m l.

(** [init] for the new network: the routers and [m_dst_map]. *)
Definition memory_init (k : Knobs) (g : Mem_Knobs) (nk : Noc_Knobs) (unset : nat → Z) (n : router_wrapper_c) : res (Interfaces * gmap Z Z * router_wrapper_c) :=
  let l3 := Z.to_nat (num_l3 k) in let mc := Z.to_nat (num_mc k) in
  '(r1, n) ← interfaces nk unset (has_router (memory_type g) MEM_L1) (num_sim_cores g) n;
  '(r2, n) ← interfaces nk unset (has_router (memory_type g) MEM_L2) (num_sim_cores g) n;
  '(r3, n) ← interfaces nk unset (has_router (memory_type g) MEM_L3) l3 n;
  '(r4, n) ← interfaces nk unset true mc n;
  l ← dst_entries (noc_dimension nk) g l3 mc;
  Ok (mkInterfaces r1 r2 r3 r4, assign_all l ∅, n).

(** [get_dst_router_id]; [operator[]] of a missing key is 0. *)
Definition get_dst_router_id (dst_map : gmap Z Z) (level id : Z) : Z := default 0 (dst_map !! (level * 100 + id)).

(** The start of the simulation: the memory's [init] and then the network's. *)
Definition memory_system (k : Knobs) (g : Mem_Knobs) (nk : Noc_Knobs) (unset : nat → Z) : res (Interfaces * gmap Z Z * router_wrapper_c) :=
  _ ← check_cores k g;
  '(i, dst, n) ← memory_init k g nk unset (mkNet [] ∅);
  n ← net_init nk (num_large_cores g) (num_small_cores g) (Z.to_nat (num_l3 k)) (Z.to_nat (num_mc k)) unset n;
  Ok (i, dst, n).

(** ** The units of an address *)

(** Where the router of a component is. *)
Definition terminal (t : Interfaces) (level id : Z) : option nat :=
  if bool_decide (id < 0) then None
  else
    mjoin ((if bool_decide (level = MEM_L1) then i_l1 t else if bool_decide (level = MEM_L2) then i_l2 t
            else if bool_decide (level = MEM_L3) then i_l3 t else i_mc t) !! Z.to_nat id).

(** Component numbers and levels are inverse to each other. *)
Lemma get_level_id_dst k g level id :
  0 ≤ num_l3 k → 0 ≤ num_mc k → Z.of_nat (num_sim_cores g) * 2 + num_l3 k + num_mc k < 2 ^ 31 → 0 ≤ id →
  (level = MEM_L1 ∧ id < Z.of_nat (num_sim_cores g) ∨ level = MEM_L2 ∧ id < Z.of_nat (num_sim_cores g) ∨
   level = MEM_L3 ∧ id < num_l3 k ∨ level = MEM_MC ∧ id < num_mc k) →
  get_level_id k g (get_dst_id k g level id) = (level, id).
Proof.
  intros H3 H4 Hall Hid Hl. unfold get_level_id, get_dst_id.
  assert (noc_index_base k g MEM_L1 = 0 ∧ noc_index_base k g MEM_L2 = Z.of_nat (num_sim_cores g)) as [B1 B2] by done.
  assert (noc_index_base k g MEM_L3 = Z.of_nat (num_sim_cores g) * 2) as B3 by (unfold noc_index_base; simpl; by rewrite int_small by lia).
  assert (noc_index_base k g MEM_MC = Z.of_nat (num_sim_cores g) * 2 + num_l3 k) as B4 by (unfold noc_index_base; simpl; by rewrite int_small by lia).
  rewrite B2, B3, B4.
  assert (noc_index_base k g level + id < 2 ^ 31 ∧ 0 ≤ noc_index_base k g level) as Hs by (destruct Hl as [[-> ?]|[[-> ?]|[[-> ?]|[-> ?]]]]; rewrite ?B1, ?B2, ?B3, ?B4; lia).
  rewrite (int_small (noc_index_base k g level + id)) by lia.
  destruct Hl as [[-> ?]|[[-> ?]|[[-> ?]|[-> ?]]]]; rewrite ?B1, ?B2, ?B3, ?B4; repeat (case_bool_decide; try lia); rewrite ?B1, ?B2, ?B3, ?B4, int_small by lia; f_equal; lia.
Qed.

Lemma log2_loop_bound fuel : ∀ n power, 0 ≤ n < 2 ^ Z.of_nat (S fuel) → power ≤ log2_loop (S fuel) n power ≤ power + Z.of_nat fuel.
Proof.
  induction fuel as [|fuel IH]; intros n power Hn; cbn [log2_loop].
  - rewrite bool_decide_true by (rewrite Z.shiftr_div_pow2 by lia; change (2 ^ 1) with 2; apply Z.div_small; simpl in Hn; lia). lia.
  - case_bool_decide; [lia|]. rewrite Nat2Z.inj_succ, Z.pow_succ_r in Hn by lia.
    assert (0 ≤ Z.shiftr n 1 < 2 ^ Z.of_nat (S fuel)) as Hb.
    { rewrite Z.shiftr_div_pow2 by lia. split; [apply Z.div_pos; lia|]. apply Z.div_lt_upper_bound; lia. }
    specialize (IH (Z.shiftr n 1) (power + 1) Hb). cbn [log2_loop] in IH. lia.
Qed.
Lemma log2_int_range n : 0 ≤ log2_int n < 32.
Proof.
  pose proof (log2_loop_bound 31 (u32 n) 0) as H. unfold log2_int. pose proof (Z.mod_pos_bound n (2 ^ 32) ltac:(lia)). unfold u32 in *.
  change (2 ^ Z.of_nat 32) with (2 ^ 32) in H. specialize (H ltac:(done)). lia.
Qed.

Lemma mask_of num : 0 < num < 2 ^ 31 → N_BIT_MASK (log2_int num) = 2 ^ Z.log2 num - 1 ∧ 0 ≤ Z.log2 num ∧ 2 ^ Z.log2 num ≤ num.
Proof.
  intros Hn. destruct (log2_int_spec num ltac:(lia)) as [-> Hl]. pose proof (Z.log2_spec num ltac:(lia)) as [Hlo _]. split; [|lia].
  unfold N_BIT_MASK. rewrite Z.shiftl_1_l. apply u32_small. pose proof (Z.pow_pos_nonneg 2 (Z.log2 num) ltac:(lia) ltac:(lia)). lia.
Qed.

(** A unit is chosen whatever the address is, and there is one of its number. *)
Lemma BANK_spec a num factor : 0 < num < 2 ^ 31 → BANK a num factor = Ok (Z.shiftr a (log2_int factor) `mod` 2 ^ Z.log2 num).
Proof.
  intros Hn. destruct (mask_of num Hn) as (E & Hl & Hle). unfold BANK, shr64. pose proof (log2_int_range factor).
  rewrite bool_decide_true by lia. cbn [mbind res_bind]. rewrite E, land_mask by done. pose proof (Z.mod_pos_bound (Z.shiftr a (log2_int factor)) (2 ^ Z.log2 num) ltac:(by apply Z.pow_pos_nonneg)).
  by rewrite int_small by lia.
Qed.

(** The test that was to find the powers of two finds the number one, for which there is no
    difference. *)
Lemma pick_unit_spec a num factor : 0 < num < 2 ^ 31 → pick_unit a num factor = Ok (Z.shiftr a (log2_int factor) `mod` num).
Proof.
  intros Hn. unfold pick_unit. destruct (mc_test num) eqn:Et.
  - assert (num = 1) as ->.
    { unfold mc_test in Et. apply bool_decide_eq_true in Et. case_bool_decide; [lia|]. by rewrite Z.land_0_r in Et. }
    by rewrite BANK_spec.
  - unfold shr64. pose proof (log2_int_range factor). rewrite (bool_decide_true (_ < 64)) by lia. cbn [mbind res_bind].
    rewrite u64_small by lia. rewrite bool_decide_false by lia. pose proof (Z.mod_pos_bound (Z.shiftr a (log2_int factor)) num ltac:(lia)). by rewrite int_small by lia.
Qed.

(** ** The routers of the components *)
Lemma create_router_ctor nk unset n n' : create_router nk unset n = Ok n' → ctor_ok nk.
Proof.
  intros E. unfold create_router in E. apply bind_Ok in E as (r & Hr & _). unfold router_ctor in Hr. apply bind_Ok in Hr as (u & Ha%assert_Ok & _).
  unfold ctor_ok. destruct (noc_topology nk); by apply bool_decide_eq_true in Ha.
Qed.

Lemma interfaces_ctor nk unset count n x : (0 < count)%nat → interfaces nk unset true count n = Ok x → ctor_ok nk.
Proof.
  intros Hc E. destruct count as [|c]; [lia|]. unfold interfaces in E. simpl in E. apply bind_Ok in E as (y & E & _). apply bind_Ok in E as (n' & E & _).
  by eapply create_router_ctor.
Qed.

Lemma interfaces_fresh nk unset (has : bool) count m n :
  ctor_ok nk → fresh nk unset m n →
  ∃ n', interfaces nk unset has count n = Ok (if has then Some <$> seq m count else replicate count None, n') ∧
    fresh nk unset (if has then m + count else m)%nat n'.
Proof.
  intros Hc Hn. unfold interfaces. induction count as [|c (n1 & E1 & H1)].
  - exists n. simpl. split; [by destruct has|]. destruct has; [by rewrite Nat.add_0_r|done].
  - rewrite foldM_seq_snoc, E1. cbn [mbind res_bind]. destruct has.
    + destruct (create_router_fresh nk unset _ n1 Hc H1) as (n2 & -> & H2). exists n2. cbn [mbind res_bind]. split; [|by rewrite Nat.add_succ_r].
      rewrite (proj1 H1), length_fmap, length_seq, seq_S, fmap_app. done.
    + exists n1. split; [|done]. by rewrite replicate_S_end.
Qed.

(** The identifiers of the routers of a network: the index in a ring, the place in a mesh. *)
Lemma net_ids nk unset m large small l3 mc n n' :
  ctor_ok nk → (2 ≤ m)%nat → fresh nk unset m n → net_init nk large small l3 mc unset n = Ok n' →
  match noc_topology nk with
  | ring => ∀ i, (i < m)%nat → ∃ t, n_routers n' !! i = Some t ∧ r_id t = Z.of_nat i
  | mesh => ∃ w mp, (m ≤ w * w)%nat ∧ mesh_mapping large small l3 mc (w * w) = Ok mp ∧
      ∀ j i, mp !! j = Some i → ∃ t, n_routers n' !! i = Some t ∧ r_id t = Z.of_nat j
  end.
Proof.
  intros Hc Hm Hf Hb. unfold net_init in Hb. destruct (noc_topology nk) eqn:Hk.
  - destruct (init_ring_ok nk unset m n Hk Hm Hf) as (n2 & E2 & Hinv & _). rewrite E2 in Hb. injection Hb as <-. intros i Hi.
    destruct (router_there nk (ring_wiring m) n2 i Hinv) as (t & Ht); [by unfold ring_wiring; rewrite length_fmap, length_seq|].
    exists t. split; [done|]. pose proof (static_at nk _ (ring_wired nk m Hk Hm) _ _ _ (proj1 Hinv) Ht) as Hs. rewrite ring_wiring_at, decide_True in Hs by done. by injection Hs as <- _.
  - destruct (square_up_ok nk unset m n Hk Hc Hm Hf) as (w & n2 & Hw & Hmw & E2 & Hf2). rewrite E2 in Hb. cbn [mbind res_bind] in Hb.
    apply bind_Ok in Hb as (mp & Hmp & Hb). rewrite (proj1 Hf2), length_fmap, length_seq in Hmp. exists w, mp. split; [done|]. split; [done|].
    destruct (init_mesh_ok nk unset w mp n2 Hk (mesh_mapping_perm _ _ _ _ _ _ Hmp) Hf2) as (n3 & W & E3 & HM & Hinv & _). rewrite E3 in Hb. injection Hb as <-.
    intros j i Hj. pose proof (proj2 (proj2 HM) j i Hj) as HWi.
    destruct (router_there nk W n3 i Hinv) as (t & Ht); [by eapply lookup_lt_Some|].
    exists t. split; [done|]. pose proof (static_at nk W (mesh_wired nk w mp W Hk HM) _ _ _ (proj1 Hinv) Ht) as Hs. rewrite HWi in Hs. by injection Hs as <- _.
Qed.

(** ** The map of destinations *)
Lemma elem_of_dst_range level from count place key v :
  (key, v) ∈ dst_range level from count place ↔ ∃ ii, (ii < count)%nat ∧ key = level * 100 + Z.of_nat (from + ii) ∧ v = place ii.
Proof.
  unfold dst_range. rewrite list_elem_of_fmap. split.
  - intros (ii & [= -> ->] & Hii%elem_of_seq). exists ii. split; [lia|done].
  - intros (ii & Hii & -> & ->). exists ii. split; [done|]. apply elem_of_seq. lia.
Qed.

(** A key that is assigned one value only has it. *)
Lemma assign_at l m key v : (key, v) ∈ l → (∀ v', (key, v') ∈ l → v' = v) → assign_all l m !! key = Some v.
Proof.
  unfold assign_all. induction l as [|[k' v'] l IH] using rev_ind; [by intros ?%not_elem_of_nil|]. intros Hin Hv. rewrite foldl_app. simpl.
  destruct (decide (k' = key)) as [->|Hne].
  - rewrite lookup_insert_eq. f_equal. apply Hv. apply elem_of_app. right. by left.
  - rewrite lookup_insert_ne by done. apply IH; [|intros; apply Hv, elem_of_app; by left].
    apply elem_of_app in Hin as [?|E%list_elem_of_singleton]; [done|]. by injection E as -> ->.
Qed.

Lemma dst_at l level id v :
  (level * 100 + id, v) ∈ l → (∀ v', (level * 100 + id, v') ∈ l → v' = v) → get_dst_router_id (assign_all l ∅) level id = v.
Proof. intros Hin Hv. unfold get_dst_router_id. by rewrite (assign_at l ∅ _ v Hin Hv). Qed.

(** Where the unit [id] of a level is: in the ring in the order of the levels, in the mesh
    with the small cores behind the memory controllers when there are large ones. *)
Definition home (mesh_like : bool) (g : Mem_Knobs) (l3 mc : nat) (level id : Z) : Z :=
  let large := Z.of_nat (num_large_cores g) in
  let start := if mesh_like && negb (bool_decide (large = 0)) then large else Z.of_nat (num_sim_cores g) in
  if bool_decide (level = MEM_L2) then
    if mesh_like && negb (bool_decide (large = 0)) && bool_decide (large ≤ id) then Z.of_nat (l3 + mc) + id else id
  else if bool_decide (level = MEM_L3) then start + id
  else start + Z.of_nat l3 + id.

Definition unit_of (g : Mem_Knobs) (l3 mc : nat) (level id : Z) : Prop :=
  0 ≤ id ∧ (level = MEM_L2 ∧ id < Z.of_nat (num_sim_cores g) ∨ level = MEM_L3 ∧ id < Z.of_nat l3 ∨ level = MEM_MC ∧ id < Z.of_nat mc).

Lemma ring_homes g l3 mc l level id :
  (num_sim_cores g ≤ 100)%nat → (l3 ≤ 100)%nat → router_placement g = 0 → dst_entries 1 g l3 mc = Ok l →
  unit_of g l3 mc level id → get_dst_router_id (assign_all l ∅) level id = home false g l3 mc level id.
Proof.
  intros Hc H3 Hp E [Hid Hl]. unfold dst_entries in E. rewrite bool_decide_false, !bool_decide_true in E by done. injection E as <-.
  unfold home, MEM_L2, MEM_L3, MEM_MC in *. simpl. apply dst_at.
  - rewrite !elem_of_app, !elem_of_dst_range. destruct Hl as [[-> ?]|[[-> ?]|[-> ?]]]; simpl; [left|right; left|right; right]; exists (Z.to_nat id); lia.
  - intros v'. rewrite !elem_of_app, !elem_of_dst_range. intros [(ii & ? & ? & ->)|[(ii & ? & ? & ->)|(ii & ? & ? & ->)]];
      destruct Hl as [[-> ?]|[[-> ?]|[-> ?]]]; simpl in *; lia.
Qed.

Lemma mesh_homes g l3 mc l level id :
  (num_sim_cores g ≤ 100)%nat → (l3 ≤ 100)%nat → (num_large_cores g + num_small_cores g = num_sim_cores g)%nat → dst_entries 2 g l3 mc = Ok l →
  unit_of g l3 mc level id → get_dst_router_id (assign_all l ∅) level id = home true g l3 mc level id.
Proof.
  intros Hc H3 Hsum E [Hid Hl]. unfold dst_entries in E. rewrite bool_decide_true in E by done. injection E as <-.
  unfold home, MEM_L2, MEM_L3, MEM_MC in *. apply dst_at.
  - destruct (decide (num_large_cores g = 0%nat)) as [E0|E0].
    + rewrite (bool_decide_true (Z.of_nat _ = 0)) by lia. rewrite decide_False by lia. rewrite !elem_of_app, !elem_of_dst_range.
      destruct Hl as [[-> ?]|[[-> ?]|[-> ?]]]; simpl; [right; left|right; right; left|right; right; right; left]; exists (Z.to_nat id); lia.
    + rewrite (bool_decide_false (Z.of_nat _ = 0)) by lia. rewrite decide_True by lia. rewrite !elem_of_app, !elem_of_dst_range.
      destruct Hl as [[-> ?]|[[-> ?]|[-> ?]]]; simpl; [|right; right; left; exists (Z.to_nat id); lia|right; right; right; left; exists (Z.to_nat id); lia].
      case_bool_decide; [right; right; right; right; exists (Z.to_nat id - num_large_cores g)%nat; lia|left; exists (Z.to_nat id); lia].
  - intros v'. destruct (decide (num_large_cores g = 0%nat)) as [E0|E0].
    + rewrite (bool_decide_true (Z.of_nat _ = 0)) by lia. rewrite decide_False by lia. rewrite !elem_of_app, !elem_of_dst_range, elem_of_nil.
      intros [(ii & ? & ? & ->)|[(ii & ? & ? & ->)|[(ii & ? & ? & ->)|[(ii & ? & ? & ->)|[]]]]]; destruct Hl as [[-> ?]|[[-> ?]|[-> ?]]]; simpl in *; lia.
    + rewrite (bool_decide_false (Z.of_nat _ = 0)) by lia. rewrite decide_True by lia. rewrite !elem_of_app, !elem_of_dst_range, elem_of_nil.
      intros [(ii & ? & ? & ->)|[[]|[(ii & ? & ? & ->)|[(ii & ? & ? & ->)|(ii & ? & ? & ->)]]]]; destruct Hl as [[-> ?]|[[-> ?]|[-> ?]]]; simpl in *; try case_bool_decide; lia.
Qed.

(** The routers in the order they are created. *)
Definition order (g : Mem_Knobs) (l3 : nat) (level id : Z) : nat :=
  if bool_decide (level = MEM_L2) then Z.to_nat id
  else if bool_decide (level = MEM_L3) then (num_sim_cores g + Z.to_nat id)%nat
  else (num_sim_cores g + l3 + Z.to_nat id)%nat.

Lemma seq_at a n i x : (i < n)%nat → x = (a + i)%nat → seq a n !! i = Some x.
Proof. intros Hi ->. by apply lookup_seq_lt. Qed.

Lemma numbered a n i : (i < n)%nat → mjoin ((Some <$> seq a n) !! i) = Some (a + i)%nat.
Proof. intros Hi. by rewrite list_lookup_fmap, lookup_seq_lt. Qed.

Lemma mesh_place g l3 mc num mp level id :
  (num_large_cores g + num_small_cores g = num_sim_cores g)%nat →
  mesh_mapping (num_large_cores g) (num_small_cores g) l3 mc num = Ok mp → unit_of g l3 mc level id →
  mp !! Z.to_nat (home true g l3 mc level id) = Some (order g l3 level id).
Proof.
  intros Hsum E [Hid Hl]. unfold mesh_mapping in E. destruct (decide (length _ ≤ num)%nat) as [Hfit|]; [|done]. clear Hfit. injection E as <-.
  unfold home, order, MEM_L2, MEM_L3, MEM_MC in *. destruct (decide (num_large_cores g = 0%nat)) as [E0|E0].
  - rewrite !(bool_decide_true (Z.of_nat _ = 0)) by lia. rewrite (bool_decide_true (num_large_cores g = 0%nat)) by done. rewrite (bool_decide_false (num_large_cores g ≠ 0%nat)) by lia.
    rewrite E0 in *. rewrite (app_nil_l (seq 0 _ ++ _)). destruct Hl as [[-> ?]|[[-> ?]|[-> ?]]]; simpl.
    + rewrite lookup_app_l by (rewrite length_seq; lia). apply seq_at; lia.
    + rewrite lookup_app_r, lookup_app_l by (rewrite !length_seq; lia). apply seq_at; rewrite ?length_seq; lia.
    + rewrite lookup_app_r, lookup_app_l by (rewrite !length_seq; lia). apply seq_at; rewrite ?length_seq; lia.
  - rewrite !(bool_decide_false (Z.of_nat _ = 0)) by lia. rewrite (bool_decide_false (num_large_cores g = 0%nat)) by done. rewrite (bool_decide_true (num_large_cores g ≠ 0%nat)) by done.
    rewrite ?app_nil_l. destruct Hl as [[-> ?]|[[-> ?]|[-> ?]]]; simpl; [case_bool_decide|..].
    + rewrite !lookup_app_r by (rewrite !length_seq; lia). rewrite lookup_app_l by (rewrite !length_seq; lia). apply seq_at; rewrite ?length_seq; lia.
    + rewrite lookup_app_l by (rewrite length_seq; lia). apply seq_at; lia.
    + rewrite lookup_app_r, lookup_app_l by (rewrite !length_seq; lia). apply seq_at; rewrite ?length_seq; lia.
    + rewrite lookup_app_r, lookup_app_l by (rewrite !length_seq; lia). apply seq_at; rewrite ?length_seq; lia.
Qed.

(** What the map of destinations is right for: kinds of memory with routers at the second
    level and not at the first, at most a hundred caches of a level, the first placement
    of a ring, no medium cores in a mesh. *)
Record homes_ok (k : Knobs) (g : Mem_Knobs) (nk : Noc_Knobs) : Prop := {
  ho_kind : has_router (memory_type g) MEM_L1 = false ∧ has_router (memory_type g) MEM_L2 = true;
  ho_cores : (num_sim_cores g ≤ 100)%nat;
  ho_l3 : 1 ≤ num_l3 k ≤ 100;
  ho_mc : 1 ≤ num_mc k < 2 ^ 31;
  ho_place : match noc_topology nk with ring => router_placement g = 0 | mesh => num_medium_cores g = 0%nat end;
}.

Lemma units_reach k g nk unset t dst n level id :
  homes_ok k g nk → memory_system k g nk unset = Ok (t, dst, n) → unit_of g (Z.to_nat (num_l3 k)) (Z.to_nat (num_mc k)) level id →
  ∃ i r, terminal t level id = Some i ∧ n_routers n !! i = Some r ∧ r_id r = get_dst_router_id dst level id.
Proof.
  intros [[Hk1 Hk2] Hc H3 H4 Hp] E Hu. unfold memory_system in E. apply bind_Ok in E as (u & Hchk & E). apply bind_Ok in E as ([[t1 d1] n1] & Hinit & E).
  apply bind_Ok in E as (n2 & Hnet & E). injection E as <- <- <-. unfold memory_init in Hinit. rewrite Hk1, Hk2 in Hinit.
  assert (ctor_ok nk) as Hctor.
  { apply bind_Ok in Hinit as ([r1 m1] & _ & Hinit). apply bind_Ok in Hinit as ([r2 m2] & _ & Hinit). apply bind_Ok in Hinit as ([r3 m3] & _ & Hinit).
    apply bind_Ok in Hinit as ([r4 m4] & E4 & _). eapply interfaces_ctor; [|exact E4]. lia. }
  set (l3 := Z.to_nat (num_l3 k)) in *. set (mc := Z.to_nat (num_mc k)) in *. set (cores := num_sim_cores g) in *.
  destruct (interfaces_fresh nk unset false cores 0 _ Hctor (empty_fresh nk unset)) as (m1 & E1 & F1). rewrite E1 in Hinit. cbn [mbind res_bind] in Hinit.
  destruct (interfaces_fresh nk unset true cores _ _ Hctor F1) as (m2 & E2 & F2). rewrite E2 in Hinit. cbn [mbind res_bind] in Hinit.
  destruct (interfaces_fresh nk unset true l3 _ _ Hctor F2) as (m3 & E3 & F3). change (has_router (memory_type g) MEM_L3) with true in Hinit. rewrite E3 in Hinit. cbn [mbind res_bind] in Hinit.
  destruct (interfaces_fresh nk unset true mc _ _ Hctor F3) as (m4 & E4 & F4). rewrite E4 in Hinit. cbn [mbind res_bind] in Hinit.
  apply bind_Ok in Hinit as (l & El & Hinit). injection Hinit as <- <- <-. rewrite !Nat.add_0_l in *.
  exists (order g l3 level id). assert (terminal (mkInterfaces (replicate cores None) (Some <$> seq 0 cores) (Some <$> seq cores l3) (Some <$> seq (cores + l3) mc)) level id = Some (order g l3 level id)) as Ht.
  { destruct Hu as [Hid Hl]. unfold terminal, order. rewrite bool_decide_false by lia. destruct Hl as [[-> ?]|[[-> ?]|[-> ?]]].
    - exact (numbered 0 cores (Z.to_nat id) ltac:(lia)).
    - exact (numbered cores l3 (Z.to_nat id) ltac:(lia)).
    - exact (numbered (cores + l3) mc (Z.to_nat id) ltac:(lia)). }
  pose proof (net_ids nk unset (cores + l3 + mc) _ _ _ _ m4 n2 Hctor ltac:(lia) F4 Hnet) as Hids. unfold ctor_ok in Hctor. destruct (noc_topology nk).
  - destruct (Hids (order g l3 level id)) as (r & Hr & Eid).
    { unfold order. destruct Hu as [Hid [[-> ?]|[[-> ?]|[-> ?]]]]; simpl; lia. }
    exists r. split; [done|]. split; [done|]. rewrite Eid. rewrite (proj1 Hctor) in El. rewrite (ring_homes g l3 mc l level id Hc ltac:(lia) Hp El Hu).
    unfold order, home. destruct Hu as [Hid [[-> ?]|[[-> ?]|[-> ?]]]]; simpl; lia.
  - assert (num_large_cores g + num_small_cores g = cores)%nat as Hsum.
    { unfold check_cores in Hchk. apply bind_Ok in Hchk as (u' & Hchk & _). destruct (decide _) in Hchk; [|done]. lia. }
    destruct Hids as (w & mp & _ & Hmp & Hat). destruct (Hat _ _ (mesh_place g l3 mc _ mp level id Hsum Hmp Hu)) as (r & Hr & Eid).
    exists r. split; [done|]. split; [done|]. rewrite Eid. rewrite (proj1 Hctor) in El. rewrite (mesh_homes g l3 mc l level id Hc ltac:(lia) Hsum El Hu).
    rewrite Z2Nat.id; [done|]. unfold home. destruct Hu as [Hid [[-> ?]|[[-> ?]|[-> ?]]]]; simpl; repeat case_bool_decide; simpl; lia.
Qed.

(** C19. A request finds its caches and its memory controller, in the systems of [homes_ok]: a
    memory with routers for the second level caches and none for the first (so neither
    l2_coupled_local nor l2_decoupled_local), at most 100 cores and 100 third level caches, in a
    ring of router placement 0 or in a mesh without medium cores. Whatever the address, the units
    [set_cache_id] chooses exist, each has a router, and the identifier of that router in
    the network is the destination the map gives for the unit. *)
Theorem requests_find_their_home k g nk unset t dst n factors core addr :
  homes_ok k g nk → memory_system k g nk unset = Ok (t, dst, n) → 0 ≤ core < Z.of_nat (num_sim_cores g) →
  ∃ l3 mc, set_cache_id k g factors core addr = Ok (l3, mc) ∧
    ∀ level id, (level, id) ∈ [(MEM_L2, core); (MEM_L3, l3); (MEM_MC, mc)] →
      ∃ i r, terminal t level id = Some i ∧ n_routers n !! i = Some r ∧ r_id r = get_dst_router_id dst level id.
Proof.
  intros Hok E Hcore. pose proof Hok as [_ _ H3 H4 _].
  assert (∃ l3 mc, set_cache_id k g factors core addr = Ok (l3, mc) ∧ 0 ≤ l3 < num_l3 k ∧ 0 ≤ mc < num_mc k) as (l3 & mc & Es & Hl3 & Hmc).
  { assert (∀ a num, 1 ≤ num < 2 ^ 31 → 0 ≤ a `mod` 2 ^ Z.log2 num < num) as Hbank.
    { intros a num Hn. destruct (mask_of num ltac:(lia)) as (_ & Hl & Hle). pose proof (Z.mod_pos_bound a (2 ^ Z.log2 num) ltac:(by apply Z.pow_pos_nonneg)). lia. }
    assert (∀ a num, 1 ≤ num < 2 ^ 31 → 0 ≤ a `mod` num < num) as Hmod by (intros; apply Z.mod_pos_bound; lia).
    unfold memory_system in E. apply bind_Ok in E as (u & Hchk & _). unfold check_cores in Hchk. apply bind_Ok in Hchk as (u' & _ & Hchk).
    apply assert_Ok in Hchk. unfold set_cache_id.
    destruct (memory_type g); rewrite ?bool_decide_eq_true in Hchk; rewrite ?BANK_spec, ?pick_unit_spec by lia; cbn [mbind res_bind];
      do 2 eexists; (split; [done|]); split; first [lia|apply Hbank; lia|apply Hmod; lia]. }
  exists l3, mc. split; [done|]. intros level id Hin. apply (units_reach k g nk unset); [done..|].
  unfold unit_of. rewrite !elem_of_cons, elem_of_nil in Hin. destruct Hin as [[= -> ->]|[[= -> ->]|[[= -> ->]|[]]]]; split; lia.
Qed.

(** ** Addresses and the cells of the memory *)

(** The parts of an address, when the row buffer and the banks are powers of two. *)
Lemma parse_parts k mp addr row bank :
  m_cid_mask mp = 2 ^ row - 1 → m_bid_mask mp = 2 ^ bank - 1 → m_bid_shift mp = row → m_rid_shift mp = bank → 0 ≤ m_bid_xor_shift mp < 64 →
  0 ≤ row < 31 → 0 ≤ bank < 31 → 0 < num_mc k < 2 ^ 31 → 0 ≤ addr < 2 ^ 31 * 2 ^ (row + bank) →
  let q := addr / 2 ^ row / num_mc k in
  let x := if bank_xor_index k then (addr / 2 ^ m_bid_xor_shift mp) `mod` 2 ^ bank else 0 in
  parse_address k mp addr = Ok (Z.lxor (q `mod` 2 ^ bank) x, q / 2 ^ bank, addr `mod` 2 ^ row).
Proof.
  intros Ec Eb Es Er Hx Hrow Hbank Hmc Ha q x. unfold parse_address, shr64, div64. rewrite Ec, Eb, Es, Er.
  rewrite !(bool_decide_true (_ < 64)) by lia. cbn [mbind res_bind]. rewrite !land_mask by lia. rewrite (Z.shiftr_div_pow2 addr row) by lia.
  assert ((if mc_test (num_mc k) then Ok (addr / 2 ^ row) else if bool_decide (u64 (num_mc k) = 0) then Err Undefined else Ok (addr / 2 ^ row / u64 (num_mc k))) = Ok q) as ->.
  { rewrite u64_small by lia. rewrite bool_decide_false by lia. destruct (mc_test (num_mc k)) eqn:Et; [|done]. unfold q. f_equal.
    unfold mc_test in Et. apply bool_decide_eq_true in Et. destruct (bool_decide_reflect (num_mc k - 1 = 0)) as [E1|]; [|by rewrite Z.land_0_r in Et].
    replace (num_mc k) with 1 by lia. by rewrite Z.div_1_r. }
  cbn [mbind res_bind]. rewrite (Z.shiftr_div_pow2 q bank) by lia. rewrite !land_mask by lia. rewrite Z.shiftr_div_pow2 by lia.
  assert (0 < 2 ^ row ∧ 0 < 2 ^ bank) as [P1 P2] by (split; apply Z.pow_pos_nonneg; lia).
  assert (2 ^ row < 2 ^ 31 ∧ 2 ^ bank < 2 ^ 31) as [L1 L2] by (split; apply Z.pow_lt_mono_r; lia).
  pose proof (Z.mod_pos_bound addr (2 ^ row) P1). pose proof (Z.mod_pos_bound q (2 ^ bank) P2). pose proof (Z.mod_pos_bound (addr / 2 ^ m_bid_xor_shift mp) (2 ^ bank) P2).
  assert (0 ≤ q / 2 ^ bank < 2 ^ 31) as Hq.
  { assert (0 ≤ q ≤ addr / 2 ^ row) as Hqa.
    { pose proof (Z.div_pos addr (2 ^ row) ltac:(lia) P1). unfold q. split; [apply Z.div_pos; lia|]. apply Z.div_le_upper_bound; [lia|nia]. }
    assert (addr / 2 ^ row < 2 ^ 31 * 2 ^ bank) by (apply Z.div_lt_upper_bound; [lia|]; rewrite Z.pow_add_r in Ha by lia; lia).
    split; [apply Z.div_pos; lia|]. apply Z.div_lt_upper_bound; lia. }
  rewrite !int_small by lia. rewrite bool_decide_true by lia. cbn [assert_ mbind res_bind]. unfold x. by destruct (bank_xor_index k); rewrite ?Z.lxor_0_r.
Qed.

Lemma mapping_parts k unset row bank :
  knobs_ok k → rowbuffer_size k = 2 ^ row → num_bank k = 2 ^ bank → 0 ≤ row < 31 → 0 ≤ bank < 31 →
  m_cid_mask (make_mapping k unset) = 2 ^ row - 1 ∧ m_bid_mask (make_mapping k unset) = 2 ^ bank - 1 ∧
  m_bid_shift (make_mapping k unset) = row ∧ m_rid_shift (make_mapping k unset) = bank ∧ 0 ≤ m_bid_xor_shift (make_mapping k unset) < 64.
Proof.
  intros Hk Er Eb Hr Hb. pose proof (make_mapping_ok k unset Hk) as (_ & _ & Hx & _). destruct Hk as [_ _ _ _ Hmc _ Hi _ _].
  assert (∀ e, 0 ≤ e < 31 → log2_int (2 ^ e) = e ∧ N_BIT_MASK e = 2 ^ e - 1) as Hp.
  { intros e He. assert (2 ^ e < 2 ^ 31) by (apply Z.pow_lt_mono_r; lia). pose proof (Z.pow_pos_nonneg 2 e ltac:(lia) ltac:(lia)).
    destruct (log2_int_spec (2 ^ e) ltac:(lia)) as [-> _]. rewrite Z.log2_pow2 by lia. split; [done|]. unfold N_BIT_MASK. rewrite Z.shiftl_1_l. apply u32_small. lia. }
  destruct (Hp row Hr) as [Lr Mr], (Hp bank Hb) as [Lb Mb]. split_and!; try apply Hx; unfold make_mapping; rewrite Er, Eb, Lr, Lb.
  - destruct (default_interleaving k), (new_interleaving k); try done; by destruct Hi.
  - destruct (default_interleaving k), (new_interleaving k); try done; by destruct Hi.
  - destruct (default_interleaving k); [done|]. destruct (new_interleaving k); [|by destruct Hi]. simpl. destruct (mc_test (num_mc k)) eqn:Et; [|done].
    unfold mc_test in Et. apply bool_decide_eq_true in Et. destruct (bool_decide_reflect (num_mc k - 1 = 0)) as [E1|]; [|by rewrite Z.land_0_r in Et].
    replace (num_mc k) with 1 by lia. change (int (log2_int 1)) with 0. rewrite Z.add_0_r. apply u32_small. lia.
  - destruct (default_interleaving k), (new_interleaving k); try done; by destruct Hi.
Qed.

(** Above a multiple of [P] an address is what its first multiple of [P] is. *)
Lemma shift_of_row P s addr rid : 0 < P → 0 ≤ s → (P | 2 ^ s) → addr / P = rid → addr / 2 ^ s = P * rid / 2 ^ s.
Proof.
  intros HP Hs [e He] Hrid. rewrite He. assert (0 < e) as Hpe by (pose proof (Z.pow_pos_nonneg 2 s ltac:(lia) Hs); nia).
  rewrite (Z.mul_comm e P), Z.div_mul_cancel_l by lia. rewrite <- Z.div_div by lia. by rewrite Hrid.
Qed.



(** ** Concrete configurations *)

(** The knobs of six, or eight, controllers with the row buffers and banks of params_gtx580, with the
    default interleaving and with a new one. *)
Definition many_controllers (mcs : Z) (default : bool) : Knobs := {|
  num_bank := 16; num_channel := 1; bus_width := 8; buffer_size := 128; merge_requests := true; bank_xor_index := true;
  additional_latency := 0; num_mc := mcs; rowbuffer_size := 2048; default_interleaving := default; new_interleaving := negb default;
  l3_line_size := 64; num_l3 := mcs; l3_num_set := 8192; activate_latency := 25; precharge_latency := 10; column_latency := 11;
  noc_vc_partition := false; enable_new_noc := true |}.
Abbreviation six_controllers := (many_controllers 6).
Abbreviation eight_controllers := (many_controllers 8).
Definition six_memory : Mem_Knobs := mkMemKnobs l2_decoupled_network 16 0 0 16 128 0.

Lemma many_controllers_ok mcs default : 0 < mcs < 2 ^ 31 → knobs_ok (many_controllers mcs default).
Proof.
  intros Hm. assert (Z.log2 mcs < 31) as Hl by (apply Z.log2_lt_pow2; lia). split; try done.
  - change (0 < 64 < 2 ^ 32 ∧ 0 < mcs < 2 ^ 32 ∧ 0 < 8192 < 2 ^ 32). lia.
  - destruct default; [by left|by right].
  - change (6 + Z.log2 mcs + 13 + 5 < 64). lia.
Qed.


(** With six controllers the bits that are mixed into the index of the bank are not bits of
    the row number, and two addresses share a cell. *)
Example six_controllers_alias :
  (set_cache_id (six_controllers false) six_memory (64, 2048) 0 67096576 ≫= λ x, Ok x.2) =
    (set_cache_id (six_controllers false) six_memory (64, 2048) 0 67108864 ≫= λ x, Ok x.2) ∧
  parse_address (six_controllers false) (make_mapping (six_controllers false) (mkMapping 0 0 0 0 0)) 67096576 = Ok (4, 341, 0) ∧
  parse_address (six_controllers false) (make_mapping (six_controllers false) (mkMapping 0 0 0 0 0)) 67108864 = Ok (4, 341, 0).
Proof. vm_compute. split_and!; reflexivity. Qed.


(** Two large and three small cores with two third level caches and one controller: a mesh
    of nine routers. *)
Definition wit_mesh_noc : Noc_Knobs := mkNoc mesh 2 4 1 16 OLDEST_FIRST false 2 false false false.
Definition wit_mesh_knobs : Knobs := {|
  num_bank := 8; num_channel := 1; bus_width := 8; buffer_size := 128; merge_requests := true; bank_xor_index := true;
  additional_latency := 0; num_mc := 1; rowbuffer_size := 2048; default_interleaving := true; new_interleaving := false;
  l3_line_size := 64; num_l3 := 2; l3_num_set := 8192; activate_latency := 6; precharge_latency := 6; column_latency := 6;
  noc_vc_partition := false; enable_new_noc := true |}.
Definition wit_mesh_memory : Mem_Knobs := mkMemKnobs l3_decoupled_network 5 2 0 3 128 0.
Definition wit_mesh_system : Interfaces * gmap Z Z * router_wrapper_c :=
  match memory_system wit_mesh_knobs wit_mesh_memory wit_mesh_noc (λ _, 0) with Ok x => x | Err _ => (mkInterfaces [] [] [] [], ∅, mkNet [] ∅) end.

Lemma wit_mesh_homes : homes_ok wit_mesh_knobs wit_mesh_memory wit_mesh_noc.
Proof. split; simpl; try done; lia. Qed.
Lemma wit_mesh_built : memory_system wit_mesh_knobs wit_mesh_memory wit_mesh_noc (λ _, 0) = Ok (wit_mesh_system.1.1, wit_mesh_system.1.2, wit_mesh_system.2).
Proof. vm_compute. reflexivity. Qed.

(** The second small core (the fourth core) is behind the controller, at place 6. *)
Lemma requests_find_their_home_witness :
  ∃ i r, terminal wit_mesh_system.1.1 MEM_L2 3 = Some i ∧ n_routers wit_mesh_system.2 !! i = Some r ∧ r_id r = 6.
Proof.
  destruct (requests_find_their_home wit_mesh_knobs wit_mesh_memory wit_mesh_noc (λ _, 0) _ _ _ (2 ^ 19, 2 ^ 14) 3 0x12345678 wit_mesh_homes wit_mesh_built ltac:(simpl; lia))
    as (l3 & mc & _ & H). destruct (H MEM_L2 3 ltac:(left)) as (i & r & H1 & H2 & H3). exists i, r. split; [exact H1|]. split; [exact H2|].
  rewrite H3. vm_compute. reflexivity.
Defined.
